(* ===== verification/_CoqProject ===== *)
-Q . S2P
Prelude.v
Strings.v
NetTools.v
DbRegistry.v
TaskModel.v
TaskStore.v
TaskDao.v
TaskQueue.v
TaskRepository.v
TaskManager.v
TaskSystem.v
TaskFlow.v
TaskWorker.v
TaskHealth.v
TaskRoutines.v
TaskRuns.v
Mutex.v
ConcQueue.v
RedisCache.v
Pools.v
Gorm.v
PromptTemplate.v
PromptStore.v
Snowflake.v
Crypto.v
Cache.v
Settings.v
Notify.v
Sse.v
Scroll.v
Stat.v
Regexp.v
Validate.v
Json.v
JsonText.v
RedisCmds.v
Types.v
Money.v
Metrics.v
Jobs.v
RpcQueue.v
Llm.v
FileInfo.v
Files.v
Remote.v
Logging.v
Weedfs.v
I18n.v
Http.v
HttpServer.v
HttpLog.v
StructInfo.v
LocalDir.v
Lifecycle.v
FileSys.v
HttpTools.v
Upload.v
ObjectStore.v
S3Fs.v
MinFs.v
Storage.v
StorageV2.v
UploadApi.v
FileQuery.v
PageQuery.v
