(* ===== verification/Prelude.v ===== *)
(** A model of the Go library [yg-go] (the code under [src/], without the
    vendored packages) and its correctness theorems.

    * How Go is modelled

    A function that returns [(A, error)] is a [Res A].  Code that calls
    services or the operating system runs in the monad [M S A] of this file:
    a world with the state [S] and a counter of the external calls; the class
    [Env] gives, by that counter, the readings of the clock and the calls that
    fail.  A failing call has no effect on the service, and what was done
    before an error stays.  Code that may panic runs in [G S A], with
    [precover] for [recover].  Machine integers are [Z] with their wrap-around
    written out where the code can reach it; text is a [string] of bytes.  A
    service (Redis, gorm on MySQL, Elasticsearch, object storage, an LLM
    provider) is a class of operations with the documented behaviour as laws,
    and an executable instance shows that the laws can hold.  gorm itself is
    modelled on a typed table after the vendored code ([Gorm]).  Concurrent
    code is a transition system whose steps are the atomic actions of the
    goroutines; theorems hold in every reachable state.  A loop without a
    structural bound takes fuel, and a theorem says how much is enough.

    * The parts

    Tasks ([src/task]).  [TaskModel] is the record and its transitions
    (model/entity.go), [TaskStore] the table and the streams, [TaskDao]
    model/dao.go, [TaskQueue] manager/queue.go and config.go, [TaskRepository]
    manager/repository.go, [TaskManager] manager/manager.go, [TaskWorker]
    worker/, [TaskHealth] health/.  [TaskSystem] puts the manager's operations
    together as a transition system and proves that claims respect the order
    of the steps and the redo budget in every reachable state; [TaskFlow] says
    what each operation does on a failure-free run; [TaskRuns] holds the
    concrete runs.  [TaskRoutines] is the goroutines of the manager, the checker
    and the worker with their start and stop, interleaved step by step: one loop
    of each at most, and a stop that can always end.  The worker is proved against the interface [WorkManager],
    which the manager implements through an adapter.

    Coordination.  [Mutex] is src/mutex (one master at a time), [RedisCache]
    the locks of src/dbtools/redispool and lifecycle.Retry, [RedisCmds] its
    commands on an interface of the server (no value is lost between two lists), [Pools] src/pool
    (leases are exclusive), [ConcQueue] src/concqueue, [Stat] src/stat.

    Prompts ([src/prompt]).  [PromptTemplate] validates and renders
    templates (of text, variables, branches and built-in functions in its theorem),
    [PromptStore] is the two tables and the renderer over them.

    Data and caches.  [Gorm] as above; [Cache] src/cache with the interface
    [Cache] that its three implementations satisfy; [Settings] src/settings
    over that interface, [Crypto] (src/encryptor) for its secrets; [Snowflake]
    the ids; [Scroll] src/dbtools/estool; [Sse] src/apis/sseclient.

    Files and uploads.  [Files] is the path functions of the standard library
    and a file system as a tree; [LocalDir] src/storage/localdir.go on it;
    [FileInfo] the tables of files; [Upload] uploader.go and tencent_cos.go on
    the interface [Cos]; [HttpTools] content types and random texts.
    [ObjectStore] is the interface of an S3 service with its laws, the pages
    of its listings and the contract of a driver, a map from paths to
    contents, which [S3Fs] (s3.go) and [MinFs] (minoss.go) refine; [StorageV2] is
    the drivers of src/storage/v2, each method of which is that of the first
    package; [Storage] is
    storage.go and the registry of v2: whichever driver a setting asks for, what
    is uploaded is read back ([UploadApi], src/apis/upload, is the handler over
    them, from the form to the row), a storager once loaded stays, and the registry
    gives the storagers of the first package.  [FileQuery] is the query builder
    on the table of files, with the statement of gorm that it changes; [Weedfs]
    the walk over the folders of a SeaweedFS filer.

    HTTP ([src/apis]).  [Http] is the part of gin that the code relies on (the
    context and the chain of handlers) with the middlewares of runtime/ and
    the login status; [HttpServer] the router, the reflective handler made of
    an API function and the base response; [PageQuery] the check of a list
    request (apiobj/query.go); [HttpLog] what a request leaves in the log and in
    the metrics (middleware/logger.go, metrics.go, recovery.go) on [Logging],
    [Metrics] and [Money]; [StructInfo] the description of a type, which ends for
    recursive types; [I18n] the messages of src/i18n.
    The theorems: a route that requires a login answers without a credential
    with the refusal alone; a function of the documented type is always called
    as meant.

    Jobs, queues, metrics.  [Jobs] is src/job, src/job/asyncjob and
    src/apis/exportjob on their tables, also with the monitor interleaved;
    [RpcQueue] src/queue/rpcqueue as events of the requests and the reply
    routine; [Metrics] src/metrics, which refines one list of updates for each
    kind, name and set of labels.

    Texts.  [Regexp] is a parser and a matcher of regular expressions, proved
    to decide the language of the expression, under the validators of
    [Validate]; [Strings] and [Json] are the standard functions on texts and
    JSON values, under the messages and the streaming client of [Llm];
    [JsonText] prints and reads the text of JSON, under the column types of
    [Types] (src/types); [Money] is src/types/money.go on the floating point of
    the Standard Library, with capital numerals that read back.

    The process and its surroundings.  [Lifecycle] is src/lifecycle: waiting
    and exit as an interleaved process of goroutines, with its signals, its
    timer and its closers, and the file with its number; [Remote] is the
    configuration, from a file or from the settings server (src/config,
    src/settings/remote, the hashes of src/encryptor); [Logging] is src/logs,
    the loggers by name and in contexts and the entries that they write;
    [DbRegistry] is src/dbtools/v2 and redispool/redis.go, the drivers and the
    connections by name; [FileSys] is src/filesys, [NetTools] src/nettools/ip.go
    with the addresses of package net; [Notify] is src/notify, mail accounts
    and codes by SMS.  The theorems: a process with a timeout of a
    microsecond or more ends with 0 only when the closers that it had at the exit
    are done, and never hangs; a configuration that fails to load leaves
    the one in use; there is a logger under every name.

    * Fuel

    Loops over a finite list are structural.  The others take fuel: the SCAN
    loop as many turns as the server needs pages, a wait of [Snowflake] as many
    readings of the clock as it takes to pass the last time, the scroll loop
    one turn for each page, as does the copy of a folder of an object storage;
    the copy of a folder on disk takes the depth of the tree, the
    chain of handlers one more than its length, and a theorem of each file
    says that this much is enough.

    * Not modelled

    What is only printed, and the bytes of a log entry; signals of the system
    and the exit of the process are steps of the model, mail, SMS, the
    databases and YAML are parameters of it; WeChat, RSA and the documentation
    pages, which only hand data to a library.  The components of the manifest that are
    partly modelled name what they lack.
*)
From Stdlib Require Export ZArith Lia String Ascii Bool List Permutation Sorted.
From Stdlib Require Import DecimalString DecimalZ DecimalN.
From stdpp Require Export base gmap strings list sorting.
#[global] Open Scope Z_scope.

(** * Go errors

    [ErrVar] is a package-level [errors.New] value, compared by identity (here
    by its text); [ErrNew] is the result of [fmt.Errorf] without [%w];
    [ErrWrap p e] is [fmt.Errorf("p%w", e)] and [ErrWith e t] is
    [fmt.Errorf("%wt", e)]. *)
Inductive error : Type :=
| ErrVar (text : string)
| ErrNew (text : string)
| ErrWrap (prefix : string) (e : error)
| ErrWith (e : error) (suffix : string).

#[export] Instance error_eq_dec : EqDecision error.
Proof. solve_decision. Defined.

(** [err.Error()]. *)
Fixpoint Error (e : error) : string :=
  match e with
  | ErrVar t | ErrNew t => t
  | ErrWrap p e' => (p ++ Error e')%string
  | ErrWith e' t => (Error e' ++ t)%string
  end.

(** [errors.Is(e, target)]: [e] itself or something it wraps. *)
Fixpoint errors_Is (e target : error) : bool :=
  bool_decide (e = target) ||
  match e with
  | ErrWrap _ e' | ErrWith e' _ => errors_Is e' target
  | _ => false
  end.

(** * Results and the call monad

    A Go function returning [(A, error)] is a [Res A]: the value when the error
    is nil, the error otherwise. *)
Inductive Res (A : Type) : Type :=
| Ok (a : A)
| Err (e : error).
Arguments Ok {A} a.
Arguments Err {A} e.

Definition is_ok {A} (r : Res A) : bool := match r with Ok _ => true | Err _ => false end.

(** What the program cannot decide: the readings of the clock (nanoseconds
    since the epoch) and which calls to the database or to Redis fail, and
    with which error.  Both are indexed by the number of external calls made
    so far; a failing call has no effect on the service. *)
Class Env : Type := {
  env_clock : nat -> Z;
  env_fault : nat -> option error;
}.

(** No external call fails from call [n] on. *)
Definition no_fault_from `{Env} (n : nat) : Prop :=
  forall i, (n <= i)%nat -> env_fault i = None.

(** The state of the services, with the count of the calls made to them. *)
Record World (S : Type) : Type := mkWorld { calls : nat; st : S }.
Arguments mkWorld {S} calls st.
Arguments calls {S} w.
Arguments st {S} w.

(** Stateful Go code that may return an error; state changes made before an
    error stay. *)
Definition M (S A : Type) : Type := World S -> Res A * World S.

Definition gret {S A} (a : A) : M S A := fun w => (Ok a, w).
Definition graise {S A} (e : error) : M S A := fun w => (Err e, w).
Definition gbind {S A B} (m : M S A) (k : A -> M S B) : M S B :=
  fun w => match m w with
           | (Ok a, w') => k a w'
           | (Err e, w') => (Err e, w')
           end.
(** [v, err := f()] without returning: the outcome as a value. *)
Definition gtry {S A} (m : M S A) : M S (Res A) :=
  fun w => let '(r, w') := m w in (Ok r, w').
(** [if err != nil { return fmt.Errorf("p%w", err) }]. *)
Definition gwrap {S A} (p : string) (m : M S A) : M S A :=
  fun w => match m w with
           | (Ok a, w') => (Ok a, w')
           | (Err e, w') => (Err (ErrWrap p e), w')
           end.

(** [fmt.Errorf("...%v", err)]: the text survives, the identity does not.  The
    JSON dump of the arguments in the text is left out. *)
Definition gfmt {S A} (p : string) (m : M S A) : M S A :=
  fun w => match m w with
           | (Ok a, w') => (Ok a, w')
           | (Err e, w') => (Err (ErrNew (p ++ Error e)), w')
           end.

Declare Scope go_scope.
Delimit Scope go_scope with go.
Notation "'let!' x := m 'in' k" := (gbind m (fun x => k))
  (at level 10, x pattern, m at level 100, k at level 200) : go_scope.
Notation "m ;;; k" := (gbind m (fun _ => k))
  (at level 100, k at level 200, right associativity) : go_scope.
#[global] Open Scope go_scope.

(** [time.Now()], in nanoseconds. *)
Definition gnow `{Env} {S} : M S Z :=
  fun w => (Ok (env_clock (calls w)), mkWorld (Datatypes.S (calls w)) (st w)).

(** Reading and updating the program's own state: no external call. *)
Definition gget {S} : M S S := fun w => (Ok (st w), w).
Definition gmodify {S} (f : S -> S) : M S unit := fun w => (Ok tt, mkWorld (calls w) (f (st w))).

(** One request to an external service: it fails without effect, or runs [f]. *)
Definition gext `{Env} {S A} (f : S -> A * S) : M S A :=
  fun w => match env_fault (calls w) with
           | Some e => (Err e, mkWorld (Datatypes.S (calls w)) (st w))
           | None => let '(a, s') := f (st w) in
                     (Ok a, mkWorld (Datatypes.S (calls w)) s')
           end.

(** The same for a request the service itself may refuse. *)
Definition gextr `{Env} {S A} (f : S -> Res A * S) : M S A :=
  fun w => match env_fault (calls w) with
           | Some e => (Err e, mkWorld (Datatypes.S (calls w)) (st w))
           | None => let '(r, s') := f (st w) in
                     (r, mkWorld (Datatypes.S (calls w)) s')
           end.

(** [for _, x := range l { if err := f(x); err != nil { return err } }]. *)
Fixpoint gfor {S A} (l : list A) (f : A -> M S unit) : M S unit :=
  match l with
  | [] => gret tt
  | x :: l' => f x ;;; gfor l' f
  end.

(** [for _, x := range l { if err := f(x); err != nil { log; continue } }]. *)
Fixpoint gfor_log {S A} (l : list A) (f : A -> M S unit) : M S unit :=
  match l with
  | [] => gret tt
  | x :: l' => gtry (f x) ;;; gfor_log l' f
  end.

(** * Panics

    [G S A] is Go code that may panic: errors are values, a panic carries its
    value and unwinds, the state changes made before it stay. *)
Inductive Panics (A : Type) : Type :=
| Val (a : A)
| Panic (v : string).
Arguments Val {A} a.
Arguments Panic {A} v.

Definition G (S A : Type) : Type := World S -> Panics A * World S.

Definition pret {S A} (a : A) : G S A := fun w => (Val a, w).
Definition ppanic {S A} (v : string) : G S A := fun w => (Panic v, w).
Definition pbind {S A B} (m : G S A) (k : A -> G S B) : G S B :=
  fun w => match m w with
           | (Val a, w') => k a w'
           | (Panic v, w') => (Panic v, w')
           end.
(** [defer func() { if r := recover(); r != nil { ret = h(r) } }()]. *)
Definition precover {S A} (m : G S A) (h : string -> A) : G S A :=
  fun w => match m w with
           | (Val a, w') => (Val a, w')
           | (Panic v, w') => (Val (h v), w')
           end.
(** A call that cannot panic, its error as a value. *)
Definition plift {S A} (m : M S A) : G S (Res A) :=
  fun w => let '(r, w') := m w in (Val r, w').
(** The clock and the own state where a panic may come. *)
Definition pnow `{Env} {S} : G S Z :=
  fun w => (Val (env_clock (calls w)), mkWorld (Datatypes.S (calls w)) (st w)).
Definition pget {S} : G S S := fun w => (Val (st w), w).
Definition pmodify {S} (f : S -> S) : G S unit := fun w => (Val tt, mkWorld (calls w) (f (st w))).
(** A [Res unit] as a Go [error]. *)
Definition err_of {A} (r : Res A) : option error :=
  match r with Ok _ => None | Err e => Some e end.

Notation "'let*' x := m 'in' k" := (pbind m (fun x => k))
  (at level 10, x pattern, m at level 100, k at level 200) : go_scope.

(** The state after a run. *)
Definition after {S A} (m : World S -> A * World S) (w : World S) : S := st (snd (m w)).

(** * Machine integers: Go's [int], [int64] and [uint64] *)
Definition two63 : Z := 9223372036854775808.
Definition two64 : Z := 18446744073709551616.
Definition wrap_u64 (z : Z) : Z := z mod two64.
Definition wrap_i64 (z : Z) : Z := (z + two63) mod two64 - two63.
Definition in_i64 (z : Z) : bool := (- two63 <=? z) && (z <? two63).
Definition in_u64 (z : Z) : bool := (0 <=? z) && (z <? two64).

Lemma wrap_i64_id z : - two63 <= z < two63 -> wrap_i64 z = z.
Proof. unfold wrap_i64, two63, two64. intros. rewrite Z.mod_small; lia. Qed.

Lemma wrap_i64_range z : - two63 <= wrap_i64 z < two63.
Proof.
  unfold wrap_i64, two63, two64.
  pose proof (Z.mod_pos_bound (z + 9223372036854775808) 18446744073709551616). lia.
Qed.

(** * Strings: Go strings are byte sequences *)
Definition str_eqb (a b : string) : bool := String.eqb a b.

(** [strings.Split(s, string(c))] for a one-byte separator: always at least
    one part. *)
Fixpoint split_on (c : ascii) (s : string) : list string :=
  match s with
  | EmptyString => [EmptyString]
  | String x s' =>
      if Ascii.eqb x c then EmptyString :: split_on c s'
      else match split_on c s' with
           | [] => [String x EmptyString]
           | p :: ps => String x p :: ps
           end
  end.

(** [key[n:]] for [n <= len(key)]. *)
Fixpoint str_drop (n : nat) (s : string) : string :=
  match n, s with
  | O, _ => s
  | S n', String _ s' => str_drop n' s'
  | S _, EmptyString => EmptyString
  end.

(** [strings.HasPrefix]. *)
Definition has_prefix (p s : string) : bool := String.prefix p s.

(** [fmt.Sprintf("%d", n)]. *)
Definition fmt_d (n : Z) : string := NilZero.string_of_int (Z.to_int n).

(** [strconv.ParseUint(s, 10, 64)]: digits only, in range. *)
Definition ParseUint (s : string) : option Z :=
  match NilZero.uint_of_string s with
  | Some d => let n := Z.of_N (N.of_uint d) in if n <? two64 then Some n else None
  | None => None
  end.

(** [strconv.ParseInt(s, 10, 64)]: an optional sign, digits, in range. *)
Definition ParseInt (s : string) : option Z :=
  let mag (r : string) :=
    match NilZero.uint_of_string r with
    | Some d => Some (Z.of_N (N.of_uint d))
    | None => None
    end in
  match s with
  | String "-" r =>
      match mag r with
      | Some n => if n <=? two63 then Some (- n) else None
      | None => None
      end
  | String "+" r =>
      match mag r with
      | Some n => if n <? two63 then Some n else None
      | None => None
      end
  | _ =>
      match mag s with
      | Some n => if n <? two63 then Some n else None
      | None => None
      end
  end.

Fixpoint str_mem (c : ascii) (s : string) : bool :=
  match s with
  | EmptyString => false
  | String x s' => Ascii.eqb x c || str_mem c s'
  end.

Lemma split_on_app c a b :
  str_mem c a = false ->
  split_on c (a ++ String c b) = a :: split_on c b.
Proof.
  induction a as [|x a IH]; simpl; intros H.
  - by rewrite Ascii.eqb_refl.
  - apply orb_false_iff in H as [Hx Ha]. by rewrite Hx, (IH Ha).
Qed.

Lemma split_on_none c a : str_mem c a = false -> split_on c a = [a].
Proof.
  induction a as [|x a IH]; simpl; intros H; [done|].
  apply orb_false_iff in H as [Hx Ha]. by rewrite Hx, (IH Ha).
Qed.

Lemma split_on_nonempty c s : split_on c s <> [].
Proof. destruct s as [|x s]; simpl; [done|]. destruct (Ascii.eqb x c); [done|]. by destruct (split_on c s). Qed.

Lemma uint_digits_no_minus d : str_mem "-" (NilEmpty.string_of_uint d) = false.
Proof. induction d; simpl; auto. Qed.

Lemma pos_to_uint_nonnil p : Pos.to_uint p <> Decimal.Nil.
Proof. apply DecimalPos.Unsigned.to_uint_nonnil. Qed.

Lemma fmt_d_no_minus n : 0 <= n -> str_mem "-" (fmt_d n) = false.
Proof.
  intros Hn. unfold fmt_d. destruct n as [|p|p]; [done| |lia].
  simpl. pose proof (pos_to_uint_nonnil p).
  destruct (Pos.to_uint p) eqn:E; try done; simpl; apply uint_digits_no_minus.
Qed.

Lemma of_uint_pos_to_uint p : N.of_uint (Pos.to_uint p) = N.pos p.
Proof. apply (Unsigned.of_to (N.pos p)). Qed.

Lemma uint_of_fmt_d n :
  0 <= n -> exists d, NilZero.uint_of_string (fmt_d n) = Some d /\ Z.of_N (N.of_uint d) = n.
Proof.
  intros Hn. destruct n as [|p|p]; [by exists (Decimal.D0 Decimal.Nil) | | lia].
  exists (Pos.to_uint p). unfold fmt_d; simpl. rewrite of_uint_pos_to_uint. split; [|done].
  apply NilZero.usu, pos_to_uint_nonnil.
Qed.

Definition is_digit (c : ascii) : bool :=
  let n := nat_of_ascii c in (48 <=? n)%nat && (n <=? 57)%nat.

Lemma uint_digits d c : str_mem c (NilEmpty.string_of_uint d) = true -> is_digit c = true.
Proof.
  induction d as [|d IH|d IH|d IH|d IH|d IH|d IH|d IH|d IH|d IH|d IH]; [done|..];
    (intros Hc; apply orb_true_iff in Hc as [Hc|Hc];
     [apply Ascii.eqb_eq in Hc as <-; reflexivity|exact (IH Hc)]).
Qed.

(** The text of a non-negative number holds digits only, at least one. *)
Lemma fmt_d_digits n c : 0 <= n -> str_mem c (fmt_d n) = true -> is_digit c = true.
Proof.
  intros Hn. unfold fmt_d. destruct n as [|p|p]; [|simpl|lia].
  - intros Hc. apply orb_true_iff in Hc as [Hc|Hc]; [by apply Ascii.eqb_eq in Hc as <-|done].
  - pose proof (pos_to_uint_nonnil p). intros Hc. apply (uint_digits (Pos.to_uint p)).
    destruct (Pos.to_uint p); done.
Qed.
Lemma fmt_d_head n : 0 <= n -> exists c s, fmt_d n = String c s /\ is_digit c = true.
Proof.
  intros Hn. destruct (fmt_d n) as [|c s] eqn:E.
  - destruct (uint_of_fmt_d n Hn) as (d & Hd & _). by rewrite E in Hd.
  - exists c, s. split; [done|]. apply (fmt_d_digits n); [done|]. rewrite E. simpl. by rewrite Ascii.eqb_refl.
Qed.

(** The value of a run of digits. *)
Definition dec_mag (s : string) : option Z :=
  match NilZero.uint_of_string s with
  | Some d => Some (Z.of_N (N.of_uint d))
  | None => None
  end.
Lemma dec_mag_fmt_d n : 0 <= n -> dec_mag (fmt_d n) = Some n.
Proof. intros Hn. unfold dec_mag. destruct (uint_of_fmt_d n Hn) as (d & -> & Hd). by rewrite Hd. Qed.

Lemma ParseUint_fmt_d n : 0 <= n < two64 -> ParseUint (fmt_d n) = Some n.
Proof.
  intros Hn. destruct (uint_of_fmt_d n) as (d & Hd & Hz); [lia|].
  unfold ParseUint. rewrite Hd, Hz. by destruct (Z.ltb_spec n two64); [|lia].
Qed.

Lemma ParseInt_fmt_d n : - two63 <= n < two63 -> ParseInt (fmt_d n) = Some n.
Proof.
  intros Hn. destruct (Z.le_gt_cases 0 n) as [Hpos|Hneg].
  - destruct (uint_of_fmt_d n Hpos) as (d & Hd & Hz).
    pose proof (fmt_d_no_minus n Hpos) as Hm.
    destruct (Z.ltb_spec n two63) as [Hlt|]; [|lia]. apply Z.ltb_lt in Hlt.
    revert Hm Hd. unfold ParseInt. destruct (fmt_d n) as [|c s]; [done|].
    intros Hm Hd. destruct (Ascii.eqb_spec c "+") as [->|Hplus].
    { exfalso. revert Hd; simpl. by destruct (NilEmpty.uint_of_string s). }
    apply orb_false_iff in Hm as [Hm _]. apply Ascii.eqb_neq in Hm.
    destruct c as [[] [] [] [] [] [] [] []]; try done; rewrite Hd, Hz, Hlt; done.
  - destruct n as [|p|p]; try lia. unfold fmt_d, ParseInt; simpl.
    rewrite NilZero.usu by apply pos_to_uint_nonnil.
    rewrite of_uint_pos_to_uint; simpl. by destruct (Z.leb_spec (Z.pos p) two63); [|lia].
Qed.

(** * Running the monad *)
Lemma gbind_eq {S A B} (m : M S A) (k : A -> M S B) w :
  gbind m k w = match m w with (Ok a, w') => k a w' | (Err e, w') => (Err e, w') end.
Proof. done. Qed.

Section Run.
Context `{Env} {S : Type}.

Lemma gext_ok {A} (f : S -> A * S) w :
  env_fault (calls w) = None ->
  gext f w = (Ok (fst (f (st w))), mkWorld (Datatypes.S (calls w)) (snd (f (st w)))).
Proof. intros Hf. unfold gext. rewrite Hf. by destruct (f (st w)). Qed.

Lemma gextr_ok {A} (f : S -> Res A * S) w :
  env_fault (calls w) = None ->
  gextr f w = (fst (f (st w)), mkWorld (Datatypes.S (calls w)) (snd (f (st w)))).
Proof. intros Hf. unfold gextr. rewrite Hf. by destruct (f (st w)). Qed.

Lemma gext_err {A} (f : S -> A * S) w e :
  env_fault (calls w) = Some e ->
  gext f w = (Err e, mkWorld (Datatypes.S (calls w)) (st w)).
Proof. intros Hf. unfold gext. by rewrite Hf. Qed.

Lemma no_fault_le n m : (n <= m)%nat -> no_fault_from n -> no_fault_from m.
Proof. intros Hle Hn i Hi. apply Hn. lia. Qed.

Lemma no_fault_here n : no_fault_from n -> env_fault n = None.
Proof. intros Hn. by apply Hn. Qed.

(** A loop whose body leaves an observation of the world alone leaves it
    alone, whatever its errors. *)
Lemma gfor_pres {A B} (obs : S -> B) (f : A -> M S unit) (l : list A) w :
  (forall x w', obs (st (snd (f x w'))) = obs (st w')) ->
  obs (st (snd (gfor l f w))) = obs (st w).
Proof.
  intros Hf. revert w; induction l as [|x l IH]; intros w; [done|]. simpl.
  rewrite gbind_eq. specialize (Hf x w). destruct (f x w) as [[[]|e] w']; simpl in *; [|done].
  by rewrite IH.
Qed.

Lemma gfor_log_ok {A} (f : A -> M S unit) (l : list A) w :
  fst (gfor_log l f w) = Ok tt.
Proof.
  revert w; induction l as [|x l IH]; intros w; [done|]. simpl.
  rewrite gbind_eq. unfold gtry. destruct (f x w) as [r w']. apply IH.
Qed.

Lemma gfor_log_pres {A B} (obs : S -> B) (f : A -> M S unit) (l : list A) w :
  (forall x w', obs (st (snd (f x w'))) = obs (st w')) ->
  obs (st (snd (gfor_log l f w))) = obs (st w).
Proof.
  intros Hf. revert w; induction l as [|x l IH]; intros w; [done|]. simpl.
  rewrite gbind_eq. unfold gtry. specialize (Hf x w).
  destruct (f x w) as [r w']; simpl in *. by rewrite IH.
Qed.
End Run.

(** Run one external call that does not fail, the fact being in the context. *)
Ltac nofault :=
  match goal with
  | Hnf : no_fault_from ?n |- context [env_fault ?i] =>
      rewrite (Hnf i) by (simpl; lia)
  end.

(** An environment for concrete runs: a clock that advances one second per
    call from second 1000, and no failure. *)
Definition quietEnv : Env :=
  {| env_clock := fun n => (1000 + Z.of_nat n) * 1000000000; env_fault := fun _ => None |}.
(** The same clock, with call [k] failing. *)
Definition faultEnv (k : nat) (e : error) : Env :=
  {| env_clock := fun n => (1000 + Z.of_nat n) * 1000000000;
     env_fault := fun n => if (n =? k)%nat then Some e else None |}.

Lemma quietEnv_ok n : @no_fault_from quietEnv n.
Proof. by intros i _. Qed.

(** In a list without duplicate keys, the first entry with a key is the entry
    with that key. *)
Lemma find_key {B} (l : list (string * B)) k v :
  NoDup (map fst l) -> In (k, v) l ->
  List.find (fun x => str_eqb (fst x) k) l = Some (k, v).
Proof.
  unfold str_eqb. induction l as [|[k' v'] l IH]; intros Hnd Hin; [done|].
  simpl in *. apply NoDup_cons in Hnd as [Hni Hnd]. destruct Hin as [[= -> ->]|Hin].
  - by rewrite String.eqb_refl.
  - destruct (String.eqb_spec k' k) as [->|]; [|by apply IH].
    exfalso. apply Hni, list_elem_of_In, in_map_iff. by exists (k, v).
Qed.

Lemma has_prefix_app p r : has_prefix p (p ++ r) = true.
Proof. unfold has_prefix. induction p as [|c p IH]; simpl; [by destruct r|].
  destruct (ascii_dec c c); [done|done]. Qed.

Lemma has_prefix_inv p s : has_prefix p s = true -> exists r, s = (p ++ r)%string.
Proof.
  unfold has_prefix. revert s; induction p as [|c p IH]; intros s Hp; [by exists s|].
  destruct s as [|c' s]; [done|]. simpl in Hp. destruct (ascii_dec c c') as [->|]; [|done].
  destruct (IH s Hp) as [r ->]. by exists r.
Qed.

Lemma str_app_nil_r s : (s ++ "")%string = s.
Proof. induction s as [|x s IH]; [done|]. change (String x (s ++ "") = String x s)%string. by rewrite IH. Qed.
Lemma str_drop_app p r : str_drop (String.length p) (p ++ r) = r.
Proof. induction p; [by destruct r|]. done. Qed.

Lemma str_length_app p r : String.length (p ++ r) = (String.length p + String.length r)%nat.
Proof. induction p; simpl; auto. Qed.

Lemma str_app_assoc a b c : ((a ++ b) ++ c)%string = (a ++ (b ++ c))%string.
Proof. induction a as [|x a IH]; [done|]. change (String x ((a ++ b) ++ c) = String x (a ++ (b ++ c)))%string. by rewrite IH. Qed.

(** * JSON strings

    [json.Marshal] of a Go string (encoding/json, Go 1.23, HTML escaping on).
    Bytes from 0x80 on are copied: the model covers valid UTF-8 without
    U+2028 and U+2029. *)
Definition hex_digit (n : nat) : ascii :=
  ascii_of_nat (if (n <? 10)%nat then 48 + n else 87 + n)%nat.

Definition quote_char : ascii := ascii_of_nat 34.
Definition backslash : ascii := ascii_of_nat 92.

Definition json_escape (c : ascii) : string :=
  let n := nat_of_ascii c in
  let esc (x : nat) := String backslash (String (ascii_of_nat x) EmptyString) in
  if (n =? 34)%nat || (n =? 92)%nat then esc n
  else if (n =? 8)%nat then esc 98%nat
  else if (n =? 12)%nat then esc 102%nat
  else if (n =? 10)%nat then esc 110%nat
  else if (n =? 13)%nat then esc 114%nat
  else if (n =? 9)%nat then esc 116%nat
  else if (n <? 32)%nat || (n =? 60)%nat || (n =? 62)%nat || (n =? 38)%nat
  then String backslash ("u00" ++ String (hex_digit (n / 16)) (String (hex_digit (n mod 16)) EmptyString))
  else String c EmptyString.

Fixpoint json_body (s : string) : string :=
  match s with
  | EmptyString => EmptyString
  | String c s' => (json_escape c ++ json_body s')%string
  end.

Definition json_string (s : string) : string :=
  String quote_char (json_body s ++ String quote_char EmptyString).

(** * Inverting a run *)
Section Invert.
Context {S : Type}.

Lemma gbind_inv {A B} (m : M S A) (k : A -> M S B) w r w' :
  gbind m k w = (r, w') ->
  (exists e, m w = (Err e, w') /\ r = Err e) \/
  (exists a w1, m w = (Ok a, w1) /\ k a w1 = (r, w')).
Proof. unfold gbind. destruct (m w) as [[a|e] w1]; naive_solver. Qed.

Lemma gret_inv {A} (a : A) (w : World S) r w' : gret a w = (r, w') -> r = Ok a /\ w' = w.
Proof. unfold gret. naive_solver. Qed.

Lemma graise_inv {A} e (w : World S) (r : Res A) w' : graise e w = (r, w') -> r = Err e /\ w' = w.
Proof. unfold graise. naive_solver. Qed.

Lemma gtry_inv {A} (m : M S A) w r w' :
  gtry m w = (r, w') -> exists r0, m w = (r0, w') /\ r = Ok r0.
Proof. unfold gtry. destruct (m w); naive_solver. Qed.

Lemma gwrap_inv {A} p (m : M S A) w r w' :
  gwrap p m w = (r, w') ->
  (exists a, m w = (Ok a, w') /\ r = Ok a) \/
  (exists e, m w = (Err e, w') /\ r = Err (ErrWrap p e)).
Proof. unfold gwrap. destruct (m w) as [[a|e] w1]; naive_solver. Qed.

Context `{Env}.

Lemma gnow_inv (w : World S) r w' :
  gnow w = (r, w') ->
  r = Ok (env_clock (calls w)) /\ st w' = st w /\ calls w' = Datatypes.S (calls w).
Proof. unfold gnow. naive_solver. Qed.

Lemma gext_inv {A} (f : S -> A * S) w r w' :
  gext f w = (r, w') ->
  calls w' = Datatypes.S (calls w) /\
  ((exists e, env_fault (calls w) = Some e /\ r = Err e /\ st w' = st w) \/
   (env_fault (calls w) = None /\ r = Ok (fst (f (st w))) /\ st w' = snd (f (st w)))).
Proof. unfold gext. destruct (env_fault (calls w)); [|destruct (f (st w))]; naive_solver. Qed.

Lemma gextr_inv {A} (f : S -> Res A * S) w r w' :
  gextr f w = (r, w') ->
  calls w' = Datatypes.S (calls w) /\
  ((exists e, env_fault (calls w) = Some e /\ r = Err e /\ st w' = st w) \/
   (env_fault (calls w) = None /\ r = fst (f (st w)) /\ st w' = snd (f (st w)))).
Proof. unfold gextr. destruct (env_fault (calls w)); [|destruct (f (st w))]; naive_solver. Qed.
End Invert.

Lemma pbind_eq {S A B} (m : G S A) (k : A -> G S B) w :
  pbind m k w = match m w with (Val a, w') => k a w' | (Panic v, w') => (Panic v, w') end.
Proof. done. Qed.

(** A property of the state that every call keeps is kept by a sequence. *)
Lemma pbind_pres {S A B} (P : S -> Prop) (m : G S A) (k : A -> G S B) w :
  (P (st w) -> P (after m w)) -> (forall a w', P (st w') -> P (after (k a) w')) ->
  P (st w) -> P (after (pbind m k) w).
Proof.
  unfold after, pbind. intros Hm Hk Hw. specialize (Hm Hw). destruct (m w) as [[a|v] w']; simpl in *; auto.
Qed.

(** Break a run hypothesis into its calls, one case per failure. *)
Ltac go_inv1 :=
  match goal with
  | H : gbind _ _ _ = (_, _) |- _ =>
      apply gbind_inv in H;
      let e := fresh "e" in let a := fresh "a" in let w1 := fresh "w" in
      let Hm := fresh "Hm" in let Hk := fresh "Hk" in
      destruct H as [(e & Hm & Hk) | (a & w1 & Hm & Hk)]
  | H : gret _ _ = (_, _) |- _ => apply gret_inv in H as [? ?]
  | H : graise _ _ = (_, _) |- _ => apply graise_inv in H as [? ?]
  | H : gtry _ _ = (_, _) |- _ => apply gtry_inv in H as (? & ? & ?)
  | H : gwrap _ _ _ = (_, _) |- _ => apply gwrap_inv in H as [(? & ? & ?)|(? & ? & ?)]
  | H : gnow _ = (_, _) |- _ => apply gnow_inv in H as (? & ? & ?)
  | H : gext _ _ = (_, _) |- _ => apply gext_inv in H as (? & [(? & ? & ? & ?)|(? & ? & ?)])
  | H : gextr _ _ = (_, _) |- _ => apply gextr_inv in H as (? & [(? & ? & ? & ?)|(? & ? & ?)])
  end.
Ltac go_inv := repeat (go_inv1; simplify_eq; cbn [fst snd] in * ).

(** A clock that advances 100 seconds per call. *)
Definition slowEnv : Env :=
  {| env_clock := fun n => (1000 + 100 * Z.of_nat n) * 1000000000; env_fault := fun _ => None |}.
Lemma slowEnv_ok n : @no_fault_from slowEnv n.
Proof. by intros i _. Qed.
