(* ===== verification/Strings.v ===== *)
(** Functions of package [strings] of the Go standard library that several
    components use.  A text is its bytes; the white space of [TrimSpace] is
    that of Unicode, given by its UTF-8 encodings. *)
From S2P Require Import Prelude.
#[local] Open Scope string_scope.
#[local] Open Scope Z_scope.

Definition has_suffix (p s : string) : bool :=
  let n := String.length s in let k := String.length p in
  (k <=? n)%nat && str_eqb (str_drop (n - k) s) p.
Definition str_take (n : nat) (s : string) : string := substring 0 n s.
Definition trim_prefix (p s : string) : string := if has_prefix p s then str_drop (String.length p) s else s.
Definition trim_suffix (p s : string) : string := if has_suffix p s then str_take (String.length s - String.length p) s else s.
Fixpoint str_contains (s sub : string) : bool :=
  has_prefix sub s || match s with "" => false | String _ s' => str_contains s' sub end.

Definition bytes_ (l : list Z) : string := string_of_list_ascii (map (fun z => ascii_of_N (Z.to_N z)) l).
Definition spaces : list string :=
  map bytes_ ([[9]; [10]; [11]; [12]; [13]; [32]; [194; 133]; [194; 160]; [225; 154; 128]; [226; 128; 168]; [226; 128; 169];
    [226; 128; 175]; [226; 129; 159]; [227; 128; 128]] ++ map (fun k => [226; 128; 128 + Z.of_nat k]) (seq 0 11)).
Fixpoint trim_left (fuel : nat) (s : string) : string :=
  match fuel with
  | O => s
  | S fuel' => match List.find (fun p => has_prefix p s) spaces with
               | Some p => trim_left fuel' (str_drop (String.length p) s)
               | None => s
               end
  end.
Fixpoint trim_right (fuel : nat) (s : string) : string :=
  match fuel with
  | O => s
  | S fuel' => match List.find (fun p => has_suffix p s) spaces with
               | Some p => trim_right fuel' (str_take (String.length s - String.length p) s)
               | None => s
               end
  end.
Definition TrimSpace (s : string) : string :=
  let t := trim_left (String.length s) s in trim_right (String.length t) t.
Definition ascii_lower (c : ascii) : ascii :=
  let n := N_of_ascii c in if ((65 <=? n) && (n <=? 90))%N then ascii_of_N (n + 32) else c.
Fixpoint map_bytes (f : ascii -> ascii) (s : string) : string :=
  match s with "" => "" | String c s' => String (f c) (map_bytes f s') end.
Fixpoint str_join (sep : string) (l : list string) : string :=
  match l with [] => "" | [x] => x | x :: l' => x ++ sep ++ str_join sep l' end.

Lemma append_assoc (a b c : string) : ((a ++ b) ++ c)%string = (a ++ (b ++ c))%string.
Proof. induction a as [|x a IH]; [done|]. change (String x ((a ++ b) ++ c) = String x (a ++ (b ++ c)))%string. by rewrite IH. Qed.
Lemma trim_prefix_app p s : trim_prefix p (p ++ s) = s.
Proof. unfold trim_prefix. by rewrite has_prefix_app, str_drop_app. Qed.
Lemma substring_app p s : substring 0 (String.length p) (p ++ s) = p.
Proof.
  induction p as [|c p IH]; [by destruct s|]. change (String c (substring 0 (String.length p) (p ++ s)) = String c p). by rewrite IH.
Qed.
Lemma has_suffix_app p s : has_suffix p (s ++ p) = true.
Proof.
  unfold has_suffix. rewrite str_length_app. rewrite (proj2 (Nat.leb_le _ _)) by lia. replace (_ + _ - _)%nat with (String.length s) by lia.
  rewrite str_drop_app. unfold str_eqb. by rewrite String.eqb_refl.
Qed.
Lemma trim_suffix_app p s : trim_suffix p (s ++ p) = s.
Proof.
  unfold trim_suffix. rewrite has_suffix_app, str_length_app. replace (_ + _ - _)%nat with (String.length s) by lia. apply substring_app.
Qed.
Lemma take_drop_text n : forall s : string, str_take n s ++ str_drop n s = s.
Proof.
  unfold str_take. induction n as [|n IH]; intros s; [by destruct s|]. destruct s as [|c s]; [done|].
  change (String c (substring 0 n s ++ str_drop n s) = String c s). by rewrite IH.
Qed.
Lemma has_suffix_inv p s : has_suffix p s = true -> str_drop (String.length s - String.length p) s = p.
Proof. unfold has_suffix, str_eqb. intros [_ E]%andb_true_iff. by apply String.eqb_eq in E. Qed.
(** ** Texts without space at their ends *)
Fixpoint last_byte (s : string) : option ascii :=
  match s with "" => None | String c "" => Some c | String _ s' => last_byte s' end.
Lemma last_byte_app a b : b <> "" -> last_byte (a ++ b) = last_byte b.
Proof.
  intros Hb. induction a as [|c a IH]; [done|]. change (last_byte (String c (a ++ b)) = last_byte b). rewrite <- IH.
  cbn. destruct (a ++ b) eqn:E; [|done]. destruct a; [by destruct b|done].
Qed.
Definition space_free (c : ascii) : bool :=
  forallb (fun p => match p with "" => false | String x _ => negb (Ascii.eqb x c) end && match last_byte p with Some x => negb (Ascii.eqb x c) | None => false end) spaces.
Lemma space_free_in c p : space_free c = true -> In p spaces -> p <> "" /\ (forall s, has_prefix p (String c s) = false) /\ last_byte p <> Some c.
Proof.
  unfold space_free. rewrite forallb_forall. intros Hc Hp. specialize (Hc p Hp). apply andb_true_iff in Hc as [H1 H2].
  destruct p as [|x p]; [done|]. split; [done|]. split.
  - intros s. unfold has_prefix. cbn. destruct (ascii_dec x c) as [->|]; [|done]. by rewrite Ascii.eqb_refl in H1.
  - intros E. rewrite E in H2. by rewrite Ascii.eqb_refl in H2.
Qed.
Lemma find_none {A} (f : A -> bool) l : (forall x, In x l -> f x = false) -> List.find f l = None.
Proof. induction l as [|x l IH]; intros Hf; [done|]. cbn. rewrite Hf by (by left). apply IH. intros y Hy. apply Hf. by right. Qed.
Lemma trim_left_id fuel c s : space_free c = true -> trim_left fuel (String c s) = String c s.
Proof.
  intros Hc. destruct fuel; [done|]. cbn [trim_left]. rewrite find_none; [done|]. intros p Hp. by apply (space_free_in c p).
Qed.
Lemma trim_right_id fuel c s : space_free c = true -> last_byte s = Some c -> trim_right fuel s = s.
Proof.
  intros Hc Hs. destruct fuel; [done|]. cbn [trim_right]. rewrite find_none; [done|]. intros p Hp.
  destruct (space_free_in c p Hc Hp) as (Hne & _ & Hl). destruct (has_suffix p s) eqn:E; [|done]. apply has_suffix_inv in E.
  destruct Hl. rewrite <- Hs, <- (take_drop_text (String.length s - String.length p) s), E. by rewrite last_byte_app.
Qed.
(** A text that starts and ends with other bytes, and a line feed behind it. *)
Definition newline : string := String (ascii_of_nat 10) "".
Lemma TrimSpace_line c d s : space_free c = true -> space_free d = true -> last_byte (String c s) = Some d ->
  TrimSpace (String c s ++ newline) = String c s.
Proof.
  intros Hc Hd Hl.
  assert (Ht : forall n, trim_left n (String c s ++ newline) = String c s ++ newline).
  { intros n. change (String c s ++ newline) with (String c (s ++ newline)). by apply trim_left_id. }
  unfold TrimSpace. cbv zeta. rewrite Ht, str_length_app. rewrite Nat.add_comm. change (String.length newline) with 1%nat. cbn [Nat.add trim_right].
  assert (Hf : List.find (fun p => has_suffix p (String c s ++ newline)) spaces = Some newline).
  { unfold spaces. cbn [map app List.find].
    assert (H9 : has_suffix (bytes_ [9]) (String c s ++ newline) = false).
    { destruct (has_suffix _ _) eqn:E; [|done]. apply has_suffix_inv in E.
      assert (H9 : last_byte (String c s ++ newline) = Some (ascii_of_nat 9)).
      { rewrite <- (take_drop_text (String.length (String c s ++ newline) - String.length (bytes_ [9])) (String c s ++ newline)), E. by rewrite last_byte_app. }
      rewrite last_byte_app in H9 by done. discriminate H9. }
    rewrite H9. change (bytes_ [10]) with newline. by rewrite has_suffix_app. }
  rewrite Hf, str_length_app. replace (_ + _ - _)%nat with (String.length (String c s)) by lia. unfold str_take. rewrite substring_app.
  by apply (trim_right_id _ d).
Qed.
Example trims : TrimSpace (String "009" " Bearer x  " ++ bytes_ [226; 128; 131]) = "Bearer x".
Proof. vm_compute. reflexivity. Qed.
