(* ===== verification/NetTools.v ===== *)
(** [src/nettools/ip.go]: addresses as numbers, and the address of the host.
    The functions of package [net] that it uses are written out: an address is
    its 4 or 16 bytes. *)
From S2P Require Import Prelude Strings.
#[local] Open Scope string_scope.
#[local] Open Scope Z_scope.

Definition IP : Type := list Z.

(** * Package [net] *)
Definition digit (c : ascii) : option Z :=
  let n := Z.of_N (N_of_ascii c) in if (48 <=? n) && (n <=? 57) then Some (n - 48) else None.
Definition hex_digit (c : ascii) : option Z :=
  let n := Z.of_N (N_of_ascii c) in
  if (48 <=? n) && (n <=? 57) then Some (n - 48)
  else if (97 <=? n) && (n <=? 102) then Some (n - 87)
  else if (65 <=? n) && (n <=? 70) then Some (n - 55) else None.
(** [parseIPv4Fields]: the value and the number of digits of the field, the
    fields before it; four fields of up to three digits, without a leading zero. *)
Fixpoint ipv4_fields (s : string) (val : Z) (digLen : nat) (fields : list Z) : option IP :=
  match s with
  | "" => if (length fields =? 3)%nat && negb (digLen =? 0)%nat then Some (fields ++ [val])%list else None
  | String c s' =>
      match digit c with
      | Some d =>
          if (digLen =? 1)%nat && (val =? 0) then None
          else let val' := val * 10 + d in if 255 <? val' then None else ipv4_fields s' val' (S digLen) fields
      | None =>
          if Ascii.eqb c "." then
            if (digLen =? 0)%nat then None
            else if (length fields =? 3)%nat then None
            else ipv4_fields s' 0 O (fields ++ [val])
          else None
      end
  end.
Definition parseIPv4 (s : string) : option IP := ipv4_fields s 0 O [].

(** [parseIPv6], less the zone: the field at the front of [s] and the text behind. *)
Fixpoint hex_field (s : string) (off : nat) (acc : Z) : option (nat * Z * string) :=
  match s with
  | "" => Some (off, acc, s)
  | String c s' =>
      match hex_digit c with
      | None => Some (off, acc, s)
      | Some d => if (3 <? off)%nat then None else hex_field s' (S off) (acc * 16 + d)
      end
  end.
Definition first_byte (s : string) : option ascii := match s with "" => None | String c _ => Some c end.
Definition is_byte (c : ascii) (s : string) : bool := match first_byte s with Some x => Ascii.eqb x c | None => false end.
(** The bytes so far and where the [::] is; eight fields at most. *)
Fixpoint ipv6_fields (fuel : nat) (s : string) (ip : list Z) (ellipsis : option nat) : option (list Z * option nat * string) :=
  match fuel with
  | O => Some (ip, ellipsis, s)
  | S fuel' =>
      match hex_field s O 0 with
      | None => None
      | Some (off, acc, rest) =>
          if (off =? 0)%nat then None
          else if is_byte "." rest then
            if (match ellipsis with None => negb (length ip =? 12)%nat | Some _ => false end) || (16 <? length ip + 4)%nat then None
            else match parseIPv4 s with None => None | Some v4 => Some (ip ++ v4, ellipsis, "")%list end
          else
            let ip' := (ip ++ [Z.shiftr acc 8; Z.land acc 255])%list in
            match rest with
            | "" => Some (ip', ellipsis, "")
            | String c rest' =>
                if negb (Ascii.eqb c ":") then None
                else match rest' with
                     | "" => None
                     | String c' rest'' =>
                         if Ascii.eqb c' ":" then
                           match ellipsis with
                           | Some _ => None
                           | None => if str_eqb rest'' "" then Some (ip', Some (length ip'), "")
                                     else ipv6_fields fuel' rest'' ip' (Some (length ip'))
                           end
                         else ipv6_fields fuel' rest' ip' ellipsis
                     end
            end
      end
  end.
Definition expand (ip : list Z) (ellipsis : option nat) : option IP :=
  if (length ip <? 16)%nat
  then match ellipsis with None => None | Some e => Some (firstn e ip ++ repeat 0 (16 - length ip) ++ skipn e ip)%list end
  else match ellipsis with Some _ => None | None => Some ip end.
Definition parseIPv6 (s : string) : option IP :=
  let leading := has_prefix "::" s in
  let s' := if leading then str_drop 2 s else s in
  if leading && str_eqb s' "" then Some (repeat 0 16)
  else match ipv6_fields 8 s' [] (if leading then Some O else None) with
       | None => None
       | Some (ip, ellipsis, rest) => if negb (str_eqb rest "") then None else expand ip ellipsis
       end.
Definition v4InV6Prefix : list Z := (repeat 0 10 ++ [255; 255])%list.
(** The first mark decides; an address with a zone is refused, whatever follows
    the percent sign. *)
Fixpoint kind_of_text (s : string) : option ascii :=
  match s with
  | "" => None
  | String c s' => if Ascii.eqb c "." || Ascii.eqb c ":" || Ascii.eqb c "%" then Some c else kind_of_text s'
  end.
Definition ParseIP (s : string) : option IP :=
  match kind_of_text s with
  | Some "."%char => option_map (app v4InV6Prefix) (parseIPv4 s)
  | Some ":"%char => if str_mem "%" s then None else parseIPv6 s
  | _ => None
  end.
Definition eqb_bytes (a b : list Z) : bool := bool_decide (a = b).
Definition To4 (ip : IP) : option IP :=
  if (length ip =? 4)%nat then Some ip
  else if (length ip =? 16)%nat && eqb_bytes (firstn 12 ip) v4InV6Prefix then Some (skipn 12 ip)
  else None.
Definition byte_at (i : nat) (ip : IP) : Z := nth i ip 0.
Definition IsUnspecified (ip : IP) : bool :=
  match To4 ip with Some v4 => eqb_bytes v4 [0; 0; 0; 0] | None => eqb_bytes ip (repeat 0 16) end.
Definition IsLoopback (ip : IP) : bool :=
  match To4 ip with Some v4 => byte_at 0 v4 =? 127 | None => eqb_bytes ip (repeat 0 15 ++ [1])%list end.
Definition IsMulticast (ip : IP) : bool :=
  match To4 ip with Some v4 => Z.land (byte_at 0 v4) 240 =? 224 | None => (length ip =? 16)%nat && (byte_at 0 ip =? 255) end.
Definition IsLinkLocalUnicast (ip : IP) : bool :=
  match To4 ip with
  | Some v4 => (byte_at 0 v4 =? 169) && (byte_at 1 v4 =? 254)
  | None => (length ip =? 16)%nat && (byte_at 0 ip =? 254) && (Z.land (byte_at 1 ip) 192 =? 128)
  end.
Definition IsGlobalUnicast (ip : IP) : bool :=
  ((length ip =? 4)%nat || (length ip =? 16)%nat) && negb (bool_decide (To4 ip = Some [255; 255; 255; 255])) &&
  negb (IsUnspecified ip) && negb (IsLoopback ip) && negb (IsMulticast ip) && negb (IsLinkLocalUnicast ip).
(** [IP.String] of an address of four bytes. *)
Definition dotted (ip : IP) : string := str_join "." (map fmt_d ip).

(** [IP.String] of an address of sixteen bytes: groups of two, the longest run of
    zeros (the first of them) of two groups and more as [::]. *)
Definition hex_char (n : Z) : ascii := ascii_of_N (Z.to_N (if n <? 10 then 48 + n else 87 + n)).
Fixpoint hex_text (fuel : nat) (n : Z) : string :=
  match fuel with
  | O => ""
  | S fuel' => (if n <? 16 then "" else hex_text fuel' (Z.shiftr n 4)) ++ String (hex_char (Z.land n 15)) ""
  end.
Fixpoint groups_of (ip : IP) : list Z := match ip with a :: b :: r => (a * 256 + b) :: groups_of r | _ => [] end.
Fixpoint zero_run (l : list Z) : nat := match l with 0 :: l' => S (zero_run l') | _ => O end.
(** The start and the end of the run. *)
Definition longest_run (g : list Z) : option (nat * nat) :=
  fold_left (fun best i => let n := zero_run (skipn i g) in
      if (2 <=? n)%nat && (match best with None => true | Some (s, e) => (e - s <? n)%nat end) then Some (i, i + n)%nat else best)
    (seq 0 (length g)) None.
Definition groups_text (g : list Z) : string := str_join ":" (map (hex_text 4) g).
Definition text_v6 (ip : IP) : string :=
  let g := groups_of ip in
  match longest_run g with None => groups_text g | Some (s, e) => groups_text (firstn s g) ++ "::" ++ groups_text (skipn e g) end.
Definition ip_String (ip : IP) : string :=
  match To4 ip with Some v4 => dotted v4 | None => if (length ip =? 16)%nat then text_v6 ip else "<nil>" end.

(** * The functions *)
Definition Uint32 (b : list Z) : Z :=
  Z.lor (byte_at 3 b) (Z.lor (Z.shiftl (byte_at 2 b) 8) (Z.lor (Z.shiftl (byte_at 1 b) 16) (Z.shiftl (byte_at 0 b) 24))).
Definition PutUint32 (v : Z) : list Z := map (fun x => Z.land x 255) [Z.shiftr v 24; Z.shiftr v 16; Z.shiftr v 8; v].
Definition IPToUint32 (ip : string) : Res Z :=
  match ParseIP ip with
  | None => Err (ErrNew "invalid IP address")
  | Some addr => match To4 addr with None => Err (ErrNew "not an IPv4 address") | Some v4 => Ok (Uint32 v4) end
  end.
Definition MustIPToUint32 (ip : string) : Z := match IPToUint32 ip with Ok n => n | Err _ => 0 end.
Definition Uint32ToIP (n : Z) : IP := PutUint32 n.

(** The network of the host: the addresses of all interfaces, the interfaces by
    their index, each with its addresses (an answer may be no network). *)
Record Network : Type := mkNetwork {
  InterfaceAddrs : Res (list (option IP)); InterfaceByIndex : Z -> option (list (option IP))
}.
Definition localhost : IP := (v4InV6Prefix ++ [127; 0; 0; 1])%list.
Definition global_of (addrs : list (option IP)) : option IP :=
  match List.find (fun a => match a with Some ip => IsGlobalUnicast ip | None => false end) addrs with Some (Some ip) => Some ip | _ => None end.
(** The index of the loop, that of an address, is taken for an interface's. *)
Fixpoint by_index (byIndex : Z -> option (list (option IP))) (ns : list nat) : option IP :=
  match ns with
  | [] => None
  | i :: ns' =>
      match byIndex (Z.of_nat i) with
      | None => by_index byIndex ns'
      | Some addrs => match global_of addrs with Some ip => Some ip | None => by_index byIndex ns' end
      end
  end.
Definition MustLocalPrimearyIP (net : Network) : IP :=
  match net.(InterfaceAddrs) with
  | Err _ => localhost
  | Ok inters => default localhost (by_index net.(InterfaceByIndex) (seq 0 (length inters)))
  end.

(** * What they give *)
Definition bytes4 (a b c d : Z) : Prop := 0 <= a < 256 /\ 0 <= b < 256 /\ 0 <= c < 256 /\ 0 <= d < 256.
Example parsed : map IPToUint32 ["192.168.1.10"; "0.0.0.0"; "::ffff:1.2.3.4"; "1.2.3"; "1.2.3.04"; "256.1.1.1"; "::1"; "fe80::1%eth0"] =
  [Ok 3232235786; Ok 0; Ok 16909060; Err (ErrNew "invalid IP address"); Err (ErrNew "invalid IP address"); Err (ErrNew "invalid IP address");
   Err (ErrNew "not an IPv4 address"); Err (ErrNew "invalid IP address")].
Proof. vm_compute. reflexivity. Qed.
Example parsed_v6 : map ParseIP ["2001:db8::8:800:200c:417a"; "::13.1.68.3"; "1:2:3:4:5:6:7::"; "1:2:3:4:5:6:7:8::"; "1::2::3"; "12345::"] =
  [Some [32; 1; 13; 184; 0; 0; 0; 0; 0; 8; 8; 0; 32; 12; 65; 122]; Some [0; 0; 0; 0; 0; 0; 0; 0; 0; 0; 0; 0; 13; 1; 68; 3];
   Some [0; 1; 0; 2; 0; 3; 0; 4; 0; 5; 0; 6; 0; 7; 0; 0]; None; None; None].
Proof. vm_compute. reflexivity. Qed.

Example printed : map (option_map ip_String) (map ParseIP ["2001:DB8:0:0:8:800:200C:417A"; "::ffff:1.2.3.4"; "1:0:0:2:0:0:0:3"; "::1"; "::"; "1:2:3:4:5:6:0:8"]) =
  [Some "2001:db8::8:800:200c:417a"; Some "1.2.3.4"; Some "1:0:0:2::3"; Some "::1"; Some "::"; Some "1:2:3:4:5:6:0:8"].
Proof. vm_compute. reflexivity. Qed.

(** ** Numbers and texts *)
Definition octets : list Z := map Z.of_nat (seq 0 256).
Lemma octet_in v : 0 <= v < 256 -> v ∈ octets.
Proof.
  intros Hv. unfold octets. rewrite <- (Z2Nat.id v) by lia. apply list_elem_of_fmap_2, elem_of_seq. lia.
Qed.
(** A field of an address in its decimal text. *)
Lemma octet_read : Forall (fun v => forall rest fields,
  ipv4_fields (fmt_d v ++ rest) 0 O fields = ipv4_fields rest v (String.length (fmt_d v)) fields /\
  kind_of_text (fmt_d v ++ rest) = kind_of_text rest /\ negb (String.length (fmt_d v) =? 0)%nat = true) octets.
Proof.
  let l := eval vm_compute in octets in change octets with l.
  repeat (apply Forall_cons; split; [intros; split; [reflexivity|split; reflexivity]|]). by apply Forall_nil.
Qed.
Lemma octet_step v rest fields : 0 <= v < 256 -> (length fields < 3)%nat ->
  ipv4_fields (fmt_d v ++ String "." rest) 0 O fields = ipv4_fields rest 0 O (fields ++ [v]).
Proof.
  intros Hv Hl. pose proof octet_read as Ho. rewrite Forall_forall in Ho. destruct (Ho v (octet_in v Hv) (String "." rest) fields) as (-> & _ & Hn).
  apply negb_true_iff in Hn. cbn [ipv4_fields]. change (digit ".") with (@None Z). rewrite Ascii.eqb_refl, Hn.
  by rewrite (proj2 (Nat.eqb_neq (length fields) 3)) by lia.
Qed.
Lemma octet_last v fields : 0 <= v < 256 -> length fields = 3%nat -> ipv4_fields (fmt_d v) 0 O fields = Some (fields ++ [v])%list.
Proof.
  intros Hv Hl. pose proof octet_read as Ho. rewrite Forall_forall in Ho. destruct (Ho v (octet_in v Hv) "" fields) as (E & _ & Hn).
  rewrite str_app_nil_r in E. rewrite E. cbn [ipv4_fields]. by rewrite Hl, Hn.
Qed.
Lemma ParseIP_dotted a b c d : bytes4 a b c d -> ParseIP (dotted [a; b; c; d]) = Some (v4InV6Prefix ++ [a; b; c; d])%list.
Proof.
  intros (Ha & Hb & Hc & Hd).
  assert (E : dotted [a; b; c; d] = fmt_d a ++ String "." (fmt_d b ++ String "." (fmt_d c ++ String "." (fmt_d d)))) by reflexivity.
  rewrite E. unfold ParseIP.
  pose proof octet_read as Ho. rewrite Forall_forall in Ho.
  destruct (Ho a (octet_in a Ha) (String "." (fmt_d b ++ String "." (fmt_d c ++ String "." (fmt_d d)))) []) as (_ & -> & _). cbn [kind_of_text].
  rewrite Ascii.eqb_refl. cbn [orb]. unfold parseIPv4. rewrite !octet_step by (done || cbn; lia). rewrite octet_last by done. done.
Qed.
Lemma Uint32_PutUint32 n : 0 <= n < 2 ^ 32 -> Uint32 (PutUint32 n) = n.
Proof.
  intros Hn. unfold Uint32, PutUint32, byte_at. cbn [map nth]. apply Z.bits_inj'. intros i Hi. change 255 with (Z.ones 8).
  rewrite !Z.lor_spec, !Z.shiftl_spec, !Z.land_spec by lia.
  assert (Hones : forall j, Z.testbit (Z.ones 8) j = (0 <=? j) && (j <? 8)) by (intros j; apply Z.testbit_ones; lia).
  assert (Htop : 32 <= i -> Z.testbit n i = false).
  { intros Hi'. destruct (Z.eq_dec n 0) as [->|]; [apply Z.bits_0|]. apply Z.bits_above_log2; [lia|].
    apply Z.lt_le_trans with 32; [|lia]. apply Z.log2_lt_pow2; lia. }
  rewrite !Hones.
  assert (Hs : forall k, 0 <= k -> 0 <= i - k -> Z.testbit (Z.shiftr n k) (i - k) = Z.testbit n i).
  { intros k Hk Hik. rewrite Z.shiftr_spec by lia. f_equal. lia. }
  destruct (Z.ltb_spec i 8), (Z.leb_spec 0 (i - 8)), (Z.ltb_spec (i - 8) 8), (Z.leb_spec 0 (i - 16)), (Z.ltb_spec (i - 16) 8),
    (Z.leb_spec 0 (i - 24)), (Z.ltb_spec (i - 24) 8), (Z.leb_spec 0 i); try lia; rewrite ?Hs by lia;
    cbn [andb orb]; rewrite ?andb_true_r, ?andb_false_r, ?orb_false_r; try done; symmetry; apply Htop; lia.
Qed.
Lemma PutUint32_bytes n : exists a b c d, PutUint32 n = [a; b; c; d] /\ bytes4 a b c d.
Proof.
  unfold PutUint32. cbn [map]. do 4 eexists. split; [reflexivity|]. unfold bytes4. change 255 with (Z.ones 8).
  rewrite !Z.land_ones by lia. split_and!; apply Z.mod_pos_bound; lia.
Qed.

(** A number of 32 bits is the number of the text of its address. *)
Theorem IPToUint32_round_trip n : 0 <= n < 2 ^ 32 -> IPToUint32 (dotted (Uint32ToIP n)) = Ok n.
Proof.
  intros Hn. unfold IPToUint32, Uint32ToIP. destruct (PutUint32_bytes n) as (a & b & c & d & E & Hb). rewrite E, ParseIP_dotted by done.
  change (To4 (v4InV6Prefix ++ [a; b; c; d])%list) with (Some [a; b; c; d]). by rewrite <- E, Uint32_PutUint32.
Qed.
Lemma IPToUint32_round_trip_witness : IPToUint32 (dotted (Uint32ToIP 3232235786)) = Ok 3232235786.
Proof. apply IPToUint32_round_trip. lia. Defined.

(** ** The address of the host *)
Definition no_global (byIndex : Z -> option (list (option IP))) (i : nat) : Prop :=
  match byIndex (Z.of_nat i) with None => True | Some addrs => global_of addrs = None end.
Lemma global_of_some addrs ip : global_of addrs = Some ip -> Some ip ∈ addrs /\ IsGlobalUnicast ip = true.
Proof.
  unfold global_of. destruct (List.find _ addrs) as [[x|]|] eqn:E; [|done..]. intros [= ->]. apply find_some in E as [Hin Hg].
  by apply list_elem_of_In in Hin.
Qed.
Lemma by_index_cases byIndex l : match by_index byIndex l with
  | Some ip => exists i addrs, i ∈ l /\ byIndex (Z.of_nat i) = Some addrs /\ Some ip ∈ addrs /\ IsGlobalUnicast ip = true
  | None => Forall (no_global byIndex) l
  end.
Proof.
  induction l as [|i l IH]; [apply Forall_nil; done|]. cbn [by_index]. destruct (byIndex (Z.of_nat i)) as [addrs|] eqn:Ei.
  - destruct (global_of addrs) as [ip|] eqn:Eg.
    + destruct (global_of_some _ _ Eg) as [Hin Hg]. exists i, addrs. split; [left|done].
    + destruct (by_index byIndex l); [destruct IH as (j & ad & Hj & Hr); exists j, ad; split; [by right|done]|].
      constructor; [|done]. unfold no_global. by rewrite Ei.
  - destruct (by_index byIndex l); [destruct IH as (j & ad & Hj & Hr); exists j, ad; split; [by right|done]|].
    constructor; [|done]. unfold no_global. by rewrite Ei.
Qed.
(** The address of the host is one of the addresses with global scope of an
    interface whose index is below the number of the addresses, or else the
    local one, when none of those interfaces has any. *)
Theorem MustLocalPrimearyIP_spec net inters : net.(InterfaceAddrs) = Ok inters ->
  (exists i addrs, (i < length inters)%nat /\ net.(InterfaceByIndex) (Z.of_nat i) = Some addrs /\
     Some (MustLocalPrimearyIP net) ∈ addrs /\ IsGlobalUnicast (MustLocalPrimearyIP net) = true) \/
  (MustLocalPrimearyIP net = localhost /\ forall i, (i < length inters)%nat -> no_global net.(InterfaceByIndex) i).
Proof.
  intros E. unfold MustLocalPrimearyIP. rewrite E. pose proof (by_index_cases (InterfaceByIndex net) (seq 0 (length inters))) as Hc.
  destruct (by_index _ _) as [ip|].
  - left. destruct Hc as (i & addrs & Hi & Hr). exists i, addrs. apply elem_of_seq in Hi. split; [lia|done].
  - right. split; [done|]. intros i Hi. rewrite Forall_forall in Hc. apply Hc, elem_of_seq. lia.
Qed.
(** Two interfaces with one address each: the second one, which has the address
    of the host, is not looked at. *)
Definition two_cards : Network := mkNetwork (Ok [Some [127; 0; 0; 1]; Some [10; 0; 0; 7]])
  (fun i => if i =? 1 then Some [Some [127; 0; 0; 1]] else if i =? 2 then Some [Some [10; 0; 0; 7]] else None).
Example second_card_missed : MustLocalPrimearyIP two_cards = localhost.
Proof. reflexivity. Qed.
Definition three_addresses : Network := mkNetwork (Ok [Some [127; 0; 0; 1]; None; Some [10; 0; 0; 7]]) two_cards.(InterfaceByIndex).
Lemma MustLocalPrimearyIP_spec_witness : exists i addrs, (i < 3)%nat /\ three_addresses.(InterfaceByIndex) (Z.of_nat i) = Some addrs /\
  Some [10; 0; 0; 7] ∈ addrs.
Proof.
  destruct (MustLocalPrimearyIP_spec three_addresses _ eq_refl) as [(i & addrs & Hi & E & Hin & _)|[E _]].
  - exists i, addrs. split; [exact Hi|]. split; [exact E|exact Hin].
  - vm_compute in E. discriminate.
Defined.
