(* ===== verification/DbRegistry.v ===== *)
(** [src/dbtools/v2]: the database connections of a process by name
    (manager.go), the drivers by scheme (registry.go and the four drivers), the
    helpers for models (helpers.go), and the Redis client of the process
    (src/dbtools/redispool/redis.go).  Opening a connection is gorm's work; a
    lock guards the maps, so each of their operations is one step. *)
From S2P Require Import Prelude Strings.
#[local] Open Scope string_scope.
#[local] Open Scope Z_scope.

(** The parts of an address, as [net/url] gives them; an address has one or two
    colons of its own only inside brackets, which [Hostname] removes. *)
Record URL : Type := mkURL { Scheme : string; Username : string; Password : string; Hostname : string; Port : string; Path : string; RawQuery : string }.
(** The dialects of gorm, with their data source names. *)
Inductive Dialector : Type := mysql_Open (dsn : string) | postgres_Open (dsn : string) | sqlite_Open (dsn : string) | clickhouse_Open (dsn : string).
Definition DriverFactory : Type := string -> Res Dialector.
(** Lower case, on the letters that a scheme can have. *)
Definition lower (s : string) : string := map_bytes ascii_lower s.

Abbreviation Drivers := (gmap string DriverFactory).

(** * The drivers *)
Section Drivers.
Context (url_Parse : string -> Res URL).
Definition Register (scheme : string) (factory : DriverFactory) (drivers : Drivers) : Drivers := <[lower scheme := factory]> drivers.
Definition normalizeMySQL (u : URL) : Res string :=
  let port := if str_eqb u.(Port) "" then "3306" else u.(Port) in
  let db := if (1 <? String.length u.(Path))%nat then str_drop 1 u.(Path) else "" in
  let query := if str_eqb u.(RawQuery) "" then "" else "?" ++ u.(RawQuery) in
  Ok (u.(Username) ++ ":" ++ u.(Password) ++ "@tcp(" ++ u.(Hostname) ++ ":" ++ port ++ ")/" ++ db ++ query).
Definition mysqldrv_init (drivers : Drivers) : Drivers :=
  Register "mysql" (fun dsn => match url_Parse dsn with
                               | Err e => Err e
                               | Ok parsed => match normalizeMySQL parsed with Err e => Err e | Ok uri => Ok (mysql_Open uri) end
                               end) drivers.
Definition pgdrv_init (drivers : Drivers) : Drivers :=
  Register "postgresql" (fun dsn => Ok (postgres_Open dsn)) (Register "pg" (fun dsn => Ok (postgres_Open dsn))
    (Register "postgres" (fun dsn => Ok (postgres_Open dsn)) drivers)).
Definition sqlitedrv_init (drivers : Drivers) : Drivers :=
  Register "sqlite3" (fun dsn => Ok (sqlite_Open dsn)) (Register "sqlite" (fun dsn => Ok (sqlite_Open dsn)) drivers).
Definition clickhousedrv_init (drivers : Drivers) : Drivers := Register "clickhouse" (fun dsn => Ok (clickhouse_Open dsn)) drivers.

(** The dialect of an address. *)
Definition unsupported (scheme : string) : error := ErrNew ("unsupported db scheme " ++ String "034" (scheme ++ String "034" "")).
Definition dialector_of (drivers : Drivers) (dburl : string) : Res Dialector :=
  match url_Parse dburl with
  | Err e => Err e
  | Ok dsn => let scheme := lower dsn.(Scheme) in
              match drivers !! scheme with None => Err (unsupported scheme) | Some factory => factory dburl end
  end.
End Drivers.

(** * The connections *)
(** The maximum of open and of idle connections, their life and their idle time. *)
Record PoolSettings : Type := mkPool { MaxOpenConns : Z; MaxIdleConns : Z; ConnMaxLifetime : Z; ConnMaxIdleTime : Z }.
Definition Minute : Z := 60000000000.
Record Conns (Db X : Type) : Type := mkConns { drivers : Drivers; dbs : gmap string Db; ext : X }.
Arguments mkConns {Db X} drivers dbs ext.
Arguments drivers {Db X} c.
Arguments dbs {Db X} c.
Arguments ext {Db X} c.

Section Manager.
Context `{Env} {Db SqlDB X : Type}.
(** [gorm.Open], the logger of a connection and its pool. *)
Context (url_Parse : string -> Res URL) (gorm_Open : Dialector -> X -> Res Db * X) (set_logger : string -> Db -> Db)
  (sql_DB : Db -> Res SqlDB) (set_pool : SqlDB -> PoolSettings -> X -> X).
Abbreviation St := (Conns Db X).
Implicit Types w : World St.
Definition on_ext {A} (f : X -> Res A * X) : M St A :=
  gextr (fun s => let (r, x) := f s.(ext) in (r, mkConns s.(drivers) s.(dbs) x)).
Definition Open (dburl : string) : M St Db :=
  let! s := gget in
  match dialector_of url_Parse s.(drivers) dburl with
  | Err e => graise e
  | Ok dialector => on_ext (gorm_Open dialector)
  end.
Definition set_db (name : string) (db : Db) (s : St) : St := mkConns s.(drivers) (<[name := db]> s.(dbs)) s.(ext).
Definition name_of (name : string) : string := if str_eqb name "" then "default" else name.
Definition InitDBConn (name dburl : string) : M St Db :=
  let! db := Open dburl in
  let db := set_logger "gorm" db in
  gmodify (set_db (name_of name) db) ;;; gret db.
(** The names in the order in which Go ranges over the map. *)
Definition InitMultiDBConn (dburls : list (string * string)) : M St unit :=
  gfor dburls (fun p => InitDBConn (fst p) (snd p) ;;; gret tt).
Definition RegistryDB (name : string) (db : Db) (s : St) : St :=
  match s.(dbs) !! name with Some _ => s | None => set_db name db s end.
Definition DB (name : string) (s : St) : Panics Db :=
  match s.(dbs) !! name with Some db => Val db | None => Panic ("db " ++ name ++ " is nil") end.
Definition DBExists (name : string) (s : St) : bool := match s.(dbs) !! name with Some _ => true | None => false end.
Definition Std (s : St) : Panics Db := DB "default" s.
Definition Core (s : St) : Panics Db := DB "core" s.
Definition Account (s : St) : Panics Db := DB "account" s.
Definition InitPostgresWithPool (name dburl : string) : M St Db :=
  let! db := InitDBConn name dburl in
  match sql_DB db with
  | Err e => graise e
  | Ok sqlDB => gmodify (fun s => mkConns s.(drivers) s.(dbs) (set_pool sqlDB (mkPool 50 10 (30 * Minute) (5 * Minute)) s.(ext))) ;;; gret db
  end.

(** ** Helpers *)
Definition InitModel {Model} (AutoMigrate : Model -> M St unit) (models : list Model) : M St unit := gfor models AutoMigrate.
Definition DoInitModels (imfs : list (M St unit)) : M St unit := gfor imfs (fun imf => imf).
Definition DoInitModelsWithDB (db : Db) (imfs : list (Db -> M St unit)) : M St unit := gfor imfs (fun imf => imf db).

(** * What a process has *)
(** A connection is looked up under the name it was opened with, and a name
    that was never opened panics. *)
Lemma Open_keeps dburl w : dbs (st (snd (Open dburl w))) = dbs (st w) /\ drivers (st (snd (Open dburl w))) = drivers (st w).
Proof.
  unfold Open. rewrite gbind_eq. cbn [gget fst snd]. destruct (dialector_of _ _ _) as [d|e]; [|done]. unfold on_ext, gextr.
  destruct (env_fault _); [done|]. destruct (gorm_Open d _) as [r x]. done.
Qed.
Lemma InitDBConn_cases name dburl w : match InitDBConn name dburl w with
  | (Ok db, w') => dbs (st w') = <[name_of name := db]> (dbs (st w)) /\ drivers (st w') = drivers (st w)
  | (Err _, w') => dbs (st w') = dbs (st w) /\ drivers (st w') = drivers (st w)
  end.
Proof.
  unfold InitDBConn. rewrite gbind_eq. pose proof (Open_keeps dburl w) as [Hd Hr]. destruct (Open dburl w) as [[db|e] w1]; [|done].
  cbn in *. by rewrite Hd, Hr.
Qed.
(** The names that are open after a prefix of the addresses. *)
Lemma InitMultiDBConn_run l w : match InitMultiDBConn l w with
  | (Ok tt, w') => forall n, DBExists n (st w') = DBExists n (st w) || existsb (fun p => str_eqb n (name_of (fst p))) l
  | (Err _, w') => exists l1 p l2, l = (l1 ++ p :: l2)%list /\
      forall n, DBExists n (st w') = DBExists n (st w) || existsb (fun p => str_eqb n (name_of (fst p))) l1
  end.
Proof.
  revert w. induction l as [|p l IH]; intros w; [intros n; by rewrite orb_false_r|]. unfold InitMultiDBConn. cbn [gfor].
  rewrite !gbind_eq. pose proof (InitDBConn_cases (fst p) (snd p) w) as Hc. destruct (InitDBConn _ _ w) as [[db|e] w1]; cbn [gret].
  - specialize (IH w1). unfold InitMultiDBConn in IH. destruct Hc as [Hc _].
    assert (Hx : forall n, DBExists n (st w1) = DBExists n (st w) || str_eqb n (name_of (fst p))).
    { intros n. unfold DBExists. rewrite Hc. unfold str_eqb. destruct (String.eqb_spec n (name_of (fst p))) as [->|Hn].
      - by rewrite lookup_insert_eq, orb_true_r.
      - by rewrite lookup_insert_ne, orb_false_r by congruence. }
    destruct (gfor l _ w1) as [[[]|e] w2].
    + intros n. rewrite IH, Hx. cbn [existsb]. by rewrite orb_assoc.
    + destruct IH as (l1 & q & l2 & -> & Hn). exists (p :: l1), q, l2. split; [done|]. intros n. rewrite Hn, Hx. cbn [existsb]. by rewrite orb_assoc.
  - exists [], p, l. split; [done|]. intros n. cbn. unfold DBExists. by rewrite (proj1 Hc), orb_false_r.
Qed.
(** After opening the connections of a configuration, whatever the order, every
    one of its names is open, the empty one as "default"; when one fails, those
    that came before it stay open, and nothing else changes. *)
Theorem InitMultiDBConn_spec l w : match InitMultiDBConn l w with
  | (Ok tt, w') => forall p, In p l -> exists db, DB (name_of (fst p)) (st w') = Val db
  | (Err _, w') => exists l1 p l2, l = (l1 ++ p :: l2)%list /\
      (forall q, In q l1 -> exists db, DB (name_of (fst q)) (st w') = Val db) /\
      forall n, ~ In n (map (fun q => name_of (fst q)) l1) -> DBExists n (st w') = DBExists n (st w)
  end.
Proof.
  assert (Hdb : forall n (s : St), DBExists n s = true -> exists db, DB n s = Val db).
  { intros n s. unfold DBExists, DB. destruct (dbs s !! n) as [db|]; [by exists db|done]. }
  assert (Hin : forall (k : list (string * string)) p, In p k -> existsb (fun q => str_eqb (name_of (fst p)) (name_of (fst q))) k = true).
  { intros k p Hp. apply existsb_exists. exists p. split; [done|]. unfold str_eqb. apply String.eqb_refl. }
  pose proof (InitMultiDBConn_run l w) as Hr. destruct (InitMultiDBConn l w) as [[[]|e] w'].
  - intros p Hp. apply Hdb. by rewrite Hr, Hin, orb_true_r.
  - destruct Hr as (l1 & p & l2 & -> & Hn). exists l1, p, l2. split; [done|]. split; [intros q Hq; apply Hdb; by rewrite Hn, Hin, orb_true_r|].
    intros n Hnot. rewrite Hn. destruct (existsb _ l1) eqn:E; [|by rewrite orb_false_r]. exfalso. apply Hnot.
    apply existsb_exists in E as (q & Hq & E). unfold str_eqb in E. apply String.eqb_eq in E as ->. by apply (in_map (fun q => name_of (fst q))).
Qed.
(** The two ways to enter a connection differ: opening replaces the one with the
    name, registering keeps it. *)
Theorem conns_by_name name dburl db0 db1 w db w' : str_eqb name "" = false -> InitDBConn name dburl w = (Ok db, w') ->
  DB name (st w') = Val db /\
  DB name (RegistryDB name db0 (st w')) = Val db /\
  (DBExists name (st w) = false -> DB name (RegistryDB name db1 (RegistryDB name db0 (st w))) = Val db0) /\
  forall n, n <> name -> DB n (st w') = DB n (st w).
Proof.
  intros Hn E. pose proof (InitDBConn_cases name dburl w) as Hc. rewrite E in Hc. destruct Hc as [Hc _]. unfold name_of in Hc. rewrite Hn in Hc.
  unfold DB, RegistryDB, DBExists, set_db. rewrite Hc, lookup_insert_eq. split; [done|]. split; [by rewrite Hc, lookup_insert_eq|]. split.
  - destruct (dbs (st w) !! name); [done|]. intros _. cbn [dbs]. by rewrite lookup_insert_eq; cbn [dbs]; rewrite lookup_insert_eq.
  - intros n Hne. by rewrite lookup_insert_ne by congruence.
Qed.
(** The case of a scheme does not matter, neither where a driver is registered
    nor in an address. *)
Theorem Open_scheme scheme factory ds dburl u w : url_Parse dburl = Ok u -> lower u.(Scheme) = lower scheme ->
  drivers (st w) = Register scheme factory ds ->
  Open dburl w = match factory dburl with Err e => (Err e, w) | Ok d => on_ext (gorm_Open d) w end.
Proof.
  intros Hu Hs Hd. unfold Open, dialector_of. rewrite gbind_eq. cbn [gget fst snd]. rewrite Hu, Hs, Hd. unfold Register. rewrite lookup_insert_eq. by destruct (factory dburl).
Qed.
End Manager.

(** * The Redis client of the process *)
Record RedisOptions : Type := mkRedisOptions { Addr : string; RedisPassword : string; RedisDB : Z }.
Record Redises (Cli X : Type) : Type := mkRedises { stdRedis : option Cli; stdCache : option Cli; services : X }.
Arguments mkRedises {Cli X} stdRedis stdCache services.
Arguments stdRedis {Cli X} r.
Arguments stdCache {Cli X} r.
Arguments services {Cli X} r.
Section RedisPool.
Context `{Env} {Cli X : Type} (NewClient : RedisOptions -> Cli) (Ping : Cli -> X -> Res unit * X).
(** [settings.GetYaml] on the services. *)
Context (GetYaml : string -> string -> X -> Res RedisOptions * X).
Abbreviation St := (Redises Cli X).
Implicit Types w : World St.
Definition on_services {A} (f : X -> Res A * X) : M St A :=
  gextr (fun s => let (r, x) := f s.(services) in (r, mkRedises s.(stdRedis) s.(stdCache) x)).
Definition InitCache (cli : Cli) (s : St) : St := mkRedises s.(stdRedis) (Some cli) s.(services).
Definition InitRedisWithConfig (cfg : RedisOptions) : M St Cli :=
  let rds := NewClient cfg in
  on_services (Ping rds) ;;;
  gmodify (fun s => mkRedises (Some rds) s.(stdCache) s.(services)) ;;;
  gmodify (InitCache rds) ;;; gret rds.
Definition InitRedis (group key : string) : M St unit :=
  let! cfg := on_services (GetYaml group key) in
  let rds := NewClient cfg in
  on_services (Ping rds) ;;;
  gmodify (fun s => mkRedises (Some rds) s.(stdCache) s.(services)) ;;;
  gmodify (InitCache rds).
Definition Redis (s : St) : Panics Cli := match s.(stdRedis) with None => Panic "redis is nil" | Some c => Val c end.
Definition GetRedis (s : St) : Res Cli := match s.(stdRedis) with None => Err (ErrNew "redis is nil") | Some c => Ok c end.
Definition CacheInstance (s : St) : Panics Cli := match s.(stdCache) with None => Panic "redis cache is nil" | Some c => Val c end.
Definition redis_Std (s : St) : Panics Cli := CacheInstance s.
Lemma on_services_keeps {A} (f : X -> Res A * X) w : stdRedis (st (snd (on_services f w))) = stdRedis (st w) /\ stdCache (st (snd (on_services f w))) = stdCache (st w).
Proof. unfold on_services, gextr. destruct (env_fault _); [done|]. by destruct (f _) as [[]]. Qed.
(** The client and the cache are that of the last setting that answered; one
    that does not answer leaves both as they were. *)
Theorem InitRedis_spec group key w : match InitRedis group key w with
  | (Ok tt, w') => exists cfg, Redis (st w') = Val (NewClient cfg) /\ CacheInstance (st w') = Val (NewClient cfg)
  | (Err _, w') => Redis (st w') = Redis (st w) /\ CacheInstance (st w') = CacheInstance (st w)
  end.
Proof.
  unfold InitRedis. rewrite gbind_eq. destruct (on_services_keeps (GetYaml group key) w) as [H1 H2].
  destruct (on_services (GetYaml group key) w) as [[cfg|e] w1]; cbn [snd] in *; [|by unfold Redis, CacheInstance; rewrite H1, H2].
  rewrite gbind_eq. destruct (on_services_keeps (Ping (NewClient cfg)) w1) as [H3 H4].
  destruct (on_services (Ping (NewClient cfg)) w1) as [[[]|e] w2]; cbn [snd] in *.
  - by exists cfg.
  - unfold Redis, CacheInstance. by rewrite H3, H4, H1, H2.
Qed.
End RedisPool.

(** * At work *)
Definition demo_url (s : string) : Res URL :=
  if has_prefix "MySQL://" s then Ok (mkURL "MySQL" "u" "p@ss" "db.local" "" "/core" "parseTime=true")
  else if has_prefix "mysql6://" s then Ok (mkURL "mysql" "u" "p" "::1" "3306" "/core" "")
  else if has_prefix "pg://" s then Ok (mkURL "pg" "u" "p" "db.local" "" "/core" "")
  else Err (ErrVar "missing protocol scheme").
Definition all_drivers : Drivers := clickhousedrv_init (sqlitedrv_init (pgdrv_init (mysqldrv_init demo_url ∅))).
(** A password goes into the name as it is, an address of IPv6 loses its
    brackets, and PostgreSQL gets a scheme that its library does not read as an
    address. *)
Example dialects : map (dialector_of demo_url all_drivers) ["MySQL://x"; "mysql6://x"; "pg://u:p@db.local/core"; "core"] =
  [Ok (mysql_Open "u:p@ss@tcp(db.local:3306)/core?parseTime=true"); Ok (mysql_Open "u:p@tcp(::1:3306)/core");
   Ok (postgres_Open "pg://u:p@db.local/core"); Err (ErrVar "missing protocol scheme")].
Proof. reflexivity. Qed.
Definition demo_conns : World (Conns Dialector nat) := mkWorld 0 (mkConns all_drivers ∅ 0%nat).
Definition demo_open (d : Dialector) (n : nat) : Res Dialector * nat := (Ok d, S n).
Definition demo_dsn : Dialector := mysql_Open "u:p@ss@tcp(db.local:3306)/core?parseTime=true".
Lemma conns_by_name_witness : exists w', InitDBConn (H := quietEnv) demo_url demo_open (fun _ d => d) "core" "MySQL://x" demo_conns = (Ok demo_dsn, w') /\
  DB "core" (RegistryDB "core" (sqlite_Open "f") (st w')) = Val demo_dsn.
Proof.
  eexists. split; [vm_compute; reflexivity|].
  apply (conns_by_name (H := quietEnv) demo_url demo_open (fun _ d => d) "core" "MySQL://x" (sqlite_Open "f") (sqlite_Open "g") demo_conns demo_dsn _
    ltac:(reflexivity) ltac:(vm_compute; reflexivity)).
Defined.
Definition mysql_only : World (Conns Dialector nat) := mkWorld 0 (mkConns (mysqldrv_init demo_url ∅) ∅ 0%nat).
Lemma Open_scheme_witness : Open (H := quietEnv) demo_url demo_open "MySQL://x" mysql_only = on_ext (H := quietEnv) (demo_open demo_dsn) mysql_only.
Proof.
  etransitivity; [refine (Open_scheme (H := quietEnv) demo_url demo_open "mysql" _ ∅ "MySQL://x"
    (mkURL "MySQL" "u" "p@ss" "db.local" "" "/core" "parseTime=true") mysql_only _ _ _); reflexivity|reflexivity].
Defined.
