(* ===== verification/TaskModel.v ===== *)
(** The task record of [src/task/model/entity.go] and its sentinel errors
    ([errors.go]): status predicates, the [MarkAs...] transitions with their
    clock readings and float-computed cost, and validation. *)
From S2P Require Import Prelude.
From Stdlib Require Import SpecFloat.

(** * Status values (string constants in the source) *)
Definition TaskStatusPending : string := "pending".
Definition TaskStatusRunning : string := "running".
Definition TaskStatusSuccess : string := "success".
Definition TaskStatusFailed : string := "failed".
Definition TaskStatusCanceled : string := "canceled".
Definition TaskStatusTimeout : string := "timeout".

(** * Sentinel errors *)
Definition ErrInvalidTimeout : error := ErrVar "task: invalid timeout".
Definition ErrTaskNotFound : error := ErrVar "task: task not found".
Definition ErrEmptyTaskType : error := ErrVar "task: task type cannot be empty".
Definition ErrEmptyPayload : error := ErrVar "task: payload cannot be empty".
Definition ErrInvalidSubjectID : error := ErrVar "task: invalid subject id".

(** * The entity.  Times are nanoseconds since the epoch. *)
Record TaskEntity : Type := mkTask {
  ID : Z;  (* gorm.Model.ID (uint) *)
  CreatedAt : Z;  (* gorm.Model.CreatedAt, 0 is the zero time *)
  UpdatedAt : Z;
  DeletedAt : option Z;  (* None: not deleted *)
  CompanyID : Z;
  Uin : Z;
  SubjectType : string;
  SubjectID : Z;
  TaskType : string;
  TaskStatus : string;
  Priority : Z;
  Step : Z;
  Redo : Z;
  MaxRedo : Z;
  Timeout : Z;  (* time.Duration, nanoseconds *)
  Payload : string;
  Result : string;
  ErrMsg : string;
  WorkerID : string;
  StartAt : option Z;  (* *time.Time *)
  EndAt : option Z;  (* *time.Time *)
  Cost : Z;  (* seconds *)
  AppGroup : string;
}.

Definition set_ID (v : Z) (t : TaskEntity) : TaskEntity :=
  mkTask v (t.(CreatedAt)) (t.(UpdatedAt)) (t.(DeletedAt)) (t.(CompanyID))
    (t.(Uin)) (t.(SubjectType)) (t.(SubjectID)) (t.(TaskType))
    (t.(TaskStatus)) (t.(Priority)) (t.(Step)) (t.(Redo)) (t.(MaxRedo))
    (t.(Timeout)) (t.(Payload)) (t.(Result)) (t.(ErrMsg)) (t.(WorkerID))
    (t.(StartAt)) (t.(EndAt)) (t.(Cost)) (t.(AppGroup)).
Definition set_CreatedAt (v : Z) (t : TaskEntity) : TaskEntity :=
  mkTask (t.(ID)) v (t.(UpdatedAt)) (t.(DeletedAt)) (t.(CompanyID)) (t.(Uin))
    (t.(SubjectType)) (t.(SubjectID)) (t.(TaskType)) (t.(TaskStatus))
    (t.(Priority)) (t.(Step)) (t.(Redo)) (t.(MaxRedo)) (t.(Timeout))
    (t.(Payload)) (t.(Result)) (t.(ErrMsg)) (t.(WorkerID)) (t.(StartAt))
    (t.(EndAt)) (t.(Cost)) (t.(AppGroup)).
Definition set_UpdatedAt (v : Z) (t : TaskEntity) : TaskEntity :=
  mkTask (t.(ID)) (t.(CreatedAt)) v (t.(DeletedAt)) (t.(CompanyID)) (t.(Uin))
    (t.(SubjectType)) (t.(SubjectID)) (t.(TaskType)) (t.(TaskStatus))
    (t.(Priority)) (t.(Step)) (t.(Redo)) (t.(MaxRedo)) (t.(Timeout))
    (t.(Payload)) (t.(Result)) (t.(ErrMsg)) (t.(WorkerID)) (t.(StartAt))
    (t.(EndAt)) (t.(Cost)) (t.(AppGroup)).
Definition set_DeletedAt (v : option Z) (t : TaskEntity) : TaskEntity :=
  mkTask (t.(ID)) (t.(CreatedAt)) (t.(UpdatedAt)) v (t.(CompanyID)) (t.(Uin))
    (t.(SubjectType)) (t.(SubjectID)) (t.(TaskType)) (t.(TaskStatus))
    (t.(Priority)) (t.(Step)) (t.(Redo)) (t.(MaxRedo)) (t.(Timeout))
    (t.(Payload)) (t.(Result)) (t.(ErrMsg)) (t.(WorkerID)) (t.(StartAt))
    (t.(EndAt)) (t.(Cost)) (t.(AppGroup)).
Definition set_TaskStatus (v : string) (t : TaskEntity) : TaskEntity :=
  mkTask (t.(ID)) (t.(CreatedAt)) (t.(UpdatedAt)) (t.(DeletedAt))
    (t.(CompanyID)) (t.(Uin)) (t.(SubjectType)) (t.(SubjectID)) (t.(TaskType))
    v (t.(Priority)) (t.(Step)) (t.(Redo)) (t.(MaxRedo)) (t.(Timeout))
    (t.(Payload)) (t.(Result)) (t.(ErrMsg)) (t.(WorkerID)) (t.(StartAt))
    (t.(EndAt)) (t.(Cost)) (t.(AppGroup)).
Definition set_Redo (v : Z) (t : TaskEntity) : TaskEntity :=
  mkTask (t.(ID)) (t.(CreatedAt)) (t.(UpdatedAt)) (t.(DeletedAt))
    (t.(CompanyID)) (t.(Uin)) (t.(SubjectType)) (t.(SubjectID)) (t.(TaskType))
    (t.(TaskStatus)) (t.(Priority)) (t.(Step)) v (t.(MaxRedo)) (t.(Timeout))
    (t.(Payload)) (t.(Result)) (t.(ErrMsg)) (t.(WorkerID)) (t.(StartAt))
    (t.(EndAt)) (t.(Cost)) (t.(AppGroup)).
Definition set_MaxRedo (v : Z) (t : TaskEntity) : TaskEntity :=
  mkTask (t.(ID)) (t.(CreatedAt)) (t.(UpdatedAt)) (t.(DeletedAt))
    (t.(CompanyID)) (t.(Uin)) (t.(SubjectType)) (t.(SubjectID)) (t.(TaskType))
    (t.(TaskStatus)) (t.(Priority)) (t.(Step)) (t.(Redo)) v (t.(Timeout))
    (t.(Payload)) (t.(Result)) (t.(ErrMsg)) (t.(WorkerID)) (t.(StartAt))
    (t.(EndAt)) (t.(Cost)) (t.(AppGroup)).
Definition set_Result (v : string) (t : TaskEntity) : TaskEntity :=
  mkTask (t.(ID)) (t.(CreatedAt)) (t.(UpdatedAt)) (t.(DeletedAt))
    (t.(CompanyID)) (t.(Uin)) (t.(SubjectType)) (t.(SubjectID)) (t.(TaskType))
    (t.(TaskStatus)) (t.(Priority)) (t.(Step)) (t.(Redo)) (t.(MaxRedo))
    (t.(Timeout)) (t.(Payload)) v (t.(ErrMsg)) (t.(WorkerID)) (t.(StartAt))
    (t.(EndAt)) (t.(Cost)) (t.(AppGroup)).
Definition set_ErrMsg (v : string) (t : TaskEntity) : TaskEntity :=
  mkTask (t.(ID)) (t.(CreatedAt)) (t.(UpdatedAt)) (t.(DeletedAt))
    (t.(CompanyID)) (t.(Uin)) (t.(SubjectType)) (t.(SubjectID)) (t.(TaskType))
    (t.(TaskStatus)) (t.(Priority)) (t.(Step)) (t.(Redo)) (t.(MaxRedo))
    (t.(Timeout)) (t.(Payload)) (t.(Result)) v (t.(WorkerID)) (t.(StartAt))
    (t.(EndAt)) (t.(Cost)) (t.(AppGroup)).
Definition set_WorkerID (v : string) (t : TaskEntity) : TaskEntity :=
  mkTask (t.(ID)) (t.(CreatedAt)) (t.(UpdatedAt)) (t.(DeletedAt))
    (t.(CompanyID)) (t.(Uin)) (t.(SubjectType)) (t.(SubjectID)) (t.(TaskType))
    (t.(TaskStatus)) (t.(Priority)) (t.(Step)) (t.(Redo)) (t.(MaxRedo))
    (t.(Timeout)) (t.(Payload)) (t.(Result)) (t.(ErrMsg)) v (t.(StartAt))
    (t.(EndAt)) (t.(Cost)) (t.(AppGroup)).
Definition set_StartAt (v : option Z) (t : TaskEntity) : TaskEntity :=
  mkTask (t.(ID)) (t.(CreatedAt)) (t.(UpdatedAt)) (t.(DeletedAt))
    (t.(CompanyID)) (t.(Uin)) (t.(SubjectType)) (t.(SubjectID)) (t.(TaskType))
    (t.(TaskStatus)) (t.(Priority)) (t.(Step)) (t.(Redo)) (t.(MaxRedo))
    (t.(Timeout)) (t.(Payload)) (t.(Result)) (t.(ErrMsg)) (t.(WorkerID)) v
    (t.(EndAt)) (t.(Cost)) (t.(AppGroup)).
Definition set_EndAt (v : option Z) (t : TaskEntity) : TaskEntity :=
  mkTask (t.(ID)) (t.(CreatedAt)) (t.(UpdatedAt)) (t.(DeletedAt))
    (t.(CompanyID)) (t.(Uin)) (t.(SubjectType)) (t.(SubjectID)) (t.(TaskType))
    (t.(TaskStatus)) (t.(Priority)) (t.(Step)) (t.(Redo)) (t.(MaxRedo))
    (t.(Timeout)) (t.(Payload)) (t.(Result)) (t.(ErrMsg)) (t.(WorkerID))
    (t.(StartAt)) v (t.(Cost)) (t.(AppGroup)).
Definition set_Cost (v : Z) (t : TaskEntity) : TaskEntity :=
  mkTask (t.(ID)) (t.(CreatedAt)) (t.(UpdatedAt)) (t.(DeletedAt))
    (t.(CompanyID)) (t.(Uin)) (t.(SubjectType)) (t.(SubjectID)) (t.(TaskType))
    (t.(TaskStatus)) (t.(Priority)) (t.(Step)) (t.(Redo)) (t.(MaxRedo))
    (t.(Timeout)) (t.(Payload)) (t.(Result)) (t.(ErrMsg)) (t.(WorkerID))
    (t.(StartAt)) (t.(EndAt)) v (t.(AppGroup)).

(** The Go zero value, what [var entity TaskEntity] holds. *)
Definition zeroTask : TaskEntity :=
  mkTask 0 0 0 None 0 0 "" 0 "" "" 0 0 0 0 0 "" "" "" "" None None 0 "".

Definition TableNameCoreTask : string := "core_task".

(** * Status predicates *)
Definition IsPending (t : TaskEntity) : bool := str_eqb t.(TaskStatus) TaskStatusPending.
Definition IsRunning (t : TaskEntity) : bool := str_eqb t.(TaskStatus) TaskStatusRunning.
Definition IsFinished (t : TaskEntity) : bool :=
  str_eqb t.(TaskStatus) TaskStatusSuccess
  || str_eqb t.(TaskStatus) TaskStatusFailed
  || str_eqb t.(TaskStatus) TaskStatusCanceled
  || str_eqb t.(TaskStatus) TaskStatusTimeout.
Definition IsSuccess (t : TaskEntity) : bool := str_eqb t.(TaskStatus) TaskStatusSuccess.
Definition CanRetry (t : TaskEntity) : bool :=
  (t.(Redo) <? t.(MaxRedo))
  && (str_eqb t.(TaskStatus) TaskStatusFailed || str_eqb t.(TaskStatus) TaskStatusTimeout).

(** * Elapsed time: [now.Sub(start)] saturates, [Seconds()] is float64
    arithmetic, [int64(...)] truncates. *)
Definition time_Sub (t u : Z) : Z := Z.max (- two63) (Z.min (two63 - 1) (t - u)).
Definition float64_of_int (z : Z) : spec_float := binary_normalize 53 1024 z 0 false.
Definition Duration_Seconds (d : Z) : spec_float :=
  SFadd 53 1024 (float64_of_int (Z.quot d 1000000000))
    (SFdiv 53 1024 (float64_of_int (Z.rem d 1000000000)) (float64_of_int 1000000000)).
Definition int64_of_float64 (f : spec_float) : Z :=
  match f with
  | S754_finite s m e =>
      let v := if 0 <=? e then Z.shiftl (Zpos m) e else Z.shiftr (Zpos m) (- e) in
      if s then - v else v
  | S754_zero _ => 0
  | S754_infinity _ | S754_nan => - two63
  end.
Definition cost_since (now start : Z) : Z :=
  int64_of_float64 (Duration_Seconds (time_Sub now start)).

(** [if t.StartAt != nil { t.Cost = int64(now.Sub( *t.StartAt).Seconds()) }] *)
Definition stamp_cost (now : Z) (t : TaskEntity) : TaskEntity :=
  match t.(StartAt) with
  | Some s => set_Cost (cost_since now s) t
  | None => t
  end.

(** * Transitions; [now] is the reading of [time.Now()] *)
Definition MarkAsRunning (now : Z) (workerID : string) (t : TaskEntity) : TaskEntity :=
  set_StartAt (Some now) (set_WorkerID workerID (set_TaskStatus TaskStatusRunning t)).

Definition MarkAsSuccess (now : Z) (result : string) (t : TaskEntity) : TaskEntity :=
  stamp_cost now (set_EndAt (Some now) (set_Result result (set_TaskStatus TaskStatusSuccess t))).

Definition MarkAsFailed (now : Z) (errMsg : string) (t : TaskEntity) : TaskEntity :=
  stamp_cost now
    (set_Redo (wrap_i64 (t.(Redo) + 1))
       (set_EndAt (Some now) (set_ErrMsg errMsg (set_TaskStatus TaskStatusFailed t)))).

Definition MarkAsTimeout (now : Z) (t : TaskEntity) : TaskEntity :=
  stamp_cost now
    (set_Redo (wrap_i64 (t.(Redo) + 1))
       (set_EndAt (Some now)
          (set_ErrMsg "task execution timeout" (set_TaskStatus TaskStatusTimeout t)))).

Definition MarkAsCanceled (now : Z) (reason : string) (t : TaskEntity) : TaskEntity :=
  stamp_cost now (set_EndAt (Some now) (set_ErrMsg reason (set_TaskStatus TaskStatusCanceled t))).

(** * Validation: [None] is a nil error *)
Definition Validate (t : TaskEntity) : option error :=
  if str_eqb t.(TaskType) "" then Some ErrEmptyTaskType
  else if t.(SubjectID) =? 0 then Some ErrInvalidSubjectID
  else if str_eqb t.(Payload) "" then Some ErrEmptyPayload
  else if t.(Timeout) <=? 0 then Some ErrInvalidTimeout
  else None.

(** * Facts shared by the components that use tasks *)
Create Rewrite HintDb task.

Definition status_in (l : list string) (t : TaskEntity) : bool :=
  existsb (str_eqb t.(TaskStatus)) l.

Lemma str_eqb_eq a b : str_eqb a b = true <-> a = b.
Proof. apply String.eqb_eq. Qed.

Lemma str_eqb_refl a : str_eqb a a = true.
Proof. apply String.eqb_refl. Qed.

Lemma status_in_spec l t : status_in l t = true <-> In t.(TaskStatus) l.
Proof.
  unfold status_in. rewrite existsb_exists. split.
  - intros (s & Hin & Heq). apply str_eqb_eq in Heq. by subst.
  - intros Hin. exists t.(TaskStatus). split; [done|]. apply str_eqb_refl.
Qed.

Section StampCost.
Variables (now : Z) (t : TaskEntity).

Lemma stamp_cost_ID : ID (stamp_cost now t) = ID t.
Proof. unfold stamp_cost. by destruct (StartAt t). Qed.
Lemma stamp_cost_TaskStatus : TaskStatus (stamp_cost now t) = TaskStatus t.
Proof. unfold stamp_cost. by destruct (StartAt t). Qed.
Lemma stamp_cost_Redo : Redo (stamp_cost now t) = Redo t.
Proof. unfold stamp_cost. by destruct (StartAt t). Qed.
Lemma stamp_cost_MaxRedo : MaxRedo (stamp_cost now t) = MaxRedo t.
Proof. unfold stamp_cost. by destruct (StartAt t). Qed.
Lemma stamp_cost_DeletedAt : DeletedAt (stamp_cost now t) = DeletedAt t.
Proof. unfold stamp_cost. by destruct (StartAt t). Qed.
Lemma stamp_cost_TaskType : TaskType (stamp_cost now t) = TaskType t.
Proof. unfold stamp_cost. by destruct (StartAt t). Qed.
Lemma stamp_cost_SubjectID : SubjectID (stamp_cost now t) = SubjectID t.
Proof. unfold stamp_cost. by destruct (StartAt t). Qed.
Lemma stamp_cost_AppGroup : AppGroup (stamp_cost now t) = AppGroup t.
Proof. unfold stamp_cost. by destruct (StartAt t). Qed.
Lemma stamp_cost_Step : Step (stamp_cost now t) = Step t.
Proof. unfold stamp_cost. by destruct (StartAt t). Qed.
Lemma stamp_cost_EndAt : EndAt (stamp_cost now t) = EndAt t.
Proof. unfold stamp_cost. by destruct (StartAt t). Qed.
Lemma stamp_cost_Result : Result (stamp_cost now t) = Result t.
Proof. unfold stamp_cost. by destruct (StartAt t). Qed.
Lemma stamp_cost_ErrMsg : ErrMsg (stamp_cost now t) = ErrMsg t.
Proof. unfold stamp_cost. by destruct (StartAt t). Qed.
End StampCost.

#[export] Hint Rewrite stamp_cost_ID stamp_cost_TaskStatus stamp_cost_Redo
  stamp_cost_MaxRedo stamp_cost_DeletedAt stamp_cost_TaskType stamp_cost_SubjectID
  stamp_cost_AppGroup stamp_cost_Step stamp_cost_EndAt stamp_cost_Result
  stamp_cost_ErrMsg : task.

(** Evaluate a transition and drop the cost stamp from the fields it leaves. *)
Ltac task_simpl :=
  unfold MarkAsRunning, MarkAsSuccess, MarkAsFailed, MarkAsTimeout, MarkAsCanceled in *;
  repeat (autorewrite with task in *; cbn in *).
