(* ===== verification/TaskStore.v ===== *)
(** The services behind [src/task]: the [core_task] table as the statements of
    [src/task/model/dao.go] and [src/task/manager/repository.go] see it through
    gorm, and Redis streams as [src/task/manager/queue.go] uses them.

    Row order, row locks held by other transactions, Go map iteration order and
    raw SQL fragments are not decided by the program: they are the parameters
    of [SqlEnv].  Redis streams are the interface [RedisStreams] with the laws
    [RedisStreamsOk]; [MemStreams] is an executable instance. *)
From S2P Require Import Prelude TaskModel.

(** * The database's freedom *)
Class SqlEnv : Type := {
  sql_any : list TaskEntity -> list TaskEntity;       (* no ORDER BY *)
  sql_by_priority : list TaskEntity -> list TaskEntity; (* priority DESC, updated_at ASC *)
  sql_by_step : list TaskEntity -> list TaskEntity;     (* step ASC *)
  sql_order_by : list string -> list TaskEntity -> list TaskEntity; (* raw ORDER BY *)
  sql_or : list string -> list string -> TaskEntity -> bool;  (* raw OR fragments, args *)
  row_locked : nat -> Z -> bool;  (* at call n, row id is locked by someone else *)
  map_range : list string -> list string;  (* order of [for k := range m] *)
  slice_by_step : list TaskEntity -> list TaskEntity;  (* [sort.Slice] on [Step], unstable *)
}.

(** [ORDER BY priority DESC, updated_at ASC] puts [a] no later than [b]. *)
Definition prio_le (a b : TaskEntity) : Prop :=
  b.(Priority) < a.(Priority) \/ (a.(Priority) = b.(Priority) /\ a.(UpdatedAt) <= b.(UpdatedAt)).

Class SqlEnvOk (E : SqlEnv) : Prop := {
  sql_any_perm : forall l, Permutation (sql_any l) l;
  sql_by_priority_perm : forall l, Permutation (sql_by_priority l) l;
  sql_by_priority_sorted : forall l, StronglySorted prio_le (sql_by_priority l);
  sql_by_step_perm : forall l, Permutation (sql_by_step l) l;
  sql_order_by_perm : forall o l, Permutation (sql_order_by o l) l;
  map_range_perm : forall l, Permutation (map_range l) l;
  slice_by_step_perm : forall l, Permutation (slice_by_step l) l;
  slice_by_step_sorted : forall l,
    StronglySorted (fun a b => a.(Step) <= b.(Step)) (slice_by_step l);
}.

(** Insertion sort by a total boolean order: a concrete choice. *)
Section Isort.
Context {A : Type} (leb : A -> A -> bool).
Fixpoint insert_by (x : A) (l : list A) : list A :=
  match l with
  | [] => [x]
  | y :: l' => if leb x y then x :: l else y :: insert_by x l'
  end.
Definition isort (l : list A) : list A := foldr insert_by [] l.

Lemma insert_by_perm x l : Permutation (insert_by x l) (x :: l).
Proof.
  induction l as [|y l IH]; simpl; [done|]. destruct (leb x y); [done|].
  rewrite IH. apply Permutation_swap.
Qed.
Lemma isort_perm l : Permutation (isort l) l.
Proof. induction l as [|x l IH]; simpl; [done|]. by rewrite insert_by_perm, IH. Qed.

Context (le : A -> A -> Prop) (Hle : forall x y, leb x y = true -> le x y)
  (Htot : forall x y, leb x y = false -> le y x)
  (Htr : forall x y z, le x y -> le y z -> le x z).
Lemma isort_sorted l : StronglySorted le (isort l).
Proof.
  induction l as [|x l IH]; simpl; [constructor|].
  induction IH as [|y l' Hs IH' Hy]; simpl; [repeat constructor|].
  destruct (leb x y) eqn:E; constructor; [by constructor| |done|].
  - constructor; [by apply Hle|]. eapply Forall_impl; [exact Hy|]. intros z Hz. eapply Htr; [by apply Hle|done].
  - apply Htot in E. apply Forall_forall. intros z Hz. rewrite insert_by_perm in Hz.
    apply elem_of_cons in Hz as [->|Hz]; [done|]. rewrite Forall_forall in Hy. by apply Hy.
Qed.
End Isort.

Definition prio_leb (a b : TaskEntity) : bool :=
  (b.(Priority) <? a.(Priority))
  || ((a.(Priority) =? b.(Priority)) && (a.(UpdatedAt) <=? b.(UpdatedAt))).
Definition step_leb (a b : TaskEntity) : bool := a.(Step) <=? b.(Step).

(** Stable choices, no lock held by anyone else, no raw SQL. *)
Definition plainSql : SqlEnv := {|
  sql_any l := l;
  sql_by_priority := isort prio_leb;
  sql_by_step := isort step_leb;
  sql_order_by _ l := l;
  sql_or _ _ _ := true;
  row_locked _ _ := false;
  map_range l := l;
  slice_by_step := isort step_leb;
|}.

Lemma plainSqlOk : SqlEnvOk plainSql.
Proof.
  constructor; simpl; auto using isort_perm.
  - apply isort_sorted; unfold prio_leb, prio_le; intros; lia.
  - apply isort_sorted; unfold step_leb; intros; lia.
Qed.

(** * Redis streams *)
Definition Fields : Type := list (string * string).

Class RedisStreams (R : Type) : Type := {
  (* what a stream holds (ids ascending), and a group's last delivered id *)
  stream_entries : R -> string -> list (Z * Fields);
  group_last : R -> string -> string -> option Z;
  stream_exists : R -> string -> bool;
  (* the commands *)
  XAdd : string -> Fields -> R -> Z * R;
  XGroupCreateMkStream : string -> string -> R -> option error * R;
  XReadGroup : string -> string -> string -> R -> Res (option Z) * R;
  XAck : string -> string -> Z -> R -> R;
  XInfoGroups : string -> R -> Res (list (string * Z));
  XRangeN : string -> Z -> nat -> R -> list (Z * Fields);
  XPendingExt : string -> string -> R -> Res (list Z);
  Scan : Z -> string -> R -> list string * Z;
}.

(** The first entry past [d]. *)
Definition next_entry (d : Z) (l : list (Z * Fields)) : option (Z * Fields) :=
  List.find (fun e => d <? fst e) l.

(** Entry a group created at ["$"] starts after. *)
Definition last_id (l : list (Z * Fields)) : Z := foldr (fun e => Z.max (fst e)) 0 l.

(** A full [SCAN] iteration: rounds until the cursor is 0 again. *)
Fixpoint scan_pure {R} `{RedisStreams R} (fuel : nat) (cursor : Z) (p : string)
    (keys : list string) (r : R) : option (list string) :=
  match fuel with
  | O => None
  | S fuel' =>
      let '(kk, next) := Scan cursor p r in
      if next =? 0 then Some (keys ++ kk) else scan_pure fuel' next p (keys ++ kk) r
  end.

Class RedisStreamsOk (R : Type) `{RedisStreams R} : Prop := {
  XAdd_entries : forall k f r, stream_entries (snd (XAdd k f r)) k
                   = stream_entries r k ++ [(fst (XAdd k f r), f)];
  XAdd_other : forall k k' f r, k <> k' ->
                   stream_entries (snd (XAdd k f r)) k' = stream_entries r k';
  XAdd_fresh : forall k f r, 0 < fst (XAdd k f r) /\
                   Forall (fun e => fst e < fst (XAdd k f r)) (stream_entries r k);
  XAdd_group : forall k f r k' g, group_last (snd (XAdd k f r)) k' g = group_last r k' g;
  XGroupCreate_entries : forall k g r k',
                   stream_entries (snd (XGroupCreateMkStream k g r)) k' = stream_entries r k';
  XGroupCreate_new : forall k g r, group_last r k g = None ->
                   group_last (snd (XGroupCreateMkStream k g r)) k g
                   = Some (last_id (stream_entries r k));
  XGroupCreate_old : forall k g r d, group_last r k g = Some d ->
                   snd (XGroupCreateMkStream k g r) = r;
  XReadGroup_entries : forall k g c r k',
                   stream_entries (snd (XReadGroup k g c r)) k' = stream_entries r k';
  XReadGroup_some : forall k g c r d e, group_last r k g = Some d ->
                   next_entry d (stream_entries r k) = Some e ->
                   fst (XReadGroup k g c r) = Ok (Some (fst e)) /\
                   group_last (snd (XReadGroup k g c r)) k g = Some (fst e);
  XReadGroup_none : forall k g c r d, group_last r k g = Some d ->
                   next_entry d (stream_entries r k) = None ->
                   fst (XReadGroup k g c r) = Ok None /\ snd (XReadGroup k g c r) = r;
  XInfoGroups_spec : forall k r l, XInfoGroups k r = Ok l ->
                   NoDup (map fst l) /\ forall g d, In (g, d) l <-> group_last r k g = Some d;
  XRangeN_spec : forall k d n r,
                   XRangeN k d n r = take n (List.filter (fun e => d <=? fst e) (stream_entries r k));
  Scan_complete : forall p r, exists n ks, scan_pure n 0 p [] r = Some ks /\
                   forall k, In k ks <-> has_prefix p k = true /\ stream_exists r k = true;
}.

(** * The state of the task services *)
Record TaskSys (R : Type) : Type := mkSys {
  table : list TaskEntity;
  auto_id : positive;  (* the next AUTO_INCREMENT value *)
  redis : R;
}.
Arguments mkSys {R} table auto_id redis.
Arguments table {R} t.
Arguments auto_id {R} t.
Arguments redis {R} t.

Definition with_table {R} (l : list TaskEntity) (s : TaskSys R) : TaskSys R :=
  mkSys l s.(auto_id) s.(redis).
Definition with_redis {R} (r : R) (s : TaskSys R) : TaskSys R :=
  mkSys s.(table) s.(auto_id) r.

(** * gorm on the table *)
(** The soft-delete scope gorm adds when the statement has a model. *)
Definition alive (t : TaskEntity) : bool :=
  match t.(DeletedAt) with None => true | Some _ => false end.

(** [UPDATE core_task SET ... WHERE p]: [f] on the rows that satisfy [p]. *)
Definition update_where (p : TaskEntity -> bool) (f : TaskEntity -> TaskEntity)
    (l : list TaskEntity) : list TaskEntity :=
  map (fun t => if p t then f t else t) l.

(** [Find(&entity)] scans the first row, the zero value stays when there is
    none. *)
Definition find_one (l : list TaskEntity) : TaskEntity := hd zeroTask l.

(** [db.Save(e)] at time [now]: every column of the live row with that id, or
    an upsert when no live row has it. *)
Definition save_row (now : Z) (e : TaskEntity) (l : list TaskEntity) : list TaskEntity :=
  let e' := set_UpdatedAt now e in
  let hit t := (t.(ID) =? e.(ID)) && alive t in
  if existsb hit l then update_where hit (fun _ => e') l
  else if existsb (fun t => t.(ID) =? e.(ID)) l
       then update_where (fun t => t.(ID) =? e.(ID)) (fun _ => e') l
       else l ++ [e'].

(** A field of a struct passed to [Updates] is written when it is not zero. *)
Definition nz (v old : Z) : Z := if v =? 0 then old else v.
Definition nzs (v old : string) : string := if str_eqb v "" then old else v.
Definition nzo (v old : option Z) : option Z := match v with None => old | Some _ => v end.

(** [Updates(&e)] on one row. *)
Definition updates_struct (now : Z) (e t : TaskEntity) : TaskEntity :=
  mkTask t.(ID) (nz e.(CreatedAt) t.(CreatedAt)) now (nzo e.(DeletedAt) t.(DeletedAt))
    (nz e.(CompanyID) t.(CompanyID)) (nz e.(Uin) t.(Uin))
    (nzs e.(SubjectType) t.(SubjectType)) (nz e.(SubjectID) t.(SubjectID))
    (nzs e.(TaskType) t.(TaskType)) (nzs e.(TaskStatus) t.(TaskStatus))
    (nz e.(Priority) t.(Priority)) (nz e.(Step) t.(Step)) (nz e.(Redo) t.(Redo))
    (nz e.(MaxRedo) t.(MaxRedo)) (nz e.(Timeout) t.(Timeout))
    (nzs e.(Payload) t.(Payload)) (nzs e.(Result) t.(Result)) (nzs e.(ErrMsg) t.(ErrMsg))
    (nzs e.(WorkerID) t.(WorkerID)) (nzo e.(StartAt) t.(StartAt)) (nzo e.(EndAt) t.(EndAt))
    (nz e.(Cost) t.(Cost)) (nzs e.(AppGroup) t.(AppGroup)).

(** A row as [Create] stores it: zero timestamps become [now], a zero
    [MaxRedo] takes the column default 3, a zero id the next auto-increment. *)
Definition create_row (now id : Z) (e : TaskEntity) : TaskEntity :=
  set_ID (nz e.(ID) id) (set_CreatedAt (nz e.(CreatedAt) now)
    (set_UpdatedAt (nz e.(UpdatedAt) now) (set_MaxRedo (nz e.(MaxRedo) 3) e))).

(** [INSERT] of several rows, one by one: a duplicate primary key refuses the
    whole statement. *)
Fixpoint create_rows (now id : Z) (es l : list TaskEntity) : option (list TaskEntity * Z) :=
  match es with
  | [] => Some (l, id)
  | e :: es' =>
      if existsb (fun t => t.(ID) =? nz e.(ID) id) l then None
      else create_rows now (if e.(ID) =? 0 then id + 1 else Z.max id (e.(ID) + 1)) es'
             (l ++ [create_row now id e])
  end.

(** * An executable stream store *)
Record MemStream : Type := mkStream {
  ms_entries : list (Z * Fields);
  ms_groups : gmap string (Z * list Z);  (* last delivered id, pending ids *)
}.

Definition mem_get (r : gmap string MemStream) (k : string) : MemStream :=
  default (mkStream [] ∅) (r !! k).

Definition mem_XAdd (k : string) (f : Fields) (r : gmap string MemStream) :=
  let s := mem_get r k in
  let id := last_id (ms_entries s) + 1 in
  (id, <[k := mkStream (ms_entries s ++ [(id, f)]) (ms_groups s)]> r).

Definition mem_XGroupCreate (k g : string) (r : gmap string MemStream) :=
  let s := mem_get r k in
  match ms_groups s !! g with
  | Some _ => (Some (ErrVar "BUSYGROUP Consumer Group name already exists"), r)
  | None => (None, <[k := mkStream (ms_entries s)
                        (<[g := (last_id (ms_entries s), [])]> (ms_groups s))]> r)
  end.

(** Read with NOACK: the delivered entry is not kept pending. *)
Definition mem_XReadGroup (k g c : string) (r : gmap string MemStream) :=
  let s := mem_get r k in
  match ms_groups s !! g with
  | None => (Err (ErrVar "NOGROUP No such key or consumer group"), r)
  | Some (d, pel) =>
      match next_entry d (ms_entries s) with
      | None => (Ok None, r)
      | Some e => (Ok (Some (fst e)),
                   <[k := mkStream (ms_entries s) (<[g := (fst e, pel)]> (ms_groups s))]> r)
      end
  end.

Definition mem_XAck (k g : string) (id : Z) (r : gmap string MemStream) :=
  let s := mem_get r k in
  match ms_groups s !! g with
  | None => r
  | Some (d, pel) =>
      <[k := mkStream (ms_entries s)
               (<[g := (d, List.filter (fun i => negb (i =? id)) pel)]> (ms_groups s))]> r
  end.

Definition mem_XInfoGroups (k : string) (r : gmap string MemStream) : Res (list (string * Z)) :=
  match r !! k with
  | None => Err (ErrVar "ERR no such key")
  | Some s => Ok (map (fun x => (fst x, fst (snd x))) (map_to_list (ms_groups s)))
  end.

Definition mem_XPendingExt (k g : string) (r : gmap string MemStream) : Res (list Z) :=
  match ms_groups (mem_get r k) !! g with
  | None => Err (ErrVar "NOGROUP No such key or consumer group")
  | Some (_, pel) => Ok pel
  end.

(** [SCAN] with pattern [p*]: one round returns every matching key. *)
Definition mem_Scan (cursor : Z) (p : string) (r : gmap string MemStream) : list string * Z :=
  (List.filter (fun k => has_prefix p k) (map fst (map_to_list r)), 0).

#[export] Instance MemStreams : RedisStreams (gmap string MemStream) := {
  stream_entries r k := ms_entries (mem_get r k);
  group_last r k g := fst <$> ms_groups (mem_get r k) !! g;
  stream_exists r k := bool_decide (is_Some (r !! k));
  XAdd := mem_XAdd;
  XGroupCreateMkStream := mem_XGroupCreate;
  XReadGroup := mem_XReadGroup;
  XAck := mem_XAck;
  XInfoGroups := mem_XInfoGroups;
  XRangeN k d n r := take n (List.filter (fun e => d <=? fst e) (ms_entries (mem_get r k)));
  XPendingExt := mem_XPendingExt;
  Scan := mem_Scan;
}.

Lemma last_id_bound l : 0 <= last_id l /\ Forall (fun e => fst e <= last_id l) l.
Proof.
  induction l as [|e l [IH0 IH]]; simpl; [split; [lia|constructor]|].
  split; [lia|]. constructor; [lia|]. eapply Forall_impl; [exact IH|]. simpl; intros; lia.
Qed.

Lemma mem_get_insert r k s : mem_get (<[k := s]> r) k = s.
Proof. unfold mem_get. by rewrite lookup_insert_eq. Qed.
Lemma mem_get_insert_ne r k k' s : k <> k' -> mem_get (<[k := s]> r) k' = mem_get r k'.
Proof. intros. unfold mem_get. by rewrite lookup_insert_ne. Qed.
Create Rewrite HintDb mem.
#[export] Hint Rewrite mem_get_insert : mem.

(** Split on whether a stream key is the one written. *)
Ltac mem_key k k' :=
  destruct (decide (k = k')) as [<-|];
  [autorewrite with mem | rewrite ?mem_get_insert_ne by done].

#[export] Instance MemStreamsOk : RedisStreamsOk (gmap string MemStream).
Proof.
  constructor; simpl.
  - intros. by rewrite mem_get_insert.
  - intros. by rewrite mem_get_insert_ne.
  - intros. destruct (last_id_bound (ms_entries (mem_get r k))) as [H0 H].
    split; [lia|]. eapply Forall_impl; [exact H|]. simpl; intros; lia.
  - intros. mem_key k k'; done.
  - intros k g r k'. unfold mem_XGroupCreate.
    destruct (ms_groups (mem_get r k) !! g); [done|]. simpl. mem_key k k'; done.
  - intros k g r H. unfold mem_XGroupCreate.
    destruct (ms_groups (mem_get r k) !! g) eqn:E; [done|]. simpl.
    autorewrite with mem. simpl. by rewrite lookup_insert_eq.
  - intros k g r d H. unfold mem_XGroupCreate.
    destruct (ms_groups (mem_get r k) !! g) eqn:E; done.
  - intros k g c r k'. unfold mem_XReadGroup.
    destruct (ms_groups (mem_get r k) !! g) as [[d pel]|]; [|done].
    destruct (next_entry d _); [|done]. simpl. mem_key k k'; done.
  - intros k g c r d e H1 H2. unfold mem_XReadGroup.
    destruct (ms_groups (mem_get r k) !! g) as [[d' pel]|] eqn:E; [|done].
    simpl in H1. injection H1 as ->. rewrite H2. simpl. split; [done|].
    autorewrite with mem. simpl. by rewrite lookup_insert_eq.
  - intros k g c r d H1 H2. unfold mem_XReadGroup.
    destruct (ms_groups (mem_get r k) !! g) as [[d' pel]|] eqn:E; [|done].
    simpl in H1. injection H1 as ->. by rewrite H2.
  - intros k r l. unfold mem_XInfoGroups, mem_get.
    destruct (r !! k) as [s|] eqn:E; [|done]. intros [= <-]. simpl. split.
    + rewrite map_map. simpl. apply (NoDup_fst_map_to_list (ms_groups s)).
    + intros g d. rewrite in_map_iff. split.
      * intros ([g' [d' pel]] & [= -> ->] & Hin).
        apply list_elem_of_In, elem_of_map_to_list in Hin. by rewrite Hin.
      * destruct (ms_groups s !! g) as [[d' pel]|] eqn:Eg; [|done]. intros [= ->].
        exists (g, (d, pel)). split; [done|]. by apply list_elem_of_In, elem_of_map_to_list.
  - done.
  - intros p r. exists 1%nat, (fst (mem_Scan 0 p r)). split; [done|]. simpl. intros k.
    rewrite filter_In, in_map_iff, bool_decide_eq_true. split.
    + intros [([k' s] & <- & Hin) Hp]. split; [done|].
      apply list_elem_of_In, elem_of_map_to_list in Hin. simpl. by rewrite Hin.
    + intros [Hp [s Hs]]. split; [|done]. exists (k, s). split; [done|].
      by apply list_elem_of_In, elem_of_map_to_list.
Qed.
