(* ===== verification/TaskDao.v ===== *)
(** [src/task/model/dao.go]: the query conditions and the data-access
    operations on [core_task].  A [Stmt] is the gorm statement the builder
    mutates; the operations run it against the table. *)
From S2P Require Import Prelude TaskModel TaskStore.

(** * Query conditions *)
Module Cond.
Record OrCondition : Type := mkOr { Conditions : list string; Args : list string }.
Record TaskCond : Type := mk {
  CompanyID : Z;
  Uin : Z;
  ID : Z;
  IDs : list Z;
  SubjectID : Z;
  Step : Z;
  WorkerID : string;
  TaskType : string;
  TaskStatus : string;
  OrderBy : list string;
  OrCond : OrCondition;
  Offset : Z;
  Limit : Z;
  IsDelete : bool;
}.
(** [TaskCond{}]. *)
Definition zero : TaskCond := mk 0 0 0 [] 0 0 "" "" "" [] (mkOr [] []) 0 0 false.
End Cond.

(** The statement under construction. *)
Record Stmt : Type := mkStmt {
  wheres : list (TaskEntity -> bool);
  unscoped : bool;
  orders : list string;
}.
Definition newStmt : Stmt := mkStmt [] false [].
Definition where_ (p : TaskEntity -> bool) (s : Stmt) : Stmt :=
  mkStmt (s.(wheres) ++ [p]) s.(unscoped) s.(orders).
Definition unscope (s : Stmt) : Stmt := mkStmt s.(wheres) true s.(orders).
Definition order_ (o : list string) (s : Stmt) : Stmt := mkStmt s.(wheres) s.(unscoped) o.

Section Dao.
Context `{Env} `{SqlEnv} {R : Type} `{RedisStreams R}.

Definition BuildCondition (s : Stmt) (cond : Cond.TaskCond) : Stmt :=
  let s := if 0 <? cond.(Cond.CompanyID)
           then where_ (fun t => t.(CompanyID) =? cond.(Cond.CompanyID)) s else s in
  let s := if 0 <? cond.(Cond.Uin)
           then where_ (fun t => t.(Uin) =? cond.(Cond.Uin)) s else s in
  let s := if negb (str_eqb cond.(Cond.WorkerID) "")
           then where_ (fun t => str_eqb t.(WorkerID) cond.(Cond.WorkerID)) s else s in
  let s := if 0 <? cond.(Cond.ID)
           then where_ (fun t => t.(ID) =? cond.(Cond.ID)) s else s in
  let s := if (0 <? length cond.(Cond.IDs))%nat
           then where_ (fun t => existsb (Z.eqb t.(ID)) cond.(Cond.IDs)) s else s in
  let s := if negb (str_eqb cond.(Cond.TaskType) "")
           then where_ (fun t => str_eqb t.(TaskType) cond.(Cond.TaskType)) s else s in
  let s := if negb (str_eqb cond.(Cond.TaskStatus) "")
           then where_ (fun t => str_eqb t.(TaskStatus) cond.(Cond.TaskStatus)) s else s in
  let s := if 0 <? cond.(Cond.SubjectID)
           then where_ (fun t => t.(SubjectID) =? cond.(Cond.SubjectID)) s else s in
  let s := if 0 <? cond.(Cond.Step)
           then where_ (fun t => t.(Step) =? cond.(Cond.Step)) s else s in
  let s := if cond.(Cond.IsDelete) then unscope s else s in
  let s := if (0 <? length cond.(Cond.OrderBy))%nat then order_ cond.(Cond.OrderBy) s else s in
  let oc := cond.(Cond.OrCond) in
  if (0 <? length oc.(Cond.Conditions))%nat
  then if (length oc.(Cond.Args) =? length oc.(Cond.Conditions))%nat
       then where_ (sql_or oc.(Cond.Conditions) oc.(Cond.Args)) s else s
  else s.

(** Does the statement select the row, soft-delete scope included? *)
Definition stmt_hits (s : Stmt) (t : TaskEntity) : bool :=
  forallb (fun p => p t) s.(wheres) && (s.(unscoped) || alive t).

Definition stmt_rows (s : Stmt) (l : list TaskEntity) : list TaskEntity :=
  let rows := List.filter (stmt_hits s) l in
  match s.(orders) with [] => sql_any rows | o => sql_order_by o rows end.

(** Run a read of the table, or a write to it. *)
Definition db_read {A} (f : list TaskEntity -> A) : M (TaskSys R) A :=
  gext (fun s => (f s.(table), s)).
Definition db_write (f : list TaskEntity -> list TaskEntity) : M (TaskSys R) unit :=
  gext (fun s => (tt, with_table (f s.(table)) s)).

(** [db.Create(es)]: returns the entities as gorm completes them. *)
Definition db_create (now : Z) (es : list TaskEntity) : M (TaskSys R) (list TaskEntity) :=
  gextr (fun s =>
    match create_rows now (Zpos s.(auto_id)) es s.(table) with
    | Some (l, id') => (Ok (drop (length s.(table)) l), mkSys l (Z.to_pos id') s.(redis))
    | None => (Err (ErrVar "Error 1062: Duplicate entry"), s)
    end).

Definition Insert (entity : TaskEntity) : M (TaskSys R) TaskEntity :=
  let! now := gnow in
  let! es := gfmt "[TaskDao] Insert fail, err: " (db_create now [entity]) in
  gret (hd entity es).

Definition BatchInsert (entityList : list TaskEntity) : M (TaskSys R) (list TaskEntity) :=
  match entityList with
  | [] => graise (ErrNew "[TaskDao] BatchInsert fail, entityList is empty")
  | _ => let! now := gnow in
         gfmt "[TaskDao] BatchInsert fail, err: " (db_create now entityList)
  end.

Definition UpdateByID (id : Z) (entity : TaskEntity) : M (TaskSys R) unit :=
  let! now := gnow in
  gfmt "[TaskDao] UpdateByID fail, err: "
    (db_write (update_where
       (fun t => (t.(ID) =? id) && ((entity.(ID) =? 0) || (t.(ID) =? entity.(ID))) && alive t)
       (updates_struct now entity))).

(** The columns of a map are written as they are, deleted rows included. *)
Definition UpdateMap (id : Z) (updateMap : TaskEntity -> TaskEntity) : M (TaskSys R) unit :=
  gfmt "[TaskDao] UpdateMap fail, err: "
    (db_write (update_where (fun t => t.(ID) =? id) updateMap)).

Definition Delete (id : Z) : M (TaskSys R) unit :=
  let! now := gnow in
  gfmt "[TaskDao] Delete fail, err: "
    (db_write (update_where (fun t => t.(ID) =? id) (set_DeletedAt (Some now)))).

Definition GetByID (id : Z) : M (TaskSys R) TaskEntity :=
  gfmt "[TaskDao] GetByID fail, err: "
    (db_read (fun l => find_one (sql_any (List.filter (fun t => (t.(ID) =? id) && alive t) l)))).

Definition GetByCond (cond : Cond.TaskCond) : M (TaskSys R) TaskEntity :=
  gfmt "[TaskDao] GetByCond fail, err: "
    (db_read (fun l => find_one (stmt_rows (BuildCondition newStmt cond) l))).

Definition GetListByCond (cond : Cond.TaskCond) : M (TaskSys R) (list TaskEntity) :=
  gfmt "[TaskDao] GetListByCond fail, err: "
    (db_read (stmt_rows (BuildCondition newStmt cond))).

Definition count_rows (s : Stmt) (l : list TaskEntity) : Z :=
  Z.of_nat (length (List.filter (stmt_hits s) l)).

Definition CountByCond (cond : Cond.TaskCond) : M (TaskSys R) Z :=
  gfmt "[TaskDao] CountByCond fail, err: "
    (db_read (count_rows (BuildCondition newStmt cond))).

(** [LIMIT] and [OFFSET] on the ordered rows (a server that takes [OFFSET]
    alone, as PostgreSQL does; MySQL refuses it). *)
Definition page (limit offset : Z) (rows : list TaskEntity) : list TaskEntity :=
  let rows := if 0 <? offset then drop (Z.to_nat offset) rows else rows in
  if 0 <? limit then take (Z.to_nat limit) rows else rows.

Definition GetPageListByCond (cond : Cond.TaskCond) : M (TaskSys R) (list TaskEntity * Z) :=
  let stmt := BuildCondition newStmt cond in
  let! count := gfmt "[TaskDao] GetPageListByCond count fail, err: " (db_read (count_rows stmt)) in
  let! rows := gfmt "[TaskDao] GetPageListByCond find fail, err: "
                 (db_read (fun l => page cond.(Cond.Limit) cond.(Cond.Offset) (stmt_rows stmt l))) in
  gret (rows, count).

End Dao.
