(* ===== verification/TaskQueue.v ===== *)
(** [src/task/manager/queue.go] and [src/task/manager/config.go]: the queue and
    manager configurations with their defaults, and the queue of wake-up
    messages, one Redis stream and one consumer group per task type. *)
From S2P Require Import Prelude TaskModel TaskStore.

Definition Second : Z := 1000000000.
Definition Minute : Z := 60 * Second.

(** * Configuration *)
Record QueueConfig : Type := mkQueueConfig {
  q_KeyPrefix : string;
  q_BlockTime : Z;
  q_MaxRetries : Z;
  q_RedisClient : bool;  (* not nil *)
}.

Definition DefaultQueueConfig : QueueConfig := mkQueueConfig "task:" (5 * Second) 3 false.

(** [Validate] also writes the defaults into the receiver. *)
Definition QueueConfig_Validate (c : QueueConfig) : Res QueueConfig :=
  if str_eqb c.(q_KeyPrefix) "" then Err (ErrNew "queue config: key prefix cannot be empty")
  else if negb c.(q_RedisClient) then Err (ErrNew "queue config: redis client is required")
  else Ok (mkQueueConfig c.(q_KeyPrefix)
             (if c.(q_BlockTime) <=? 0 then 5 * Second else c.(q_BlockTime))
             (if c.(q_MaxRetries) <? 0 then 3 else c.(q_MaxRetries)) true).

Record ManagerConfig : Type := mkManagerConfig {
  m_KeyPrefix : string;
  m_QueueBlockTime : Z;
  m_QueueSyncInterval : Z;
}.

Definition DefaultManagerConfig : ManagerConfig := mkManagerConfig "task:" (5 * Second) Minute.

Definition ManagerConfig_Validate (c : ManagerConfig) : Res ManagerConfig :=
  if str_eqb c.(m_KeyPrefix) "" then Err (ErrNew "manager config: key prefix cannot be empty")
  else Ok (mkManagerConfig c.(m_KeyPrefix)
             (if c.(m_QueueBlockTime) <=? 0 then 5 * Second else c.(m_QueueBlockTime))
             (if c.(m_QueueSyncInterval) <=? 0 then Minute else c.(m_QueueSyncInterval))).

(** [NewQueue] panics on an invalid configuration: [inl] is the panic value. *)
Definition NewQueue (config : option QueueConfig) : string + QueueConfig :=
  let config := match config with None => DefaultQueueConfig | Some c => c end in
  match QueueConfig_Validate config with
  | Err e => inl ("invalid queue config: " ++ Error e)%string
  | Ok c => inr c
  end.

(** The most entries [GetPendingCount] asks for. *)
Definition range_cap : nat := Z.to_nat 10000.
Lemma range_cap_Z : Z.of_nat range_cap = 10000.
Proof. by vm_compute. Qed.
#[global] Opaque range_cap.

(** * The queue; [kp] is [q.config.KeyPrefix] *)
Section Queue.
Context `{Env} {R : Type} `{RedisStreams R}.
Variable kp : string.

Definition streamKey (taskType : string) : string := (kp ++ "task_queue:" ++ taskType)%string.
Definition groupKey (taskType : string) : string := (kp ++ "task_group:" ++ taskType)%string.

(** One command on Redis, or one the server may refuse. *)
Definition rds {A} (f : R -> A * R) : M (TaskSys R) A :=
  gext (fun s => let '(a, r) := f s.(redis) in (a, with_redis r s)).
Definition rdsr {A} (f : R -> Res A * R) : M (TaskSys R) A :=
  gextr (fun s => let '(a, r) := f s.(redis) in (a, with_redis r s)).

Definition push_fields (taskType : string) (now : Z) : Fields :=
  [("task_type"%string, taskType); ("timestamp"%string, fmt_d (now / Second))].

Definition Push (taskType : string) : M (TaskSys R) unit :=
  let! now := gnow in
  gwrap "failed to push task to queue: "
    (rds (XAdd (streamKey taskType) (push_fields taskType now))) ;;;
  gret tt.

(** [None] is the empty message id the source returns when nothing came. *)
Definition Pop (taskType workerID : string) : M (TaskSys R) (option Z) :=
  gtry (rds (XGroupCreateMkStream (streamKey taskType) (groupKey taskType))) ;;;
  gwrap "failed to pop task from queue: "
    (rdsr (XReadGroup (streamKey taskType) (groupKey taskType) workerID)).

Definition Ack (taskType : string) (msgID : Z) : M (TaskSys R) unit :=
  gwrap "failed to ack task: "
    (rds (fun r => (tt, XAck (streamKey taskType) (groupKey taskType) msgID r))).

Definition GetPendingCount (taskType : string) : M (TaskSys R) Z :=
  let stream := streamKey taskType in
  let group := groupKey taskType in
  let! groupInfo := gwrap "failed to get group info: " (rdsr (fun r => (XInfoGroups stream r, r))) in
  match List.find (fun g => str_eqb (fst g) group) groupInfo with
  | None => gret 0
  | Some (_, lastID) =>
      let! entries := gwrap "failed to get pending count: "
                        (rds (fun r => (XRangeN stream lastID range_cap r, r))) in
      let count := Z.of_nat (length entries) in
      gret (if 0 <? count then count - 1 else count)
  end.

Definition CheckPendingMessages (taskType : string) : M (TaskSys R) Z :=
  let stream := streamKey taskType in
  let group := groupKey taskType in
  let! pending := gwrap "failed to check pending messages: "
                    (rdsr (fun r => (XPendingExt stream group r, r))) in
  gfor_log pending (fun p =>
    Push taskType ;;;
    rds (fun r => (tt, XAck stream group p r))) ;;;
  gret (Z.of_nat (length pending)).

(** The [SCAN] loop; [fuel] bounds the rounds. *)
Fixpoint scan_loop (fuel : nat) (cursor : Z) (pattern : string) (keys : list string) :
    M (TaskSys R) (list string) :=
  match fuel with
  | O => graise (ErrVar "scan: out of fuel")
  | S fuel' =>
      let! kn := gwrap "failed to scan keys: " (rds (fun r => (Scan cursor pattern r, r))) in
      let '(kk, nextCursor) := kn in
      if nextCursor =? 0 then gret (keys ++ kk)
      else scan_loop fuel' nextCursor pattern (keys ++ kk)
  end.

(** [if len(key) > len(prefix) { types = append(types, key[len(prefix):]) }]. *)
Definition strip_keys (prefix : string) (keys : list string) : list string :=
  flat_map (fun key => if (String.length prefix <? String.length key)%nat
                       then [str_drop (String.length prefix) key] else []) keys.

Definition GetAllTaskTypes (fuel : nat) : M (TaskSys R) (list string) :=
  let prefix := (kp ++ "task_queue:")%string in
  let! keys := scan_loop fuel 0 prefix [] in
  gret (strip_keys prefix keys).

End Queue.

(** * What the queue does *)
Section QueueFacts.
Context `{Env} {R : Type} `{RedisStreamsOk R}.
Variable kp : string.

(** The wake-ups a group has not been given yet; [None] when there is no group. *)
Definition abs_queue (tt : string) (r : R) : option (list Z) :=
  match group_last r (streamKey kp tt) (groupKey kp tt) with
  | None => None
  | Some d => Some (map fst (List.filter (fun e => d <? fst e) (stream_entries r (streamKey kp tt))))
  end.

(** The stream is sorted and the group's position is the origin or an entry. *)
Definition queue_ok (tt : string) (r : R) : Prop :=
  let es := stream_entries r (streamKey kp tt) in
  StronglySorted Z.lt (map fst es) /\
  Forall (fun i => 0 < i) (map fst es) /\
  forall d, group_last r (streamKey kp tt) (groupKey kp tt) = Some d ->
            d = 0 \/ In d (map fst es).

(** Reference queue: a list of undelivered ids. *)
Definition spec_push (id : Z) (q : option (list Z)) : option (list Z) :=
  match q with None => None | Some q => Some (q ++ [id]) end.
Definition spec_pop (q : option (list Z)) : option Z * option (list Z) :=
  match q with
  | None => (None, Some [])
  | Some [] => (None, Some [])
  | Some (i :: q') => (Some i, Some q')
  end.

Lemma StronglySorted_snoc (l : list Z) x :
  StronglySorted Z.lt l -> Forall (fun y => y < x) l -> StronglySorted Z.lt (l ++ [x]).
Proof.
  induction 1 as [|y l Hs IH Hy]; intros Hall; simpl; [repeat constructor|].
  apply Forall_cons_1 in Hall as [? ?]. constructor; [by apply IH|].
  apply Forall_app. split; [done|]. by constructor.
Qed.

Lemma filter_none_last (d : Z) (l : list (Z * Fields)) :
  Forall (fun e => fst e <= d) l -> List.filter (fun e => d <? fst e) l = [].
Proof.
  induction 1 as [|e l He Hl IH]; [done|]. simpl. by destruct (Z.ltb_spec d (fst e)); [lia|].
Qed.

(** In a sorted stream, moving past the first undelivered entry drops exactly
    that entry. *)
Lemma filter_after_next (d : Z) (l : list (Z * Fields)) e :
  StronglySorted Z.lt (map fst l) -> next_entry d l = Some e ->
  List.filter (fun x => d <? fst x) l = e :: List.filter (fun x => fst e <? fst x) l.
Proof.
  unfold next_entry. induction l as [|x l IH]; intros Hs Hn; [done|].
  simpl in *. inversion Hs as [|? ? Hs' Hx]; subst.
  destruct (Z.ltb_spec d (fst x)).
  - injection Hn as ->. destruct (Z.ltb_spec (fst e) (fst e)); [lia|]. f_equal.
    apply List.filter_ext_in. intros a Ha.
    rewrite Forall_forall in Hx. specialize (Hx (fst a)).
    assert (fst e < fst a) by (apply Hx, list_elem_of_In, in_map, Ha).
    by destruct (Z.ltb_spec d (fst a)), (Z.ltb_spec (fst e) (fst a)); try lia.
  - rewrite (IH Hs' Hn). apply find_some in Hn as [Hin Hlt].
    apply Z.ltb_lt in Hlt. destruct (Z.ltb_spec (fst e) (fst x)); [lia|done].
Qed.

Lemma next_entry_none (d : Z) (l : list (Z * Fields)) :
  next_entry d l = None -> List.filter (fun x => d <? fst x) l = [].
Proof.
  unfold next_entry. induction l as [|x l IH]; intros Hn; [done|]. simpl in *.
  destruct (d <? fst x); [done|]. by apply IH.
Qed.

Lemma last_id_in (l : list (Z * Fields)) :
  Forall (fun i => 0 < i) (map fst l) -> last_id l = 0 \/ In (last_id l) (map fst l).
Proof.
  induction l as [|e l IH]; intros Hp; [by left|]. simpl in *.
  apply Forall_cons_1 in Hp as [Hp1 Hp2]. right.
  destruct (IH Hp2) as [->|Hin]; [left; lia|].
  destruct (Z.max_spec (fst e) (last_id l)) as [[_ ->]|[_ ->]]; auto.
Qed.

(** [Push] appends one wake-up to the queue of its type. *)
Lemma Push_run taskType w :
  no_fault_from (calls w) ->
  let f := push_fields taskType (env_clock (calls w)) in
  Push kp taskType w
  = (Ok tt, mkWorld (S (S (calls w)))
              (with_redis (snd (XAdd (streamKey kp taskType) f (redis (st w)))) (st w))).
Proof.
  intros Hnf. unfold Push, rds, gbind, gnow, gwrap, gext. simpl. nofault.
  by destruct (XAdd _ _ _).
Qed.

Lemma Push_abs taskType w :
  no_fault_from (calls w) -> queue_ok taskType (redis (st w)) ->
  exists id, let w' := snd (Push kp taskType w) in
  Forall (fun j => j < id) (default [] (abs_queue taskType (redis (st w)))) /\
  fst (Push kp taskType w) = Ok tt /\ table (st w') = table (st w) /\
  queue_ok taskType (redis (st w')) /\
  abs_queue taskType (redis (st w')) = spec_push id (abs_queue taskType (redis (st w))).
Proof.
  intros Hnf (Hs & Hp & Hg). rewrite (Push_run taskType w Hnf). simpl.
  set (f := push_fields _ _). set (k := streamKey kp taskType) in *. set (r := redis (st w)) in *.
  exists (fst (XAdd k f r)). destruct (XAdd_fresh k f r) as [Hid Hfr].
  assert (Hfr' : Forall (fun y => y < fst (XAdd k f r)) (map fst (stream_entries r k)))
    by (by apply Forall_map).
  split.
  { unfold abs_queue. fold k. destruct (group_last r k _) as [d|]; [|constructor]. simpl.
    apply Forall_map, Forall_forall. intros x Hx. apply list_elem_of_In, filter_In in Hx as [Hx _].
    rewrite Forall_forall in Hfr. by apply Hfr, list_elem_of_In. }
  split; [done|]. split; [done|]. unfold queue_ok, abs_queue. fold k.
  rewrite XAdd_entries, XAdd_group, map_app. simpl. split.
  - split; [by apply StronglySorted_snoc|]. split; [apply Forall_app; by repeat constructor|].
    intros d Hd. rewrite in_app_iff. destruct (Hg d Hd); auto.
  - destruct (group_last r k _) as [d|] eqn:E; [|done]. simpl. f_equal.
    rewrite List.filter_app, map_app. f_equal. simpl.
    destruct (Z.ltb_spec d (fst (XAdd k f r))) as [|Hge]; [done|].
    destruct (Hg d eq_refl) as [->|Hin]; [lia|].
    rewrite Forall_forall in Hfr'. specialize (Hfr' d). rewrite list_elem_of_In in Hfr'.
    specialize (Hfr' Hin). simpl in Hfr'. lia.
Qed.

Lemma Pop_calls taskType worker w :
  (calls w <= calls (snd (Pop kp taskType worker w)))%nat.
Proof.
  unfold Pop, rds, rdsr, gbind, gtry, gwrap, gext, gextr.
  repeat (case_match; simplify_eq; simpl in *; try lia).
Qed.

Lemma Pop_abs taskType worker w :
  no_fault_from (calls w) -> queue_ok taskType (redis (st w)) ->
  let w' := snd (Pop kp taskType worker w) in
  fst (Pop kp taskType worker w) = Ok (fst (spec_pop (abs_queue taskType (redis (st w))))) /\
  table (st w') = table (st w) /\ queue_ok taskType (redis (st w')) /\
  abs_queue taskType (redis (st w')) = snd (spec_pop (abs_queue taskType (redis (st w)))).
Proof.
  intros Hnf (Hs & Hp & Hg).
  unfold Pop, rds, rdsr, gbind, gtry, gwrap, gext, gextr. simpl. repeat (nofault; simpl).
  unfold queue_ok, abs_queue in *.
  set (k := streamKey kp taskType) in *. set (g := groupKey kp taskType) in *.
  set (r := redis (st w)) in *.
  destruct (XGroupCreateMkStream k g r) as [oe r1] eqn:E1. simpl. nofault. simpl.
  assert (Hent : stream_entries r1 k = stream_entries r k)
    by (pose proof (XGroupCreate_entries k g r k) as X; by rewrite E1 in X).
  destruct (group_last r k g) as [d|] eqn:Eg.
  - assert (r1 = r) as -> by (pose proof (XGroupCreate_old k g r d Eg) as X; by rewrite E1 in X).
    destruct (next_entry d (stream_entries r k)) as [e|] eqn:En.
    + destruct (XReadGroup_some k g worker r d e Eg En) as [Hr1 Hr2].
      pose proof (XReadGroup_entries k g worker r k) as Hr3.
      destruct (XReadGroup k g worker r) as [res r2]; simpl in *. subst res.
      simpl. rewrite Hr2, Hr3, (filter_after_next d _ e Hs En). simpl. repeat split; try done.
      intros d' [= <-]. right. apply find_some in En as [Hin _]. by apply in_map.
    + destruct (XReadGroup_none k g worker r d Eg En) as [Hr1 Hr2].
      destruct (XReadGroup k g worker r) as [res r2]; simpl in *. subst res r2.
      simpl. rewrite Eg, (next_entry_none _ _ En). simpl. repeat split; auto.
  - assert (Hg1 : group_last r1 k g = Some (last_id (stream_entries r k)))
      by (pose proof (XGroupCreate_new k g r Eg) as X; by rewrite E1 in X).
    assert (Hnil : List.filter (fun x => last_id (stream_entries r k) <? fst x)
                     (stream_entries r k) = []).
    { apply filter_none_last, (proj2 (last_id_bound _)). }
    assert (Hn : next_entry (last_id (stream_entries r k)) (stream_entries r1 k) = None).
    { rewrite Hent. unfold next_entry.
      destruct (List.find _ _) as [x|] eqn:Ef; [|done]. apply find_some in Ef as [Hin Hlt].
      assert (In x []) as []; rewrite <- Hnil. by apply filter_In. }
    destruct (XReadGroup_none k g worker r1 _ Hg1 Hn) as [Hr1 Hr2].
    destruct (XReadGroup k g worker r1) as [res r2]; simpl in *. subst res r2.
    simpl. rewrite Hg1, Hent, Hnil. simpl. repeat split; try done.
    intros d [= <-]. by apply last_id_in.
Qed.

(** A client's use of one queue: pushes and pops, in order. *)
Inductive qop : Type := QPush | QPop (worker : string).

Fixpoint run_q (taskType : string) (ops : list qop) : M (TaskSys R) (list (option Z)) :=
  match ops with
  | [] => gret []
  | QPush :: ops' => Push kp taskType ;;; run_q taskType ops'
  | QPop worker :: ops' =>
      let! o := Pop kp taskType worker in
      let! os := run_q taskType ops' in
      gret (o :: os)
  end.

(** The same trace on the reference queue, with the pops' answers; the id a
    push is given is larger than those waiting. *)
Inductive spec_trace : list qop -> option (list Z) -> list (option Z) -> option (list Z) -> Prop :=
| st_nil q : spec_trace [] q [] q
| st_push ops q id outs q' :
    Forall (fun j => j < id) (default [] q) ->
    spec_trace ops (spec_push id q) outs q' -> spec_trace (QPush :: ops) q outs q'
| st_pop worker ops q outs q' :
    spec_trace ops (snd (spec_pop q)) outs q' ->
    spec_trace (QPop worker :: ops) q (fst (spec_pop q) :: outs) q'.

(** C11: every sequence of [Push] and [Pop] on a task type behaves as the
    reference FIFO queue of undelivered ids: each message is given to exactly
    one [Pop] of the group, in push order; messages pushed before the group
    exists are not delivered; the task table is untouched. *)
Theorem queue_trace_refines taskType ops w :
  no_fault_from (calls w) -> queue_ok taskType (redis (st w)) ->
  exists outs, let w' := snd (run_q taskType ops w) in
  fst (run_q taskType ops w) = Ok outs /\ table (st w') = table (st w) /\
  queue_ok taskType (redis (st w')) /\
  spec_trace ops (abs_queue taskType (redis (st w))) outs (abs_queue taskType (redis (st w'))).
Proof.
  revert w. induction ops as [|op ops IH]; intros w Hnf Hok.
  - exists []. simpl. repeat split; try apply Hok. constructor.
  - destruct op as [|worker]; simpl; rewrite !gbind_eq.
    + destruct (Push_abs taskType w Hnf Hok) as (id & Hfr & H1' & H2 & H3 & H4).
      assert (Hc : (calls w <= calls (snd (Push kp taskType w)))%nat)
        by (rewrite (Push_run taskType w Hnf); simpl; lia).
      destruct (Push kp taskType w) as [r w1]; simpl in *; subst r.
      destruct (IH w1) as (outs & I1 & I2 & I3 & I4).
      { eapply no_fault_le; [exact Hc|exact Hnf]. } { exact H3. }
      exists outs. rewrite I2, H2. repeat split; try done; try apply I3.
      eapply st_push; [exact Hfr|]. by rewrite <- H4.
    + destruct (Pop_abs taskType worker w Hnf Hok) as (H1' & H2 & H3 & H4).
      pose proof (Pop_calls taskType worker w) as Hc.
      destruct (Pop kp taskType worker w) as [r w1]; simpl in *; subst r.
      destruct (IH w1) as (outs & I1 & I2 & I3 & I4).
      { eapply no_fault_le; [exact Hc|exact Hnf]. } { exact H3. }
      rewrite gbind_eq. destruct (run_q taskType ops w1) as [r2 w2]; simpl in *; subst r2.
      eexists. simpl. rewrite I2, H2. repeat split; try done; try apply I3.
      constructor. by rewrite <- H4.
Qed.

(** What [GetPendingCount] answers for a queue whose group exists. *)
Lemma GetPendingCount_run taskType w l :
  no_fault_from (calls w) ->
  XInfoGroups (streamKey kp taskType) (redis (st w)) = Ok l ->
  let es := stream_entries (redis (st w)) (streamKey kp taskType) in
  fst (GetPendingCount kp taskType w) =
  Ok (match group_last (redis (st w)) (streamKey kp taskType) (groupKey kp taskType) with
      | None => 0
      | Some d =>
          Z.max 0 (Z.of_nat (Nat.min range_cap
                               (length (List.filter (fun e => d <=? fst e) es))) - 1)
      end).
Proof.
  intros Hnf Hl. destruct (XInfoGroups_spec _ _ _ Hl) as [Hnd Hsp].
  unfold GetPendingCount. rewrite gbind_eq. unfold gwrap at 1, rdsr. rewrite gextr_ok by (by apply Hnf).
  simpl. rewrite Hl.
  destruct (group_last _ _ _) as [d|] eqn:Eg.
  - apply Hsp in Eg. rewrite (find_key _ _ _ Hnd Eg), gbind_eq. unfold gwrap, rds.
    rewrite gext_ok by (simpl; apply Hnf; lia).
    simpl. rewrite XRangeN_spec, length_take. f_equal.
    destruct (Z.ltb_spec 0 (Z.of_nat (Nat.min range_cap
      (length (List.filter (fun e => d <=? fst e)
         (stream_entries (redis (st w)) (streamKey kp taskType))))))).
    all: lia.
  - destruct (List.find _ l) as [[g d]|] eqn:Ef; [|done]. exfalso.
    apply find_some in Ef as [Hin Hg]. simpl in Hg. apply str_eqb_eq in Hg as ->.
    apply Hsp in Hin. congruence.
Qed.

Lemma filter_le_split d (l : list (Z * Fields)) :
  StronglySorted Z.lt (map fst l) ->
  length (List.filter (fun e => d <=? fst e) l)
  = Nat.add (length (List.filter (fun e => d <? fst e) l))
      (if in_dec Z.eq_dec d (map fst l) then 1%nat else 0%nat).
Proof.
  induction l as [|e l IH]; intros Hs; [done|]. simpl in *.
  inversion Hs as [|? ? Hs' He]; subst. specialize (IH Hs').
  rewrite Forall_forall in He.
  destruct (in_dec Z.eq_dec d (map fst l)) as [Hin|Hni];
    destruct (Z.eq_dec (fst e) d) as [Heq|Hne]; simpl;
    destruct (Z.leb_spec d (fst e)), (Z.ltb_spec d (fst e)); simpl; try lia.
  all: assert (fst e < d) by (apply He, list_elem_of_In; congruence); lia.
Qed.

(** [GetPendingCount] is the number of undelivered messages (capped at
    9999) exactly when the group's last delivered id is still an entry of the
    stream; when it is not (the group was created on an empty stream and has
    read nothing), the count is one too low. *)
Theorem GetPendingCount_spec taskType w l d :
  no_fault_from (calls w) -> queue_ok taskType (redis (st w)) ->
  XInfoGroups (streamKey kp taskType) (redis (st w)) = Ok l ->
  group_last (redis (st w)) (streamKey kp taskType) (groupKey kp taskType) = Some d ->
  let es := stream_entries (redis (st w)) (streamKey kp taskType) in
  let n := Z.of_nat (length (default [] (abs_queue taskType (redis (st w))))) in
  fst (GetPendingCount kp taskType w) =
  Ok (if in_dec Z.eq_dec d (map fst es) then Z.min 9999 n else Z.max 0 (Z.min 10000 n - 1)).
Proof.
  intros Hnf (Hs & _) Hl Hg es n. rewrite (GetPendingCount_run _ _ _ Hnf Hl), Hg.
  f_equal. rewrite filter_le_split by done. subst n es. unfold abs_queue. rewrite Hg. simpl default.
  rewrite length_map. pose proof range_cap_Z. destruct (in_dec _ _ _); lia.
Qed.

(** The loop of the source is the pure iteration when no call fails. *)
Lemma scan_loop_run fuel cursor p keys w ks :
  no_fault_from (calls w) -> scan_pure fuel cursor p keys (redis (st w)) = Some ks ->
  fst (scan_loop fuel cursor p keys w) = Ok ks /\ st (snd (scan_loop fuel cursor p keys w)) = st w.
Proof.
  revert cursor keys w. induction fuel as [|fuel IH]; intros cursor keys w Hnf Hs; [done|].
  simpl in *. rewrite gbind_eq. unfold gwrap, rds. rewrite gext_ok by (by apply Hnf). simpl.
  destruct (Scan cursor p (redis (st w))) as [kk next]. simpl.
  destruct (st w) as [tb ai rd] eqn:Ew. unfold with_redis; simpl in *.
  destruct (next =? 0); [by injection Hs as <-|].
  apply (IH next (keys ++ kk) (mkWorld (S (calls w)) (mkSys tb ai rd))); [|done].
  eapply no_fault_le; [|exact Hnf]. simpl; lia.
Qed.

Lemma scan_pure_mono fuel fuel' cursor p keys (r : R) ks :
  (fuel <= fuel')%nat -> scan_pure fuel cursor p keys r = Some ks ->
  scan_pure fuel' cursor p keys r = Some ks.
Proof.
  revert fuel' cursor keys. induction fuel as [|fuel IH]; intros fuel' cursor keys Hle Hs; [done|].
  destruct fuel' as [|fuel']; [lia|]. simpl in *.
  destruct (Scan cursor p r) as [kk next]. destruct (next =? 0); [done|]. apply IH; [lia|done].
Qed.

Lemma strip_keys_spec p keys :
  Forall (fun k => has_prefix p k = true) keys ->
  forall t, In t (strip_keys p keys) <-> t <> "" /\ In (p ++ t)%string keys.
Proof.
  intros Hall t. unfold strip_keys. rewrite in_flat_map. rewrite Forall_forall in Hall. split.
  - intros (k & Hin & Ht). destruct (has_prefix_inv p k) as [r ->].
    { by apply Hall, list_elem_of_In. }
    rewrite str_length_app, str_drop_app in Ht.
    destruct (Nat.ltb_spec (String.length p) (String.length p + String.length r)); [|done].
    destruct Ht as [<-|[]]. split; [|done]. intros ->. simpl in *. lia.
  - intros [Hne Hin]. exists (p ++ t)%string. split; [done|].
    rewrite str_length_app, str_drop_app.
    destruct (Nat.ltb_spec (String.length p) (String.length p + String.length t)); [by left|].
    destruct t; [done|]. simpl in *. lia.
Qed.

(** With enough scan rounds (there is a bound for every Redis state),
    [GetAllTaskTypes] returns, changes nothing, and lists exactly the non-empty
    task types that have a stream. *)
Theorem GetAllTaskTypes_spec w :
  no_fault_from (calls w) ->
  exists n, forall fuel, (n <= fuel)%nat ->
  exists types, fst (GetAllTaskTypes kp fuel w) = Ok types /\
  st (snd (GetAllTaskTypes kp fuel w)) = st w /\
  forall t, In t types <-> t <> "" /\ stream_exists (redis (st w)) (streamKey kp t) = true.
Proof.
  intros Hnf. destruct (Scan_complete (kp ++ "task_queue:") (redis (st w))) as (n & ks & Hn & Hks).
  exists n. intros fuel Hle. pose proof (scan_pure_mono _ _ _ _ _ _ _ Hle Hn) as Hf.
  destruct (scan_loop_run _ _ _ _ w _ Hnf Hf) as [H1' H2].
  unfold GetAllTaskTypes. rewrite gbind_eq.
  destruct (scan_loop _ _ _ _ w) as [r w']; simpl in *; subst r.
  eexists. split; [done|]. split; [done|]. intros t. rewrite strip_keys_spec.
  - rewrite Hks, has_prefix_app, str_app_assoc. unfold streamKey. tauto.
  - apply Forall_forall. intros k Hk%list_elem_of_In. by apply Hks.
Qed.

End QueueFacts.

(** ** Concrete runs *)
Definition q0 : TaskSys (gmap string MemStream) := mkSys [] 1 ∅.

Lemma queue_ok_q0 : queue_ok "task:" "mail" (redis q0).
Proof.
  unfold queue_ok. change (stream_entries (redis q0) (streamKey "task:" "mail")) with (@nil (Z * Fields)).
  split; [constructor|]. split; [constructor|]. by intros d.
Qed.

Lemma queue_trace_refines_witness :
  let w := @mkWorld (TaskSys (gmap string MemStream)) 0 q0 in
  let ops := [QPush; QPop "w1"; QPush; QPush; QPop "w1"; QPop "w2"; QPop "w1"] in
  fst (@run_q quietEnv _ _ "task:" "mail" ops w) = Ok [None; Some 2; Some 3; None] /\
  exists outs, fst (@run_q quietEnv _ _ "task:" "mail" ops w) = Ok outs.
Proof.
  split; [vm_compute; reflexivity|].
  edestruct (@queue_trace_refines quietEnv _ _ _ "task:" "mail"
    [QPush; QPop "w1"; QPush; QPush; QPop "w1"; QPop "w2"; QPop "w1"] (mkWorld 0 q0)) as (outs & Ho & _).
  - apply quietEnv_ok.
  - exact queue_ok_q0.
  - exists outs. exact Ho.
Defined.

(** A group created on an empty stream, then one message: one undelivered
    message, reported as 0. *)
Definition q1 : World (TaskSys (gmap string MemStream)) :=
  snd (@run_q quietEnv _ _ "task:" "mail" [QPop "w1"; QPush] (mkWorld 0 q0)).

Lemma GetPendingCount_spec_witness :
  fst (@GetPendingCount quietEnv _ _ "task:" "mail" q1) = Ok 0 /\
  abs_queue "task:" "mail" (redis (st q1)) = Some [1].
Proof.
  split; [|vm_compute; reflexivity].
  etransitivity; [eapply (@GetPendingCount_spec quietEnv _ _ _ "task:" "mail" q1 _ 0)
                 | vm_compute; reflexivity].
  - apply quietEnv_ok.
  - split; [vm_compute; repeat constructor|]. split; [vm_compute; repeat constructor|].
    intros d Hd. vm_compute in Hd. injection Hd as <-. by left.
  - vm_compute. reflexivity.
  - vm_compute. reflexivity.
Defined.

Lemma GetAllTaskTypes_spec_witness :
  fst (@GetAllTaskTypes quietEnv _ _ "task:" 1 q1) = Ok ["mail"%string] /\
  exists n, forall fuel, (n <= fuel)%nat -> exists types,
    fst (@GetAllTaskTypes quietEnv _ _ "task:" fuel q1) = Ok types.
Proof.
  split; [vm_compute; reflexivity|].
  destruct (@GetAllTaskTypes_spec quietEnv _ _ _ "task:" q1 (quietEnv_ok _)) as [n Hn].
  exists n. intros fuel Hf. destruct (Hn fuel Hf) as (types & Ht & _). by exists types.
Defined.
