(* ===== verification/TaskRepository.v ===== *)
(** [src/task/manager/repository.go]: the statements that claim, save, cancel,
    time out and recover tasks, and the selection of the next step of a
    workflow. *)
From S2P Require Import Prelude TaskModel TaskStore TaskDao TaskQueue.

(** * The SQL predicates *)
Definition retryable_statuses : list string :=
  [TaskStatusPending; TaskStatusFailed; TaskStatusTimeout].
Definition done_statuses : list string := [TaskStatusCanceled; TaskStatusSuccess].

(** [t2] is an unfinished earlier step of the workflow of [t]. *)
Definition blocks (t t2 : TaskEntity) : bool :=
  (t2.(SubjectID) =? t.(SubjectID)) && str_eqb t2.(AppGroup) t.(AppGroup)
  && (t2.(Step) <? t.(Step)) && alive t2 && negb (status_in done_statuses t2).

(** The WHERE clause shared by [GetOnePendingTask] and [GetPendingTaskCount]. *)
Definition pending_where (taskType : string) (l : list TaskEntity) (t : TaskEntity) : bool :=
  str_eqb t.(TaskType) taskType && status_in retryable_statuses t
  && (t.(Redo) <? t.(MaxRedo)) && negb (existsb (blocks t) l) && alive t.

Section Repository.
Context `{Env} `{SqlEnv} {R : Type} `{RedisStreams R}.

(** [db.Transaction]: BEGIN, the body, COMMIT; on an error of any of them the
    table is as before.  Redis commands are not part of it. *)
Definition transaction {A} (body : M (TaskSys R) A) : M (TaskSys R) A :=
  fun w =>
    match (gext (fun s => (tt, s)) ;;; let! a := body in gext (fun s => (a, s))) w with
    | (Ok a, w') => (Ok a, w')
    | (Err e, w') => (Err e, mkWorld (calls w') (with_table (table (st w)) (st w')))
    end.

(** The locking SELECT: rows another transaction holds are skipped. *)
Definition select_pending (taskType : string) : M (TaskSys R) TaskEntity :=
  fun w =>
    db_read (fun l => find_one (sql_by_priority
      (List.filter (fun t => pending_where taskType l t && negb (row_locked (calls w) t.(ID))) l))) w.

Definition GetOnePendingTask (taskType workerID : string) : M (TaskSys R) TaskEntity :=
  transaction (
    let! taskEntity := gwrap "failed to find pending task: " (select_pending taskType) in
    if taskEntity.(ID) =? 0 then gret taskEntity
    else
      let! now := gnow in
      let taskEntity := MarkAsRunning now workerID taskEntity in
      let! saved := gnow in
      gwrap "failed to update task status: " (db_write (save_row saved taskEntity)) ;;;
      gret (set_UpdatedAt saved taskEntity)).

Definition GetTaskByID (id : Z) : M (TaskSys R) TaskEntity :=
  let! taskEntity := gwrap "failed to get task: " (GetByID id) in
  if taskEntity.(ID) =? 0 then graise ErrTaskNotFound else gret taskEntity.

Definition cond_id_worker (id : Z) (workerID : string) : Cond.TaskCond :=
  Cond.mk 0 0 id [] 0 0 workerID "" "" [] (Cond.mkOr [] []) 0 0 false.

Definition GetTaskByIDAndWorkerID (id : Z) (workerID : string) : M (TaskSys R) TaskEntity :=
  let! taskEntity := gwrap "failed to get task: " (GetByCond (cond_id_worker id workerID)) in
  if taskEntity.(ID) =? 0 then graise ErrTaskNotFound else gret taskEntity.

Definition SaveTask (taskEntity : TaskEntity) : M (TaskSys R) unit :=
  UpdateByID taskEntity.(ID) taskEntity.

(** [if taskEntity.TaskStatus == "" { taskEntity.TaskStatus = pending }] *)
Definition default_status (t : TaskEntity) : TaskEntity :=
  if str_eqb t.(TaskStatus) "" then set_TaskStatus TaskStatusPending t else t.

Definition CreateTask (taskEntity : TaskEntity) : M (TaskSys R) TaskEntity :=
  match Validate taskEntity with
  | Some e => graise e
  | None => Insert (default_status taskEntity)
  end.

(** The validation loop: the first invalid task stops it. *)
Fixpoint validate_all (tasks : list TaskEntity) : Res (list TaskEntity) :=
  match tasks with
  | [] => Ok []
  | t :: tasks' =>
      match Validate t with
      | Some e => Err (ErrWrap "task validation failed: " e)
      | None => match validate_all tasks' with
                | Ok ts => Ok (default_status t :: ts)
                | Err e => Err e
                end
      end
  end.

(** gorm's [CreateInBatches]: one INSERT per slice of [n], all in a transaction
    when there is more than one. *)
Fixpoint batches (fuel n : nat) (es : list TaskEntity) : list (list TaskEntity) :=
  match fuel, es with
  | O, _ | _, [] => []
  | S fuel', _ => take n es :: batches fuel' n (drop n es)
  end.

Fixpoint create_batches (bs : list (list TaskEntity)) : M (TaskSys R) (list TaskEntity) :=
  match bs with
  | [] => gret []
  | b :: bs' =>
      let! now := gnow in
      let! rows := db_create now b in
      let! rows' := create_batches bs' in
      gret (rows ++ rows')
  end.

Definition CreateInBatches (n : nat) (es : list TaskEntity) : M (TaskSys R) (list TaskEntity) :=
  let body := create_batches (batches (length es) n es) in
  if (length es <=? n)%nat then body else transaction body.

Definition CreateTasks (tasks : list TaskEntity) : M (TaskSys R) (list TaskEntity) :=
  match tasks with
  | [] => gret []
  | _ => match validate_all tasks with
         | Err e => graise e
         | Ok ts => CreateInBatches 100 ts
         end
  end.

Definition CancelTask (taskID : Z) (reason : string) : M (TaskSys R) unit :=
  let! taskEntity := GetTaskByID taskID in
  if negb (IsPending taskEntity) && negb (str_eqb taskEntity.(TaskStatus) TaskStatusFailed)
  then graise (ErrNew ("cannot cancel task in status: " ++ taskEntity.(TaskStatus)))
  else
    let! now := gnow in
    SaveTask (MarkAsCanceled now reason taskEntity).

Definition DeleteTask (id : Z) : M (TaskSys R) unit := Delete id.

Definition GetPendingTaskCount (taskType : string) : M (TaskSys R) Z :=
  db_read (fun l => Z.of_nat (length (List.filter (pending_where taskType l) l))).

(** ** Timeouts *)
Definition HeartbeatTimeout : Z := 30.

(** The task's start plus timeout plus the 60 s buffer lies before [now]. *)
Definition timed_out (now : Z) (t : TaskEntity) : bool :=
  match t.(StartAt) with
  | None => false
  | Some s =>
      let timeoutTime := s + t.(Timeout) in
      if negb (timeoutTime <? now) then false
      else
        let bufferTime := timeoutTime + HeartbeatTimeout * 2 * Second in
        bufferTime <? now
  end.

Definition cond_status (status : string) : Cond.TaskCond :=
  Cond.mk 0 0 0 [] 0 0 "" "" status [] (Cond.mkOr [] []) 0 0 false.

(** [SET task_status, err_msg, redo = redo + 1, end_at] and gorm's [updated_at]. *)
Definition to_timeout (msg : string) (now saved : Z) (t : TaskEntity) : TaskEntity :=
  set_UpdatedAt saved (set_EndAt (Some now) (set_Redo (t.(Redo) + 1)
    (set_ErrMsg msg (set_TaskStatus TaskStatusTimeout t)))).

Definition id_in (ids : list Z) (t : TaskEntity) : bool := existsb (Z.eqb t.(ID)) ids.

Definition timeout_update (msg : string) (ids : list Z) (now saved : Z) :
    list TaskEntity -> list TaskEntity :=
  update_where (fun t => id_in ids t && IsRunning t && alive t) (to_timeout msg now saved).

Definition heartbeat_lost_msg : string := "task execution timeout (worker heartbeat lost)".

Definition CheckAndTimeoutTasks (onTimeoutCallback : TaskEntity -> M (TaskSys R) unit) :
    M (TaskSys R) unit :=
  let! now := gnow in
  let! tasks := gwrap "failed to query running tasks: "
                  (GetListByCond (cond_status TaskStatusRunning)) in
  let timeoutIDs := map ID (List.filter (timed_out now) tasks) in
  match timeoutIDs with
  | [] => gret tt
  | _ =>
      let! saved := gnow in
      gwrap "failed to update timeout tasks: "
        (db_write (timeout_update heartbeat_lost_msg timeoutIDs now saved)) ;;;
      gfor_log timeoutIDs (fun taskID =>
        let! taskEntity := GetTaskByID taskID in
        onTimeoutCallback taskEntity)
  end.

(** ** Restart and dead workers *)
Definition InitTaskDBStatus : M (TaskSys R) unit :=
  let! saved := gnow in
  gwrap "failed to init task status: "
    (db_write (update_where (fun t => IsRunning t && alive t)
       (fun t => set_UpdatedAt saved (set_Redo (t.(Redo) + 1)
          (set_ErrMsg "task interrupted by restart" (set_TaskStatus TaskStatusFailed t)))))).

Definition HandleDeadWorkerTasks (taskType workerID : string) (taskID : Z) :
    M (TaskSys R) (list string) :=
  let! now := gnow in
  let! runningTasks := gwrap ("failed to get running tasks for worker " ++ workerID ++ ": ")
    (db_read (fun l => sql_any (List.filter (fun t =>
       str_eqb t.(WorkerID) workerID && IsRunning t && alive t) l))) in
  match runningTasks with
  | [] => gret []
  | _ =>
      let taskIDs := map ID runningTasks in
      let! saved := gnow in
      gwrap ("failed to update tasks for dead worker " ++ workerID ++ ": ")
        (db_write (timeout_update "worker dead, task re-assigned" taskIDs now saved)) ;;;
      gret (map_range (remove_dups (map TaskType (List.filter CanRetry runningTasks))))
  end.

(** ** Workflow steps *)
(** The first step with a task that has not succeeded decides. *)
Fixpoint first_open_step (steps : list Z) (all : list TaskEntity) : list TaskEntity :=
  match steps with
  | [] => []
  | step :: steps' =>
      let tasks := List.filter (fun t => t.(Step) =? step) all in
      if forallb IsSuccess tasks then first_open_step steps' all
      else List.filter (fun t => IsPending t || str_eqb t.(TaskStatus) TaskStatusFailed
                                 || IsRunning t) tasks
  end.

Definition GetNextStepTasks (subjectID : Z) (appGroup : string) :
    M (TaskSys R) (list TaskEntity) :=
  let! allTasks := gwrap "failed to get tasks: "
    (db_read (fun l => sql_by_step (List.filter (fun t =>
       (t.(SubjectID) =? subjectID) && str_eqb t.(AppGroup) appGroup && alive t) l))) in
  gret (first_open_step (merge_sort Z.le (remove_dups (map Step allTasks))) allTasks).

End Repository.

(** * Facts about the table *)
Definition ids_ok (l : list TaskEntity) : Prop :=
  NoDup (map ID l) /\ Forall (fun t => 0 < t.(ID)) l.

Lemma find_one_cases l : (l = [] /\ find_one l = zeroTask) \/ In (find_one l) l.
Proof. destruct l; simpl; auto. Qed.

Lemma ids_ok_inj l a b : ids_ok l -> In a l -> In b l -> a.(ID) = b.(ID) -> a = b.
Proof.
  intros [Hnd _]. induction l as [|x l IH]; [done|]. simpl in *.
  apply NoDup_cons in Hnd as [Hni Hnd].
  intros [->|Ha] [->|Hb] Heq; [done| | |by apply IH].
  - exfalso. apply Hni, list_elem_of_In. rewrite Heq. by apply in_map.
  - exfalso. apply Hni, list_elem_of_In. rewrite <- Heq. by apply in_map.
Qed.

Lemma ids_ok_pos l t : ids_ok l -> In t l -> 0 < t.(ID).
Proof. intros [_ Hp] Hin. rewrite Forall_forall in Hp. by apply Hp, list_elem_of_In. Qed.

Lemma update_where_ids p f l :
  (forall t, ID (f t) = ID t) -> map ID (update_where p f l) = map ID l.
Proof.
  intros Hf. unfold update_where. rewrite map_map. apply map_ext. intros t.
  destruct (p t); [apply Hf|done].
Qed.

Lemma ids_ok_map_ID l l' : map ID l' = map ID l -> ids_ok l -> ids_ok l'.
Proof.
  intros Heq [Hnd Hp]. split; [by rewrite Heq|].
  apply (Forall_map ID (fun z => 0 < z)). rewrite Heq. by apply Forall_map.
Qed.

Lemma update_where_none p f l : (forall t, In t l -> p t = false) -> update_where p f l = l.
Proof.
  intros Hp. unfold update_where. rewrite <- (map_id l) at 2. apply map_ext_in.
  intros t Hin. by rewrite Hp.
Qed.

Lemma update_where_ext p q f g l :
  (forall t, In t l -> p t = q t) -> (forall t, In t l -> p t = true -> f t = g t) ->
  update_where p f l = update_where q g l.
Proof.
  intros Hpq Hfg. apply map_ext_in. intros t Hin. rewrite <- (Hpq t Hin).
  destruct (p t) eqn:E; [by apply Hfg|done].
Qed.

Lemma In_update_where p f l t' :
  In t' (update_where p f l) <-> exists t, In t l /\ t' = if p t then f t else t.
Proof. unfold update_where. rewrite in_map_iff.
  split; intros (t & ? & ?); by exists t. Qed.

(** Saving a row that is in the table and not deleted replaces exactly it. *)
Lemma save_row_live now e l t :
  ids_ok l -> In t l -> alive t = true -> ID e = ID t ->
  save_row now e l = update_where (fun x => ID x =? ID t) (fun _ => set_UpdatedAt now e) l.
Proof.
  intros Hok Hin Hal Hid. unfold save_row. rewrite Hid.
  assert (existsb (fun x => (ID x =? ID t) && alive x) l = true) as ->.
  { apply existsb_exists. exists t. split; [done|]. by rewrite Z.eqb_refl, Hal. }
  apply update_where_ext; [|done]. intros x Hx.
  destruct (Z.eqb_spec (ID x) (ID t)) as [Heq|]; [|done].
  by rewrite (ids_ok_inj l x t Hok Hx Hin Heq), Hal.
Qed.

Lemma existsb_false_In {A} (f : A -> bool) l x : existsb f l = false -> In x l -> f x = false.
Proof.
  intros He Hin. destruct (f x) eqn:E; [|done]. rewrite <- He. symmetry.
  apply existsb_exists. by exists x.
Qed.

Lemma filter_nil_iff {A} (f : A -> bool) l :
  (forall x, In x l -> f x = false) -> List.filter f l = [].
Proof.
  induction l as [|x l IH]; intros Hf; [done|]. simpl. rewrite Hf by by left.
  apply IH. intros y Hy. apply Hf. by right.
Qed.

Lemma forallb_false_exists {A} (f : A -> bool) l :
  forallb f l = false -> exists x, In x l /\ f x = false.
Proof.
  induction l as [|x l IH]; [done|]. simpl. destruct (f x) eqn:E; simpl.
  - intros Hl. destruct (IH Hl) as (y & Hy & Hf). eauto.
  - eauto.
Qed.

(** Replacing the row with an id by one with the same id keeps the ids. *)
Lemma replace_ids i e l :
  ID e = i -> map ID (update_where (fun x => ID x =? i) (fun _ => e) l) = map ID l.
Proof.
  intros <-. unfold update_where. rewrite map_map. apply map_ext. intros t.
  by destruct (Z.eqb_spec (ID t) (ID e)).
Qed.

Lemma filter_In_l {A} (f : A -> bool) l x : In x (List.filter f l) -> In x l /\ f x = true.
Proof. apply filter_In. Qed.

Section RepositoryFacts.
Context `{Env} `{SqlEnv} `{!SqlEnvOk _} {R : Type} `{RedisStreams R}.

Lemma sql_any_In l t : In t (sql_any l) <-> In t l.
Proof. split; apply Permutation_in; [|symmetry]; apply sql_any_perm. Qed.
Lemma sql_by_priority_In l t : In t (sql_by_priority l) <-> In t l.
Proof. split; apply Permutation_in; [|symmetry]; apply sql_by_priority_perm. Qed.
Lemma sql_by_step_In l t : In t (sql_by_step l) <-> In t l.
Proof. split; apply Permutation_in; [|symmetry]; apply sql_by_step_perm. Qed.
Lemma map_range_In l t : In t (map_range l) <-> In t l.
Proof. split; apply Permutation_in; [|symmetry]; apply map_range_perm. Qed.

Lemma transaction_inv {A} (body : M (TaskSys R) A) w r w' :
  transaction body w = (r, w') ->
  match r with
  | Err _ => table (st w') = table (st w)
  | Ok a => exists w1 w2, calls w1 = S (calls w) /\ st w1 = st w /\
                          body w1 = (Ok a, w2) /\ st w' = st w2
  end.
Proof.
  unfold transaction. intros Ht.
  destruct ((gext _ ;;; _) w) as [r0 w0] eqn:E. destruct r0 as [a|e]; simplify_eq; [|done].
  go_inv. eauto 10.
Qed.

(** The row a claim picks: the first of the eligible, unlocked rows. *)
Definition claim_rows (n : nat) (taskType : string) (l : list TaskEntity) : list TaskEntity :=
  List.filter (fun t => pending_where taskType l t && negb (row_locked n t.(ID))) l.
Definition claim_choice (n : nat) (taskType : string) (l : list TaskEntity) : TaskEntity :=
  find_one (sql_by_priority (claim_rows n taskType l)).

Lemma claim_choice_spec n taskType l t :
  claim_choice n taskType l = t -> ids_ok l ->
  (t = zeroTask /\ claim_rows n taskType l = []) \/
  (In t (claim_rows n taskType l) /\ forall t', In t' (claim_rows n taskType l) -> prio_le t t').
Proof.
  intros <- Hok. unfold claim_choice.
  destruct (sql_by_priority (claim_rows n taskType l)) as [|x xs] eqn:E; simpl.
  - left. split; [done|]. apply Permutation_nil. rewrite <- E. apply sql_by_priority_perm.
  - right. pose proof (sql_by_priority_sorted (claim_rows n taskType l)) as Hs.
    rewrite E in Hs. inversion Hs as [|? ? _ Hx]; subst. split.
    + apply sql_by_priority_In. rewrite E. by left.
    + intros t' Hin%sql_by_priority_In. rewrite E in Hin. destruct Hin as [<-|Hin].
      * unfold prio_le. lia.
      * rewrite Forall_forall in Hx. by apply Hx, list_elem_of_In.
Qed.

(** The row [r] a claim at times [now], [saved] writes for [t0]. *)
Definition claimed (now saved : Z) (workerID : string) (t0 : TaskEntity) : TaskEntity :=
  set_UpdatedAt saved (MarkAsRunning now workerID t0).

Lemma GetOnePendingTask_inv taskType workerID (w : World (TaskSys R)) r w' :
  ids_ok (table (st w)) ->
  GetOnePendingTask taskType workerID w = (r, w') ->
  match r with
  | Err _ => table (st w') = table (st w)
  | Ok t =>
      let n := S (calls w) in
      let t0 := claim_choice n taskType (table (st w)) in
      (t = t0 /\ ID t = 0 /\ st w' = st w) \/
      (exists now saved, In t0 (claim_rows n taskType (table (st w))) /\
         t = claimed now saved workerID t0 /\
         st w' = with_table (update_where (fun x => ID x =? ID t0) (fun _ => t)
                              (table (st w))) (st w))
  end.
Proof.
  intros Hok Hg. unfold GetOnePendingTask in Hg. pose proof (transaction_inv _ _ _ _ Hg) as Ht.
  destruct r as [t|e]; [|done]. destruct Ht as (w1 & w2 & Hc1 & Hs1 & Hb & Hs').
  go_inv1; [simplify_eq|]. go_inv1; simplify_eq.
  match goal with Hx : select_pending _ _ = _ |- _ =>
    unfold select_pending, db_read in Hx; rewrite Hc1 in Hx end.
  go_inv. rewrite Hs1 in *. simpl in *.
  change (find_one _) with (claim_choice (S (calls w)) taskType (table (st w))) in *.
  destruct (claim_choice_spec (S (calls w)) taskType _ _ eq_refl Hok) as [[Hz He]|[Hin Hmin]].
  - rewrite Hz in *. simpl in *. go_inv. left. rewrite Hs'. by repeat split; try congruence.
  - pose proof Hin as [Hinl Hw]%filter_In_l.
    pose proof (ids_ok_pos _ _ Hok Hinl) as Hpos.
    destruct (Z.eqb_spec (ID (claim_choice (S (calls w)) taskType (table (st w)))) 0); [lia|].
    unfold db_write in *. go_inv. right. do 2 eexists. split; [done|]. split; [reflexivity|].
    apply andb_true_iff in Hw as [Hw _]. unfold pending_where in Hw.
    apply andb_true_iff in Hw as [_ Hal].
    rewrite Hs'. simplify_eq. repeat match goal with Hx : st _ = st _ |- _ => rewrite Hx in *; clear Hx end.
    match goal with Hx : st _ = with_table _ _ |- _ => rewrite Hx end.
    f_equal. by erewrite save_row_live.
Qed.

Lemma GetOnePendingTask_ok taskType workerID (w : World (TaskSys R)) :
  no_fault_from (calls w) -> exists t, fst (GetOnePendingTask taskType workerID w) = Ok t.
Proof.
  intros Hnf.
  unfold GetOnePendingTask, transaction, select_pending, db_read, db_write, gbind, gwrap, gret, gnow, gext.
  simpl. repeat (nofault; simpl). destruct (ID (find_one _) =? 0); simpl; repeat (nofault; simpl); eauto.
Qed.

Lemma claim_rows_In n taskType l t :
  In t (claim_rows n taskType l) <->
  In t l /\ pending_where taskType l t = true /\ row_locked n t.(ID) = false.
Proof.
  unfold claim_rows. rewrite filter_In, andb_true_iff, negb_true_iff. tauto.
Qed.

(** C3: when [GetOnePendingTask] returns a task, it is one that was eligible
    (its type, a retryable status, redos left, no unfinished earlier step of its
    workflow, not deleted, not locked by another transaction), of the highest
    priority and then the oldest update among the eligible ones; it is now
    running on this worker, and no other row changed. *)
Theorem GetOnePendingTask_claims_best taskType workerID (w : World (TaskSys R)) t w' :
  ids_ok (table (st w)) ->
  GetOnePendingTask taskType workerID w = (Ok t, w') -> ID t <> 0 ->
  exists t0, In t0 (table (st w)) /\ ID t = ID t0 /\
    pending_where taskType (table (st w)) t0 = true /\ row_locked (S (calls w)) (ID t0) = false /\
    (forall t1, In t1 (table (st w)) -> pending_where taskType (table (st w)) t1 = true ->
       row_locked (S (calls w)) (ID t1) = false -> prio_le t0 t1) /\
    TaskStatus t = TaskStatusRunning /\ WorkerID t = workerID /\
    TaskType t = taskType /\ Redo t = Redo t0 /\ is_Some (StartAt t) /\
    table (st w') = update_where (fun x => ID x =? ID t0) (fun _ => t) (table (st w)).
Proof.
  intros Hok Hg Hid.
  destruct (GetOnePendingTask_inv _ _ _ _ _ Hok Hg) as [(_ & Hz & _)|(now & saved & Hin & -> & Hst)];
    [done|].
  destruct (claim_choice_spec (S (calls w)) taskType _ _ eq_refl Hok) as [[Hz He]|[_ Hmin]];
    [by rewrite He in Hin|].
  pose proof Hin as (Hl & Hw & Hlk)%claim_rows_In.
  exists (claim_choice (S (calls w)) taskType (table (st w))).
  repeat split; try done; simpl; try eauto.
  - intros t1 Ha Hb Hc. apply Hmin, claim_rows_In. auto.
  - unfold pending_where in Hw. rewrite !andb_true_iff in Hw. by apply str_eqb_eq, Hw.
  - by rewrite Hst.
Qed.

(** C17: a claim does not miss work: without failures [GetOnePendingTask]
    returns a task whenever an eligible unlocked one exists, and otherwise the
    zero task and an unchanged table. *)
Theorem GetOnePendingTask_progress taskType workerID (w : World (TaskSys R)) :
  ids_ok (table (st w)) -> no_fault_from (calls w) ->
  exists t w', GetOnePendingTask taskType workerID w = (Ok t, w') /\
  if existsb (fun t1 => pending_where taskType (table (st w)) t1
                        && negb (row_locked (S (calls w)) (ID t1))) (table (st w))
  then ID t <> 0 else t = zeroTask /\ st w' = st w.
Proof.
  intros Hok Hnf. destruct (GetOnePendingTask_ok taskType workerID w Hnf) as [t Ht].
  destruct (GetOnePendingTask taskType workerID w) as [r w'] eqn:Hg; simpl in Ht; subst r.
  exists t, w'. split; [done|].
  pose proof (GetOnePendingTask_inv _ _ _ _ _ Hok Hg) as Hi. simpl in Hi.
  destruct (claim_choice_spec (S (calls w)) taskType _ _ eq_refl Hok) as [[Hz He]|[Hin Hmin]].
  - rewrite He in Hi. destruct Hi as [(-> & _ & Hst)|(? & ? & [] & _)].
    destruct (existsb _ _) eqn:E; [|by rewrite Hz]. exfalso.
    apply existsb_exists in E as (x & Hx & Hxw). assert (In x []) as [].
    rewrite <- He. by apply filter_In.
  - pose proof Hin as (Hl & Hw & Hlk)%claim_rows_In. pose proof (ids_ok_pos _ _ Hok Hl) as Hpos.
    destruct (existsb _ _) eqn:E.
    + destruct Hi as [(-> & Hz & _)|(now & saved & _ & -> & _)]; simpl; lia.
    + exfalso. eapply existsb_false_In in E; [|exact Hl]. by rewrite Hw, Hlk in E.
Qed.

(** Two claims in a row never hand out the same task, whatever the types
    and workers asking: a claimed task is not eligible. *)
Theorem claims_exclusive tt1 w1 tt2 w2 (w : World (TaskSys R)) t1 t2 w' w'' :
  ids_ok (table (st w)) ->
  GetOnePendingTask tt1 w1 w = (Ok t1, w') -> GetOnePendingTask tt2 w2 w' = (Ok t2, w'') ->
  ID t2 <> 0 -> ID t1 <> ID t2.
Proof.
  intros Hok H1' H2 Hid2 Heq.
  destruct (GetOnePendingTask_inv _ _ _ _ _ Hok H1') as [(_ & Hz & _)|(now & saved & Hin & -> & Hst)];
    [congruence|].
  assert (Hok' : ids_ok (table (st w'))).
  { rewrite Hst. simpl. apply (ids_ok_map_ID (table (st w))); [|done].
    by apply replace_ids. }
  destruct (GetOnePendingTask_inv _ _ _ _ _ Hok' H2) as [(_ & Hz & _)|(n2 & s2 & Hin2 & -> & _)];
    [done|].
  pose proof Hin as (Hl & _ & _)%claim_rows_In.
  apply claim_rows_In in Hin2 as (Hl2 & Hw2 & _).
  set (t0 := claim_choice (S (calls w)) tt1 (table (st w))) in *.
  assert (Hrow : claim_choice (S (calls w')) tt2 (table (st w')) = claimed now saved w1 t0).
  { apply (ids_ok_inj (table (st w'))); [done|done| |simpl in *; congruence].
    rewrite Hst. simpl. apply In_update_where. exists t0. by rewrite Z.eqb_refl. }
  rewrite Hrow in Hw2. unfold pending_where in Hw2. rewrite !andb_true_iff in Hw2.
  destruct Hw2 as [[[[_ Hs] _] _] _]. by vm_compute in Hs.
Qed.

(** ** Dead workers *)
Lemma HandleDeadWorkerTasks_inv taskType workerID taskID (w : World (TaskSys R)) r w' :
  HandleDeadWorkerTasks taskType workerID taskID w = (r, w') ->
  redis (st w') = redis (st w) /\ auto_id (st w') = auto_id (st w) /\
  (table (st w') = table (st w) \/
   exists ids now saved, table (st w') =
     timeout_update "worker dead, task re-assigned" ids now saved (table (st w))) /\
  (forall types, r = Ok types -> types = []).
Proof.
  unfold HandleDeadWorkerTasks, db_read, db_write. intros Hd. go_inv; try (split_and!; naive_solver congruence).
  all: match goal with Hx : match ?rows with [] => _ | _ :: _ => _ end _ = _ |- _ =>
         destruct rows as [|t0 ts] eqn:Er end; go_inv; simpl in *.
  all: repeat match goal with Hx : st _ = st _ |- _ => rewrite Hx in *; clear Hx end.
  all: try (split_and!; naive_solver congruence).
  match goal with Hx : st _ = with_table _ _ |- _ => rewrite Hx end. simpl.
  split_and!; [done|done|by eauto|]. intros types [= <-].
  assert (Hnone : List.filter CanRetry (t0 :: ts) = []).
  { rewrite <- Er. apply filter_nil_iff. intros t Hin.
    apply (proj1 (sql_any_In _ _)), filter_In_l in Hin as [_ Hw]. rewrite !andb_true_iff in Hw. destruct Hw as [[_ Hrun] _].
    unfold IsRunning in Hrun. apply str_eqb_eq in Hrun.
    unfold CanRetry. rewrite Hrun. apply andb_false_r. }
  simpl in Hnone. rewrite Hnone. simpl. apply Permutation_nil. symmetry. apply (map_range_perm []).
Qed.

(** ** The next step of a workflow *)
Definition workflow (subjectID : Z) (appGroup : string) (l : list TaskEntity) : list TaskEntity :=
  List.filter (fun t => (t.(SubjectID) =? subjectID) && str_eqb t.(AppGroup) appGroup && alive t) l.

(** The statuses [GetNextStepTasks] reports. *)
Definition open_status (t : TaskEntity) : bool :=
  IsPending t || str_eqb t.(TaskStatus) TaskStatusFailed || IsRunning t.

Lemma first_open_step_spec steps all :
  StronglySorted Z.le steps -> (forall t, In t all -> In (Step t) steps \/ IsSuccess t = true) ->
  let res := first_open_step steps all in
  (res = [] /\ forall t, In t all -> IsSuccess t = true) \/
  (exists s, (forall t, In t all -> Step t < s -> IsSuccess t = true) /\
     (exists t, In t all /\ Step t = s /\ IsSuccess t = false) /\
     forall t, In t res <-> In t all /\ Step t = s /\ open_status t = true).
Proof.
  intros Hs. induction Hs as [|s steps Hs IH Hle]; intros Hcov; simpl.
  - left. split; [done|]. intros t Hin. destruct (Hcov t Hin) as [[]|]; done.
  - destruct (forallb IsSuccess _) eqn:E.
    + rewrite forallb_forall in E. apply IH. intros t Hin.
      destruct (Hcov t Hin) as [[->|]|]; auto. right. apply E, filter_In.
      by rewrite Z.eqb_refl.
    + right. exists s. split_and!.
      * intros t Hin Hlt. destruct (Hcov t Hin) as [[Heq|Hin']|]; [lia| |done].
        rewrite Forall_forall in Hle. apply list_elem_of_In, Hle in Hin'. lia.
      * apply forallb_false_exists in E as (t & Hin & Hf). apply filter_In in Hin as [Hin Hst].
        exists t. split_and!; [done|lia|done].
      * intros t. rewrite !filter_In. unfold open_status. rewrite Z.eqb_eq. tauto.
Qed.

Lemma GetNextStepTasks_full subjectID appGroup (w : World (TaskSys R)) :
  no_fault_from (calls w) ->
  let g := workflow subjectID appGroup (table (st w)) in
  exists res, fst (GetNextStepTasks subjectID appGroup w) = Ok res /\
  st (snd (GetNextStepTasks subjectID appGroup w)) = st w /\
  ((res = [] /\ forall t, In t g -> IsSuccess t = true) \/
   (exists s, (forall t, In t g -> Step t < s -> IsSuccess t = true) /\
      (exists t, In t g /\ Step t = s /\ IsSuccess t = false) /\
      forall t, In t res <-> In t g /\ Step t = s /\ open_status t = true)).
Proof.
  intros Hnf g. eexists. split; [|split].
  1,2: unfold GetNextStepTasks, db_read, gbind, gwrap, gext; simpl; nofault; reflexivity.
  fold (workflow subjectID appGroup (table (st w))). fold g.
  destruct (first_open_step_spec (merge_sort Z.le (remove_dups (map Step (sql_by_step g)))) (sql_by_step g))
    as [[Hr Ha]|(s & H1' & (t0 & Ht0 & Hs0 & Hf0) & H3)].
  - apply (StronglySorted_merge_sort Z.le).
  - intros t Hin. left. apply list_elem_of_In. rewrite (merge_sort_Permutation Z.le).
    apply elem_of_remove_dups, list_elem_of_In. by apply in_map.
  - left. split; [done|]. intros t Hin. by apply Ha, sql_by_step_In.
  - right. exists s. split_and!.
    + intros t Hin. by apply H1', sql_by_step_In.
    + exists t0. split_and!; [by apply sql_by_step_In|done|done].
    + intros t. rewrite H3, sql_by_step_In. done.
Qed.

(** [GetNextStepTasks] finds the least step of the workflow that has a task
    which has not succeeded, and returns exactly the pending, failed and running
    tasks of that step (none when everything succeeded); the table is unchanged. *)
Theorem GetNextStepTasks_spec subjectID appGroup (w : World (TaskSys R)) :
  no_fault_from (calls w) ->
  let g := workflow subjectID appGroup (table (st w)) in
  exists res, fst (GetNextStepTasks subjectID appGroup w) = Ok res /\
  st (snd (GetNextStepTasks subjectID appGroup w)) = st w /\
  ((res = [] /\ forall t, In t g -> IsSuccess t = true) \/
   (exists s, (forall t, In t g -> Step t < s -> IsSuccess t = true) /\
      (exists t, In t g /\ Step t = s /\ IsSuccess t = false) /\
      forall t, In t res <-> In t g /\ Step t = s /\ open_status t = true)).
Proof. apply GetNextStepTasks_full. Qed.

(** A canceled task stalls its workflow: when the least step that has not
    succeeded everywhere holds only succeeded and canceled tasks,
    [GetNextStepTasks] returns nothing, so no later step is triggered, although
    the claim query lets the later steps run. *)
Theorem canceled_step_stalls subjectID appGroup (w : World (TaskSys R)) s :
  no_fault_from (calls w) ->
  let g := workflow subjectID appGroup (table (st w)) in
  (forall t, In t g -> Step t < s -> IsSuccess t = true) ->
  (forall t, In t g -> Step t = s -> status_in done_statuses t = true) ->
  (exists t, In t g /\ Step t = s /\ TaskStatus t = TaskStatusCanceled) ->
  fst (GetNextStepTasks subjectID appGroup w) = Ok [].
Proof.
  intros Hnf g Hlt Heq (tc & Htc & Hsc & Hcc).
  destruct (GetNextStepTasks_full subjectID appGroup w Hnf) as (res & Hr & _ & Hres).
  rewrite Hr. f_equal. destruct Hres as [[-> _]|(s' & Ha & (t1 & Ht1 & Hs1 & Hf1) & Hres)]; [done|].
  assert (s' = s) as ->.
  { destruct (Z.lt_trichotomy s' s) as [Hl|[?|Hl]]; [|done|].
    - rewrite (Hlt t1 Ht1) in Hf1; [done|lia].
    - specialize (Ha tc Htc). unfold IsSuccess in Ha. rewrite Hcc in Ha.
      assert (false = true) by (apply Ha; lia). done. }
  destruct res as [|x res]; [done|]. exfalso.
  destruct (proj1 (Hres x) (or_introl eq_refl)) as (Hg & Hst & Hop).
  specialize (Heq x Hg Hst). apply status_in_spec in Heq as [Hx|[Hx|[]]];
    unfold open_status, IsPending, IsRunning in Hop; rewrite <- Hx in Hop; by vm_compute in Hop.
Qed.
End RepositoryFacts.
