(* ===== verification/TaskManager.v ===== *)
(** [src/task/manager/manager.go]: task creation, claiming, the saving of
    results with the transitions that follow (retry, next step, next task),
    timeout and dead-worker handling, the periodic queue sync, and the
    start/stop state of the background routines. *)
From S2P Require Import Prelude TaskModel TaskStore TaskDao TaskQueue TaskRepository.

Definition DeadlineExceeded : error := ErrVar "context deadline exceeded".
Definition Canceled : error := ErrVar "context canceled".

(** [toJSON] of a string result. *)
Definition toJSON (result : string) : string := json_string result.

(** * Background routines of a service *)
(** [routines] counts the goroutines under the wait group, [ctx_live] says that
    the current context is not canceled. *)
Record Service : Type := mkService { started : bool; ctx_live : bool; routines : nat }.
Definition newService : Service := mkService false false 0.

(** [Start]: refused when started; otherwise a fresh context and [n] routines. *)
Definition service_start (msg : error) (n : nat) (s : Service) : Res unit * Service :=
  if s.(started) then (Err msg, s)
  else (Ok tt, mkService true true (s.(routines) + n)).

(** [Stop]: refused when not started; cancels the context and waits until the
    routines are done or 30 s have passed ([done = false]: [left] of them go on). *)
Definition service_stop (msg : error) (done : bool) (left : nat) (s : Service) : Res unit * Service :=
  if negb s.(started) then (Err msg, s)
  else (Ok tt, mkService false false (if done then 0%nat else Nat.min left s.(routines))).

(** * Construction *)
Record Manager : Type := mkManager { config : ManagerConfig; queue : QueueConfig; svc : Service }.

(** [inl] is the panic of [NewQueue]; [redis] says the client is not nil. *)
Definition NewManager (cfg : option ManagerConfig) (redis : bool) : string + Res Manager :=
  let cfg := match cfg with None => DefaultManagerConfig | Some c => c end in
  match ManagerConfig_Validate cfg with
  | Err e => inr (Err (ErrWrap "invalid manager config: " e))
  | Ok c =>
      match NewQueue (Some (mkQueueConfig c.(m_KeyPrefix) c.(m_QueueBlockTime) 0 redis)) with
      | inl p => inl p
      | inr q => inr (Ok (mkManager c q newService))
      end
  end.

(** [Start] launches the queue-syncer and the timeout-checker. *)
Definition Manager_Start (m : Manager) : Res unit * Manager :=
  let '(r, s) := service_start (ErrNew "queue syncer already started") 2 m.(svc) in
  (r, mkManager m.(config) m.(queue) s).
Definition Manager_Stop (done : bool) (left : nat) (m : Manager) : Res unit * Manager :=
  let '(r, s) := service_stop (ErrNew "queue syncer not started") done left m.(svc) in
  (r, mkManager m.(config) m.(queue) s).

(** * The object of a package, made once *)
(** [sync.Once] with the variable that it fills: a call counts even when it
    fails or panics. *)
Record Once (A : Type) : Type := mkOnce { called : bool; made : option A }.
Arguments mkOnce {A} called made.
Arguments called {A} o.
Arguments made {A} o.
Definition once_new {A} (mk : Panics (Res A)) (o : Once A) : Panics (Res unit) * Once A :=
  if o.(called) then (Val (Ok tt), o)
  else match mk with
       | Val (Ok a) => (Val (Ok tt), mkOnce true (Some a))
       | Val (Err e) => (Val (Err e), mkOnce true None)
       | Panic v => (Panic v, mkOnce true None)
       end.
Definition once_get {A} (what : string) (o : Once A) : Panics A := match o.(made) with Some a => Val a | None => Panic what end.
Definition InitManager (cfg : option ManagerConfig) (redis : bool) : Once Manager -> Panics (Res unit) * Once Manager :=
  once_new (match NewManager cfg redis with inl p => Panic p | inr r => Val r end).
Definition GetManager : Once Manager -> Panics Manager := once_get "task manager is nil".
(** After a first call that failed every other one succeeds, and there still is
    no manager. *)
Lemma failed_init_sticks cfg redis o o' e cfg2 redis2 : o.(called) = false -> InitManager cfg redis o = (Val (Err e), o') ->
  InitManager cfg2 redis2 o' = (Val (Ok tt), o') /\ GetManager o' = Panic "task manager is nil".
Proof.
  intros Hc. unfold InitManager, once_new. rewrite Hc. destruct (NewManager cfg redis) as [p|[m|e']]; [done|done|]. intros [= -> <-]. done.
Qed.

Section Manager.
Context `{Env} `{SqlEnv} {R : Type} `{RedisStreams R}.
(** The key prefix of the queue. *)
Variable kp : string.

(** * Creation *)
Definition push_first_step (firstStep : Z) (t : TaskEntity) : M (TaskSys R) unit :=
  if t.(Step) =? firstStep
  then gwrap ("failed to push task " ++ t.(TaskType) ++ " to queue: ") (Push kp t.(TaskType))
  else gret tt.

Definition Manager_CreateTasks (tasks : list TaskEntity) : M (TaskSys R) unit :=
  match tasks with
  | [] => gret tt
  | _ =>
      let tasks := slice_by_step tasks in
      let! created := gwrap "failed to batch create tasks: " (CreateTasks tasks) in
      gfor created (push_first_step (hd zeroTask created).(Step))
  end.

(** * Claiming *)
Definition GetNextTask (taskType workerID : string) : M (TaskSys R) TaskEntity :=
  Pop kp taskType workerID ;;;
  GetOnePendingTask taskType workerID.

(** * Saving: [None] is a value of another dynamic type *)
Definition Manager_SaveTask (task : option TaskEntity) : M (TaskSys R) unit :=
  match task with
  | None => graise (ErrNew "invalid task type: expected *model.TaskEntity")
  | Some taskEntity => SaveTask taskEntity
  end.

Definition GetNextStepPendingTaskTypes (subjectID : Z) (appGroup : string) :
    M (TaskSys R) (list string) :=
  let! nextTasks := GetNextStepTasks subjectID appGroup in
  gret (map_range (remove_dups (map TaskType (List.filter IsPending nextTasks)))).

Definition triggerNextStepTaskInTx (completedTask : TaskEntity) : M (TaskSys R) unit :=
  let! nextTaskTypes := gwrap "failed to get next step task types: "
    (GetNextStepPendingTaskTypes completedTask.(SubjectID) completedTask.(AppGroup)) in
  gfor nextTaskTypes (fun taskType =>
    gwrap "failed to push next step task: " (Push kp taskType)).

Definition triggerNextNormalTaskInTx (taskType : string) : M (TaskSys R) unit :=
  let! count := gwrap "failed to get pending task count: " (GetPendingTaskCount taskType) in
  if 0 <? count then gwrap "failed to push next normal task: " (Push kp taskType) else gret tt.

Definition handleTaskFlowInTx (task : TaskEntity) : M (TaskSys R) unit :=
  if CanRetry task then gwrap "failed to push retry task: " (Push kp task.(TaskType))
  else if IsSuccess task then
    if negb (str_eqb task.(AppGroup) "") then triggerNextStepTaskInTx task
    else triggerNextNormalTaskInTx task.(TaskType)
  else gret tt.

(** [switch execErr]: nil, [context.DeadlineExceeded] itself, anything else. *)
Definition mark_result (now : Z) (result : string) (execErr : option error) (t : TaskEntity) :
    TaskEntity :=
  match execErr with
  | None => MarkAsSuccess now (toJSON result) t
  | Some e => if bool_decide (e = DeadlineExceeded) then MarkAsTimeout now t
              else MarkAsFailed now (Error e) t
  end.

(** The read goes through the repository's own connection, not the
    transaction's. *)
Definition SaveTaskResult (taskID : Z) (result : string) (execErr : option error)
    (onCallback : option (M (TaskSys R) unit)) : M (TaskSys R) unit :=
  transaction (
    let! taskEntity := gwrap "failed to get task: " (GetTaskByID taskID) in
    let! now := gnow in
    let taskEntity := mark_result now result execErr taskEntity in
    let! saved := gnow in
    gwrap "failed to save task: " (db_write (save_row saved taskEntity)) ;;;
    gwrap "failed to handle task flow: " (handleTaskFlowInTx (set_UpdatedAt saved taskEntity))) ;;;
  match onCallback with
  | None => gret tt
  | Some cb => gtry cb ;;; gret tt
  end.

(** * Timeouts, dead workers, queue sync *)
Definition retry_callback (task : TaskEntity) : M (TaskSys R) unit :=
  if CanRetry task then gwrap "failed to push retry task: " (Push kp task.(TaskType))
  else gret tt.

Definition Manager_CheckAndTimeoutTasks : M (TaskSys R) unit := CheckAndTimeoutTasks retry_callback.

(** ** What is handed on to the repository and the queue *)
Definition Manager_GetTask (taskID : Z) : M (TaskSys R) TaskEntity := GetTaskByID taskID.
Definition Manager_CancelTask (taskID : Z) (reason : string) : M (TaskSys R) unit := CancelTask taskID reason.
Definition PushToQueue (taskType : string) : M (TaskSys R) unit := Push kp taskType.
Definition PopFromQueue (taskType workerID : string) : M (TaskSys R) (option Z) := Pop kp taskType workerID.
Definition Manager_GetOnePendingTask (taskType workerID : string) : M (TaskSys R) TaskEntity := GetOnePendingTask taskType workerID.
Definition Manager_GetPendingTaskCount (taskType : string) : M (TaskSys R) Z := GetPendingTaskCount taskType.
Definition Manager_GetNextStepTasks (subjectID : Z) (appGroup : string) : M (TaskSys R) (list TaskEntity) := GetNextStepTasks subjectID appGroup.
Definition Manager_GetTaskByCond (cond : Cond.TaskCond) : M (TaskSys R) TaskEntity := GetByCond cond.
Definition Manager_GetTasksByCond (cond : Cond.TaskCond) : M (TaskSys R) (list TaskEntity) := GetListByCond cond.
Definition Manager_InitTaskDBStatus : M (TaskSys R) unit := InitTaskDBStatus.

Definition ReassignDeadWorkerTasks (taskType workerID : string) (taskID : Z) :
    M (TaskSys R) unit :=
  let! taskTypes := gwrap "failed to handle dead worker tasks: "
                      (HandleDeadWorkerTasks taskType workerID taskID) in
  gfor_log taskTypes (fun tt => Push kp tt).

Definition syncTaskTypeQueue (taskType : string) : M (TaskSys R) unit :=
  let! taskCount := gwrap "failed to get task count: " (GetPendingTaskCount taskType) in
  if 0 <? taskCount then gtry (Push kp taskType) ;;; gret tt else gret tt.

Definition SyncQueueCount (fuel : nat) : M (TaskSys R) unit :=
  let! types := GetAllTaskTypes kp fuel in
  gfor_log types syncTaskTypeQueue.

(** One tick of the two background routines: only the master acts, errors are
    logged. *)
Definition queueSyncTick (isMaster : bool) (fuel : nat) : M (TaskSys R) unit :=
  if isMaster then gtry (SyncQueueCount fuel) ;;; gret tt else gret tt.
Definition timeoutCheckTick (isMaster : bool) : M (TaskSys R) unit :=
  if isMaster then gtry Manager_CheckAndTimeoutTasks ;;; gret tt else gret tt.

End Manager.
