(* ===== verification/TaskSystem.v ===== *)
(** The task manager as a transition system: what each operation does to the
    table, the invariants of every reachable state (claims respect the step
    order of a workflow and the redo budget), and what breaks them. *)
From S2P Require Import Prelude TaskModel TaskStore TaskDao TaskQueue TaskRepository TaskManager.

(** * Table effects of the operations *)
Section Effects.
Context `{Env} `{SqlEnv} `{!SqlEnvOk _} {R : Type} `{RedisStreams R}.
Variable kp : string.

Lemma Push_table taskType (w : World (TaskSys R)) r w' :
  Push kp taskType w = (r, w') ->
  table (st w') = table (st w) /\ auto_id (st w') = auto_id (st w).
Proof.
  unfold Push, rds. intros Hp. go_inv; simpl in *;
    repeat match goal with Hx : st _ = _ |- _ => rewrite Hx in *; clear Hx end;
    try done; by destruct (XAdd _ _ _).
Qed.

Lemma Pop_table taskType worker (w : World (TaskSys R)) r w' :
  Pop kp taskType worker w = (r, w') ->
  table (st w') = table (st w) /\ auto_id (st w') = auto_id (st w).
Proof.
  unfold Pop, rds, rdsr. intros Hp. go_inv; simpl in *;
    repeat match goal with Hx : st _ = _ |- _ => rewrite Hx in *; clear Hx end; try done;
    try destruct (XGroupCreateMkStream _ _ _); simpl; try done; by destruct (XReadGroup _ _ _ _).
Qed.

(** Computations that leave the table and the id counter alone. *)
Definition keeps {A} (m : M (TaskSys R) A) : Prop :=
  forall w r w', m w = (r, w') ->
    table (st w') = table (st w) /\ auto_id (st w') = auto_id (st w).

Lemma keeps_bind {A B} (m : M (TaskSys R) A) (k : A -> M (TaskSys R) B) :
  keeps m -> (forall a, keeps (k a)) -> keeps (gbind m k).
Proof.
  intros Hm Hk w r w' Hb. go_inv1; [by eapply Hm; subst|].
  apply Hm in Hm0 as [<- <-]. by eapply Hk.
Qed.
Lemma keeps_ret {A} (a : A) : keeps (gret a).
Proof. intros w r w' Hr. by go_inv. Qed.
Lemma keeps_raise {A} e : keeps (@graise (TaskSys R) A e).
Proof. intros w r w' Hr. by go_inv. Qed.
Lemma keeps_wrap {A} p (m : M (TaskSys R) A) : keeps m -> keeps (gwrap p m).
Proof. intros Hm w r w' Hr. go_inv1; by eapply Hm. Qed.
Lemma keeps_try {A} (m : M (TaskSys R) A) : keeps m -> keeps (gtry m).
Proof. intros Hm w r w' Hr. go_inv1. by eapply Hm. Qed.
Lemma keeps_for {A} (l : list A) f : (forall a, keeps (f a)) -> keeps (gfor l f).
Proof. intros Hf. induction l; simpl; [apply keeps_ret|]. by apply keeps_bind. Qed.
Lemma keeps_for_log {A} (l : list A) f : (forall a, keeps (f a)) -> keeps (gfor_log l f).
Proof.
  intros Hf. induction l; simpl; [apply keeps_ret|]. apply keeps_bind; [|done].
  by apply keeps_try.
Qed.
Lemma keeps_read {A} (f : list TaskEntity -> A) : keeps (db_read f).
Proof.
  intros w r w' Hr. unfold db_read in Hr. go_inv; simpl in *;
    repeat match goal with Hx : st _ = _ |- _ => rewrite Hx in *; clear Hx end; done.
Qed.
Lemma keeps_now : keeps gnow.
Proof. intros w r w' Hr. go_inv. split; congruence. Qed.
Lemma keeps_push taskType : keeps (Push kp taskType).
Proof. intros w r w'. apply Push_table. Qed.
Lemma keeps_fmt {A} p (m : M (TaskSys R) A) : keeps m -> keeps (gfmt p m).
Proof.
  intros Hm w r w' Hr. unfold gfmt in Hr. destruct (m w) as [[a|e] w1] eqn:E; simplify_eq;
    by eapply Hm.
Qed.
Lemma keeps_if {A} (b : bool) (m1 m2 : M (TaskSys R) A) : keeps m1 -> keeps m2 -> keeps (if b then m1 else m2).
Proof. by destruct b. Qed.
End Effects.

Create HintDb keeps.
#[export] Hint Resolve keeps_bind keeps_ret keeps_raise keeps_wrap keeps_try keeps_for
  keeps_for_log keeps_read keeps_now keeps_push keeps_fmt keeps_if : keeps.
Ltac keeps_tac :=
  repeat first [ progress intros | solve [auto 2 with keeps] | apply keeps_if
               | apply keeps_bind | apply keeps_wrap | apply keeps_fmt | apply keeps_try
               | apply keeps_for | apply keeps_for_log ].

(** * The effects that are safe in every state: claims, cancellations,
    deletions, timeouts and the restart recovery *)
Inductive tstep (l l' : list TaskEntity) : Prop :=
| ts_same : l' = l -> tstep l l'
| ts_claim taskType t0 now saved workerID :
    In t0 l -> pending_where taskType l t0 = true ->
    l' = update_where (fun x => ID x =? ID t0) (fun _ => claimed now saved workerID t0) l ->
    tstep l l'
| ts_cancel t0 now saved reason :
    In t0 l -> alive t0 = true ->
    IsPending t0 || str_eqb (TaskStatus t0) TaskStatusFailed = true ->
    l' = update_where (fun x => ID x =? ID t0)
           (fun _ => updates_struct saved (MarkAsCanceled now reason t0) t0) l ->
    tstep l l'
| ts_delete id now :
    l' = update_where (fun x => ID x =? id) (set_DeletedAt (Some now)) l -> tstep l l'
| ts_timeout msg ids now saved : l' = timeout_update msg ids now saved l -> tstep l l'
| ts_restart saved :
    l' = update_where (fun t => IsRunning t && alive t)
           (fun t => set_UpdatedAt saved (set_Redo (Redo t + 1)
              (set_ErrMsg "task interrupted by restart" (set_TaskStatus TaskStatusFailed t)))) l ->
    tstep l l'.

Section OpEffects.
Context `{Env} `{SqlEnv} `{!SqlEnvOk _} {R : Type} `{RedisStreams R}.
Variable kp : string.

Lemma handleTaskFlowInTx_keeps task : keeps (R := R) (handleTaskFlowInTx kp task).
Proof.
  unfold handleTaskFlowInTx, triggerNextStepTaskInTx, triggerNextNormalTaskInTx,
    GetNextStepPendingTaskTypes, GetNextStepTasks, GetPendingTaskCount.
  keeps_tac.
Qed.

Lemma GetByID_row id (l : list TaskEntity) t :
  find_one (sql_any (List.filter (fun t => (ID t =? id) && alive t) l)) = t ->
  t = zeroTask \/ (In t l /\ ID t = id /\ alive t = true).
Proof.
  intros <-. destruct (find_one_cases (sql_any (List.filter (fun t => (ID t =? id) && alive t) l)))
    as [[_ ->]|Hin]; [by left|right].
  apply (proj1 (sql_any_In _ _)), filter_In in Hin as [Hin Hw].
  rewrite andb_true_iff, Z.eqb_eq in Hw. tauto.
Qed.

Lemma GetTaskByID_inv id (w : World (TaskSys R)) r w' :
  GetTaskByID id w = (r, w') ->
  st w' = st w /\ forall t, r = Ok t -> In t (table (st w)) /\ ID t = id /\ alive t = true.
Proof.
  unfold GetTaskByID, GetByID, db_read. intros Hg. go_inv1.
  - unfold gfmt in *. go_inv1; simplify_eq.
    destruct (gext _ w) as [[a|e1] w1] eqn:E; simplify_eq. go_inv. naive_solver.
  - go_inv1; simplify_eq. unfold gfmt in *.
    destruct (gext _ w) as [[a1|e1] w2] eqn:E; simplify_eq. go_inv. simpl in *.
    destruct (GetByID_row id (table (st w)) _ eq_refl) as [Hz|(Hin & Hid & Hal)].
    + rewrite Hz in *. simpl in *. go_inv. split; [congruence|naive_solver].
    + destruct (ID _ =? 0); go_inv; (split; [congruence|]); naive_solver.
Qed.

Lemma SaveTaskResult_effect taskID result execErr cb (w : World (TaskSys R)) r w' :
  ids_ok (table (st w)) -> (forall c, cb = Some c -> keeps c) ->
  SaveTaskResult kp taskID result execErr cb w = (r, w') ->
  match r with
  | Err _ => table (st w') = table (st w)
  | Ok _ => exists t0 now saved, In t0 (table (st w)) /\ ID t0 = taskID /\ alive t0 = true /\
      table (st w') = update_where (fun x => ID x =? taskID)
        (fun _ => set_UpdatedAt saved (mark_result now result execErr t0)) (table (st w))
  end.
Proof.
  intros Hok Hcb Hs. unfold SaveTaskResult in Hs. go_inv1.
  { subst. by apply transaction_inv in Hm. }
  apply transaction_inv in Hm as (w1 & w2 & _ & Hs1 & Hb & Hs2).
  assert (table (st w') = table (st w0) /\ r = Ok tt) as [Ht ->].
  { clear Hb. destruct cb as [c|]; go_inv; [|done]. split; [|done].
    match goal with Hx : c _ = _ |- _ => by apply (Hcb c eq_refl) in Hx as [-> _] end. }
  clear Hk. unfold db_write in Hb. go_inv.
  match goal with Hx : GetTaskByID _ _ = _ |- _ => apply GetTaskByID_inv in Hx as [Hst Hrow] end.
  destruct (Hrow _ eq_refl) as (Hin & Hid & Hal). rewrite Hs1 in *.
  match goal with Hx : handleTaskFlowInTx _ _ _ = _ |- _ =>
    apply handleTaskFlowInTx_keeps in Hx as [Hk _] end.
  rewrite Ht, Hs2, Hk.
  match goal with Hx : st _ = with_table _ _ |- _ => rewrite Hx end. simpl.
  repeat match goal with Hx : st _ = st _ |- _ => rewrite Hx in *; clear Hx end.
  subst taskID. do 3 eexists. split; [exact Hin|]. split; [reflexivity|]. split; [exact Hal|].
  erewrite (save_row_live _ _ _ _ Hok Hin Hal); [done|].
  unfold mark_result. repeat case_match; task_simpl; done.
Qed.

(** Turn the equations of a run into equations on the initial state. *)
Ltac st_subst :=
  repeat match goal with
         | Hx : st _ = st _ |- _ => rewrite Hx in *; clear Hx
         | Hx : st _ = with_table _ _ |- _ => rewrite Hx in *; clear Hx
         end; simpl in *.

Lemma UpdateByID_table id e (w : World (TaskSys R)) r w' :
  UpdateByID id e w = (r, w') ->
  table (st w') = table (st w) \/
  exists saved, table (st w') = update_where
    (fun t => (ID t =? id) && ((ID e =? 0) || (ID t =? ID e)) && alive t)
    (updates_struct saved e) (table (st w)).
Proof.
  unfold UpdateByID, db_write, gfmt. intros Hu. go_inv1; [go_inv; st_subst; auto|].
  destruct (gext _ _) as [[a0|e0] wx] eqn:E; go_inv; st_subst; eauto.
Qed.

Lemma CancelTask_effect taskID reason (w : World (TaskSys R)) r w' :
  ids_ok (table (st w)) -> CancelTask taskID reason w = (r, w') ->
  tstep (table (st w)) (table (st w')).
Proof.
  intros Hok Hc. unfold CancelTask in Hc. go_inv1.
  { apply GetTaskByID_inv in Hm as [-> _]. by apply ts_same. }
  apply GetTaskByID_inv in Hm as [Hst Hrow]. destruct (Hrow _ eq_refl) as (Hin & Hid & Hal).
  destruct (negb (IsPending a) && _) eqn:Eg.
  { go_inv. st_subst. by apply ts_same. }
  unfold SaveTask in Hk. go_inv. st_subst.
  match goal with Hx : UpdateByID _ _ _ = _ |- _ =>
    apply UpdateByID_table in Hx as [Hu|[saved Hu]]; rewrite Hu; st_subst end;
    [by apply ts_same|].
  assert (Hid' : ID (MarkAsCanceled (env_clock (calls w0)) reason a) = ID a) by by task_simpl.
  apply (ts_cancel _ _ a (env_clock (calls w0)) saved reason); [done|done| |].
  - destruct (IsPending a), (str_eqb (TaskStatus a) TaskStatusFailed); done.
  - rewrite Hid'. apply update_where_ext.
    + intros t Ht. destruct (Z.eqb_spec (ID t) (ID a)) as [Heq|]; [|done].
      rewrite (ids_ok_inj _ t a Hok Ht Hin Heq), Hal, orb_true_r. done.
    + intros t Ht Hp. rewrite !andb_true_iff, !Z.eqb_eq in Hp.
      destruct Hp as [[Heq _] _]. by rewrite (ids_ok_inj _ t a Hok Ht Hin Heq).
Qed.

Lemma DeleteTask_effect id (w : World (TaskSys R)) r w' :
  DeleteTask id w = (r, w') -> tstep (table (st w)) (table (st w')).
Proof.
  unfold DeleteTask, Delete, db_write, gfmt. intros Hd. go_inv1; [go_inv; st_subst; by apply ts_same|].
  destruct (gext _ _) as [[a0|e0] wx] eqn:E; go_inv; st_subst; [by eapply ts_delete|by apply ts_same].
Qed.

Lemma InitTaskDBStatus_effect (w : World (TaskSys R)) r w' :
  InitTaskDBStatus w = (r, w') -> tstep (table (st w)) (table (st w')).
Proof.
  unfold InitTaskDBStatus, db_write. intros Hi. go_inv; st_subst;
    first [by apply ts_same | by eapply ts_restart].
Qed.

Lemma GetTaskByID_keeps id : keeps (R := R) (GetTaskByID id).
Proof. intros w r w' Hg. apply GetTaskByID_inv in Hg as [-> _]. done. Qed.

Lemma CheckAndTimeoutTasks_effect cb (w : World (TaskSys R)) r w' :
  (forall t, keeps (cb t)) -> CheckAndTimeoutTasks cb w = (r, w') ->
  tstep (table (st w)) (table (st w')).
Proof.
  intros Hcb Hc. unfold CheckAndTimeoutTasks, db_write in Hc. go_inv1; [go_inv; st_subst; by apply ts_same|].
  assert (Hq : keeps (R := R) (gwrap "failed to query running tasks: "
             (GetListByCond (cond_status TaskStatusRunning))))
    by (unfold GetListByCond; keeps_tac).
  apply gnow_inv in Hm as (_ & Hst & _).
  go_inv1; [subst; apply Hq in Hm as [-> _]; rewrite Hst; by apply ts_same|].
  apply Hq in Hm as [Ht _]. rewrite Hst in Ht.
  destruct (map ID _) as [|i ids] eqn:Ei; [go_inv; rewrite Ht; by apply ts_same|].
  go_inv1; [go_inv; st_subst; rewrite Ht; by apply ts_same|].
  apply gnow_inv in Hm as (_ & Hst2 & _).
  go_inv1; [go_inv; st_subst; rewrite Ht; by apply ts_same|].
  match goal with Hx : gfor_log _ _ _ = _ |- _ => apply keeps_for_log in Hx as [Hfl _] end.
  - go_inv. st_subst. rewrite Hfl, Ht. by eapply ts_timeout.
  - intros i'. apply keeps_bind; [apply GetTaskByID_keeps|done].
Qed.

Lemma HandleDeadWorkerTasks_effect taskType workerID taskID (w : World (TaskSys R)) r w' :
  HandleDeadWorkerTasks taskType workerID taskID w = (r, w') ->
  tstep (table (st w)) (table (st w')).
Proof.
  intros Hd. apply HandleDeadWorkerTasks_inv in Hd as (_ & _ & Ht & _).
  destruct Ht as [->|(ids & now & saved & ->)]; [by apply ts_same|by eapply ts_timeout].
Qed.

(** ** Creation *)
Definition made_from (es : list TaskEntity) (r : TaskEntity) : Prop :=
  exists e now id, In e es /\ r = create_row now id e.

Definition stored (e r : TaskEntity) : Prop := exists now id, r = create_row now id e.

Lemma made_from_mono es es' rows :
  (forall e, In e es -> In e es') -> Forall (made_from es) rows -> Forall (made_from es') rows.
Proof.
  intros Hin Hr. eapply Forall_impl; [exact Hr|]. intros r (e & n & i & He & ->). exists e, n, i. auto.
Qed.

Lemma ids_ok_snoc l t :
  ids_ok l -> 0 < ID t -> existsb (fun x => ID x =? ID t) l = false -> ids_ok (l ++ [t]).
Proof.
  intros [Hnd Hp] Hpos Hex. split.
  - rewrite map_app. apply NoDup_app. split_and!; [done| |apply NoDup_singleton].
    intros z Hz Hz2. simpl in Hz2. apply list_elem_of_singleton in Hz2 as ->.
    apply list_elem_of_In, in_map_iff in Hz as (x & Hx & Hin).
    eapply existsb_false_In in Hex; [|exact Hin]. simpl in Hex. lia.
  - apply Forall_app. split; [done|]. by constructor.
Qed.

Lemma create_rows_effect now id es l l' id' :
  create_rows now id es l = Some (l', id') -> 0 < id -> Forall (fun e => 0 <= ID e) es ->
  ids_ok l ->
  ids_ok l' /\ 0 < id' /\ exists rows, l' = l ++ rows /\ Forall (made_from es) rows /\
    Forall2 stored es rows.
Proof.
  revert id l. induction es as [|e es IH]; intros id l Hc Hid Hes Hok; simpl in Hc.
  - simplify_eq. split_and!; [done|done|]. exists []. rewrite app_nil_r. split_and!; [done|apply Forall_nil_2|constructor].
  - destruct (existsb _ l) eqn:Ex; [done|].
    apply Forall_cons_1 in Hes as [He Hes].
    assert (Hrid : ID (create_row now id e) = nz (ID e) id) by done.
    assert (0 < nz (ID e) id) by (unfold nz; destruct (Z.eqb_spec (ID e) 0); lia).
    apply IH in Hc as (Hok' & Hid' & rows & -> & Hrows & Hlen);
      [| destruct (Z.eqb_spec (ID e) 0); lia | done | by apply ids_ok_snoc; rewrite ?Hrid ].
    split_and!; [done|done|]. exists (create_row now id e :: rows).
    split_and!; [by rewrite <- app_assoc| |constructor; [by exists now, id|done]].
    constructor; [exists e, now, id; split; [by left|done]|].
    eapply made_from_mono; [|exact Hrows]. by right.
Qed.

Lemma db_create_effect now es (w : World (TaskSys R)) r w' :
  ids_ok (table (st w)) -> Forall (fun e => 0 <= ID e) es -> db_create now es w = (r, w') ->
  match r with
  | Err _ => table (st w') = table (st w)
  | Ok created => ids_ok (table (st w')) /\ table (st w') = table (st w) ++ created /\
                  Forall (made_from es) created /\ Forall2 stored es created
  end.
Proof.
  unfold db_create. intros Hok Hes Hc. go_inv; [congruence|].
  match goal with Hx : st w' = _ |- _ => rewrite Hx end.
  destruct (create_rows _ _ _ _) as [[l' id']|] eqn:E; simpl; [|done].
  apply create_rows_effect in E as (Hok' & _ & rows & -> & Hrows & Hlen); [|lia|done|done].
  rewrite drop_app_length. done.
Qed.

Lemma create_batches_effect bs (w : World (TaskSys R)) r w' :
  ids_ok (table (st w)) -> Forall (fun e => 0 <= ID e) (concat bs) ->
  create_batches bs w = (r, w') ->
  ids_ok (table (st w')) /\ exists rows, table (st w') = table (st w) ++ rows /\
    Forall (made_from (concat bs)) rows /\
    (forall created, r = Ok created -> created = rows /\ Forall2 stored (concat bs) rows).
Proof.
  revert w r. induction bs as [|b bs IH]; intros w r Hok Hbs Hc; simpl in *.
  { go_inv. split; [done|]. exists []. rewrite app_nil_r. split_and!; [done|apply Forall_nil_2|]. intros ? [= <-]. split; [done|constructor]. }
  apply Forall_app in Hbs as [Hb Hbs]. go_inv1; [go_inv|].
  apply gnow_inv in Hm as (_ & Hst & _). go_inv1.
  { apply db_create_effect in Hm; [|by rewrite Hst|done]. rewrite Hm, Hst. split; [done|].
    exists []. rewrite app_nil_r. split_and!; [done|apply Forall_nil_2|by subst r]. }
  apply db_create_effect in Hm as (Hok1 & Ht1 & Hm1 & Hlen1); [|by rewrite Hst|done].
  rewrite Hst in Ht1. go_inv1.
  - subst r. apply IH in Hm as (Hok2 & rows & Ht2 & Hm2 & _); [|done|done].
    split; [done|]. exists (a0 ++ rows). rewrite Ht2, Ht1, app_assoc.
    split_and!; [done| |done]. apply Forall_app; split;
      [apply (made_from_mono b)|apply (made_from_mono (concat bs))]; try done;
      intros; rewrite in_app_iff; auto.
  - go_inv. apply IH in Hm as (Hok2 & rows & Ht2 & Hm2 & Hcr); [|done|done].
    destruct (Hcr _ eq_refl) as [-> Hlen2].
    split; [done|]. exists (a0 ++ rows). rewrite Ht2, Ht1, app_assoc.
    split_and!; [done| |intros ? [= <-]; split; [done|by apply Forall2_app]].
    apply Forall_app; split;
      [apply (made_from_mono b)|apply (made_from_mono (concat bs))]; try done;
      intros; rewrite in_app_iff; auto.
Qed.

Lemma concat_batches fuel n es :
  (length es <= fuel)%nat -> (0 < n)%nat -> concat (batches fuel n es) = es.
Proof.
  revert es. induction fuel as [|fuel IH]; intros es Hle Hn; [by destruct es; simpl in *; [|lia]|].
  destruct es as [|e es]; [done|].
  change (concat (batches (S fuel) n (e :: es)))
    with (take n (e :: es) ++ concat (batches fuel n (drop n (e :: es)))).
  rewrite IH; [apply take_drop| |done]. rewrite length_drop. simpl in *. lia.
Qed.

Lemma batches_single n es :
  (length es <= n)%nat -> batches (length es) n es = match es with [] => [] | _ => [es] end.
Proof.
  intros Hle. destruct es as [|e es]; [done|]. cbn [length batches].
  rewrite take_ge, drop_ge by done. by destruct (length es).
Qed.

Lemma CreateInBatches_effect n es (w : World (TaskSys R)) r w' :
  (0 < n)%nat -> ids_ok (table (st w)) -> Forall (fun e => 0 <= ID e) es ->
  CreateInBatches n es w = (r, w') ->
  match r with
  | Err _ => table (st w') = table (st w)
  | Ok created => ids_ok (table (st w')) /\ table (st w') = table (st w) ++ created /\
                  Forall (made_from es) created /\ Forall2 stored es created
  end.
Proof.
  intros Hn Hok Hes Hc. unfold CreateInBatches in Hc.
  pose proof (concat_batches (length es) n es (le_n _) Hn) as Hcc.
  destruct (Nat.leb_spec (length es) n) as [Hle|Hgt].
  - destruct r as [created|e].
    + eapply create_batches_effect in Hc as (H1' & rows & H2 & H3 & H4); [|done|by rewrite Hcc].
      rewrite Hcc in *. destruct (H4 _ eq_refl) as [-> H5]. done.
    + rewrite (batches_single n es Hle) in Hc. destruct es as [|e0 es]; simpl in Hc; go_inv.
      1: match goal with Hx : db_create _ _ _ = _ |- _ => apply db_create_effect in Hx end;
         st_subst; done.
  - apply transaction_inv in Hc. destruct r as [created|e]; [|done].
    destruct Hc as (w1 & w2 & _ & Hs1 & Hb & Hs2).
    eapply create_batches_effect in Hb as (H1' & rows & H2 & H3 & H4);
      [|by rewrite Hs1|by rewrite Hcc].
    rewrite Hcc, Hs1, Hs2 in *. destruct (H4 _ eq_refl) as [-> H5]. done.
Qed.

Lemma validate_all_spec tasks :
  (forall ts, validate_all tasks = Ok ts ->
     ts = map default_status tasks /\ Forall (fun t => Validate t = None) tasks) /\
  (Forall (fun t => Validate t = None) tasks -> validate_all tasks = Ok (map default_status tasks)).
Proof.
  induction tasks as [|t tasks [IH1 IH2]]; simpl; [split; [naive_solver|done]|].
  destruct (Validate t) as [e|] eqn:Ev.
  - split; [done|]. intros Hf. apply Forall_cons_1 in Hf as [Hf _]. congruence.
  - split.
    + intros ts. destruct (validate_all tasks) as [ts0|]; [|done]. intros [= <-].
      destruct (IH1 _ eq_refl) as [-> Hf]. split; [done|]. by constructor.
    + intros Hf. apply Forall_cons_1 in Hf as [_ Hf]. by rewrite IH2.
Qed.

Lemma default_status_ID t : ID (default_status t) = ID t.
Proof. unfold default_status. by destruct (str_eqb _ _). Qed.

Lemma CreateTasks_effect tasks (w : World (TaskSys R)) r w' :
  ids_ok (table (st w)) -> Forall (fun e => 0 <= ID e) tasks ->
  CreateTasks tasks w = (r, w') ->
  match r with
  | Err _ => table (st w') = table (st w)
  | Ok created => ids_ok (table (st w')) /\ table (st w') = table (st w) ++ created /\
      Forall (made_from (map default_status tasks)) created /\
      Forall2 stored (map default_status tasks) created
  end.
Proof.
  intros Hok Hes Hc. destruct tasks as [|t tasks].
  { unfold CreateTasks in Hc. go_inv. rewrite app_nil_r. split_and!; [done|done|apply Forall_nil_2|constructor]. }
  unfold CreateTasks in Hc. destruct (validate_all (t :: tasks)) as [ts|e] eqn:Ev; [|by go_inv].
  apply (proj1 (validate_all_spec _)) in Ev as [-> _].
  apply CreateInBatches_effect in Hc; [done|lia|done|].
  apply Forall_map. eapply Forall_impl; [exact Hes|]. intros x Hx. by rewrite default_status_ID.
Qed.

Lemma push_first_step_keeps fs t : keeps (R := R) (push_first_step kp fs t).
Proof. unfold push_first_step. keeps_tac. Qed.

Lemma Manager_CreateTasks_effect tasks (w : World (TaskSys R)) r w' :
  ids_ok (table (st w)) -> Forall (fun e => 0 <= ID e) tasks ->
  Manager_CreateTasks kp tasks w = (r, w') ->
  table (st w') = table (st w) \/
  exists rows, ids_ok (table (st w')) /\ table (st w') = table (st w) ++ rows /\
    Forall (made_from (map default_status tasks)) rows /\ length rows = length tasks.
Proof.
  intros Hok Hes Hc. unfold Manager_CreateTasks in Hc.
  destruct tasks as [|t0 ts]; [go_inv; by left|]. set (tasks := t0 :: ts) in *.
  assert (Hes' : Forall (fun e => 0 <= ID e) (slice_by_step tasks))
    by (by rewrite (slice_by_step_perm tasks)).
  go_inv1.
  - apply gwrap_inv in Hm as [(? & ? & ?)|(e1 & Hc & ?)]; simplify_eq.
    left. by eapply CreateTasks_effect in Hc.
  - apply gwrap_inv in Hm as [(x & Hc & ?)|(? & ? & ?)]; simplify_eq.
    apply CreateTasks_effect in Hc as (H1' & H2 & H3 & H4); [|done|done].
    apply keeps_for in Hk as [Ht _]; [|apply push_first_step_keeps].
    right. exists x. rewrite Ht. split_and!; [done|done| |].
    + eapply made_from_mono; [|exact H3]. intros e. apply Permutation_in.
      apply Permutation_map, slice_by_step_perm.
    + apply Forall2_length in H4. rewrite <- H4, length_map. apply Permutation_length, slice_by_step_perm.
Qed.
End OpEffects.

(** * Invariants of the table *)
(** No task runs while an earlier step of its workflow is unfinished. *)
Definition order_ok (l : list TaskEntity) : Prop :=
  forall t t2, In t l -> In t2 l -> alive t = true -> IsRunning t = true -> blocks t t2 = false.

(** The redo counter stays within the budget, strictly while running. *)
Definition redo_ok1 (t : TaskEntity) : Prop :=
  0 <= Redo t <= MaxRedo t /\ MaxRedo t < two63 /\ (IsRunning t = true -> Redo t < MaxRedo t).
Definition redo_ok (l : list TaskEntity) : Prop :=
  forall t, In t l -> alive t = true -> redo_ok1 t.

Definition Inv (l : list TaskEntity) : Prop := ids_ok l /\ order_ok l /\ redo_ok l.

(** Rewriting rows keeps the step order when it starts no run, moves no row to
    another workflow or step, and reopens no finished row. *)
Lemma order_ok_update p f l :
  order_ok l ->
  (forall t, In t l -> p t = true ->
     SubjectID (f t) = SubjectID t /\ AppGroup (f t) = AppGroup t /\ Step (f t) = Step t /\
     (alive (f t) = true -> alive t = true) /\ IsRunning (f t) && alive (f t) = false /\
     (status_in done_statuses t = true -> status_in done_statuses (f t) = true)) ->
  order_ok (update_where p f l).
Proof.
  intros Hord Hf t' t2' (t & Ht & ->)%In_update_where (t2 & Ht2 & ->)%In_update_where Hal Hrun.
  destruct (p t) eqn:Ep.
  { destruct (Hf t Ht Ep) as (_ & _ & _ & _ & Hx & _). by rewrite Hal, Hrun in Hx. }
  pose proof (Hord t t2 Ht Ht2 Hal Hrun) as Hb. destruct (p t2) eqn:Ep2; [|done].
  destruct (Hf t2 Ht2 Ep2) as (H1 & H2 & H3 & H4 & _ & H6).
  unfold blocks in *. rewrite H1, H2, H3.
  destruct (SubjectID t2 =? SubjectID t), (str_eqb (AppGroup t2) (AppGroup t)),
    (Step t2 <? Step t); simpl in *; try done.
  destruct (alive (f t2)); simpl; [|done]. rewrite H4 in Hb by done. simpl in Hb.
  apply negb_false_iff in Hb. by rewrite H6.
Qed.

Lemma redo_ok_update p f l :
  redo_ok l -> (forall t, In t l -> p t = true -> alive (f t) = true -> redo_ok1 (f t)) ->
  redo_ok (update_where p f l).
Proof.
  intros Hr Hf t' (t & Ht & ->)%In_update_where Hal. destruct (p t) eqn:Ep; auto.
Qed.

Lemma running_not_done t : IsRunning t = true -> status_in done_statuses t = true -> False.
Proof.
  unfold IsRunning. intros Hr%str_eqb_eq Hd%status_in_spec. rewrite Hr in Hd.
  destruct Hd as [Hd|[Hd|[]]]; by vm_compute in Hd.
Qed.

Lemma retryable_not_running t : status_in retryable_statuses t = true -> IsRunning t = false.
Proof.
  intros Hd%status_in_spec. unfold IsRunning.
  destruct Hd as [<-|[<-|[<-|[]]]]; by vm_compute.
Qed.
Lemma retryable_not_done t :
  status_in retryable_statuses t = true -> status_in done_statuses t = false.
Proof.
  intros Hd%status_in_spec. unfold status_in.
  destruct Hd as [<-|[<-|[<-|[]]]]; by vm_compute.
Qed.

(** The fields a result leaves alone, and what it sets. *)
Lemma mark_result_fields now result execErr t :
  let t' := mark_result now result execErr t in
  ID t' = ID t /\ SubjectID t' = SubjectID t /\ AppGroup t' = AppGroup t /\ Step t' = Step t /\
  DeletedAt t' = DeletedAt t /\ MaxRedo t' = MaxRedo t /\ TaskType t' = TaskType t /\
  IsRunning t' = false /\ (Redo t' = Redo t \/ Redo t' = wrap_i64 (Redo t + 1)).
Proof.
  unfold mark_result, IsRunning. destruct execErr as [e|]; [destruct (bool_decide _)|];
    task_simpl; split_and!; auto.
Qed.

(** ** Each effect preserves the invariant *)
Lemma Inv_claim l taskType t0 now saved workerID :
  Inv l -> In t0 l -> pending_where taskType l t0 = true ->
  Inv (update_where (fun x => ID x =? ID t0) (fun _ => claimed now saved workerID t0) l).
Proof.
  intros (Hok & Hord & Hredo) Hin Hw. unfold pending_where in Hw. rewrite !andb_true_iff in Hw.
  destruct Hw as [[[[_ Hst] Hrd] Hnb] Hal]. apply negb_true_iff in Hnb.
  assert (Hblk : forall t x, blocks t (claimed now saved workerID t0) = true ->
                   blocks t t0 = true /\ (x = claimed now saved workerID t0 -> blocks x x = false)).
  { intros t x Hb. split; [|intros ->; unfold blocks; rewrite Z.ltb_irrefl, !andb_false_r; done].
    unfold blocks in *. rewrite (retryable_not_done t0 Hst). simpl in Hb.
    rewrite !andb_true_iff in Hb. destruct Hb as [[[[H1 H2] H3] _] _]. by rewrite H1, H2, H3, Hal. }
  split_and!.
  - apply (ids_ok_map_ID l); [by apply replace_ids|done].
  - intros t' t2' (t & Ht & ->)%In_update_where (t2 & Ht2 & ->)%In_update_where Halt Hrun.
    destruct (Z.eqb_spec (ID t) (ID t0)) as [Heq|Hne], (Z.eqb_spec (ID t2) (ID t0)) as [Heq2|Hne2].
    + unfold blocks. rewrite Z.ltb_irrefl, !andb_false_r. done.
    + apply (existsb_false_In _ _ _ Hnb Ht2).
    + destruct (blocks t (claimed _ _ _ _)) eqn:Eb; [|done]. exfalso.
      apply (Hblk _ t) in Eb as [Eb _]. by rewrite (Hord t t0 Ht Hin Halt Hrun) in Eb.
    + by apply Hord.
  - apply redo_ok_update; [done|]. intros t Ht _ _. destruct (Hredo t0 Hin Hal) as (H1 & H2 & _).
    split_and!; simpl; try lia.
Qed.

Lemma wrap_succ t : redo_ok1 t -> IsRunning t = true -> wrap_i64 (Redo t + 1) = Redo t + 1.
Proof.
  intros (H1 & H2 & H3) Hr. apply H3 in Hr. apply wrap_i64_id. unfold two63 in *. lia.
Qed.

Lemma Inv_finish l t0 now saved result execErr :
  Inv l -> In t0 l -> alive t0 = true -> IsRunning t0 = true ->
  Inv (update_where (fun x => ID x =? ID t0)
         (fun _ => set_UpdatedAt saved (mark_result now result execErr t0)) l).
Proof.
  intros (Hok & Hord & Hredo) Hin Hal Hrun.
  destruct (mark_result_fields now result execErr t0) as (F1 & F2 & F3 & F4 & F5 & F6 & F7 & F8 & F9).
  set (m := mark_result now result execErr t0) in *. split_and!.
  - apply (ids_ok_map_ID l); [by apply replace_ids|done].
  - apply order_ok_update; [done|]. intros t Ht Heq%Z.eqb_eq.
    rewrite (ids_ok_inj l t t0 Hok Ht Hin Heq) in *. unfold alive. simpl. rewrite F2, F3, F4, F5.
    split_and!; try done.
    + change (IsRunning (set_UpdatedAt saved m)) with (IsRunning m). by rewrite F8.
    + intros Hd. exfalso. by eapply running_not_done.
  - apply redo_ok_update; [done|]. intros t Ht _ _. pose proof (Hredo t0 Hin Hal) as H0.
    pose proof (wrap_succ t0 H0 Hrun) as Hws. destruct H0 as (H1 & H2 & H3). specialize (H3 Hrun).
    unfold redo_ok1. change (IsRunning (set_UpdatedAt saved m)) with (IsRunning m).
    rewrite F8. simpl. rewrite F6. destruct F9 as [->| ->]; rewrite ?Hws; split_and!; (lia || done).
Qed.

Lemma Inv_cancel l t0 now saved reason :
  Inv l -> In t0 l -> alive t0 = true ->
  Inv (update_where (fun x => ID x =? ID t0)
         (fun _ => updates_struct saved (MarkAsCanceled now reason t0) t0) l).
Proof.
  intros (Hok & Hord & Hredo) Hin Hal.
  set (u := updates_struct saved (MarkAsCanceled now reason t0) t0).
  assert (Hsame : forall a, nz a a = a) by (intros a; unfold nz; by destruct (a =? 0)).
  assert (Hsames : forall a, nzs a a = a) by (intros a; unfold nzs; by destruct (str_eqb a "")).
  assert (F : ID u = ID t0 /\ SubjectID u = SubjectID t0 /\ AppGroup u = AppGroup t0 /\
              Step u = Step t0 /\ Redo u = Redo t0 /\ MaxRedo u = MaxRedo t0 /\
              TaskStatus u = TaskStatusCanceled).
  { unfold u, updates_struct. task_simpl. rewrite !Hsame, !Hsames. done. }
  destruct F as (F1 & F2 & F3 & F4 & F5 & F6 & F7). split_and!.
  - apply (ids_ok_map_ID l); [by apply replace_ids|done].
  - apply order_ok_update; [done|]. intros t Ht Heq%Z.eqb_eq.
    rewrite (ids_ok_inj l t t0 Hok Ht Hin Heq) in *. split_and!; try done.
    + unfold IsRunning. by rewrite F7.
    + intros _. unfold status_in. by rewrite F7.
  - apply redo_ok_update; [done|]. intros t Ht _ _. destruct (Hredo t0 Hin Hal) as (H1 & H2 & H3).
    unfold redo_ok1, IsRunning. rewrite F5, F6, F7. split_and!; (lia || done).
Qed.

Lemma Inv_delete l id now :
  Inv l -> Inv (update_where (fun x => ID x =? id) (set_DeletedAt (Some now)) l).
Proof.
  intros (Hok & Hord & Hredo). split_and!.
  - apply (ids_ok_map_ID l); [by apply update_where_ids|done].
  - apply order_ok_update; [done|]. intros t Ht _. split_and!; try done. apply andb_false_r.
  - apply redo_ok_update; [done|]. by intros t Ht _ Hal.
Qed.

(** Moving running rows to a status that is neither running nor finished, one
    redo later. *)
Lemma Inv_interrupt l p status f :
  Inv l -> (forall t, p t = true -> IsRunning t = true /\ alive t = true) ->
  status <> TaskStatusRunning ->
  (forall t, ID (f t) = ID t /\ SubjectID (f t) = SubjectID t /\ AppGroup (f t) = AppGroup t /\
     Step (f t) = Step t /\ DeletedAt (f t) = DeletedAt t /\ MaxRedo (f t) = MaxRedo t /\
     Redo (f t) = Redo t + 1 /\ TaskStatus (f t) = status) ->
  Inv (update_where p f l).
Proof.
  intros (Hok & Hord & Hredo) Hp Hns Hf.
  assert (Hnr : forall t, IsRunning (f t) = false).
  { intros t. unfold IsRunning. destruct (Hf t) as (_ & _ & _ & _ & _ & _ & _ & ->).
    by apply String.eqb_neq. }
  split_and!.
  - apply (ids_ok_map_ID l); [apply update_where_ids; intros; by apply Hf|done].
  - apply order_ok_update; [done|]. intros t Ht [Hr Ha]%Hp.
    destruct (Hf t) as (F1 & F2 & F3 & F4 & F5 & _). split_and!; try done.
    + by rewrite Hnr.
    + intros Hd. exfalso. by eapply running_not_done.
  - apply redo_ok_update; [done|]. intros t Ht [Hr Ha]%Hp _.
    destruct (Hf t) as (_ & _ & _ & _ & _ & F6 & F7 & _).
    destruct (Hredo t Ht Ha) as (H1 & H2 & H3). specialize (H3 Hr).
    unfold redo_ok1. rewrite Hnr, F6, F7. split_and!; (lia || done).
Qed.

Lemma Inv_timeout l msg ids now saved : Inv l -> Inv (timeout_update msg ids now saved l).
Proof.
  intros HI. apply (Inv_interrupt l _ TaskStatusTimeout); [done| |done|done].
  intros t. rewrite !andb_true_iff. tauto.
Qed.

Lemma Inv_restart l saved :
  Inv l ->
  Inv (update_where (fun t => IsRunning t && alive t)
         (fun t => set_UpdatedAt saved (set_Redo (Redo t + 1)
            (set_ErrMsg "task interrupted by restart" (set_TaskStatus TaskStatusFailed t)))) l).
Proof.
  intros HI. apply (Inv_interrupt l _ TaskStatusFailed); [done| |done|done].
  intros t. rewrite !andb_true_iff. tauto.
Qed.

(** What a client may create: new pending tasks within their redo budget that
    are not an earlier step of a workflow already running. *)
Definition new_task_ok (l : list TaskEntity) (e : TaskEntity) : Prop :=
  0 <= ID e /\ (TaskStatus e = "" \/ TaskStatus e = TaskStatusPending) /\
  0 <= Redo e <= nz (MaxRedo e) 3 /\ nz (MaxRedo e) 3 < two63 /\
  forall t, In t l -> alive t = true -> IsRunning t = true -> blocks t (default_status e) = false.

Lemma default_status_pending e :
  TaskStatus e = "" \/ TaskStatus e = TaskStatusPending ->
  TaskStatus (default_status e) = TaskStatusPending.
Proof. unfold default_status. by intros [->|Hp]; [|rewrite Hp; simpl]. Qed.

Lemma Inv_create l tasks rows :
  Inv l -> Forall (new_task_ok l) tasks -> ids_ok (l ++ rows) ->
  Forall (made_from (map default_status tasks)) rows -> Inv (l ++ rows).
Proof.
  intros (Hok & Hord & Hredo) Hnew Hok' Hrows. rewrite Forall_forall in Hrows, Hnew.
  assert (Hr : forall r, In r rows -> IsRunning r = false /\ redo_ok1 r /\
            forall t, In t l -> alive t = true -> IsRunning t = true -> blocks t r = false).
  { intros r Hr%list_elem_of_In%Hrows. destruct Hr as (e' & now & id & Hin & ->).
    apply in_map_iff in Hin as (e & <- & Hin). apply list_elem_of_In, Hnew in Hin.
    destruct Hin as (_ & Hs & H1 & H2 & H3).
    assert (Hrun : IsRunning (create_row now id (default_status e)) = false)
      by (unfold IsRunning; simpl; by rewrite (default_status_pending e Hs)).
    split_and!; [done| |exact H3]. unfold redo_ok1. rewrite Hrun. simpl.
    assert (Redo (default_status e) = Redo e /\ MaxRedo (default_status e) = MaxRedo e) as [-> ->]
      by (unfold default_status; by destruct (str_eqb _ _)).
    split_and!; (lia || done). }
  split_and!; [done| |].
  - intros t t2 Ht%in_app_iff Ht2%in_app_iff Ha Hrun.
    destruct Ht as [Ht|Ht]; [|by rewrite (proj1 (Hr t Ht)) in Hrun].
    destruct Ht2 as [Ht2|Ht2]; [by apply Hord|by apply Hr].
  - intros t Ht%in_app_iff Ha. destruct Ht as [Ht|Ht]; [by apply Hredo|by apply Hr].
Qed.

Lemma tstep_Inv l l' : Inv l -> tstep l l' -> Inv l'.
Proof.
  intros HI [].
  all: subst; eauto using Inv_claim, Inv_cancel, Inv_delete, Inv_timeout, Inv_restart.
Qed.

(** * The system *)
Inductive op : Type :=
| OpCreate (tasks : list TaskEntity)
| OpNext (taskType workerID : string)
| OpSave (taskID : Z) (result : string) (execErr : option error)
| OpCancel (taskID : Z) (reason : string)
| OpDelete (taskID : Z)
| OpTimeouts
| OpDead (taskType workerID : string) (taskID : Z)
| OpRestart
| OpSync (fuel : nat)
| OpPush (taskType : string)
| OpPop (taskType workerID : string).

Section System.
Context `{Env} `{SqlEnv} `{!SqlEnvOk _} {R : Type} `{RedisStreams R}.
Variable kp : string.

Definition ignore {A} (m : M (TaskSys R) A) : M (TaskSys R) unit := gtry m ;;; gret tt.

Definition run_op (o : op) : M (TaskSys R) unit :=
  match o with
  | OpCreate tasks => ignore (Manager_CreateTasks kp tasks)
  | OpNext taskType workerID => ignore (GetNextTask kp taskType workerID)
  | OpSave taskID result execErr => ignore (SaveTaskResult kp taskID result execErr None)
  | OpCancel taskID reason => ignore (CancelTask taskID reason)
  | OpDelete taskID => ignore (DeleteTask taskID)
  | OpTimeouts => ignore (Manager_CheckAndTimeoutTasks kp)
  | OpDead taskType workerID taskID => ignore (ReassignDeadWorkerTasks kp taskType workerID taskID)
  | OpRestart => ignore InitTaskDBStatus
  | OpSync fuel => ignore (SyncQueueCount kp fuel)
  | OpPush taskType => ignore (Push kp taskType)
  | OpPop taskType workerID => ignore (Pop kp taskType workerID)
  end.

(** The discipline the manager relies on but does not enforce: results are
    saved for running tasks only, and created tasks fit. *)
Definition op_ok (l : list TaskEntity) (o : op) : Prop :=
  match o with
  | OpCreate tasks => Forall (new_task_ok l) tasks
  | OpSave taskID _ _ =>
      forall t, In t l -> ID t = taskID -> alive t = true -> IsRunning t = true
  | _ => True
  end.

Lemma ignore_inv {A} (m : M (TaskSys R) A) w r w' :
  ignore m w = (r, w') -> exists r0, m w = (r0, w').
Proof. unfold ignore. intros Hi. go_inv. eauto. Qed.

Lemma syncTaskTypeQueue_keeps taskType : keeps (R := R) (syncTaskTypeQueue kp taskType).
Proof. unfold syncTaskTypeQueue, GetPendingTaskCount. keeps_tac. Qed.

Lemma scan_loop_keeps fuel cursor p keys : keeps (R := R) (scan_loop fuel cursor p keys).
Proof.
  revert cursor keys. induction fuel as [|fuel IH]; intros cursor keys; simpl; [apply keeps_raise|].
  apply keeps_bind; [|intros [kk n]; keeps_tac; apply IH].
  apply keeps_wrap. intros w r w' Hr. unfold rds in Hr. go_inv; simpl in *;
    repeat match goal with Hx : st _ = _ |- _ => rewrite Hx in *; clear Hx end; done.
Qed.

Lemma run_op_Inv o (w : World (TaskSys R)) :
  Inv (table (st w)) -> op_ok (table (st w)) o -> Inv (table (st (snd (run_op o w)))).
Proof.
  intros HI Hpre. destruct (run_op o w) as [r w'] eqn:Hr. simpl. pose proof HI as (Hok & _).
  destruct o; apply ignore_inv in Hr as [r0 Hr]; simpl in Hpre.
  - assert (Hes : Forall (fun e => 0 <= ID e) tasks)
      by (eapply Forall_impl; [exact Hpre|]; intros x Hx; apply Hx).
    apply Manager_CreateTasks_effect in Hr as [->|(rows & H1' & H2 & H3 & _)]; [done| |done|done].
    rewrite H2 in *. by eapply Inv_create.
  - unfold GetNextTask in Hr. go_inv1.
    + subst. by apply Pop_table in Hm as [-> _].
    + apply Pop_table in Hm as [Ht _]. rewrite <- Ht in Hok, HI.
      pose proof (GetOnePendingTask_inv _ _ _ _ _ Hok Hk) as Hi.
      destruct r0 as [t|e]; [|by rewrite Hi].
      destruct Hi as [(_ & _ & ->)|(now & saved & Hin & -> & ->)]; [done|].
      apply claim_rows_In in Hin as (Hin & Hw & _). by eapply Inv_claim.
  - apply SaveTaskResult_effect in Hr; [|done|by intros]. destruct r0; [|by rewrite Hr].
    destruct Hr as (t0 & now & saved & Hin & Hid & Hal & ->). subst taskID.
    apply Inv_finish; auto.
  - apply CancelTask_effect in Hr; [|done]. by eapply tstep_Inv.
  - apply DeleteTask_effect in Hr. by eapply tstep_Inv.
  - apply CheckAndTimeoutTasks_effect in Hr; [by eapply tstep_Inv|].
    intros t. unfold retry_callback. keeps_tac.
  - unfold ReassignDeadWorkerTasks in Hr. go_inv1.
    + apply gwrap_inv in Hm as [(ts & Hd & ?)|(? & Hd & ?)]; simplify_eq.
      by eapply tstep_Inv; [|eapply HandleDeadWorkerTasks_effect].
    + apply gwrap_inv in Hm as [(ts & Hd & ?)|(? & ? & ?)]; simplify_eq.
      apply keeps_for_log in Hk as [-> _]; [|intros t; keeps_tac].
      by eapply tstep_Inv; [|eapply HandleDeadWorkerTasks_effect].
  - apply InitTaskDBStatus_effect in Hr. by eapply tstep_Inv.
  - unfold SyncQueueCount, GetAllTaskTypes in Hr.
    assert (Hkp : keeps (R := R) (SyncQueueCount kp fuel)).
    { unfold SyncQueueCount, GetAllTaskTypes. repeat apply keeps_bind; intros;
        [apply scan_loop_keeps|apply keeps_ret|apply keeps_for_log, syncTaskTypeQueue_keeps]. }
    by apply Hkp in Hr as [-> _].
  - by apply Push_table in Hr as [-> _].
  - by apply Pop_table in Hr as [-> _].
Qed.

(** The states a disciplined client can reach from an empty table. *)
Inductive reachable : World (TaskSys R) -> Prop :=
| reach_init w : table (st w) = [] -> reachable w
| reach_step w o : reachable w -> op_ok (table (st w)) o -> reachable (snd (run_op o w)).

Lemma Inv_nil : Inv [].
Proof. split_and!; [split; constructor|by intros t|by intros t]. Qed.

Lemma reachable_Inv w : reachable w -> Inv (table (st w)).
Proof.
  induction 1 as [w Hw|w o _ IH Hpre]; [rewrite Hw; apply Inv_nil|by apply run_op_Inv].
Qed.

(** C1: in every state a disciplined client can reach, through any sequence of
    creations, claims, results, cancellations, deletions, timeouts, dead-worker
    and restart recoveries, with any failures of the services, a running task
    has no unfinished earlier step in its workflow. *)
Theorem running_respects_steps w t t2 :
  reachable w -> In t (table (st w)) -> In t2 (table (st w)) ->
  alive t = true -> alive t2 = true -> TaskStatus t = TaskStatusRunning ->
  SubjectID t2 = SubjectID t -> AppGroup t2 = AppGroup t -> Step t2 < Step t ->
  TaskStatus t2 = TaskStatusSuccess \/ TaskStatus t2 = TaskStatusCanceled.
Proof.
  intros Hr Hin Hin2 Ha Ha2 Hrun Hs Hg Hlt. apply reachable_Inv in Hr as (_ & Hord & _).
  assert (Hrun' : IsRunning t = true) by (unfold IsRunning; by rewrite Hrun).
  specialize (Hord t t2 Hin Hin2 Ha Hrun'). unfold blocks in Hord.
  rewrite Hs, Hg, Z.eqb_refl, str_eqb_refl, Ha2 in Hord.
  destruct (Z.ltb_spec (Step t2) (Step t)); [|lia]. simpl in Hord.
  apply negb_false_iff in Hord. rewrite !orb_true_iff, !str_eqb_eq in Hord.
  destruct Hord as [?|[?|?]]; auto; done.
Qed.

(** C2: in every such state the redo counter of a live task is within its
    budget, and a running task has a redo left, so a task is run at most
    [MaxRedo] times. *)
Theorem redo_within_budget w t :
  reachable w -> In t (table (st w)) -> alive t = true ->
  0 <= Redo t <= MaxRedo t /\ (TaskStatus t = TaskStatusRunning -> Redo t < MaxRedo t).
Proof.
  intros Hr Hin Ha. apply reachable_Inv in Hr as (_ & _ & Hredo).
  destruct (Hredo t Hin Ha) as (H1' & _ & H3). split; [done|]. intros Hs. apply H3.
  unfold IsRunning. by rewrite Hs.
Qed.

(** [HandleDeadWorkerTasks] never returns a task type (it tests the copies
    read before the update, which are still running, for a retryable status),
    so [ReassignDeadWorkerTasks] never pushes anything to a queue. *)
Theorem dead_worker_tasks_not_requeued taskType workerID taskID (w : World (TaskSys R)) :
  (fst (HandleDeadWorkerTasks taskType workerID taskID w) = Ok [] \/
   exists e, fst (HandleDeadWorkerTasks taskType workerID taskID w) = Err e) /\
  redis (st (snd (ReassignDeadWorkerTasks kp taskType workerID taskID w))) = redis (st w).
Proof.
  destruct (HandleDeadWorkerTasks taskType workerID taskID w) as [r w'] eqn:E.
  pose proof (HandleDeadWorkerTasks_inv _ _ _ _ _ _ E) as (Hrd & _ & _ & Ht). split.
  { destruct r as [types|e]; [left; simpl; by rewrite (Ht types eq_refl)|right; eauto]. }
  unfold ReassignDeadWorkerTasks. rewrite gbind_eq. unfold gwrap. rewrite E.
  destruct r as [types|e]; simpl; [|done]. by rewrite (Ht types eq_refl).
Qed.

(** ** Counting wake-ups *)
Context `{!RedisStreamsOk R}.

Definition qlen (taskType : string) (s : TaskSys R) : nat :=
  length (stream_entries (redis s) (streamKey kp taskType)).

Lemma streamKey_inj a b : streamKey kp a = streamKey kp b -> a = b.
Proof.
  intros Heq. apply (f_equal (str_drop (String.length kp))) in Heq. unfold streamKey in Heq.
  rewrite !str_drop_app in Heq.
  apply (f_equal (str_drop (String.length "task_queue:"))) in Heq.
  by rewrite !str_drop_app in Heq.
Qed.

Definition one_if (b : bool) : nat := if b then 1 else 0.

Lemma Push_qlen taskType ty (w : World (TaskSys R)) :
  no_fault_from (calls w) ->
  let w' := snd (Push kp taskType w) in
  fst (Push kp taskType w) = Ok tt /\ table (st w') = table (st w) /\
  (calls w <= calls w')%nat /\
  qlen ty (st w') = (qlen ty (st w) + one_if (str_eqb taskType ty))%nat.
Proof.
  intros Hnf. rewrite (Push_run kp taskType w Hnf). simpl. split_and!; try done; [lia|].
  unfold qlen. simpl. destruct (str_eqb taskType ty) eqn:E.
  - apply str_eqb_eq in E as ->. rewrite XAdd_entries, length_app. simpl. lia.
  - rewrite XAdd_other; [simpl; lia|]. intros Heq%streamKey_inj. subst.
    by rewrite str_eqb_refl in E.
Qed.

(** A computation that, run without failures on the table [T], succeeds, leaves
    the table and pushes [n] messages of type [ty]. *)
Definition pushes (T : list TaskEntity) (ty : string) (n : nat) (m : M (TaskSys R) unit) : Prop :=
  forall w, table (st w) = T -> no_fault_from (calls w) ->
  let w' := snd (m w) in
  fst (m w) = Ok tt /\ table (st w') = T /\ (calls w <= calls w')%nat /\
  qlen ty (st w') = (qlen ty (st w) + n)%nat.

Lemma pushes_push T ty taskType : pushes T ty (one_if (str_eqb taskType ty)) (Push kp taskType).
Proof. intros w HT Hnf. rewrite <- HT. by apply Push_qlen. Qed.

Lemma pushes_ret T ty : pushes T ty 0 (gret tt).
Proof. intros w HT Hnf. simpl. split_and!; (done || lia). Qed.

Lemma pushes_wrap T ty n p m : pushes T ty n m -> pushes T ty n (gwrap p m).
Proof.
  intros Hm w HT Hnf. destruct (Hm w HT Hnf) as (H1' & H2 & H3 & H4). unfold gwrap.
  destruct (m w) as [r w']; simpl in *; subst r. done.
Qed.

Lemma pushes_for {A} T ty (l : list A) f c :
  (forall x, In x l -> pushes T ty (c x) (f x)) -> pushes T ty (sum_list (map c l)) (gfor l f).
Proof.
  induction l as [|x l IH]; intros Hf w HT Hnf; [by apply pushes_ret|]. cbn [gfor map].
  destruct (Hf x (or_introl eq_refl) w HT Hnf) as (H1' & H2 & H3 & H4).
  rewrite gbind_eq. destruct (f x w) as [r w1]; simpl in *; subst r.
  destruct (IH (fun y Hy => Hf y (or_intror Hy)) w1 H2 (no_fault_le _ _ H3 Hnf)) as (I1 & I2 & I3 & I4).
  split_and!; try done; lia.
Qed.

Lemma pushes_for_log {A} T ty (l : list A) f c :
  (forall x, In x l -> pushes T ty (c x) (f x)) -> pushes T ty (sum_list (map c l)) (gfor_log l f).
Proof.
  induction l as [|x l IH]; intros Hf w HT Hnf; [by apply pushes_ret|]. cbn [gfor_log map].
  destruct (Hf x (or_introl eq_refl) w HT Hnf) as (H1' & H2 & H3 & H4).
  rewrite gbind_eq. unfold gtry. destruct (f x w) as [r w1]; simpl in *; subst r.
  destruct (IH (fun y Hy => Hf y (or_intror Hy)) w1 H2 (no_fault_le _ _ H3 Hnf)) as (I1 & I2 & I3 & I4).
  split_and!; try done; lia.
Qed.

Lemma GetTaskByID_found t (w : World (TaskSys R)) :
  ids_ok (table (st w)) -> In t (table (st w)) -> alive t = true -> no_fault_from (calls w) ->
  GetTaskByID (ID t) w = (Ok t, mkWorld (S (calls w)) (st w)).
Proof.
  intros Hok Hin Hal Hnf.
  assert (Hrow : find_one (sql_any (List.filter (fun x => (ID x =? ID t) && alive x) (table (st w)))) = t).
  { assert (Hf : In t (List.filter (fun x => (ID x =? ID t) && alive x) (table (st w))))
      by (apply filter_In; rewrite Z.eqb_refl, Hal; done).
    apply sql_any_In in Hf. destruct (find_one_cases (sql_any
      (List.filter (fun x => (ID x =? ID t) && alive x) (table (st w))))) as [[He _]|Hx].
    - by rewrite He in Hf.
    - apply (proj1 (sql_any_In _ _)), filter_In in Hx as [Hx Hp].
      apply andb_true_iff in Hp as [Hp _]. apply Z.eqb_eq in Hp. by eapply ids_ok_inj. }
  unfold GetTaskByID, GetByID, db_read, gbind, gwrap, gfmt, gext. simpl. nofault. simpl.
  rewrite Hrow. pose proof (ids_ok_pos _ _ Hok Hin).
  destruct (Z.eqb_spec (ID t) 0); [lia|done].
Qed.
End System.
