(* ===== verification/TaskFlow.v ===== *)
(** Functional behaviour of the manager's operations on a failure-free run:
    which rows a timeout check, a saved result or a creation changes, and
    exactly how many wake-up messages each pushes to each queue; the error
    branches of cancellation; and the concrete runs that witness the theorems
    of the task system. *)
From S2P Require Import Prelude TaskModel TaskStore TaskDao TaskQueue TaskRepository TaskManager TaskSystem.

Lemma sum_one_if {A} (b : A -> bool) (l : list A) :
  sum_list (map (fun x => one_if (b x)) l) = length (List.filter b l).
Proof. induction l as [|x l IH]; [done|]. simpl. rewrite IH. by destruct (b x). Qed.

Lemma filter_perm {A} (b : A -> bool) (l l' : list A) :
  Permutation l l' -> Permutation (List.filter b l) (List.filter b l').
Proof.
  induction 1 as [|x l l' _ IH|x y l|l1 l2 l3 _ IH1 _ IH2]; simpl; [done| | |by rewrite IH1].
  - destruct (b x); [by constructor|done].
  - destruct (b x), (b y); try done. apply Permutation_swap.
Qed.

Lemma length_filter_perm {A} (b : A -> bool) (l l' : list A) :
  Permutation l l' -> length (List.filter b l) = length (List.filter b l').
Proof. induction 1; simpl; repeat case_match; simpl; congruence. Qed.

Lemma filter_filter {A} (p q : A -> bool) (l : list A) :
  List.filter p (List.filter q l) = List.filter (fun x => q x && p x) l.
Proof. induction l as [|x l IH]; [done|]. simpl. destruct (q x); simpl; by rewrite IH. Qed.

(** Among distinct names, one is counted once when present. *)
Lemma sum_nodup ty (l : list string) :
  NoDup l -> sum_list (map (fun x => one_if (str_eqb x ty)) l) = one_if (existsb (fun x => str_eqb x ty) l).
Proof.
  induction 1 as [|x l Hni Hnd IH]; [done|]. simpl. rewrite IH. unfold str_eqb in *.
  destruct (String.eqb_spec x ty) as [->|]; [|done]. simpl.
  destruct (existsb _ l) eqn:E; [|done]. exfalso. apply existsb_exists in E as (y & Hy & Heq).
  apply String.eqb_eq in Heq as ->. by apply Hni, list_elem_of_In.
Qed.

Lemma existsb_map {A B} (f : A -> B) p (l : list A) : existsb p (map f l) = existsb (fun x => p (f x)) l.
Proof. induction l; simpl; congruence. Qed.

Lemma existsb_same {A} (p : A -> bool) (l l' : list A) :
  (forall x, In x l <-> In x l') -> existsb p l = existsb p l'.
Proof. intros Hl. apply eq_iff_eq_true. rewrite !existsb_exists.
  split; intros (x & ? & ?); exists x; split; by try apply Hl. Qed.

Section Flow.
Context `{Env} `{SqlEnv} `{!SqlEnvOk _} {R : Type} `{RedisStreamsOk R}.
Variable kp : string.

(** * The timeout check *)
Definition past_deadline (now : Z) (t : TaskEntity) : bool :=
  match StartAt t with
  | Some s => s + Timeout t + 60 * 1000000000 <? now
  | None => false
  end.
Definition expired (now : Z) (t : TaskEntity) : bool := IsRunning t && alive t && past_deadline now t.

Lemma timed_out_deadline now t : timed_out now t = past_deadline now t.
Proof.
  unfold timed_out, past_deadline, HeartbeatTimeout, Second. destruct (StartAt t) as [s|]; [|done].
  destruct (Z.ltb_spec (s + Timeout t) now); simpl; lia.
Qed.
Lemma expired_eq now t : expired now t = IsRunning t && alive t && timed_out now t.
Proof. unfold expired. by rewrite timed_out_deadline. Qed.

Lemma stmt_hits_running t :
  stmt_hits (BuildCondition newStmt (cond_status TaskStatusRunning)) t = IsRunning t && alive t.
Proof. unfold stmt_hits. simpl. by rewrite andb_true_r. Qed.

(** The rows a timeout check selects. *)
Definition running_rows (l : list TaskEntity) : list TaskEntity :=
  stmt_rows (BuildCondition newStmt (cond_status TaskStatusRunning)) l.

Lemma expired_rows_perm now l :
  Permutation (List.filter (timed_out now) (running_rows l)) (List.filter (expired now) l).
Proof.
  assert (Hr : running_rows l = sql_any (List.filter (fun t => IsRunning t && alive t) l)).
  { unfold running_rows, stmt_rows. cbn [orders BuildCondition cond_status]. f_equal.
    apply List.filter_ext, stmt_hits_running. }
  rewrite Hr.
  transitivity (List.filter (timed_out now) (List.filter (fun t => IsRunning t && alive t) l)).
  - assert (Hp := sql_any_perm (List.filter (fun t => IsRunning t && alive t) l)).
    by apply filter_perm.
  - rewrite filter_filter. erewrite List.filter_ext; [reflexivity|]. intros t. symmetry. apply expired_eq.
Qed.

Lemma timeout_update_expired msg now saved l :
  ids_ok l ->
  timeout_update msg (map ID (List.filter (timed_out now) (running_rows l))) now saved l
  = update_where (expired now) (to_timeout msg now saved) l.
Proof.
  intros Hok. apply update_where_ext; [|done]. intros t Ht. rewrite expired_eq. unfold id_in.
  destruct (IsRunning t) eqn:Er, (alive t) eqn:Ea; rewrite ?andb_false_r, ?andb_true_r; try done.
  rewrite existsb_map. destruct (timed_out now t) eqn:Et.
  - apply existsb_exists. exists t. split; [|apply Z.eqb_refl].
    rewrite expired_rows_perm. apply filter_In. split; [done|]. by rewrite expired_eq, Er, Ea, Et.
  - destruct (existsb _ _) eqn:Ex; [|done]. apply existsb_exists in Ex as (x & Hx & Heq).
    rewrite expired_rows_perm in Hx. apply filter_In in Hx as [Hx Hp]. apply Z.eqb_eq in Heq.
    rewrite (ids_ok_inj l t x Hok Ht Hx Heq) in *. rewrite expired_eq in Hp.
    rewrite !andb_true_iff in Hp. destruct Hp as [_ Hp]. congruence.
Qed.

(** After its timeout a task is requeued when it has redos left. *)
Definition requeued (now : Z) (ty : string) (t : TaskEntity) : bool :=
  expired now t && (Redo t + 1 <? MaxRedo t) && str_eqb (TaskType t) ty.

Lemma retry_pushes T ty t :
  ids_ok T -> In t T -> alive t = true ->
  pushes kp T ty (one_if (CanRetry t && str_eqb (TaskType t) ty))
    (let! taskEntity := GetTaskByID (ID t) in retry_callback (R := R) kp taskEntity).
Proof.
  intros Hok Hin Hal w HT Hnf. subst T.
  rewrite gbind_eq, (GetTaskByID_found t w Hok Hin Hal Hnf). cbn [fst snd].
  assert (Hp : pushes kp (table (st w)) ty (one_if (CanRetry t && str_eqb (TaskType t) ty))
                 (retry_callback (R := R) kp t)).
  { unfold retry_callback. destruct (CanRetry t); [by apply pushes_wrap, pushes_push; apply _|apply pushes_ret]. }
  destruct (Hp (mkWorld (S (calls w)) (st w))) as (P1 & P2 & P3 & P4); [done| |].
  { eapply no_fault_le; [|exact Hnf]. simpl; lia. }
  simpl in *. split_and!; try done; lia.
Qed.

Definition timeout_callback (taskID : Z) : M (TaskSys R) unit :=
  let! taskEntity := GetTaskByID taskID in retry_callback kp taskEntity.

Lemma CheckAndTimeoutTasks_run (w : World (TaskSys R)) :
  no_fault_from (calls w) ->
  let now := env_clock (calls w) in
  let ids := map ID (List.filter (timed_out now) (running_rows (table (st w)))) in
  Manager_CheckAndTimeoutTasks kp w =
  match ids with
  | [] => (Ok tt, mkWorld (S (S (calls w))) (st w))
  | _ => gfor_log ids timeout_callback
           (mkWorld (S (S (S (S (calls w)))))
              (with_table (timeout_update heartbeat_lost_msg ids now (env_clock (S (S (calls w))))
                             (table (st w))) (st w)))
  end.
Proof.
  intros Hnf. cbv zeta.
  unfold Manager_CheckAndTimeoutTasks, CheckAndTimeoutTasks, GetListByCond, db_read, db_write.
  rewrite gbind_eq. unfold gnow at 1. cbv beta iota.
  rewrite gbind_eq. unfold gwrap at 1, gfmt. rewrite gext_ok by (simpl; apply Hnf; lia).
  cbn [fst snd st calls]. fold (running_rows (table (st w))).
  destruct (map ID _) as [|i0 ids0]; [done|].
  rewrite gbind_eq. unfold gnow at 1. cbv beta iota.
  rewrite gbind_eq. unfold gwrap at 1. rewrite gext_ok by (simpl; apply Hnf; lia). done.
Qed.

(** The callback loop pushes one message per expired task with redos left. *)
Lemma timeout_loop_pushes now saved l ty :
  ids_ok l ->
  let T := update_where (expired now) (to_timeout heartbeat_lost_msg now saved) l in
  pushes kp T ty (length (List.filter (requeued now ty) l))
    (gfor_log (map ID (List.filter (timed_out now) (running_rows l))) timeout_callback).
Proof.
  intros Hok T. pose proof (expired_rows_perm now l) as Hperm.
  set (rows := List.filter (timed_out now) (running_rows l)) in *.
  assert (HokT : ids_ok T) by (apply (ids_ok_map_ID l); [by apply update_where_ids|done]).
  set (mark := to_timeout heartbeat_lost_msg now saved).
  set (c := fun id => match List.find (fun t => ID t =? id) T with
                      | Some t => one_if (CanRetry t && str_eqb (TaskType t) ty)
                      | None => 0%nat end).
  assert (Hfind : forall t, In t rows -> In (mark t) T /\ List.find (fun x => ID x =? ID t) T = Some (mark t)).
  { intros t Ht. rewrite Hperm in Ht. apply filter_In in Ht as [Ht He].
    assert (Hm : In (mark t) T) by (apply In_update_where; exists t; by rewrite He).
    split; [done|]. destruct (List.find _ T) as [x|] eqn:Ef.
    - apply find_some in Ef as [Hx Heq]. apply Z.eqb_eq in Heq. f_equal. by eapply ids_ok_inj.
    - eapply find_none in Ef; [|exact Hm]. simpl in Ef. by rewrite Z.eqb_refl in Ef. }
  assert (Hsum : length (List.filter (requeued now ty) l) = sum_list (map c (map ID rows))).
  { rewrite map_map, (map_ext_in _ (fun t => one_if ((Redo t + 1 <? MaxRedo t) && str_eqb (TaskType t) ty))).
    - rewrite sum_one_if, (length_filter_perm _ _ _ Hperm), filter_filter. f_equal.
      apply List.filter_ext. intros t. unfold requeued. by rewrite andb_assoc.
    - intros t Ht. unfold c. destruct (Hfind t Ht) as [_ ->]. unfold CanRetry. simpl.
      by rewrite andb_true_r. }
  rewrite Hsum. apply pushes_for_log. intros id Hid. apply in_map_iff in Hid as (t & <- & Ht).
  unfold c. destruct (Hfind t Ht) as [Hm ->].
  change (ID t) with (ID (mark t)). apply retry_pushes; [done|done|].
  rewrite Hperm in Ht. apply filter_In in Ht as [_ He]. unfold expired in He.
  rewrite !andb_true_iff in He. apply He.
Qed.

(** C7: without failures, one timeout check marks exactly the live running
    tasks that have passed start + timeout + 60 s at its clock reading (status,
    message, end time, one more redo), leaves every other row alone, and pushes
    one wake-up to the queue of each marked task that has redos left. *)
Theorem CheckAndTimeoutTasks_spec (w : World (TaskSys R)) :
  ids_ok (table (st w)) -> no_fault_from (calls w) ->
  let now := env_clock (calls w) in
  let w' := snd (Manager_CheckAndTimeoutTasks kp w) in
  fst (Manager_CheckAndTimeoutTasks kp w) = Ok tt /\
  (exists saved, table (st w') =
     update_where (expired now) (to_timeout heartbeat_lost_msg now saved) (table (st w))) /\
  forall ty, qlen kp ty (st w')
             = (qlen kp ty (st w) + length (List.filter (requeued now ty) (table (st w))))%nat.
Proof.
  intros Hok Hnf now. cbv zeta. rewrite (CheckAndTimeoutTasks_run w Hnf). fold now.
  pose proof (expired_rows_perm now (table (st w))) as Hperm.
  destruct (map ID _) as [|i0 ids0] eqn:Eids.
  - assert (Hnil : List.filter (timed_out now) (running_rows (table (st w))) = [])
      by (by destruct (List.filter (timed_out now) (running_rows (table (st w))))).
    rewrite Hnil in Hperm. apply Permutation_nil in Hperm.
    assert (Hno : forall t, In t (table (st w)) -> expired now t = false).
    { intros t Ht. destruct (expired now t) eqn:E; [|done]. exfalso.
      assert (In t []) as []. rewrite <- Hperm. by apply filter_In. }
    simpl. split; [done|]. split; [exists 0; by rewrite update_where_none|].
    intros ty. rewrite filter_nil_iff; [unfold qlen; simpl; lia|].
    intros t Ht. unfold requeued. by rewrite Hno.
  - pose proof (fun saved => timeout_loop_pushes now saved (table (st w))) as Hp.
    rewrite <- Eids, timeout_update_expired by done. set (saved := env_clock _).
    set (w1 := mkWorld _ (with_table _ _)).
    assert (Hc : (calls w <= calls w1)%nat) by (subst w1; simpl; lia).
    assert (Hq := fun ty => Hp saved ty Hok w1 eq_refl (no_fault_le _ _ Hc Hnf)). cbv zeta in Hq.
    split; [apply (Hq ""%string)|]. split; [exists saved; apply (Hq ""%string)|].
    intros ty. by destruct (Hq ty) as (_ & _ & _ & ->).
Qed.

(** * Saving a result *)
Definition next_step_tasks (subjectID : Z) (appGroup : string) (T : list TaskEntity) : list TaskEntity :=
  let all := sql_by_step (workflow subjectID appGroup T) in
  first_open_step (merge_sort Z.le (remove_dups (map Step all))) all.

(** The wake-ups for queue [ty] that follow the saving of [t], the table being
    [T]: its own type again when it can be retried; after a success, every
    type pending in the next step of its workflow, or its own type when it has
    no workflow and more of its type are claimable. *)
Definition flow_pushes (T : list TaskEntity) (t : TaskEntity) (ty : string) : nat :=
  if CanRetry t then one_if (str_eqb (TaskType t) ty)
  else if IsSuccess t then
    if negb (str_eqb (AppGroup t) "")
    then one_if (existsb (fun x => IsPending x && str_eqb (TaskType x) ty)
                   (next_step_tasks (SubjectID t) (AppGroup t) T))
    else one_if (existsb (pending_where (TaskType t) T) T && str_eqb (TaskType t) ty)
  else 0%nat.

Lemma pushes_bind_read {A} T ty n (f : list TaskEntity -> A) (k : A -> M (TaskSys R) unit) p :
  pushes kp T ty n (k (f T)) -> pushes kp T ty n (gbind (gwrap p (db_read f)) k).
Proof.
  intros Hk w HT Hnf. rewrite gbind_eq. unfold gwrap, db_read. rewrite gext_ok by (by apply Hnf).
  cbn [fst snd st calls]. rewrite HT.
  destruct (Hk (mkWorld (S (calls w)) (st w))) as (H1' & H2' & H3 & H4); [done| |].
  { eapply no_fault_le; [|exact Hnf]. simpl; lia. }
  simpl in *. split_and!; try done; lia.
Qed.

Lemma dedup_types_count (l : list TaskEntity) ty :
  sum_list (map (fun x => one_if (str_eqb x ty))
    (map_range (remove_dups (map TaskType (List.filter IsPending l)))))
  = one_if (existsb (fun x => IsPending x && str_eqb (TaskType x) ty) l).
Proof.
  rewrite sum_nodup by (rewrite map_range_perm; apply NoDup_remove_dups). f_equal.
  rewrite (existsb_same _ _ (map TaskType (List.filter IsPending l))).
  - rewrite existsb_map. induction l as [|x l IH]; [done|]. simpl. by destruct (IsPending x); simpl; rewrite IH.
  - intros x. rewrite map_range_In, <- !list_elem_of_In, elem_of_remove_dups. done.
Qed.

Lemma pushes_nextstep T ty t :
  pushes kp T ty (one_if (existsb (fun x => IsPending x && str_eqb (TaskType x) ty)
                   (next_step_tasks (SubjectID t) (AppGroup t) T)))
    (triggerNextStepTaskInTx (R := R) kp t).
Proof.
  intros w HT Hnf.
  assert (Hrun : GetNextStepPendingTaskTypes (R := R) (SubjectID t) (AppGroup t) w =
    (Ok (map_range (remove_dups (map TaskType (List.filter IsPending
        (next_step_tasks (SubjectID t) (AppGroup t) T))))), mkWorld (S (calls w)) (st w))).
  { unfold GetNextStepPendingTaskTypes, GetNextStepTasks, db_read.
    rewrite !gbind_eq. unfold gwrap. rewrite gext_ok by (by apply Hnf). simpl. by rewrite HT. }
  unfold triggerNextStepTaskInTx. rewrite gbind_eq. unfold gwrap at 1 3 5 7. rewrite Hrun.
  rewrite <- dedup_types_count. set (types := map_range _).
  destruct (pushes_for kp T ty types
    (fun taskType => gwrap "failed to push next step task: " (Push (R := R) kp taskType))
    (fun x => one_if (str_eqb x ty))
    (fun x _ => pushes_wrap kp T ty _ _ _ (pushes_push kp T ty x))
    (mkWorld (S (calls w)) (st w)) HT) as (H1' & H2' & H3 & H4).
  { eapply no_fault_le; [|exact Hnf]. simpl; lia. }
  simpl in *. split_and!; try done; lia.
Qed.

Lemma count_pos {A} (p : A -> bool) l : (0 <? Z.of_nat (length (List.filter p l))) = existsb p l.
Proof.
  induction l as [|x l IH]; [done|]. simpl. destruct (p x); simpl; [|done]. by apply Z.ltb_lt; lia.
Qed.

Lemma pushes_normal T ty taskType :
  pushes kp T ty (one_if (existsb (pending_where taskType T) T && str_eqb taskType ty))
    (triggerNextNormalTaskInTx (R := R) kp taskType).
Proof.
  unfold triggerNextNormalTaskInTx, GetPendingTaskCount. apply pushes_bind_read.
  rewrite count_pos. destruct (existsb _ _); [apply pushes_wrap, pushes_push; apply _|apply pushes_ret].
Qed.

Lemma handleTaskFlowInTx_pushes T ty t :
  pushes kp T ty (flow_pushes T t ty) (handleTaskFlowInTx (R := R) kp t).
Proof.
  unfold handleTaskFlowInTx, flow_pushes.
  destruct (CanRetry t); [apply pushes_wrap, pushes_push; apply _|].
  destruct (IsSuccess t); [|apply pushes_ret].
  destruct (negb _); [apply pushes_nextstep|apply pushes_normal].
Qed.

Lemma transaction_ok {A} (body : M (TaskSys R) A) w a w2 :
  no_fault_from (calls w) -> body (mkWorld (S (calls w)) (st w)) = (Ok a, w2) ->
  (S (calls w) <= calls w2)%nat ->
  transaction body w = (Ok a, mkWorld (S (calls w2)) (st w2)).
Proof.
  intros Hnf Hb Hle. unfold transaction. rewrite gbind_eq, gext_ok by (by apply Hnf).
  cbn [fst snd]. rewrite gbind_eq, Hb. rewrite gext_ok by (apply Hnf; lia). done.
Qed.

(** What a saved result says: the status by the execution error, one more redo
    unless it succeeded, the end time, and the result or the message. *)
Definition outcome_status (execErr : option error) : string :=
  match execErr with
  | None => TaskStatusSuccess
  | Some e => if bool_decide (e = DeadlineExceeded) then TaskStatusTimeout else TaskStatusFailed
  end.
Definition reports (result : string) (execErr : option error) (now : Z) (t0 t : TaskEntity) : Prop :=
  ID t = ID t0 /\ TaskStatus t = outcome_status execErr /\ EndAt t = Some now /\
  Redo t = (match execErr with None => Redo t0 | Some _ => wrap_i64 (Redo t0 + 1) end) /\
  match execErr with None => Result t = toJSON result | Some _ => Result t = Result t0 end.

Lemma mark_result_reports now saved result execErr t :
  reports result execErr now t (set_UpdatedAt saved (mark_result now result execErr t)).
Proof.
  unfold reports, outcome_status, mark_result, TaskModel.MarkAsSuccess, MarkAsFailed, MarkAsTimeout, stamp_cost.
  destruct execErr as [e|]; [destruct (bool_decide _)|]; destruct (StartAt _); done.
Qed.

(** C6: without failures, [SaveTaskResult] on a live task succeeds: the row
    becomes the task marked as succeeded, timed out or failed according to the
    execution error, every other row is left alone, and each queue receives
    exactly the wake-ups of [flow_pushes]. *)
Theorem SaveTaskResult_spec result execErr t0 (w : World (TaskSys R)) :
  ids_ok (table (st w)) -> no_fault_from (calls w) -> In t0 (table (st w)) -> alive t0 = true ->
  let w' := snd (SaveTaskResult kp (ID t0) result execErr None w) in
  fst (SaveTaskResult kp (ID t0) result execErr None w) = Ok tt /\
  exists now saved,
    let t := set_UpdatedAt saved (mark_result now result execErr t0) in
    reports result execErr now t0 t /\
    table (st w') = update_where (fun x => ID x =? ID t0) (fun _ => t) (table (st w)) /\
    forall ty, qlen kp ty (st w') = (qlen kp ty (st w) + flow_pushes (table (st w')) t ty)%nat.
Proof.
  intros Hok Hnf Hin Hal. cbv zeta.
  set (now := env_clock (S (S (calls w)))). set (saved := env_clock (S (S (S (calls w))))).
  set (t := set_UpdatedAt saved (mark_result now result execErr t0)).
  set (T := update_where (fun x => ID x =? ID t0) (fun _ => t) (table (st w))).
  set (w1 := mkWorld (S (S (S (S (S (calls w)))))) (with_table T (st w))).
  assert (Hnf1 : no_fault_from (calls w1)) by (eapply no_fault_le; [|exact Hnf]; simpl; lia).
  assert (Hflow : forall ty, pushes kp T ty (flow_pushes T t ty)
     (gwrap "failed to handle task flow: " (handleTaskFlowInTx (R := R) kp t)))
    by (intros ty; apply pushes_wrap, handleTaskFlowInTx_pushes).
  destruct (Hflow ""%string w1 eq_refl Hnf1) as (F1 & F2 & F3 & _).
  assert (Hrun : SaveTaskResult kp (ID t0) result execErr None w =
    (Ok tt, mkWorld (S (calls (snd (gwrap "failed to handle task flow: " (handleTaskFlowInTx kp t) w1))))
              (st (snd (gwrap "failed to handle task flow: " (handleTaskFlowInTx kp t) w1))))).
  { unfold SaveTaskResult. rewrite gbind_eq. erewrite transaction_ok; [reflexivity|done| |].
    - rewrite gbind_eq. unfold gwrap at 1. rewrite GetTaskByID_found; try done.
      2: { eapply no_fault_le; [|exact Hnf]. simpl; lia. }
      cbn [calls st]. rewrite gbind_eq. unfold gnow at 1. cbn [calls st]. rewrite gbind_eq.
      unfold gnow at 1. cbn [calls st]. fold now saved. rewrite gbind_eq. unfold gwrap at 1, db_write.
      rewrite gext_ok by (simpl; apply Hnf; lia). cbn [fst snd calls st].
      rewrite (save_row_live _ _ _ t0) by
        (try done; by destruct (mark_result_fields now result execErr t0) as [-> _]).
      fold t T w1. rewrite (surjective_pairing (gwrap _ _ w1)). by rewrite F1.
    - simpl in *. lia. }
  rewrite Hrun. simpl. split; [done|]. exists now, saved. fold t T. rewrite F2.
  split; [apply mark_result_reports|]. split; [done|].
  intros ty. by destruct (Hflow ty w1 eq_refl Hnf1) as (_ & _ & _ & ->).
Qed.

(** * Creation *)
Definition ids_below (s : TaskSys R) : Prop := Forall (fun t => ID t < Zpos (auto_id s)) (table s).

Lemma create_rows_total now es id l :
  Forall (fun e => ID e = 0) es -> 0 < id -> Forall (fun t => ID t < id) l ->
  exists l' id', create_rows now id es l = Some (l', id') /\ 0 < id' /\ Forall (fun t => ID t < id') l'.
Proof.
  revert id l. induction es as [|e es IH]; intros id l Hes Hid Hl; simpl; [eauto|].
  apply Forall_cons_1 in Hes as [He Hes]. unfold nz. rewrite He. simpl.
  destruct (existsb _ l) eqn:Ex.
  - apply existsb_exists in Ex as (x & Hx & Heq). rewrite Forall_forall in Hl.
    apply list_elem_of_In, Hl in Hx. lia.
  - apply IH; [done|lia|]. apply Forall_app. split.
    + eapply Forall_impl; [exact Hl|]. simpl; intros; lia.
    + constructor; [|constructor]. simpl. unfold nz. rewrite He. simpl. lia.
Qed.

Lemma create_batches_ok bs (w : World (TaskSys R)) :
  Forall (fun e => ID e = 0) (concat bs) -> ids_below (st w) -> no_fault_from (calls w) ->
  exists created w', create_batches bs w = (Ok created, w') /\ redis (st w') = redis (st w) /\
    (calls w <= calls w')%nat.
Proof.
  revert w. induction bs as [|b bs IH]; intros w Hbs Hb Hnf; [by exists [], w|].
  simpl in Hbs. apply Forall_app in Hbs as [Hb0 Hbs]. cbn [create_batches].
  rewrite gbind_eq. unfold gnow at 1. rewrite gbind_eq. unfold db_create at 1.
  rewrite gextr_ok by (simpl; apply Hnf; lia). cbn [fst snd st calls].
  destruct (create_rows_total (env_clock (calls w)) b (Zpos (auto_id (st w))) (table (st w)))
    as (l' & id' & Hc & Hid' & Hl'); [done|lia|done|]. rewrite Hc. cbn [fst snd].
  rewrite gbind_eq.
  destruct (IH (mkWorld (S (S (calls w))) (mkSys l' (Z.to_pos id') (redis (st w)))))
    as (created & w' & Hcr & Hr & Hle); [done| | |].
  - unfold ids_below. simpl. by rewrite Z2Pos.id.
  - eapply no_fault_le; [|exact Hnf]. simpl; lia.
  - rewrite Hcr. simpl in *. do 2 eexists. split; [reflexivity|]. split; [done|lia].
Qed.

Lemma CreateTasks_ok tasks (w : World (TaskSys R)) :
  Forall (fun t => Validate t = None) tasks -> Forall (fun e => ID e = 0) tasks ->
  ids_below (st w) -> no_fault_from (calls w) ->
  exists created w', CreateTasks tasks w = (Ok created, w') /\ redis (st w') = redis (st w) /\
    (calls w <= calls w')%nat.
Proof.
  intros Hv Hid Hb Hnf. unfold CreateTasks. destruct tasks as [|t ts]; [by exists [], w|].
  rewrite (proj2 (validate_all_spec _) Hv). set (es := map default_status (t :: ts)).
  assert (Hes : Forall (fun e => ID e = 0) es).
  { apply Forall_map. eapply Forall_impl; [exact Hid|]. intros x Hx. by rewrite default_status_ID. }
  assert (Hc : concat (batches (length es) 100 es) = es) by (apply concat_batches; lia).
  unfold CreateInBatches. destruct (Nat.leb _ _).
  - apply create_batches_ok; [by rewrite Hc|done|done].
  - destruct (create_batches_ok (batches (length es) 100 es) (mkWorld (S (calls w)) (st w)))
      as (created & w' & Hcr & Hr & Hle); [by rewrite Hc|done| |].
    { eapply no_fault_le; [|exact Hnf]. simpl; lia. }
    erewrite transaction_ok; [|done|exact Hcr|exact Hle]. do 2 eexists. split; [reflexivity|].
    simpl in *. split; [done|lia].
Qed.

(** A task of the first step with type [ty]. *)
Definition first_step_of (tasks : list TaskEntity) (ty : string) (e : TaskEntity) : bool :=
  forallb (fun x => Step e <=? Step x) tasks && str_eqb (TaskType e) ty.

Lemma stored_fields e r : stored (default_status e) r -> Step r = Step e /\ TaskType r = TaskType e.
Proof.
  intros (now & id & ->). simpl. unfold default_status. by destruct (str_eqb (TaskStatus e) "").
Qed.

(** In step order the head's step is the least one. *)
Lemma first_step_sorted l a ty e :
  StronglySorted (fun x y => Step x <= Step y) (a :: l) -> In e (a :: l) ->
  first_step_of (a :: l) ty e = (Step e =? Step a) && str_eqb (TaskType e) ty.
Proof.
  intros Hs Hin. inversion Hs as [|? ? _ Ha]; subst. rewrite Forall_forall in Ha.
  assert (Hle : forall x, In x (a :: l) -> Step a <= Step x).
  { intros x [<-|Hx]; [lia|]. by apply Ha, list_elem_of_In. }
  unfold first_step_of. f_equal. apply eq_iff_eq_true. rewrite forallb_forall, Z.eqb_eq. split.
  - intros Hall. specialize (Hall a (or_introl eq_refl)). specialize (Hle e Hin). lia.
  - intros Heq x Hx. specialize (Hle x Hx). lia.
Qed.

Lemma first_step_perm l l' ty e : Permutation l l' -> first_step_of l ty e = first_step_of l' ty e.
Proof.
  intros Hp. unfold first_step_of. f_equal. apply eq_iff_eq_true. rewrite !forallb_forall.
  split; intros Hf x Hx; apply Hf; revert Hx; apply Permutation_in; [|symmetry]; done.
Qed.

Lemma count_stored es created (p q : TaskEntity -> bool) :
  Forall2 stored (map default_status es) created ->
  (forall e r, In e es -> stored (default_status e) r -> p r = q e) ->
  length (List.filter p created) = length (List.filter q es).
Proof.
  revert created. induction es as [|e es IH]; intros created Hf Hpq; simpl in Hf.
  - by inversion Hf.
  - inversion Hf as [|? r ? rs Hr Hrs]; subst. simpl.
    rewrite (Hpq e r) by (done || by left).
    assert (length (List.filter p rs) = length (List.filter q es))
      by (apply IH; [done|]; intros; apply Hpq; [by right|done]).
    destruct (q e); simpl; congruence.
Qed.

(** C8: without failures, creating valid new tasks succeeds: the table is
    extended by one row per task (in some step order), with default status,
    fresh ids and default redo budget, and each queue receives one wake-up per
    task of its type in the lowest step, and none for later steps. *)
Theorem CreateTasks_spec tasks (w : World (TaskSys R)) :
  Forall (fun t => Validate t = None) tasks -> Forall (fun e => ID e = 0) tasks ->
  ids_ok (table (st w)) -> ids_below (st w) -> no_fault_from (calls w) ->
  let w' := snd (Manager_CreateTasks kp tasks w) in
  fst (Manager_CreateTasks kp tasks w) = Ok tt /\
  (exists order created, Permutation order tasks /\
     Forall2 stored (map default_status order) created /\
     table (st w') = table (st w) ++ created /\ ids_ok (table (st w'))) /\
  forall ty, qlen kp ty (st w')
             = (qlen kp ty (st w) + length (List.filter (first_step_of tasks ty) tasks))%nat.
Proof.
  intros Hv Hid Hok Hb Hnf. cbv zeta. unfold Manager_CreateTasks.
  destruct tasks as [|t0 ts].
  { simpl. split; [done|]. split; [|intros; lia]. exists [], []. by rewrite app_nil_r. }
  set (tasks := t0 :: ts) in *. set (order := slice_by_step tasks).
  assert (Hperm : Permutation order tasks) by apply slice_by_step_perm.
  destruct (CreateTasks_ok order w) as (created & w1 & Hc & Hr1 & Hle1);
    [by rewrite Hperm|by rewrite Hperm|done|done|].
  pose proof (CreateTasks_effect order w (Ok created) w1 Hok) as Heff.
  specialize (Heff ltac:(rewrite Hperm; eapply Forall_impl; [exact Hid|]; simpl; intros; lia) Hc).
  destruct Heff as (Hok1 & Ht1 & _ & Hst).
  rewrite gbind_eq. unfold gwrap. rewrite Hc.
  pose proof (slice_by_step_sorted tasks) as Hsort. fold order in Hsort.
  destruct order as [|a rest] eqn:Eo.
  { apply Permutation_nil in Hperm. subst tasks. done. }
  inversion Hst as [|? c0 ? cs Hs0 Hss]; subst. cbn [hd].
  destruct (stored_fields _ _ Hs0) as [Hstep _]. rewrite Hstep.
  assert (Hp : forall ty, pushes kp (table (st w1)) ty
     (sum_list (map (fun t => one_if ((Step t =? Step a) && str_eqb (TaskType t) ty)) (c0 :: cs)))
     (gfor (c0 :: cs) (push_first_step (R := R) kp (Step a)))).
  { intros ty. apply pushes_for. intros t _. unfold push_first_step.
    destruct (Step t =? Step a); [apply pushes_wrap, pushes_push; apply _|apply pushes_ret]. }
  assert (Hnf1 : no_fault_from (calls w1)) by (by eapply no_fault_le).
  destruct (Hp ""%string w1 eq_refl Hnf1) as (P1 & P2 & _ & _).
  split; [done|]. split.
  - exists (a :: rest), (c0 :: cs). rewrite P2. split_and!; done.
  - intros ty. destruct (Hp ty w1 eq_refl Hnf1) as (_ & _ & _ & ->).
    rewrite sum_one_if. unfold qlen at 1. rewrite Hr1. f_equal.
    rewrite <- (length_filter_perm _ _ _ Hperm).
    apply (count_stored (a :: rest)); [done|]. intros e r Hin Hsr.
    destruct (stored_fields _ _ Hsr) as [-> ->]. symmetry.
    rewrite (first_step_perm _ _ _ _ (Permutation_sym Hperm)). by apply first_step_sorted.
Qed.
End Flow.
