(* ===== verification/TaskWorker.v ===== *)
(** [src/task/worker]: the executor registry (executor.go), the configuration
    (config.go), the worker with its consuming routines, the execution of one
    task and the health report (worker.go), against the [WorkManager] interface
    it calls; and the adapter of [src/task/example/main.go] that implements the
    interface with the manager. *)
From S2P Require Import Prelude TaskModel TaskStore TaskDao TaskQueue TaskRepository TaskManager TaskSystem.

(** * Configuration *)
Definition ErrEmptyWorkerID : error := ErrVar "task: worker id cannot be empty".
Definition ErrWorkerTimeout : error := ErrVar "task: invalid timeout".
Definition ErrInvalidMaxRedo : error := ErrVar "task: invalid max redo".
Definition ErrInvalidMaxConcurrency : error := ErrVar "task: invalid max concurrency".
Definition ErrWorkerNotStarted : error := ErrVar "task: worker not started".
Definition ErrWorkerAlreadyStarted : error := ErrVar "task: worker already started".
Definition ErrInvalidHealthReportInterval : error := ErrVar "task: invalid health report interval".

Record WorkerConfig : Type := mkWorkerConfig {
  wc_Timeout : Z;
  wc_MaxRedo : Z;
  wc_MaxConcurrency : Z;
  wc_WorkerID : string;
  wc_HealthReportInterval : Z;
}.

Definition DefaultWorkerConfig : WorkerConfig := mkWorkerConfig (10 * Minute) 3 5 "" 0.

Definition WorkerConfig_Validate (c : WorkerConfig) : option error :=
  if str_eqb c.(wc_WorkerID) "" then Some ErrEmptyWorkerID
  else if c.(wc_Timeout) <=? 0 then Some ErrWorkerTimeout
  else if c.(wc_MaxRedo) <? 0 then Some ErrInvalidMaxRedo
  else if c.(wc_MaxConcurrency) <=? 0 then Some ErrInvalidMaxConcurrency
  else if c.(wc_HealthReportInterval) <? 0 then Some ErrInvalidHealthReportInterval
  else None.

(** * Executors and their registry *)
Record TaskInfo : Type := mkTaskInfo {
  ti_TaskID : Z; ti_TaskType : string; ti_Payload : string; ti_Timeout : Z;
  ti_AppGroup : string; ti_SubjectID : Z; ti_Redo : Z; ti_MaxRedo : Z;
}.
Definition zeroTaskInfo : TaskInfo := mkTaskInfo 0 "" "" 0 "" 0 0 0.

(** The methods the worker calls; a nil error is [None]. *)
Record TaskExecutor (S : Type) : Type := mkExecutor {
  Execute : G S (option error);
  GetResult : G S string;
  OnSuccess : G S (option error);
  OnFailure : G S (option error);
}.
Arguments mkExecutor {S}.
Arguments Execute {S}.
Arguments GetResult {S}.
Arguments OnSuccess {S}.
Arguments OnFailure {S}.

Definition ExecutorFactory (S : Type) : Type := string -> G S (Res (TaskExecutor S)).

Record ExecutorRegistry (S : Type) : Type := mkRegistry {
  executors : gmap string (ExecutorFactory S);
  concurrencyMap : gmap string Z;
}.
Arguments mkRegistry {S}.
Arguments executors {S}.
Arguments concurrencyMap {S}.

Section Registry.
Context {S : Type} `{SqlEnv}.

Definition NewExecutorRegistry : ExecutorRegistry S := mkRegistry ∅ ∅.
Definition Register (taskType : string) (factory : ExecutorFactory S) (r : ExecutorRegistry S) :=
  mkRegistry (<[taskType := factory]> r.(executors)) r.(concurrencyMap).
Definition RegisterWithConcurrency (taskType : string) (factory : ExecutorFactory S) (concurrency : Z)
    (r : ExecutorRegistry S) :=
  mkRegistry (<[taskType := factory]> r.(executors)) (<[taskType := concurrency]> r.(concurrencyMap)).
Definition Get (taskType : string) (r : ExecutorRegistry S) : option (ExecutorFactory S) :=
  r.(executors) !! taskType.
Definition GetConcurrency (taskType : string) (defaultConcurrency : Z) (r : ExecutorRegistry S) : Z :=
  default defaultConcurrency (r.(concurrencyMap) !! taskType).
(** The keys, in the iteration order of the map. *)
Definition GetAll (r : ExecutorRegistry S) : list string :=
  map_range (map fst (map_to_list r.(executors))).
End Registry.

(** * The manager a worker needs *)
Class WorkManager (S : Type) : Type := {
  wm_GetNextTask : string -> string -> G S (Res TaskInfo);
  wm_SaveTaskResult : string -> TaskInfo -> string -> option error ->
                      option (G S (option error)) -> G S (option error);
  wm_InitTaskDBStatus : G S (option error);
  (** [ctx.Err()] of the worker's context. *)
  ctx_Err : S -> option error;
}.

(** * The worker *)
Record Worker (S : Type) : Type := mkWorker {
  w_config : WorkerConfig;
  registry : ExecutorRegistry S;
  healthReporter : bool;
  w_svc : Service;
}.
Arguments mkWorker {S}.
Arguments w_config {S}.
Arguments registry {S}.
Arguments healthReporter {S}.
Arguments w_svc {S}.

(** What a health report carries. *)
Record WorkerHealth : Type := mkWorkerHealth {
  wh_WorkerID : string; wh_Timestamp : Z; wh_TaskTypes : list string; wh_Status : string;
}.

Section Worker.
Context {S : Type} `{SqlEnv}.

Definition NewWorker (config : WorkerConfig) (mgr : bool) : Res (Worker S) :=
  match WorkerConfig_Validate config with
  | Some e => Err e
  | None => if mgr then Ok (mkWorker config NewExecutorRegistry false newService)
            else Err (ErrNew "manager is required")
  end.

(** [opts] are the values given to [WithConcurrency], applied in order. *)
Definition RegisterExecutor (taskType : string) (factory : ExecutorFactory S) (opts : list Z)
    (w : Worker S) : Worker S :=
  let maxConcurrency := fold_left (fun _ n => n) opts w.(w_config).(wc_MaxConcurrency) in
  mkWorker w.(w_config) (RegisterWithConcurrency taskType factory maxConcurrency w.(registry))
    w.(healthReporter) w.(w_svc).

Definition SetHealthReporter (reporter : bool) (w : Worker S) : Worker S :=
  mkWorker w.(w_config) w.(registry) reporter w.(w_svc).

(** [worker-<type>-<i>] for [i] below the concurrency of the type. *)
Definition routine_names (w : Worker S) (taskType : string) : list string :=
  map (fun i => ("worker-" ++ taskType ++ "-" ++ fmt_d (Z.of_nat i))%string)
    (seq 0 (Z.to_nat (GetConcurrency taskType w.(w_config).(wc_MaxConcurrency) w.(registry)))).

Definition reports_health (w : Worker S) : bool :=
  w.(healthReporter) && (0 <? w.(w_config).(wc_HealthReportInterval)).

(** [Start]: the names of the routines it launches. *)
Definition Worker_Start (w : Worker S) : Res (list string) * Worker S :=
  let names := flat_map (routine_names w) (GetAll w.(registry)) ++
               (if reports_health w then ["health-reporter"] else []) in
  let '(r, s) := service_start ErrWorkerAlreadyStarted (length names) w.(w_svc) in
  (match r with Ok _ => Ok names | Err e => Err e end,
   mkWorker w.(w_config) w.(registry) w.(healthReporter) s).

Definition Worker_Stop (done : bool) (left : nat) (w : Worker S) : Res unit * Worker S :=
  let '(r, s) := service_stop ErrWorkerNotStarted done left w.(w_svc) in
  (r, mkWorker w.(w_config) w.(registry) w.(healthReporter) s).

Definition reportHealthOnce `{Env} (ReportHealth : WorkerHealth -> G S (option error)) (w : Worker S) :
    G S unit :=
  let* now := plift gnow in
  let* _ := ReportHealth (mkWorkerHealth w.(w_config).(wc_WorkerID)
              (match now with Ok t => t | Err _ => 0 end) (GetAll w.(registry)) "running") in
  pret tt.

(** * Running one task *)
Context `{!WorkManager S}.
Variable w : Worker S.
Abbreviation workerID := (w.(w_config).(wc_WorkerID)).

Definition read_ctx : G S (option error) := fun x => (Val (ctx_Err (st x)), x).

Definition doExecute (executor : TaskExecutor S) : G S (option error) :=
  precover executor.(Execute) (fun r => Some (ErrNew ("task panic: " ++ r))).

(** The error reported and the callback, from the error of [Execute] and
    [ctx.Err()]. *)
Definition choose_callback (executor : TaskExecutor S) (execErr cerr : option error) :
    option error * G S (option error) :=
  let expired := bool_decide (cerr = Some DeadlineExceeded) in
  if bool_decide (execErr = None) && negb expired then (execErr, executor.(OnSuccess))
  else (if expired then Some DeadlineExceeded else execErr, executor.(OnFailure)).

Definition executeTask (info : TaskInfo) : G S unit :=
  if info.(ti_TaskID) =? 0 then pret tt
  else
    match Get info.(ti_TaskType) w.(registry) with
    | None =>
        let* _ := wm_SaveTaskResult workerID info "" (Some (ErrNew "executor not found")) None in
        pret tt
    | Some factory =>
        let* executor := factory info.(ti_Payload) in
        match executor with
        | Err e =>
            let* _ := wm_SaveTaskResult workerID info ""
                        (Some (ErrWrap "create executor failed: " e)) None in
            pret tt
        | Ok executor =>
            let* execErr := doExecute executor in
            let* result := executor.(GetResult) in
            let* cerr := read_ctx in
            let '(execErr, callback) := choose_callback executor execErr cerr in
            let* _ := wm_SaveTaskResult workerID info result execErr (Some callback) in
            pret tt
        end
    end.

Definition processOneTask (taskType : string) : G S unit :=
  let* r := wm_GetNextTask taskType workerID in
  match r with
  | Err _ => pret tt
  | Ok taskInfo => if taskInfo.(ti_TaskID) =? 0 then pret tt else executeTask taskInfo
  end.

(** [workRoutine], [fuel] rounds of it: the answer says whether it returned. *)
Fixpoint workRoutine (fuel : nat) (taskType : string) : G S bool :=
  match fuel with
  | O => pret false
  | Datatypes.S fuel =>
      let* cerr := read_ctx in
      match cerr with
      | Some _ => pret true
      | None => let* _ := processOneTask taskType in workRoutine fuel taskType
      end
  end.
End Worker.

(** * What the worker reports *)
Record SaveCall : Type := mkCall {
  c_worker : string; c_info : TaskInfo; c_result : string; c_err : option error;
}.

(** A manager that keeps a history of the results it is given; code that is
    [quiet] leaves the history alone. *)
Class SaveHistory (S : Type) `{WorkManager S} : Type := {
  history : S -> list SaveCall;
  quiet {A} (m : G S A) : Prop := forall x, history (after m x) = history (st x);
  save_recorded : forall wid info r e cb x, (forall c, cb = Some c -> quiet c) ->
    history (after (wm_SaveTaskResult wid info r e cb) x)
      = history (st x) ++ [mkCall wid info r e];
}.

Section Reports.
Context {S : Type} `{SqlEnv} `{SaveHistory S}.
Variable w : Worker S.
Implicit Types (x : World S).

(** Executors that do not call the manager themselves. *)
Definition quiet_executor (e : TaskExecutor S) : Prop :=
  quiet e.(Execute) /\ quiet e.(GetResult) /\ quiet e.(OnSuccess) /\ quiet e.(OnFailure) /\
  forall x, exists r, fst (e.(GetResult) x) = Val r.

Definition quiet_factory (f : ExecutorFactory S) : Prop :=
  forall p, quiet (f p) /\ forall x, exists r, fst (f p x) = Val r /\
    forall e, r = Ok e -> quiet_executor e.

(** The run of a task went well: its factory made an executor, [Execute]
    returned nil without panicking, and the context had not expired when the
    result was read. *)
Definition run_succeeds (info : TaskInfo) (x : World S) : Prop :=
  exists f e x1 x2 r x3,
    Get info.(ti_TaskType) w.(registry) = Some f /\ f info.(ti_Payload) x = (Val (Ok e), x1) /\
    e.(Execute) x1 = (Val None, x2) /\ e.(GetResult) x2 = (Val r, x3) /\
    ctx_Err (st x3) <> Some DeadlineExceeded.

Lemma quiet_doExecute e : quiet e.(Execute) -> quiet (doExecute e).
Proof.
  intros Hq x. specialize (Hq x). unfold after, doExecute, precover in *.
  by destruct (Execute e x) as [[]].
Qed.

Lemma doExecute_val e x : exists o, fst (doExecute e x) = Val o.
Proof. unfold doExecute, precover. destruct (Execute e x) as [[]]; simpl; eauto. Qed.

(** [m ;; return] ends in the state of [m]. *)
Lemma after_then {A B} (m : G S A) (b : B) x : after (let* _ := m in pret b) x = after m x.
Proof. unfold after, pbind. by destruct (m x) as [[]]. Qed.

Lemma choose_callback_spec e o cerr :
  quiet_executor e -> quiet (snd (choose_callback e o cerr)) /\
  (fst (choose_callback e o cerr) = None <-> o = None /\ cerr <> Some DeadlineExceeded).
Proof.
  intros (_ & _ & Hs & Hf & _). unfold choose_callback.
  destruct (decide (o = None)) as [->|Ho]; [|rewrite (bool_decide_eq_false_2 _ Ho)];
    destruct (decide (cerr = Some DeadlineExceeded)) as [->|Hc];
    try rewrite (bool_decide_eq_false_2 _ Hc); simpl; (split; [done|]); intuition congruence.
Qed.

(** The part of [executeTask] after the executor exists. *)
Lemma run_executor_saves info f e x x1 :
  quiet_executor e -> (ti_TaskID info =? 0) = false ->
  Get (ti_TaskType info) (registry w) = Some f ->
  f (ti_Payload info) x = (Val (Ok e), x1) -> history (st x1) = history (st x) ->
  exists r err, history (after (executeTask w info) x)
      = history (st x) ++ [mkCall w.(w_config).(wc_WorkerID) info r err] /\
    (err = None <-> run_succeeds info x).
Proof.
  intros Hq Hid Hf Hrun Hh. pose proof Hq as (Hq1 & Hq2 & _ & _ & Hg).
  unfold after, executeTask. rewrite Hid, Hf, pbind_eq, Hrun, pbind_eq.
  pose proof (quiet_doExecute e Hq1 x1) as Hd. destruct (doExecute_val e x1) as [o Ho].
  unfold after in Hd. destruct (doExecute e x1) as [ro x2] eqn:Ed. simpl in *. subst ro.
  rewrite pbind_eq. specialize (Hq2 x2). destruct (Hg x2) as [r Hr]. unfold after in Hq2.
  destruct (GetResult e x2) as [rr x3] eqn:Eg. simpl in *. subst rr.
  rewrite pbind_eq. unfold read_ctx.
  destruct (choose_callback_spec e o (ctx_Err (st x3)) Hq) as [Hcb Herr].
  destruct (choose_callback e o (ctx_Err (st x3))) as [err cb]. simpl in *.
  fold (after (let* _ := wm_SaveTaskResult (wc_WorkerID (w_config w)) info r err (Some cb) in pret tt) x3).
  rewrite after_then, save_recorded; [|by intros c [= <-]].
  exists r, err. split; [congruence|]. rewrite Herr. unfold doExecute, precover in Ed. split.
  - intros [-> Hc]. exists f, e, x1, x2, r, x3. split_and!; try done.
    destruct (Execute e x1) as [[]]; by simplify_eq.
  - intros (f' & e' & x1' & x2' & r' & x3' & Hf' & Hr' & Hx' & Hg' & Hc).
    rewrite Hf in Hf'. simplify_eq. rewrite Hrun in Hr'. simplify_eq.
    rewrite Hx' in Ed. simplify_eq. rewrite Hg' in Eg. simplify_eq. done.
Qed.

(** C15: executing a claimed task tells the manager exactly one result for it,
    whatever happens: no executor, a failing factory, a failing or panicking
    [Execute], an expired context; the reported error is nil exactly when the
    run went well. *)
Theorem executeTask_saves_once info x :
  ti_TaskID info <> 0 ->
  (forall f, Get info.(ti_TaskType) w.(registry) = Some f -> quiet_factory f) ->
  exists r err, history (after (executeTask w info) x)
      = history (st x) ++ [mkCall w.(w_config).(wc_WorkerID) info r err] /\
    (err = None <-> run_succeeds info x).
Proof.
  intros Hid Hq. apply Z.eqb_neq in Hid.
  destruct (Get (ti_TaskType info) (registry w)) as [f|] eqn:Ef.
  - destruct (Hq f eq_refl (ti_Payload info)) as [Hqf Hf]. specialize (Hqf x).
    destruct (Hf x) as (r & Hr & He). unfold after in Hqf.
    destruct (f (ti_Payload info) x) as [rr x1] eqn:Efx. simpl in *. subst rr.
    destruct r as [e|err].
    + eapply run_executor_saves; eauto.
    + exists ""%string, (Some (ErrWrap "create executor failed: " err)).
      unfold executeTask. rewrite Hid, Ef. unfold after. rewrite pbind_eq, Efx.
      fold (after (let* _ := wm_SaveTaskResult (wc_WorkerID (w_config w)) info ""
              (Some (ErrWrap "create executor failed: " err)) None in pret tt) x1).
      rewrite after_then, save_recorded by done. split; [congruence|]. split; [done|].
      intros (f' & e' & x1' & x2' & r' & x3' & Hf' & Hr' & _).
      assert (f' = f) as -> by congruence. congruence.
  - exists ""%string, (Some (ErrNew "executor not found")).
    unfold executeTask. rewrite Hid, Ef, after_then, save_recorded by done.
    split; [done|]. split; [done|]. intros (f' & ? & ? & ? & ? & ? & Hf' & _). simplify_eq.
Qed.
End Reports.

(** * Starting and stopping *)
Inductive wop : Type := WStart | WStop (done : bool) (left : nat).

Section StartStop.
Context {S : Type} `{SqlEnv} `{!SqlEnvOk _}.
Implicit Types (w : Worker S).

Definition run_wop (w : Worker S) (o : wop) : Worker S :=
  match o with
  | WStart => snd (Worker_Start w)
  | WStop d l => snd (Worker_Stop d l w)
  end.

(** The routines one start launches: the concurrency of every registered type
    and one for the health report. *)
Definition launched (w : Worker S) : nat :=
  (sum_list (map (fun p => Z.to_nat (GetConcurrency (fst p) w.(w_config).(wc_MaxConcurrency) w.(registry)))
     (map_to_list w.(registry).(executors)))
   + if reports_health w then 1 else 0)%nat.

Lemma length_flat_map {A B} (f : A -> list B) l :
  length (flat_map f l) = sum_list (map (fun x => length (f x)) l).
Proof. induction l; simpl; [done|]. rewrite length_app. lia. Qed.

Lemma sum_list_perm (l l' : list nat) : Permutation l l' -> sum_list l = sum_list l'.
Proof. induction 1; simpl; lia. Qed.

Lemma start_names w :
  started (w_svc w) = false ->
  exists names, fst (Worker_Start w) = Ok names /\ length names = launched w /\
  w_svc (snd (Worker_Start w)) = mkService true true (routines (w_svc w) + launched w).
Proof.
  intros Hs. unfold Worker_Start, service_start. rewrite Hs. simpl.
  assert (Hl : length (flat_map (routine_names w) (GetAll (registry w)) ++
       (if reports_health w then ["health-reporter"] else [])) = launched w).
  { rewrite length_app, length_flat_map. unfold launched. f_equal; [|by destruct (reports_health w)].
    unfold GetAll. rewrite map_range_perm, map_map.
    erewrite map_ext; [reflexivity|]. intros [t f]. unfold routine_names.
    by rewrite length_map, length_seq. }
  eexists. split; [reflexivity|]. split; [exact Hl|]. by rewrite Hl.
Qed.

Lemma run_wop_config o w :
  w_config (run_wop w o) = w_config w /\ registry (run_wop w o) = registry w /\
  healthReporter (run_wop w o) = healthReporter w.
Proof.
  destruct o; simpl; unfold Worker_Start, Worker_Stop.
  - by destruct (service_start _ _ _).
  - by destruct (service_stop _ _ _ _).
Qed.

(** Through any sequence of starts and stops (refused ones included) in
    which every stop that is accepted sees its routines end within its 30 s, a
    worker runs no routine while stopped and, while started, exactly the
    concurrency of each registered type plus one for the health report. *)
Theorem worker_routines_bounded ops w0 :
  w_svc w0 = newService ->
  Forall (fun o => forall d l, o = WStop d l -> d = true) ops ->
  let w := fold_left run_wop ops w0 in
  routines (w_svc w) = if started (w_svc w) then launched w0 else 0%nat.
Proof.
  intros H0 Hops. cbv zeta.
  enough (Hgen : forall w, launched w = launched w0 ->
     routines (w_svc w) = (if started (w_svc w) then launched w0 else 0%nat) ->
     routines (w_svc (fold_left run_wop ops w))
       = if started (w_svc (fold_left run_wop ops w)) then launched w0 else 0%nat)
    by (apply Hgen; [done|by rewrite H0]).
  clear H0. induction Hops as [|o ops Ho _ IH]; intros w Hl Hr; [done|]. simpl. apply IH.
  - destruct (run_wop_config o w) as (E1 & E2 & E3). rewrite <- Hl. unfold launched, reports_health.
    by rewrite E1, E2, E3.
  - destruct o as [|d l]; simpl.
    + destruct (started (w_svc w)) eqn:Es.
      * unfold Worker_Start, service_start. rewrite Es. simpl. by rewrite Es.
      * destruct (start_names w Es) as (n & _ & _ & ->). simpl. by rewrite Hr, Hl.
    + rewrite (Ho d l eq_refl). unfold Worker_Stop, service_stop.
      destruct (started (w_svc w)) eqn:Es; simpl; [done|]. by rewrite Es.
Qed.
End StartStop.

(** * The consuming routine *)
Section Routine.
Context {S : Type} `{SqlEnv} `{WorkManager S}.
Variable w : Worker S.

(** The world after [n] rounds. *)
Fixpoint rounds (taskType : string) (n : nat) (x : World S) : World S :=
  match n with
  | O => x
  | Datatypes.S n => rounds taskType n (snd (processOneTask w taskType x))
  end.

(** A consuming routine whose rounds do not panic returns after as many
    rounds as it takes the context to end, runs nothing after that, and does
    not return before. *)
Theorem workRoutine_stops taskType n x :
  (forall x, exists u, fst (processOneTask w taskType x) = Val u) ->
  (forall i, (i < n)%nat -> ctx_Err (st (rounds taskType i x)) = None) ->
  ctx_Err (st (rounds taskType n x)) <> None ->
  (forall fuel, (n < fuel)%nat -> workRoutine w fuel taskType x = (Val true, rounds taskType n x)) /\
  (forall fuel, (fuel <= n)%nat -> workRoutine w fuel taskType x = (Val false, rounds taskType fuel x)).
Proof.
  intros Hp. revert x. induction n as [|n IH]; intros x Hlt Hend.
  - split; intros [|fuel] Hf; try lia; [|done]. simpl. unfold pbind, read_ctx.
    simpl in Hend. by destruct (ctx_Err (st x)).
  - pose proof (Hlt 0%nat ltac:(lia)) as H0'. simpl in H0'.
    destruct (IH (snd (processOneTask w taskType x))) as [I1 I2].
    { intros i Hi. apply (Hlt (Datatypes.S i)). lia. }
    { done. }
    split; intros [|fuel] Hf; try lia; try done; simpl; unfold pbind, read_ctx; rewrite H0';
      destruct (Hp x) as [u Hu]; rewrite (surjective_pairing (processOneTask w taskType x)), Hu;
      [rewrite I1 by lia|rewrite I2 by lia]; done.
Qed.
End Routine.

(** * The adapter over the manager *)
Definition task_info (t : TaskEntity) : TaskInfo :=
  mkTaskInfo (ID t) (TaskType t) (Payload t) (Timeout t) (AppGroup t) (SubjectID t) (Redo t) (MaxRedo t).

Section Adapter.
Context `{Env} `{SqlEnv} `{!SqlEnvOk _} {R : Type} `{RedisStreams R}.
Variable kp : string.
(** The worker's context, as a function of the state of the services. *)
Variable ctxErr : TaskSys R -> option error.

Definition adapter_GetNextTask (taskType workerID : string) : G (TaskSys R) (Res TaskInfo) :=
  let* r := plift (GetNextTask kp taskType workerID) in
  pret (match r with Ok t => Ok (task_info t) | Err e => Err e end).

(** The manager commits the result, then runs the callback and only logs its
    error; a panic of the callback goes through. *)
Definition adapter_SaveTaskResult (workerID : string) (info : TaskInfo) (result : string)
    (execErr : option error) (onCallback : option (G (TaskSys R) (option error))) :
    G (TaskSys R) (option error) :=
  let* r := plift (SaveTaskResult kp info.(ti_TaskID) result execErr None) in
  match r, onCallback with
  | Err e, _ => pret (Some e)
  | Ok _, None => pret None
  | Ok _, Some callback => let* _ := callback in pret None
  end.

Definition WorkManagerAdapter : WorkManager (TaskSys R) := {|
  wm_GetNextTask := adapter_GetNextTask;
  wm_SaveTaskResult := adapter_SaveTaskResult;
  wm_InitTaskDBStatus := pret None;
  ctx_Err := ctxErr;
|}.

(** On callbacks that do not panic the adapter is [SaveTaskResult]. *)
Lemma adapter_SaveTaskResult_eq wid info result execErr cb x :
  adapter_SaveTaskResult wid info result execErr
    (match cb with None => None | Some c => Some (let* r := plift c in pret (err_of r)) end) x
  = (let* r := plift (SaveTaskResult kp info.(ti_TaskID) result execErr cb) in pret (err_of r)) x.
Proof.
  unfold adapter_SaveTaskResult, SaveTaskResult, pbind, plift. rewrite !gbind_eq.
  destruct (transaction _ x) as [[[]|e] x1]; [|by destruct cb].
  destruct cb as [c|]; [|done]. unfold gbind, gtry, gret. by destruct (c x1) as [[[]|e] x2].
Qed.

(** Code of the business side that does not write the task table. *)
Definition spares {A} (m : G (TaskSys R) A) : Prop := forall x, table (after m x) = table (st x).
Definition sparing_executor (e : TaskExecutor (TaskSys R)) : Prop :=
  spares e.(Execute) /\ spares e.(GetResult) /\ spares e.(OnSuccess) /\ spares e.(OnFailure).
Definition sparing_factory (f : ExecutorFactory (TaskSys R)) : Prop :=
  forall p, spares (f p) /\ forall x e x', f p x = (Val (Ok e), x') -> sparing_executor e.

Lemma spares_bind {A B} (m : G (TaskSys R) A) (k : A -> G (TaskSys R) B) :
  spares m -> (forall a, spares (k a)) -> spares (pbind m k).
Proof.
  intros Hm Hk x. unfold after, pbind. specialize (Hm x). unfold after in Hm.
  destruct (m x) as [[a|v] x']; simpl in *; [|done]. by rewrite <- Hm; apply (Hk a).
Qed.

(** Saving a result for a running row keeps the invariant. *)
Lemma adapter_save_Inv wid info result execErr cb x :
  Inv (table (st x)) -> (forall c, cb = Some c -> spares c) ->
  (forall t, In t (table (st x)) -> ID t = ti_TaskID info -> IsRunning t = true) ->
  Inv (table (after (adapter_SaveTaskResult wid info result execErr cb) x)).
Proof.
  intros HI Hcb Hrun. unfold after, adapter_SaveTaskResult, pbind, plift.
  destruct (SaveTaskResult kp (ti_TaskID info) result execErr None x) as [r x1] eqn:Es.
  assert (HI1 : Inv (table (st x1))).
  { apply SaveTaskResult_effect in Es; [|apply HI|by intros]. destruct r; [|by rewrite Es].
    destruct Es as (t0 & now & saved & Hin & Hid & Hal & ->). rewrite <- Hid. apply Inv_finish; auto. }
  destruct r; [|done]. destruct cb as [c|]; [|done].
  specialize (Hcb c eq_refl x1). unfold after in Hcb.
  destruct (c x1) as [[]]; simpl in *; by rewrite Hcb.
Qed.

Variable w : Worker (TaskSys R).
Hypothesis Hfactories :
  forall taskType f, Get taskType w.(registry) = Some f -> sparing_factory f.

Lemma executeTask_Inv info x :
  Inv (table (st x)) ->
  (forall t, In t (table (st x)) -> ID t = ti_TaskID info -> IsRunning t = true) ->
  Inv (table (after (executeTask (WorkManager0 := WorkManagerAdapter) w info) x)).
Proof.
  intros HI Hrun. unfold executeTask. destruct (ti_TaskID info =? 0); [done|].
  assert (Hsave : forall r e cb y, table (st y) = table (st x) -> (forall c, cb = Some c -> spares c) ->
     Inv (table (after (let* _ := adapter_SaveTaskResult (wc_WorkerID (w_config w)) info r e cb in pret tt) y))).
  { intros r e cb y Hy Hcb. rewrite after_then. apply adapter_save_Inv; rewrite ?Hy; auto. }
  destruct (Get (ti_TaskType info) (registry w)) as [f|] eqn:Ef; [|by apply Hsave].
  destruct (Hfactories _ _ Ef (ti_Payload info)) as [Hf He].
  unfold after. rewrite pbind_eq. specialize (Hf x). unfold after in Hf.
  destruct (f (ti_Payload info) x) as [[[e|err]|v] x1] eqn:Efx; simpl in Hf;
    [|by apply Hsave|simpl; by rewrite Hf].
  destruct (He _ _ _ Efx) as (S1 & S2 & S3 & S4).
  assert (Sd : spares (doExecute e)).
  { intros y. specialize (S1 y). unfold after, doExecute, precover in *. by destruct (Execute e y) as [[]]. }
  rewrite pbind_eq. specialize (Sd x1). unfold after in Sd.
  destruct (doExecute e x1) as [[o|v] x2]; simpl in Sd; [|simpl; congruence].
  rewrite pbind_eq. specialize (S2 x2). unfold after in S2.
  destruct (GetResult e x2) as [[r|v] x3]; simpl in S2; [|simpl; congruence].
  rewrite pbind_eq. unfold read_ctx.
  destruct (choose_callback _ _ _) as [err cb] eqn:Ec.
  apply Hsave; [congruence|]. intros c [= <-]. unfold choose_callback in Ec.
  destruct (bool_decide _ && _); by simplify_eq.
Qed.

(** C14: one round of a consuming routine over the real manager keeps the
    invariant of the task table (unique ids, step order, redo budget), whatever
    fails, panics or times out in it: a worker that saves the result of the
    task it has just claimed is the disciplined client the manager needs. *)
Theorem processOneTask_keeps_Inv taskType x :
  Inv (table (st x)) ->
  Inv (table (after (processOneTask (WorkManager0 := WorkManagerAdapter) w taskType) x)).
Proof.
  intros HI. unfold processOneTask. simpl wm_GetNextTask. unfold adapter_GetNextTask.
  pose proof (run_op_Inv kp (OpNext taskType (wc_WorkerID (w_config w))) x HI I) as HI1.
  unfold after, pbind at 1 2, plift, pret.
  unfold run_op, ignore, gtry in HI1. rewrite gbind_eq in HI1.
  destruct (GetNextTask kp taskType (wc_WorkerID (w_config w)) x) as [r x1] eqn:En.
  cbn [snd gret] in HI1. destruct r as [t|e]; [|done]. cbn [ti_TaskID task_info].
  destruct (ID t =? 0) eqn:Et; [exact HI1|]. apply executeTask_Inv; [exact HI1|]. cbn [ti_TaskID task_info].
  intros t1 Hin1 Hid1. unfold GetNextTask in En. go_inv1; [by subst|].
  apply Pop_table in Hm as [Ht _]. destruct HI as [Hok _]. rewrite <- Ht in Hok.
  pose proof (GetOnePendingTask_inv _ _ _ _ _ Hok Hk) as Hi. simpl in Hi.
  destruct Hi as [(_ & Hz & _)|(now & saved & Hin & -> & Hst)]; [by rewrite Hz in Et|].
  apply claim_rows_In in Hin as (Hin & _ & _).
  assert (t1 = claimed now saved (wc_WorkerID (w_config w)) (claim_choice (S (calls w0)) taskType (table (st w0)))) as ->; [|done].
  apply (ids_ok_inj (table (st x1))); [apply HI1|done| |done].
  rewrite Hst. simpl. apply In_update_where. eexists. split; [exact Hin|]. by rewrite Z.eqb_refl.
Qed.
End Adapter.
