(* ===== verification/TaskHealth.v ===== *)
(** [src/task/health]: worker heartbeats in Redis hashes, the three-phase check
    that declares workers dead (checker.go) and its configuration (config.go).

    Redis hashes are the interface [RedisHashes] with its laws; [MemHashes] is
    an executable instance.  The two Lua scripts run atomically in Redis: each
    is one call with the effect of its commands.  The business state the
    dead-worker callback acts on is [X]; the callback does not touch the
    hashes. *)
From S2P Require Import Prelude TaskModel TaskStore TaskDao TaskQueue TaskManager.

(** * Redis hashes *)
Class RedisHashes (R : Type) : Type := {
  HGetAll : string -> R -> gmap string string;
  HSet : string -> string -> string -> R -> R;
  HDel : string -> string -> R -> R;
  KeyScan : Z -> string -> R -> list string * Z;
}.

Class RedisHashesOk (R : Type) `{RedisHashes R} : Prop := {
  HGetAll_HSet : forall k f v k' r,
    HGetAll k' (HSet k f v r) = if decide (k = k') then <[f := v]> (HGetAll k' r) else HGetAll k' r;
  HGetAll_HDel : forall k f k' r,
    HGetAll k' (HDel k f r) = if decide (k = k') then delete f (HGetAll k' r) else HGetAll k' r;
}.

(** ** An executable instance *)
Definition mem_hash (k : string) (r : gmap string (gmap string string)) : gmap string string :=
  default ∅ (r !! k).
#[export] Instance MemHashes : RedisHashes (gmap string (gmap string string)) := {|
  HGetAll := mem_hash;
  HSet := fun k f v r => <[k := <[f := v]> (mem_hash k r)]> r;
  HDel := fun k f r => <[k := delete f (mem_hash k r)]> r;
  KeyScan := fun _ p r => (List.filter (has_prefix p) (map fst (map_to_list r)), 0);
|}.
#[export] Instance MemHashesOk : RedisHashesOk (gmap string (gmap string string)).
Proof.
  split; intros; simpl; unfold mem_hash;
    (destruct (decide _) as [<-|]; [by rewrite lookup_insert_eq|by rewrite lookup_insert_ne]).
Qed.

(** * Configuration *)
Definition WorkerHeartbeatTimeout : Z := 30.
Definition GracePeriodTimeout : Z := 60.
Definition DefaultCheckPeriod : Z := 30 * Second.

Inductive WorkerStatus : Type := WorkerStatusHealthy | WorkerStatusGracePeriod | WorkerStatusDead.
Definition WorkerStatus_String (s : WorkerStatus) : string :=
  match s with
  | WorkerStatusHealthy => "healthy"
  | WorkerStatusGracePeriod => "grace_period"
  | WorkerStatusDead => "dead"
  end.

Record DeadWorkerInfo : Type := mkDead {
  d_WorkerID : string; d_TaskType : string; d_TaskID : Z; d_LastHeartbeat : Z;
}.

(** The data of a [CheckerConfig]; [cc_redis] says the client is not nil. *)
Record CheckerConfig : Type := mkCheckerConfig {
  cc_KeyPrefix : string; cc_redis : bool; cc_CheckPeriod : Z;
}.
Definition DefaultCheckerConfig : CheckerConfig := mkCheckerConfig "task:" false DefaultCheckPeriod.
Definition CheckerConfig_Validate (c : CheckerConfig) : Res CheckerConfig :=
  if negb c.(cc_redis) then Err (ErrNew "health checker config: redis client is required")
  else if str_eqb c.(cc_KeyPrefix) "" then Err (ErrNew "health checker config: key prefix cannot be empty")
  else Ok (mkCheckerConfig c.(cc_KeyPrefix) c.(cc_redis)
             (if c.(cc_CheckPeriod) <=? 0 then DefaultCheckPeriod else c.(cc_CheckPeriod))).

Definition NewChecker (config : option CheckerConfig) : Res (CheckerConfig * Service) :=
  match CheckerConfig_Validate (default DefaultCheckerConfig config) with
  | Err e => Err (ErrWrap "invalid health checker config: " e)
  | Ok c => Ok (c, newService)
  end.
Definition Checker_Start : Service -> Res unit * Service :=
  service_start (ErrNew "health checker already started") 1.
Definition Checker_Stop : bool -> nat -> Service -> Res unit * Service :=
  service_stop (ErrNew "health checker not started").

Definition InitChecker (config : option CheckerConfig) : Once (CheckerConfig * Service) -> Panics (Res unit) * Once (CheckerConfig * Service) :=
  once_new (Val (NewChecker config)).
Definition GetChecker : Once (CheckerConfig * Service) -> Panics (CheckerConfig * Service) := once_get "health checker is nil".

(** * The checker *)
Section Checker.
Context `{Env} `{SqlEnv} {R X : Type} `{RedisHashes R}.
(** The key prefix and the dead-worker callback of the configuration. *)
Variable kp : string.
Variable OnWorkerDead : option (DeadWorkerInfo -> M X unit).

Definition heartbeatKey (taskType : string) : string := (kp ++ "_task_heartbeat:" ++ taskType)%string.
Definition gracePeriodKey (taskType : string) : string := (kp ++ "_task_grace_period:" ++ taskType)%string.

(** [t.Unix()]. *)
Definition unix (now : Z) : Z := now / Second.

(** A Redis command, and code of the business side. *)
Definition hx {A} (f : R -> A * R) : M (R * X) A :=
  gext (fun s => let '(a, r) := f (fst s) in (a, (r, snd s))).
Definition biz {A} (m : M X A) : M (R * X) A :=
  fun w => let '(r, w') := m (mkWorld (calls w) (snd (st w))) in
           (r, mkWorld (calls w') (fst (st w), st w')).

(** ["%d-%d"]. *)
Definition beat (a b : Z) : string := (fmt_d a ++ String "-" (fmt_d b))%string.

Definition SetHeartbeat (taskType workerID : string) (taskID : Z) : M (R * X) unit :=
  let! now := gnow in
  gwrap "failed to set heartbeat: "
    (hx (fun r => (tt, HDel (gracePeriodKey taskType) workerID
                         (HSet (heartbeatKey taskType) workerID (beat (unix now) taskID) r)))).

Definition DeleteHeartbeat (taskType workerID : string) : M (R * X) unit :=
  gwrap "failed to delete heartbeat: "
    (hx (fun r => (tt, HDel (gracePeriodKey taskType) workerID (HDel (heartbeatKey taskType) workerID r)))).

Definition GetWorkerCount (taskType : string) : M (R * X) Z :=
  gwrap "failed to get worker count: "
    (hx (fun r => (Z.of_nat (size (HGetAll (heartbeatKey taskType) r)), r))).

Definition IsWorkerAlive (taskType workerID : string) : M (R * X) bool :=
  let! value := hx (fun r => (HGetAll (heartbeatKey taskType) r !! workerID, r)) in
  match value with
  | None => gret false
  | Some value =>
      match split_on "-" value with
      | p0 :: _ :: _ =>
          match ParseInt p0 with
          | None => gret false
          | Some timestamp =>
              let! now := gnow in
              gret (wrap_i64 (unix now - timestamp) <=? WorkerHeartbeatTimeout)
          end
      | _ => gret false
      end
  end.

Definition getWorkerStatus (elapsed : Z) (workerID : string) (graceMap : gmap string string) :
    M (R * X) WorkerStatus :=
  if elapsed <=? WorkerHeartbeatTimeout then gret WorkerStatusHealthy
  else
    match graceMap !! workerID with
    | None => gret WorkerStatusGracePeriod
    | Some v =>
        match ParseInt (hd "" (split_on "-" v)) with
        | None => gret WorkerStatusGracePeriod
        | Some graceEnterTime =>
            let! now := gnow in
            gret (if GracePeriodTimeout <? wrap_i64 (unix now - graceEnterTime)
                  then WorkerStatusDead else WorkerStatusGracePeriod)
        end
    end.

(** The callback, when there is one. *)
Definition call_dead (info : DeadWorkerInfo) : M (R * X) unit :=
  match OnWorkerDead with None => gret tt | Some f => biz (f info) end.

(** What the loop does with one worker once its status is known. *)
Definition apply_status (taskType workerID : string) (now timestamp taskID : Z)
    (graceMap : gmap string string) (status : WorkerStatus) : M (R * X) unit :=
  let known := bool_decide (is_Some (graceMap !! workerID)) in
  match status with
  | WorkerStatusHealthy =>
      if known then gtry (hx (fun r => (tt, HDel (gracePeriodKey taskType) workerID r))) ;;; gret tt
      else gret tt
  | WorkerStatusGracePeriod =>
      if known then gret tt
      else gtry (hx (fun r => (tt, HSet (gracePeriodKey taskType) workerID (beat now timestamp) r))) ;;;
           gret tt
  | WorkerStatusDead =>
      let! r := gtry (call_dead (mkDead workerID taskType taskID timestamp)) in
      match r with
      | Err _ => gret tt
      | Ok _ => gtry (DeleteHeartbeat taskType workerID) ;;; gret tt
      end
  end.

(** The body of the loop. *)
Definition checkWorker (taskType : string) (now : Z) (graceMap : gmap string string)
    (workerID heartbeatValue : string) : M (R * X) unit :=
  match split_on "-" heartbeatValue with
  | p0 :: p1 :: _ =>
      match ParseInt p0 with
      | None => gtry (DeleteHeartbeat taskType workerID) ;;; gret tt
      | Some timestamp =>
          let elapsed := wrap_i64 (now - timestamp) in
          let taskID := default 0 (ParseUint p1) in
          let! status := getWorkerStatus elapsed workerID graceMap in
          apply_status taskType workerID now timestamp taskID graceMap status
      end
  | _ => gtry (DeleteHeartbeat taskType workerID) ;;; gret tt
  end.

Definition checkTaskTypeWorkers (taskType : string) (now : Z) : M (R * X) unit :=
  let! heartbeatMap := gwrap "failed to get workers: "
                         (hx (fun r => (HGetAll (heartbeatKey taskType) r, r))) in
  let! g := gtry (hx (fun r => (HGetAll (gracePeriodKey taskType) r, r))) in
  let gracePeriodMap := match g with Ok m => m | Err _ => ∅ end in
  gfor_log (map_range (map fst (map_to_list heartbeatMap)))
    (fun workerID => checkWorker taskType now gracePeriodMap workerID
                       (default "" (heartbeatMap !! workerID))).

(** The [SCAN] loop; [fuel] bounds the rounds. *)
Fixpoint key_scan_loop (fuel : nat) (cursor : Z) (pattern : string) (keys : list string) :
    M (R * X) (list string) :=
  match fuel with
  | O => graise (ErrVar "scan: out of fuel")
  | S fuel' =>
      let! kn := gwrap "failed to scan keys: " (hx (fun r => (KeyScan cursor pattern r, r))) in
      let '(kk, nextCursor) := kn in
      if nextCursor =? 0 then gret (keys ++ kk)
      else key_scan_loop fuel' nextCursor pattern (keys ++ kk)
  end.

Definition getAllTaskTypes (fuel : nat) : M (R * X) (list string) :=
  let prefix := heartbeatKey "" in
  let! keys := key_scan_loop fuel 0 prefix [] in
  gret (strip_keys prefix keys).

Definition CheckWorkerHealth (fuel : nat) : M (R * X) unit :=
  let! now := gnow in
  let! types := getAllTaskTypes fuel in
  gfor_log types (fun taskType => checkTaskTypeWorkers taskType (unix now)).

(** One tick of [healthCheckRoutine]. *)
Definition healthCheckTick (isMaster : bool) (fuel : nat) : M (R * X) unit :=
  if isMaster then gtry (CheckWorkerHealth fuel) ;;; gret tt else gret tt.
End Checker.

(** * Heartbeat values *)
Lemma beat_split a b : 0 <= a -> 0 <= b -> split_on "-" (beat a b) = [fmt_d a; fmt_d b].
Proof.
  intros Ha Hb. unfold beat. rewrite split_on_app by (by apply fmt_d_no_minus).
  by rewrite split_on_none by (by apply fmt_d_no_minus).
Qed.

Lemma two63_le_two64 : two63 < two64.
Proof. done. Qed.

(** A clock that does not go back, in the range of an int64 of nanoseconds. *)
Class ClockOk `{Env} : Prop := {
  clock_mono : forall i j, (i <= j)%nat -> env_clock i <= env_clock j;
  clock_pos : forall i, 0 <= env_clock i;
  clock_max : forall i, env_clock i < two63;
}.

Lemma unix_bounds `{ClockOk} i : 0 <= unix (env_clock i) < two63.
Proof.
  unfold unix, Second. pose proof (clock_pos i). pose proof (clock_max i). unfold two63 in *.
  split; [apply Z.div_pos; lia|]. apply Z.div_lt_upper_bound; lia.
Qed.
Lemma unix_mono `{ClockOk} i j : (i <= j)%nat -> unix (env_clock i) <= unix (env_clock j).
Proof. intros Hij. apply Z.div_le_mono; [done|]. by apply clock_mono. Qed.

(** * Cells

    What the checker knows of a worker: its heartbeat and its grace entry. *)
Section Cells.
Context `{Env} {R X : Type} `{RedisHashes R} `{!RedisHashesOk R}.
Variable kp : string.

Definition cell (taskType workerID : string) (r : R) : option string * option string :=
  (HGetAll (heartbeatKey kp taskType) r !! workerID, HGetAll (gracePeriodKey kp taskType) r !! workerID).

Lemma app_inj_l (p a b : string) : (p ++ a)%string = (p ++ b)%string -> a = b.
Proof. induction p as [|c p IH]; [done|]. intros [= Heq]. by apply IH. Qed.
Lemma heartbeatKey_inj a b : heartbeatKey kp a = heartbeatKey kp b <-> a = b.
Proof. split; [|by intros ->]. unfold heartbeatKey. by intros ?%app_inj_l%app_inj_l. Qed.
Lemma gracePeriodKey_inj a b : gracePeriodKey kp a = gracePeriodKey kp b <-> a = b.
Proof. split; [|by intros ->]. unfold gracePeriodKey. by intros ?%app_inj_l%app_inj_l. Qed.
Lemma keys_differ a b : heartbeatKey kp a <> gracePeriodKey kp b.
Proof. unfold heartbeatKey, gracePeriodKey. by intros ?%app_inj_l. Qed.
Lemma keys_differ' a b : gracePeriodKey kp a <> heartbeatKey kp b.
Proof. intros Heq. by apply (keys_differ b a). Qed.

Ltac cells :=
  unfold cell; simpl; rewrite ?HGetAll_HDel, ?HGetAll_HSet, ?HGetAll_HDel;
  rewrite ?(decide_False (P := heartbeatKey _ _ = gracePeriodKey _ _)) by apply keys_differ;
  rewrite ?(decide_False (P := gracePeriodKey _ _ = heartbeatKey _ _)) by apply keys_differ';
  repeat case_decide;
  repeat match goal with
  | Hk : context [heartbeatKey _ _ = heartbeatKey _ _] |- _ => rewrite heartbeatKey_inj in Hk
  | Hk : context [gracePeriodKey _ _ = gracePeriodKey _ _] |- _ => rewrite gracePeriodKey_inj in Hk
  | Hk : _ /\ _ |- _ => destruct Hk
  end; simplify_eq; rewrite ?lookup_insert_eq, ?lookup_delete_eq; try done;
  rewrite ?lookup_insert_ne, ?lookup_delete_ne by naive_solver; try done; exfalso; naive_solver.

(** The effect of the two scripts and of the two commands on a cell. *)
Lemma cell_set tt wid v tt' wid' r :
  cell tt' wid' (HDel (gracePeriodKey kp tt) wid (HSet (heartbeatKey kp tt) wid v r)) =
  if decide (tt = tt' /\ wid = wid') then (Some v, None) else cell tt' wid' r.
Proof. cells. Qed.
Lemma cell_del tt wid tt' wid' r :
  cell tt' wid' (HDel (gracePeriodKey kp tt) wid (HDel (heartbeatKey kp tt) wid r)) =
  if decide (tt = tt' /\ wid = wid') then (None, None) else cell tt' wid' r.
Proof. cells. Qed.
Lemma cell_clear tt wid tt' wid' r :
  cell tt' wid' (HDel (gracePeriodKey kp tt) wid r) =
  if decide (tt = tt' /\ wid = wid') then (fst (cell tt' wid' r), None) else cell tt' wid' r.
Proof. cells. Qed.
Lemma cell_enter tt wid v tt' wid' r :
  cell tt' wid' (HSet (gracePeriodKey kp tt) wid v r) =
  if decide (tt = tt' /\ wid = wid') then (fst (cell tt' wid' r), Some v) else cell tt' wid' r.
Proof. cells. Qed.

(** A heartbeat is the one [SetHeartbeat] wrote; a grace entry was made for
    the current heartbeat, more than 30 s after it. *)
Definition cell_ok (c : option string * option string) : Prop :=
  (forall v, fst c = Some v -> exists ts id, v = beat ts id /\ 0 <= ts < two63 /\ 0 <= id < two64) /\
  (forall v, snd c = Some v -> exists n ts id, v = beat n ts /\ fst c = Some (beat ts id) /\
     0 <= id < two64 /\ 0 <= ts /\ n < two63 /\ WorkerHeartbeatTimeout < n - ts).

Definition cells_ok (r : R) : Prop := forall taskType workerID, cell_ok (cell taskType workerID r).

Lemma beat_inj a b a' b' :
  0 <= a < two63 -> 0 <= b < two64 -> 0 <= a' < two63 -> 0 <= b' < two64 ->
  beat a b = beat a' b' -> a = a' /\ b = b'.
Proof.
  intros Ha Hb Ha' Hb' Heq. assert (Hs : split_on "-" (beat a b) = split_on "-" (beat a' b')) by congruence.
  rewrite !beat_split in Hs by lia. injection Hs as H1' H2'.
  assert (ParseUint (fmt_d a) = ParseUint (fmt_d a')) as E1 by congruence.
  assert (ParseUint (fmt_d b) = ParseUint (fmt_d b')) as E2 by congruence.
  pose proof two63_le_two64. rewrite !ParseUint_fmt_d in E1, E2 by lia. split; congruence.
Qed.
End Cells.

#[global] Arguments cell {R _} kp taskType workerID r.

(** * What a check does to the cells and to the business state *)
Section CheckEffects.
Context `{Env} `{!ClockOk} `{SqlEnv} `{!SqlEnvOk _} {R X : Type} `{RedisHashes R} `{!RedisHashesOk R}.
Variable kp : string.
Variable OnWorkerDead : option (DeadWorkerInfo -> M X unit).
(** The hashes and the time, in seconds, at the start of the check. *)
Variables (r0 : R) (start : Z).

(** What the callback is told: the heartbeat the worker had when the check
    started, overdue then; and a silence that has lasted at the call. *)
Definition due (info : DeadWorkerInfo) (y : World X) : Prop :=
  fst (cell kp (d_TaskType info) (d_WorkerID info) r0) = Some (beat (d_LastHeartbeat info) (d_TaskID info)) /\
  WorkerHeartbeatTimeout < start - d_LastHeartbeat info /\
  WorkerHeartbeatTimeout + GracePeriodTimeout < unix (env_clock (calls y)) - d_LastHeartbeat info.

(** A fact about the business state that the callback keeps whenever it is
    called for such a worker. *)
Variable P : X -> Prop.
Hypothesis callback_calls : forall f info y, OnWorkerDead = Some f ->
  (calls y <= calls (snd (f info y)))%nat.
Hypothesis callback_P : forall f info y, OnWorkerDead = Some f ->
  due info y -> P (st y) -> P (st (snd (f info y))).

(** A cell during the check: its heartbeat is the one of the start or gone, and
    one that was not overdue stays, with its grace entry at most cleared. *)
Definition healthy (c0 : option string * option string) : Prop :=
  exists ts id, fst c0 = Some (beat ts id) /\ 0 <= ts < two63 /\ 0 <= id < two64 /\
    start - ts <= WorkerHeartbeatTimeout.
Definition cell_now (c0 c : option string * option string) : Prop :=
  cell_ok c /\ (forall v, fst c = Some v -> fst c0 = Some v) /\
  (healthy c0 -> fst c = fst c0 /\ (snd c = snd c0 \/ snd c = None)).
Definition cells_now (r : R) : Prop := forall tt wid, cell_now (cell kp tt wid r0) (cell kp tt wid r).

Lemma healthy_not ts id c0 :
  fst c0 = Some (beat ts id) -> 0 <= ts < two63 -> 0 <= id < two64 ->
  WorkerHeartbeatTimeout < start - ts -> ~ healthy c0.
Proof.
  intros Hb Hts Hid Hlate (ts' & id' & Hb' & Hts' & Hid' & Hle). rewrite Hb in Hb'. injection Hb' as Heq.
  apply beat_inj in Heq as [-> _]; pose proof two63_le_two64; lia.
Qed.

(** Worlds between which only the cell of one worker may change. *)
Definition near (tt wid : string) (w w' : World (R * X)) : Prop :=
  (calls w <= calls w')%nat /\ cells_now (fst (st w')) /\ P (snd (st w')) /\
  forall tt' wid', ~ (tt = tt' /\ wid = wid') ->
    cell kp tt' wid' (fst (st w')) = cell kp tt' wid' (fst (st w)).

Lemma near_refl tt wid w : cells_now (fst (st w)) -> P (snd (st w)) -> near tt wid w w.
Proof. intros. by split_and!. Qed.

(** A command on the cell of [tt, wid], failing or not. *)
Definition local (tt wid : string) (f : R -> R) : Prop :=
  forall tt' wid' r, ~ (tt = tt' /\ wid = wid') -> cell kp tt' wid' (f r) = cell kp tt' wid' r.

Lemma hx_near tt wid (f : R -> R) (w : World (R * X)) r w' :
  cells_now (fst (st w)) -> P (snd (st w)) -> local tt wid f ->
  cell_now (cell kp tt wid r0) (cell kp tt wid (f (fst (st w)))) ->
  hx (fun ry => (Datatypes.tt, f ry)) w = (r, w') -> near tt wid w w'.
Proof.
  intros Hok HP Hf Hc Hx. unfold hx in Hx. apply gext_inv in Hx as (Hcalls & Hcase).
  destruct Hcase as [(e & _ & _ & Hst)|(_ & _ & Hst)]; unfold near; rewrite Hst.
  - split_and!; try done. lia.
  - destruct (st w) as [rr xx]. simpl in *. split_and!; try done; [lia| |].
    + intros tt' wid'. destruct (decide (tt = tt' /\ wid = wid')) as [[<- <-]|Hn]; [done|].
      rewrite Hf by done. apply Hok.
    + intros tt' wid' Hn. by rewrite Hf by done.
Qed.

Lemma set_local tt wid v :
  local tt wid (fun r => HDel (gracePeriodKey kp tt) wid (HSet (heartbeatKey kp tt) wid v r)).
Proof. intros tt' wid' r Hn. by rewrite cell_set, decide_False. Qed.
Lemma del_local tt wid :
  local tt wid (fun r => HDel (gracePeriodKey kp tt) wid (HDel (heartbeatKey kp tt) wid r)).
Proof. intros tt' wid' r Hn. by rewrite cell_del, decide_False. Qed.
Lemma clear_local tt wid : local tt wid (HDel (gracePeriodKey kp tt) wid).
Proof. intros tt' wid' r Hn. by rewrite cell_clear, decide_False. Qed.
Lemma enter_local tt wid v : local tt wid (HSet (gracePeriodKey kp tt) wid v).
Proof. intros tt' wid' r Hn. by rewrite cell_enter, decide_False. Qed.

Lemma cell_ok_none : cell_ok (None, None).
Proof. by split. Qed.
Lemma cell_now_clear c0 c : cell_now c0 c -> cell_now c0 (fst c, None).
Proof. intros ([Hb _] & Hf & Hh). split_and!; [by split|done|]. intros Hc. destruct (Hh Hc). by split; [|right]. Qed.

Lemma DeleteHeartbeat_near tt wid (w : World (R * X)) r w' :
  cells_now (fst (st w)) -> P (snd (st w)) -> ~ healthy (cell kp tt wid r0) ->
  DeleteHeartbeat kp tt wid w = (r, w') -> near tt wid w w'.
Proof.
  intros Hok HP Hover Hd. unfold DeleteHeartbeat in Hd.
  assert (Hx : exists rx, hx (X := X) (fun r => (Datatypes.tt, HDel (gracePeriodKey kp tt) wid
             (HDel (heartbeatKey kp tt) wid r))) w = (rx, w'))
    by (apply gwrap_inv in Hd as [(? & Hd & _)|(? & Hd & _)]; eauto).
  destruct Hx as [rx Hx]. eapply hx_near; [done|done|apply del_local| |exact Hx].
  cbv beta. rewrite cell_del, decide_True by done. by split_and!; [apply cell_ok_none| |].
Qed.

(** [Dead] is answered only for a worker silent for more than 90 s. *)
Lemma status_dead tt wid ts id now (gm : gmap string string) (w : World (R * X)) w' :
  cell_ok (cell kp tt wid (fst (st w))) -> fst (cell kp tt wid (fst (st w))) = Some (beat ts id) ->
  0 <= ts < two63 -> 0 <= id < two64 ->
  gm !! wid = snd (cell kp tt wid (fst (st w))) \/ gm !! wid = None ->
  getWorkerStatus (wrap_i64 (now - ts)) wid gm w = (Ok WorkerStatusDead, w') ->
  WorkerHeartbeatTimeout + GracePeriodTimeout < unix (env_clock (calls w)) - ts.
Proof.
  intros Hok Hb Hts Hid Hgm. unfold getWorkerStatus, WorkerHeartbeatTimeout, GracePeriodTimeout.
  destruct (_ <=? _); [intros [=]|]. destruct (gm !! wid) as [v|] eqn:Eg; [|intros [=]].
  destruct Hgm as [Hv|]; [|done]. destruct Hok as [_ Hg].
  destruct (Hg v (eq_sym Hv)) as (n & ts' & id' & -> & Hb' & Hid' & Hts' & Hn & Hlate).
  rewrite Hb in Hb'. simplify_eq. unfold WorkerHeartbeatTimeout in Hlate.
  match goal with Hq : beat _ _ = beat _ _ |- _ => apply beat_inj in Hq as [-> ->]; try lia end.
  rewrite beat_split by lia. simpl. rewrite ParseInt_fmt_d by lia. intros Hs.
  unfold gbind, gnow, gret in Hs. simpl in Hs. destruct (_ <? _) eqn:Ed; [|done].
  apply Z.ltb_lt in Ed. pose proof (unix_bounds (calls w)). 
  rewrite wrap_i64_id in Ed by lia. lia.
Qed.
Lemma getWorkerStatus_inv elapsed wid gm (w : World (R * X)) r w' :
  getWorkerStatus elapsed wid gm w = (r, w') ->
  st w' = st w /\ (calls w <= calls w')%nat /\
  exists s, r = Ok s /\ (s <> WorkerStatusHealthy -> WorkerHeartbeatTimeout < elapsed).
Proof.
  unfold getWorkerStatus. destruct (Z.leb_spec elapsed WorkerHeartbeatTimeout) as [|Hlt]; intros Hs.
  { go_inv. split_and!; try done; try lia. by exists WorkerStatusHealthy. }
  destruct (gm !! wid) as [v|]; [|go_inv; eauto 6].
  destruct (ParseInt _) as [n|]; [|go_inv; eauto 6].
  go_inv. split_and!; [congruence|lia|]. eexists. split; [reflexivity|done].
Qed.

Lemma call_dead_near tt wid info (w : World (R * X)) r w' :
  cells_now (fst (st w)) -> P (snd (st w)) ->
  due info (mkWorld (calls w) (snd (st w))) ->
  call_dead OnWorkerDead info w = (r, w') -> near tt wid w w' /\ fst (st w') = fst (st w).
Proof.
  intros Hok HP Hlate. unfold call_dead. destruct OnWorkerDead as [f|] eqn:Ef.
  - unfold biz. pose proof (callback_calls f info (mkWorld (calls w) (snd (st w))) eq_refl) as Hc.
    pose proof (callback_P f info (mkWorld (calls w) (snd (st w))) eq_refl Hlate HP) as HP'.
    destruct (f info _) as [r1 w1]. simpl in *. intros [= <- <-]. by split_and!.
  - intros [= <- <-]. split; [by apply near_refl|done].
Qed.

Lemma near_trans tt wid w1 w2 w3 : near tt wid w1 w2 -> near tt wid w2 w3 -> near tt wid w1 w3.
Proof.
  intros (C1 & _ & _ & N1) (C2 & O2 & P2 & N2). split_and!; [lia|done|done|].
  intros tt' wid' Hn. by rewrite N2, N1.
Qed.

(** Applying a status that was read for the current heartbeat. *)
Lemma apply_status_near tt wid ts id gm s (w : World (R * X)) r w' :
  cells_now (fst (st w)) -> P (snd (st w)) ->
  fst (cell kp tt wid (fst (st w))) = Some (beat ts id) ->
  0 <= ts < two63 -> 0 <= id < two64 -> 0 <= start < two63 ->
  (s <> WorkerStatusHealthy -> WorkerHeartbeatTimeout < start - ts) ->
  (s = WorkerStatusDead -> WorkerHeartbeatTimeout + GracePeriodTimeout < unix (env_clock (calls w)) - ts) ->
  apply_status kp OnWorkerDead tt wid start ts id gm s w = (r, w') -> near tt wid w w'.
Proof.
  intros Hok HP Hb Hts Hid Hnow Hold Hdead. destruct (Hok tt wid) as (Hc & Hf & Hh).
  unfold apply_status. destruct s.
  - case_bool_decide; intros Ha; go_inv; [|by apply near_refl].
    match goal with Hx : hx _ _ = _ |- _ => eapply hx_near in Hx; [exact Hx|done|done|apply clear_local|] end.
    rewrite cell_clear, decide_True by done. by apply cell_now_clear.
  - specialize (Hold ltac:(done)). assert (Hno : ~ healthy (cell kp tt wid r0)) by (eapply healthy_not; eauto).
    case_bool_decide; intros Ha; go_inv; [by apply near_refl|].
    match goal with Hx : hx _ _ = _ |- _ => eapply hx_near in Hx; [exact Hx|done|done|apply enter_local|] end.
    rewrite cell_enter, decide_True, Hb by done. split; [|split; [|done]].
    + split; simpl; intros v [= <-]; [by exists ts, id|]. exists start, ts, id. split_and!; (done || lia).
    + simpl. intros v Hv. apply Hf. congruence.
  - specialize (Hold ltac:(done)). assert (Hno : ~ healthy (cell kp tt wid r0)) by (eapply healthy_not; eauto).
    intros Ha. go_inv1; [go_inv|]. go_inv1. simplify_eq.
    match goal with Hc : call_dead _ _ _ = _ |- _ => eapply call_dead_near in Hc as [Hn Hst]; [|done|done|] end;
      [|split_and!; [by apply Hf|done|by apply Hdead]].
    pose proof Hn as (_ & Hok1 & HP1 & _).
    match type of Hk with match ?q with _ => _ end _ = _ => destruct q end; go_inv; [|exact Hn].
    eapply near_trans; [exact Hn|]. by eapply DeleteHeartbeat_near.
Qed.

(** One turn of the loop. *)
Lemma checkWorker_near tt wid v gm (w : World (R * X)) r w' :
  cells_now (fst (st w)) -> P (snd (st w)) -> fst (cell kp tt wid (fst (st w))) = Some v ->
  gm !! wid = snd (cell kp tt wid (fst (st w))) \/ gm !! wid = None -> 0 <= start < two63 ->
  checkWorker kp OnWorkerDead tt start gm wid v w = (r, w') -> near tt wid w w'.
Proof.
  intros Hok HP Hb Hgm Hnow. destruct (Hok tt wid) as ([Hb' _] & _ & _).
  destruct (Hb' v Hb) as (ts & id & -> & Hts & Hid). unfold checkWorker.
  rewrite beat_split, ParseInt_fmt_d, ParseUint_fmt_d by lia. cbn [default]. intros Hc. go_inv1.
  { apply getWorkerStatus_inv in Hm as (_ & _ & s & Hs & _). congruence. }
  pose proof (getWorkerStatus_inv _ _ _ _ _ _ Hm) as (Hst & Hle & s & [= <-] & Hs).
  rewrite wrap_i64_id in Hs by lia.
  assert (Hn1 : near tt wid w w0) by (unfold near; by rewrite Hst).
  eapply near_trans; [exact Hn1|]. rewrite <- Hst in Hok, HP, Hb.
  eapply apply_status_near; try done. intros ->.
  rewrite Hst in Hok, Hb.
  eapply status_dead in Hm; [|by apply Hok|done..|exact Hgm]. pose proof (unix_mono _ _ Hle). lia.
Qed.
(** The loop over a snapshot of the heartbeats. *)
Definition loop_ok (w w' : World (R * X)) : Prop :=
  (calls w <= calls w')%nat /\ cells_now (fst (st w')) /\ P (snd (st w')).

Lemma check_loop_ok tt (hm gm : gmap string string) wids (w : World (R * X)) r w' :
  NoDup wids -> cells_now (fst (st w)) -> P (snd (st w)) -> 0 <= start < two63 ->
  (forall wid, In wid wids -> is_Some (hm !! wid) /\ fst (cell kp tt wid (fst (st w))) = hm !! wid /\
     (gm !! wid = snd (cell kp tt wid (fst (st w))) \/ gm !! wid = None)) ->
  gfor_log wids (fun wid => checkWorker kp OnWorkerDead tt start gm wid (default "" (hm !! wid))) w
    = (r, w') -> loop_ok w w'.
Proof.
  revert w. induction wids as [|wid wids IH]; intros w Hnd Hok HP Hnow Hall Hf; simpl in Hf.
  { go_inv. by split_and!. }
  apply NoDup_cons in Hnd as [Hni Hnd]. go_inv1; [go_inv|]. go_inv1.
  destruct (Hall wid (or_introl eq_refl)) as ([v Hv] & Hb & Hg). rewrite Hv in Hb.
  match goal with Hc : checkWorker _ _ _ _ _ _ _ _ = _ |- _ =>
    rewrite Hv in Hc; simpl in Hc; eapply checkWorker_near in Hc as (C1 & O1 & P1 & N1); try done end.
  eapply IH in Hk as (C2 & O2 & P2); try done; [split_and!; [lia|done|done]|].
  intros wid' Hin. destruct (Hall wid' (or_intror Hin)) as (H1' & H2' & H3').
  rewrite N1; [by split_and!|]. intros [_ <-]. apply Hni. by apply list_elem_of_In.
Qed.

Lemma hx_read {A} (f : R -> A) (w : World (R * X)) r w' :
  hx (fun ry => (f ry, ry)) w = (r, w') ->
  st w' = st w /\ (calls w <= calls w')%nat /\ forall a, r = Ok a -> a = f (fst (st w)).
Proof.
  intros Hx. apply gext_inv in Hx as (Hc & [(e & _ & -> & Hst)|(_ & -> & Hst)]).
  - split_and!; [done|lia|done].
  - destruct (st w) as [rr xx]; simpl in *. split_and!; [done|lia|]. by intros a [= <-].
Qed.

Lemma checkTaskTypeWorkers_ok tt (w : World (R * X)) r w' :
  cells_now (fst (st w)) -> P (snd (st w)) -> 0 <= start < two63 ->
  checkTaskTypeWorkers kp OnWorkerDead tt start w = (r, w') -> loop_ok w w'.
Proof.
  intros Hok HP Hnow Hc. unfold checkTaskTypeWorkers in Hc. go_inv1.
  { apply gwrap_inv in Hm as [(? & ? & ?)|(? & Hx & ?)]; simplify_eq.
    apply hx_read in Hx as (Hst & Hle & _). unfold loop_ok. by rewrite Hst. }
  apply gwrap_inv in Hm as [(hm & Hx & ?)|(? & ? & ?)]; simplify_eq.
  apply hx_read in Hx as (Hst & Hle & Hhm). specialize (Hhm _ eq_refl).
  go_inv1; [go_inv|]. go_inv1. simplify_eq.
  match goal with Hx : hx _ _ = (?q, _) |- _ =>
    apply hx_read in Hx as (Hst1 & Hle1 & Hgm); rename q into g end.
  match goal with Hl : gfor_log _ _ _ = _ |- _ => eapply check_loop_ok in Hl as (C2 & O2 & P2) end.
  - split_and!; [lia|done|done].
  - rewrite map_range_perm. apply NoDup_fst_map_to_list.
  - by rewrite Hst1, Hst.
  - by rewrite Hst1, Hst.
  - done.
  - intros wid Hin. rewrite map_range_perm in Hin. apply in_map_iff in Hin as ([k v] & <- & Hin).
    apply list_elem_of_In, elem_of_map_to_list in Hin. simpl. rewrite Hst1, Hst.
    split; [by rewrite Hin|]. split; [done|]. destruct g as [m|e]; [|by right].
    left. rewrite (Hgm _ eq_refl), Hst. done.
Qed.

Lemma check_types_ok types (w : World (R * X)) r w' :
  cells_now (fst (st w)) -> P (snd (st w)) -> 0 <= start < two63 ->
  gfor_log types (fun tt => checkTaskTypeWorkers kp OnWorkerDead tt start) w = (r, w') -> loop_ok w w'.
Proof.
  revert w. induction types as [|tt types IH]; intros w Hok HP Hnow Hf; simpl in Hf.
  { go_inv. by split_and!. }
  go_inv1; [go_inv|]. go_inv1.
  match goal with Hc : checkTaskTypeWorkers _ _ _ _ _ = _ |- _ =>
    eapply checkTaskTypeWorkers_ok in Hc as (C1 & O1 & P1); try done end.
  eapply IH in Hk as (C2 & O2 & P2); try done. split_and!; [lia|done|done].
Qed.

Lemma key_scan_loop_st fuel cursor p keys (w : World (R * X)) r w' :
  key_scan_loop fuel cursor p keys w = (r, w') -> st w' = st w /\ (calls w <= calls w')%nat.
Proof.
  revert cursor keys w. induction fuel as [|fuel IH]; intros cursor keys w Hs; simpl in Hs.
  { by go_inv. }
  go_inv1.
  - apply gwrap_inv in Hm as [(? & ? & ?)|(? & Hx & ?)]; simplify_eq.
    by apply hx_read in Hx as (-> & Hle & _).
  - apply gwrap_inv in Hm as [(hm & Hx & ?)|(? & ? & ?)]; simplify_eq.
    apply hx_read in Hx as (Hst & Hle & _). destruct hm as [kk next].
    destruct (next =? 0); [go_inv; split; [done|lia]|]. apply IH in Hk as [-> Hle2]. split; [done|lia].
Qed.

Lemma CheckWorkerHealth_ok fuel (w : World (R * X)) r w' :
  cells_now (fst (st w)) -> P (snd (st w)) -> start = unix (env_clock (calls w)) ->
  CheckWorkerHealth kp OnWorkerDead fuel w = (r, w') -> loop_ok w w'.
Proof.
  intros Hok HP Estart Hc. unfold CheckWorkerHealth in Hc. rewrite gbind_eq in Hc. unfold gnow in Hc.
  rewrite <- Estart in Hc. cbv beta iota in Hc. set (w0 := mkWorld _ _) in Hc.
  assert (Hgo : forall r1 w1, getAllTaskTypes (X := X) kp fuel w0 = (r1, w1) ->
     st w1 = st w /\ (calls w <= calls w1)%nat).
  { intros r1 w1 Hb. unfold getAllTaskTypes in Hb. go_inv1; [|go_inv];
      match goal with Hx : key_scan_loop _ _ _ _ _ = _ |- _ => apply key_scan_loop_st in Hx as [? ?] end;
      subst w0; simpl in *; (split; [congruence|lia]). }
  go_inv1; apply Hgo in Hm as [Hst Hle].
  - subst. unfold loop_ok. by rewrite Hst.
  - apply check_types_ok in Hk as (C2 & O2 & P2);
      [split_and!; [lia|done|done]|by rewrite Hst|by rewrite Hst|rewrite Estart; apply unix_bounds].
Qed.
End CheckEffects.

(** * Histories *)
Section Histories.
Context `{Env} `{!ClockOk} `{SqlEnv} `{!SqlEnvOk _} {R X : Type} `{RedisHashes R} `{!RedisHashesOk R}.
Variable kp : string.
Variable OnWorkerDead : option (DeadWorkerInfo -> M X unit).
Hypothesis callback_calls : forall f info y, OnWorkerDead = Some f ->
  (calls y <= calls (snd (f info y)))%nat.

(** Any interleaving of heartbeats, deletions, checks and business code, with
    any failures of Redis, from empty hashes. *)
Inductive beaten : World (R * X) -> Prop :=
| beaten_init w : (forall tt wid, cell kp tt wid (fst (st w)) = (None, None)) -> beaten w
| beaten_set tt wid tid w : beaten w -> 0 <= tid < two64 -> beaten (snd (SetHeartbeat kp tt wid tid w))
| beaten_del tt wid w : beaten w -> beaten (snd (DeleteHeartbeat kp tt wid w))
| beaten_check fuel w : beaten w -> beaten (snd (CheckWorkerHealth kp OnWorkerDead fuel w))
| beaten_biz n x w : beaten w -> beaten (mkWorld (calls w + n) (fst (st w), x)).

(** A command on one cell that leaves it well formed. *)
Lemma hx_cells_ok tt wid (f : R -> R) (w : World (R * X)) r w' :
  cells_ok kp (fst (st w)) -> local kp tt wid f -> cell_ok (cell kp tt wid (f (fst (st w)))) ->
  hx (fun ry => (Datatypes.tt, f ry)) w = (r, w') -> cells_ok kp (fst (st w')).
Proof.
  intros Hok Hf Hc Hx. apply gext_inv in Hx as (_ & [(e & _ & _ & ->)|(_ & _ & ->)]); [done|].
  destruct (st w) as [rr xx]. simpl in *. intros tt' wid'.
  destruct (decide (tt = tt' /\ wid = wid')) as [[<- <-]|Hn]; [done|]. rewrite Hf by done. apply Hok.
Qed.

Lemma SetHeartbeat_ok tt wid tid (w : World (R * X)) :
  cells_ok kp (fst (st w)) -> 0 <= tid < two64 ->
  cells_ok kp (fst (after (SetHeartbeat kp tt wid tid) w)).
Proof.
  intros Hok Htid. unfold after, SetHeartbeat. rewrite gbind_eq. unfold gnow, gwrap.
  destruct (hx _ _) as [r w'] eqn:Hx.
  assert (Hw : cells_ok kp (fst (st w'))).
  { eapply hx_cells_ok; [| |..|exact Hx]; [done|apply set_local|].
    cbv beta. rewrite cell_set, decide_True by done. split; [|done]. simpl. intros v [= <-].
    eexists _, _. split; [reflexivity|]. split; [apply unix_bounds|done]. }
  by destruct r.
Qed.
Lemma DeleteHeartbeat_ok tt wid (w : World (R * X)) :
  cells_ok kp (fst (st w)) -> cells_ok kp (fst (after (DeleteHeartbeat kp tt wid) w)).
Proof.
  intros Hok. unfold after, DeleteHeartbeat, gwrap. destruct (hx _ _) as [r w'] eqn:Hx.
  assert (Hw : cells_ok kp (fst (st w'))).
  { eapply hx_cells_ok; [| |..|exact Hx]; [done|apply del_local|].
    cbv beta. rewrite cell_del, decide_True by done. apply cell_ok_none. }
  by destruct r.
Qed.

(** At its start a check has changed nothing. *)
Lemma cells_now_start start (r : R) : cells_ok kp r -> cells_now kp r start r.
Proof. intros Hok tt wid. split; [apply Hok|]. split; [done|]. intros _. by split; [|left]. Qed.

Lemma check_cells (P : X -> Prop) fuel (w : World (R * X)) :
  cells_ok kp (fst (st w)) ->
  (forall f info y, OnWorkerDead = Some f ->
     due kp (fst (st w)) (unix (env_clock (calls w))) info y -> P (st y) -> P (st (snd (f info y)))) ->
  P (snd (st w)) ->
  cells_now kp (fst (st w)) (unix (env_clock (calls w))) (fst (after (CheckWorkerHealth kp OnWorkerDead fuel) w)) /\
  P (snd (after (CheckWorkerHealth kp OnWorkerDead fuel) w)).
Proof.
  intros Hok HP Hw. unfold after. destruct (CheckWorkerHealth kp OnWorkerDead fuel w) as [r w'] eqn:Hc.
  eapply (CheckWorkerHealth_ok kp OnWorkerDead _ _ P) in Hc as (_ & O & HP'); try done.
  by apply cells_now_start.
Qed.

Lemma beaten_cells_ok w : beaten w -> cells_ok kp (fst (st w)).
Proof.
  induction 1 as [w Hi|tt wid tid w _ IH Htid|tt wid w _ IH|fuel w _ IH|n x w _ IH].
  - intros tt wid. rewrite Hi. apply cell_ok_none.
  - by apply SetHeartbeat_ok.
  - by apply DeleteHeartbeat_ok.
  - destruct (check_cells (fun _ => True) fuel w IH) as [O _]; [done|done|].
    intros tt wid. by destruct (O tt wid).
  - done.
Qed.

(** C5: after any history of heartbeats, deletions and checks, one after another,
    with any failures of Redis, a health check goes by the heartbeats: it calls
    the dead-worker callback only for a worker whose heartbeat was more than 30 s
    old when the check started, and with the task and the time of that very
    heartbeat (whatever fact [P] the callback keeps when called so, the check
    keeps); and a worker whose heartbeat was not older keeps it, with its grace
    entry left or cleared, never made. *)
Theorem health_check_judges (P : X -> Prop) fuel w :
  beaten w ->
  let now := unix (env_clock (calls w)) in
  let r := fst (st w) in
  let r' := fst (after (CheckWorkerHealth kp OnWorkerDead fuel) w) in
  (forall f info y, OnWorkerDead = Some f ->
     fst (cell kp (d_TaskType info) (d_WorkerID info) r) = Some (beat (d_LastHeartbeat info) (d_TaskID info)) ->
     30 < now - d_LastHeartbeat info -> P (st y) -> P (st (snd (f info y)))) ->
  P (snd (st w)) ->
  P (snd (after (CheckWorkerHealth kp OnWorkerDead fuel) w)) /\
  forall tt wid ts tid, fst (cell kp tt wid r) = Some (beat ts tid) ->
    0 <= ts < two63 -> 0 <= tid < two64 -> now - ts <= 30 ->
    fst (cell kp tt wid r') = Some (beat ts tid) /\
    (snd (cell kp tt wid r') = snd (cell kp tt wid r) \/ snd (cell kp tt wid r') = None).
Proof.
  intros Hr now r r' HP Hw. destruct (check_cells P fuel w (beaten_cells_ok w Hr)) as [O HP']; [|done|].
  { intros f info y Hf (Hb & Hlate & _). by apply (HP f info y). }
  split; [done|]. intros tt wid ts tid Hb Hts Htid Hle. destruct (O tt wid) as (_ & _ & Hh).
  rewrite <- Hb. apply Hh. by exists ts, tid.
Qed.

(** In the same histories the callback is called only for workers whose last
    heartbeat is more than 90 s old at the call: the code counts the 60 s of the
    grace period from the check that found the worker overdue. *)
Theorem callback_only_after_90s (P : X -> Prop) fuel w :
  (forall f info y, OnWorkerDead = Some f ->
     90 < unix (env_clock (calls y)) - d_LastHeartbeat info -> P (st y) -> P (st (snd (f info y)))) ->
  beaten w -> P (snd (st w)) -> P (snd (after (CheckWorkerHealth kp OnWorkerDead fuel) w)).
Proof.
  intros HP Hr Hw. destruct (check_cells P fuel w (beaten_cells_ok w Hr)) as [_ HP']; [|done|done].
  intros f info y Hf (_ & _ & Hlate). by apply (HP f info y).
Qed.

(** A heartbeat is read back: whatever happens in between to other keys,
    as long as the worker's cell is the one [SetHeartbeat] left, the worker is
    reported alive exactly until 30 s after the clock reading of the heartbeat,
    for every task id, and its grace entry is gone. *)
Theorem heartbeat_alive tt wid tid (w w2 : World (R * X)) :
  env_fault (S (calls w)) = None -> env_fault (calls w2) = None -> 0 <= tid < two64 ->
  cell kp tt wid (fst (st w2)) = cell kp tt wid (fst (after (SetHeartbeat kp tt wid tid) w)) ->
  fst (SetHeartbeat kp tt wid tid w) = Ok Datatypes.tt /\
  snd (cell kp tt wid (fst (st w2))) = None /\
  fst (IsWorkerAlive kp tt wid w2)
    = Ok (unix (env_clock (S (calls w2))) - unix (env_clock (calls w)) <=? 30).
Proof.
  intros Hf Hf2 Htid Hcell. unfold after, SetHeartbeat in *. rewrite gbind_eq in *. unfold gnow, gwrap, hx in *.
  rewrite gext_ok in * by done. simpl in *. destruct (st w) as [r x]. simpl in *.
  rewrite cell_set, decide_True in Hcell by done. unfold cell in *. injection Hcell as Hb Hg.
  split; [done|]. split; [done|].
  unfold IsWorkerAlive. rewrite gbind_eq. unfold hx. rewrite gext_ok by done.
  destruct (st w2) as [r2 x2]. simpl in *. rewrite Hb.
  pose proof (unix_bounds (calls w)). pose proof (unix_bounds (S (calls w2))).
  rewrite beat_split, ParseInt_fmt_d by lia. unfold gbind, gnow, gret. simpl.
  by rewrite wrap_i64_id by lia.
Qed.
(** The phase of a worker from the age of its heartbeat, the time its grace
    entry was made and the current time. *)
Definition phase (elapsed : Z) (entered : option Z) (now : Z) : WorkerStatus :=
  if elapsed <=? 30 then WorkerStatusHealthy
  else match entered with
       | Some n => if 60 <? now - n then WorkerStatusDead else WorkerStatusGracePeriod
       | None => WorkerStatusGracePeriod
       end.

Lemma getWorkerStatus_phase wid ts entered now (gm : gmap string string) (w : World (R * X)) :
  0 <= ts < two63 -> 0 <= now < two63 ->
  (forall n, entered = Some n -> 0 <= n < two63) ->
  gm !! wid = option_map (fun n => beat n ts) entered ->
  exists c, (calls w <= c)%nat /\ getWorkerStatus (wrap_i64 (now - ts)) wid gm w
    = (Ok (phase (now - ts) entered (unix (env_clock (calls w)))), mkWorld c (st w)).
Proof.
  intros Hts Hnow Hent Hg. unfold getWorkerStatus, phase, WorkerHeartbeatTimeout.
  rewrite wrap_i64_id, Hg by lia.
  destruct (_ <=? 30); [exists (calls w); split; [done|by destruct w]|].
  destruct entered as [n|]; simpl; [|exists (calls w); split; [done|by destruct w]].
  specialize (Hent n eq_refl). pose proof (unix_bounds (calls w)).
  rewrite beat_split by lia. cbn [hd]. rewrite ParseInt_fmt_d by lia. unfold gbind, gnow, gret, GracePeriodTimeout. simpl.
  rewrite wrap_i64_id by lia. exists (Datatypes.S (calls w)). split; [lia|done].
Qed.

Lemma gtry_eq {S A} (m : M S A) w0 : gtry m w0 = (Ok (fst (m w0)), snd (m w0)).
Proof. unfold gtry. by destruct (m w0). Qed.

Lemma call_dead_hash info (w : World (R * X)) :
  (calls w <= calls (snd (call_dead (R := R) OnWorkerDead info w)))%nat /\
  fst (after (call_dead (R := R) OnWorkerDead info) w) = fst (st w).
Proof.
  unfold after, call_dead. destruct OnWorkerDead as [f|] eqn:Ef; [|done]. unfold biz.
  pose proof (callback_calls f info (mkWorld (calls w) (snd (st w))) eq_refl) as Hc.
  by destruct (f info _) as [r1 w1].
Qed.

(** Without Redis failures one turn of the check moves a worker through the
    three phases: a heartbeat of at most 30 s keeps it healthy and clears its
    grace entry; an older one opens a grace entry the first time and leaves it
    while it is at most 60 s old; after that the callback is called, and the
    worker's cell is emptied when the callback succeeds and kept when it
    fails. *)
Theorem checkWorker_phases tt wid ts tid entered now gm (w : World (R * X)) :
  no_fault_from (calls w) ->
  0 <= ts < two63 -> 0 <= tid < two64 -> 0 <= now < two63 ->
  (forall n, entered = Some n -> 0 <= n < two63) ->
  cell kp tt wid (fst (st w)) = (Some (beat ts tid), option_map (fun n => beat n ts) entered) ->
  gm !! wid = option_map (fun n => beat n ts) entered ->
  exists c, (calls w <= c)%nat /\
  cell kp tt wid (fst (after (checkWorker kp OnWorkerDead tt now gm wid (beat ts tid)) w)) =
  match phase (now - ts) entered (unix (env_clock (calls w))) with
  | WorkerStatusHealthy => (Some (beat ts tid), None)
  | WorkerStatusGracePeriod =>
      (Some (beat ts tid), Some (beat (default now entered) ts))
  | WorkerStatusDead =>
      match fst (call_dead (R := R) OnWorkerDead (mkDead wid tt tid ts) (mkWorld c (st w))) with
      | Ok _ => (None, None)
      | Err _ => (Some (beat ts tid), option_map (fun n => beat n ts) entered)
      end
  end.
Proof.
  intros Hnf Hts Htid Hnow Hent Hcell Hg. unfold after, checkWorker.
  rewrite beat_split by lia. cbv beta iota. rewrite ParseInt_fmt_d, ParseUint_fmt_d by lia. cbn [default].
  destruct (getWorkerStatus_phase wid ts entered now gm w Hts Hnow Hent Hg) as (c & Hc & Hst).
  exists c. split; [done|]. rewrite gbind_eq, Hst.
  assert (Hnf' : no_fault_from c) by (by eapply no_fault_le).
  unfold apply_status. rewrite Hg. destruct (phase _ _ _) eqn:Eph.
  - destruct entered as [n|]; simpl; [|done]. rewrite gbind_eq. unfold gtry, hx.
    rewrite gext_ok by (by apply Hnf'). simpl. destruct (st w) as [rr xx]; simpl in *.
    by rewrite cell_clear, decide_True, Hcell.
  - destruct entered as [n|]; simpl; [done|]. rewrite gbind_eq. unfold gtry, hx.
    rewrite gext_ok by (by apply Hnf'). simpl. destruct (st w) as [rr xx]; simpl in *.
    by rewrite cell_enter, decide_True, Hcell.
  - rewrite gbind_eq, gtry_eq.
    destruct (call_dead_hash (mkDead wid tt tid ts) (mkWorld c (st w))) as [Hle Hh].
    unfold after in Hh. simpl in Hle, Hh.
    set (cd := call_dead _ _ _) in *. destruct cd as [[[]|e] w1]; simpl in *; [|by rewrite Hh].
    rewrite gbind_eq. unfold gtry, DeleteHeartbeat, gwrap, hx. rewrite gext_ok by (by apply Hnf').
    simpl. destruct (st w1) as [r1 x1]; simpl in *. by rewrite cell_del, decide_True.
Qed.
End Histories.

(** * A worker that dies *)
(** 100 s per call, up to the end of the clock. *)
Definition cappedEnv : Env :=
  {| env_clock := fun n => Z.min (two63 - 1) ((1000 + 100 * Z.of_nat n) * Second);
     env_fault := fun _ => None |}.
Lemma cappedEnv_ok : @ClockOk cappedEnv.
Proof. split; intros; unfold env_clock, cappedEnv, Second, two63; lia. Qed.

(** The callback notes how long the worker had been silent. *)
Definition note_age (info : DeadWorkerInfo) : M (list Z) unit :=
  fun y => (Ok tt, mkWorld (calls y) (st y ++ [unix (env_clock (Env := cappedEnv) (calls y)) - d_LastHeartbeat info])).

Definition MemBeats : Type := gmap string (gmap string string) * list Z.
Definition beat_once : World MemBeats :=
  snd (SetHeartbeat (H := cappedEnv) "task:" "a" "w1" 7 (mkWorld 0 (∅, []))).
Definition check_once (w : World MemBeats) : World MemBeats :=
  snd (CheckWorkerHealth (H := cappedEnv) (H0 := plainSql) "task:" (Some note_age) 5 w).

Lemma note_age_calls f info y : Some note_age = Some f -> (calls y <= calls (snd (f info y)))%nat.
Proof. by intros [= <-]. Qed.

Lemma beat_once_beaten :
  beaten (H := cappedEnv) (H1 := plainSql) "task:" (Some note_age) (check_once beat_once).
Proof.
  apply beaten_check. apply beaten_set; [|unfold two64; lia]. apply beaten_init.
  intros t wid. unfold cell. simpl. unfold mem_hash. by rewrite !lookup_empty.
Qed.

(** The second check calls the callback once. *)
Lemma callback_only_after_90s_witness :
  Forall (fun age => 90 < age) (snd (st (check_once (check_once beat_once)))) /\
  snd (st (check_once (check_once beat_once))) = [1200].
Proof.
  split; [|vm_compute; reflexivity].
  apply (@callback_only_after_90s cappedEnv cappedEnv_ok plainSql plainSqlOk _ _ _ MemHashesOk "task:"
           (Some note_age) note_age_calls (Forall (fun age => 90 < age))).
  - intros f info y [= <-] Hage HP. simpl. apply Forall_app. split; [exact HP|].
    apply Forall_cons_2; [exact Hage|apply Forall_nil_2].
  - exact beat_once_beaten.
  - vm_compute. apply Forall_nil_2.
Defined.

(** 10 s per call, and a callback that notes the heartbeat it is told. *)
Definition tenEnv : Env :=
  {| env_clock := fun n => Z.min (two63 - 1) ((1000 + 10 * Z.of_nat n) * Second);
     env_fault := fun _ => None |}.
Lemma tenEnv_ok : @ClockOk tenEnv.
Proof. split; intros; unfold env_clock, tenEnv, Second, two63; lia. Qed.
Definition note_beat (info : DeadWorkerInfo) : M (list Z) unit :=
  fun y => (Ok tt, mkWorld (calls y) (st y ++ [d_LastHeartbeat info])).
Lemma note_beat_calls f info y : Some note_beat = Some f -> (calls y <= calls (snd (f info y)))%nat.
Proof. by intros [= <-]. Qed.

Definition ten_beat (t wid : string) (id : Z) (w : World MemBeats) : World MemBeats :=
  snd (SetHeartbeat (H := tenEnv) "task:" t wid id w).
Definition ten_check (w : World MemBeats) : World MemBeats :=
  snd (CheckWorkerHealth (H := tenEnv) (H0 := plainSql) "task:" (Some note_beat) 5 w).
Definition pass (n : nat) (w : World MemBeats) : World MemBeats := mkWorld (calls w + n) (fst (st w), snd (st w)).
(** Worker ["w1"] has been silent since its first beat; ["w2"] has just beaten. *)
Definition two_workers : World MemBeats :=
  ten_beat "b" "w2" 8 (pass 20 (ten_check (pass 10 (ten_beat "a" "w1" 7 (mkWorld 0 (∅, [])))))).
Lemma two_workers_beaten : beaten (H := tenEnv) (H1 := plainSql) "task:" (Some note_beat) two_workers.
Proof.
  apply beaten_set; [|unfold two64; lia]. apply beaten_biz, beaten_check, beaten_biz.
  apply beaten_set; [|unfold two64; lia]. apply beaten_init.
  intros t wid. unfold cell. simpl. unfold mem_hash. by rewrite !lookup_empty.
Qed.

Lemma health_check_judges_witness :
  Forall (fun ts => 30 < unix (env_clock (Env := tenEnv) (calls two_workers)) - ts) (snd (st (ten_check two_workers))) /\
  snd (st (ten_check two_workers)) = [1000] /\
  fst (cell "task:" "b" "w2" (fst (st (ten_check two_workers)))) = fst (cell "task:" "b" "w2" (fst (st two_workers))) /\
  fst (cell "task:" "b" "w2" (fst (st two_workers))) <> None.
Proof.
  destruct (@health_check_judges tenEnv tenEnv_ok plainSql plainSqlOk _ _ _ MemHashesOk "task:" (Some note_beat)
    note_beat_calls (Forall (fun ts => 30 < unix (env_clock (Env := tenEnv) (calls two_workers)) - ts)) 5
    two_workers two_workers_beaten) as [Hlog Hkeep].
  - intros f info y [= <-] _ Hlate HP. simpl. apply Forall_app. split; [exact HP|].
    apply Forall_cons_2; [exact Hlate|apply Forall_nil_2].
  - vm_compute. apply Forall_nil_2.
  - assert (Hb : exists ts, fst (cell "task:" "b" "w2" (fst (st two_workers))) = Some (beat ts 8) /\
      0 <= ts < two63 /\ unix (env_clock (Env := tenEnv) (calls two_workers)) - ts <= 30).
    { eexists. split; [reflexivity|]. split; [split; vm_compute; congruence|vm_compute; congruence]. }
    destruct Hb as (ts & Hb & Hts & Hle). split_and!.
    + exact Hlog.
    + vm_compute. reflexivity.
    + rewrite Hb. apply (Hkeep "b" "w2" ts 8); [exact Hb|exact Hts|unfold two64; lia|exact Hle].
    + rewrite Hb. discriminate.
Defined.

Lemma heartbeat_alive_witness :
  fst (IsWorkerAlive (H := cappedEnv) "task:" "a" "w1" beat_once) = Ok false /\
  snd (cell "task:" "a" "w1" (fst (st beat_once))) = None.
Proof.
  split; [vm_compute; reflexivity|].
  apply (@heartbeat_alive cappedEnv cappedEnv_ok _ _ _ MemHashesOk "task:" "a" "w1" 7 (mkWorld 0 (∅, [])) beat_once).
  - reflexivity.
  - reflexivity.
  - unfold two64. lia.
  - reflexivity.
Defined.

Lemma checkWorker_phases_witness :
  exists c, (4 <= c)%nat /\ cell "task:" "a" "w1" (fst (after (checkWorker (H := cappedEnv) "task:" (Some note_age)
      "a" 1200 ∅ "w1" (beat 1000 7)) (mkWorld 4 (st beat_once)))) =
    match phase 200 None (unix (env_clock (Env := cappedEnv) 4)) with
    | WorkerStatusHealthy => (Some (beat 1000 7), None)
    | WorkerStatusGracePeriod => (Some (beat 1000 7), Some (beat 1200 1000))
    | WorkerStatusDead => match fst (call_dead (R := gmap string (gmap string string)) (Some note_age)
        (mkDead "w1" "a" 7 1000) (mkWorld c (st beat_once))) with
        | Ok _ => (None, None) | Err _ => (Some (beat 1000 7), None) end
    end.
Proof.
  apply (@checkWorker_phases cappedEnv cappedEnv_ok _ _ _ MemHashesOk "task:" (Some note_age) note_age_calls
           "a" "w1" 1000 7 None 1200 ∅ (mkWorld 4 (st beat_once))).
  - intros i _. reflexivity.
  - unfold two63. lia.
  - unfold two64. lia.
  - unfold two63. lia.
  - discriminate.
  - vm_compute. reflexivity.
  - reflexivity.
Defined.
