(* ===== verification/TaskRoutines.v ===== *)
(** The goroutines of the task services: [startRoutine], the loops of
    [src/task/manager/manager.go], [src/task/health/checker.go] and
    [src/task/worker/worker.go], and [Start] and [Stop] step by step, interleaved
    with them.  A service is described by the routines that a start launches. *)
From S2P Require Import Prelude TaskManager.
#[local] Open Scope Z_scope.

(** * The loops *)
(** The work of one turn is a step; the loop around it is
    [for { select { case <-ctx.Done(): return; case <-ticker.C: work } }].  The
    timeout check works once before its loop; the loop of a worker has a default
    branch in place of a ticker, which is taken only while the context lives. *)
Inductive Kind : Type := QueueSyncer | TimeoutChecker | HealthChecker | WorkerLoop (name : string) | HealthReporter.
#[export] Instance Kind_eq : EqDecision Kind. Proof. solve_decision. Defined.
Definition works_first (k : Kind) : bool := match k with TimeoutChecker => true | _ => false end.
Definition manager_routines : list Kind := [QueueSyncer; TimeoutChecker].
Definition checker_routines : list Kind := [HealthChecker].
(** Where a routine is.  Each turn of the loop reads the context of the service
    anew, and then waits on that one. *)
Inductive Pc : Type := Looping | Selecting (ctx : nat) | Working | Over.
#[export] Instance Pc_eq : EqDecision Pc. Proof. solve_decision. Defined.
(** The branches of a [select] on a context that may be canceled, and where each
    leads; [None] for one that is not ready.  A ticker may be ready at any time,
    and of two branches that are ready either is taken; the default branch of a
    worker is taken when its context is not done. *)
Inductive Branch : Type := CtxDone | Other.
Definition ticker_select (cancelled : bool) (b : Branch) : option Pc :=
  match b with CtxDone => if cancelled then Some Over else None | Other => Some Working end.
Definition queueSyncRoutine : bool -> Branch -> option Pc := ticker_select.
Definition timeoutCheckRoutine : bool -> Branch -> option Pc := ticker_select.
Definition healthCheckRoutine : bool -> Branch -> option Pc := ticker_select.
Definition healthReportRoutine : bool -> Branch -> option Pc := ticker_select.
Definition worker_select (cancelled : bool) (b : Branch) : option Pc :=
  match b with CtxDone => if cancelled then Some Over else None | Other => if cancelled then None else Some Working end.
Definition loop_of (k : Kind) : bool -> Branch -> option Pc :=
  match k with
  | QueueSyncer => queueSyncRoutine
  | TimeoutChecker => timeoutCheckRoutine
  | HealthChecker => healthCheckRoutine
  | HealthReporter => healthReportRoutine
  | WorkerLoop _ => worker_select
  end.
Lemma loop_done k cancelled : loop_of k cancelled CtxDone = if cancelled then Some Over else None.
Proof. by destruct k. Qed.
Lemma loop_other k cancelled p : loop_of k cancelled Other = Some p -> p = Working.
Proof. by destruct k, cancelled; try done; intros [= <-]. Qed.
Record Routine : Type := mkRoutine { kind : Kind; pc : Pc }.
Definition set_pc (p : Pc) (r : Routine) : Routine := mkRoutine r.(kind) p.
Definition live (r : Routine) : bool := bool_decide (r.(pc) <> Over).
(** A call of [Stop]: behind its check, waiting, with the wait behind it, and
    returned. *)
Inductive StopPc : Type := Checked | Waiting | Waited | Returned.
#[export] Instance StopPc_eq : EqDecision StopPc. Proof. solve_decision. Defined.
(** The contexts are numbered as they are made. *)
Record Svc : Type := mkSvc { on : bool; cur : nat; cancelled : list nat; rs : list Routine; stops : list StopPc }.
Definition newSvc : Svc := mkSvc false 0 [] [] [].
Definition set_rs (l : list Routine) (s : Svc) : Svc := mkSvc s.(on) s.(cur) s.(cancelled) l s.(stops).
Definition set_stops (l : list StopPc) (s : Svc) : Svc := mkSvc s.(on) s.(cur) s.(cancelled) s.(rs) l.
Definition is_cancelled (c : nat) (s : Svc) : bool := existsb (Nat.eqb c) s.(cancelled).

Section Service.
Context (kinds : list Kind).
Definition startRoutine (k : Kind) : Routine := mkRoutine k (if works_first k then Working else Looping).
(** [Start] holds the lock from its check to its end. *)
Definition start (s : Svc) : Svc :=
  if s.(on) then s else mkSvc true (S s.(cur)) s.(cancelled) (s.(rs) ++ map startRoutine kinds) s.(stops).
Definition stop_checks (s : Svc) : Svc := if s.(on) then set_stops (s.(stops) ++ [Checked]) s else s.
Definition stop_cancels (j : nat) (s : Svc) : Svc := mkSvc s.(on) s.(cur) (s.(cur) :: s.(cancelled)) s.(rs) (<[j := Waiting]> s.(stops)).
Definition stop_ends (j : nat) (s : Svc) : Svc := mkSvc false s.(cur) s.(cancelled) s.(rs) (<[j := Returned]> s.(stops)).
Inductive Event : Type :=
  | EStart | EStop                                            (* a call begins *)
  | ECancel (j : nat) | EDone (j : nat) | EAfter30s (j : nat) | EReturn (j : nat)   (* the j-th Stop goes on *)
  | ELoop (i : nat) | ETick (i : nat) | EQuit (i : nat) | EWorked (i : nat) | EPanicked (i : nat).  (* the i-th routine does *)
Definition stop_at (j : nat) (p : StopPc) (s : Svc) : bool := bool_decide (s.(stops) !! j = Some p).
Definition routine_step (i : nat) (f : Routine -> option Pc) (s : Svc) : option Svc :=
  r ← s.(rs) !! i; p ← f r; Some (set_rs (<[i := set_pc p r]> s.(rs)) s).
Definition step (e : Event) (s : Svc) : option Svc :=
  match e with
  | EStart => Some (start s)
  | EStop => Some (stop_checks s)
  | ECancel j => if stop_at j Checked s then Some (stop_cancels j s) else None
  | EDone j => if stop_at j Waiting s && forallb (fun r => negb (live r)) s.(rs) then Some (set_stops (<[j := Waited]> s.(stops)) s) else None
  | EAfter30s j => if stop_at j Waiting s then Some (set_stops (<[j := Waited]> s.(stops)) s) else None
  | EReturn j => if stop_at j Waited s then Some (stop_ends j s) else None
  | ELoop i => routine_step i (fun r => match r.(pc) with Looping => Some (Selecting s.(cur)) | _ => None end) s
  | ETick i => routine_step i (fun r => match r.(pc) with Selecting c => loop_of r.(kind) (is_cancelled c s) Other | _ => None end) s
  | EQuit i => routine_step i (fun r => match r.(pc) with Selecting c => loop_of r.(kind) (is_cancelled c s) CtxDone | _ => None end) s
  | EWorked i => routine_step i (fun r => match r.(pc) with Working => Some Looping | _ => None end) s
  | EPanicked i => routine_step i (fun r => match r.(pc) with Working => Some Over | _ => None end) s
  end.
Fixpoint run (l : list Event) (s : Svc) : option Svc := match l with [] => Some s | e :: l' => s' ← step e s; run l' s' end.
Definition count (k : Kind) (l : list Routine) : nat := length (List.filter (fun r => bool_decide (r.(kind) = k) && live r) l).
Definition stopping (s : Svc) : bool := existsb (fun p => bool_decide (p <> Returned)) s.(stops).
(** An event of a caller that calls [Stop] only when no other call of it is on,
    and that always sees its routines end; [panics] says whether work panics. *)
Definition orderly (panics : bool) (e : Event) (s : Svc) : bool :=
  match e with EAfter30s _ => false | EStop => negb (stopping s) | EPanicked _ => panics | _ => true end.
Inductive reachable (panics : bool) : Svc -> Prop :=
  | reach_new : reachable panics newSvc
  | reach_step e s s' : reachable panics s -> orderly panics e s = true -> step e s = Some s' -> reachable panics s'.

(** * One loop of each kind *)
Definition over (r : Routine) : Prop := r.(pc) = Over.
Record Inv (panics : bool) (s : Svc) : Prop := {
  i_off : s.(on) = false -> Forall over s.(rs) /\ Forall (eq Returned) s.(stops);
  i_gen : s.(on) = true -> exists old gen, s.(rs) = (old ++ gen)%list /\ Forall over old /\ map kind gen = kinds /\
            (panics = false -> is_cancelled s.(cur) s = false -> Forall (fun r => r.(pc) <> Over) gen);
  i_sel : forall i r c, s.(rs) !! i = Some r -> r.(pc) = Selecting c -> c = s.(cur);
  i_one : forall j j' p p', s.(stops) !! j = Some p -> s.(stops) !! j' = Some p' -> p <> Returned -> p' <> Returned -> j = j';
  i_waited : forall j, s.(stops) !! j = Some Waited -> Forall over s.(rs);
  i_wait : forall j, s.(stops) !! j = Some Waiting -> is_cancelled s.(cur) s = true;
  i_live : s.(on) = true -> stopping s = false -> is_cancelled s.(cur) s = false;
  i_made : Forall (fun c => (c <= s.(cur))%nat) s.(cancelled)
}.
Lemma not_stopping s : stopping s = false <-> Forall (eq Returned) s.(stops).
Proof.
  unfold stopping. induction (stops s) as [|p l IH]; [done|]. cbn. rewrite orb_false_iff, Forall_cons, IH, bool_decide_eq_false.
  split; intros [H1 H2]; split; try done; [destruct (decide (p = Returned)); [done|by destruct H1]|subst; by intros []].
Qed.
Lemma not_live_over l : forallb (fun r => negb (live r)) l = true <-> Forall over l.
Proof.
  induction l as [|r l IH]; [done|]. cbn. rewrite andb_true_iff, Forall_cons, IH. unfold live, over. rewrite negb_true_iff, bool_decide_eq_false.
  split; intros [H1 H2]; split; try done; [destruct (decide (pc r = Over)); [done|by destruct H1]|by intros []].
Qed.
Lemma fresh_live c l : Forall (fun x => (x <= c)%nat) l -> existsb (Nat.eqb (S c)) l = false.
Proof.
  intros H. apply not_true_iff_false. rewrite existsb_exists. intros (x & Hx & E). rewrite Nat.eqb_eq in E. subst x.
  rewrite Forall_forall in H. specialize (H (S c) ltac:(by apply list_elem_of_In)). cbn in H. lia.
Qed.
(** The step of a routine that is not over. *)
Lemma routine_inv panics i f s s' : Inv panics s -> (forall r p, f r = Some p -> r.(pc) <> Over) ->
  (forall r p c, f r = Some p -> p = Selecting c -> c = s.(cur)) ->
  (forall r, s.(rs) !! i = Some r -> f r = Some Over -> panics = true \/ is_cancelled s.(cur) s = true) ->
  routine_step i f s = Some s' -> Inv panics s'.
Proof.
  intros [Hoff Hgen Hsel Hone Hwaited Hwait Hlive Hmade] Hf Hp Ho. unfold routine_step. intros (r & Hr & (p & Ep & [= <-])%bind_Some)%bind_Some.
  assert (Hnot : ~ Forall over (rs s)).
  { intros Ha. rewrite Forall_lookup in Ha. by apply (Hf r p Ep), (Ha i). }
  split; cbn [set_rs on cur cancelled rs stops].
  - intros E. by destruct (Hoff E).
  - intros E. destruct (Hgen E) as (old & gen & Ers & Hold & Hk & Hl). rewrite Ers in Hr |- *.
    assert (Hi : (length old <= i)%nat).
    { destruct (Nat.le_gt_cases (length old) i); [done|]. rewrite lookup_app_l in Hr by done. rewrite Forall_lookup in Hold. by destruct (Hf r p Ep (Hold i r Hr)). }
    rewrite lookup_app_r in Hr by done. exists old, (<[(i - length old)%nat := set_pc p r]> gen). rewrite insert_app_r_alt by done.
    split; [done|]. split; [done|]. split.
    + rewrite <- Hk, list_fmap_insert. apply list_insert_id. by rewrite list_lookup_fmap, Hr.
    + intros Hpan Hc. specialize (Hl Hpan Hc). apply Forall_insert; [done|]. cbn. intros ->.
      destruct (Ho r) as [?|?]; [by rewrite Ers, lookup_app_r|done|by rewrite Hpan in *|].
      change (is_cancelled (cur s) s = false) in Hc. congruence.
  - intros i' r' c Hi' E. apply list_lookup_insert_Some in Hi' as [(<- & <- & _)|(_ & Hi')]; [|by apply (Hsel i' r')].
    cbn in E. by apply (Hp r p c Ep E).
  - exact Hone.
  - intros j Hj. by destruct (Hnot (Hwaited j Hj)).
  - exact Hwait.
  - exact Hlive.
  - exact Hmade.
Qed.
Lemma start_inv panics s : Inv panics s -> Inv panics (start s).
Proof.
  intros HI. unfold start. destruct (on s) eqn:Eon; [done|]. destruct (i_off _ _ HI Eon) as [Hrs Hstops].
  assert (Hfresh : existsb (Nat.eqb (S (cur s))) (cancelled s) = false) by apply fresh_live, (i_made _ _ HI).
  split; cbn [on cur cancelled rs stops].
  - done.
  - intros _. exists (rs s), (map startRoutine kinds). split; [done|]. split; [done|]. split; [rewrite map_map; apply map_id|].
    intros _ _. apply Forall_forall. intros r Hr. apply list_elem_of_In, in_map_iff in Hr as (k & <- & _). unfold startRoutine. cbn. by destruct (works_first k).
  - intros i r c Hi E. exfalso. apply lookup_app_Some in Hi as [Hi|[_ Hi]].
    + rewrite Forall_lookup in Hrs. specialize (Hrs i r Hi). unfold over in Hrs. congruence.
    + apply list_elem_of_lookup_2, list_elem_of_In, in_map_iff in Hi as (k & <- & _). cbn in E. by destruct (works_first k).
  - apply (i_one _ _ HI).
  - intros j Hj. rewrite Forall_lookup in Hstops. by specialize (Hstops j _ Hj).
  - intros j Hj. rewrite Forall_lookup in Hstops. by specialize (Hstops j _ Hj).
  - intros _ _. exact Hfresh.
  - apply (Forall_impl _ _ _ (i_made _ _ HI)). intros c Hc. lia.
Qed.
Lemma stop_inv panics s : negb (stopping s) = true -> Inv panics s -> Inv panics (stop_checks s).
Proof.
  intros Hn HI. unfold stop_checks. destruct (on s) eqn:Eon; [|done]. apply negb_true_iff in Hn. pose proof (proj1 (not_stopping s) Hn) as Hret.
  rewrite Forall_lookup in Hret.
  assert (Hat : forall j p, (stops s ++ [Checked]) !! j = Some p -> p <> Returned -> j = length (stops s) /\ p = Checked).
  { intros j p Hj Hp. apply lookup_app_Some in Hj as [Hj|[Hl Hj]]; [by destruct Hp; symmetry; apply (Hret j)|].
    apply list_lookup_singleton_Some in Hj as [Hj <-]. split; [lia|done]. }
  split; cbn [set_stops on cur cancelled rs stops].
  - intros E. congruence.
  - intros _. apply (i_gen _ _ HI Eon).
  - apply (i_sel _ _ HI).
  - intros j j' p p' Hj Hj' Hp Hp'. destruct (Hat j p Hj Hp) as [-> _], (Hat j' p' Hj' Hp') as [-> _]. done.
  - intros j Hj. by destruct (Hat j Waited Hj).
  - intros j Hj. by destruct (Hat j Waiting Hj).
  - intros _ _. apply (i_live _ _ HI Eon Hn).
  - apply (i_made _ _ HI).
Qed.
(** What a call of [Stop] that goes on keeps. *)
Lemma others_returned panics s j p : Inv panics s -> stops s !! j = Some p -> p <> Returned -> on s = true /\
  forall q j' p', <[j := q]> (stops s) !! j' = Some p' -> p' <> Returned -> j' = j /\ p' = q.
Proof.
  intros HI Hj Hp. split.
  - destruct (on s) eqn:E; [done|]. destruct (i_off _ _ HI E) as [_ Hs]. rewrite Forall_lookup in Hs. by destruct Hp; symmetry; apply (Hs j).
  - intros q j' p' Hj' Hp'. apply list_lookup_insert_Some in Hj' as [(<- & <- & _)|(Hne & Hj')]; [done|]. destruct Hne. by apply (i_one _ _ HI j j' p p').
Qed.
Lemma stopping_now l j p s : stops s !! j = Some p -> l <> Returned -> existsb (fun q => bool_decide (q <> Returned)) (<[j := l]> (stops s)) = true.
Proof.
  intros Hj Hl. apply existsb_exists. exists l. split; [|by apply bool_decide_eq_true]. apply list_elem_of_In. apply (list_elem_of_lookup_2 _ j).
  apply list_lookup_insert_eq. by apply lookup_lt_Some in Hj.
Qed.
Lemma cancel_inv panics j s : stops s !! j = Some Checked -> Inv panics s -> Inv panics (stop_cancels j s).
Proof.
  intros Hj HI. destruct (others_returned _ _ _ _ HI Hj) as [Eon Hat]; [done|]. split; cbn [stop_cancels on cur cancelled rs stops].
  - intros E. congruence.
  - intros _. destruct (i_gen _ _ HI Eon) as (old & gen & E & Hold & Hk & _). exists old, gen. split; [done|]. split; [done|]. split; [done|].
    intros _ Hc. unfold is_cancelled in Hc. cbn in Hc. by rewrite Nat.eqb_refl in Hc.
  - apply (i_sel _ _ HI).
  - intros j1 j2 p1 p2 H1 H2 Hp1 Hp2. destruct (Hat _ _ _ H1 Hp1) as [-> _], (Hat _ _ _ H2 Hp2) as [-> _]. done.
  - intros j' Hj'. by destruct (Hat _ _ _ Hj').
  - intros _ _. unfold is_cancelled. cbn. by rewrite Nat.eqb_refl.
  - intros _ Hs. unfold stopping in Hs. cbn [stop_cancels stops] in Hs. by rewrite (stopping_now Waiting j Checked) in Hs.
  - apply Forall_cons. split; [lia|apply (i_made _ _ HI)].
Qed.
Lemma done_inv panics j s : stops s !! j = Some Waiting -> Forall over (rs s) -> Inv panics s -> Inv panics (set_stops (<[j := Waited]> (stops s)) s).
Proof.
  intros Hj Ha HI. destruct (others_returned _ _ _ _ HI Hj) as [Eon Hat]; [done|]. split; cbn [set_stops on cur cancelled rs stops].
  - intros E. congruence.
  - intros _. apply (i_gen _ _ HI Eon).
  - apply (i_sel _ _ HI).
  - intros j1 j2 p1 p2 H1 H2 Hp1 Hp2. destruct (Hat _ _ _ H1 Hp1) as [-> _], (Hat _ _ _ H2 Hp2) as [-> _]. done.
  - done.
  - intros j' Hj'. by destruct (Hat _ _ _ Hj').
  - intros _ Hs. unfold stopping in Hs. cbn [set_stops stops] in Hs. by rewrite (stopping_now Waited j Waiting) in Hs.
  - apply (i_made _ _ HI).
Qed.
Lemma return_inv panics j s : stops s !! j = Some Waited -> Inv panics s -> Inv panics (stop_ends j s).
Proof.
  intros Hj HI. destruct (others_returned _ _ _ _ HI Hj) as [Eon Hat]; [done|].
  assert (Hret : forall j' p', <[j := Returned]> (stops s) !! j' = Some p' -> Returned = p').
  { intros j' p' Hj'. destruct (decide (p' = Returned)) as [->|Hp]; [done|]. destruct (Hat _ _ _ Hj' Hp) as [_ ->]. done. }
  split; cbn [stop_ends on cur cancelled rs stops].
  - intros _. split; [apply (i_waited _ _ HI j Hj)|by apply Forall_lookup].
  - done.
  - apply (i_sel _ _ HI).
  - intros j1 j2 p1 p2 H1 _ Hp1 _. by destruct Hp1; symmetry; apply (Hret j1).
  - intros j' Hj'. by specialize (Hret _ _ Hj').
  - intros j' Hj'. by specialize (Hret _ _ Hj').
  - done.
  - apply (i_made _ _ HI).
Qed.
Lemma step_inv panics e s s' : orderly panics e s = true -> step e s = Some s' -> Inv panics s -> Inv panics s'.
Proof.
  intros Ho Es HI. destruct e as [| |j|j|j|j|i|i|i|i|i]; cbn [step] in Es; try discriminate Ho.
  - injection Es as <-. by apply start_inv.
  - injection Es as <-. by apply stop_inv.
  - unfold stop_at in Es. case_bool_decide as Hj; [|done]. injection Es as <-. by apply cancel_inv.
  - unfold stop_at in Es. case_bool_decide as Hj; [|done]. destruct (forallb _ _) eqn:Ef; [|done]. injection Es as <-. apply not_live_over in Ef. by apply done_inv.
  - unfold stop_at in Es. case_bool_decide as Hj; [|done]. injection Es as <-. by apply return_inv.
  - revert Es. apply (routine_inv panics); [done|..]; intros r.
    + by intros p; destruct (pc r).
    + intros p c. destruct (pc r); [|done..]. by intros [= <-] [= <-].
    + intros _. by destruct (pc r).
  - revert Es. apply (routine_inv panics); [done|..]; intros r.
    + by intros p; destruct (pc r).
    + intros p c. destruct (pc r); try done. by intros ->%loop_other.
    + intros _. destruct (pc r); try done. by intros E%loop_other.
  - revert Es. apply (routine_inv panics); [done|..]; intros r.
    + by intros p; destruct (pc r).
    + intros p c. destruct (pc r); try done. rewrite loop_done. destruct (is_cancelled _ _); [|done]. by intros [= <-].
    + intros Hr. destruct (pc r) as [|c| |] eqn:Ep; try done. rewrite loop_done. destruct (is_cancelled c s) eqn:Ec; [|done]. intros _. right. by rewrite <- (i_sel _ _ HI i r c Hr Ep).
  - revert Es. apply (routine_inv panics); [done|..]; intros r.
    + by intros p; destruct (pc r).
    + intros p c. destruct (pc r); [done..| |done]. by intros [= <-].
    + intros _. by destruct (pc r).
  - revert Es. apply (routine_inv panics); [done|..]; intros r.
    + by intros p; destruct (pc r).
    + intros p c. destruct (pc r); [done..| |done]. by intros [= <-].
    + intros _. destruct (pc r); [done..| |done]. intros _. by left.
Qed.
Lemma new_inv panics : Inv panics newSvc.
Proof. split; cbn; try done; constructor; constructor. Qed.
Lemma reachable_inv panics s : reachable panics s -> Inv panics s.
Proof. induction 1 as [|e s s' _ IH Ho Es]; [apply new_inv|by apply (step_inv panics e s)]. Qed.
Definition copies (k : Kind) : nat := length (List.filter (fun k' => bool_decide (k' = k)) kinds).
Lemma count_over k l : Forall over l -> count k l = O.
Proof. unfold count. induction 1 as [|r l Hr _ IH]; [done|]. cbn. unfold live. rewrite Hr, andb_false_r. exact IH. Qed.
Lemma count_app k l l' : count k (l ++ l') = (count k l + count k l')%nat.
Proof. unfold count. by rewrite List.filter_app, length_app. Qed.
Lemma count_gen k l : (count k l <= length (List.filter (fun k' => bool_decide (k' = k)) (map kind l)))%nat /\
  (Forall (fun r => r.(pc) <> Over) l -> count k l = length (List.filter (fun k' => bool_decide (k' = k)) (map kind l))).
Proof.
  unfold count. induction l as [|r l [IH1 IH2]]; [done|]. cbn. destruct (bool_decide (kind r = k)); cbn [andb].
  - split; [destruct (live r); cbn; lia|]. intros [Hr Hl]%Forall_cons. assert (Hlive : live r = true) by (by apply bool_decide_eq_true). rewrite Hlive. cbn. by rewrite IH2.
  - split; [done|]. by intros [_ Hl]%Forall_cons; apply IH2.
Qed.
(** C16: whatever the order of the steps, when a caller stops a service once at a
    time and its routines end in time: no routine of a service that is stopped is
    left, there is never more than one of each that a start launches, however
    often the service was started, and while it is on and not being stopped all
    of them are there unless their work panicked. *)
Theorem one_loop_each panics s k : reachable panics s ->
  (count k s.(rs) <= if s.(on) then copies k else O)%nat /\
  (panics = false -> s.(on) = true -> stopping s = false -> count k s.(rs) = copies k).
Proof.
  intros Hr. apply reachable_inv in Hr as HI. destruct (on s) eqn:Eon.
  - destruct (i_gen _ _ HI Eon) as (old & gen & -> & Hold & Hk & Hl). rewrite count_app, count_over by done. unfold copies. rewrite <- Hk.
    destruct (count_gen k gen) as [H1 H2]. split; [done|]. intros Hp _ Hs. apply H2. apply Hl; [done|]. by apply (i_live _ _ HI).
  - destruct (i_off _ _ HI Eon) as [Ha _]. split; [by rewrite count_over|done].
Qed.
(** ** A stop can end *)
(** The steps that bring a routine to its end. *)
Definition ending (i : nat) (p : Pc) : list Event :=
  match p with Looping => [ELoop i; EQuit i] | Selecting _ => [EQuit i] | Working => [EWorked i; ELoop i; EQuit i] | Over => [] end.
Lemma events_run_app l l' s : run (l ++ l') s = (s' ← run l s; run l' s').
Proof. revert s. induction l as [|e l IH]; intros s; [done|]. cbn. destruct (step e s); [apply IH|done]. Qed.
Lemma pc_ending_run i r s : s.(rs) !! i = Some r -> is_cancelled s.(cur) s = true -> (forall c, r.(pc) = Selecting c -> c = s.(cur)) ->
  run (ending i r.(pc)) s = Some (set_rs (<[i := set_pc Over r]> s.(rs)) s).
Proof.
  intros Hi Hc Hs. assert (Hlt := lookup_lt_Some _ _ _ Hi). destruct r as [k p]. cbn [pc set_pc kind] in *.
  assert (Hins : forall l q, l !! i = Some q -> (<[i := q]> l) = l :> list Routine) by (intros; by apply list_insert_id).
  destruct p as [|c| |]; cbn [ending run step]; unfold routine_step.
  - rewrite Hi. cbn. rewrite list_lookup_insert_eq by done. cbn. rewrite loop_done. unfold is_cancelled in *. cbn. rewrite Hc. cbn. unfold set_rs. cbn. by rewrite list_insert_insert_eq.
  - rewrite Hi. cbn. rewrite (Hs c eq_refl), loop_done, Hc. reflexivity.
  - rewrite Hi. cbn. rewrite list_lookup_insert_eq by done. cbn. rewrite list_insert_insert_eq, list_lookup_insert_eq by done. cbn. rewrite loop_done. unfold is_cancelled in *. cbn. rewrite Hc. cbn.
    unfold set_rs. cbn. by rewrite list_insert_insert_eq.
  - rewrite Hins by done. by destruct s.
Qed.
Fixpoint end_all (i : nat) (l : list Routine) : list Event := match l with [] => [] | r :: l' => (ending i r.(pc) ++ end_all (S i) l')%list end.
Lemma end_all_run l : forall pre s, s.(rs) = (pre ++ l)%list -> is_cancelled s.(cur) s = true -> Forall (fun r => forall c, r.(pc) = Selecting c -> c = s.(cur)) l ->
  run (end_all (length pre) l) s = Some (set_rs (pre ++ map (set_pc Over) l) s).
Proof.
  induction l as [|r l IH]; intros pre s Hrs Hc Hs; [cbn; rewrite <- Hrs; by destruct s|]. apply Forall_cons in Hs as [Hr Hs]. cbn [end_all map]. rewrite events_run_app.
  rewrite (pc_ending_run (length pre) r); [|by rewrite Hrs, list_lookup_middle|done|done]. cbn [mbind option_bind].
  rewrite Hrs, insert_app_r_alt, Nat.sub_diag by done. cbn [list_insert].
  specialize (IH (pre ++ [set_pc Over r])%list (set_rs (pre ++ set_pc Over r :: l) s)). rewrite length_app, Nat.add_1_r in IH. cbn [set_rs rs] in IH.
  change (<[0%nat := set_pc Over r]> (r :: l)) with (set_pc Over r :: l). rewrite IH; [by rewrite <- app_assoc|by rewrite <- app_assoc|done|done].
Qed.
Lemma end_all_length i l : (length (end_all i l) <= 3 * length l)%nat.
Proof. revert i. induction l as [|r l IH]; intros i; [done|]. cbn [end_all]. rewrite length_app. specialize (IH (S i)). destruct (pc r); cbn in *; lia. Qed.
Definition begins_work (e : Event) : bool := match e with ETick _ => true | _ => false end.
Lemma end_all_calm i l : Forall (fun e => begins_work e = false) (end_all i l).
Proof. revert i. induction l as [|r l IH]; intros i; [done|]. cbn [end_all]. apply Forall_app. split; [destruct (pc r); by repeat constructor|apply IH]. Qed.
(** C32: A call that waits can always end in time: a few steps of each routine, none
    of which begins new work, are enough. *)
Theorem stop_can_end panics s j : reachable panics s -> s.(stops) !! j = Some Waiting ->
  exists l s', run l s = Some s' /\ (length l <= 3 * length s.(rs) + 1)%nat /\ Forall (fun e => begins_work e = false) l /\
    s'.(stops) !! j = Some Waited /\ Forall over s'.(rs).
Proof.
  intros Hr Hj. apply reachable_inv in Hr as HI. pose proof (i_wait _ _ HI j Hj) as Hc.
  assert (Hsel : Forall (fun r => forall c, r.(pc) = Selecting c -> c = s.(cur)) (rs s)).
  { apply Forall_lookup. intros i r Hi c E. by apply (i_sel _ _ HI i r). }
  pose proof (end_all_run (rs s) [] s eq_refl Hc Hsel) as E. cbn [app length] in E.
  assert (Ha : Forall over (map (set_pc Over) (rs s))) by (apply Forall_forall; intros r Hin; apply list_elem_of_In, in_map_iff in Hin as (r' & <- & _); done).
  exists (end_all 0 (rs s) ++ [EDone j])%list. eexists. split; [|split; [|split; [|split]]].
  - rewrite events_run_app, E. cbn [mbind option_bind run step set_rs stops rs]. unfold stop_at. cbn [set_rs stops rs]. rewrite bool_decide_true by done.
    rewrite (proj2 (not_live_over _) Ha). reflexivity.
  - rewrite length_app. pose proof (end_all_length 0 (rs s)). cbn. lia.
  - apply Forall_app. split; [apply end_all_calm|by repeat constructor].
  - cbn. apply list_lookup_insert_eq. by apply lookup_lt_Some in Hj.
  - exact Ha.
Qed.
(** ** The service of [TaskManager] *)
(** [Start] is the one of the coarser model, where the routines are a number. *)
Definition coarse (s : Svc) : Service := mkService s.(on) (s.(on) && negb (is_cancelled s.(cur) s)) (length (List.filter live s.(rs))).
Lemma live_started l : List.filter live (map startRoutine l) = map startRoutine l.
Proof. induction l as [|k l IH]; [done|]. cbn. rewrite IH. unfold startRoutine, live. by destruct (works_first k). Qed.
Theorem start_refines panics s msg : reachable panics s ->
  coarse (start s) = snd (service_start msg (length kinds) (coarse s)) /\ (fst (service_start msg (length kinds) (coarse s)) = Ok tt <-> on s = false).
Proof.
  intros Hr. apply reachable_inv in Hr as HI. unfold start, service_start. destruct (on s) eqn:Eon; cbn [coarse TaskManager.started]; rewrite ?Eon; cbn [coarse].
  - by split.
  - split; [|done]. unfold coarse. cbn [on cur rs]. unfold is_cancelled. cbn [cancelled]. rewrite fresh_live by apply (i_made _ _ HI).
    cbn [snd routines]. by rewrite List.filter_app, length_app, live_started, length_map.
Qed.
End Service.

(** * What goes wrong otherwise *)
Definition manager_run (l : list Event) : option (bool * nat * nat * bool) :=
  s ← run manager_routines l newSvc;
  Some (s.(on), count QueueSyncer s.(rs), count TimeoutChecker s.(rs), is_cancelled s.(cur) s).
(** A stop that gave up after 30 seconds, and a start behind it: the old loop was
    at work, goes on and waits on the new context, beside the new one. *)
Example two_loops : manager_run [EStart; ELoop 0; ETick 0; EWorked 1; ELoop 1; EStop; ECancel 0; EQuit 1; EAfter30s 0; EReturn 0; EStart; EWorked 0; ELoop 0; ELoop 2] = Some (true, 2%nat, 1%nat, false).
Proof. vm_compute. reflexivity. Qed.
(** Two calls of [Stop] at once: the second cancels the context of the start
    between them, and with the loops of that start at work it gives up and marks
    the service as stopped. *)
Example second_stop : manager_run [EStart; EStop; EStop; ECancel 0; ELoop 0; EQuit 0; EWorked 1; ELoop 1; EQuit 1; EDone 0; EReturn 0; EStart; ECancel 1; EAfter30s 1; EReturn 1] = Some (false, 1%nat, 1%nat, true).
Proof. vm_compute. reflexivity. Qed.
(** One panic of the check ends its loop for good, with the service on. *)
Example dead_checker : manager_run [EStart; EPanicked 1; ELoop 0; ETick 0; EWorked 0] = Some (true, 1%nat, 0%nat, false).
Proof. vm_compute. reflexivity. Qed.

(** * An orderly run *)
Definition orderly_run : list Event := [EStart; ELoop 0; EStop; ECancel 0; ETick 0].
Definition after (l : list Event) : Svc := default newSvc (run manager_routines l newSvc).
Fixpoint in_order (panics : bool) (l : list Event) (s : Svc) : bool :=
  match l with [] => true | e :: l' => orderly panics e s && match step manager_routines e s with Some s' => in_order panics l' s' | None => true end end.
Lemma run_reachable panics l s s' : reachable manager_routines panics s -> in_order panics l s = true -> run manager_routines l s = Some s' -> reachable manager_routines panics s'.
Proof.
  revert s. induction l as [|e l IH]; intros s Hr Ho E; [by injection E as <-|]. cbn in Ho, E. apply andb_true_iff in Ho as [Ho Hl].
  destruct (step manager_routines e s) as [s1|] eqn:Es; [|done]. apply (IH s1); [|done|done]. by apply (reach_step _ _ e s).
Qed.
Lemma orderly_reachable : reachable manager_routines false (after orderly_run).
Proof. apply (run_reachable false orderly_run newSvc); [constructor|reflexivity|reflexivity]. Qed.
Lemma one_loop_each_witness : count QueueSyncer (after [EStart; ELoop 0]).(rs) = 1%nat.
Proof.
  apply (one_loop_each manager_routines false (after [EStart; ELoop 0]) QueueSyncer); [|reflexivity..].
  apply (run_reachable false [EStart; ELoop 0] newSvc); [constructor|reflexivity|reflexivity].
Defined.
Lemma stop_can_end_witness : exists l s', run manager_routines l (after orderly_run) = Some s' /\ s'.(stops) !! 0%nat = Some Waited.
Proof.
  destruct (stop_can_end manager_routines false (after orderly_run) 0 orderly_reachable eq_refl) as (l & s' & E & _ & _ & Hj & _). exists l, s'. split; [exact E|exact Hj].
Defined.
Lemma start_refines_witness : coarse (start manager_routines (after orderly_run)) = snd (service_start (ErrNew "started"%string) 2 (coarse (after orderly_run))).
Proof. apply (start_refines manager_routines false (after orderly_run) (ErrNew "started"%string) orderly_reachable). Defined.
