(* ===== verification/TaskRuns.v ===== *)
(** Concrete runs of the task system: the states at which the theorems of
    [TaskRepository], [TaskSystem] and [TaskFlow] are applied, and the run in
    which a late result breaks the step order. *)
From S2P Require Import Prelude TaskModel TaskStore TaskDao TaskQueue TaskRepository TaskManager TaskSystem TaskFlow TaskWorker.

#[local] Existing Instance plainSql.
#[local] Existing Instance plainSqlOk.
Abbreviation MemSys := (TaskSys (gmap string MemStream)).

(** A task of workflow "g" on subject 7, as a client submits it. *)
Definition demo_task (ty : string) (step : Z) : TaskEntity :=
  mkTask 0 0 0 None 1 1 "order" 7 ty "" 0 step 0 3 (60 * Second) "{}" "" "" "" None None 0 "g".

Definition step_op (E : Env) (w : World MemSys) (o : op) : World MemSys :=
  snd (run_op (H := E) "task:" o w).
Definition run_ops (E : Env) (ops : list op) : World MemSys :=
  fold_left (step_op E) ops (mkWorld 0 (mkSys [] 1%positive ∅)).

(** The client discipline as a decision procedure. *)
Definition new_task_okb (l : list TaskEntity) (e : TaskEntity) : bool :=
  (0 <=? ID e) && (str_eqb (TaskStatus e) "" || str_eqb (TaskStatus e) TaskStatusPending) &&
  (0 <=? Redo e) && (Redo e <=? nz (MaxRedo e) 3) && (nz (MaxRedo e) 3 <? two63) &&
  forallb (fun t => negb (alive t && IsRunning t && blocks t (default_status e))) l.

Definition op_okb (l : list TaskEntity) (o : op) : bool :=
  match o with
  | OpCreate tasks => forallb (new_task_okb l) tasks
  | OpSave taskID _ _ => forallb (fun t => negb ((ID t =? taskID) && alive t) || IsRunning t) l
  | _ => true
  end.

Fixpoint ops_okb (E : Env) (ops : list op) (w : World MemSys) : bool :=
  match ops with
  | [] => true
  | o :: ops => op_okb (table (st w)) o && ops_okb E ops (step_op E w o)
  end.

Lemma new_task_okb_ok l e : new_task_okb l e = true -> new_task_ok l e.
Proof.
  unfold new_task_okb, new_task_ok.
  rewrite !andb_true_iff, orb_true_iff, !str_eqb_eq, !Z.leb_le, Z.ltb_lt, forallb_forall.
  intros (((((? & ?) & ?) & ?) & ?) & Hb). split_and!; try done.
  intros t Ht Ha Hr. specialize (Hb t Ht). rewrite Ha, Hr in Hb. by destruct (blocks _ _).
Qed.

Lemma op_okb_ok l o : op_okb l o = true -> op_ok l o.
Proof.
  destruct o; simpl; try done; rewrite forallb_forall; intros Hb.
  - apply Forall_forall. intros e He%list_elem_of_In. by apply new_task_okb_ok, Hb.
  - intros t Ht Hid Ha. specialize (Hb t Ht). rewrite (proj2 (Z.eqb_eq _ _) Hid), Ha in Hb.
    by destruct (IsRunning t).
Qed.

Lemma ops_reachable (E : Env) ops w :
  reachable (H := E) "task:" w -> ops_okb E ops w = true ->
  reachable (H := E) "task:" (fold_left (step_op E) ops w).
Proof.
  revert w. induction ops as [|o ops IH]; intros w Hw Hb; [done|]. simpl in Hb.
  apply andb_true_iff in Hb as [Ho Hb]. apply IH; [|done].
  apply reach_step; [done|by apply op_okb_ok].
Qed.

Definition demo_ops : list op :=
  [OpCreate [demo_task "b" 2; demo_task "a" 1]; OpNext "a" "w1"; OpSave 1 "ok" None; OpNext "b" "w2"].

Definition demo : World MemSys := run_ops quietEnv demo_ops.

Lemma demo_reachable : reachable (H := quietEnv) "task:" demo.
Proof. apply ops_reachable; [by apply reach_init|vm_compute; reflexivity]. Qed.

(** The rows of [demo]: step 1 succeeded, step 2 runs. *)
Definition demo_row (i : nat) : TaskEntity := nth i (table (st demo)) zeroTask.

Lemma demo_length : length (table (st demo)) = 2%nat.
Proof. vm_compute. reflexivity. Qed.
Lemma demo_In i : (i < 2)%nat -> In (demo_row i) (table (st demo)).
Proof.
  intros Hi. unfold demo_row. apply (nth_In (table (st demo)) zeroTask). rewrite demo_length. exact Hi.
Qed.

Lemma running_respects_steps_witness :
  TaskStatus (demo_row 1) = TaskStatusRunning /\ Step (demo_row 0) < Step (demo_row 1) /\
  (TaskStatus (demo_row 0) = TaskStatusSuccess \/ TaskStatus (demo_row 0) = TaskStatusCanceled).
Proof.
  split; [vm_compute; reflexivity|]. split; [vm_compute; reflexivity|].
  apply (running_respects_steps (H := quietEnv) "task:" demo (demo_row 1) (demo_row 0)).
  - exact demo_reachable.
  - apply demo_In. lia.
  - apply demo_In. lia.
  - vm_compute; reflexivity.
  - vm_compute; reflexivity.
  - vm_compute; reflexivity.
  - vm_compute; reflexivity.
  - vm_compute; reflexivity.
  - vm_compute; reflexivity.
Defined.

Lemma redo_within_budget_witness :
  alive (demo_row 1) = true /\ 0 <= Redo (demo_row 1) <= MaxRedo (demo_row 1) /\
  (TaskStatus (demo_row 1) = TaskStatusRunning -> Redo (demo_row 1) < MaxRedo (demo_row 1)).
Proof.
  split; [vm_compute; reflexivity|].
  apply (redo_within_budget (H := quietEnv) "task:" demo (demo_row 1) demo_reachable).
  - apply demo_In. lia.
  - vm_compute; reflexivity.
Defined.

(** ** Claims *)
Definition created : World MemSys :=
  run_ops quietEnv [OpCreate [demo_task "a" 1; demo_task "a" 1; demo_task "b" 2]].

Ltac ids_tac :=
  split; [vm_compute; repeat constructor; rewrite ?list_elem_of_In; simpl; intuition lia
         | vm_compute; repeat constructor].

Lemma created_ids : ids_ok (table (st created)).
Proof. ids_tac. Qed.

(** The value of a run that succeeds. *)
Definition ok_val {A} (d : A) (r : Res A * World MemSys) : A :=
  match fst r with Ok a => a | Err _ => d end.
Definition run_ok {A} (r : Res A * World MemSys) : bool :=
  match fst r with Ok _ => true | Err _ => false end.
Lemma ok_val_eq {A} (d : A) r : run_ok r = true -> r = (Ok (ok_val d r), snd r).
Proof. by destruct r as [[]]. Qed.

Abbreviation claim_a w := (GetOnePendingTask (H := quietEnv) "a" "w1" w).
Abbreviation claim_b w := (GetOnePendingTask (H := quietEnv) "b" "w1" w).

Lemma claim_a_ok : run_ok (claim_a created) = true.
Proof. vm_compute. reflexivity. Qed.
Lemma claim_aa_ok : run_ok (claim_a (snd (claim_a created))) = true.
Proof. vm_compute. reflexivity. Qed.
Lemma claim_a_some : (ID (ok_val zeroTask (claim_a created)) =? 0) = false.
Proof. vm_compute. reflexivity. Qed.
Lemma claim_aa_some : (ID (ok_val zeroTask (claim_a (snd (claim_a created)))) =? 0) = false.
Proof. vm_compute. reflexivity. Qed.

Lemma GetOnePendingTask_claims_best_witness :
  exists t0, In t0 (table (st created)) /\ ID (ok_val zeroTask (claim_a created)) = ID t0 /\
    pending_where "a" (table (st created)) t0 = true.
Proof.
  destruct (GetOnePendingTask_claims_best (H := quietEnv) "a" "w1" created
              (ok_val zeroTask (claim_a created)) (snd (claim_a created)) created_ids
              (ok_val_eq zeroTask (claim_a created) claim_a_ok)
              (proj1 (Z.eqb_neq _ _) claim_a_some)) as (t0 & H1 & H2 & H3 & _).
  exists t0. split; [exact H1|]. split; [exact H2|exact H3].
Defined.

Lemma GetOnePendingTask_progress_witness :
  exists t w', claim_b created = (Ok t, w') /\
  if existsb (fun t1 => pending_where "b" (table (st created)) t1
                        && negb (row_locked (S (calls created)) (ID t1))) (table (st created))
  then ID t <> 0 else t = zeroTask /\ st w' = st created.
Proof.
  exact (GetOnePendingTask_progress (H := quietEnv) "b" "w1" created created_ids (quietEnv_ok _)).
Defined.

Lemma claims_exclusive_witness :
  ID (ok_val zeroTask (claim_a created)) <> ID (ok_val zeroTask (claim_a (snd (claim_a created)))).
Proof.
  exact (claims_exclusive (H := quietEnv) "a" "w1" "a" "w1" created _ _ (snd (claim_a created)) _
           created_ids (ok_val_eq zeroTask _ claim_a_ok) (ok_val_eq zeroTask _ claim_aa_ok)
           (proj1 (Z.eqb_neq _ _) claim_aa_some)).
Defined.

(** ** The next step *)
Lemma GetNextStepTasks_spec_witness :
  exists res, fst (GetNextStepTasks (H := quietEnv) 7 "g" demo) = Ok res /\
  st (snd (GetNextStepTasks (H := quietEnv) 7 "g" demo)) = st demo.
Proof.
  destruct (GetNextStepTasks_spec (H := quietEnv) 7 "g" demo (quietEnv_ok _)) as (res & H1 & H2 & _).
  exists res. split; [exact H1|exact H2].
Defined.

(** Step 1 is canceled: the claim query offers step 2, nothing triggers it. *)
Definition stalled : World MemSys :=
  run_ops quietEnv [OpCreate [demo_task "b" 2; demo_task "a" 1]; OpCancel 1 "stop"].

Lemma rows_if (p q : TaskEntity -> bool) l :
  forallb (fun t => negb (p t) || q t) l = true -> forall t, In t l -> p t = true -> q t = true.
Proof. rewrite forallb_forall. intros Hl t Ht Hp. specialize (Hl t Ht). by rewrite Hp in Hl. Qed.

Lemma canceled_step_stalls_witness :
  fst (GetNextStepTasks (H := quietEnv) 7 "g" stalled) = Ok [] /\
  existsb (pending_where "b" (table (st stalled))) (table (st stalled)) = true.
Proof.
  split; [|vm_compute; reflexivity].
  apply (canceled_step_stalls (H := quietEnv) 7 "g" stalled 1 (quietEnv_ok _)).
  - intros t Ht Hs%Z.ltb_lt. revert t Ht Hs.
    apply (rows_if (fun t => Step t <? 1) IsSuccess). vm_compute. reflexivity.
  - intros t Ht Hs%Z.eqb_eq. revert t Ht Hs.
    apply (rows_if (fun t => Step t =? 1) (status_in done_statuses)). vm_compute. reflexivity.
  - exists (nth 0 (workflow 7 "g" (table (st stalled))) zeroTask).
    vm_compute. split; [left; reflexivity|]. split; reflexivity.
Defined.

(** ** Results, timeouts, creation *)
Definition running_a : World MemSys :=
  run_ops quietEnv [OpCreate [demo_task "b" 2; demo_task "a" 1]; OpNext "a" "w1"].

Lemma running_a_length : length (table (st running_a)) = 2%nat.
Proof. vm_compute. reflexivity. Qed.
Lemma running_a_ids : ids_ok (table (st running_a)).
Proof. ids_tac. Qed.

Lemma SaveTaskResult_spec_witness :
  let t0 := nth 0 (table (st running_a)) zeroTask in
  let w' := snd (SaveTaskResult (H := quietEnv) "task:" (ID t0) "done" None None running_a) in
  fst (SaveTaskResult (H := quietEnv) "task:" (ID t0) "done" None None running_a) = Ok tt /\
  qlen "task:" "b" (st w') = S (qlen "task:" "b" (st running_a)).
Proof.
  cbv zeta. split; [|vm_compute; reflexivity].
  apply (SaveTaskResult_spec (H := quietEnv) "task:" "done" None).
  - exact running_a_ids.
  - apply quietEnv_ok.
  - apply nth_In. rewrite running_a_length. apply Nat.lt_0_succ.
  - vm_compute. reflexivity.
Defined.

(** Under [slowEnv] a second claim later the first task has expired. *)
Definition late : World MemSys :=
  run_ops slowEnv [OpCreate [demo_task "a" 1]; OpNext "a" "w1"].

Lemma late_ids : ids_ok (table (st late)).
Proof. ids_tac. Qed.

Lemma CheckAndTimeoutTasks_spec_witness :
  let w' := snd (Manager_CheckAndTimeoutTasks (H := slowEnv) "task:" late) in
  fst (Manager_CheckAndTimeoutTasks (H := slowEnv) "task:" late) = Ok tt /\
  existsb (expired (slowEnv.(env_clock) (calls late))) (table (st late)) = true /\
  qlen "task:" "a" (st w') = S (qlen "task:" "a" (st late)).
Proof.
  cbv zeta.
  destruct (CheckAndTimeoutTasks_spec (H := slowEnv) "task:" late late_ids (slowEnv_ok _))
    as (H1 & _ & _).
  split; [exact H1|]. split; vm_compute; reflexivity.
Defined.

Lemma CreateTasks_spec_witness :
  let tasks := [demo_task "b" 2; demo_task "a" 1; demo_task "a" 1] in
  let w := mkWorld (S := MemSys) 0 (mkSys [] 1%positive ∅) in
  let w' := snd (Manager_CreateTasks (H := quietEnv) "task:" tasks w) in
  fst (Manager_CreateTasks (H := quietEnv) "task:" tasks w) = Ok tt /\
  qlen "task:" "a" (st w') = 2%nat /\ qlen "task:" "b" (st w') = 0%nat.
Proof.
  cbv zeta. split; [|split; vm_compute; reflexivity].
  apply (CreateTasks_spec (H := quietEnv) "task:").
  - repeat (apply Forall_cons_2; [vm_compute; reflexivity|]). apply Forall_nil_2.
  - repeat (apply Forall_cons_2; [vm_compute; reflexivity|]). apply Forall_nil_2.
  - split; constructor.
  - apply Forall_nil_2.
  - apply quietEnv_ok.
Defined.

(** The task of worker "w1" is marked, the row can be retried, no queue is woken. *)
Lemma dead_worker_tasks_not_requeued_witness :
  redis (st (snd (ReassignDeadWorkerTasks (H := quietEnv) "task:" "a" "w1" 1 running_a)))
    = redis (st running_a) /\
  existsb (fun t => CanRetry t && str_eqb (WorkerID t) "w1")
    (table (st (snd (ReassignDeadWorkerTasks (H := quietEnv) "task:" "a" "w1" 1 running_a)))) = true.
Proof.
  split; [|vm_compute; reflexivity].
  apply (dead_worker_tasks_not_requeued (H := quietEnv) "task:" "a" "w1" 1 running_a).
Defined.

(** ** A late result *)
Definition overtaken_ops : list op :=
  [OpCreate [demo_task "b" 2; demo_task "a" 1]; OpNext "a" "w1"; OpTimeouts; OpNext "a" "w2";
   OpSave 1 "ok" None; OpNext "b" "w2"].
Definition overtaken : World MemSys := run_ops slowEnv overtaken_ops.
Definition late_save := SaveTaskResult (H := slowEnv) "task:" 1 "" (Some (ErrNew "w1 died")) None.

(** Some running row has an earlier step of its workflow that failed. *)
Definition order_broken (l : list TaskEntity) : bool :=
  existsb (fun t => alive t && IsRunning t &&
    existsb (fun t2 => alive t2 && (SubjectID t2 =? SubjectID t) && str_eqb (AppGroup t2) (AppGroup t)
                       && (Step t2 <? Step t) && str_eqb (TaskStatus t2) TaskStatusFailed) l) l.

(** [SaveTaskResult] trusts its caller: worker w1 times out on step 1, w2
    redoes it and step 2 starts; when w1 then reports its failure, the save
    succeeds, the finished step 1 becomes failed and step 2 runs on top of it,
    which no disciplined client can reach. *)
Theorem stale_result_breaks_order :
  reachable (H := slowEnv) "task:" overtaken /\
  order_broken (table (st overtaken)) = false /\
  fst (late_save overtaken) = Ok tt /\
  order_broken (table (st (snd (late_save overtaken)))) = true.
Proof.
  split; [apply ops_reachable; [by apply reach_init|vm_compute; reflexivity]|].
  split_and!; vm_compute; reflexivity.
Qed.

(** ** A worker *)
(** A manager that only keeps the history. *)
Definition log_save (wid : string) (info : TaskInfo) (r : string) (e : option error)
    (cb : option (G (list SaveCall) (option error))) : G (list SaveCall) (option error) :=
  fun x => let x1 := mkWorld (calls x) (st x ++ [mkCall wid info r e]) in
  match cb with None => (Val None, x1) | Some c => c x1 end.
Definition logManager : WorkManager (list SaveCall) := {|
  wm_GetNextTask := fun _ _ => pret (Ok zeroTaskInfo);
  wm_SaveTaskResult := log_save;
  wm_InitTaskDBStatus := pret None;
  ctx_Err := fun s => if (1 <? length s)%nat then Some Canceled else None;
|}.

Lemma log_recorded wid info r e cb (x : World (list SaveCall)) :
  (forall c, cb = Some c -> forall y, after c y = st y) ->
  after (log_save wid info r e cb) x = st x ++ [mkCall wid info r e].
Proof. intros Hc. unfold log_save, after. destruct cb as [c|]; [|done]. by apply Hc. Qed.

Definition logHistory : @SaveHistory (list SaveCall) logManager :=
  @Build_SaveHistory (list SaveCall) logManager (fun l => l) log_recorded.

(** An executor that panics. *)
Definition bad_executor {S} : TaskExecutor S :=
  mkExecutor (ppanic "boom") (pret "") (pret None) (pret None).
Definition bad_factory {S} : ExecutorFactory S := fun _ => pret (Ok bad_executor).

Definition demo_worker (S : Type) : Worker S :=
  SetHealthReporter true (RegisterExecutor "b" bad_factory [] (RegisterExecutor "a" bad_factory [2]
    (mkWorker (mkWorkerConfig Second 3 5 "w1" Second) NewExecutorRegistry false newService))).
Definition info_a : TaskInfo := mkTaskInfo 1 "a" "{}" Second "" 0 0 3.

Lemma bad_factory_quiet :
  @quiet_factory (list SaveCall) logManager logHistory bad_factory.
Proof.
  intros p. split; [intros x; reflexivity|]. intros x. exists (Ok bad_executor).
  split; [reflexivity|]. intros e [= <-].
  split; [intros y; reflexivity|]. split; [intros y; reflexivity|].
  split; [intros y; reflexivity|]. split; [intros y; reflexivity|].
  intros y. exists ""%string. reflexivity.
Qed.

Lemma executeTask_saves_once_witness :
  (exists r err, after (executeTask (WorkManager0 := logManager) (demo_worker _) info_a) (mkWorld 0 [])
     = [mkCall "w1" info_a r err]) /\
  after (executeTask (WorkManager0 := logManager) (demo_worker _) info_a) (mkWorld 0 [])
     = [mkCall "w1" info_a "" (Some (ErrNew "task panic: boom"))].
Proof.
  split; [|vm_compute; reflexivity].
  destruct (executeTask_saves_once (H1 := logHistory) (demo_worker _) info_a (mkWorld 0 []))
    as (r & err & Hh & _).
  - discriminate.
  - intros f Hf. vm_compute in Hf. injection Hf as <-. exact bad_factory_quiet.
  - exists r, err. exact Hh.
Defined.

Lemma worker_routines_bounded_witness :
  let w := fold_left run_wop [WStart; WStart; WStop true 0; WStart] (demo_worker (list SaveCall)) in
  routines (w_svc w) = (if started (w_svc w) then launched (demo_worker (list SaveCall)) else 0%nat) /\
  routines (w_svc w) = 8%nat.
Proof.
  split; [|vm_compute; reflexivity].
  apply (worker_routines_bounded [WStart; WStart; WStop true 0; WStart] (demo_worker _)).
  - reflexivity.
  - repeat (apply Forall_cons_2; [intros d l Hd; first [discriminate|by injection Hd]|]).
    apply Forall_nil_2.
Defined.

(** A manager that hands out the same task until two results are in. *)
Definition loopManager : WorkManager (list SaveCall) := {|
  wm_GetNextTask := fun _ _ => pret (Ok info_a);
  wm_SaveTaskResult := log_save;
  wm_InitTaskDBStatus := pret None;
  ctx_Err := fun s => if (1 <? length s)%nat then Some Canceled else None;
|}.

Lemma workRoutine_stops_witness :
  workRoutine (WorkManager0 := loopManager) (demo_worker _) 5 "a" (mkWorld 0 [])
  = (Val true, rounds (H0 := loopManager) (demo_worker _) "a" 2 (mkWorld 0 [])).
Proof.
  apply (workRoutine_stops (H0 := loopManager) (demo_worker _) "a" 2 (mkWorld 0 [])).
  - intros x. exists tt. reflexivity.
  - intros [|[|i]] Hi; [reflexivity|vm_compute; reflexivity|lia].
  - vm_compute. discriminate.
  - lia.
Defined.

Lemma processOneTask_keeps_Inv_witness :
  Inv (table (after (processOneTask
    (WorkManager0 := WorkManagerAdapter (H := quietEnv) "task:" (fun _ => None)) (demo_worker _) "a") created)).
Proof.
  apply (processOneTask_keeps_Inv (H := quietEnv) "task:" (fun _ => None) (demo_worker _)).
  - intros taskType f Hf p.
    assert (f = bad_factory) as ->.
    { unfold Get, demo_worker in Hf. simpl in Hf. rewrite !lookup_insert_Some in Hf.
      rewrite lookup_empty in Hf.
      destruct Hf as [[_ <-]|(_ & [[_ <-]|(_ & [=])])]; reflexivity. }
    split; [intros x; reflexivity|]. intros x e x' [= <- <-].
    split; [intros y; reflexivity|]. split; [intros y; reflexivity|].
    split; intros y; reflexivity.
  - apply (reachable_Inv (H := quietEnv) "task:"). apply ops_reachable; [by apply reach_init|].
    vm_compute; reflexivity.
Defined.
