(* ===== verification/Mutex.v ===== *)
(** [src/mutex]: the cluster mutex that elects the master of a service
    (cluster.go), the options of [IsMaster] (mutex.go) and the Redis lock
    (redis_locker.go).

    Redis keys with a time to live are the interface [RedisTTL] with its laws;
    [MemTTL] is an executable instance.  The time of a command is the clock
    reading of its call, in nanoseconds. *)
From S2P Require Import Prelude.

(** * Redis keys with a time to live *)
Class RedisTTL (R : Type) : Type := {
  (* the value and the time it expires at, expired or not *)
  ttl_entry : string -> R -> option (string * Z);
  SetNX : Z -> string -> string -> Z -> R -> bool * R;
  Expire : Z -> string -> Z -> R -> R;
  KDel : string -> R -> R;
}.

(** The value of a key at a time: [GET]. *)
Definition ttl_get {R} `{RedisTTL R} (now : Z) (k : string) (r : R) : option string :=
  match ttl_entry k r with
  | Some (v, d) => if now <? d then Some v else None
  | None => None
  end.

Class RedisTTLOk (R : Type) `{RedisTTL R} : Prop := {
  SetNX_free : forall now k v ttl r, ttl_get now k r = None ->
    fst (SetNX now k v ttl r) = true /\ ttl_entry k (snd (SetNX now k v ttl r)) = Some (v, now + ttl);
  SetNX_held : forall now k v ttl r x, ttl_get now k r = Some x -> SetNX now k v ttl r = (false, r);
  Expire_live : forall now k ttl r v, ttl_get now k r = Some v ->
    ttl_entry k (Expire now k ttl r) = Some (v, now + ttl);
  Expire_dead : forall now k ttl r, ttl_get now k r = None ->
    ttl_entry k (Expire now k ttl r) = None \/ ttl_entry k (Expire now k ttl r) = ttl_entry k r;
  KDel_entry : forall k r, ttl_entry k (KDel k r) = None;
}.

#[export] Instance MemTTL : RedisTTL (gmap string (string * Z)) := {|
  ttl_entry := fun k r => r !! k;
  SetNX := fun now k v ttl r =>
    match r !! k with
    | Some (_, d) => if now <? d then (false, r) else (true, <[k := (v, now + ttl)]> r)
    | None => (true, <[k := (v, now + ttl)]> r)
    end;
  Expire := fun now k ttl r =>
    match r !! k with
    | Some (v, d) => if now <? d then <[k := (v, now + ttl)]> r else r
    | None => r
    end;
  KDel := fun k r => delete k r;
|}.
#[export] Instance MemTTLOk : RedisTTLOk (gmap string (string * Z)).
Proof.
  split; unfold ttl_get; simpl; intros.
  - destruct (r !! k) as [[v' d]|] eqn:E; [destruct (now <? d); [done|]|]; simpl; by rewrite lookup_insert_eq.
  - destruct (r !! k) as [[v' d]|] eqn:E; [by destruct (now <? d)|done].
  - destruct (r !! k) as [[v' d]|] eqn:E; [|done]. destruct (now <? d); simplify_eq. simpl. by rewrite lookup_insert_eq.
  - right. destruct (r !! k) as [[v' d]|] eqn:E; [destruct (now <? d); done|done].
  - apply lookup_delete_eq.
Qed.

(** * The cluster mutex *)
Definition clusterMutexExpiration : Z := 30 * 1000000000.
Definition minRenewInterval : Z := 8 * 1000000000.
Definition redis_Nil : error := ErrVar "redis: nil".

(** [ready] says that the channel is closed. *)
Record ClusterMutex : Type := mkMutex {
  key : string; myName : string; currentMaster : string; interval : Z; ready : bool;
}.
Definition set_master (v : string) (m : ClusterMutex) : ClusterMutex :=
  mkMutex m.(key) m.(myName) v m.(interval) m.(ready).

(** The value built, before the daemon runs; [rnd] is [rand.Int63n(5000)]. *)
Definition NewClusterMutex (rnd : Z) (lockName nodeID : string) : ClusterMutex :=
  mkMutex ("cluster:mutex:" ++ lockName) nodeID "" (minRenewInterval + 1000000 * rnd) false.

Definition IsMaster (m : ClusterMutex) : bool :=
  negb (String.eqb m.(myName) "") && String.eqb m.(myName) m.(currentMaster).
Definition markReady (m : ClusterMutex) : ClusterMutex :=
  mkMutex m.(key) m.(myName) m.(currentMaster) m.(interval) true.

(** [WaitReady]: [None] while it blocks. *)
Definition WaitReady (ctxErr : option error) (m : ClusterMutex) : option (Res unit) :=
  if m.(ready) then Some (Ok tt)
  else match ctxErr with Some e => Some (Err e) | None => None end.

Section Cluster.
Context `{Env} {R : Type} `{RedisTTL R}.

(** A Redis command at the time of its call. *)
Definition kv {A} (f : Z -> R -> A * R) : M R A :=
  fun w => gext (f (env_clock (calls w))) w.

Definition getCurrentMaster (m : ClusterMutex) : M R (Res string * ClusterMutex) :=
  let! val := gtry (kv (fun now r => (ttl_get now m.(key) r, r))) in
  gret match val with
       | Ok (Some v) => (Ok v, set_master v m)
       | Ok None => (Err redis_Nil, m)
       | Err e => (Err e, m)
       end.

Definition tryPreempt (first : bool) (m : ClusterMutex) : M R (option error * ClusterMutex) :=
  let! ok := gtry (kv (fun now => SetNX now m.(key) m.(myName) clusterMutexExpiration)) in
  match ok with
  | Err e => gret (Some e, m)
  | Ok true => gret (None, markReady (set_master m.(myName) m))
  | Ok false =>
      if first then let! vm := getCurrentMaster m in gret (None, markReady (snd vm))
      else gret (None, m)
  end.

Definition renew (m : ClusterMutex) : M R unit :=
  kv (fun now r => (tt, Expire now m.(key) clusterMutexExpiration r)).

(** [tick] in its two halves: the read, and what follows from it. *)
Inductive todo : Type := DoPreempt | DoRenew | DoNothing.
Definition tick_get (m : ClusterMutex) : M R (todo * ClusterMutex) :=
  let! vm := getCurrentMaster m in
  let '(master, m) := vm in
  gret (match master with
        | Err _ => DoPreempt
        | Ok master => if String.eqb master m.(myName) then DoRenew else DoNothing
        end, m).
Definition tick_act (t : todo) (m : ClusterMutex) : M R ClusterMutex :=
  match t with
  | DoPreempt => let! em := tryPreempt false m in gret (snd em)
  | DoRenew => gtry (renew m) ;;; gret m
  | DoNothing => gret m
  end.
Definition tick (m : ClusterMutex) : M R ClusterMutex :=
  let! tm := tick_get m in tick_act (fst tm) (snd tm).

Definition release (m : ClusterMutex) : M R unit :=
  if IsMaster m then gtry (kv (fun _ r => (tt, KDel m.(key) r))) ;;; gret tt else gret tt.
End Cluster.

(** ** [IsMaster] of the package *)
(** [opts] are the keys given to [WithMutexKey]; [env] is [$HOSTNAME] and [uuid]
    a fresh identifier. *)
Definition std_config (opts : list string) : string := fold_left (fun _ k => k) opts "default_cluster_mutex".
Definition std_IsMaster (env uuid : string) (rnd : Z) (opts : list string) (std : option ClusterMutex) :
    bool * ClusterMutex :=
  let m := match std with
           | Some m => m
           | None => NewClusterMutex rnd (std_config opts)
                       (if String.eqb env "" then uuid else env)
           end in
  (IsMaster m, m).

(** * The Redis lock *)
Record RedisLocker : Type := mkLocker { lockTimeout : Z; lockerName : string; retryDelay : Z }.

Definition NewRedisLocker (name : string) (timeout : Z) : RedisLocker :=
  let retryDelay := Z.quot timeout 100 in
  mkLocker timeout name
    (if retryDelay <? 10000000 then 10000000
     else if 1000000000 <? retryDelay then 1000000000 else retryDelay).

Definition lockerKey (l : RedisLocker) : string := "core:locker:" ++ l.(lockerName).

Section Locker.
Context `{Env} {R : Type} `{RedisTTL R}.

(** [Lock], [fuel] attempts of it: whether it returned.  An error of Redis makes
    it return as a success does. *)
Fixpoint Lock (fuel : nat) (l : RedisLocker) : M R bool :=
  match fuel with
  | O => gret false
  | S fuel =>
      let! val := gtry (kv (fun now => SetNX now (lockerKey l) "1" l.(lockTimeout))) in
      match val with
      | Err _ => gret true
      | Ok true => gret true
      | Ok false => Lock fuel l
      end
  end.

Definition Unlock (l : RedisLocker) : M R unit :=
  gtry (kv (fun _ r => (tt, KDel (lockerKey l) r))) ;;; gret tt.
End Locker.

(** * The nodes of a cluster *)
(** A node: its mutex, the half of a tick it is about to run, the time of the
    call that ended its last round (its start, or the second half of a tick),
    and whether its daemon runs. *)
Record Node : Type := mkNode { cm : ClusterMutex; pc : option todo; last : Z; running : bool }.

Section Nodes.
Context `{Env} {R : Type} `{RedisTTL R} `{!RedisTTLOk R}.
Variable lock : string.
Hypothesis no_fault : forall n, env_fault n = None.
Hypothesis clock_mono : forall i j, (i <= j)%nat -> env_clock i <= env_clock j.

Definition K : string := ("cluster:mutex:" ++ lock)%string.
Definition Cluster : Type := World R * gmap string Node.

(** The value of a run that returns. *)
Definition val_of {A} (d : A) (r : Res A) : A := match r with Ok a => a | Err _ => d end.

Definition start_node (rnd : Z) (a : string) (s : Cluster) : Cluster :=
  let m := NewClusterMutex rnd lock a in
  let '(r, w) := tryPreempt true m (fst s) in
  (w, <[a := mkNode (snd (val_of (None, m) r)) None (env_clock (calls (fst s))) true]> (snd s)).

(** The read half of a tick; a node that has nothing to do ends its round. *)
Definition get_node (a : string) (n : Node) (s : Cluster) : Cluster :=
  let '(r, w) := tick_get n.(cm) (fst s) in
  let '(t, m) := val_of (DoNothing, n.(cm)) r in
  (w, <[a := match t with
             | DoNothing => mkNode m None (env_clock (calls (fst s))) true
             | _ => mkNode m (Some t) n.(last) true
             end]> (snd s)).

Definition act_node (a : string) (n : Node) (t : todo) (s : Cluster) : Cluster :=
  let '(r, w) := tick_act t n.(cm) (fst s) in
  (w, <[a := mkNode (val_of n.(cm) r) None (env_clock (calls (fst s))) true]> (snd s)).

(** The context of the node ends. *)
Definition stop_node (a : string) (n : Node) (s : Cluster) : Cluster :=
  (snd (release n.(cm) (fst s)), <[a := mkNode n.(cm) None n.(last) false]> (snd s)).

(** Every running node ends a round within the lock's time to live. *)
Definition timely (s : Cluster) : Prop :=
  forall a n, snd s !! a = Some n -> running n = true ->
    env_clock (calls (fst s)) < last n + clusterMutexExpiration.

(** Interleavings of the nodes' Redis calls, in time; names are not reused. *)
Inductive cluster_reach : Cluster -> Prop :=
| cr_init w : ttl_entry K (st w) = None -> cluster_reach (w, ∅)
| cr_start rnd a s : cluster_reach s -> a <> "" -> snd s !! a = None ->
    timely (start_node rnd a s) -> cluster_reach (start_node rnd a s)
| cr_get a n s : cluster_reach s -> snd s !! a = Some n -> running n = true -> pc n = None ->
    timely (get_node a n s) -> cluster_reach (get_node a n s)
| cr_act a n t s : cluster_reach s -> snd s !! a = Some n -> running n = true -> pc n = Some t ->
    timely (act_node a n t s) -> cluster_reach (act_node a n t s)
| cr_stop a n s : cluster_reach s -> snd s !! a = Some n -> running n = true ->
    timely (stop_node a n s) -> cluster_reach (stop_node a n s)
| cr_wait k s : cluster_reach s -> timely (mkWorld (calls (fst s) + k) (st (fst s)), snd s) ->
    cluster_reach (mkWorld (calls (fst s) + k) (st (fst s)), snd s).

(** ** The invariant *)
Definition holds (a : string) (n : Node) (r : R) : Prop :=
  exists d, ttl_entry K r = Some (a, d) /\ last n + clusterMutexExpiration <= d.

Record node_ok (a : string) (n : Node) (now : Z) (r : R) : Prop := {
  n_name : myName (cm n) = a;
  n_key : key (cm n) = K;
  n_last : last n <= now;
  n_master : running n = true -> IsMaster (cm n) = true -> holds a n r;
  n_entry : forall d, running n = true -> ttl_entry K r = Some (a, d) -> holds a n r;
  n_todo : pc n <> Some DoNothing;
  n_preempt : forall d, running n = true -> pc n = Some DoPreempt -> ttl_entry K r <> Some (a, d);
}.

Definition cluster_ok (s : Cluster) : Prop :=
  (forall a n, snd s !! a = Some n -> node_ok a n (env_clock (calls (fst s))) (st (fst s))) /\
  (forall a d, ttl_entry K (st (fst s)) = Some (a, d) -> is_Some (snd s !! a)).

Lemma kv_run {A} (f : Z -> R -> A * R) w :
  kv f w = (Ok (fst (f (env_clock (calls w)) (st w))),
            mkWorld (S (calls w)) (snd (f (env_clock (calls w)) (st w)))).
Proof. unfold kv, gext. rewrite no_fault. by destruct (f _ _). Qed.

Lemma getCurrentMaster_run m w :
  getCurrentMaster m w = (Ok (match ttl_get (env_clock (calls w)) (key m) (st w) with
                              | Some v => (Ok v, set_master v m)
                              | None => (Err redis_Nil, m) end), mkWorld (S (calls w)) (st w)).
Proof.
  unfold getCurrentMaster. unfold gbind, gtry. rewrite kv_run. simpl. by destruct (ttl_get _ _ _).
Qed.

Lemma clock_step (w : World R) : env_clock (calls w) <= env_clock (S (calls w)).
Proof. apply clock_mono. lia. Qed.

Lemma get_live now a d r : ttl_entry K r = Some (a, d) -> now < d -> ttl_get now K r = Some a.
Proof. intros He Hd. unfold ttl_get. rewrite He. by apply Z.ltb_lt in Hd as ->. Qed.
Lemma get_entry now v r : ttl_get now K r = Some v -> exists d, ttl_entry K r = Some (v, d).
Proof.
  unfold ttl_get. destruct (ttl_entry K r) as [[v' d]|]; [|done]. destruct (now <? d); [|done].
  intros [= ->]. eauto.
Qed.

(** A running holder's lock has not expired. *)
Lemma holds_live a n (s : Cluster) :
  timely s -> snd s !! a = Some n -> running n = true -> holds a n (st (fst s)) ->
  ttl_get (env_clock (calls (fst s))) K (st (fst s)) = Some a.
Proof.
  intros Ht Hn Hr (d & He & Hd). eapply get_live; [exact He|]. specialize (Ht a n Hn Hr). lia.
Qed.

(** A step of [a] keeps the invariant if what it does to the lock suits the
    other running nodes. *)
Lemma cluster_ok_upd a n' (w' : World R) (s : Cluster) :
  cluster_ok s -> env_clock (calls (fst s)) <= env_clock (calls w') ->
  node_ok a n' (env_clock (calls w')) (st w') ->
  (forall b d, ttl_entry K (st w') = Some (b, d) -> b = a \/ is_Some (snd s !! b)) ->
  (forall b n, b <> a -> snd s !! b = Some n -> running n = true ->
     (holds b n (st (fst s)) -> holds b n (st w')) /\
     (forall d', ttl_entry K (st w') = Some (b, d') -> exists d, ttl_entry K (st (fst s)) = Some (b, d))) ->
  cluster_ok (w', <[a := n']> (snd s)).
Proof.
  intros [Hn He] Hle Hok Hdom Hoth. split; simpl.
  - intros b n Hb. apply lookup_insert_Some in Hb as [[<- <-]|[Hne Hb]]; [done|].
    destruct (Hn b n Hb) as [B1 B2 B3 B4 B5 B6 B7]. split; try done; [lia| | |].
    + intros Hr Hm. by apply (Hoth b n), B4.
    + intros d Hr Hd. destruct (Hoth b n (not_eq_sym Hne) Hb Hr) as [Hh Hx].
      destruct (Hx d Hd) as [d0 Hd0]. by eapply Hh, B5.
    + intros d Hr Hp Hd. destruct (Hoth b n (not_eq_sym Hne) Hb Hr) as [_ Hx].
      destruct (Hx d Hd) as [d0 Hd0]. by eapply B7.
  - intros b d Hd. destruct (Hdom b d Hd) as [->|Hb]; [by rewrite lookup_insert_eq|].
    destruct (decide (b = a)) as [->|Hne]; [by rewrite lookup_insert_eq|by rewrite lookup_insert_ne].
Qed.

(** What the Redis commands do to the other nodes. *)
Definition suits (a : string) (s : Cluster) (r' : R) : Prop :=
  (forall b d, ttl_entry K r' = Some (b, d) -> b = a \/ is_Some (snd s !! b)) /\
  (forall b n, b <> a -> snd s !! b = Some n -> running n = true ->
     (holds b n (st (fst s)) -> holds b n r') /\
     (forall d', ttl_entry K r' = Some (b, d') -> exists d, ttl_entry K (st (fst s)) = Some (b, d))).

Lemma suits_same a s : cluster_ok s -> suits a s (st (fst s)).
Proof. intros [_ He]. split; [intros b d Hd; right; by eapply He|eauto]. Qed.

Lemma suits_take a s v :
  timely s -> ttl_get (env_clock (calls (fst s))) K (st (fst s)) = None ->
  suits a s (snd (SetNX (env_clock (calls (fst s))) K a v (st (fst s)))).
Proof.
  intros Ht Hg. destruct (SetNX_free _ _ a v _ Hg) as [_ He]. split.
  - intros b d. rewrite He. intros [= <- _]. by left.
  - intros b n Hne Hb Hr. split.
    + intros Hh. rewrite (holds_live b n s Ht Hb Hr Hh) in Hg. done.
    + intros d'. rewrite He. intros [= Hx _]. by rewrite Hx in Hne.
Qed.

Lemma suits_renew a s :
  cluster_ok s -> timely s ->
  suits a s (Expire (env_clock (calls (fst s))) K clusterMutexExpiration (st (fst s))).
Proof.
  intros Hok Ht. pose proof Hok as [Hn He].
  destruct (ttl_get (env_clock (calls (fst s))) K (st (fst s))) as [v|] eqn:Eg.
  - destruct (get_entry _ _ _ Eg) as [d Hd]. pose proof (Expire_live _ _ clusterMutexExpiration _ _ Eg) as Hx.
    split.
    + intros b d'. rewrite Hx. intros [= <- _]. right. by eapply He.
    + intros b n Hne Hb Hr. split; [|intros d'; rewrite Hx; intros [= <- _]; eauto].
      intros (d0 & Hd0 & Hle). rewrite Hd in Hd0. injection Hd0 as -> ->.
      eexists. split; [exact Hx|]. pose proof (n_last _ _ _ _ (Hn b n Hb)). lia.
  - destruct (Expire_dead _ _ clusterMutexExpiration _ Eg) as [Hx|Hx].
    + split; [intros b d'; by rewrite Hx|]. intros b n Hne Hb Hr. split; [|intros d'; by rewrite Hx].
      intros Hh. by rewrite (holds_live b n s Ht Hb Hr Hh) in Eg.
    + split; [intros b d'; rewrite Hx; intros Hd; right; by eapply He|].
      intros b n Hne Hb Hr. unfold holds. rewrite Hx. eauto.
Qed.

Lemma suits_release a n s :
  cluster_ok s -> snd s !! a = Some n -> running n = true -> IsMaster (cm n) = true ->
  suits a s (KDel K (st (fst s))).
Proof.
  intros [Hn _] Ha Hr Hm. pose proof (KDel_entry K (st (fst s))) as Hx.
  split; [intros b d'; by rewrite Hx|]. intros b n' Hne Hb Hrb. split; [|intros d'; by rewrite Hx].
  intros (d & Hd & _). destruct (n_master _ _ _ _ (Hn a n Ha) Hr Hm) as (d2 & Hd2 & _).
  rewrite Hd in Hd2. injection Hd2 as -> _. done.
Qed.

Lemma cluster_ok_suits a n' (w' : World R) (s : Cluster) :
  cluster_ok s -> env_clock (calls (fst s)) <= env_clock (calls w') ->
  suits a s (st w') -> node_ok a n' (env_clock (calls w')) (st w') ->
  cluster_ok (w', <[a := n']> (snd s)).
Proof. intros Hok Hle [S1 S2] Hn. by apply cluster_ok_upd. Qed.
(** ** The steps *)
Lemma IsMaster_eq m : IsMaster m = true <-> myName m <> ""%string /\ myName m = currentMaster m.
Proof. unfold IsMaster. rewrite andb_true_iff, negb_true_iff, String.eqb_neq, String.eqb_eq. tauto. Qed.

Lemma get_node_ok a n s :
  cluster_ok s -> timely s -> snd s !! a = Some n -> running n = true -> pc n = None ->
  cluster_ok (get_node a n s).
Proof.
  intros Hok Ht Ha Hr Hpc. pose proof Hok as [Hn _]. destruct (Hn a n Ha) as [B1 B2 B3 B4 B5 B6 B7].
  unfold get_node, tick_get, gbind. rewrite getCurrentMaster_run, B2. pose proof (clock_step (fst s)) as Hc.
  destruct (ttl_get _ K _) as [v|] eqn:Eg; simpl.
  - destruct (get_entry _ _ _ Eg) as [d Hd].
    destruct (String.eqb_spec v (myName (cm n))) as [Hv|Hv]; simpl;
      (apply cluster_ok_suits; [done|done|by apply suits_same|]); rewrite B1 in Hv.
    + subst v. split; simpl; try done; [lia|eauto|eauto].
    + split; simpl; try done.
      * intros _ Hm. apply IsMaster_eq in Hm as [_ Hm]. simpl in Hm. congruence.
      * intros d' _. rewrite Hd. intros [= Hx _]. done.
  - apply cluster_ok_suits; [done|done|by apply suits_same|].
    split; simpl; try done; [lia|exact (fun _ => B4 Hr)|exact (fun d _ => B5 d Hr)|].
    intros d _ _ Hd. rewrite (holds_live a n s Ht Ha Hr (B5 d Hr Hd)) in Eg. done.
Qed.

Lemma tryPreempt_take first m (w : World R) :
  ttl_get (env_clock (calls w)) (key m) (st w) = None ->
  tryPreempt first m w = (Ok (None, markReady (set_master (myName m) m)),
    mkWorld (S (calls w)) (snd (SetNX (env_clock (calls w)) (key m) (myName m) clusterMutexExpiration (st w)))).
Proof.
  intros Hg. unfold tryPreempt, gbind, gtry. rewrite kv_run.
  by destruct (SetNX_free _ _ (myName m) clusterMutexExpiration _ Hg) as [-> _].
Qed.

(** After a failed attempt the state of Redis is the same; the first attempt
    also reads who holds the lock. *)
Lemma tryPreempt_held first m (w : World R) v :
  ttl_get (env_clock (calls w)) (key m) (st w) = Some v ->
  exists m' w', tryPreempt first m w = (Ok (None, m'), w') /\ st w' = st w /\
    (calls w <= calls w')%nat /\ myName m' = myName m /\ key m' = key m /\
    (currentMaster m' = currentMaster m \/ exists d, ttl_entry (key m) (st w) = Some (currentMaster m', d)) /\
    (first = false -> m' = m).
Proof.
  intros Hg. unfold tryPreempt, gbind, gtry. rewrite kv_run.
  rewrite (SetNX_held _ _ (myName m) clusterMutexExpiration _ _ Hg). simpl. destruct first.
  2: { eexists _, _. split; [reflexivity|]. simpl. split_and!; try done; [lia|by left]. }
  rewrite getCurrentMaster_run. simpl. unfold gret. unfold ttl_get.
  destruct (ttl_entry (key m) (st w)) as [[v' d]|] eqn:Ee; [destruct (_ <? d)|];
    (eexists _, _; split; [reflexivity|]; simpl; split_and!; try done; first [lia|by left|right; eauto|idtac]).
Qed.

Lemma act_node_ok a n t s :
  cluster_ok s -> timely s -> snd s !! a = Some n -> running n = true -> pc n = Some t ->
  cluster_ok (act_node a n t s).
Proof.
  intros Hok Ht Ha Hr Hpc. pose proof Hok as [Hn _]. destruct (Hn a n Ha) as [B1 B2 B3 B4 B5 B6 B7].
  unfold act_node. pose proof (clock_step (fst s)) as Hc. destruct t; [| |done]; simpl.
  - unfold gbind. destruct (ttl_get (env_clock (calls (fst s))) K (st (fst s))) as [v|] eqn:Eg.
    + rewrite <- B2 in Eg.
      destruct (tryPreempt_held false _ _ _ Eg) as (m' & w' & -> & Hst & Hle & _ & _ & _ & Hm).
      rewrite (Hm eq_refl). simpl. apply clock_mono in Hle.
      apply cluster_ok_suits; [done|done|rewrite Hst; by apply suits_same|]. rewrite Hst.
      split; simpl; try done.
      * intros _ Hm'. destruct (B4 Hr Hm') as (d & Hd & _). by apply (B7 d) in Hd.
      * intros d _ Hd. by apply (B7 d) in Hd.
    + rewrite <- B2 in Eg. rewrite (tryPreempt_take _ _ _ Eg), B1, B2. rewrite B2 in Eg. simpl.
      destruct (SetNX_free _ _ a clusterMutexExpiration _ Eg) as [_ He].
      apply cluster_ok_suits; [done|done|by apply suits_take|].
      split; simpl; try done; intros; (eexists; split; [exact He|simpl; lia]).
  - unfold renew, gbind, gtry. rewrite kv_run. simpl. rewrite B2.
    apply cluster_ok_suits; [done|done|by apply suits_renew|].
    assert (Hkeep : holds a n (st (fst s)) -> forall m, holds a (mkNode m None (env_clock (calls (fst s))) true)
               (Expire (env_clock (calls (fst s))) K clusterMutexExpiration (st (fst s)))).
    { intros Hh m. eexists. split; [apply Expire_live; by eapply holds_live|simpl; lia]. }
    split; simpl; try done.
    + intros _ Hm. by apply Hkeep, B4.
    + intros d _ Hd. apply Hkeep.
      destruct (ttl_get (env_clock (calls (fst s))) K (st (fst s))) as [v|] eqn:Eg.
      * rewrite (Expire_live _ _ _ _ _ Eg) in Hd. injection Hd as -> _.
        destruct (get_entry _ _ _ Eg) as [d0 Hd0]. by eapply B5.
      * destruct (Expire_dead _ _ clusterMutexExpiration _ Eg) as [Hx|Hx]; rewrite Hx in Hd; [done|].
        by eapply B5.
Qed.

Lemma start_node_ok rnd a s :
  cluster_ok s -> timely s -> a <> ""%string -> snd s !! a = None -> cluster_ok (start_node rnd a s).
Proof.
  intros Hok Ht Hne Ha. pose proof Hok as [_ He]. unfold start_node.
  assert (Hnone : forall d, ttl_entry K (st (fst s)) <> Some (a, d)).
  { intros d Hd. apply He in Hd. rewrite Ha in Hd. by destruct Hd. }
  set (m := NewClusterMutex rnd lock a).
  destruct (ttl_get (env_clock (calls (fst s))) K (st (fst s))) as [v|] eqn:Eg.
  - destruct (tryPreempt_held true m (fst s) v Eg) as (m' & w' & -> & Hst & Hle & Hnm & Hk & Hm & _).
    simpl. apply clock_mono in Hle.
    apply cluster_ok_suits; [done|done|rewrite Hst; by apply suits_same|]. rewrite Hst.
    split; simpl; try done.
    + intros _ [_ Hmm]%IsMaster_eq. rewrite Hnm in Hmm. simpl in Hmm.
      destruct Hm as [Hm|[d Hd]]; [rewrite Hm in Hmm; done|].
      rewrite <- Hmm in Hd. by destruct (Hnone d).
    + intros d _ Hd. by destruct (Hnone d).
  - rewrite (tryPreempt_take true m (fst s) Eg). simpl. pose proof (clock_step (fst s)) as Hc.
    destruct (SetNX_free _ _ a clusterMutexExpiration _ Eg) as [_ Hx].
    apply cluster_ok_suits; [done|done|by apply suits_take|].
    split; simpl; try done; intros; (eexists; split; [exact Hx|simpl; lia]).
Qed.

Lemma stop_node_ok a n s :
  cluster_ok s -> snd s !! a = Some n -> running n = true -> cluster_ok (stop_node a n s).
Proof.
  intros Hok Ha Hr. pose proof Hok as [Hn _]. destruct (Hn a n Ha) as [B1 B2 B3 B4 B5 B6 B7].
  unfold stop_node, release. destruct (IsMaster (cm n)) eqn:Em; simpl.
  - unfold gbind, gtry. rewrite kv_run. simpl. rewrite B2. pose proof (clock_step (fst s)) as Hc.
    apply cluster_ok_suits; [done|done|by eapply suits_release|]. split; simpl; try done. lia.
  - apply cluster_ok_suits; [done|done|by apply suits_same|]. split; simpl; done.
Qed.

Lemma cluster_reach_ok s : cluster_reach s -> cluster_ok s /\ timely s.
Proof.
  induction 1 as [w Hw|rnd a s Hs [Hok Ht] Hne Ha Ht'|a n s Hs [Hok Ht] Ha Hr Hpc Ht'
    |a n t s Hs [Hok Ht] Ha Hr Hpc Ht'|a n s Hs [Hok Ht] Ha Hr Ht'|k s Hs [Hok Ht] Ht'].
  - split; [|by intros a n]. split; [by intros a n|]. intros a d. simpl. by rewrite Hw.
  - split; [by apply start_node_ok|done].
  - split; [by apply get_node_ok|done].
  - split; [by apply act_node_ok|done].
  - split; [by apply stop_node_ok|done].
  - split; [|done]. destruct Hok as [Hn He]. split; [|done]. intros a n Ha. simpl.
    destruct (Hn a n Ha). split; try done.
    pose proof (clock_mono (calls (fst s)) (calls (fst s) + k)). lia.
Qed.

(** C4: mutual exclusion: as long as Redis does not fail, node names are not
    reused and every running node ends a round (its start, or a tick) within
    the 30 s of the lock, at most one running node believes it is the master,
    through any interleaving of the Redis commands of starts, ticks and stops;
    and the lock in Redis is that node's and has not expired. *)
Theorem one_master s a b na nb :
  cluster_reach s -> snd s !! a = Some na -> snd s !! b = Some nb ->
  running na = true -> running nb = true ->
  IsMaster (cm na) = true -> IsMaster (cm nb) = true ->
  a = b /\ ttl_get (env_clock (calls (fst s))) K (st (fst s)) = Some a.
Proof.
  intros Hs Ha Hb Hra Hrb Hma Hmb. apply cluster_reach_ok in Hs as [[Hn _] Ht].
  pose proof (n_master _ _ _ _ (Hn a na Ha) Hra Hma) as Hha.
  pose proof (n_master _ _ _ _ (Hn b nb Hb) Hrb Hmb) as Hhb.
  pose proof (holds_live a na s Ht Ha Hra Hha) as Hga. split; [|done].
  rewrite (holds_live b nb s Ht Hb Hrb Hhb) in Hga. congruence.
Qed.
End Nodes.

(** * The Redis lock *)
Section LockerFacts.
Context `{Env} {R : Type} `{RedisTTL R} `{!RedisTTLOk R}.

(** Without failures, [Lock] on a lock somebody holds until time [d] tries
    until the first call at or after [d] and then returns holding it for its own
    time to live; with fewer attempts it has not returned and nothing changed. *)
Theorem Lock_acquires l v d n (w : World R) :
  no_fault_from (calls w) -> ttl_entry (lockerKey l) (st w) = Some (v, d) ->
  (forall i, (i < n)%nat -> env_clock (calls w + i) < d) -> d <= env_clock (calls w + n) ->
  (forall fuel, (n < fuel)%nat -> exists w', Lock fuel l w = (Ok true, w') /\
     calls w' = (calls w + n + 1)%nat /\
     ttl_entry (lockerKey l) (st w') = Some ("1"%string, env_clock (calls w + n) + lockTimeout l)) /\
  (forall fuel, (fuel <= n)%nat -> Lock fuel l w = (Ok false, mkWorld (calls w + fuel) (st w))).
Proof.
  revert w. induction n as [|n IH]; intros w Hnf He Hlt Hd.
  - rewrite Nat.add_0_r in Hd. assert (Hg : ttl_get (env_clock (calls w)) (lockerKey l) (st w) = None).
    { unfold ttl_get. rewrite He. by destruct (Z.ltb_spec (env_clock (calls w)) d); [lia|]. }
    destruct (SetNX_free _ _ "1" (lockTimeout l) _ Hg) as [Hok Hx].
    split; intros [|fuel] Hf; try lia.
    + simpl. unfold gbind, gtry, kv. rewrite gext_ok by (by apply Hnf). rewrite Hok.
      eexists. split; [reflexivity|]. simpl. rewrite Nat.add_0_r. split; [lia|done].
    + simpl. rewrite Nat.add_0_r. by destruct w.
  - assert (Hg : ttl_get (env_clock (calls w)) (lockerKey l) (st w) = Some v).
    { unfold ttl_get. rewrite He. specialize (Hlt 0%nat ltac:(lia)). rewrite Nat.add_0_r in Hlt.
      by apply Z.ltb_lt in Hlt as ->. }
    assert (Hstep : forall fuel, Lock (S fuel) l w = Lock fuel l (mkWorld (S (calls w)) (st w))).
    { intros fuel. simpl. unfold gbind, gtry, kv. rewrite gext_ok by (by apply Hnf).
      by rewrite (SetNX_held _ _ "1" (lockTimeout l) _ _ Hg). }
    destruct (IH (mkWorld (S (calls w)) (st w))) as [I1 I2]; cbn [calls st] in *.
    + eapply no_fault_le; [|exact Hnf]. lia.
    + done.
    + intros i Hi. rewrite Nat.add_succ_comm. apply Hlt. lia.
    + by rewrite Nat.add_succ_comm.
    + split; intros [|fuel] Hf; try lia.
      * rewrite Hstep. destruct (I1 fuel ltac:(lia)) as (w' & -> & Hc & Hx). exists w'.
        rewrite Nat.add_succ_comm in Hx. split_and!; [done|lia|done].
      * rewrite Nat.add_0_r. by destruct w.
      * rewrite Hstep, I2 by lia. by rewrite Nat.add_succ_comm.
Qed.
End LockerFacts.

(** * Concrete runs *)
(** 10 s per call; the calls of [bad] fail. *)
Definition tenEnv (bad : nat -> bool) : Env :=
  {| env_clock := fun n => 10 * 1000000000 * Z.of_nat n;
     env_fault := fun n => if bad n then Some (ErrNew "redis down") else None |}.
Definition MemLocks : Type := gmap string (string * Z).

Lemma Lock_acquires_witness :
  exists w' : World MemLocks, Lock (H := tenEnv (fun _ => false)) 9 (NewRedisLocker "job" (20 * 1000000000))
      (mkWorld 1 {[ "core:locker:job" := ("1", 35 * 1000000000) ]}) = (Ok true, w') /\ calls w' = 5%nat.
Proof.
  destruct (Lock_acquires (H := tenEnv (fun _ => false)) (NewRedisLocker "job" (20 * 1000000000)) "1"
     (35 * 1000000000) 3 (mkWorld 1 {[ "core:locker:job" := ("1", 35 * 1000000000) ]} : World MemLocks)) as [Hl _].
  - intros i _. reflexivity.
  - reflexivity.
  - intros i Hi. unfold env_clock, tenEnv. simpl calls. lia.
  - unfold env_clock, tenEnv. simpl calls. lia.
  - destruct (Hl 9%nat ltac:(lia)) as (w' & H1 & H2 & _). exists w'. split; [exact H1|exact H2].
Defined.

(** Node "a" becomes master; then its calls fail (calls 1 to 4, two ticks). *)
Definition node_a : ClusterMutex := NewClusterMutex 0 "m" "a".
Definition node_b : ClusterMutex := NewClusterMutex 0 "m" "b".
Definition split_env : Env := tenEnv (fun n => (1 <=? n)%nat && (n <=? 4)%nat).
Definition split_brain : M MemLocks (ClusterMutex * ClusterMutex) :=
  let! a := tryPreempt (H := split_env) true node_a in
  let! a1 := tick (H := split_env) (snd a) in
  let! a2 := tick (H := split_env) a1 in
  let! b := tryPreempt (H := split_env) true node_b in
  gret (a2, snd b).

(** When a master cannot reach Redis for the life of its lock it goes on
    believing it is the master: both of its ticks fail and keep the cached
    name, another node takes the expired lock, and both answer [IsMaster]. *)
Theorem unreachable_master_splits :
  exists a b w, split_brain (mkWorld 0 ∅) = (Ok (a, b), w) /\
    myName a <> myName b /\ IsMaster a = true /\ IsMaster b = true.
Proof. eexists _, _, _. split; [vm_compute; reflexivity|]. split_and!; vm_compute; done. Qed.

(** Two users of one lock: the first outlives its time to live. *)
Definition stale_unlock : M MemLocks (bool * bool * bool) :=
  let l := NewRedisLocker "job" (15 * 1000000000) in
  let! first := Lock (H := tenEnv (fun _ => false)) 1 l in
  let! second := Lock (H := tenEnv (fun _ => false)) 2 l in
  Unlock (H := tenEnv (fun _ => false)) l ;;;
  let! third := Lock (H := tenEnv (fun _ => false)) 1 l in
  gret (first, second, third).

(** [Unlock] deletes the key whoever holds it: a user whose lock has expired
    frees the lock of the next one, and a third enters while the second is
    still inside. *)
Theorem stale_unlock_admits_third :
  fst (stale_unlock (mkWorld 0 ∅)) = Ok (true, true, true).
Proof. vm_compute. reflexivity. Qed.

(** Two nodes, one master. *)
Definition quiet5 : Env :=
  {| env_clock := fun n => 5 * 1000000000 * Z.of_nat n; env_fault := fun _ => None |}.
Definition two_nodes : Cluster (R := MemLocks) :=
  start_node (H := quiet5) "m" 0 "b" (start_node (H := quiet5) "m" 0 "a" (mkWorld 0 ∅, ∅)).

Definition timelyb (s : Cluster (R := MemLocks)) : bool :=
  forallb (fun p => env_clock (Env := quiet5) (calls (fst s)) <? last (snd p) + clusterMutexExpiration)
    (map_to_list (snd s)).
Lemma timelyb_ok s : timelyb s = true -> timely (H := quiet5) s.
Proof.
  unfold timelyb. rewrite forallb_forall. intros Hs a n Ha _.
  apply Z.ltb_lt, (Hs (a, n)), list_elem_of_In, elem_of_map_to_list. exact Ha.
Qed.

Lemma two_nodes_reach : cluster_reach (H := quiet5) "m" two_nodes.
Proof.
  apply cr_start; [apply cr_start; [by apply cr_init|done|done|]|done|vm_compute; reflexivity|];
    apply timelyb_ok; vm_compute; reflexivity.
Qed.

Definition first_node : Node := default (mkNode node_a None 0 false) (snd two_nodes !! "a").
Lemma first_node_eq : snd two_nodes !! "a" = Some first_node.
Proof. vm_compute. reflexivity. Qed.
Lemma first_node_master : running first_node = true /\ IsMaster (cm first_node) = true.
Proof. split; vm_compute; reflexivity. Qed.

Lemma one_master_witness :
  "a"%string = "a"%string /\
  ttl_get (env_clock (Env := quiet5) (calls (fst two_nodes))) (K "m") (st (fst two_nodes)) = Some "a"%string.
Proof.
  apply (one_master (H := quiet5) "m" (fun _ => eq_refl)) with (na := first_node) (nb := first_node).
  - intros i j Hij. unfold env_clock, quiet5. lia.
  - exact two_nodes_reach.
  - exact first_node_eq.
  - exact first_node_eq.
  - apply first_node_master.
  - apply first_node_master.
  - apply first_node_master.
  - apply first_node_master.
Defined.
