(* ===== verification/ConcQueue.v ===== *)
(** [src/concqueue]: the bounded work queue (queue.go) and its options
    (option.go) as a transition system.  A state holds the channel, the flags
    and every goroutine inside the queue's code; an event is one atomic action of
    one of them.  Tasks are numbered; what running task [t] does is [outcome t],
    and the error a panic turns into is not modelled beyond its count. *)
From S2P Require Import Prelude.

(** What a task does: returns nil, returns an error, or panics. *)
Inductive Outcome : Type := TaskOk | TaskErr | TaskPanic.

Record queue : Type := mkQueue {
  taskQueue : list nat;      (* the channel's buffer *)
  queueSize : nat;           (* its capacity *)
  chan_closed : bool;
  closed : bool;             (* the atomic flag *)
  ctx_done : bool;
  workerCount : nat;
  idle : nat;                (* workers waiting in their select *)
  running : list nat;        (* tasks being run, one worker each *)
  senders : list nat;        (* Submit calls past the check of [closed] *)
  errCount : nat;            (* an int32 in the code, for fewer than 2^31 failures *)
  (* history *)
  accepted : list nat;
  finished : list nat;
  exited : nat;
}.

(** [New] and [start]: the flag is 0, so the workers start; [done] says that
    the context given by [WithContext] has ended. *)
Definition New (workerCount queueSize : nat) (done : bool) : queue :=
  mkQueue [] queueSize false false done workerCount workerCount [] [] 0 [] [] 0.

(** The goroutines the wait group counts. *)
Definition live_workers (q : queue) : nat := (q.(idle) + length q.(running))%nat.

Inductive event : Type :=
| ESubmit (t : nat)    (* Submit reads [closed] *)
| ESend (t : nat)      (* its select sends; a closed channel makes it panic *)
| EHandOff (t : nat)   (* the send goes straight to a waiting worker *)
| EGiveUp (t : nat)    (* its select sees the context done *)
| ERecv                (* a worker receives *)
| EFinish (t : nat)    (* runTask returns *)
| EExit                (* a worker sees the channel closed and drained *)
| EExitCtx             (* a worker sees the context done *)
| EStop                (* the compare-and-swap of stop *)
| EClose               (* its close of the channel *)
| ECancel.             (* StopAndWait after wait, or the owner of the context *)

Fixpoint remove1 (t : nat) (l : list nat) : option (list nat) :=
  match l with
  | [] => None
  | x :: l' => if Nat.eqb x t then Some l'
               else match remove1 t l' with Some r => Some (x :: r) | None => None end
  end.

(** A Submit that sent to a closed channel panics in its caller. *)
Inductive result : Type := Done (q : queue) | SendPanic.

Section Steps.
Variable outcome : nat -> Outcome.

Definition fails (t : nat) : bool := match outcome t with TaskOk => false | _ => true end.
Definition panics (t : nat) : bool := match outcome t with TaskPanic => true | _ => false end.

(** [runTask]: an error or a panic counts; a panic starts one more worker unless
    the queue is closed, and the worker that recovered goes on as well. *)
Definition runTask (t : nat) (rest : list nat) (q : queue) : queue :=
  mkQueue q.(taskQueue) q.(queueSize) q.(chan_closed) q.(closed) q.(ctx_done) q.(workerCount)
    (q.(idle) + 1 + if panics t && negb q.(closed) then 1 else 0) rest q.(senders)
    (q.(errCount) + if fails t then 1 else 0) q.(accepted) (q.(finished) ++ [t]) q.(exited).

(** One event; [None] when it cannot happen. *)
Definition step (e : event) (q : queue) : option result :=
  let '(mkQueue buf cap chc cl cd wc id run snd err acc fin ex) := q in
  match e with
  | ESubmit t =>
      if cl then Some (Done q)
      else Some (Done (mkQueue buf cap chc cl cd wc id run (t :: snd) err acc fin ex))
  | ESend t =>
      match remove1 t snd with
      | None => None
      | Some snd' =>
          if chc then Some SendPanic
          else if (length buf <? cap)%nat
          then Some (Done (mkQueue (buf ++ [t]) cap chc cl cd wc id run snd' err (acc ++ [t]) fin ex))
          else None
      end
  | EHandOff t =>
      match remove1 t snd, buf, id with
      | Some snd', [], S id' =>
          if chc then None
          else Some (Done (mkQueue [] cap chc cl cd wc id' (t :: run) snd' err (acc ++ [t]) fin ex))
      | _, _, _ => None
      end
  | EGiveUp t =>
      match remove1 t snd with
      | Some snd' => if cd then Some (Done (mkQueue buf cap chc cl cd wc id run snd' err acc fin ex)) else None
      | None => None
      end
  | ERecv =>
      match buf, id with
      | t :: buf', S id' => Some (Done (mkQueue buf' cap chc cl cd wc id' (t :: run) snd err acc fin ex))
      | _, _ => None
      end
  | EFinish t =>
      match remove1 t run with
      | Some run' => Some (Done (runTask t run' q))
      | None => None
      end
  | EExit =>
      match buf, id with
      | [], S id' => if chc then Some (Done (mkQueue [] cap chc cl cd wc id' run snd err acc fin (S ex))) else None
      | _, _ => None
      end
  | EExitCtx =>
      match id with
      | S id' => if cd then Some (Done (mkQueue buf cap chc cl cd wc id' run snd err acc fin (S ex))) else None
      | _ => None
      end
  | EStop => if cl then None else Some (Done (mkQueue buf cap chc true cd wc id run snd err acc fin ex))
  | EClose =>
      if cl && negb chc then Some (Done (mkQueue buf cap true cl cd wc id run snd err acc fin ex)) else None
  | ECancel => Some (Done (mkQueue buf cap chc cl true wc id run snd err acc fin ex))
  end.

(** [wait] returns when no worker is left. *)
Definition wait (q : queue) : option nat :=
  if (live_workers q =? 0)%nat then Some q.(errCount) else None.

Fixpoint steps (es : list event) (q : queue) : option result :=
  match es with
  | [] => Some (Done q)
  | e :: es => match step e q with
               | Some (Done q') => steps es q'
               | r => r
               end
  end.

Inductive reach (wc cap : nat) : queue -> Prop :=
| reach_new : reach wc cap (New wc cap false)
| reach_event e q q' : reach wc cap q -> step e q = Some (Done q') -> reach wc cap q'.

Lemma remove1_perm t l r : remove1 t l = Some r -> Permutation l (t :: r).
Proof.
  revert r. induction l as [|x l IH]; intros r; simpl; [done|].
  destruct (Nat.eqb_spec x t) as [->|]; [by intros [= ->]|].
  destruct (remove1 t l) as [r'|]; [|done]. intros [= <-]. rewrite (IH r' eq_refl). apply perm_swap.
Qed.

Definition n_fail (l : list nat) : nat := length (List.filter fails l).
Definition n_panic (l : list nat) : nat := length (List.filter panics l).

(** Nothing accepted is lost or run twice; failures are counted; the channel is
    closed after the flag; a worker leaves a live context only when the channel
    is closed and drained. *)
Record queue_ok (q : queue) : Prop := {
  q_tasks : Permutation (accepted q) (taskQueue q ++ running q ++ finished q);
  q_errs : errCount q = n_fail (finished q);
  q_closed : chan_closed q = true -> closed q = true;
  q_exits : ctx_done q = false -> (0 < exited q)%nat -> chan_closed q = true /\ taskQueue q = [];
  q_workers : (exited q + live_workers q <= workerCount q + n_panic (finished q))%nat /\
              (workerCount q <= exited q + live_workers q)%nat /\
              (closed q = false -> (exited q + live_workers q = workerCount q + n_panic (finished q))%nat);
}.

Lemma n_fail_snoc l t : n_fail (l ++ [t]) = (n_fail l + if fails t then 1 else 0)%nat.
Proof. unfold n_fail. rewrite List.filter_app, length_app. simpl. by destruct (fails t). Qed.
Lemma n_panic_snoc l t : n_panic (l ++ [t]) = (n_panic l + if panics t then 1 else 0)%nat.
Proof. unfold n_panic. rewrite List.filter_app, length_app. simpl. by destruct (panics t). Qed.

Lemma New_ok wc cap done : queue_ok (New wc cap done).
Proof.
  split; simpl; try done; [intros _ Hx; lia|]. unfold live_workers, n_panic; simpl. split_and!; [lia|lia|intros _; lia].
Qed.

Ltac count_workers W :=
  unfold live_workers in *; simpl in *; destruct W as (W1 & W2 & W3);
  split_and!; [lia|lia|intros Hc; specialize (W3 Hc); lia].

Lemma step_ok e q q' : queue_ok q -> step e q = Some (Done q') -> queue_ok q'.
Proof.
  destruct q as [buf cap chc cl cd wc id run snd err acc fin ex]. intros [T E C X W]. simpl in *.
  unfold live_workers in *; simpl in *. destruct e as [t|t|t|t| |t| | | | | ]; intros Hs.
  - destruct cl; simplify_eq; split; done.
  - destruct (remove1 t snd) as [snd'|]; [|done]. destruct chc; [done|].
    destruct (_ <? _)%nat; simplify_eq. split; simpl; try done.
    + rewrite T. solve_Permutation.
    + intros Hc Hx. by destruct (X Hc Hx).
  - destruct (remove1 t snd) as [snd'|]; [|done]. destruct buf; [|done]. destruct id; [done|].
    destruct chc; simplify_eq. split; simpl; try done.
    + rewrite T. solve_Permutation.
    + count_workers W.
  - destruct (remove1 t snd) as [snd'|]; [|done]. destruct cd; simplify_eq. split; done.
  - destruct buf as [|t buf]; [done|]. destruct id as [|id]; [done|]. simplify_eq. split; simpl; try done.
    + rewrite T. solve_Permutation.
    + intros Hc Hx. by destruct (X Hc Hx).
    + count_workers W.
  - destruct (remove1 t run) as [run'|] eqn:Er; [|done]. simplify_eq. apply remove1_perm in Er.
    pose proof (Permutation_length Er) as Hl. simpl in Hl. split; simpl; try done.
    + rewrite T, Er. solve_Permutation.
    + by rewrite n_fail_snoc.
    + unfold live_workers in *; simpl in *. rewrite n_panic_snoc. destruct W as (W1 & W2 & W3).
      destruct cl, (panics t); simpl; split_and!; try done; try lia; intros Hc; specialize (W3 Hc); lia.
  - destruct buf; [|done]. destruct id as [|id]; [done|]. destruct chc; simplify_eq. split; simpl; try done.
    count_workers W.
  - destruct id as [|id]; [done|]. destruct cd; simplify_eq. split; simpl; try done.
    count_workers W.
  - destruct cl; simplify_eq. split; simpl; try done. destruct W as (W1 & W2 & W3). by split_and!.
  - destruct cl, chc; simpl in Hs; simplify_eq. split; simpl; try done.
    intros Hc Hx. by destruct (X Hc Hx).
  - simplify_eq. split; done.
Qed.

Lemma reach_ok wc cap q : reach wc cap q -> queue_ok q.
Proof. induction 1; [apply New_ok|by eapply step_ok]. Qed.
Lemma step_workerCount e q q' : step e q = Some (Done q') -> workerCount q' = workerCount q.
Proof.
  destruct q as [buf cap chc cl cd wc id run snd err acc fin ex]. simpl.
  intros Hs. destruct e; repeat case_match; simplify_eq; done.
Qed.
Lemma reach_workerCount wc cap q : reach wc cap q -> workerCount q = wc.
Proof. induction 1 as [|e q q' _ IH Hs]; [done|]. apply step_workerCount in Hs. congruence. Qed.

(** C10: whenever the wait of [StopAndWait] returns, every task that [Submit] put in
    has either been run, exactly once, or is still in the channel, and the answer
    counts exactly those that were run and failed or panicked.  Tasks are left in
    the channel only of a queue whose context has ended before, or that has no
    workers. *)
Theorem StopAndWait_complete wc cap q n :
  reach wc cap q -> wait q = Some n ->
  Permutation (accepted q) (finished q ++ taskQueue q) /\ n = n_fail (finished q) /\
  ((0 < wc)%nat -> ctx_done q = false -> taskQueue q = []).
Proof.
  intros Hr Hw. pose proof (reach_workerCount _ _ _ Hr) as Hwcq. apply reach_ok in Hr as [T E C X (W1 & W2 & W3)].
  unfold wait in Hw. destruct (Nat.eqb_spec (live_workers q) 0) as [Hl|]; [|done]. simplify_eq.
  split; [|split; [done|intros Hwc Hctx; by destruct (X Hctx ltac:(lia))]]. unfold live_workers in Hl.
  assert (Hrun : ConcQueue.running q = []) by (destruct (ConcQueue.running q); simpl in *; [done|lia]).
  rewrite Hrun in T. rewrite T. solve_Permutation.
Qed.

(** Until the queue is stopped the number of workers is [workerCount] plus
    the number of tasks that panicked so far: the worker that recovers from a
    panic goes on, and a new one is started besides. *)
Theorem workers_grow wc cap q :
  reach wc cap q -> closed q = false -> ctx_done q = false ->
  live_workers q = (workerCount q + n_panic (finished q))%nat.
Proof.
  intros Hr Hcl Hctx. apply reach_ok in Hr as [T E C X (W1 & W2 & W3)].
  specialize (W3 Hcl). destruct (exited q) as [|ex]; [done|].
  destruct (X Hctx ltac:(lia)) as [Hch _]. apply C in Hch. congruence.
Qed.

(** The steps of the workers, and how much work is left. *)
Definition worker_event (e : event) : Prop :=
  match e with ERecv | EFinish _ | EExit => True | _ => False end.
Definition work_left (q : queue) : nat :=
  (3 * length (taskQueue q) + 2 * length (ConcQueue.running q) + idle q)%nat.

Lemma worker_event_decreases e q q' :
  closed q = true -> worker_event e -> step e q = Some (Done q') ->
  (work_left q' < work_left q)%nat /\ closed q' = true /\ chan_closed q' = chan_closed q.
Proof.
  destruct q as [buf cap chc cl cd wc id run snd err acc fin ex]. intros Hcl He Hs. simpl in Hcl. subst cl.
  unfold work_left. destruct e; try done; simpl in Hs.
  - destruct buf as [|t buf], id as [|id]; simplify_eq; simpl. split; [lia|done].
  - destruct (remove1 t run) as [run'|] eqn:Er; simplify_eq. apply remove1_perm, Permutation_length in Er.
    simpl in *. destruct (panics t); simpl; (split; [lia|done]).
  - destruct buf, id as [|id]; try done. destruct chc; simplify_eq; simpl. split; [lia|done].
Qed.

Lemma worker_progress q :
  chan_closed q = true -> (0 < live_workers q)%nat ->
  exists e q', worker_event e /\ step e q = Some (Done q').
Proof.
  destruct q as [buf cap chc cl cd wc id run snd err acc fin ex]. unfold live_workers. simpl. intros -> Hl.
  destruct run as [|t run].
  - destruct id as [|id]; [simpl in Hl; lia|].
    destruct buf as [|t buf]; [exists EExit|exists ERecv]; simpl; eauto.
  - exists (EFinish t). simpl. rewrite Nat.eqb_refl. eauto.
Qed.

(** Once the channel is closed, [StopAndWait] returns: some worker can always
    move while one is left, and the workers make at most [work_left] moves
    before none is left (tasks themselves return). *)
Theorem StopAndWait_returns q :
  chan_closed q = true -> closed q = true ->
  exists es q' n, Forall worker_event es /\ (length es <= work_left q)%nat /\
    steps es q = Some (Done q') /\ wait q' = Some n.
Proof.
  remember (work_left q) as m eqn:Em. revert q Em.
  induction (lt_wf m) as [m _ IH]. intros q -> Hch Hcl.
  destruct (decide (live_workers q = 0%nat)) as [Hz|Hz].
  - exists [], q, (errCount q). unfold wait. rewrite Hz. simpl. split_and!; [done|lia|done|done].
  - destruct (worker_progress q Hch) as (e & q1 & He & Hs); [lia|].
    destruct (worker_event_decreases e q q1 Hcl He Hs) as (Hlt & Hcl1 & Hch1).
    destruct (IH _ Hlt q1 eq_refl) as (es & q' & n & Hes & Hlen & Hsteps & Hw); [congruence|done|].
    exists (e :: es), q', n. simpl. rewrite Hs. split_and!; [by constructor|lia|done|done].
Qed.
End Steps.

(** * Concrete runs *)
Definition demo_outcome (t : nat) : Outcome :=
  match t with 1%nat => TaskPanic | 2%nat => TaskErr | _ => TaskOk end.
Definition result_queue (r : option result) : queue :=
  match r with Some (Done q) => q | _ => New 0 0 false end.

Lemma steps_reach outcome wc cap es q q' :
  reach outcome wc cap q -> steps outcome es q = Some (Done q') -> reach outcome wc cap q'.
Proof.
  revert q. induction es as [|e es IH]; intros q Hq Hs; simpl in Hs; [by simplify_eq|].
  destruct (step outcome e q) as [[q1|]|] eqn:E; [|done..]. apply (IH q1); [|done]. by eapply reach_event.
Qed.

(** Three tasks on one worker; task 1 panics, task 2 fails. *)
Definition demo_events : list event :=
  [ESubmit 1; EHandOff 1; EFinish 1; ESubmit 2; ESend 2; ESubmit 3; ESend 3; ERecv; ERecv].
Definition demo_queue : queue := result_queue (steps demo_outcome demo_events (New 1 2 false)).
Definition drained : queue := result_queue (steps demo_outcome
  [EStop; EClose; EFinish 3; EFinish 2; EExit; EExit] demo_queue).

Lemma demo_queue_reach : reach demo_outcome 1 2 demo_queue.
Proof. apply (steps_reach _ _ _ demo_events (New 1 2 false)); [apply reach_new|vm_compute; reflexivity]. Qed.
Lemma drained_reach : reach demo_outcome 1 2 drained.
Proof.
  apply (steps_reach _ _ _ [EStop; EClose; EFinish 3; EFinish 2; EExit; EExit] demo_queue);
    [exact demo_queue_reach|vm_compute; reflexivity].
Qed.

(** The same queue with its context ended: its second task stays in the channel. *)
Definition cancelled : queue := result_queue (steps demo_outcome
  [ESubmit 1; EHandOff 1; ESubmit 2; ESend 2; ECancel; EStop; EClose; EFinish 1; EExitCtx] (New 1 2 false)).
Lemma cancelled_reach : reach demo_outcome 1 2 cancelled.
Proof.
  apply (steps_reach _ _ _ [ESubmit 1; EHandOff 1; ESubmit 2; ESend 2; ECancel; EStop; EClose; EFinish 1; EExitCtx]
           (New 1 2 false)); [apply reach_new|vm_compute; reflexivity].
Qed.

Lemma StopAndWait_complete_witness :
  (Permutation (accepted drained) (finished drained ++ taskQueue drained) /\ taskQueue drained = [] /\
   2%nat = n_fail demo_outcome (finished drained)) /\
  Permutation (accepted cancelled) (finished cancelled ++ [2%nat]).
Proof.
  split.
  - destruct (StopAndWait_complete demo_outcome 1 2 drained 2 drained_reach) as (Hp & Hn & Hb);
      [vm_compute; reflexivity|].
    split_and!; [exact Hp| |exact Hn]. apply Hb; [apply Nat.lt_0_succ|vm_compute; reflexivity].
  - destruct (StopAndWait_complete demo_outcome 1 2 cancelled 1 cancelled_reach) as [Hp _];
      [vm_compute; reflexivity|]. exact Hp.
Defined.

(** One configured worker, two tasks running at once. *)
Lemma workers_grow_witness :
  live_workers demo_queue = (workerCount demo_queue + n_panic demo_outcome (finished demo_queue))%nat /\
  workerCount demo_queue = 1%nat /\ length (running demo_queue) = 2%nat.
Proof.
  split; [|split; vm_compute; reflexivity].
  apply (workers_grow demo_outcome 1 2 demo_queue demo_queue_reach); vm_compute; reflexivity.
Defined.

Lemma StopAndWait_returns_witness :
  exists es q' n, Forall worker_event es /\
    (length es <= work_left (result_queue (steps demo_outcome [EStop; EClose] demo_queue)))%nat /\
    steps demo_outcome es (result_queue (steps demo_outcome [EStop; EClose] demo_queue)) = Some (Done q') /\
    wait q' = Some n.
Proof.
  apply (StopAndWait_returns demo_outcome (result_queue (steps demo_outcome [EStop; EClose] demo_queue)));
    vm_compute; reflexivity.
Defined.

(** [Submit] racing with [StopAndWait] can panic: a call that read the flag
    before the queue was stopped sends to the closed channel. *)
Theorem late_submit_panics :
  steps demo_outcome [ESubmit 1; EStop; EClose; ESend 1] (New 1 2 false) = Some SendPanic.
Proof. reflexivity. Qed.
