(* ===== verification/RedisCache.v ===== *)
(** The lock functions of [src/dbtools/redispool/redis_cache.go] on the Redis
    keys of [Mutex], and [src/lifecycle/retry.go].  [time.Sleep] has no effect in
    the model; the clock is read at each call. *)
From S2P Require Import Prelude Mutex.

Section Locks.
Context `{Env} {R : Type} `{RedisTTL R}.

(** An error of Redis reads as a lock that is held. *)
Definition GetLock (key : string) (expired : Z) : M R bool :=
  let! result := gtry (kv (fun now => SetNX now key "1" expired)) in
  gret match result with Ok b => b | Err _ => false end.

(** The attempts [Lock] has left. *)
Fixpoint lock_loop (n : nat) (key : string) (expired : Z) : M R unit :=
  match n with
  | O => graise (ErrNew "lock failed")
  | S n => let! ok := GetLock key expired in
           if (ok : bool) then gret tt else lock_loop n key expired
  end.
Definition cache_Lock (key : string) (expired : Z) : M R unit := lock_loop 100 key expired.

Definition UnLock (key : string) : M R unit := kv (fun _ r => (tt, KDel key r)).

(** [fuel] bounds the attempts; [None] while it has not returned. *)
Fixpoint timeout_loop (fuel : nat) (key : string) (expired start timeout : Z) : M R (option bool) :=
  match fuel with
  | O => gret None
  | S fuel =>
      let! ok := GetLock key expired in
      if (ok : bool) then gret (Some true)
      else
        let! now := gnow in
        if timeout <? now - start then gret (Some false)
        else timeout_loop fuel key expired start timeout
  end.
Definition LockWithTimeout (fuel : nat) (key : string) (expired timeout : Z) : M R (option bool) :=
  let! start := gnow in timeout_loop fuel key expired start timeout.

Lemma kv_ok {A} (f : Z -> R -> A * R) (w : World R) :
  env_fault (calls w) = None ->
  kv f w = (Ok (fst (f (env_clock (calls w)) (st w))),
            mkWorld (S (calls w)) (snd (f (env_clock (calls w)) (st w)))).
Proof. intros Hf. unfold kv. by rewrite gext_ok. Qed.

Lemma GetLock_held key expired (w : World R) v :
  env_fault (calls w) = None -> ttl_get (env_clock (calls w)) key (st w) = Some v -> RedisTTLOk R ->
  GetLock key expired w = (Ok false, mkWorld (S (calls w)) (st w)).
Proof.
  intros Hf Hg Hok. unfold GetLock, gbind, gtry, kv. rewrite gext_ok by done.
  by rewrite (SetNX_held _ _ "1" expired _ _ Hg).
Qed.
End Locks.

(** * [lifecycle.Retry]

    [fn] answers whether to retry, and the error. *)
Fixpoint Retry {S} (retryTimes : nat) (fn : G S (bool * option error)) (err : option error) :
    G S (option error) :=
  match retryTimes with
  | O => pret err
  | Datatypes.S n =>
      let* r := fn in
      let '(needContinue, err) := r in
      if (needContinue : bool) then Retry n fn err else pret err
  end.

Section RetryFacts.
Context {S : Type}.
Variable fn : G S (bool * option error).

(** The world after [i] calls of [fn]. *)
Fixpoint tries (i : nat) (w : World S) : World S :=
  match i with O => w | Datatypes.S i => tries i (snd (fn w)) end.

(** [Retry] calls the function until it answers that no retry is needed, and
    not again: on a function that asks for a retry [n] times and then does not,
    it makes [n+1] calls and returns the error of the last one; with a budget of
    at most [n] calls it makes that many and returns the error of the last, or
    the initial nil error when the budget is zero. *)
Theorem Retry_spec n e0 e w :
  (forall i, (i < n)%nat -> exists ei, fst (fn (tries i w)) = Val (true, ei)) ->
  fst (fn (tries n w)) = Val (false, e) ->
  (forall k, (n < k)%nat -> Retry k fn e0 w = (Val e, tries (n + 1) w)) /\
  (forall k, (k <= n)%nat -> exists ek, Retry k fn e0 w = (Val ek, tries k w) /\
     ((k = 0)%nat -> ek = e0) /\
     forall i, k = Datatypes.S i -> fst (fn (tries i w)) = Val (true, ek)).
Proof.
  revert w e0. induction n as [|n IH]; intros w e0 Hlt Hn.
  - split; intros [|k] Hk; try lia; simpl.
    + unfold pbind. rewrite (surjective_pairing (fn w)). simpl in Hn. by rewrite Hn.
    + eexists. split; [reflexivity|]. split; [done|]. intros i Hi. lia.
  - destruct (Hlt 0%nat ltac:(lia)) as [e1 He1]. simpl in He1.
    destruct (IH (snd (fn w)) e1) as [I1 I2]; [|exact Hn|].
    { intros i Hi. apply (Hlt (Datatypes.S i)). lia. }
    split; intros [|k] Hk; try lia; simpl; unfold pbind.
    + rewrite (surjective_pairing (fn w)), He1. apply I1. lia.
    + eexists. split; [reflexivity|]. split; [done|]. intros i Hi. lia.
    + rewrite (surjective_pairing (fn w)), He1. destruct (I2 k ltac:(lia)) as (ek & -> & H0 & Hl).
      exists ek. split; [done|]. split; [done|]. intros i [= <-]. destruct k as [|k]; [|by apply Hl].
      simpl. by rewrite (H0 eq_refl).
Qed.
End RetryFacts.

(** A function that succeeds on its third call, the state counting the calls. *)
Definition third_time : G nat (bool * option error) :=
  fun w => (Val (if (st w <? 2)%nat then (true, Some (ErrNew "again")) else (false, None)),
            mkWorld (calls w) (S (st w))).

Lemma Retry_spec_witness :
  Retry 5 third_time None (mkWorld 0 0%nat) = (Val None, tries third_time 3 (mkWorld 0 0%nat)) /\
  Retry 0 third_time None (mkWorld 0 0%nat) = (Val None, mkWorld 0 0%nat).
Proof.
  split; [|reflexivity].
  apply (Retry_spec third_time 2 None None (mkWorld 0 0%nat)).
  - intros [|[|i]] Hi; [eexists; reflexivity|eexists; reflexivity|lia].
  - reflexivity.
  - lia.
Defined.
