(* ===== verification/Pools.v ===== *)
(** [src/pool]: the port pool (portspool/ports.go), the resource pool on a Redis
    sorted set (redis.go) and the service pool over it (svrpool/pool.go).

    Redis sorted sets are the interface [RedisZSet] with its laws; the lock keys
    are those of [Mutex].  A score is the float64 of a time in nanoseconds, an
    integer: [f64] rounds to it. *)
From S2P Require Import Prelude Mutex RedisCache.

(** * Ports *)
Record PortPool : Type := mkPorts {
  available : list Z; allocated : list Z; maxPort : Z; minPort : Z;
}.

(** The ports from [a], [n] of them. *)
Definition port_range (a : Z) (n : nat) : list Z := map (fun i => a + Z.of_nat i) (seq 0 n).

(** [None] is the panic of [make] with a negative length. *)
Definition NewPortPool (minPort maxPort : Z) : option PortPool :=
  let '(minPort, maxPort) := if maxPort <? minPort then (maxPort, minPort) else (minPort, maxPort) in
  let minPort := if minPort <? 0 then 50000 else minPort in
  let maxPort := if 65535 <? maxPort then 60005 else maxPort in
  if maxPort - minPort + 1 <? 0 then None
  else Some (mkPorts (port_range minPort (Z.to_nat (maxPort - minPort + 1))) [] maxPort minPort).

Definition GetPort (p : PortPool) : Res Z * PortPool :=
  match p.(available) with
  | [] => (Err (ErrNew "端口池已用尽"), p)
  | port :: rest => (Ok port, mkPorts rest (p.(allocated) ++ [port]) p.(maxPort) p.(minPort))
  end.

(** [append(l[:i], l[i+1:]...)] at the first [port]; [None] when it is not there. *)
Fixpoint cut_port (port : Z) (l : list Z) : option (list Z) :=
  match l with
  | [] => None
  | x :: l' => if port =? x then Some l'
               else match cut_port port l' with Some r => Some (x :: r) | None => None end
  end.

Definition ReturnPort (port : Z) (p : PortPool) : Res unit * PortPool :=
  match cut_port port p.(allocated) with
  | None => (Err (ErrNew "端口未分配或已归还"), p)
  | Some rest => (Ok tt, mkPorts (p.(available) ++ [port]) rest p.(maxPort) p.(minPort))
  end.

(** Each port of the range is either available or allocated, once. *)
Definition ports_ok (p : PortPool) : Prop :=
  Permutation (p.(available) ++ p.(allocated))
    (port_range p.(minPort) (Z.to_nat (p.(maxPort) - p.(minPort) + 1))).

Inductive port_op : Type := OGet | OReturn (port : Z).
Definition run_port (p : PortPool) (o : port_op) : PortPool :=
  match o with OGet => snd (GetPort p) | OReturn port => snd (ReturnPort port p) end.

Lemma port_range_NoDup a n : NoDup (port_range a n).
Proof.
  assert (Inj eq eq (fun i : nat => a + Z.of_nat i)) by (intros i j; lia).
  apply (NoDup_fmap_2 _), NoDup_seq.
Qed.
Lemma port_range_In a n x : In x (port_range a n) <-> a <= x < a + Z.of_nat n.
Proof.
  unfold port_range. rewrite in_map_iff. split.
  - intros (i & <- & Hi). apply in_seq in Hi. lia.
  - intros Hx. exists (Z.to_nat (x - a)). rewrite in_seq. lia.
Qed.

Lemma cut_port_perm port l r : cut_port port l = Some r -> Permutation l (port :: r).
Proof.
  revert r. induction l as [|x l IH]; intros r; simpl; [done|].
  destruct (Z.eqb_spec port x) as [<-|]; [by intros [= ->]|].
  destruct (cut_port port l) as [r'|]; [|done]. intros [= <-]. rewrite (IH r' eq_refl). apply perm_swap.
Qed.
Lemma cut_port_None port l : cut_port port l = None <-> ~ In port l.
Proof.
  induction l as [|x l IH]; simpl; [tauto|]. destruct (Z.eqb_spec port x) as [<-|Hne]; [intuition done|].
  destruct (cut_port port l); [split; [done|]|]; intuition (congruence || (exfalso; eauto)).
Qed.

Lemma run_port_ok p o : ports_ok p -> ports_ok (run_port p o).
Proof.
  unfold ports_ok. destruct o as [|port]; simpl.
  - unfold GetPort. destruct (available p) as [|x l] eqn:E; simpl; [by rewrite E|]. intros <-.
    solve_Permutation.
  - unfold ReturnPort. destruct (cut_port port (allocated p)) as [r|] eqn:E; simpl; [|done].
    apply cut_port_perm in E. intros <-. rewrite E. solve_Permutation.
Qed.

Lemma NewPortPool_ok a b p :
  NewPortPool a b = Some p -> ports_ok p /\ 0 <= maxPort p - minPort p + 1.
Proof.
  unfold NewPortPool. destruct (if b <? a then _ else _) as [m M].
  set (lo := if m <? 0 then _ else _). set (hi := if _ <? M then _ else _).
  destruct (Z.ltb_spec (hi - lo + 1) 0); [done|]. intros [= <-]. unfold ports_ok. simpl.
  by rewrite app_nil_r.
Qed.

(** From a new pool, through any gets and returns, a get hands out a port of
    the configured range that nobody holds, and fails only when all are held; a
    return succeeds exactly for a held port and makes it available. *)
Theorem ports_exclusive a b p0 ops :
  NewPortPool a b = Some p0 ->
  let p := fold_left run_port ops p0 in
  NoDup (available p ++ allocated p) /\
  (forall port, In port (available p ++ allocated p) <-> minPort p0 <= port <= maxPort p0) /\
  match GetPort p with
  | (Ok port, p') => minPort p0 <= port <= maxPort p0 /\ ~ In port (allocated p) /\ In port (allocated p')
  | (Err _, p') => p' = p /\ forall port, minPort p0 <= port <= maxPort p0 -> In port (allocated p)
  end /\
  forall port, (exists p', ReturnPort port p = (Ok tt, p')) <-> In port (allocated p).
Proof.
  intros H0. cbv zeta.
  assert (Hok : forall p, ports_ok p -> minPort p = minPort p0 -> maxPort p = maxPort p0 ->
    ports_ok (fold_left run_port ops p) /\ minPort (fold_left run_port ops p) = minPort p0 /\
    maxPort (fold_left run_port ops p) = maxPort p0).
  { induction ops as [|o ops IH]; intros p Hp E1 E2; [done|]. simpl. apply IH; [by apply run_port_ok|..];
      destruct o as [|port]; simpl; unfold GetPort, ReturnPort;
      [destruct (available p)|destruct (cut_port port (allocated p))
      |destruct (available p)|destruct (cut_port port (allocated p))]; done. }
  destruct (NewPortPool_ok _ _ _ H0) as [H1 Hsz].
  destruct (Hok p0 H1 eq_refl eq_refl) as (Hp & E1 & E2).
  set (p := fold_left run_port ops p0) in *. unfold ports_ok in Hp. rewrite E1, E2 in Hp.
  assert (Hnd : NoDup (available p ++ allocated p)) by (rewrite Hp; apply port_range_NoDup).
  assert (Hin : forall port, In port (available p ++ allocated p) <-> minPort p0 <= port <= maxPort p0)
    by (intros port; rewrite Hp, port_range_In; lia).
  split_and!; [done|done| |].
  - unfold GetPort. destruct (available p) as [|x l] eqn:Ea.
    + split; [done|]. intros port Hport. by apply Hin in Hport.
    + split; [apply Hin; by left|]. split; [|simpl; apply in_app_iff; right; by left].
      simpl in Hnd. apply NoDup_cons in Hnd as [Hni _]. intros Hx. apply Hni, list_elem_of_In, in_app_iff. by right.
  - intros port. unfold ReturnPort. destruct (cut_port port (allocated p)) as [r|] eqn:E.
    + split; [intros _|eauto]. apply cut_port_perm in E. rewrite E. by left.
    + apply cut_port_None in E. split; [by intros [p' [=]]|done].
Qed.

Lemma ports_exclusive_witness :
  exists p0, NewPortPool 8002 8000 = Some p0 /\
  let p := fold_left run_port [OGet; OGet; OReturn 8000; OGet] p0 in
  NoDup (available p ++ allocated p) /\ allocated p = [8001; 8002].
Proof.
  eexists. split; [reflexivity|]. cbv zeta. split; [|reflexivity].
  destruct (ports_exclusive 8002 8000 _ [OGet; OGet; OReturn 8000; OGet] eq_refl) as (Hnd & _).
  exact Hnd.
Defined.

(** The adjustments of [NewPortPool] can cross: a range wholly above 60005
    that reaches past 65535, or wholly below zero, makes it panic. *)
Theorem NewPortPool_panics a b :
  (60006 < a <= b /\ 65535 < b) \/ (a <= b < 0) -> NewPortPool a b = None.
Proof.
  intros Hab. unfold NewPortPool. destruct (Z.ltb_spec b a); [lia|].
  destruct (Z.ltb_spec a 0), (Z.ltb_spec 65535 b);
    match goal with |- (if ?x <? 0 then _ else _) = _ => destruct (Z.ltb_spec x 0) end; done || lia.
Qed.
Lemma NewPortPool_panics_witness : NewPortPool 65000 70000 = None.
Proof. apply (NewPortPool_panics 65000 70000). lia. Defined.

(** * Redis sorted sets *)
Class RedisZSet (Z0 : Type) : Type := {
  zscores : string -> Z0 -> gmap string Z;
  ZPopMin : string -> Z0 -> option (string * Z) * Z0;
  ZAdd : string -> list (string * Z) -> Z0 -> Z0;
  ZRem : string -> list string -> Z0 -> Z0;
}.

Class RedisZSetOk (Z0 : Type) `{RedisZSet Z0} : Prop := {
  ZPopMin_empty : forall k r, zscores k r = ∅ -> ZPopMin k r = (None, r);
  ZPopMin_some : forall k r, zscores k r <> ∅ -> exists m s,
    fst (ZPopMin k r) = Some (m, s) /\ zscores k r !! m = Some s /\
    (forall m' s', zscores k r !! m' = Some s' -> s <= s') /\
    zscores k (snd (ZPopMin k r)) = delete m (zscores k r);
  ZAdd_scores : forall k l r,
    zscores k (ZAdd k l r) = fold_left (fun z p => <[fst p := snd p]> z) l (zscores k r);
  ZRem_scores : forall k l r,
    zscores k (ZRem k l r) = fold_left (fun z m => delete m z) l (zscores k r);
}.

(** An executable instance: one sorted set per key. *)
Definition zmin (l : list (string * Z)) : option (string * Z) :=
  foldr (fun p acc => match acc with
                      | Some q => if snd p <=? snd q then Some p else acc
                      | None => Some p end) None l.
Definition mem_zset (k : string) (r : gmap string (gmap string Z)) : gmap string Z := default ∅ (r !! k).
#[export] Instance MemZSet : RedisZSet (gmap string (gmap string Z)) := {|
  zscores := mem_zset;
  ZPopMin := fun k r => match zmin (map_to_list (mem_zset k r)) with
                        | Some (m, s) => (Some (m, s), <[k := delete m (mem_zset k r)]> r)
                        | None => (None, r)
                        end;
  ZAdd := fun k l r => <[k := fold_left (fun z p => <[fst p := snd p]> z) l (mem_zset k r)]> r;
  ZRem := fun k l r => <[k := fold_left (fun z m => delete m z) l (mem_zset k r)]> r;
|}.

Lemma zmin_spec l :
  match zmin l with
  | Some p => In p l /\ forall q, In q l -> snd p <= snd q
  | None => l = []
  end.
Proof.
  induction l as [|x l IH]; simpl; [done|]. destruct (zmin l) as [q|].
  - destruct IH as [Hin Hmin]. destruct (Z.leb_spec (snd x) (snd q)).
    + split; [by left|]. intros q' [<-|Hq]; [lia|]. specialize (Hmin q' Hq). lia.
    + split; [by right|]. intros q' [<-|Hq]; [lia|by apply Hmin].
  - subst. split; [by left|]. by intros q [<-|[]].
Qed.

#[export] Instance MemZSetOk : RedisZSetOk (gmap string (gmap string Z)).
Proof.
  split; intros k; simpl; [intros r Hz|intros r Hz|intros l r|intros l r].
  - by rewrite Hz, map_to_list_empty.
  - pose proof (zmin_spec (map_to_list (mem_zset k r))) as Hs.
    destruct (zmin _) as [[m s]|]; [|by apply map_to_list_empty_iff in Hs].
    destruct Hs as [Hin Hmin]. exists m, s. apply list_elem_of_In, elem_of_map_to_list in Hin.
    split_and!; [done|done| |simpl; unfold mem_zset at 1; by rewrite lookup_insert_eq].
    intros m' s' Hm. by apply elem_of_map_to_list, list_elem_of_In, Hmin in Hm.
  - unfold mem_zset at 1. by rewrite lookup_insert_eq.
  - unfold mem_zset at 1. by rewrite lookup_insert_eq.
Qed.

(** * The resource pool *)
(** [float64(n)] for an integer: 53 bits, ties to even. *)
Definition f64 (z : Z) : Z :=
  let d := 2 ^ Z.max 0 (Z.log2 (Z.abs z) - 52) in
  let q := Z.abs z / d in
  let r := Z.abs z mod d in
  let q := if 2 * r <? d then q else if d <? 2 * r then q + 1 else if Z.even q then q else q + 1 in
  Z.sgn z * (q * d).

Record ServiceInfo : Type := mkService { s_Name : string; s_Cap : Z }.
Record ServicePoolConfig : Type := mkPoolConfig {
  Services : list ServiceInfo; p_Expire : Z; Version : string;
}.
Definition emptyPoolConfig : ServicePoolConfig := mkPoolConfig [] 0 "".
#[export] Instance ServiceInfo_eq_dec : EqDecision ServiceInfo.
Proof. solve_decision. Defined.
#[export] Instance ServicePoolConfig_eq_dec : EqDecision ServicePoolConfig.
Proof. solve_decision. Defined.

Definition member (i : Z) (name : string) : string := (fmt_d i ++ String "_" name)%string.

(** The members of a configuration: ["1_name"] to ["cap_name"]. *)
Definition generateMembers (services : list ServiceInfo) : gset string :=
  list_to_set (flat_map (fun s => map (fun i => member (Z.of_nat i) s.(s_Name)) (seq 1 (Z.to_nat s.(s_Cap))))
                 services).

(** [strings.SplitN(s, "_", 2)]: the part after the first separator. *)
Fixpoint split_first (s : string) : option string :=
  match s with
  | EmptyString => None
  | String c s' => if Ascii.eqb c "_" then Some s' else split_first s'
  end.

Definition redisLock (key : string) : string := (key ++ "_lock")%string.

Section RedisPool.
Context `{Env} {Zs L : Type} `{RedisZSet Zs} `{RedisTTL L}.
Variable rdsKey : string.
(** [json.Unmarshal] of a text into a [redis.Z]. *)
Variable json_Z : string -> Res (string * Z).

(** The order [range] gives to a set of members. *)
Variable set_range : gset string -> list string.

(** The sorted sets and the locks of the Redis server. *)
Definition zs {A} (f : Zs -> A * Zs) : M (Zs * L) A :=
  gext (fun s => let '(a, z) := f (fst s) in (a, (z, snd s))).
Definition on_lock {A} (m : M L A) : M (Zs * L) A :=
  fun w => let '(r, w') := m (mkWorld (calls w) (snd (st w))) in
           (r, mkWorld (calls w') (fst (st w), st w')).

Definition no_service : error := ErrNew ("no service " ++ rdsKey).

Definition Acquire (conf : ServicePoolConfig) : M (Zs * L) (string * Z) :=
  let! now := gnow in
  let nowNano := f64 now in
  let futureNano := f64 (wrap_i64 (now + conf.(p_Expire))) in
  let! members := zs (ZPopMin rdsKey) in
  match members with
  | None => graise no_service
  | Some (m, minScore) =>
      if nowNano <? minScore
      then zs (fun z => (tt, ZAdd rdsKey [(m, minScore)] z)) ;;; graise no_service
      else zs (fun z => (tt, ZAdd rdsKey [(m, futureNano)] z)) ;;; gret (m, futureNano)
  end.

(** The pipeline of [Release] is not a transaction, so the optimistic loop around
    it runs once. *)
Definition Release (rz : string * Z) : M (Zs * L) unit :=
  let! score := zs (fun z => (zscores rdsKey z !! fst rz, z)) in
  match score with
  | None => graise (ErrNew "member does not exist.redis: nil")
  | Some score =>
      if score =? snd rz then zs (fun z => (tt, ZAdd rdsKey [(fst rz, 0)] z)) else gret tt
  end.

Definition AcquireString (conf : ServicePoolConfig) : M (Zs * L) (string * string) :=
  let! rz := Acquire conf in
  match split_first (fst rz) with
  | Some name => gret (fst rz, name)
  | None => graise (ErrNew ("split key encoding failed: " ++ fst rz))
  end.

Definition ReleaseString (id : string) : M (Zs * L) unit :=
  match json_Z id with
  | Err e => graise e
  | Ok rz => Release rz
  end.

(** [ZRemRangeByRank key 0 -1]; its error is dropped. *)
Definition Clear : M (Zs * L) unit :=
  gtry (zs (fun z => (tt, ZRem rdsKey (map fst (map_to_list (zscores rdsKey z))) z))) ;;; gret tt.

(** What [RefreshConfig] does between its two unlocks. *)
Definition refresh_body (toAdd toRemove : list string) : M (Zs * L) unit :=
  (match toAdd with
   | [] => gret tt
   | _ => gwrap "failed to add members: " (zs (fun z => (tt, ZAdd rdsKey (map (fun m => (m, 0)) toAdd) z)))
   end) ;;;
  (match toRemove with
   | [] => gret tt
   | _ => gwrap "failed to remove members: " (zs (fun z => (tt, ZRem rdsKey toRemove z)))
   end) ;;;
  gtry (on_lock (UnLock (redisLock rdsKey))) ;;; gret tt.

(** The answer is the pool's configuration afterwards; the deferred unlock runs
    on every path after the lock was taken. *)
Definition RefreshConfig (conf newConf : ServicePoolConfig) :
    M (Zs * L) (ServicePoolConfig * option error) :=
  let oldMembers := generateMembers conf.(Services) in
  let newMembers := generateMembers newConf.(Services) in
  let toAdd := set_range (newMembers ∖ oldMembers) in
  let toRemove := set_range (oldMembers ∖ newMembers) in
  let! locked := gtry (on_lock (cache_Lock (redisLock rdsKey) (5 * 1000000000))) in
  match locked with
  | Err e => gret (conf, Some e)
  | Ok _ =>
      let! r := gtry (refresh_body toAdd toRemove) in
      gtry (on_lock (UnLock (redisLock rdsKey))) ;;;
      gret match r with Ok _ => (newConf, None) | Err e => (conf, Some e) end
  end.

(** [NewRedisPool]: a refresh from the empty configuration; an error panics. *)
Definition NewRedisPool (conf : ServicePoolConfig) : G (Zs * L) ServicePoolConfig :=
  let* r := plift (RefreshConfig emptyPoolConfig conf) in
  match r with
  | Ok (c, None) => pret c
  | Ok (_, Some e) => ppanic (Error e)
  | Err e => ppanic (Error e)
  end.
End RedisPool.

Section RedisPoolFacts.
Context `{Env} {Zs L : Type} `{RedisZSet Zs} `{!RedisZSetOk Zs} `{RedisTTL L} `{!RedisTTLOk L}.
Variable rdsKey : string.

(** The members of the pool and the times they are free from. *)
Definition pool (w : World (Zs * L)) : gmap string Z := zscores rdsKey (fst (st w)).
(** The scores of [now] and of the end of a lease taken now. *)
Definition score_now (w : World (Zs * L)) : Z := f64 (env_clock (calls w)).
Definition score_then (conf : ServicePoolConfig) (w : World (Zs * L)) : Z :=
  f64 (wrap_i64 (env_clock (calls w) + p_Expire conf)).

Lemma zs_run {A} (f : Zs -> A * Zs) (w : World (Zs * L)) :
  env_fault (calls w) = None ->
  zs f w = (Ok (fst (f (fst (st w)))), mkWorld (S (calls w)) (snd (f (fst (st w))), snd (st w))).
Proof. intros Hf. unfold zs. rewrite gext_ok by done. by destruct (f _). Qed.

(** Without failures [Acquire] leases a member that is free now and that no
    member became free before, until now plus [Expire]; it fails, changing
    nothing, exactly when no member is free; no member is lost or added. *)
Theorem Acquire_spec conf (w : World (Zs * L)) :
  no_fault_from (calls w) ->
  match Acquire rdsKey conf w with
  | (Ok (m, s), w') =>
      s = score_then conf w /\ pool w' = <[m := s]> (pool w) /\
      exists s0, pool w !! m = Some s0 /\ s0 <= score_now w /\
        forall m' s', pool w !! m' = Some s' -> s0 <= s'
  | (Err _, w') => pool w' = pool w /\ forall m' s', pool w !! m' = Some s' -> score_now w < s'
  end.
Proof.
  intros Hnf. unfold Acquire, pool, score_now, score_then.
  rewrite gbind_eq. unfold gnow. rewrite gbind_eq, zs_run by (apply Hnf; simpl; lia). cbn [calls st fst snd].
  destruct (decide (zscores rdsKey (fst (st w)) = ∅)) as [Hz|Hz].
  - rewrite (ZPopMin_empty _ _ Hz). cbn. rewrite Hz. split; [done|]. intros m' s'. by rewrite lookup_empty.
  - destruct (ZPopMin_some _ _ Hz) as (m & s & Hm & Hin & Hmin & Hdel). rewrite Hm.
    destruct (Z.ltb_spec (f64 (env_clock (calls w))) s) as [Hlt|Hle]; rewrite gbind_eq, zs_run by (apply Hnf; simpl; lia);
      cbn; rewrite ZAdd_scores, Hdel; cbn.
    + rewrite insert_delete_id by done. split; [done|]. intros m' s' Hm'. specialize (Hmin m' s' Hm'). lia.
    + rewrite insert_delete_eq. split_and!; [done|done|]. exists s. split_and!; [done|lia|done].
Qed.

Lemma fold_insert_lookup (l : list string) (z : gmap string Z) m :
  fold_left (fun z p => <[fst p := snd p]> z) (map (fun m => (m, 0)) l) z !! m
  = if decide (m ∈ l) then Some 0 else z !! m.
Proof.
  revert z. induction l as [|x l IH]; intros z; [done|]. simpl. rewrite IH.
  destruct (decide (m ∈ l)); [by rewrite decide_True by (by constructor)|].
  destruct (decide (x = m)) as [->|]; [rewrite decide_True by constructor; apply lookup_insert_eq|].
  rewrite decide_False by (intros [?|?]%elem_of_cons; done). by rewrite lookup_insert_ne.
Qed.
Lemma fold_delete_lookup (l : list string) (z : gmap string Z) m :
  fold_left (fun z m => delete m z) l z !! m = if decide (m ∈ l) then None else z !! m.
Proof.
  revert z. induction l as [|x l IH]; intros z; [done|]. simpl. rewrite IH.
  destruct (decide (m ∈ l)); [by rewrite decide_True by (by constructor)|].
  destruct (decide (x = m)) as [->|]; [rewrite decide_True by constructor; apply lookup_delete_eq|].
  rewrite decide_False by (intros [?|?]%elem_of_cons; done). by rewrite lookup_delete_ne.
Qed.

Variable set_range : gset string -> list string.
Hypothesis set_range_In : forall s m, m ∈ set_range s <-> m ∈ s.

(** The sorted set after the two bulk commands. *)
Definition refreshed (old new : gset string) (z : gmap string Z) (m : string) : option Z :=
  if decide (m ∈ new ∖ old) then Some 0 else if decide (m ∈ old ∖ new) then None else z !! m.

Lemma refresh_body_run old new (w : World (Zs * L)) :
  no_fault_from (calls w) ->
  exists w', refresh_body rdsKey (set_range (new ∖ old)) (set_range (old ∖ new)) w = (Ok tt, w') /\
    (calls w <= calls w')%nat /\ forall m, pool w' !! m = refreshed old new (pool w) m.
Proof.
  intros Hnf. unfold refresh_body. rewrite gbind_eq.
  set (toAdd := set_range (new ∖ old)). set (toRemove := set_range (old ∖ new)).
  assert (Hadd : exists w1, (match toAdd with [] => gret tt | _ => gwrap "failed to add members: "
      (zs (fun z => (tt, ZAdd rdsKey (map (fun m => (m, 0)) toAdd) z))) end) w = (Ok tt, w1) /\
      (calls w <= calls w1)%nat /\ forall m, pool w1 !! m = if decide (m ∈ toAdd) then Some 0 else pool w !! m).
  { destruct toAdd as [|x l] eqn:E.
    - exists w. split; [done|]. split; [done|]. intros m. by rewrite decide_False by apply not_elem_of_nil.
    - unfold gwrap. rewrite zs_run by (by apply Hnf). eexists. split; [reflexivity|]. split; [simpl; lia|].
      intros m. unfold pool. cbn [st fst]. cbn [snd]. rewrite ZAdd_scores. apply fold_insert_lookup. }
  destruct Hadd as (w1 & -> & Hle1 & Hp1). rewrite gbind_eq.
  assert (Hrem : exists w2, (match toRemove with [] => gret tt | _ => gwrap "failed to remove members: "
      (zs (fun z => (tt, ZRem rdsKey toRemove z))) end) w1 = (Ok tt, w2) /\
      (calls w1 <= calls w2)%nat /\ forall m, pool w2 !! m = if decide (m ∈ toRemove) then None else pool w1 !! m).
  { destruct toRemove as [|x l] eqn:E.
    - exists w1. split; [done|]. split; [done|]. intros m. by rewrite decide_False by apply not_elem_of_nil.
    - unfold gwrap. rewrite zs_run by (apply Hnf; lia). eexists. split; [reflexivity|]. split; [simpl; lia|].
      intros m. unfold pool. cbn [st fst]. cbn [snd]. rewrite ZRem_scores. apply fold_delete_lookup. }
  destruct Hrem as (w2 & -> & Hle2 & Hp2). unfold gbind, gtry, on_lock, UnLock. rewrite kv_ok by (simpl; apply Hnf; lia).
  eexists. split; [reflexivity|]. split; [simpl; lia|].
  intros m. unfold pool at 1. cbn. fold (pool w2). rewrite Hp2, Hp1. unfold refreshed, toAdd, toRemove.
  destruct (decide (m ∈ set_range (old ∖ new))) as [Hi|Hi]; rewrite set_range_In in Hi.
  - rewrite decide_False; [|apply elem_of_difference in Hi; rewrite elem_of_difference; tauto].
    by rewrite decide_True.
  - rewrite (decide_ext (m ∈ set_range (new ∖ old)) (m ∈ new ∖ old)) by apply set_range_In.
    by rewrite (decide_False (P := m ∈ old ∖ new)).
Qed.
Lemma RefreshConfig_run conf newConf (w : World (Zs * L)) :
  no_fault_from (calls w) ->
  ttl_get (env_clock (calls w)) (redisLock rdsKey) (snd (st w)) = None ->
  exists w', RefreshConfig rdsKey set_range conf newConf w = (Ok (newConf, None), w') /\
    forall m, pool w' !! m = refreshed (generateMembers (Services conf)) (generateMembers (Services newConf)) (pool w) m.
Proof.
  intros Hnf Hfree. unfold RefreshConfig. rewrite gbind_eq. unfold gtry at 1, on_lock at 1, cache_Lock.
  destruct (SetNX_free _ _ "1" (5 * 1000000000) _ Hfree) as [Hok _].
  assert (Hl : lock_loop 100 (redisLock rdsKey) (5 * 1000000000) (mkWorld (calls w) (snd (st w)))
     = (Ok tt, mkWorld (S (calls w)) (snd (SetNX (env_clock (calls w)) (redisLock rdsKey) "1"
           (5 * 1000000000) (snd (st w)))))).
  { change 100%nat with (S 99). cbn [lock_loop]. unfold gbind, GetLock, gbind, gtry.
    rewrite kv_ok by (by apply Hnf). cbn [calls st] in *. by rewrite Hok. }
  rewrite Hl. cbn [calls st]. set (w1 := mkWorld _ _).
  destruct (refresh_body_run (generateMembers (Services conf)) (generateMembers (Services newConf)) w1)
    as (w2 & Hb & Hle & Hp); [eapply no_fault_le; [|exact Hnf]; simpl; lia|].
  rewrite gbind_eq. unfold gtry at 1. rewrite Hb. rewrite gbind_eq. unfold gtry, on_lock, UnLock.
  rewrite kv_ok by (apply Hnf; simpl in *; lia). eexists. split; [reflexivity|].
  intros m. unfold pool at 1. cbn. fold (pool w2). by rewrite Hp.
Qed.

(** Without failures and with the pool's lock free, a refresh from the
    configuration the pool was built with leaves exactly the members of the new
    one: kept members keep their leases, added ones are free at once. *)
Theorem RefreshConfig_members conf newConf (w : World (Zs * L)) :
  no_fault_from (calls w) ->
  ttl_get (env_clock (calls w)) (redisLock rdsKey) (snd (st w)) = None ->
  dom (pool w) = generateMembers (Services conf) ->
  exists w', RefreshConfig rdsKey set_range conf newConf w = (Ok (newConf, None), w') /\
    dom (pool w') = generateMembers (Services newConf) /\
    forall m, m ∈ generateMembers (Services newConf) ->
      pool w' !! m = if decide (m ∈ generateMembers (Services conf)) then pool w !! m else Some 0.
Proof.
  intros Hnf Hfree Hdom. destruct (RefreshConfig_run conf newConf w Hnf Hfree) as (w' & Hr & Hp).
  exists w'. split; [done|]. unfold refreshed in Hp.
  assert (Hin : forall m, m ∈ generateMembers (Services newConf) -> pool w' !! m =
      if decide (m ∈ generateMembers (Services conf)) then pool w !! m else Some 0).
  { intros m Hm. rewrite Hp. destruct (decide (m ∈ generateMembers (Services conf))) as [Ho|Ho].
    - rewrite decide_False by (rewrite elem_of_difference; tauto).
      by rewrite decide_False by (rewrite elem_of_difference; tauto).
    - by rewrite decide_True by (rewrite elem_of_difference; tauto). }
  split; [|exact Hin]. apply set_eq. intros m. rewrite elem_of_dom.
  destruct (decide (m ∈ generateMembers (Services newConf))) as [Hn|Hn].
  - rewrite (Hin m Hn). split; [done|]. intros _.
    destruct (decide _) as [Ho|]; [|eauto]. rewrite <- Hdom in Ho. by apply elem_of_dom.
  - split; [|done]. rewrite Hp. rewrite decide_False by (rewrite elem_of_difference; tauto).
    destruct (decide (m ∈ generateMembers (Services conf) ∖ _)) as [|Ho]; [by intros []|].
    rewrite elem_of_difference in Ho. intros Hs%elem_of_dom. rewrite Hdom in Hs. tauto.
Qed.

(** A new pool on a key that already holds members keeps all of them, stale
    ones included: it adds its own and removes none. *)
Theorem NewRedisPool_keeps_old conf (w : World (Zs * L)) :
  no_fault_from (calls w) ->
  ttl_get (env_clock (calls w)) (redisLock rdsKey) (snd (st w)) = None ->
  exists w', NewRedisPool rdsKey set_range conf w = (Val conf, w') /\
    dom (pool w') = dom (pool w) ∪ generateMembers (Services conf) /\
    forall m, m ∈ dom (pool w) -> m ∉ generateMembers (Services conf) -> pool w' !! m = pool w !! m.
Proof.
  intros Hnf Hfree. destruct (RefreshConfig_run emptyPoolConfig conf w Hnf Hfree) as (w' & Hr & Hp).
  exists w'. unfold NewRedisPool, pbind, plift. rewrite Hr. split; [done|].
  assert (Hold : generateMembers (Services emptyPoolConfig) = ∅) by done.
  rewrite Hold in Hp. unfold refreshed in Hp. split.
  - apply set_eq. intros m. rewrite elem_of_union, !elem_of_dom, Hp.
    destruct (decide (m ∈ generateMembers (Services conf))) as [Hn|Hn].
    + rewrite decide_True by (rewrite elem_of_difference; split; [done|apply not_elem_of_empty]).
      split; [by right|eauto].
    + rewrite decide_False by (rewrite elem_of_difference; tauto).
      rewrite decide_False by (rewrite elem_of_difference; intros [[]%not_elem_of_empty _]). tauto.
  - intros m _ Hn. rewrite Hp. rewrite decide_False by (rewrite elem_of_difference; tauto).
    by rewrite decide_False by (rewrite elem_of_difference; intros [[]%not_elem_of_empty _]).
Qed.

Lemma generateMembers_spec l m :
  m ∈ generateMembers l <-> exists s i, In s l /\ 1 <= i <= s_Cap s /\ m = member i (s_Name s).
Proof.
  unfold generateMembers. rewrite elem_of_list_to_set, list_elem_of_In, in_flat_map. split.
  - intros (s & Hs & Hm). apply in_map_iff in Hm as (i & <- & Hi). apply in_seq in Hi.
    exists s, (Z.of_nat i). split_and!; [done|lia|lia|done].
  - intros (s & i & Hs & Hi & ->). exists s. split; [done|]. apply in_map_iff. exists (Z.to_nat i).
    rewrite Z2Nat.id by lia. split; [done|]. apply in_seq. lia.
Qed.

Lemma split_first_app a b : str_mem "_" a = false -> split_first (a ++ String "_" b) = Some b.
Proof.
  induction a as [|c a IH]; [done|]. simpl. intros [Hc Ha]%orb_false_iff. rewrite Hc. by apply IH.
Qed.
Lemma split_first_member i name : 0 <= i -> split_first (member i name) = Some name.
Proof.
  intros Hi. apply split_first_app. destruct (str_mem "_" (fmt_d i)) eqn:E; [|done].
  by apply (fmt_d_digits i) in E.
Qed.

Variable json_Z : string -> Res (string * Z).
(** A JSON text that decodes into a struct is an object or [null], after white
    space. *)
Hypothesis json_object : forall c s z, json_Z (String c s) = Ok z ->
  c = "{"%char \/ c = "n"%char \/ In (nat_of_ascii c) [9; 10; 13; 32]%nat.

(** What [AcquireString] hands out names the service of the member it
    leased; and giving it back with [ReleaseString] never frees it: the id is not
    the JSON the release decodes, so every release fails and changes nothing. *)
Theorem ReleaseString_never_frees conf id name (w w1 w' : World (Zs * L)) :
  no_fault_from (calls w) -> dom (pool w) ⊆ generateMembers (Services conf) ->
  AcquireString rdsKey conf w = (Ok (id, name), w1) ->
  (exists s i, In s (Services conf) /\ name = s_Name s /\ 1 <= i <= s_Cap s /\ id = member i name) /\
  exists e, ReleaseString rdsKey json_Z id w' = (Err e, w').
Proof.
  intros Hnf Hdom Ha. unfold AcquireString in Ha. apply gbind_inv in Ha as [(? & _ & [=])|([m s] & w2 & Hm & Hk)].
  pose proof (Acquire_spec conf w Hnf) as Hs. rewrite Hm in Hs. destruct Hs as (_ & _ & s0 & Hs0 & _).
  assert (Hmem : m ∈ generateMembers (Services conf)) by (apply Hdom, elem_of_dom; eauto).
  apply generateMembers_spec in Hmem as (sv & i & Hsv & Hi & ->). cbn [fst] in Hk.
  rewrite split_first_member in Hk by lia. apply gret_inv in Hk as [[= -> ->] _].
  split; [by exists sv, i|]. unfold ReleaseString, member.
  destruct (fmt_d_head i ltac:(lia)) as (c & r & Hc & Hd). rewrite Hc. cbn [append].
  destruct (json_Z _) as [z|e] eqn:Ej; [|by exists e]. exfalso. change (String c r ++ ?x)%string with (String c (r ++ x)) in Ej.
  apply json_object in Ej as [->|[->|Hin]]; [done|done|].
  unfold is_digit in Hd. apply andb_true_iff in Hd as [Hd _]. apply Nat.leb_le in Hd.
  simpl in Hin. lia.
Qed.

(** * A lease among the operations of other users *)
(** An operation on the pool by any of its users, each with the configuration
    its own object of the pool holds. *)
Inductive pool_op : Type :=
  | PAcquire (conf : ServicePoolConfig) | PAcquireString (conf : ServicePoolConfig)
  | PRelease (rz : string * Z) | PReleaseString (id : string) | PClear
  | PRefresh (conf newConf : ServicePoolConfig).

Definition run_pool_op (o : pool_op) (w : World (Zs * L)) : World (Zs * L) :=
  match o with
  | PAcquire conf => snd (Acquire rdsKey conf w)
  | PAcquireString conf => snd (AcquireString rdsKey conf w)
  | PRelease rz => snd (Release rdsKey rz w)
  | PReleaseString id => snd (ReleaseString rdsKey json_Z id w)
  | PClear => snd (Clear rdsKey w)
  | PRefresh conf newConf => snd (RefreshConfig rdsKey set_range conf newConf w)
  end.

(** What may happen while [m] is leased until [s]: an acquire before that time,
    a release of anything but this lease, a refresh that does not add [m] anew. *)
Definition leaves_lease (m : string) (s : Z) (o : pool_op) (w : World (Zs * L)) : Prop :=
  match o with
  | PAcquire _ | PAcquireString _ => score_now w < s
  | PRelease rz => rz <> (m, s)
  | PReleaseString id => json_Z id <> Ok (m, s)
  | PClear => True
  | PRefresh conf newConf => m ∉ generateMembers (Services newConf) ∖ generateMembers (Services conf)
  end.

Inductive during (m : string) (s : Z) : World (Zs * L) -> World (Zs * L) -> Prop :=
  | during_refl w : during m s w w
  | during_step o w w' : leaves_lease m s o w -> during m s (run_pool_op o w) w' -> during m s w w'.

(** The member is in the set until the end of its lease, or in no set at all. *)
Definition held (m : string) (s : Z) (w : World (Zs * L)) : Prop :=
  forall s', pool w !! m = Some s' -> s' = s.

Lemma zs_inv {A} (f : Zs -> A * Zs) (w : World (Zs * L)) r w' :
  zs f w = (r, w') ->
  (exists e, r = Err e /\ pool w' = pool w) \/
  (r = Ok (fst (f (fst (st w)))) /\ pool w' = zscores rdsKey (snd (f (fst (st w))))).
Proof.
  unfold zs, pool. intros [_ [(e & _ & -> & ->)|(_ & -> & ->)]]%gext_inv; [left; by exists e|right].
  by destruct (f _).
Qed.

(** Every outcome of an acquire, failures included: nothing, a member lost by a
    failure between its two commands, or a member leased. *)
Lemma Acquire_cases conf (w w' : World (Zs * L)) r :
  Acquire rdsKey conf w = (r, w') ->
  (exists e, r = Err e /\ pool w' = pool w) \/
  exists m s0, pool w !! m = Some s0 /\
    ((exists e, r = Err e /\ pool w' = delete m (pool w)) \/
     r = Ok (m, score_then conf w) /\ s0 <= score_now w /\ pool w' = <[m := score_then conf w]> (pool w)).
Proof.
  unfold Acquire. rewrite gbind_eq. unfold gnow. rewrite gbind_eq.
  destruct (zs (ZPopMin rdsKey) _) as [r1 w1] eqn:E1. apply zs_inv in E1. cbn [st] in E1.
  destruct E1 as [(e & -> & Hp)|[-> Hp]]; [intros [= <- <-]; left; by exists e|].
  destruct (decide (zscores rdsKey (fst (st w)) = ∅)) as [Hz|Hz].
  { rewrite (ZPopMin_empty _ _ Hz) in Hp |- *. intros [= <- <-]. left. by eexists. }
  destruct (ZPopMin_some _ _ Hz) as (m & s & -> & Hin & _ & Hdel). rewrite Hdel in Hp. cbn [calls].
  destruct (Z.ltb_spec (f64 (env_clock (calls w))) s) as [Hlt|Hle]; rewrite gbind_eq;
    destruct (zs _ w1) as [r2 w2] eqn:E2; apply zs_inv in E2 as [(e & -> & Hp2)|[-> Hp2]]; intros [= <- <-];
    try (right; exists m, s; split; [done|]; left; exists e; by rewrite Hp2, Hp);
    cbn [snd] in Hp2; rewrite ZAdd_scores in Hp2; fold (pool w1) in Hp2; rewrite Hp in Hp2.
  - left. eexists. split; [done|]. rewrite Hp2. by apply insert_delete_id.
  - right. exists m, s. split; [done|]. right. split_and!; [done..|]. rewrite Hp2. apply insert_delete_eq.
Qed.

Lemma Acquire_held m s conf (w : World (Zs * L)) :
  score_now w < s -> held m s w -> held m s (snd (Acquire rdsKey conf w)).
Proof.
  intros Hnow Hh. destruct (Acquire rdsKey conf w) as [r w'] eqn:E. apply Acquire_cases in E. cbn [snd].
  destruct E as [(e & _ & E)|(m' & s0 & Hin & [(e & _ & E)|(_ & Hle & E)])]; intros s'; rewrite E; [apply Hh|..];
    destruct (decide (m' = m)) as [->|];
    rewrite ?lookup_delete_eq, ?lookup_delete_ne, ?lookup_insert_ne by done; try done; try apply Hh.
  apply Hh in Hin. subst s0. lia.
Qed.

(** The operations that leave a lease alone, whatever fails. *)
Section Keeps.
Variables (m : string) (s : Z).
Definition keeps {A} (c : M (Zs * L) A) : Prop := forall w, held m s w -> held m s (snd (c w)).

Lemma pool_keeps_ret {A} (a : A) : keeps (gret a).
Proof. by intros w Hw. Qed.
Lemma pool_keeps_bind {A B} (c : M (Zs * L) A) (k : A -> M (Zs * L) B) :
  keeps c -> (forall a, keeps (k a)) -> keeps (gbind c k).
Proof. intros Hc Hk w Hw. rewrite gbind_eq. specialize (Hc w Hw). destruct (c w) as [[a|e] w1]; [by apply Hk|done]. Qed.
Lemma pool_keeps_try {A} (c : M (Zs * L) A) : keeps c -> keeps (gtry c).
Proof. intros Hc w Hw. unfold gtry. specialize (Hc w Hw). by destruct (c w). Qed.
Lemma pool_keeps_wrap {A} p (c : M (Zs * L) A) : keeps c -> keeps (gwrap p c).
Proof. intros Hc w Hw. unfold gwrap. specialize (Hc w Hw). by destruct (c w) as [[]]. Qed.
Lemma keeps_lock {A} (c : M L A) : keeps (on_lock c).
Proof. intros w Hw. unfold on_lock. by destruct (c _). Qed.
Lemma keeps_zs {A} (f : Zs -> A * Zs) :
  (forall z, zscores rdsKey (snd (f z)) !! m = zscores rdsKey z !! m \/ zscores rdsKey (snd (f z)) !! m = None) ->
  keeps (zs f).
Proof.
  intros Hf w Hw s'. destruct (zs f w) as [r w'] eqn:E. apply zs_inv in E. cbn [snd].
  destruct E as [(e & _ & ->)|[_ ->]]; [apply Hw|]. destruct (Hf (fst (st w))) as [->| ->]; [apply Hw|done].
Qed.

Lemma Release_keeps rz : rz <> (m, s) -> keeps (Release rdsKey rz).
Proof.
  intros Hne w Hh. unfold Release. rewrite gbind_eq. destruct (zs _ w) as [r1 w1] eqn:E1. apply zs_inv in E1. cbn in E1.
  destruct E1 as [(e & -> & Hp)|[-> Hp]]; [intros s'; cbn [snd]; rewrite Hp; apply Hh|]. fold (pool w) in Hp.
  assert (Hh1 : held m s w1) by (intros s'; rewrite Hp; apply Hh).
  destruct (zscores rdsKey (fst (st w)) !! rz.1) as [sc|] eqn:Esc; [|done].
  destruct (Z.eqb_spec sc (snd rz)) as [->|]; [|done]. revert Hh1. apply keeps_zs. intros z. left.
  cbn [snd]. rewrite ZAdd_scores. apply lookup_insert_ne. intros <-. apply Hne.
  rewrite <- (Hh _ Esc). by destruct rz.
Qed.
Lemma Clear_keeps : keeps (Clear rdsKey).
Proof.
  apply pool_keeps_bind; [|intros; apply pool_keeps_ret]. apply pool_keeps_try, keeps_zs. intros z. cbn [snd].
  rewrite ZRem_scores, fold_delete_lookup. destruct (decide _); [by right|by left].
Qed.
Lemma RefreshConfig_keeps conf newConf :
  m ∉ generateMembers (Services newConf) ∖ generateMembers (Services conf) ->
  keeps (RefreshConfig rdsKey set_range conf newConf).
Proof.
  intros Hm. unfold RefreshConfig, refresh_body. rewrite <- set_range_In in Hm.
  set (toAdd := set_range (_ ∖ _)) in *. set (toRemove := set_range (_ ∖ _)).
  assert (Hadd : keeps (zs (fun z => (tt, ZAdd rdsKey (map (fun m => (m, 0)) toAdd) z)))).
  { apply keeps_zs. intros z. cbn [snd]. rewrite ZAdd_scores, fold_insert_lookup, decide_False by done. by left. }
  assert (Hrem : keeps (zs (fun z => (tt, ZRem rdsKey toRemove z)))).
  { apply keeps_zs. intros z. cbn [snd]. rewrite ZRem_scores, fold_delete_lookup.
    destruct (decide _); [by right|by left]. }
  apply pool_keeps_bind; [apply pool_keeps_try, keeps_lock|]. intros [|]; [|apply pool_keeps_ret].
  apply pool_keeps_bind; [|intros; apply pool_keeps_bind; [apply pool_keeps_try, keeps_lock|intros; apply pool_keeps_ret]].
  apply pool_keeps_try, pool_keeps_bind; [destruct toAdd; [apply pool_keeps_ret|by apply pool_keeps_wrap]|]. intros _.
  apply pool_keeps_bind; [destruct toRemove; [apply pool_keeps_ret|by apply pool_keeps_wrap]|]. intros _.
  apply pool_keeps_bind; [apply pool_keeps_try, keeps_lock|intros; apply pool_keeps_ret].
Qed.

Lemma run_pool_op_held o (w : World (Zs * L)) :
  leaves_lease m s o w -> held m s w -> held m s (run_pool_op o w).
Proof.
  destruct o as [conf|conf|rz|id| |conf newConf]; cbn [leaves_lease run_pool_op]; intros Ho Hh.
  - by apply Acquire_held.
  - pose proof (Acquire_held m s conf w Ho Hh) as Ha. unfold AcquireString. rewrite gbind_eq.
    destruct (Acquire rdsKey conf w) as [[a|e] w1]; [|done]. by destruct (split_first _).
  - by apply Release_keeps.
  - unfold ReleaseString. destruct (json_Z id) as [rz|e] eqn:E; [|done].
    apply Release_keeps; [congruence|done].
  - by apply Clear_keeps.
  - by apply RefreshConfig_keeps.
Qed.
Lemma during_held (w w' : World (Zs * L)) : during m s w w' -> held m s w -> held m s w'.
Proof. induction 1 as [w|o w w' Ho Hd IH]; [done|]. intros Hh. by apply IH, run_pool_op_held. Qed.
End Keeps.

(** C9: while a member is leased no acquire hands it out: whatever operations the
    users of the pool run one after another in between, with any failures, as
    long as none of them gives this very lease back or adds the member to the set
    anew (a refresh to a configuration that gains it, so also a second
    [NewRedisPool] on the key), no acquire before the end of the lease answers
    it.  Times are compared as the float64 scores; a command that fails has no
    effect. *)
Theorem leases_exclusive conf conf2 m s m2 s2 (w w1 w' w2 : World (Zs * L)) :
  Acquire rdsKey conf w = (Ok (m, s), w1) -> during m s w1 w' ->
  score_now w' < s -> Acquire rdsKey conf2 w' = (Ok (m2, s2), w2) -> m2 <> m.
Proof.
  intros H1' Hd Hnow H2' ->.
  assert (Hh : held m s w1).
  { apply Acquire_cases in H1' as [(? & [=] & _)|(m' & s0 & _ & [(? & [=] & _)|([= -> ->] & _ & Hp)])].
    intros s'. rewrite Hp, lookup_insert_eq. congruence. }
  apply (during_held _ _ _ _ Hd) in Hh.
  apply Acquire_cases in H2' as [(? & [=] & _)|(m' & s0 & Hs0 & [(? & [=] & _)|([= -> ->] & Hle & _)])].
  apply Hh in Hs0. lia.
Qed.
End RedisPoolFacts.

(** * The service pool manager *)
(** A [*ServicePool]: [None] is nil.  [sp_conf] is its own copy of the
    configuration, [pool_conf] the pool's. *)
Record ServicePool : Type := mkServicePool {
  settingGroup : string; settingKey : string;
  sp_conf : ServicePoolConfig; pool_conf : ServicePoolConfig;
}.
(** [None]: the map has not been made. *)
Definition PoolManager : Type := option (gmap string (option ServicePool)).

Definition svrPoolRdsKey (key : string) : string := ("svrpool:" ++ key)%string.
Definition nil_deref : string := "runtime error: invalid memory address or nil pointer dereference".

Section SvrPool.
Context `{Env} {Zs L : Type} `{RedisZSet Zs} `{RedisTTL L}.
Variable set_range : gset string -> list string.
Variable json_Z : string -> Res (string * Z).
(** [settings.GetYaml]. *)
Variable GetYaml : string -> string -> Res ServicePoolConfig.

Definition NewServicePool (group key : string) : G (Zs * L) (option ServicePool) :=
  match GetYaml group key with
  | Err _ => pret None
  | Ok conf =>
      let* pc := NewRedisPool (svrPoolRdsKey key) set_range conf in
      pret (Some (mkServicePool group key conf pc))
  end.

(** The refresh routine it starts is [refreshSetting], every five minutes. *)
Definition RegistryServicePool (group key : string) (pm : PoolManager) : G (Zs * L) PoolManager :=
  let svrs := default ∅ pm in
  match svrs !! key with
  | Some _ => pret (Some svrs)
  | None => let* sp := NewServicePool group key in pret (Some (<[key := sp]> svrs))
  end.

(** The closure given to [Retry] assigns the captured [id] and [svr]. *)
Definition captured {A} (m : G (Zs * L) A) : G ((Zs * L) * (string * string)) A :=
  fun w => let '(r, w') := m (mkWorld (calls w) (fst (st w))) in
           (r, mkWorld (calls w') (st w', snd (st w))).
Definition assign (v : string * string) : G ((Zs * L) * (string * string)) unit :=
  fun w => (Val tt, mkWorld (calls w) (fst (st w), v)).

Definition acquire_once (key : string) (pm : PoolManager) : G ((Zs * L) * (string * string)) (bool * option error) :=
  match pm with
  | None => pret (true, Some (ErrNew "svrpool not init"))
  | Some svrs =>
      match svrs !! key with
      | None => pret (true, Some (ErrNew ("svr " ++ key ++ " not registered")))
      | Some None => ppanic nil_deref
      | Some (Some sp) =>
          let* r := captured (plift (AcquireString (svrPoolRdsKey key) sp.(pool_conf))) in
          match r with
          | Ok v => let* _ := assign v in pret (false, None)
          | Err e => let* _ := assign (""%string, ""%string) in pret (true, Some e)
          end
      end
  end.

(** The answer: the id, the service and the error. *)
Definition AcquireService (key : string) (retryTimes : nat) (pm : PoolManager) :
    G (Zs * L) (string * string * option error) :=
  fun w =>
    match Retry retryTimes (acquire_once key pm) None (mkWorld (calls w) (st w, (""%string, ""%string))) with
    | (Val err, w') => (Val (snd (st w'), err), mkWorld (calls w') (fst (st w')))
    | (Panic v, w') => (Panic v, mkWorld (calls w') (fst (st w')))
    end.

Definition ReleaseService (key id : string) (pm : PoolManager) : G (Zs * L) unit :=
  match pm with
  | None => pret tt
  | Some svrs =>
      match svrs !! key with
      | None => pret tt
      | Some None => ppanic nil_deref
      | Some (Some _) => let* _ := plift (ReleaseString (svrPoolRdsKey key) json_Z id) in pret tt
      end
  end.

(** The new configuration becomes the service's own even when the pool refused
    it. *)
Definition refreshSetting (sp : option ServicePool) : G (Zs * L) (option ServicePool) :=
  match sp with
  | None => ppanic nil_deref
  | Some sp =>
      match GetYaml sp.(settingGroup) sp.(settingKey) with
      | Err _ => pret (Some sp)
      | Ok conf =>
          if decide (conf = sp.(sp_conf)) then pret (Some sp)
          else
            let* r := plift (RefreshConfig (svrPoolRdsKey sp.(settingKey)) set_range sp.(pool_conf) conf) in
            let pc := match r with Ok (c, _) => c | Err _ => sp.(pool_conf) end in
            pret (Some (mkServicePool sp.(settingGroup) sp.(settingKey) conf pc))
      end
  end.

(** [AcquireService] answers no error with the id and the name that the pool
    leased, or an error; but with no attempts allowed it answers an empty id, an
    empty service and no error; and a service whose settings could not be read
    when it was registered makes every acquire panic. *)
Theorem AcquireService_spec key n pm (w : World (Zs * L)) :
  fst (AcquireService key 0 pm w) = Val (""%string, ""%string, None) /\
  (forall svrs, pm = Some svrs -> svrs !! key = Some None ->
     fst (AcquireService key (S n) pm w) = Panic nil_deref) /\
  (forall svrs sp id name w', pm = Some svrs -> svrs !! key = Some (Some sp) ->
     AcquireString (svrPoolRdsKey key) (pool_conf sp) w = (Ok (id, name), w') ->
     AcquireService key (S n) pm w = (Val (id, name, None), w')) /\
  (forall svrs sp e w', pm = Some svrs -> svrs !! key = Some (Some sp) ->
     AcquireString (svrPoolRdsKey key) (pool_conf sp) w = (Err e, w') ->
     AcquireService key (S n) pm w
       = match n with O => (Val (""%string, ""%string, Some e), w') | S _ => AcquireService key n pm w' end).
Proof.
  assert (Hw : forall A (x : World A), mkWorld (calls x) (st x) = x) by (by intros A []).
  split_and!.
  - done.
  - intros svrs -> Hs. unfold AcquireService, acquire_once. simpl. rewrite Hs. done.
  - intros svrs sp id name w' -> Hs Ha. unfold AcquireService. simpl. rewrite Hs.
    unfold pbind, captured, plift, assign. simpl. rewrite Hw, Ha. simpl. by rewrite Hw.
  - intros svrs sp e w' -> Hs Ha. unfold AcquireService. simpl. rewrite Hs.
    unfold pbind, captured, plift, assign. simpl. rewrite Hw, Ha. simpl. destruct n as [|n]; simpl; [by rewrite Hw|].
    reflexivity.
Qed.
End SvrPool.

(** * Concrete runs *)
Definition MemPool : Type := gmap string (gmap string Z) * gmap string (string * Z).
Definition demo_conf : ServicePoolConfig := mkPoolConfig [mkService "gpu" 2] (60 * 1000000000) "1".
Definition next_conf : ServicePoolConfig := mkPoolConfig [mkService "gpu" 1; mkService "cpu" 1] (60 * 1000000000) "2".
Definition world_of {A} (r : A * World MemPool) : World MemPool := snd r.

(** A pool just built, and the worlds after one and two acquires. *)
Definition built : World MemPool :=
  world_of (NewRedisPool (H := quietEnv) "svrpool:ocr" elements demo_conf (mkWorld 0 (∅, ∅))).
Definition lease1 := Acquire (H := quietEnv) (Zs := gmap string (gmap string Z)) (L := gmap string (string * Z))
  "svrpool:ocr" demo_conf built.
Definition lease2 := Acquire (H := quietEnv) (Zs := gmap string (gmap string Z)) (L := gmap string (string * Z))
  "svrpool:ocr" demo_conf (snd lease1).

Definition ok_of {A} (d : A) (r : Res A * World MemPool) : A := match fst r with Ok a => a | Err _ => d end.
Lemma ok_of_eq {A} (d : A) r : Prelude.is_ok (fst r) = true -> r = (Ok (ok_of d r), snd r).
Proof. by destruct r as [[]]. Qed.
Lemma pair_eq {A B} (p : A * B) : p = (fst p, snd p).
Proof. by destruct p. Qed.

Lemma lease1_ok : Prelude.is_ok (fst lease1) = true.
Proof. vm_compute. reflexivity. Qed.
Lemma lease2_ok : Prelude.is_ok (fst lease2) = true.
Proof. vm_compute. reflexivity. Qed.

Definition dfl : string * Z := (""%string, 0).
Definition lease_of (r : Res (string * Z) * World MemPool) : string * Z := ok_of dfl r.

Lemma lease1_eq : lease1 = (Ok (fst (lease_of lease1), snd (lease_of lease1)), snd lease1).
Proof. rewrite <- pair_eq. exact (ok_of_eq dfl lease1 lease1_ok). Qed.
Lemma lease2_eq : lease2 = (Ok (fst (lease_of lease2), snd (lease_of lease2)), snd lease2).
Proof. rewrite <- pair_eq. exact (ok_of_eq dfl lease2 lease2_ok). Qed.

Lemma Acquire_spec_witness :
  snd (lease_of lease1) = score_then (H := quietEnv) demo_conf built /\
  fst (lease_of lease1) = "1_gpu"%string.
Proof.
  split; [|vm_compute; reflexivity].
  pose proof (Acquire_spec (H := quietEnv) "svrpool:ocr" demo_conf built (quietEnv_ok _)) as Ha.
  fold lease1 in Ha. rewrite lease1_eq in Ha. apply Ha.
Defined.

Lemma elements_In (s : gset string) m : m ∈ elements s <-> m ∈ s.
Proof. apply elem_of_elements. Qed.

Lemma built_free : ttl_get (env_clock (Env := quietEnv) (calls built)) (redisLock "svrpool:ocr") (snd (st built)) = None.
Proof. vm_compute. reflexivity. Qed.
Lemma built_dom : dom (pool "svrpool:ocr" built) = generateMembers (Services demo_conf).
Proof. vm_compute. reflexivity. Qed.

(** Between two acquires another user leases the other member, gives a stale
    lease back, and the pool is refreshed: the other member goes, another service
    comes. *)
Definition decode_none (s : string) : Res (string * Z) := Err (ErrNew s).
Definition others : list pool_op :=
  [PAcquire demo_conf; PRelease ("2_gpu"%string, 7); PReleaseString "1_gpu"; PRefresh demo_conf next_conf].
Definition after_others : World MemPool :=
  fold_left (fun w o => run_pool_op (H := quietEnv) "svrpool:ocr" elements decode_none o w) others (snd lease1).
Definition lease3 := Acquire (H := quietEnv) (Zs := gmap string (gmap string Z)) (L := gmap string (string * Z))
  "svrpool:ocr" next_conf after_others.
Lemma lease3_ok : Prelude.is_ok (fst lease3) = true.
Proof. vm_compute. reflexivity. Qed.
Lemma lease3_eq : lease3 = (Ok (fst (lease_of lease3), snd (lease_of lease3)), snd lease3).
Proof. rewrite <- pair_eq. exact (ok_of_eq dfl lease3 lease3_ok). Qed.

Lemma leases_exclusive_witness : fst (lease_of lease3) <> fst (lease_of lease1).
Proof.
  apply (leases_exclusive (H := quietEnv) "svrpool:ocr" elements elements_In decode_none demo_conf next_conf _
           (snd (lease_of lease1)) _ (snd (lease_of lease3)) built (snd lease1) after_others (snd lease3)).
  - exact lease1_eq.
  - apply (during_step _ _ _ _ _ (PAcquire demo_conf)); [vm_compute; reflexivity|].
    apply (during_step _ _ _ _ _ (PRelease ("2_gpu"%string, 7))); [vm_compute; discriminate|].
    apply (during_step _ _ _ _ _ (PReleaseString "1_gpu")); [discriminate|].
    apply (during_step _ _ _ _ _ (PRefresh demo_conf next_conf)); [|apply during_refl].
    assert (El : fst (lease_of lease1) = "1_gpu"%string) by (vm_compute; reflexivity).
    cbn [leaves_lease]. rewrite El. apply (bool_decide_unpack (_ ∉ _)). vm_compute. exact I.
  - vm_compute. reflexivity.
  - exact lease3_eq.
Defined.

Lemma RefreshConfig_members_witness :
  exists w', RefreshConfig (H := quietEnv) "svrpool:ocr" elements demo_conf next_conf built = (Ok (next_conf, None), w') /\
    dom (pool "svrpool:ocr" w') = generateMembers (Services next_conf).
Proof.
  destruct (RefreshConfig_members (H := quietEnv) "svrpool:ocr" elements elements_In demo_conf next_conf built
              (quietEnv_ok _) built_free built_dom) as (w' & Hr & Hd & _).
  exists w'. split; [exact Hr|exact Hd].
Defined.

(** A second pool on the same key, for another service. *)
Lemma NewRedisPool_keeps_old_witness :
  exists w', NewRedisPool (H := quietEnv) "svrpool:ocr" elements (mkPoolConfig [mkService "cpu" 1] 0 "") built
      = (Val (mkPoolConfig [mkService "cpu" 1] 0 ""), w') /\
    dom (pool "svrpool:ocr" w') = dom (pool "svrpool:ocr" built) ∪ {["1_cpu"%string]}.
Proof.
  destruct (NewRedisPool_keeps_old (H := quietEnv) "svrpool:ocr" elements elements_In
              (mkPoolConfig [mkService "cpu" 1] 0 "") built (quietEnv_ok _) built_free) as (w' & Hr & Hd & _).
  exists w'. split; [exact Hr|]. exact Hd.
Defined.

(** A decoder that takes objects only. *)
Definition object_json (s : string) : Res (string * Z) :=
  match s with String "{" _ => Ok (""%string, 0) | _ => Err (ErrNew "invalid character") end.
Lemma object_json_ok c s z : object_json (String c s) = Ok z ->
  c = "{"%char \/ c = "n"%char \/ In (nat_of_ascii c) [9; 10; 13; 32]%nat.
Proof. left. destruct c as [[] [] [] [] [] [] [] []]; done. Qed.

Definition lease_s := AcquireString (H := quietEnv) (Zs := gmap string (gmap string Z)) (L := gmap string (string * Z))
  "svrpool:ocr" demo_conf built.
Definition lease_name : string * string := ok_of (""%string, ""%string) lease_s.
Lemma lease_s_ok : Prelude.is_ok (fst lease_s) = true.
Proof. vm_compute. reflexivity. Qed.
Lemma lease_s_eq : lease_s = (Ok (fst lease_name, snd lease_name), snd lease_s).
Proof. rewrite <- pair_eq. exact (ok_of_eq (""%string, ""%string) lease_s lease_s_ok). Qed.

Lemma ReleaseString_never_frees_witness :
  snd lease_name = "gpu"%string /\
  exists e, ReleaseString (H := quietEnv) "svrpool:ocr" object_json (fst lease_name) (snd lease_s) = (Err e, snd lease_s).
Proof.
  split; [vm_compute; reflexivity|].
  apply (ReleaseString_never_frees (H := quietEnv) "svrpool:ocr" object_json object_json_ok demo_conf
           _ (snd lease_name) built (snd lease_s) (snd lease_s) (quietEnv_ok _)).
  - rewrite built_dom. intros m Hm. exact Hm.
  - exact lease_s_eq.
Defined.

(** A manager that serves "ocr" and could not load "asr". *)
Definition demo_manager : PoolManager :=
  Some (<["asr" := None]> {[ "ocr" := Some (mkServicePool "g" "ocr" demo_conf demo_conf) ]}).

Lemma AcquireService_spec_witness :
  AcquireService (H := quietEnv) "ocr" 3 demo_manager built
    = (Val (fst lease_name, snd lease_name, None), snd lease_s) /\
  fst (AcquireService (H := quietEnv) "asr" 3 demo_manager built) = Panic nil_deref.
Proof.
  split.
  - destruct (AcquireService_spec (H := quietEnv) "ocr" 2 demo_manager built) as (_ & _ & Ha & _).
    eapply Ha; [reflexivity|reflexivity|]. exact lease_s_eq.
  - destruct (AcquireService_spec (H := quietEnv) "asr" 2 demo_manager built) as (_ & Hp & _).
    eapply Hp; reflexivity.
Defined.
