(* ===== verification/Gorm.v ===== *)
(** gorm on a MySQL table, as the data-access objects of the program use it: a
    typed table with unique indexes, the statements built by chaining
    conditions, and the calls that run them on a state that holds the table.
    The behaviour of [Create], [Updates], [Clauses(OnConflict)] and the
    soft-delete scope is that of the vendored gorm.  Text is compared exactly:
    collations and the sizes of columns are left out. *)
From S2P Require Import Prelude.

(** * gorm on a table *)
Definition nz (v old : Z) : Z := if v =? 0 then old else v.
Definition nzs (v old : string) : string := if str_eqb v "" then old else v.
Definition nzo (v old : option Z) : option Z := match v with None => old | Some _ => v end.

(** What gorm and the schema say of a model. *)
Class GormModel (E : Type) : Type := {
  m_zero : E;
  m_id : E -> Z;
  m_deleted : E -> option Z;
  m_set_deleted : option Z -> E -> E;
  m_touch : Z -> E -> E;               (* updated_at = now *)
  m_create : Z -> Z -> E -> E;         (* the row Create stores: now, next id *)
  m_updates : Z -> E -> E -> E;        (* Updates(&e): non-zero fields and updated_at *)
  m_upsert : Z -> E -> E -> E;         (* ON DUPLICATE KEY UPDATE of the old row *)
  m_collide : E -> E -> bool;          (* same value of a unique index *)
}.

(** A table and its next [AUTO_INCREMENT] value. *)
Record GTab (E : Type) : Type := mkGTab { rows : list E; next_id : Z }.
Arguments mkGTab {E} rows next_id.
Arguments rows {E} g.
Arguments next_id {E} g.

Section Gorm.
Context {E : Type} `{GormModel E}.

Definition live (e : E) : bool := match m_deleted e with None => true | Some _ => false end.

(** No two rows share a value of a unique index. *)
Fixpoint distinct (l : list E) : bool :=
  match l with
  | [] => true
  | x :: l' => negb (existsb (m_collide x) l') && distinct l'
  end.

Definition duplicate : error := ErrVar "Error 1062: Duplicate entry".

(** [INSERT]: any collision refuses the whole statement. *)
Fixpoint insert_rows (now : Z) (es : list E) (t : GTab E) : Res (GTab E) :=
  match es with
  | [] => Ok t
  | e :: es' =>
      let row := m_create now t.(next_id) e in
      if existsb (m_collide row) t.(rows) then Err duplicate
      else insert_rows now es' (mkGTab (t.(rows) ++ [row])
             (Z.max t.(next_id) (m_id row + 1)))
  end.

(** The row a new row collides with: by primary key first. *)
Definition conflict_row (row : E) (l : list E) : option E :=
  match List.find (fun x => m_id x =? m_id row) l with
  | Some x => Some x
  | None => List.find (m_collide row) l
  end.

(** [INSERT ... ON DUPLICATE KEY UPDATE]. *)
Fixpoint upsert_rows (now : Z) (es : list E) (t : GTab E) : Res (GTab E) :=
  match es with
  | [] => Ok t
  | e :: es' =>
      let row := m_create now t.(next_id) e in
      match conflict_row row t.(rows) with
      | None => upsert_rows now es' (mkGTab (t.(rows) ++ [row]) (Z.max t.(next_id) (m_id row + 1)))
      | Some old =>
          let l := map (fun x => if m_id x =? m_id old then m_upsert now row x else x) t.(rows) in
          if distinct l then upsert_rows now es' (mkGTab l t.(next_id)) else Err duplicate
      end
  end.

(** A gorm statement on a model: its conditions, soft-delete scope and order. *)
Record Query : Type := mkQuery { conds : list (E -> bool); unscoped : bool; orders : list string }.
Definition newQuery : Query := mkQuery [] false [].
Definition where_ (p : E -> bool) (q : Query) : Query :=
  mkQuery (q.(conds) ++ [p]) q.(unscoped) q.(orders).
Definition when (b : bool) (f : Query -> Query) (q : Query) : Query := if b then f q else q.
Definition unscope (q : Query) : Query := mkQuery q.(conds) true q.(orders).
Definition order_ (o : list string) (q : Query) : Query := mkQuery q.(conds) q.(unscoped) o.

Definition hits (q : Query) (e : E) : bool :=
  forallb (fun p => p e) q.(conds) && (q.(unscoped) || live e).

(** [UPDATE ... WHERE]: gorm refuses a statement without a condition of its
    own, the database a result with two equal unique values. *)
Definition update_rows (q : Query) (f : E -> E) (t : GTab E) : Res (GTab E) :=
  match q.(conds) with
  | [] => Err (ErrVar "WHERE conditions required")
  | _ => let l := map (fun e => if hits q e then f e else e) t.(rows) in
         if distinct l then Ok (mkGTab l t.(next_id)) else Err duplicate
  end.
End Gorm.
Arguments Query E : clear implicits.

(** The order of the rows of a result, and whether [OFFSET] may come without
    [LIMIT] (MySQL refuses it). *)
Class RowOrder (E : Type) : Type := {
  any_order : list E -> list E;
  raw_order : list string -> list E -> list E;
  offset_alone : bool;
}.
Class RowOrderOk (E : Type) (R : RowOrder E) : Prop := {
  any_order_perm : forall l, Permutation (any_order l) l;
  raw_order_perm : forall o l, Permutation (raw_order o l) l;
}.

(** [LIKE] with the wildcards [%] and [_] and the escape character, under a
    binary collation. *)
Fixpoint like (p : string) : string -> bool :=
  match p with
  | EmptyString => fun s => str_eqb s ""
  | String c p' =>
      if Ascii.eqb c "%" then
        fix any (s : string) : bool :=
          like p' s || match s with EmptyString => false | String _ s' => any s' end
      else if Ascii.eqb c "_" then
        fun s => match s with EmptyString => false | String _ s' => like p' s' end
      else
        let literal (c : ascii) (k : string -> bool) (s : string) :=
          match s with EmptyString => false | String x s' => Ascii.eqb x c && k s' end in
        if Ascii.eqb c backslash
        then match p' with
             | String c' p'' => literal c' (like p'')
             | EmptyString => literal c (like p')
             end
        else literal c (like p')
  end.

(** * State with a table of rows of type [E] *)
Class HasTab (S E : Type) : Type := {
  get_tab : S -> GTab E;
  set_tab : GTab E -> S -> S;
}.

Section ById.
Context {E : Type} `{GormModel E}.
Definition by_id (id : Z) : Query E := where_ (fun e => m_id e =? id) newQuery.
Definition by_ids (ids : list Z) : Query E := where_ (fun e => existsb (Z.eqb (m_id e)) ids) newQuery.
End ById.

(** * gorm calls on a table *)
Section Calls.
Context `{Env} {S E : Type} `{GormModel E} `{HasTab S E} `{RowOrder E}.

Definition tab_write (f : GTab E -> Res (GTab E)) : M S unit :=
  gextr (fun s => match f (get_tab s) with
                  | Ok t => (Ok tt, set_tab t s)
                  | Err e => (Err e, s)
                  end).
Definition tab_read {A} (f : GTab E -> Res A) : M S A :=
  gextr (fun s => (f (get_tab s), s)).

(** [db.Create(es)]. *)
Definition gorm_create (es : list E) : M S unit :=
  let! now := gnow in tab_write (insert_rows now es).
(** [db.Clauses(OnConflict{UpdateAll: true}).Create(es)]. *)
Definition gorm_upsert (es : list E) : M S unit :=
  let! now := gnow in tab_write (upsert_rows now es).
(** [db.Updates(&e)]. *)
Definition gorm_updates (q : Query E) (e : E) : M S unit :=
  let! now := gnow in tab_write (update_rows q (m_updates now e)).
(** [db.Updates(map)]: gorm adds [updated_at] unless the map has it. *)
Definition gorm_update_map (q : Query E) (updateMap : E -> E) : M S unit :=
  let! now := gnow in tab_write (update_rows q (fun e => updateMap (m_touch now e))).

Definition query_rows (q : Query E) (l : list E) : list E :=
  let found := List.filter (hits q) l in
  match q.(orders) with [] => any_order found | o => raw_order o found end.
(** [db.Find(&entity)]: the first row, the zero value when there is none. *)
Definition gorm_find (q : Query E) : M S E :=
  tab_read (fun t => Ok (hd m_zero (query_rows q t.(rows)))).
(** [db.Find(&entityList)]. *)
Definition gorm_find_all (q : Query E) : M S (list E) :=
  tab_read (fun t => Ok (query_rows q t.(rows))).
(** [db.Count(&count)]. *)
Definition gorm_count (q : Query E) : M S Z :=
  tab_read (fun t => Ok (Z.of_nat (length (List.filter (hits q) t.(rows))))).
(** [db.Limit(limit).Offset(offset).Find(&entityList)], each when positive. *)
Definition gorm_page (limit offset : Z) (q : Query E) : M S (list E) :=
  tab_read (fun t =>
    let found := query_rows q t.(rows) in
    let found := if 0 <? offset then drop (Z.to_nat offset) found else found in
    if 0 <? limit then Ok (take (Z.to_nat limit) found)
    else if (0 <? offset) && negb offset_alone
         then Err (ErrVar "Error 1064: You have an error in your SQL syntax")
         else Ok found).
End Calls.

(** * Unique indexes *)
Class GormModelOk (E : Type) `{GormModel E} : Prop := {
  m_collide_sym : forall a b, m_collide a b = m_collide b a;
}.
Section Distinct.
Context {E : Type} `{GormModelOk E}.

Lemma distinct_snoc l (x : E) : distinct (l ++ [x]) = negb (existsb (m_collide x) l) && distinct l.
Proof.
  induction l as [|y l IH]; simpl; [done|]. rewrite IH, existsb_app. simpl.
  rewrite (m_collide_sym x y). destruct (m_collide y x), (existsb (m_collide y) l), (existsb (m_collide x) l); done.
Qed.

Lemma insert_rows_distinct now es (t t' : GTab E) :
  insert_rows now es t = Ok t' -> distinct t.(rows) = true -> distinct t'.(rows) = true.
Proof.
  revert t; induction es as [|e es IH]; intros t; simpl; [congruence|].
  destruct (existsb _ _) eqn:Ec; [done|]. intros Hi Hd. apply IH in Hi; [done|].
  simpl. by rewrite distinct_snoc, Ec, Hd.
Qed.

Lemma conflict_row_none (row : E) l : conflict_row row l = None -> existsb (m_collide row) l = false.
Proof.
  unfold conflict_row. destruct (List.find (fun x => m_id x =? m_id row) l); [done|].
  induction l as [|x l IH]; simpl; [done|]. by destruct (m_collide row x).
Qed.

Lemma upsert_rows_distinct now es (t t' : GTab E) :
  upsert_rows now es t = Ok t' -> distinct t.(rows) = true -> distinct t'.(rows) = true.
Proof.
  revert t; induction es as [|e es IH]; intros t; simpl; [congruence|].
  destruct (conflict_row _ _) as [old|] eqn:Ec.
  - destruct (distinct (map _ _)) eqn:Hm; [|done]. intros Hi _. by apply IH in Hi.
  - intros Hi Hd. apply IH in Hi; [done|]. simpl.
    by rewrite distinct_snoc, (conflict_row_none _ _ Ec), Hd.
Qed.

Lemma update_rows_distinct q f (t t' : GTab E) :
  update_rows q f t = Ok t' -> distinct t'.(rows) = true.
Proof.
  unfold update_rows. destruct (conds q); [done|]. destruct (distinct _) eqn:Hd; [|done]. by intros [= <-].
Qed.

(** A change that leaves the indexed columns alone makes no duplicate. *)
Lemma distinct_map (f : E -> E) l :
  (forall x y, m_collide (f x) (f y) = m_collide x y) -> distinct (map f l) = distinct l.
Proof.
  intros Hf. induction l as [|x l IH]; simpl; [done|]. rewrite IH. do 2 f_equal.
  clear IH. induction l as [|y l IH]; simpl; [done|]. by rewrite Hf, IH.
Qed.
End Distinct.

(** * What calls keep *)
Section Keeps.
Context `{Env} {S : Type}.

(** A property of the tables that a call keeps, whatever fails. *)
Definition Keeps {A} (P : S -> Prop) (m : M S A) : Prop :=
  forall w, P (st w) -> P (after m w).

Lemma Keeps_bind {A B} P (m : M S A) (k : A -> M S B) :
  Keeps P m -> (forall a, Keeps P (k a)) -> Keeps P (gbind m k).
Proof.
  intros Hm Hk w Hw. specialize (Hm w Hw). unfold after, gbind in *.
  destruct (m w) as [[a|e] w']; simpl in *; [by apply Hk|done].
Qed.
Lemma Keeps_fmt {A} P p (m : M S A) : Keeps P m -> Keeps P (gfmt p m).
Proof. intros Hm w Hw. specialize (Hm w Hw). unfold after, gfmt in *. by destruct (m w) as [[a|e] w']. Qed.
Lemma Keeps_now P : Keeps P gnow.
Proof. by intros w Hw. Qed.
Lemma Keeps_ret {A} P (a : A) : Keeps P (gret a).
Proof. by intros w Hw. Qed.
Lemma Keeps_write {E} `{HasTab S E} P (f : GTab E -> Res (GTab E)) :
  (forall s t, f (get_tab s) = Ok t -> P s -> P (set_tab t s)) -> Keeps P (tab_write f).
Proof.
  intros Hf w Hw. unfold after, tab_write, gextr. destruct (env_fault (calls w)); [done|].
  destruct (f (get_tab (st w))) eqn:Ef; simpl; [by apply Hf|done].
Qed.
End Keeps.

(** Reduce a write of a data-access object to its table update. *)
Ltac keeps :=
  repeat match goal with
  | |- Keeps _ (gfmt _ _) => apply Keeps_fmt
  | |- Keeps _ (gret _) => apply Keeps_ret
  | |- Keeps _ (tab_write _) => apply Keeps_write
  | |- Keeps _ (gbind _ _) => apply Keeps_bind; [apply Keeps_now | intros ?]
  end.

(** * Finding one row *)
Section Find.
Context {E : Type} `{GormModelOk E} `{HR : RowOrderOk E}.

Lemma distinct_In l (a b : E) :
  distinct l = true -> In a l -> In b l -> m_collide a b = true -> a = b.
Proof.
  induction l as [|x l IH]; simpl; [done|]. intros [Hx Hd]%andb_true_iff Ha Hb Hab.
  apply negb_true_iff in Hx.
  assert (Hno : forall y, In y l -> m_collide x y = true -> False).
  { intros y Hy Hxy. rewrite <- not_true_iff_false, existsb_exists in Hx. apply Hx. by exists y. }
  destruct Ha as [->|Ha], Hb as [->|Hb]; auto; exfalso; [by apply (Hno b)|].
  apply (Hno a); [done|]. by rewrite m_collide_sym.
Qed.

Lemma query_rows_In q l (x : E) : In x (query_rows q l) <-> In x l /\ hits q x = true.
Proof.
  unfold query_rows. rewrite <- filter_In. destruct (orders q);
    rewrite <- !list_elem_of_In; by rewrite ?any_order_perm, ?raw_order_perm.
Qed.

(** The first row of a result is the only row that can be in it. *)
Lemma find_only q l (x : E) :
  In x l -> hits q x = true -> (forall y, In y l -> hits q y = true -> y = x) ->
  hd m_zero (query_rows q l) = x.
Proof.
  intros Hx Hh Hu. destruct (query_rows q l) as [|y r] eqn:Er.
  - assert (In x (query_rows q l)) by (by apply query_rows_In). by rewrite Er in *.
  - assert (In y (query_rows q l)) as [Hy Hhy]%query_rows_In by (rewrite Er; by left). by apply Hu.
Qed.

Lemma find_none_zero q l :
  (forall y, In y l -> hits q y = false) -> hd m_zero (query_rows q l) = m_zero :> E.
Proof.
  intros Hn. destruct (query_rows q l) as [|y r] eqn:Er; [done|].
  assert (In y (query_rows q l)) as [Hy Hhy]%query_rows_In by (rewrite Er; by left).
  rewrite Hn in Hhy; done.
Qed.

(** Either the found row is in the table and meets the query, or none does. *)
Lemma find_cases q l :
  (In (hd m_zero (query_rows q l)) l /\ hits q (hd m_zero (query_rows q l)) = true) \/
  (hd m_zero (query_rows q l) = m_zero /\ forall y, In y l -> hits q y = false).
Proof.
  destruct (query_rows q l) as [|y r] eqn:Er.
  - right. split; [done|]. intros y Hy. destruct (hits q y) eqn:Eh; [|done].
    assert (In y (query_rows q l)) by (by apply query_rows_In). by rewrite Er in *.
  - left. apply query_rows_In. rewrite Er. by left.
Qed.
End Find.

Lemma hits_where {E} `{GormModel E} (p : E -> bool) e :
  hits (where_ p newQuery) e = p e && live e.
Proof. unfold hits. simpl. by rewrite andb_true_r. Qed.

Lemma gorm_find_ok `{Env} {T E} `{GormModel E} `{HasTab T E} `{RowOrder E} p (q : Query E) (w : World T) :
  env_fault (calls w) = None ->
  gfmt p (gorm_find q) w
  = (Ok (hd m_zero (query_rows q (get_tab (st w)).(rows))), mkWorld (S (calls w)) (st w)).
Proof. intros Hf. unfold gfmt, gorm_find, tab_read. by rewrite gextr_ok. Qed.

(** * Rows in their stored order *)
#[export] Instance plainOrder {E} : RowOrder E :=
  {| any_order l := l; raw_order _ l := l; offset_alone := false |}.
#[export] Instance plainOrderOk {E} : RowOrderOk E plainOrder.
Proof. by constructor. Qed.
