(* ===== verification/PromptTemplate.v ===== *)
(** [src/prompt/model/entity.go] (variable keys), [errors.go] and [render.go]:
    extraction of the variables a template reads, validation of the values
    against the declared keys, and rendering.

    The syntax of [text/template] and its execution engine are the parameters
    of [TextTemplate]; the parse tree, the check of function names at parse
    time, the walk over the tree and the whole validation are modelled.  Float
    values are IEEE doubles ([SpecFloat], precision 53). *)
From Stdlib Require Import SpecFloat.
From S2P Require Import Prelude.

(** * Errors *)
Definition ErrPromptDisabled : error := ErrVar "prompt is disabled".
Definition ErrEmptyContent : error := ErrVar "prompt content is empty".
Definition ErrEmptyVariableKeys : error := ErrVar "variable_keys is empty".
Definition ErrPromptNotFound : error := ErrVar "prompt not found".
Definition ErrVersionNotFound : error := ErrVar "prompt version not found".
Definition ErrUndeclaredVariable : error :=
  ErrVar "variable referenced in template but not declared in variable_keys".
Definition ErrInvalidVarKeyType : error := ErrVar "invalid variable key type".
Definition ErrMissingRequiredVar : error := ErrVar "missing required variable in prompt_value".
Definition ErrEnumValueMismatch : error := ErrVar "value not in enum_values list".
Definition ErrIntRangeExceeded : error := ErrVar "int value out of min/max range".
Definition ErrFloatRangeExceeded : error := ErrVar "float value out of min/max range".
Definition ErrStringLengthExceeded : error := ErrVar "string value exceeds max_length".
Definition ErrListTooManyItems : error := ErrVar "list exceeds max_items".
Definition ErrInvalidValueType : error := ErrVar "variable value type does not match declared type".
Definition ErrTemplateParseFailed : error := ErrVar "failed to parse template content".
Definition ErrTemplateRenderFailed : error := ErrVar "failed to render template".

(** * Values and variable keys *)
(** A Go [any] as the validation distinguishes them. *)
Inductive Value : Type :=
| VNil
| VString (s : string)
| VInt (n : Z)
| VInt64 (n : Z)
| VFloat64 (f : spec_float)
| VBool (b : bool)
| VSlice (items : list Value)
| VOther (typ : string).

Definition EnumType : Type := string.
Definition VarKeyTypeString : EnumType := "string".
Definition VarKeyTypeInt : EnumType := "int".
Definition VarKeyTypeEnum : EnumType := "enum".
Definition VarKeyTypeBool : EnumType := "bool".
Definition VarKeyTypeFloat : EnumType := "float".
Definition VarKeyTypeList : EnumType := "list".

Record VarKey : Type := mkVarKey {
  Name : string;
  Type_ : EnumType;
  Desc : string;
  Required : bool;
  EnumValues : list string;
  Default : Value;
  MaxLength : Z;
  Min : option Z;
  Max : option Z;
  MaxItems : Z;
}.

Definition isValidEnumType (t : EnumType) : bool :=
  existsb (str_eqb t) [VarKeyTypeString; VarKeyTypeInt; VarKeyTypeEnum;
                       VarKeyTypeBool; VarKeyTypeFloat; VarKeyTypeList].

(** * Doubles *)
(** [float64(n)], rounded to nearest even. *)
Definition float64_of_int (n : Z) : spec_float := binary_normalize 53 1024 n 0 false.
(** Truncation towards zero. *)
Definition trunc_float (f : spec_float) : option Z :=
  match f with
  | S754_zero _ => Some 0
  | S754_finite s m e =>
      let a := if 0 <=? e then Zpos m * 2 ^ e else Zpos m / 2 ^ (- e) in
      Some (if s then - a else a)
  | _ => None
  end.

(** * Parse trees of [text/template/parse] *)
Inductive BranchKind : Type := NodeIf | NodeRange | NodeWith.
Inductive Node : Type :=
| TextNode (text : string)
| ListNode (nodes : list Node)
| ActionNode (pipe : Node)
| PipeNode (decl : list string) (cmds : list Node)
| CommandNode (args : list Node)
| FieldNode (ident : list string)
| VariableNode (ident : list string)
| ChainNode (node : Node) (field : list string)
| IdentifierNode (ident : string)
| LiteralNode (text : string)  (* dot, nil, bool, number and string nodes *)
| BranchNode (kind : BranchKind) (pipe lst : Node) (elseList : option Node)
| TemplateNode (name : string) (pipe : option Node)
| ControlNode (text : string). (* break, continue and comment nodes *)

(** A parsed template: its own tree, and the trees of its [define] and [block]
    actions by name. *)
Record Template : Type := mkTemplate { Root : Node; blocks : list (string * Node) }.

(** What a template function is, as far as [DefaultFuncMap] has them; [None]
    is a panic. *)
Inductive TemplateFunc : Type :=
| FuncString (f : string -> string)
| FuncTrunc (f : string -> Z -> option string)
| FuncJoin (f : list string -> string).
Definition FuncMap : Type := list (string * TemplateFunc).

(** What the standard library and the run-time decide: the template syntax and
    engine, the case mapping, the printing of a float, the order in which a map
    is ranged over, and the conversion of a float that no [int] holds. *)
Class TextTemplate : Type := {
  parse_syntax : string -> Res Template;
  template_Execute : FuncMap -> Template -> gmap string Value -> Res string;
  ToUpper : string -> string;
  ToLower : string -> string;
  fmt_float : spec_float -> string;
  range_names : gset string -> list string;
  float_overflow : spec_float -> Z;
}.
Class TextTemplateOk (T : TextTemplate) : Prop := {
  range_names_perm : forall s, Permutation (range_names s) (elements s);
}.

Section Functions.
Context `{TextTemplate}.

Definition str_take (n : nat) (s : string) : string := String.substring 0 n s.

Definition truncFunc (s : string) (maxLen : Z) : option string :=
  if Z.of_nat (String.length s) <=? maxLen then Some s
  else if maxLen <? 3
       then if maxLen <? 0 then None else Some (str_take (Z.to_nat maxLen) s)
       else Some (str_take (Z.to_nat (maxLen - 3)) s ++ "...")%string.

Definition joinCommaFunc (items : list string) : string := String.concat ", " items.

Definition DefaultFuncMap : FuncMap :=
  [("Upper", FuncString ToUpper); ("Lower", FuncString ToLower);
   ("Trunct", FuncTrunc truncFunc); ("JoinComma", FuncJoin joinCommaFunc)]%string.
End Functions.

(** The functions every template knows (text/template, Go 1.23). *)
Definition builtin_funcs : list string :=
  ["and"; "call"; "html"; "index"; "slice"; "js"; "len"; "not"; "or"; "print"; "printf";
   "println"; "urlquery"; "eq"; "ge"; "gt"; "le"; "lt"; "ne"]%string.

(** The function names in a tree, in source order. *)
Fixpoint funcs_of (n : Node) : list string :=
  match n with
  | ListNode ns => flat_map funcs_of ns
  | ActionNode p => funcs_of p
  | PipeNode _ cs => flat_map funcs_of cs
  | CommandNode args => flat_map funcs_of args
  | ChainNode n' _ => funcs_of n'
  | IdentifierNode f => [f]
  | BranchNode _ p l e => funcs_of p ++ funcs_of l ++ from_option funcs_of [] e
  | TemplateNode _ p => from_option funcs_of [] p
  | _ => []
  end.

Definition all_funcs (t : Template) : list string :=
  funcs_of (Root t) ++ flat_map (fun b => funcs_of (snd b)) (blocks t).

Definition knows (funcs : FuncMap) (f : string) : bool :=
  existsb (str_eqb f) builtin_funcs || existsb (str_eqb f) (map fst funcs).

(** [template.New(name).Funcs(funcs).Parse(content)]: the parser refuses a
    function it does not know, in any of its trees.  The position in the text is left out. *)
Definition template_Parse `{TextTemplate} (funcs : FuncMap) (content : string) : Res Template :=
  match parse_syntax content with
  | Err e => Err e
  | Ok tree =>
      match List.find (fun f => negb (knows funcs f)) (all_funcs tree) with
      | Some f => Err (ErrNew ("function " ++ f ++ " not defined"))
      | None => Ok tree
      end
  end.

(** [seen[ident] = true] for each identifier; a leading [$] alone is skipped. *)
Definition see_vars (ident : list string) (seen : gset string) : gset string :=
  match ident with
  | [] => seen
  | x :: xs =>
      let seen := if str_eqb x "$" then seen else {[ x ]} ∪ seen in
      fold_left (fun s y => {[ y ]} ∪ s) xs seen
  end.

Fixpoint walkAST (node : Node) (seen : gset string) : gset string :=
  match node with
  | ListNode nodes => fold_left (fun s kid => walkAST kid s) nodes seen
  | ActionNode pipe => walkAST pipe seen
  | PipeNode _ cmds => fold_left (fun s cmd => walkAST cmd s) cmds seen
  | CommandNode args => fold_left (fun s arg => walkAST arg s) args seen
  | FieldNode ident => fold_left (fun s x => {[ x ]} ∪ s) ident seen
  | VariableNode ident => see_vars ident seen
  | BranchNode _ pipe lst els =>
      let seen := walkAST pipe seen in
      let seen := walkAST lst seen in
      match els with Some l => walkAST l seen | None => seen end
  | _ => seen
  end.

Section Render.
Context `{TextTemplate}.

Definition ExtractVariableNames (content : string) : Res (list string) :=
  match template_Parse [] content with
  | Err err => Err (ErrWith ErrTemplateParseFailed (": " ++ Error err))
  | Ok t => Ok (range_names (walkAST (Root t) ∅))
  end.

(** [%v] of a string slice. *)
Definition fmt_strings (l : list string) : string := ("[" ++ String.concat " " l ++ "]")%string.

Definition ParseVariableKeys (content : string) (declaredKeys : list VarKey) : Res (list VarKey) :=
  if str_eqb content "" then Err ErrEmptyContent else
  match ExtractVariableNames content with
  | Err err => Err err
  | Ok astNames =>
      let declared name := existsb (fun key => str_eqb key.(Name) name) declaredKeys in
      let undeclared := List.filter (fun name => negb (declared name)) astNames in
      if (0 <? length undeclared)%nat
      then Err (ErrWith ErrUndeclaredVariable (": " ++ fmt_strings undeclared))
      else match List.find (fun key => negb (isValidEnumType key.(Type_))) declaredKeys with
           | Some key => Err (ErrWith ErrInvalidVarKeyType
                                (": name=" ++ key.(Name) ++ ", type=" ++ key.(Type_)))
           | None => Ok declaredKeys
           end
  end.

(** [int(v)] of a float64. *)
Definition int_of_float (f : spec_float) : Z :=
  match trunc_float f with
  | Some z => if in_i64 z then z else float_overflow f
  | None => float_overflow f
  end.

(** The bounds of an int value. *)
Definition check_int (key : VarKey) (intVal : Z) : Res Value :=
  if from_option (fun m => intVal <? m) false key.(Min)
  then Err (ErrWith ErrIntRangeExceeded (": " ++ key.(Name) ++ " val=" ++ fmt_d intVal
              ++ ", min=" ++ fmt_d (default 0 key.(Min))))
  else if from_option (fun m => m <? intVal) false key.(Max)
  then Err (ErrWith ErrIntRangeExceeded (": " ++ key.(Name) ++ " val=" ++ fmt_d intVal
              ++ ", max=" ++ fmt_d (default 0 key.(Max))))
  else Ok (VInt intVal).

(** The switch of [ValidatePromptValue] on one present value. *)
Definition check_value (key : VarKey) (val : Value) : Res Value :=
  let mismatch (what : string) :=
    Err (ErrWith ErrInvalidValueType (": " ++ key.(Name) ++ " expected " ++ what)) in
  if str_eqb key.(Type_) VarKeyTypeString then
    match val with
    | VString s =>
        let len := Z.of_nat (String.length s) in
        if (0 <? key.(MaxLength)) && (key.(MaxLength) <? len)
        then Err (ErrWith ErrStringLengthExceeded (": " ++ key.(Name) ++ " len=" ++ fmt_d len
                    ++ ", max_length=" ++ fmt_d key.(MaxLength)))
        else Ok (VString s)
    | _ => mismatch "string"
    end
  else if str_eqb key.(Type_) VarKeyTypeInt then
    match val with
    | VInt v | VInt64 v => check_int key v
    | VFloat64 v => check_int key (int_of_float v)
    | _ => mismatch "int"
    end
  else if str_eqb key.(Type_) VarKeyTypeEnum then
    match val with
    | VString s =>
        if existsb (str_eqb s) key.(EnumValues) then Ok (VString s)
        else Err (ErrWith ErrEnumValueMismatch (": " ++ key.(Name) ++ " val=" ++ s
                    ++ ", enum_values=" ++ fmt_strings key.(EnumValues)))
    | _ => mismatch "string for enum"
    end
  else if str_eqb key.(Type_) VarKeyTypeBool then
    match val with VBool b => Ok (VBool b) | _ => mismatch "bool" end
  else if str_eqb key.(Type_) VarKeyTypeFloat then
    match val with
    | VFloat64 v =>
        if from_option (fun m => SFltb v (float64_of_int m)) false key.(Min)
        then Err (ErrWith ErrFloatRangeExceeded (": " ++ key.(Name) ++ " val=" ++ fmt_float v
                    ++ ", min=" ++ fmt_d (default 0 key.(Min))))
        else if from_option (fun m => SFltb (float64_of_int m) v) false key.(Max)
        then Err (ErrWith ErrFloatRangeExceeded (": " ++ key.(Name) ++ " val=" ++ fmt_float v
                    ++ ", max=" ++ fmt_d (default 0 key.(Max))))
        else Ok (VFloat64 v)
    | _ => mismatch "float"
    end
  else if str_eqb key.(Type_) VarKeyTypeList then
    match val with
    | VSlice items =>
        let len := Z.of_nat (length items) in
        if (0 <? key.(MaxItems)) && (key.(MaxItems) <? len)
        then Err (ErrWith ErrListTooManyItems (": " ++ key.(Name) ++ " len=" ++ fmt_d len
                    ++ ", max_items=" ++ fmt_d key.(MaxItems)))
        else Ok (VSlice items)
    | _ => mismatch "list"
    end
  else Err (ErrWith ErrInvalidVarKeyType (": " ++ key.(Name) ++ " type=" ++ key.(Type_))).

(** The body of the loop of [ValidatePromptValue]: what is stored for the key,
    if anything. *)
Definition validate_key (key : VarKey) (given : option Value) : Res (option Value) :=
  match default VNil given with
  | VNil =>
      if key.(Required)
      then Err (ErrWith ErrMissingRequiredVar (": " ++ key.(Name)))
      else Ok (match key.(Default) with VNil => None | d => Some d end)
  | val =>
      match check_value key val with
      | Err err => Err err
      | Ok v => Ok (Some v)
      end
  end.

Fixpoint validate_keys (keys : list VarKey) (values result : gmap string Value)
    : Res (gmap string Value) :=
  match keys with
  | [] => Ok result
  | key :: keys' =>
      match validate_key key (values !! key.(Name)) with
      | Err err => Err err
      | Ok None => validate_keys keys' values result
      | Ok (Some v) => validate_keys keys' values (<[key.(Name) := v]> result)
      end
  end.

Definition ValidatePromptValue (keys : list VarKey) (values : gmap string Value)
    : Res (gmap string Value) := validate_keys keys values ∅.

Definition ValidateAndRender (content : string) (variableKeys : list VarKey)
    (promptValue : gmap string Value) : Res string :=
  if str_eqb content "" then Err ErrEmptyContent else
  match ParseVariableKeys content variableKeys with
  | Err err => Err err
  | Ok _ =>
      match ValidatePromptValue variableKeys promptValue with
      | Err err => Err err
      | Ok validatedValues =>
          match template_Parse DefaultFuncMap content with
          | Err err => Err (ErrWith ErrTemplateParseFailed (": " ++ Error err))
          | Ok t =>
              match template_Execute DefaultFuncMap t validatedValues with
              | Err err => Err (ErrWith ErrTemplateRenderFailed (": " ++ Error err))
              | Ok out => Ok out
              end
          end
      end
  end.
End Render.

(** * Which names a tree reads *)
(** What the walk finds: every identifier of a field or variable chain that is
    an argument of a command, in any list, action or branch; a bare [$] is the
    data itself. *)
Inductive Reads : Node -> string -> Prop :=
| Reads_list ns k x : In k ns -> Reads k x -> Reads (ListNode ns) x
| Reads_action p x : Reads p x -> Reads (ActionNode p) x
| Reads_pipe d cs c x : In c cs -> Reads c x -> Reads (PipeNode d cs) x
| Reads_command args a x : In a args -> Reads a x -> Reads (CommandNode args) x
| Reads_field ident x : In x ident -> Reads (FieldNode ident) x
| Reads_var_head x ident : x <> "$"%string -> Reads (VariableNode (x :: ident)) x
| Reads_var_tail y ident x : In x ident -> Reads (VariableNode (y :: ident)) x
| Reads_cond k p l e x : Reads p x -> Reads (BranchNode k p l e) x
| Reads_body k p l e x : Reads l x -> Reads (BranchNode k p l e) x
| Reads_else k p l e x : Reads e x -> Reads (BranchNode k p l (Some e)) x.

(** The names a tree refers to: those, and the ones in chains such as
    [(f .X).Y] and in the argument of a [template] action, which the walk does not
    enter. *)
Inductive Refers : Node -> string -> Prop :=
| Refers_list ns k x : In k ns -> Refers k x -> Refers (ListNode ns) x
| Refers_action p x : Refers p x -> Refers (ActionNode p) x
| Refers_pipe d cs c x : In c cs -> Refers c x -> Refers (PipeNode d cs) x
| Refers_command args a x : In a args -> Refers a x -> Refers (CommandNode args) x
| Refers_field ident x : In x ident -> Refers (FieldNode ident) x
| Refers_var_head x ident : x <> "$"%string -> Refers (VariableNode (x :: ident)) x
| Refers_var_tail y ident x : In x ident -> Refers (VariableNode (y :: ident)) x
| Refers_chain n f x : Refers n x -> Refers (ChainNode n f) x
| Refers_chain_field n f x : In x f -> Refers (ChainNode n f) x
| Refers_cond k p l e x : Refers p x -> Refers (BranchNode k p l e) x
| Refers_body k p l e x : Refers l x -> Refers (BranchNode k p l e) x
| Refers_else k p l e x : Refers e x -> Refers (BranchNode k p l (Some e)) x
| Refers_template n p x : Refers p x -> Refers (TemplateNode n (Some p)) x.

(** What the walk does not see, [(.Doc).Author] and a [template] action with the argument [.Author]. *)
Example missed : let chain := ChainNode (FieldNode ["Doc"%string]) ["Author"%string] in
  let call := TemplateNode "t" (Some (PipeNode [] [CommandNode [FieldNode ["Author"%string]]])) in
  (walkAST chain ∅, walkAST call ∅) = (∅, ∅) /\ Refers chain "Author" /\ Refers call "Author".
Proof.
  split; [reflexivity|]. split; [apply Refers_chain_field; by left|].
  apply Refers_template. eapply Refers_pipe; [by left|]. eapply Refers_command; [by left|]. apply Refers_field. by left.
Qed.

(** A tree of text, actions and branches over the prompt's variables and the
    built-in functions: no function of the package, no chain, no [template] or
    [block] action and no variable of the template's own. *)
Fixpoint plain (n : Node) : bool :=
  match n with
  | ListNode ns => forallb plain ns
  | ActionNode p => plain p
  | PipeNode _ cs => forallb plain cs
  | CommandNode args => forallb plain args
  | VariableNode ident => str_eqb (hd "" ident) "$"
  | IdentifierNode f => existsb (str_eqb f) builtin_funcs
  | BranchNode _ p l e => plain p && plain l && from_option plain true e
  | ChainNode _ _ | TemplateNode _ _ => false
  | _ => true
  end.

Section NodeInd.
Variable P : Node -> Prop.
Hypotheses (Htext : forall t, P (TextNode t)) (Hlist : forall ns, Forall P ns -> P (ListNode ns))
  (Haction : forall p, P p -> P (ActionNode p))
  (Hpipe : forall d cs, Forall P cs -> P (PipeNode d cs))
  (Hcommand : forall args, Forall P args -> P (CommandNode args))
  (Hfield : forall i, P (FieldNode i)) (Hvar : forall i, P (VariableNode i))
  (Hchain : forall n f, P n -> P (ChainNode n f)) (Hident : forall i, P (IdentifierNode i))
  (Hlit : forall t, P (LiteralNode t))
  (Hbranch : forall k p l e, P p -> P l -> from_option P True e -> P (BranchNode k p l e))
  (Htmpl : forall n p, P (TemplateNode n p)) (Hctl : forall t, P (ControlNode t)).

Fixpoint Node_nested_ind (n : Node) : P n :=
  let all := fix all (ns : list Node) : Forall P ns :=
    match ns with
    | [] => Forall_nil_2 P
    | k :: ks => Forall_cons_2 P k ks (Node_nested_ind k) (all ks)
    end in
  match n with
  | TextNode t => Htext t
  | ListNode ns => Hlist ns (all ns)
  | ActionNode p => Haction p (Node_nested_ind p)
  | PipeNode d cs => Hpipe d cs (all cs)
  | CommandNode args => Hcommand args (all args)
  | FieldNode i => Hfield i
  | VariableNode i => Hvar i
  | ChainNode n' f => Hchain n' f (Node_nested_ind n')
  | IdentifierNode i => Hident i
  | LiteralNode t => Hlit t
  | BranchNode k p l e =>
      Hbranch k p l e (Node_nested_ind p) (Node_nested_ind l)
        (match e return from_option P True e with Some n' => Node_nested_ind n' | None => I end)
  | TemplateNode n' p => Htmpl n' p
  | ControlNode t => Hctl t
  end.
End NodeInd.

Lemma fold_see (l : list string) (seen : gset string) x :
  x ∈ fold_left (fun s y => {[ y ]} ∪ s) l seen <-> x ∈ seen \/ In x l.
Proof.
  revert seen; induction l as [|y l IH]; intros seen; simpl; [naive_solver|].
  rewrite IH. set_solver.
Qed.

Lemma fold_walk (ns : list Node) (seen : gset string) x :
  Forall (fun n => forall seen : gset string, x ∈ walkAST n seen <-> x ∈ seen \/ Reads n x) ns ->
  x ∈ fold_left (fun s k => walkAST k s) ns seen <-> x ∈ seen \/ exists k, In k ns /\ Reads k x.
Proof.
  intros Hns. revert seen; induction Hns as [|n ns Hn _ IH]; intros seen; simpl; [naive_solver|].
  rewrite IH, Hn. naive_solver.
Qed.

(** Cases of what a given node reads. *)
Ltac reads_inv :=
  match goal with H : Reads ?n _ |- _ => is_var n; fail 1 | H : Reads _ _ |- _ => inversion H; subst; clear H end.

(** The walk adds exactly the names the tree reads. *)
Lemma walkAST_spec node seen x : x ∈ walkAST node seen <-> x ∈ seen \/ Reads node x.
Proof.
  revert seen. induction node using Node_nested_ind; intros seen; cbn [walkAST];
    try (rewrite fold_walk by done); try rewrite fold_see;
    try (split; [by left | intros [Hs|Hr]; [done | reads_inv]]);
    try (apply Morphisms_Prop.or_iff_morphism; [done|]; split;
         [first [intros (k & Hk & Hr) | intros Hr]; by econstructor | intros Hr; reads_inv; eauto]).
  - (* action *)
    rewrite IHnode. split; (intros [Hs|Hr]; [by left|]); [right; by constructor|reads_inv; by right].
  - (* variable *)
    destruct i as [|y ys]; simpl; [split; [by left|intros [Hs|Hr]; [done|reads_inv]]|].
    unfold str_eqb. rewrite fold_see. destruct (String.eqb_spec y "$") as [->|Hy].
    + split; [intros [Hs|Hi]; [by left|right; by apply Reads_var_tail]|].
      intros [Hs|Hr]; [by left|]. reads_inv; [done|by right].
    + rewrite elem_of_union, elem_of_singleton. split.
      * intros [[->|Hs]|Hi]; [right; by constructor|by left|right; by apply Reads_var_tail].
      * intros [Hs|Hr]; [left; by right|]. reads_inv; [left; by left|by right].
  - (* branch *)
    destruct e as [e|]; simpl in *; rewrite ?H, ?IHnode2, ?IHnode1.
    + split; [naive_solver eauto using Reads|]. intros [Hs|Hr]; [auto|]. reads_inv; auto.
    + split; [naive_solver eauto using Reads|]. intros [Hs|Hr]; [auto|]. reads_inv; auto.
Qed.

(** On a plain tree the walk misses nothing, and all functions are built in. *)
Lemma Reads_Refers n x : Reads n x -> Refers n x.
Proof. induction 1; eauto using Refers. Qed.
Lemma plain_Reads n x : plain n = true -> Refers n x -> Reads n x.
Proof.
  intros Hp Hr. induction Hr; simpl in Hp; try discriminate;
    rewrite ?andb_true_iff, ?forallb_forall in Hp; eauto using Reads.
  - apply Reads_cond. apply IHHr, Hp.
  - apply Reads_body. apply IHHr, Hp.
  - apply Reads_else. apply IHHr, Hp.
Qed.
Lemma plain_funcs_list ns f :
  Forall (fun n => plain n = true -> In f (funcs_of n) -> In f builtin_funcs) ns ->
  forallb plain ns = true -> In f (flat_map funcs_of ns) -> In f builtin_funcs.
Proof.
  rewrite List.Forall_forall, forallb_forall. intros IH Hp (k & Hk & Hf)%in_flat_map. eauto.
Qed.
Lemma plain_funcs n f : plain n = true -> In f (funcs_of n) -> In f builtin_funcs.
Proof.
  induction n using Node_nested_ind; cbn [plain funcs_of]; intros Hp Hf; try discriminate; try by destruct Hf.
  - exact (plain_funcs_list ns f H Hp Hf).
  - auto.
  - exact (plain_funcs_list cs f H Hp Hf).
  - exact (plain_funcs_list args f H Hp Hf).
  - destruct Hf as [<-|[]]. unfold str_eqb in Hp. apply existsb_exists in Hp as (y & Hy & ->%String.eqb_eq). done.
  - apply andb_true_iff in Hp as [[Hp1 Hp2]%andb_true_iff Hp3].
    rewrite !in_app_iff in Hf. destruct Hf as [Hf|[Hf|Hf]]; [auto..|]. destruct e as [e|]; simpl in *; [auto|done].
Qed.

(** * What validation promises *)
Definition within (lo hi : option Z) (n : Z) : Prop :=
  from_option (fun m => m <= n) True lo /\ from_option (fun m => n <= m) True hi.
(** The comparisons of doubles are those of IEEE: a NaN is within any bounds. *)
Definition float_within (lo hi : option Z) (f : spec_float) : Prop :=
  from_option (fun m => SFltb f (float64_of_int m) = false) True lo /\
  from_option (fun m => SFltb (float64_of_int m) f = false) True hi.
(** A limit that is zero or negative does not limit. *)
Definition at_most (limit n : Z) : Prop := 0 < limit -> n <= limit.

Section Spec.
Context `{TextTemplate}.

Definition int_value (v : Value) : option Z :=
  match v with
  | VInt n | VInt64 n => Some n
  | VFloat64 f => Some (int_of_float f)
  | _ => None
  end.

(** [Accepts key v v']: the value [v] conforms to the key and is passed to the
    template as [v']. *)
Inductive Accepts (key : VarKey) : Value -> Value -> Prop :=
| Acc_string s : key.(Type_) = VarKeyTypeString ->
    at_most key.(MaxLength) (Z.of_nat (String.length s)) -> Accepts key (VString s) (VString s)
| Acc_int v n : key.(Type_) = VarKeyTypeInt -> int_value v = Some n ->
    within key.(Min) key.(Max) n -> Accepts key v (VInt n)
| Acc_enum s : key.(Type_) = VarKeyTypeEnum -> In s key.(EnumValues) ->
    Accepts key (VString s) (VString s)
| Acc_bool b : key.(Type_) = VarKeyTypeBool -> Accepts key (VBool b) (VBool b)
| Acc_float f : key.(Type_) = VarKeyTypeFloat -> float_within key.(Min) key.(Max) f ->
    Accepts key (VFloat64 f) (VFloat64 f)
| Acc_list l : key.(Type_) = VarKeyTypeList ->
    at_most key.(MaxItems) (Z.of_nat (length l)) -> Accepts key (VSlice l) (VSlice l).

(** What a key makes of the value given for its name, [None] when the template
    gets none; the default is passed on unchecked. *)
Inductive Resolves (key : VarKey) : option Value -> option Value -> Prop :=
| Res_given v v' : v <> VNil -> Accepts key v v' -> Resolves key (Some v) (Some v')
| Res_default o : default VNil o = VNil -> key.(Required) = false -> key.(Default) <> VNil ->
    Resolves key o (Some key.(Default))
| Res_absent o : default VNil o = VNil -> key.(Required) = false -> key.(Default) = VNil ->
    Resolves key o None.

(** Every key resolves, and the template sees the keys only. *)
Definition Validated (keys : list VarKey) (values m : gmap string Value) : Prop :=
  (forall key, In key keys -> Resolves key (values !! key.(Name)) (m !! key.(Name))) /\
  (forall x, ~ In x (map Name keys) -> m !! x = None).

Lemma existsb_str (x : string) l : existsb (str_eqb x) l = true <-> In x l.
Proof.
  rewrite existsb_exists. unfold str_eqb. split.
  - intros (y & Hy & ->%String.eqb_eq). done.
  - intros Hx. exists x. by rewrite String.eqb_refl.
Qed.

Lemma limit_spec limit n : ((0 <? limit) && (limit <? n)) = false <-> at_most limit n.
Proof. unfold at_most. lia. Qed.

Ltac check_type :=
  match goal with |- context [str_eqb ?t VarKeyTypeString] =>
    unfold str_eqb;
    destruct (String.eqb_spec t VarKeyTypeString) as [E|?];
    [|destruct (String.eqb_spec t VarKeyTypeInt) as [E|?];
      [|destruct (String.eqb_spec t VarKeyTypeEnum) as [E|?];
        [|destruct (String.eqb_spec t VarKeyTypeBool) as [E|?];
          [|destruct (String.eqb_spec t VarKeyTypeFloat) as [E|?];
            [|destruct (String.eqb_spec t VarKeyTypeList) as [E|?]]]]]]
  end.

Lemma range_test (lo hi : option Z) n :
  from_option (fun m => n <? m) false lo = false /\ from_option (fun m => m <? n) false hi = false
  <-> within lo hi n.
Proof. unfold within. destruct lo, hi; simpl; lia. Qed.

Lemma check_int_ok key n v' : check_int key n = Ok v' -> v' = VInt n /\ within (Min key) (Max key) n.
Proof.
  unfold check_int. destruct (from_option _ _ (Min key)) eqn:A; [done|].
  destruct (from_option _ _ (Max key)) eqn:B; [done|]. intros [= <-]. split; [done|]. by apply range_test.
Qed.

Lemma check_value_ok key v v' : check_value key v = Ok v' -> Accepts key v v'.
Proof.
  unfold check_value. check_type; [..|done].
  - destruct v; try done. destruct (_ && _) eqn:L; [done|]. intros [= <-].
    apply Acc_string, limit_spec; done.
  - destruct v; try done; intros [-> Hw]%check_int_ok; by apply Acc_int.
  - destruct v; try done. destruct (existsb _ _) eqn:L; [|done]. intros [= <-].
    apply Acc_enum; [done|]. by apply existsb_str.
  - destruct v; try done. intros [= <-]. by apply Acc_bool.
  - destruct v; try done. destruct (from_option _ _ (Min key)) eqn:A; [done|].
    destruct (from_option _ _ (Max key)) eqn:B; [done|]. intros [= <-]. apply Acc_float; [done|].
    unfold float_within. destruct (Min key), (Max key); done.
  - destruct v; try done. destruct (_ && _) eqn:L; [done|]. intros [= <-].
    apply Acc_list, limit_spec; done.
Qed.

Lemma Accepts_check key v v' : Accepts key v v' -> check_value key v = Ok v'.
Proof.
  unfold check_value. intros Ha. destruct Ha as [s Ht Hl|v n Ht Hv Hw|s Ht Hi|b Ht|f Ht Hw|l Ht Hl];
    rewrite Ht; cbn [str_eqb].
  - apply limit_spec in Hl. cbv [str_eqb]. simpl. by rewrite Hl.
  - apply range_test in Hw as [A B]. cbv [str_eqb]. simpl.
    destruct v; simplify_eq/=; unfold check_int; by rewrite A, B.
  - apply existsb_str in Hi. cbv [str_eqb] in *. simpl. by rewrite Hi.
  - done.
  - cbv [str_eqb]. simpl. unfold float_within in Hw. destruct (Min key), (Max key); simpl in *;
      destruct Hw as [A B]; by rewrite ?A, ?B.
  - apply limit_spec in Hl. cbv [str_eqb]. simpl. by rewrite Hl.
Qed.

Lemma validate_key_spec key o z : validate_key key o = Ok z <-> Resolves key o z.
Proof.
  assert (Hin : forall v, v <> VNil -> validate_key key (Some v) =
            match check_value key v with Err e => Err e | Ok w => Ok (Some w) end) by (intros []; done).
  split.
  - assert (default VNil o = VNil \/ default VNil o <> VNil) as [Hd|Hd] by (destruct (default VNil o); auto).
    + unfold validate_key. rewrite Hd. destruct (Required key) eqn:Er; [done|].
      
      intros [= <-]. destruct (Default key) eqn:Ed; [by apply Res_absent|..];
        (rewrite <- Ed; apply Res_default; [done|done|by rewrite Ed]).
    + destruct o as [v|]; [|done]. rewrite Hin by done.
      destruct (check_value key v) as [w|] eqn:Ec; [|done]. intros [= <-].
      apply Res_given; [done|]. by apply check_value_ok.
  - destruct 1 as [v v' Hn Ha|o Hd Hr Hn|o Hd Hr Hn].
    + rewrite Hin by done. by rewrite (Accepts_check _ _ _ Ha).
    + unfold validate_key. rewrite Hd, Hr. by destruct (Default key).
    + unfold validate_key. by rewrite Hd, Hr, Hn.
Qed.

(** One key of the loop, whatever its outcome [o]. *)
Lemma validated_step key keys (values r r' m : gmap string Value) o :
  (forall z, Resolves key (values !! key.(Name)) z <-> z = o) ->
  r' !! key.(Name) = o -> (forall x, x <> key.(Name) -> r' !! x = r !! x) ->
  ~ In key.(Name) (map Name keys) ->
  ((forall k, In k keys -> Resolves k (values !! k.(Name)) (m !! k.(Name))) /\
   (forall x, ~ In x (map Name keys) -> m !! x = r' !! x)) <->
  ((forall k, In k (key :: keys) -> Resolves k (values !! k.(Name)) (m !! k.(Name))) /\
   (forall x, ~ In x (map Name (key :: keys)) -> m !! x = r !! x)).
Proof.
  intros Hres Hr Hother Hni. split; intros [Hk Hx]; split.
  - intros k [<-|Hin]; [|by apply Hk]. apply Hres. by rewrite Hx.
  - intros x Hnx. simpl in Hnx. rewrite Hx by naive_solver. apply Hother. naive_solver.
  - intros k Hin. apply Hk. by right.
  - intros x Hnx. destruct (decide (x = key.(Name))) as [->|Hne].
    + rewrite Hr. apply Hres, Hk. by left.
    + rewrite Hother by done. apply Hx. simpl. naive_solver.
Qed.

Lemma validate_keys_spec keys (values r m : gmap string Value) :
  NoDup (map Name keys) -> (forall k, In k keys -> r !! k.(Name) = None) ->
  validate_keys keys values r = Ok m <->
  ((forall k, In k keys -> Resolves k (values !! k.(Name)) (m !! k.(Name))) /\
   (forall x, ~ In x (map Name keys) -> m !! x = r !! x)).
Proof.
  revert r; induction keys as [|key keys IH]; intros r Hnd Hr.
  { simpl. split; [intros [= <-]; done|]. intros [_ Hx]. f_equal. apply map_eq. intros x. symmetry. apply Hx; intros []. }
  apply NoDup_cons in Hnd as [Hni Hnd]. rewrite list_elem_of_In in Hni.
  assert (Hins : forall v k, In k keys -> <[key.(Name) := v]> r !! k.(Name) = None).
  { intros v k Hk. rewrite lookup_insert_ne; [apply Hr; by right|]. intros He. apply Hni. rewrite He. by apply in_map. }
  assert (Hrest : forall k, In k keys -> r !! k.(Name) = None) by (intros k Hk; apply Hr; by right).
  simpl. destruct (validate_key key (values !! key.(Name))) as [[v|]|e] eqn:Ek.
  - rewrite IH by auto. apply (validated_step key keys values r _ m (Some v)).
    + intros z. rewrite <- validate_key_spec, Ek. naive_solver.
    + by rewrite lookup_insert_eq.
    + intros x Hx. by rewrite lookup_insert_ne.
    + done.
  - rewrite IH by auto. apply (validated_step key keys values r r m None); [|by apply Hr; left|done..].
    intros z. rewrite <- validate_key_spec, Ek. naive_solver.
  - split; [done|]. intros [Hk _]. specialize (Hk key (or_introl eq_refl)).
    apply validate_key_spec in Hk. congruence.
Qed.

Lemma validate_iff keys (values m : gmap string Value) :
  NoDup (map Name keys) -> ValidatePromptValue keys values = Ok m <-> Validated keys values m.
Proof.
  intros Hnd. unfold ValidatePromptValue, Validated. rewrite validate_keys_spec by done.
  split; (intros [Hk Hx]; split; [done|]; intros x Hn; rewrite Hx by done; done).
Qed.

(** A key resolves in one way only. *)
Lemma Validated_fun keys (values m m' : gmap string Value) :
  Validated keys values m -> Validated keys values m' -> m = m'.
Proof.
  intros [Hk Hx] [Hk' Hx']. apply map_eq. intros x.
  destruct (in_dec string_dec x (map Name keys)) as [Hin|Hn]; [|by rewrite Hx, Hx'].
  apply in_map_iff in Hin as (k & <- & Hin). specialize (Hk k Hin). specialize (Hk' k Hin).
  apply validate_key_spec in Hk, Hk'. congruence.
Qed.

(** Validation accepts exactly the values that resolve every key within
    its declared type and limits, and passes on those and the defaults. *)
Theorem ValidatePromptValue_spec keys (values m : gmap string Value) :
  NoDup (map Name keys) ->
  ValidatePromptValue keys values = Ok m <-> Validated keys values m.
Proof. exact (validate_iff keys values m). Qed.

(** * Rendering *)
(** The template parses with the built-in functions alone, and every name it
    reads is declared. *)
Definition WellDeclared (t : Template) (keys : list VarKey) : Prop :=
  (forall f, In f (all_funcs t) -> In f builtin_funcs) /\
  (forall x, Reads (Root t) x -> In x (map Name keys)) /\
  (forall key, In key keys -> isValidEnumType key.(Type_) = true).

Lemma template_Parse_ok funcs content tree :
  template_Parse funcs content = Ok tree <->
  parse_syntax content = Ok tree /\ forall f, In f (all_funcs tree) -> knows funcs f = true.
Proof.
  unfold template_Parse. destruct (parse_syntax content) as [t|e]; [|naive_solver].
  destruct (List.find _ (all_funcs t)) as [f|] eqn:Ef.
  - apply find_some in Ef as [Hin Hk]. split; [done|]. intros [[= ->] Hall].
    rewrite (Hall f Hin) in Hk. done.
  - split; [|by intros [[= ->] _]]. intros [= ->]. split; [done|]. intros f Hin.
    apply negb_false_iff. exact (find_none _ _ Ef f Hin).
Qed.

Lemma knows_nil f : knows [] f = true <-> In f builtin_funcs.
Proof. unfold knows. rewrite orb_false_r. apply existsb_str. Qed.

Context `{!TextTemplateOk H}.

Lemma range_names_In (s : gset string) x : In x (range_names s) <-> x ∈ s.
Proof.
  rewrite <- list_elem_of_In, (range_names_perm s). apply elem_of_elements.
Qed.

Lemma declared_spec keys x :
  existsb (fun key => str_eqb key.(Name) x) keys = true <-> In x (map Name keys).
Proof.
  rewrite existsb_exists, in_map_iff. unfold str_eqb. split.
  - intros (k & Hk & E%String.eqb_eq). eauto.
  - intros (k & <- & Hk). exists k. by rewrite String.eqb_refl.
Qed.

Lemma filter_nil {A} (f : A -> bool) l :
  (0 <? length (List.filter f l))%nat = false <-> forall x, In x l -> f x = false.
Proof.
  induction l as [|y l IH]; simpl; [naive_solver|]. destruct (f y) eqn:E; simpl.
  - split; [done|]. intros Hall. rewrite Hall in E by auto. done.
  - rewrite IH. naive_solver.
Qed.

Lemma ParseVariableKeys_ok content keys ks :
  ParseVariableKeys content keys = Ok ks <->
  ks = keys /\ content <> ""%string /\
  exists tree, parse_syntax content = Ok tree /\ WellDeclared tree keys.
Proof.
  unfold ParseVariableKeys, ExtractVariableNames, str_eqb.
  destruct (String.eqb_spec content "") as [->|Hc]; [naive_solver|].
  destruct (template_Parse [] content) as [tree|e] eqn:Hp.
  - apply template_Parse_ok in Hp as [Hp Hf]. unfold WellDeclared.
    destruct (0 <? _)%nat eqn:Hu.
    + split; [done|]. intros (_ & _ & t & Ht & _ & Hr & _). rewrite Hp in Ht. injection Ht as <-.
      enough ((0 <? length (List.filter (fun name => negb (existsb (fun key => str_eqb (Name key) name) keys))
        (range_names (walkAST (Root tree) ∅))))%nat = false) by (unfold str_eqb in *; congruence).
      apply filter_nil. intros x Hx. apply negb_false_iff, declared_spec, Hr.
      apply range_names_In, walkAST_spec in Hx as [Hx|Hx]; [by apply elem_of_empty in Hx|done].
    + rewrite filter_nil in Hu.
      destruct (List.find _ keys) as [k|] eqn:Ek.
      * apply find_some in Ek as [Hin Hk]. split; [done|]. intros (_ & _ & t & _ & _ & _ & Hv).
        by rewrite Hv in Hk.
      * split; [|naive_solver]. intros [= <-]. split; [done|]. split; [done|]. exists tree.
        split; [done|]. split; [intros f Hin; by apply knows_nil, Hf|]. split.
        -- intros x Hr. apply declared_spec, negb_false_iff, Hu, range_names_In, walkAST_spec. by right.
        -- intros k Hin. apply negb_false_iff. exact (find_none _ _ Ek k Hin).
  - split; [done|]. intros (_ & _ & t & Ht & Hb & _).
    assert (template_Parse [] content = Ok t); [|congruence].
    apply template_Parse_ok. split; [done|]. intros f Hin. by apply knows_nil, Hb.
Qed.

Lemma helper_not_builtin f : In f (map fst DefaultFuncMap) -> ~ In f builtin_funcs.
Proof. simpl. intros Hf Hb. intuition (subst; discriminate). Qed.

(** No template that calls one of the functions the package provides can be
    rendered: the variables are extracted with the built-in functions only, so
    the call is refused as a parse failure. *)
Theorem helpers_refused content keys (values : gmap string Value) tree f :
  content <> ""%string -> parse_syntax content = Ok tree ->
  In f (all_funcs tree) -> In f (map fst DefaultFuncMap) ->
  exists e, ValidateAndRender content keys values = Err e /\
    errors_Is e ErrTemplateParseFailed = true.
Proof.
  intros Hc Ht Hf Hh. unfold ValidateAndRender, ParseVariableKeys, ExtractVariableNames, str_eqb.
  destruct (String.eqb_spec content "") as [|_]; [done|].
  destruct (template_Parse [] content) as [t|e] eqn:Hp; [|by eexists].
  apply template_Parse_ok in Hp as [Hp Hk]. assert (t = tree) as -> by congruence.
  apply Hk, knows_nil, helper_not_builtin in Hf; done.
Qed.

(** Rendering any template, in terms of what the walk finds. *)
Lemma ValidateAndRender_ok content keys (values : gmap string Value) out :
  NoDup (map Name keys) ->
  ValidateAndRender content keys values = Ok out <->
  content <> ""%string /\
  exists tree m, parse_syntax content = Ok tree /\ WellDeclared tree keys /\
    Validated keys values m /\ template_Execute DefaultFuncMap tree m = Ok out.
Proof.
  intros Hnd. unfold ValidateAndRender, str_eqb.
  destruct (String.eqb_spec content "") as [->|Hc]; [naive_solver|].
  destruct (ParseVariableKeys content keys) as [ks|e] eqn:Hp.
  - apply ParseVariableKeys_ok in Hp as (-> & _ & tree & Ht & Hw).
    assert (Hp : template_Parse DefaultFuncMap content = Ok tree).
    { apply template_Parse_ok. split; [done|]. intros f Hf. unfold knows. apply orb_true_iff. left.
      by apply existsb_str, Hw. }
    rewrite Hp. destruct (ValidatePromptValue keys values) as [m|e] eqn:Hv.
    + apply validate_iff in Hv; [|done]. destruct (template_Execute DefaultFuncMap tree m) as [o|e] eqn:Hx.
      * split; [naive_solver|]. intros (_ & t & m' & Ht' & _ & Hv' & Hx').
        assert (t = tree) as -> by congruence. rewrite (Validated_fun keys values m' m) in Hx' by done. congruence.
      * split; [done|]. intros (_ & t & m' & Ht' & _ & Hv' & Hx').
        assert (t = tree) as -> by congruence. rewrite (Validated_fun keys values m' m) in Hx' by done. congruence.
    + split; [done|]. intros (_ & t & m' & _ & _ & Hv' & _). apply validate_iff in Hv'; [|done]. congruence.
  - split; [done|]. intros (_ & t & m & Ht & Hw & _).
    assert (ParseVariableKeys content keys = Ok keys); [|congruence]. apply ParseVariableKeys_ok. naive_solver.
Qed.

(** A template that reads a name no key declares. *)
Lemma undeclared_refused content keys (values : gmap string Value) t x :
  content <> ""%string -> parse_syntax content = Ok t ->
  (forall f, In f (all_funcs t) -> In f builtin_funcs) ->
  Reads (Root t) x -> ~ In x (map Name keys) ->
  exists e, ValidateAndRender content keys values = Err e /\ errors_Is e ErrUndeclaredVariable = true.
Proof.
  intros Hc Ht Hf Hx Hn. unfold ValidateAndRender, ParseVariableKeys, ExtractVariableNames, str_eqb.
  destruct (String.eqb_spec content "") as [|_]; [done|].
  assert (Hp : template_Parse [] content = Ok t).
  { apply template_Parse_ok. split; [done|]. intros f Hin. by apply knows_nil, Hf. }
  rewrite Hp. destruct (0 <? _)%nat eqn:Hu; [by eexists|].
  rewrite filter_nil in Hu. exfalso. apply Hn, declared_spec. unfold str_eqb in Hu |- *. apply negb_false_iff.
  apply (Hu x). apply range_names_In, walkAST_spec. by right.
Qed.

(** C18: A template of text, actions and branches over the prompt's variables and the
    built-in functions ([plain], with no [define] blocks), for keys of different
    names: a reference to a name that no key declares is refused as undeclared;
    otherwise rendering succeeds exactly when every key has a known type and the
    values are valid, and the result is the template executed on the validated
    values. *)
Theorem ValidateAndRender_spec content keys (values : gmap string Value) tree :
  NoDup (map Name keys) -> content <> ""%string ->
  parse_syntax content = Ok (mkTemplate tree []) -> plain tree = true ->
  (forall x, Refers tree x -> ~ In x (map Name keys) ->
     exists e, ValidateAndRender content keys values = Err e /\ errors_Is e ErrUndeclaredVariable = true) /\
  ((forall x, Refers tree x -> In x (map Name keys)) -> forall out,
     ValidateAndRender content keys values = Ok out <->
     (forall key, In key keys -> isValidEnumType key.(Type_) = true) /\
     exists m, Validated keys values m /\
       template_Execute DefaultFuncMap (mkTemplate tree []) m = Ok out).
Proof.
  intros Hnd Hc Ht Hpl.
  assert (Hf : forall f, In f (all_funcs (mkTemplate tree [])) -> In f builtin_funcs).
  { intros f. unfold all_funcs. simpl. rewrite app_nil_r. by apply plain_funcs. }
  split.
  - intros x Hx Hn. eapply undeclared_refused; try done. by apply plain_Reads.
  - intros Hdecl out. rewrite ValidateAndRender_ok by done. split.
    + intros (_ & t & m & Ht' & (_ & _ & Hty) & Hv & Hx). rewrite Ht in Ht'. injection Ht' as <-. eauto.
    + intros (Hty & m & Hv & Hx). split; [done|]. exists (mkTemplate tree []), m. split_and!; [done| |done|done].
      split_and!; [done| |done]. intros x Hr. by apply Hdecl, Reads_Refers.
Qed.
End Spec.

(** * A small template language *)
(** Text, [{{.A.B}}] and [{{F .A}}] actions: enough to run the definitions. *)
Fixpoint cut_at (a : ascii) (s : string) : string * option string :=
  match s with
  | EmptyString => (EmptyString, None)
  | String x s1 =>
      match s1 with
      | String y s2 =>
          if Ascii.eqb x a && Ascii.eqb y a then (EmptyString, Some s2)
          else let '(p, r) := cut_at a s1 in (String x p, r)
      | EmptyString => (s, None)
      end
  end.

Definition small_word (w : string) : Node :=
  match w with
  | String "." r => FieldNode (split_on "." r)
  | String "$" _ => VariableNode (split_on "." w)
  | _ => IdentifierNode w
  end.

Fixpoint small_parse (fuel : nat) (s : string) : Res (list Node) :=
  match fuel with
  | O => Err (ErrNew "out of fuel")
  | S fuel' =>
      match cut_at "{" s with
      | (t, None) => Ok [TextNode t]
      | (t, Some r) =>
          match cut_at "}" r with
          | (_, None) => Err (ErrNew "unclosed action")
          | (a, Some r') =>
              match small_parse fuel' r' with
              | Err e => Err e
              | Ok ns => Ok (TextNode t :: ActionNode (PipeNode []
                           [CommandNode (map small_word (split_on " " a))]) :: ns)
              end
          end
      end
  end.

Definition small_print (v : option Value) : string :=
  match v with
  | Some (VString s) => s
  | Some (VInt n) => fmt_d n
  | Some (VBool b) => if b then "true" else "false"
  | _ => "<no value>"
  end.

Definition small_exec (data : gmap string Value) (n : Node) : string :=
  match n with
  | TextNode t => t
  | ActionNode (PipeNode _ [CommandNode [FieldNode [x]]]) => small_print (data !! x)
  | _ => ""
  end.

Definition smallTemplates : TextTemplate := {|
  parse_syntax s := match small_parse (S (String.length s)) s with
                    | Ok ns => Ok (mkTemplate (ListNode ns) []) | Err e => Err e end;
  template_Execute _ t data :=
    match Root t with
    | ListNode ns => Ok (String.concat "" (map (small_exec data) ns))
    | _ => Err (ErrNew "not a list")
    end;
  ToUpper s := s;
  ToLower s := s;
  fmt_float _ := "";
  range_names s := elements s;
  float_overflow _ := - two63;
|}.

Lemma smallTemplatesOk : TextTemplateOk smallTemplates.
Proof. constructor. intros s. reflexivity. Qed.

(** A prompt for two variables, one of them optional with a default. *)
Definition demo_content : string := "Grade {{.Grade}} on {{.Topic}}".
Definition demo_keys : list VarKey :=
  [mkVarKey "Grade" "int" "" true [] VNil 0 (Some 1) (Some 12) 0;
   mkVarKey "Topic" "enum" "" false ["sets"; "maps"] (VString "sets") 0 None None 0]%string.
Definition demo_values : gmap string Value := {["Grade"%string := VInt64 7]}.
Definition demo_tree : Node :=
  ListNode [TextNode "Grade "; ActionNode (PipeNode [] [CommandNode [FieldNode ["Grade"]]]);
            TextNode " on "; ActionNode (PipeNode [] [CommandNode [FieldNode ["Topic"]]]);
            TextNode ""]%string.

Example demo_rendered :
  @ValidateAndRender smallTemplates demo_content demo_keys demo_values = Ok "Grade 7 on sets"%string.
Proof. vm_compute. reflexivity. Qed.
Example demo_out_of_range :
  @ValidateAndRender smallTemplates demo_content demo_keys {["Grade"%string := VInt 13]}
  = Err (ErrWith ErrIntRangeExceeded ": Grade val=13, max=12").
Proof. vm_compute. reflexivity. Qed.
Example float_compares :
  SFltb (float64_of_int 3) (float64_of_int 4) = true /\ @int_of_float smallTemplates (float64_of_int (-7)) = -7.
Proof. vm_compute. split; reflexivity. Qed.

Lemma demo_NoDup : NoDup (map Name demo_keys).
Proof. apply (bool_decide_unpack _). vm_compute. exact I. Qed.

Example demo_valid : @ValidatePromptValue smallTemplates demo_keys demo_values
  = Ok (<["Topic"%string := VString "sets"]> {["Grade"%string := VInt 7]}).
Proof. vm_compute. reflexivity. Qed.

Lemma ValidatePromptValue_spec_witness :
  @Validated smallTemplates demo_keys demo_values
    (<["Topic"%string := VString "sets"]> {["Grade"%string := VInt 7]}).
Proof.
  exact (proj1 (@ValidatePromptValue_spec smallTemplates demo_keys demo_values _ demo_NoDup)
           demo_valid).
Defined.

Definition demo_undeclared : string := "On {{.Author}}".
Lemma ValidateAndRender_spec_witness :
  (exists m, @Validated smallTemplates demo_keys demo_values m /\
    @template_Execute smallTemplates (@DefaultFuncMap smallTemplates) (mkTemplate demo_tree []) m
      = Ok "Grade 7 on sets"%string) /\
  exists e, @ValidateAndRender smallTemplates demo_undeclared demo_keys demo_values = Err e /\
    errors_Is e ErrUndeclaredVariable = true.
Proof.
  split.
  - destruct (@ValidateAndRender_spec smallTemplates smallTemplatesOk demo_content demo_keys demo_values demo_tree
      demo_NoDup ltac:(discriminate) ltac:(vm_compute; reflexivity) ltac:(vm_compute; reflexivity)) as [_ Hok].
    apply Hok; [|exact demo_rendered]. intros x Hr.
    assert (Hx : x ∈ walkAST demo_tree ∅) by (apply walkAST_spec; right; by apply plain_Reads).
    assert (Hs : walkAST demo_tree ∅ = {["Grade"; "Topic"]}%string) by (vm_compute; reflexivity).
    rewrite Hs in Hx. simpl. set_solver.
  - destruct (@ValidateAndRender_spec smallTemplates smallTemplatesOk demo_undeclared demo_keys demo_values
      (ListNode [TextNode "On "; ActionNode (PipeNode [] [CommandNode [FieldNode ["Author"]]]); TextNode ""]%string)
      demo_NoDup ltac:(discriminate) ltac:(vm_compute; reflexivity) ltac:(vm_compute; reflexivity)) as [Hbad _].
    apply (Hbad "Author"%string).
    + eapply Refers_list; [by right; left|]. apply Refers_action. eapply Refers_pipe; [by left|].
      eapply Refers_command; [by left|]. apply Refers_field. by left.
    + simpl. intuition discriminate.
Defined.

Lemma helpers_refused_witness :
  exists e, @ValidateAndRender smallTemplates "{{Upper .Topic}}" demo_keys demo_values = Err e /\
    errors_Is e ErrTemplateParseFailed = true.
Proof.
  apply (@helpers_refused smallTemplates "{{Upper .Topic}}" demo_keys demo_values
    (mkTemplate (ListNode [TextNode ""; ActionNode (PipeNode [] [CommandNode [IdentifierNode "Upper"; FieldNode ["Topic"]]]);
               TextNode ""]%string) []) "Upper"); [discriminate|vm_compute; reflexivity|..]; simpl; auto.
Defined.
