(* ===== verification/PromptStore.v ===== *)
(** [src/prompt/model/entity.go] (tables), [dao.go] and [src/prompt/renderer.go]:
    the prompt and prompt-version tables behind gorm ([Gorm]), the two
    data-access objects and the renderer that joins them.

    Rows are read with the soft-delete scope ([db.Model] carries the schema).
    Row order without or with a raw [ORDER BY] is not decided by the program:
    it is the parameter [RowOrder]. *)
From S2P Require Import Prelude Gorm PromptTemplate.

(** * Entities *)
Module Prompt.
Record CorePrompt : Type := mk {
  ID : Z; CreatedAt : Z; UpdatedAt : Z; DeletedAt : option Z;
  CompanyID : Z; Uin : Z; App : string; Group : string; Name : string; Code : string;
  LatestVersionID : Z; Status : Z; CreatedUin : Z; UpdatedUin : Z;
}.
(** [CorePrompt{}]. *)
Definition zero : CorePrompt := mk 0 0 0 None 0 0 "" "" "" "" 0 0 0 0.
End Prompt.

Module Version.
Record CorePromptVersion : Type := mk {
  ID : Z; CreatedAt : Z; UpdatedAt : Z; DeletedAt : option Z;
  CompanyID : Z; Uin : Z; PromptID : Z; Content : string; VariableKeys : string;
  CreatedUin : Z; UpdatedUin : Z;
}.
Definition zero : CorePromptVersion := mk 0 0 0 None 0 0 0 "" "" 0 0.
End Version.

Definition PromptStatusEnabled : Z := 1.
Definition PromptStatusDisabled : Z := 0.

(** * The two tables *)
Record PromptSys : Type := mkPromptSys {
  prompts : GTab Prompt.CorePrompt;
  versions : GTab Version.CorePromptVersion;
}.
#[export] Instance prompt_tab : HasTab PromptSys Prompt.CorePrompt := {
  get_tab := prompts; set_tab t s := mkPromptSys t s.(versions) }.
#[export] Instance version_tab : HasTab PromptSys Version.CorePromptVersion := {
  get_tab := versions; set_tab t s := mkPromptSys s.(prompts) t }.

(** [core_prompt]: zero [Status] takes the column default on insert; [code] is
    unique, deleted rows included. *)
Module PromptGorm.
Import Prompt.
Definition set_deleted (d : option Z) (e : CorePrompt) : CorePrompt :=
  mk e.(ID) e.(CreatedAt) e.(UpdatedAt) d e.(CompanyID) e.(Uin) e.(App) e.(Group) e.(Name)
     e.(Code) e.(LatestVersionID) e.(Status) e.(CreatedUin) e.(UpdatedUin).
Definition touch (now : Z) (e : CorePrompt) : CorePrompt :=
  mk e.(ID) e.(CreatedAt) now e.(DeletedAt) e.(CompanyID) e.(Uin) e.(App) e.(Group) e.(Name)
     e.(Code) e.(LatestVersionID) e.(Status) e.(CreatedUin) e.(UpdatedUin).
Definition create (now id : Z) (e : CorePrompt) : CorePrompt :=
  mk (nz e.(ID) id) (nz e.(CreatedAt) now) (nz e.(UpdatedAt) now) e.(DeletedAt) e.(CompanyID)
     e.(Uin) e.(App) e.(Group) e.(Name) e.(Code) e.(LatestVersionID)
     (nz e.(Status) PromptStatusEnabled) e.(CreatedUin) e.(UpdatedUin).
Definition updates (now : Z) (e t : CorePrompt) : CorePrompt :=
  mk (nz e.(ID) t.(ID)) (nz e.(CreatedAt) t.(CreatedAt)) now (nzo e.(DeletedAt) t.(DeletedAt))
     (nz e.(CompanyID) t.(CompanyID)) (nz e.(Uin) t.(Uin)) (nzs e.(App) t.(App))
     (nzs e.(Group) t.(Group)) (nzs e.(Name) t.(Name)) (nzs e.(Code) t.(Code))
     (nz e.(LatestVersionID) t.(LatestVersionID)) (nz e.(Status) t.(Status))
     (nz e.(CreatedUin) t.(CreatedUin)) (nz e.(UpdatedUin) t.(UpdatedUin)).
Definition upsert (now : Z) (e t : CorePrompt) : CorePrompt :=
  mk t.(ID) t.(CreatedAt) now e.(DeletedAt) e.(CompanyID) e.(Uin) e.(App) e.(Group) e.(Name)
     e.(Code) e.(LatestVersionID) e.(Status) e.(CreatedUin) e.(UpdatedUin).
End PromptGorm.

#[export] Instance prompt_model : GormModel Prompt.CorePrompt := {
  m_zero := Prompt.zero;
  m_id := Prompt.ID;
  m_deleted := Prompt.DeletedAt;
  m_set_deleted := PromptGorm.set_deleted;
  m_touch := PromptGorm.touch;
  m_create := PromptGorm.create;
  m_updates := PromptGorm.updates;
  m_upsert := PromptGorm.upsert;
  m_collide a b := (Prompt.ID a =? Prompt.ID b) || str_eqb (Prompt.Code a) (Prompt.Code b);
}.

Module VersionGorm.
Import Version.
Definition set_deleted (d : option Z) (e : CorePromptVersion) : CorePromptVersion :=
  mk e.(ID) e.(CreatedAt) e.(UpdatedAt) d e.(CompanyID) e.(Uin) e.(PromptID) e.(Content)
     e.(VariableKeys) e.(CreatedUin) e.(UpdatedUin).
Definition touch (now : Z) (e : CorePromptVersion) : CorePromptVersion :=
  mk e.(ID) e.(CreatedAt) now e.(DeletedAt) e.(CompanyID) e.(Uin) e.(PromptID) e.(Content)
     e.(VariableKeys) e.(CreatedUin) e.(UpdatedUin).
Definition create (now id : Z) (e : CorePromptVersion) : CorePromptVersion :=
  mk (nz e.(ID) id) (nz e.(CreatedAt) now) (nz e.(UpdatedAt) now) e.(DeletedAt) e.(CompanyID)
     e.(Uin) e.(PromptID) e.(Content) e.(VariableKeys) e.(CreatedUin) e.(UpdatedUin).
Definition updates (now : Z) (e t : CorePromptVersion) : CorePromptVersion :=
  mk (nz e.(ID) t.(ID)) (nz e.(CreatedAt) t.(CreatedAt)) now (nzo e.(DeletedAt) t.(DeletedAt))
     (nz e.(CompanyID) t.(CompanyID)) (nz e.(Uin) t.(Uin)) (nz e.(PromptID) t.(PromptID))
     (nzs e.(Content) t.(Content)) (nzs e.(VariableKeys) t.(VariableKeys))
     (nz e.(CreatedUin) t.(CreatedUin)) (nz e.(UpdatedUin) t.(UpdatedUin)).
Definition upsert (now : Z) (e t : CorePromptVersion) : CorePromptVersion :=
  mk t.(ID) t.(CreatedAt) now e.(DeletedAt) e.(CompanyID) e.(Uin) e.(PromptID) e.(Content)
     e.(VariableKeys) e.(CreatedUin) e.(UpdatedUin).
End VersionGorm.

#[export] Instance version_model : GormModel Version.CorePromptVersion := {
  m_zero := Version.zero;
  m_id := Version.ID;
  m_deleted := Version.DeletedAt;
  m_set_deleted := VersionGorm.set_deleted;
  m_touch := VersionGorm.touch;
  m_create := VersionGorm.create;
  m_updates := VersionGorm.updates;
  m_upsert := VersionGorm.upsert;
  m_collide a b := Version.ID a =? Version.ID b;
}.

(** A nil [cond] is dereferenced after the count. *)
Definition nil_deref : string := "runtime error: invalid memory address or nil pointer dereference".

(** * [PromptDao] *)
Module PromptDao.
Import Prompt.

Record PromptCond : Type := mkCond {
  cCompanyID : Z; cUin : Z; cID : Z; cIDs : list Z; cApp : string; cGroup : string;
  cCode : string; cNameLike : string; cStatus : list Z; cOrderBy : list string;
  cOffset : Z; cLimit : Z; cIsDelete : bool;
}.

Section Dao.
Context `{Env} `{RowOrder CorePrompt}.

Definition BuildCondition (cond : option PromptCond) (db : Query CorePrompt) : Query CorePrompt :=
  match cond with
  | None => db
  | Some cond =>
      let db := when (0 <? cond.(cCompanyID)) (where_ (fun e => e.(CompanyID) =? cond.(cCompanyID))) db in
      let db := when (0 <? cond.(cUin)) (where_ (fun e => e.(Uin) =? cond.(cUin))) db in
      let db := when (0 <? cond.(cID)) (where_ (fun e => e.(ID) =? cond.(cID))) db in
      let db := when (0 <? length cond.(cIDs))%nat
                  (where_ (fun e => existsb (Z.eqb e.(ID)) cond.(cIDs))) db in
      let db := when (negb (str_eqb cond.(cApp) "")) (where_ (fun e => str_eqb e.(App) cond.(cApp))) db in
      let db := when (negb (str_eqb cond.(cGroup) "")) (where_ (fun e => str_eqb e.(Group) cond.(cGroup))) db in
      let db := when (negb (str_eqb cond.(cCode) "")) (where_ (fun e => str_eqb e.(Code) cond.(cCode))) db in
      let db := when (negb (str_eqb cond.(cNameLike) ""))
                  (where_ (fun e => like (cond.(cNameLike) ++ "%") e.(Name))) db in
      let db := when (0 <? length cond.(cStatus))%nat
                  (where_ (fun e => existsb (Z.eqb e.(Status)) cond.(cStatus))) db in
      let db := when cond.(cIsDelete) unscope db in
      when (0 <? length cond.(cOrderBy))%nat (order_ cond.(cOrderBy)) db
  end.

Definition Create (entity : CorePrompt) : M PromptSys unit :=
  gfmt "[PromptDao] Create fail, err: " (gorm_create [entity]).

Definition CreateBatch (entityList : list CorePrompt) : M PromptSys unit :=
  match entityList with
  | [] => gret tt
  | _ => gfmt "[PromptDao] CreateBatch fail, err: " (gorm_create entityList)
  end.

Definition GetByID (id : Z) : M PromptSys CorePrompt :=
  gfmt ("[PromptDao] GetByID fail, id:" ++ fmt_d id ++ ", err: ") (gorm_find (by_id id)).

Definition GetByIDs (ids : list Z) : M PromptSys (list CorePrompt) :=
  match ids with
  | [] => gret []
  | _ => gfmt "[PromptDao] GetByIDs fail, err: " (gorm_find_all (by_ids ids))
  end.

Definition UpdateByID (id : Z) (entity : CorePrompt) : M PromptSys unit :=
  gfmt ("[PromptDao] UpdateByID fail, id:" ++ fmt_d id ++ ", err: ") (gorm_updates (by_id id) entity).

Definition UpdateMap (id : Z) (updateMap : CorePrompt -> CorePrompt) : M PromptSys unit :=
  gfmt ("[PromptDao] UpdateMap fail, id:" ++ fmt_d id ++ ", err: ") (gorm_update_map (by_id id) updateMap).

Definition UpdateMapBatch (cond : option PromptCond) (updateMap : CorePrompt -> CorePrompt) : M PromptSys unit :=
  gfmt "[PromptDao] UpdateMapBatch fail, err: " (gorm_update_map (BuildCondition cond newQuery) updateMap).

Definition SaveBatchOnConflict (entityList : list CorePrompt) (conflictColumns : list string) : M PromptSys unit :=
  match entityList with
  | [] => gret tt
  | _ => gfmt "[PromptDao] SaveBatchOnConflict fail, err: "
           (if (0 <? length conflictColumns)%nat then gorm_upsert entityList else gorm_create entityList)
  end.

Definition Delete (id : Z) : M PromptSys unit :=
  let! now := gnow in
  gfmt ("[PromptDao] Delete fail, id:" ++ fmt_d id ++ ", err: ")
    (gorm_update_map (by_id id) (m_set_deleted (E:=CorePrompt) (Some now))).

Definition DeleteByIDs (ids : list Z) : M PromptSys unit :=
  match ids with
  | [] => gret tt
  | _ => let! now := gnow in
         gfmt "[PromptDao] DeleteByIDs fail, err: "
           (gorm_update_map (by_ids ids) (m_set_deleted (E:=CorePrompt) (Some now)))
  end.

Definition GetByCond (cond : option PromptCond) : M PromptSys CorePrompt :=
  gfmt "[PromptDao] GetByCond fail, err: " (gorm_find (BuildCondition cond newQuery)).

Definition GetByAppAndGroup (app group : string) : M PromptSys CorePrompt :=
  gfmt ("[PromptDao] GetByAppAndGroup fail, app:" ++ app ++ ", group:" ++ group ++ ", err: ")
    (gorm_find (where_ (fun e => str_eqb e.(App) app && str_eqb e.(Group) group) newQuery)).

Definition GetByCode (code : string) : M PromptSys CorePrompt :=
  gfmt ("[PromptDao] GetByCode fail, code:" ++ code ++ ", err: ")
    (gorm_find (where_ (fun e => str_eqb e.(Code) code) newQuery)).

Definition GetListByCond (cond : option PromptCond) : M PromptSys (list CorePrompt) :=
  gfmt "[PromptDao] GetListByCond fail, err: " (gorm_find_all (BuildCondition cond newQuery)).

Definition GetPageListByCond (cond : option PromptCond) : G PromptSys (Res (list CorePrompt * Z)) :=
  let db := BuildCondition cond newQuery in
  let* count := plift (gfmt "[PromptDao] GetPageListByCond count fail, err: " (gorm_count db)) in
  match count, cond with
  | Err e, _ => pret (Err e)
  | Ok _, None => ppanic nil_deref
  | Ok count, Some cond =>
      let* found := plift (gfmt "[PromptDao] GetPageListByCond find fail, err: "
                             (gorm_page cond.(cLimit) cond.(cOffset) db)) in
      match found with
      | Err e => pret (Err e)
      | Ok entityList => pret (Ok (entityList, count))
      end
  end.

Definition CountByCond (cond : option PromptCond) : M PromptSys Z :=
  gfmt "[PromptDao] CountByCond fail, err: " (gorm_count (BuildCondition cond newQuery)).
End Dao.

(** [ToMap]: a later entity of the same id wins. *)
Definition ToMap (l : list CorePrompt) : gmap Z CorePrompt :=
  fold_left (fun m v => <[v.(ID) := v]> m) l ∅.
End PromptDao.

(** * [PromptVersionDao] *)
Module VersionDao.
Import Version.

Record PromptVersionCond : Type := mkCond {
  cCompanyID : Z; cUin : Z; cID : Z; cIDs : list Z; cPromptID : Z; cPromptIDs : list Z;
  cOrderBy : list string; cOffset : Z; cLimit : Z; cIsDelete : bool;
}.

Section Dao.
Context `{Env} `{RowOrder CorePromptVersion}.

Definition BuildCondition (cond : option PromptVersionCond) (db : Query CorePromptVersion)
    : Query CorePromptVersion :=
  match cond with
  | None => db
  | Some cond =>
      let db := when (0 <? cond.(cCompanyID)) (where_ (fun e => e.(CompanyID) =? cond.(cCompanyID))) db in
      let db := when (0 <? cond.(cUin)) (where_ (fun e => e.(Uin) =? cond.(cUin))) db in
      let db := when (0 <? cond.(cID)) (where_ (fun e => e.(ID) =? cond.(cID))) db in
      let db := when (0 <? length cond.(cIDs))%nat
                  (where_ (fun e => existsb (Z.eqb e.(ID)) cond.(cIDs))) db in
      let db := when (0 <? cond.(cPromptID)) (where_ (fun e => e.(PromptID) =? cond.(cPromptID))) db in
      let db := when (0 <? length cond.(cPromptIDs))%nat
                  (where_ (fun e => existsb (Z.eqb e.(PromptID)) cond.(cPromptIDs))) db in
      let db := when cond.(cIsDelete) unscope db in
      when (0 <? length cond.(cOrderBy))%nat (order_ cond.(cOrderBy)) db
  end.

Definition Create (entity : CorePromptVersion) : M PromptSys unit :=
  gfmt "[PromptVersionDao] Create fail, err: " (gorm_create [entity]).

Definition CreateBatch (entityList : list CorePromptVersion) : M PromptSys unit :=
  match entityList with
  | [] => gret tt
  | _ => gfmt "[PromptVersionDao] CreateBatch fail, err: " (gorm_create entityList)
  end.

Definition GetByID (id : Z) : M PromptSys CorePromptVersion :=
  gfmt ("[PromptVersionDao] GetByID fail, id:" ++ fmt_d id ++ ", err: ") (gorm_find (by_id id)).

Definition GetByIDs (ids : list Z) : M PromptSys (list CorePromptVersion) :=
  match ids with
  | [] => gret []
  | _ => gfmt "[PromptVersionDao] GetByIDs fail, err: " (gorm_find_all (by_ids ids))
  end.

Definition UpdateByID (id : Z) (entity : CorePromptVersion) : M PromptSys unit :=
  gfmt ("[PromptVersionDao] UpdateByID fail, id:" ++ fmt_d id ++ ", err: ") (gorm_updates (by_id id) entity).

Definition UpdateMap (id : Z) (updateMap : CorePromptVersion -> CorePromptVersion) : M PromptSys unit :=
  gfmt ("[PromptVersionDao] UpdateMap fail, id:" ++ fmt_d id ++ ", err: ") (gorm_update_map (by_id id) updateMap).

Definition UpdateMapBatch (cond : option PromptVersionCond) (updateMap : CorePromptVersion -> CorePromptVersion)
    : M PromptSys unit :=
  gfmt "[PromptVersionDao] UpdateMapBatch fail, err: " (gorm_update_map (BuildCondition cond newQuery) updateMap).

Definition SaveBatchOnConflict (entityList : list CorePromptVersion) (conflictColumns : list string)
    : M PromptSys unit :=
  match entityList with
  | [] => gret tt
  | _ => gfmt "[PromptVersionDao] SaveBatchOnConflict fail, err: "
           (if (0 <? length conflictColumns)%nat then gorm_upsert entityList else gorm_create entityList)
  end.

Definition Delete (id : Z) : M PromptSys unit :=
  let! now := gnow in
  gfmt ("[PromptVersionDao] Delete fail, id:" ++ fmt_d id ++ ", err: ")
    (gorm_update_map (by_id id) (m_set_deleted (E:=CorePromptVersion) (Some now))).

Definition DeleteByIDs (ids : list Z) : M PromptSys unit :=
  match ids with
  | [] => gret tt
  | _ => let! now := gnow in
         gfmt "[PromptVersionDao] DeleteByIDs fail, err: "
           (gorm_update_map (by_ids ids) (m_set_deleted (E:=CorePromptVersion) (Some now)))
  end.

Definition GetByCond (cond : option PromptVersionCond) : M PromptSys CorePromptVersion :=
  gfmt "[PromptVersionDao] GetByCond fail, err: " (gorm_find (BuildCondition cond newQuery)).

Definition GetListByCond (cond : option PromptVersionCond) : M PromptSys (list CorePromptVersion) :=
  gfmt "[PromptVersionDao] GetListByCond fail, err: " (gorm_find_all (BuildCondition cond newQuery)).

Definition GetPageListByCond (cond : option PromptVersionCond)
    : G PromptSys (Res (list CorePromptVersion * Z)) :=
  let db := BuildCondition cond newQuery in
  let* count := plift (gfmt "[PromptVersionDao] GetPageListByCond count fail, err: " (gorm_count db)) in
  match count, cond with
  | Err e, _ => pret (Err e)
  | Ok _, None => ppanic nil_deref
  | Ok count, Some cond =>
      let* found := plift (gfmt "[PromptVersionDao] GetPageListByCond find fail, err: "
                             (gorm_page cond.(cLimit) cond.(cOffset) db)) in
      match found with
      | Err e => pret (Err e)
      | Ok entityList => pret (Ok (entityList, count))
      end
  end.

Definition GetListByPromptID (promptID : Z) : M PromptSys (list CorePromptVersion) :=
  if promptID =? 0 then gret []
  else gfmt ("[PromptVersionDao] GetListByPromptID fail, promptID:" ++ fmt_d promptID ++ ", err: ")
         (gorm_find_all (where_ (fun e => e.(PromptID) =? promptID) newQuery)).

Definition CountByCond (cond : option PromptVersionCond) : M PromptSys Z :=
  gfmt "[PromptVersionDao] CountByCond fail, err: " (gorm_count (BuildCondition cond newQuery)).
End Dao.

Definition ToMap (l : list CorePromptVersion) : gmap Z CorePromptVersion :=
  fold_left (fun m v => <[v.(ID) := v]> m) l ∅.
End VersionDao.

(** * The renderer *)
(** What [encoding/json] makes of the stored key list, and [%q]. *)
Class PromptJson : Type := {
  UnmarshalKeys : string -> Res (list VarKey);
  fmt_q : string -> string;
}.

Section Renderer.
Context `{Env} `{RowOrder Prompt.CorePrompt} `{RowOrder Version.CorePromptVersion}
  `{TextTemplate} `{PromptJson}.

Definition lift_res {A} (r : Res A) : M PromptSys A := fun w => (r, w).

Definition RenderByCode (code : string) (values : gmap string Value) : M PromptSys string :=
  let! prompt := gwrap ("get prompt by code " ++ fmt_q code ++ " fail: ") (PromptDao.GetByCode code) in
  if Prompt.ID prompt =? 0
  then graise (ErrWith ErrPromptNotFound (": code=" ++ code)) else
  if Prompt.Status prompt =? PromptStatusDisabled
  then graise (ErrWith ErrPromptDisabled (": code=" ++ code ++ ", promptID=" ++ fmt_d (Prompt.ID prompt))) else
  if Prompt.LatestVersionID prompt =? 0
  then graise (ErrWith ErrVersionNotFound
                 (": promptID=" ++ fmt_d (Prompt.ID prompt) ++ ", latestVersionID=0")) else
  let! version := gwrap ("get prompt version " ++ fmt_d (Prompt.LatestVersionID prompt) ++ " fail: ")
                    (VersionDao.GetByID (Prompt.LatestVersionID prompt)) in
  if Version.ID version =? 0
  then graise (ErrWith ErrVersionNotFound (": promptID=" ++ fmt_d (Prompt.ID prompt) ++ ", versionID="
                 ++ fmt_d (Prompt.LatestVersionID prompt))) else
  let! keys := gwrap ("unmarshal variable_keys fail: promptID=" ++ fmt_d (Prompt.ID prompt)
                      ++ ", versionID=" ++ fmt_d (Version.ID version) ++ ", err: ")
                 (lift_res (UnmarshalKeys (Version.VariableKeys version))) in
  lift_res (ValidateAndRender (Version.Content version) keys values).
End Renderer.

(** * Unique indexes *)
#[export] Instance prompt_model_ok : GormModelOk Prompt.CorePrompt.
Proof. constructor. intros a b. simpl. unfold str_eqb. by rewrite Z.eqb_sym, String.eqb_sym. Qed.
#[export] Instance version_model_ok : GormModelOk Version.CorePromptVersion.
Proof. constructor. intros a b. apply Z.eqb_sym. Qed.

(** Every write the two data-access objects offer. *)
Inductive StoreOp : Type :=
| PCreate (e : Prompt.CorePrompt) | PCreateBatch (es : list Prompt.CorePrompt)
| PUpdateByID (id : Z) (e : Prompt.CorePrompt)
| PUpdateMap (id : Z) (f : Prompt.CorePrompt -> Prompt.CorePrompt)
| PUpdateMapBatch (c : option PromptDao.PromptCond) (f : Prompt.CorePrompt -> Prompt.CorePrompt)
| PSaveBatch (es : list Prompt.CorePrompt) (cols : list string)
| PDelete (id : Z) | PDeleteByIDs (ids : list Z)
| VCreate (e : Version.CorePromptVersion) | VCreateBatch (es : list Version.CorePromptVersion)
| VUpdateByID (id : Z) (e : Version.CorePromptVersion)
| VUpdateMap (id : Z) (f : Version.CorePromptVersion -> Version.CorePromptVersion)
| VUpdateMapBatch (c : option VersionDao.PromptVersionCond) (f : Version.CorePromptVersion -> Version.CorePromptVersion)
| VSaveBatch (es : list Version.CorePromptVersion) (cols : list string)
| VDelete (id : Z) | VDeleteByIDs (ids : list Z).

Section Ops.
Context `{Env}.

Definition run_op (op : StoreOp) : M PromptSys unit :=
  match op with
  | PCreate e => PromptDao.Create e
  | PCreateBatch es => PromptDao.CreateBatch es
  | PUpdateByID id e => PromptDao.UpdateByID id e
  | PUpdateMap id f => PromptDao.UpdateMap id f
  | PUpdateMapBatch c f => PromptDao.UpdateMapBatch c f
  | PSaveBatch es cols => PromptDao.SaveBatchOnConflict es cols
  | PDelete id => PromptDao.Delete id
  | PDeleteByIDs ids => PromptDao.DeleteByIDs ids
  | VCreate e => VersionDao.Create e
  | VCreateBatch es => VersionDao.CreateBatch es
  | VUpdateByID id e => VersionDao.UpdateByID id e
  | VUpdateMap id f => VersionDao.UpdateMap id f
  | VUpdateMapBatch c f => VersionDao.UpdateMapBatch c f
  | VSaveBatch es cols => VersionDao.SaveBatchOnConflict es cols
  | VDelete id => VersionDao.Delete id
  | VDeleteByIDs ids => VersionDao.DeleteByIDs ids
  end.
Definition run_ops (ops : list StoreOp) : M PromptSys unit := gfor_log ops run_op.

Lemma Keeps_run_ops P ops : (forall op, Keeps P (run_op op)) -> Keeps P (run_ops ops).
Proof.
  intros Hop. induction ops as [|op ops IH]; intros w Hw; [done|]. unfold run_ops, after in *. simpl.
  unfold gbind, gtry. specialize (Hop op w Hw). unfold after in Hop.
  destruct (run_op op w) as [r w']; simpl in *. by apply IH.
Qed.
End Ops.

Definition UniqueKeys (s : PromptSys) : Prop :=
  distinct s.(prompts).(rows) = true /\ distinct s.(versions).(rows) = true.

Section Unique.
Context `{Env}.

Lemma run_op_unique op : Keeps UniqueKeys (run_op op).
Proof.
  destruct op; simpl;
    unfold PromptDao.Create, PromptDao.CreateBatch, PromptDao.UpdateByID, PromptDao.UpdateMap,
      PromptDao.UpdateMapBatch, PromptDao.SaveBatchOnConflict, PromptDao.Delete, PromptDao.DeleteByIDs,
      VersionDao.Create, VersionDao.CreateBatch, VersionDao.UpdateByID, VersionDao.UpdateMap,
      VersionDao.UpdateMapBatch, VersionDao.SaveBatchOnConflict, VersionDao.Delete, VersionDao.DeleteByIDs;
    repeat match goal with |- Keeps _ (match ?l with [] => _ | _ => _ end) => destruct l end;
    unfold gorm_create, gorm_upsert, gorm_updates, gorm_update_map;
    try destruct (0 <? length _)%nat; keeps; intros s t Hs [HP HV];
    (split; [first [exact HP | change (distinct t.(rows) = true)] | first [exact HV | change (distinct t.(rows) = true)]]);
    first [ exact (insert_rows_distinct _ _ _ _ Hs HP) | exact (insert_rows_distinct _ _ _ _ Hs HV)
          | exact (upsert_rows_distinct _ _ _ _ Hs HP) | exact (upsert_rows_distinct _ _ _ _ Hs HV)
          | exact (update_rows_distinct _ _ _ _ Hs) ].
Qed.

(** Any sequence of writes of the two data-access objects, whatever fails,
    keeps the ids of both tables and the codes of the prompts unique. *)
Theorem store_keys_unique ops w : UniqueKeys (st w) -> UniqueKeys (after (run_ops ops) w).
Proof. apply Keeps_run_ops, run_op_unique. Qed.
End Unique.

Section RenderSpec.
Context `{Env} `{RP : RowOrder Prompt.CorePrompt} `{RV : RowOrder Version.CorePromptVersion}
  `{!RowOrderOk _ RP} `{!RowOrderOk _ RV} `{TextTemplate} `{PromptJson}.

(** The prompt and the version a code is rendered from. *)
Definition Serves (s : PromptSys) (code : string) (p : Prompt.CorePrompt)
    (v : Version.CorePromptVersion) : Prop :=
  (In p s.(prompts).(rows) /\ Prompt.DeletedAt p = None /\ Prompt.Code p = code /\
   Prompt.ID p <> 0 /\ Prompt.Status p <> PromptStatusDisabled /\ Prompt.LatestVersionID p <> 0) /\
  (In v s.(versions).(rows) /\ Version.DeletedAt v = None /\
   Version.ID v = Prompt.LatestVersionID p).

Lemma live_prompt (p : Prompt.CorePrompt) : live p = true <-> Prompt.DeletedAt p = None.
Proof. unfold live. simpl. by destruct (Prompt.DeletedAt p). Qed.
Lemma live_version (v : Version.CorePromptVersion) : live v = true <-> Version.DeletedAt v = None.
Proof. unfold live. simpl. by destruct (Version.DeletedAt v). Qed.

Lemma find_code s code p v :
  UniqueKeys s -> Serves s code p v ->
  hd m_zero (query_rows (where_ (fun e => str_eqb (Prompt.Code e) code) newQuery) s.(prompts).(rows)) = p.
Proof.
  intros [Hu _] [(Hp & Hd & Hc & _) _]. unfold str_eqb. apply find_only; [done|..].
  - rewrite hits_where, Hc, String.eqb_refl. by apply live_prompt.
  - intros y Hy. rewrite hits_where. intros [Ey%String.eqb_eq _]%andb_true_iff.
    apply (distinct_In s.(prompts).(rows)); [done..|]. simpl. unfold str_eqb.
    rewrite Hc, Ey, String.eqb_refl. apply orb_true_r.
Qed.

Lemma find_version s code p v :
  UniqueKeys s -> Serves s code p v ->
  hd m_zero (query_rows (by_id (Prompt.LatestVersionID p)) s.(versions).(rows)) = v.
Proof.
  intros [_ Hu] [_ (Hv & Hd & Hi)]. apply find_only; [done|..].
  - unfold by_id. rewrite hits_where. simpl. rewrite Hi, Z.eqb_refl. by apply live_version.
  - intros y Hy. unfold by_id. rewrite hits_where. intros [Ey%Z.eqb_eq _]%andb_true_iff.
    apply (distinct_In s.(versions).(rows)); [done..|]. simpl in *. rewrite Ey, Hi. apply Z.eqb_refl.
Qed.

(** The run in terms of the two rows found. *)
Lemma RenderByCode_eq code values w :
  no_fault_from (calls w) ->
  let p := hd m_zero (query_rows (where_ (fun e => str_eqb (Prompt.Code e) code) newQuery)
                        (st w).(prompts).(rows)) in
  let v := hd m_zero (query_rows (by_id (Prompt.LatestVersionID p)) (st w).(versions).(rows)) in
  st (snd (RenderByCode code values w)) = st w /\
  (forall out, fst (RenderByCode code values w) = Ok out <->
    Prompt.ID p <> 0 /\ Prompt.Status p <> PromptStatusDisabled /\ Prompt.LatestVersionID p <> 0 /\
    Version.ID v <> 0 /\ exists keys, UnmarshalKeys (Version.VariableKeys v) = Ok keys /\
      ValidateAndRender (Version.Content v) keys values = Ok out).
Proof.
  intros Hnf p v. unfold RenderByCode, PromptDao.GetByCode, VersionDao.GetByID, graise.
  unfold gbind, gwrap. rewrite gorm_find_ok by (nofault; done). cbn [st calls get_tab prompt_tab]. fold p.
  destruct (Z.eqb_spec (Prompt.ID p) 0); [split; naive_solver|].
  destruct (Z.eqb_spec (Prompt.Status p) PromptStatusDisabled); [split; naive_solver|].
  destruct (Z.eqb_spec (Prompt.LatestVersionID p) 0); [split; naive_solver|].
  rewrite gorm_find_ok by (simpl; nofault; done). cbn [st calls get_tab version_tab]. fold v.
  destruct (Z.eqb_spec (Version.ID v) 0); [split; naive_solver|].
  unfold lift_res. destruct (UnmarshalKeys _) as [keys|e]; split; simpl; naive_solver.
Qed.

(** C35: when the services do not fail, a code renders exactly when a live,
    enabled prompt with that code points to a live version whose keys decode
    and whose template renders; the tables stay as they are. *)
Theorem RenderByCode_spec code values w :
  no_fault_from (calls w) -> UniqueKeys (st w) ->
  after (RenderByCode code values) w = st w /\
  forall out, fst (RenderByCode code values w) = Ok out <->
    exists p v keys, Serves (st w) code p v /\
      UnmarshalKeys (Version.VariableKeys v) = Ok keys /\
      ValidateAndRender (Version.Content v) keys values = Ok out.
Proof.
  intros Hnf Hu. destruct (RenderByCode_eq code values w Hnf) as [Hst Hout]. split; [exact Hst|].
  intros out. rewrite Hout. split.
  - intros (Hid & Hs & Hl & Hv & keys & Hk & Hr).
    destruct (find_cases (where_ (fun e => str_eqb (Prompt.Code e) code) newQuery) (st w).(prompts).(rows))
      as [[Hin Hh]|[Hz _]]; [|by rewrite Hz in Hid].
    set (p := hd _ _) in *. rewrite hits_where in Hh. unfold str_eqb in Hh.
    apply andb_true_iff in Hh as [Hc%String.eqb_eq Hlive%live_prompt].
    destruct (find_cases (by_id (Prompt.LatestVersionID p)) (st w).(versions).(rows))
      as [[Hvin Hvh]|[Hz _]]; [|by rewrite Hz in Hv].
    set (v := hd _ (query_rows (by_id _) _)) in *. unfold by_id in Hvh. rewrite hits_where in Hvh.
    apply andb_true_iff in Hvh as [Hvid%Z.eqb_eq Hvlive%live_version].
    exists p, v, keys. split; [|done]. done.
  - intros (p & v & keys & HS & Hk & Hr).
    rewrite (find_code _ _ _ _ Hu HS), (find_version _ _ _ _ Hu HS).
    destruct HS as [(_ & _ & _ & Hid & Hs & Hl) (_ & _ & Hv)].
    repeat split; [done..|congruence|]. by exists keys.
Qed.
End RenderSpec.

(** * Disabling a prompt *)
Definition AllEnabled (s : PromptSys) : Prop :=
  forall p, In p s.(prompts).(rows) -> Prompt.Status p <> PromptStatusDisabled.

(** The writes of prompts that take a whole entity. *)
Definition struct_write (op : StoreOp) : bool :=
  match op with
  | PCreate _ | PCreateBatch _ | PUpdateByID _ _ | PSaveBatch _ _ => true
  | _ => false
  end.

Section Disable.
Context `{Env}.
Abbreviation enabled t := (forall p, In p t.(rows) -> Prompt.Status p <> PromptStatusDisabled).

Lemma nz_nonzero v old : old <> 0 -> nz v old <> 0.
Proof. unfold nz. destruct (Z.eqb_spec v 0); done. Qed.

Lemma created_enabled now id e : Prompt.Status (PromptGorm.create now id e) <> PromptStatusDisabled.
Proof. by apply nz_nonzero. Qed.

Lemma insert_enabled now es (t t' : GTab Prompt.CorePrompt) :
  insert_rows now es t = Ok t' -> enabled t -> enabled t'.
Proof.
  revert t; induction es as [|e es IH]; intros t Hi Ht; [by injection Hi as <-|]. cbn [insert_rows] in Hi.
  destruct (existsb _ _); [done|]. apply (IH _ Hi). intros p [Hp|[<-|[]]]%in_app_iff;
    [by apply Ht|apply created_enabled].
Qed.

Lemma upsert_enabled now es (t t' : GTab Prompt.CorePrompt) :
  upsert_rows now es t = Ok t' -> enabled t -> enabled t'.
Proof.
  revert t; induction es as [|e es IH]; intros t Hi Ht; [by injection Hi as <-|]. cbn [upsert_rows] in Hi.
  destruct (conflict_row _ _) as [old|].
  - destruct (distinct _); [|done]. apply (IH _ Hi).
    intros p (q & <- & Hq)%in_map_iff. destruct (m_id q =? m_id old); [apply created_enabled|by apply Ht].
  - apply (IH _ Hi). intros p [Hp|[<-|[]]]%in_app_iff; [by apply Ht|apply created_enabled].
Qed.

Lemma updates_enabled q now e (t t' : GTab Prompt.CorePrompt) :
  update_rows q (m_updates now e) t = Ok t' -> enabled t -> enabled t'.
Proof.
  unfold update_rows. destruct (conds q); [done|]. destruct (distinct _); [|done]. intros [= <-] Ht.
  intros p (x & <- & Hx)%in_map_iff. destruct (hits q x); [|by apply Ht].
  apply nz_nonzero, Ht, Hx.
Qed.

(** No write of a whole prompt entity can leave a prompt disabled: on
    insert and upsert a zero status takes the column default, which is enabled,
    and on update a zero status is not written. *)
Theorem struct_writes_never_disable op w :
  struct_write op = true -> AllEnabled (st w) -> AllEnabled (after (run_op op) w).
Proof.
  intros Hop Hw. revert w Hw. change (Keeps AllEnabled (run_op op)).
  destruct op; try done; simpl;
    unfold PromptDao.Create, PromptDao.CreateBatch, PromptDao.UpdateByID, PromptDao.SaveBatchOnConflict;
    repeat match goal with |- Keeps _ (match ?l with [] => _ | _ => _ end) => destruct l end;
    unfold gorm_create, gorm_upsert, gorm_updates; try destruct (0 <? length _)%nat; keeps;
    intros s t Hs HE;
    first [exact (insert_enabled _ _ _ _ Hs HE) | exact (upsert_enabled _ _ _ _ Hs HE)
          | exact (updates_enabled _ _ _ _ _ Hs HE)].
Qed.
End Disable.

(** * Concrete runs *)
(** The keys of the demo prompt under their stored text. *)
Definition demoJson : PromptJson := {|
  UnmarshalKeys s := if str_eqb s "demo" then Ok demo_keys else Err (ErrNew "invalid character");
  fmt_q s := String quote_char (s ++ String quote_char "");
|}.

Definition emptyPrompts : PromptSys := mkPromptSys (mkGTab [] 1) (mkGTab [] 1).
Definition demo_prompt (status : Z) : Prompt.CorePrompt :=
  Prompt.mk 0 0 0 None 7 0 "dotteacher" "question" "demo" "grade" 1 status 0 0.
Definition demo_version : Version.CorePromptVersion :=
  Version.mk 0 0 0 None 7 0 1 demo_content "demo" 0 0.
(** A prompt created as disabled, and its version. *)
Definition demo_ops : list StoreOp :=
  [PCreate (demo_prompt PromptStatusDisabled); VCreate demo_version;
   PCreate (demo_prompt PromptStatusEnabled)].
Definition demo_world : World PromptSys :=
  snd (@run_ops quietEnv demo_ops (mkWorld 0 emptyPrompts)).
Definition demo_render (w : World PromptSys) : Res string * World PromptSys :=
  @RenderByCode quietEnv plainOrder plainOrder smallTemplates demoJson "grade" demo_values w.

(** The second prompt is refused for its code; the first one renders although
    it was created disabled, until its status is written through a map. *)
Example created_disabled_renders :
  length (rows (prompts (st demo_world))) = 1%nat /\
  fst (demo_render demo_world) = Ok "Grade 7 on sets"%string.
Proof. vm_compute. split; reflexivity. Qed.
Example map_disables :
  fst (demo_render (snd (@run_op quietEnv (PUpdateMap 1 (fun p => Prompt.mk p.(Prompt.ID)
    p.(Prompt.CreatedAt) p.(Prompt.UpdatedAt) p.(Prompt.DeletedAt) p.(Prompt.CompanyID)
    p.(Prompt.Uin) p.(Prompt.App) p.(Prompt.Group) p.(Prompt.Name) p.(Prompt.Code)
    p.(Prompt.LatestVersionID) 0 p.(Prompt.CreatedUin) p.(Prompt.UpdatedUin))) demo_world)))
  = Err (ErrWith ErrPromptDisabled ": code=grade, promptID=1").
Proof. vm_compute. reflexivity. Qed.
Example like_prefix :
  like "gr%" "grade" = true /\ like "g_a%" "grade" = true /\ like "gr%" "agrade" = false.
Proof. vm_compute. auto. Qed.

Lemma store_keys_unique_witness : UniqueKeys (st demo_world).
Proof. apply (@store_keys_unique quietEnv demo_ops (mkWorld 0 emptyPrompts)). by split. Defined.

Lemma struct_writes_never_disable_witness :
  AllEnabled (after (@run_op quietEnv (PCreate (demo_prompt PromptStatusDisabled))) (mkWorld 0 emptyPrompts)).
Proof.
  apply (@struct_writes_never_disable quietEnv (PCreate (demo_prompt PromptStatusDisabled))
           (mkWorld 0 emptyPrompts)); [reflexivity|intros p []].
Defined.

Lemma demo_unique : UniqueKeys (st demo_world).
Proof. split; vm_compute; reflexivity. Qed.

Lemma RenderByCode_spec_witness :
  exists p v keys, Serves (st demo_world) "grade" p v /\
    @UnmarshalKeys demoJson (Version.VariableKeys v) = Ok keys /\
    @ValidateAndRender smallTemplates (Version.Content v) keys demo_values = Ok "Grade 7 on sets"%string.
Proof.
  exact (proj1 (proj2 (@RenderByCode_spec quietEnv plainOrder plainOrder _ _ smallTemplates demoJson "grade"
    demo_values demo_world (quietEnv_ok _) demo_unique) _) (proj2 created_disabled_renders)).
Defined.
