(* ===== verification/Snowflake.v ===== *)
(** [src/encryptor/snowflake]: the snowflake id generator.  An id packs the
    milliseconds since 2025-01-01 (41 bits), the node (10 bits) and a sequence
    number (12 bits); all arithmetic is on 64-bit words. *)
From S2P Require Import Prelude.

Definition nodeBits : Z := 10.
Definition seqBits : Z := 12.
Definition maxSeq : Z := Z.shiftl 1 seqBits - 1.
Definition nodeShift : Z := seqBits.
Definition timeShift : Z := seqBits + nodeBits.
Definition epoch : Z := 1735689600000.

Record Generator : Type := mkGenerator { nodeID : Z; seq : Z; lastTime : Z }.
Definition New (nodeID : Z) : Generator := mkGenerator nodeID 0 0.
Definition set_seq (s : Z) (g : Generator) : Generator := mkGenerator g.(nodeID) s g.(lastTime).
Definition set_lastTime (t : Z) (g : Generator) : Generator := mkGenerator g.(nodeID) g.(seq) t.

(** [uint64(((now - epoch) << timeShift) | (nodeID << nodeShift) | seq)]. *)
Definition make_id (now node s : Z) : Z :=
  wrap_u64 (Z.lor (Z.lor (wrap_i64 (Z.shiftl (wrap_i64 (now - epoch)) timeShift))
                         (wrap_i64 (Z.shiftl node nodeShift))) s).

Section Generate.
Context `{Env}.

Definition UnixMilli : M Generator Z := let! now := gnow in gret (now / 1000000).

(** [for now <= g.lastTime { now = time.Now().UnixMilli() }]; [None] when the
    fuel ran out first. *)
Fixpoint wait_past (fuel : nat) (last now : Z) : M Generator (option Z) :=
  if now <=? last then
    match fuel with
    | O => gret None
    | S fuel' => let! now' := UnixMilli in wait_past fuel' last now'
    end
  else gret (Some now).

Definition Next (fuel : nat) : M Generator (option Z) :=
  let! now := UnixMilli in
  let! g := gget in
  let! waited :=
    (if now =? g.(lastTime) then
       let s := Z.land (wrap_i64 (g.(seq) + 1)) maxSeq in
       gmodify (set_seq s) ;;;
       if s =? 0 then wait_past fuel g.(lastTime) now else gret (Some now)
     else gmodify (set_seq 0) ;;; gret (Some now)) in
  match waited with
  | None => gret None
  | Some now =>
      gmodify (set_lastTime now) ;;;
      let! g := gget in
      gret (Some (make_id now g.(nodeID) g.(seq)))
  end.

(** [SetNodeID] on the generator; [None] is the panic. *)
Definition SetNodeID (node : Z) (g : Generator) : option Generator :=
  if (node <? 0) || (Z.shiftl 1 nodeBits - 1 <? node) then None
  else Some (mkGenerator node g.(seq) g.(lastTime)).

(** [buf[7-i] = byte(id >> (i*8))]. *)
Definition id_bytes (id : Z) : list Z :=
  map (fun i => Z.land (Z.shiftr id (Z.of_nat (7 - i) * 8)) 255) (List.seq 0 8).
Definition GenerateIDBase58 (base58_Encode : list Z -> string) (fuel : nat) : M Generator (option string) :=
  let! id := Next fuel in gret (match id with Some id => Some (base58_Encode (id_bytes id)) | None => None end).
End Generate.

(** * The layout of an id *)
Definition in_node (n : Z) : Prop := 0 <= n < 1024.
Definition in_seq (s : Z) : Prop := 0 <= s < 4096.
Definition in_time (t : Z) : Prop := epoch <= t < epoch + 2 ^ 41.

Definition pack (t n s : Z) : Z := (t - epoch) * 2 ^ 22 + n * 2 ^ 12 + s.

Lemma lor_add a b k : 0 <= k -> 0 <= b < 2 ^ k -> Z.lor (a * 2 ^ k) b = a * 2 ^ k + b.
Proof.
  intros Hk Hb. apply Z.bits_inj'. intros i Hi. rewrite Z.lor_spec. destruct (Z.lt_ge_cases i k) as [Hlt|Hge].
  - rewrite Z.mul_pow2_bits_low by done. simpl.
    rewrite <- (Z.mod_pow2_bits_low (a * 2 ^ k + b) k i) by lia.
    rewrite Z.add_comm, Z.mod_add by lia. by rewrite Z.mod_small.
  - replace (Z.testbit b i) with false.
    2: { symmetry. destruct (Z.eq_dec b 0) as [->|]; [apply Z.bits_0|]. apply Z.bits_above_log2; [lia|].
         assert (Z.log2 b < k) by (apply Z.log2_lt_pow2; lia). lia. }
    rewrite orb_false_r. replace i with ((i - k) + k) at 2 by lia.
    rewrite <- Z.div_pow2_bits by lia. rewrite Z.div_add_l by lia. rewrite Z.div_small by lia.
    rewrite Z.add_0_r. by rewrite Z.mul_pow2_bits by lia.
Qed.

Lemma make_id_pack t n s : in_time t -> in_node n -> in_seq s -> make_id t n s = pack t n s.
Proof.
  unfold in_time, in_node, in_seq, make_id, pack, timeShift, nodeShift, seqBits, nodeBits. intros Ht Hn Hs.
  rewrite !Z.shiftl_mul_pow2 by lia.
  assert (Hsmall : 0 <= (t - epoch) * 2 ^ 22 < 2 ^ 63) by lia.
  rewrite (wrap_i64_id (t - epoch)) by (unfold two63; lia).
  rewrite (wrap_i64_id ((t - epoch) * 2 ^ (12 + 10))) by (unfold two63; lia).
  rewrite (wrap_i64_id (n * 2 ^ 12)) by (unfold two63; lia).
  change (12 + 10) with 22. rewrite (lor_add _ (n * 2 ^ 12)) by lia.
  replace ((t - epoch) * 2 ^ 22 + n * 2 ^ 12) with (((t - epoch) * 2 ^ 10 + n) * 2 ^ 12) by lia.
  rewrite lor_add by lia. unfold wrap_u64, two64. apply Z.mod_small. lia.
Qed.

(** The fields of an id, read back with shifts and masks. *)
Definition id_time (id : Z) : Z := Z.shiftr id 22 + epoch.
Definition id_node (id : Z) : Z := Z.land (Z.shiftr id 12) 1023.
Definition id_seq (id : Z) : Z := Z.land id 4095.

Lemma pack_fields t n s : in_time t -> in_node n -> in_seq s ->
  id_time (pack t n s) = t /\ id_node (pack t n s) = n /\ id_seq (pack t n s) = s.
Proof.
  unfold in_time, in_node, in_seq, id_time, id_node, id_seq, pack. intros Ht Hn Hs.
  rewrite !Z.shiftr_div_pow2 by lia.
  change 1023 with (Z.ones 10). change 4095 with (Z.ones 12). rewrite !Z.land_ones by lia.
  change (2 ^ 22) with 4194304 in *. change (2 ^ 12) with 4096 in *. change (2 ^ 10) with 1024 in *.
  change (2 ^ 41) with 2199023255552 in *.
  split_and!; Z.div_mod_to_equations; lia.
Qed.

(** * Successive ids *)
Section Run.
Context `{Env}.

(** The millisecond reading of call [n]. *)
Definition ms (n : nat) : Z := env_clock n / 1000000.
(** From call [n] on the clock does not go back and stays in the 41-bit range. *)
Definition clock_ok (n : nat) : Prop :=
  forall i j, (n <= i)%nat -> (i <= j)%nat -> env_clock i <= env_clock j /\ in_time (ms i).

Lemma ms_mono n i j : clock_ok n -> (n <= i)%nat -> (i <= j)%nat -> ms i <= ms j.
Proof. intros Hc Hi Hj. apply Z.div_le_mono; [lia|]. by apply (Hc i j). Qed.

(** A generator between two calls: no reading to come is before its last time. *)
Definition gen_ok (w : World Generator) : Prop :=
  in_node (nodeID (st w)) /\ in_seq (seq (st w)) /\
  (forall i, (calls w <= i)%nat -> lastTime (st w) <= ms i).

(** The pair of last time and sequence number grows. *)
Definition later (g g' : Generator) : Prop :=
  lastTime g < lastTime g' \/ (lastTime g = lastTime g' /\ seq g < seq g').

(** A reading found past [last] is the initial one or that of a later call. *)
Lemma wait_past_some fuel last now (w w' : World Generator) t :
  wait_past fuel last now w = (Ok (Some t), w') ->
  st w' = st w /\ last < t /\
  ((t = now /\ calls w' = calls w) \/
   (exists i, (calls w <= i)%nat /\ (i < calls w')%nat /\ t = ms i)) /\ (calls w <= calls w')%nat.
Proof.
  assert (Hdone : last < now -> (Ok (Some now), w) = (Ok (Some t), w') ->
    st w' = st w /\ last < t /\ ((t = now /\ calls w' = calls w) \/
      (exists i, (calls w <= i)%nat /\ (i < calls w')%nat /\ t = ms i)) /\ (calls w <= calls w')%nat).
  { intros Hlt [= <- <-]. split_and!; auto. }
  revert now w Hdone. induction fuel as [|fuel IH]; intros now w Hdone; simpl;
    (destruct (Z.leb_spec now last); [|by apply Hdone]); [by unfold gret|].
  unfold UnixMilli, gbind, gnow, gret at 1. intros Hw.
  apply IH in Hw as (H1 & H2 & H3 & H4); [|intros Hlt [= <- <-]; split_and!; auto].
  simpl in *. split_and!; [done|done| |lia]. right.
  destruct H3 as [[-> Hc]|(i & Hi & Hi' & ->)]; [|exists i; split_and!; lia || done].
  exists (calls w). split_and!; [lia|lia|done].
Qed.

(** One id: it packs a later time and sequence number than the generator had. *)
Lemma Next_later fuel (w w' : World Generator) id :
  clock_ok (calls w) -> gen_ok w -> Next fuel w = (Ok (Some id), w') ->
  gen_ok w' /\ (calls w < calls w')%nat /\ nodeID (st w') = nodeID (st w) /\ in_time (lastTime (st w')) /\
  later (st w) (st w') /\ id = pack (lastTime (st w')) (nodeID (st w)) (seq (st w')).
Proof.
  intros Hc (Hn & Hs & Hl). set (now := ms (calls w)).
  assert (Hnow : in_time now) by (by apply (Hc (calls w) (calls w))).
  unfold Next, UnixMilli, gget, gmodify. unfold gbind, gnow, gret. cbn [st calls].
  change (env_clock (calls w) / 1000000) with now.
  destruct (Z.eqb_spec now (lastTime (st w))) as [Heq|Hne].
  - rewrite (wrap_i64_id (seq (st w) + 1)) by (unfold in_seq, two63 in *; lia).
    change maxSeq with (Z.ones 12). rewrite Z.land_ones by lia. change (2 ^ 12) with 4096.
    set (s := (seq (st w) + 1) mod 4096).
    assert (Hs' : in_seq s) by (unfold in_seq, s; apply Z.mod_pos_bound; lia).
    destruct (Z.eqb_spec s 0) as [Hs0|Hs0].
    + set (w1 := mkWorld _ _). destruct (wait_past fuel (lastTime (st w)) now w1) as [[[t|]|e] w2] eqn:Ew; [|done..].
      apply wait_past_some in Ew as (E1 & E2 & E3 & E4). intros [= <- <-]. cbn [st calls].
      rewrite E1. unfold w1 in *. cbn [st calls set_seq set_lastTime nodeID seq lastTime] in *.
      assert (Ht : exists i, (calls w <= i)%nat /\ (i < calls w2)%nat /\ t = ms i).
      { destruct E3 as [[-> _]|(i & Hi & Hi' & ->)]; [exists (calls w); by split_and!|exists i; split_and!; lia || done]. }
      destruct Ht as (i & Hi & Hi' & ->). assert (Hti : in_time (ms i)) by (by apply (Hc i i)).
      split; [|split_and!; [lia|done|done| |by apply make_id_pack]].
      * unfold gen_ok. cbn. split_and!; [done|done|]. intros k Hk.
        apply (ms_mono (calls w)); [done|lia|lia].
      * left. cbn. lia.
    + intros [= <- <-]. cbn. split; [|split_and!; [lia|done|done| |by apply make_id_pack]].
      * unfold gen_ok. cbn. split_and!; [done|done|]. intros k Hk. apply (ms_mono (calls w)); [done|lia|lia].
      * right. split; [done|]. cbn. unfold s in *. unfold in_seq in Hs.
        rewrite Z.mod_small; [lia|]. destruct (Z.eq_dec (seq (st w)) 4095) as [E|]; [|lia]. by rewrite E in Hs0.
  - intros [= <- <-]. cbn. split; [|split_and!; [lia|done|done| |by apply make_id_pack]].
    + unfold gen_ok. cbn. split_and!; [done|done|]. intros k Hk. apply (ms_mono (calls w)); [done|lia|lia].
    + left. cbn. specialize (Hl (calls w) (Nat.le_refl _)). fold now in Hl. lia.
Qed.
End Run.

(** [n] ids in a row; [None] when one of them ran out of fuel. *)
Fixpoint Nexts `{Env} (fuel n : nat) : M Generator (option (list Z)) :=
  match n with
  | O => gret (Some [])
  | S n' =>
      let! id := Next fuel in
      let! ids := Nexts fuel n' in
      gret (match id, ids with Some id, Some ids => Some (id :: ids) | _, _ => None end)
  end.

Section Sequence.
Context `{Env}.

Lemma pack_later g g' :
  in_seq (seq g) -> in_seq (seq g') -> in_node (nodeID g) -> nodeID g = nodeID g' -> later g g' ->
  pack (lastTime g) (nodeID g) (seq g) < pack (lastTime g') (nodeID g') (seq g').
Proof.
  unfold in_seq, in_node, pack, later. intros Hs Hs' Hn <- Hl. change (2 ^ 22) with 4194304. lia.
Qed.

Lemma clock_ok_le n m : (n <= m)%nat -> clock_ok n -> clock_ok m.
Proof. intros Hle Hc i j Hi Hj. apply Hc; lia. Qed.

(** Ids after a state are above the id that state would pack. *)
Lemma Nexts_above fuel n (w w' : World Generator) ids :
  clock_ok (calls w) -> gen_ok w -> Nexts fuel n w = (Ok (Some ids), w') ->
  length ids = n /\
  Forall (fun id => pack (lastTime (st w)) (nodeID (st w)) (seq (st w)) < id /\
                    exists t s, in_time t /\ in_seq s /\ id = pack t (nodeID (st w)) s) ids /\
  StronglySorted Z.lt ids.
Proof.
  revert w ids. induction n as [|n IH]; intros w ids Hc Hg; simpl.
  { intros [= <- <-]. split_and!; constructor. }
  unfold gbind. destruct (Next fuel w) as [[[id|]|e] w1] eqn:E1; [| |done];
    destruct (Nexts fuel n w1) as [[[l|]|e] w2] eqn:E2; unfold gret; try done.
  intros [= <- <-]. pose proof Hg as (Hn & Hs & _).
  destruct (Next_later _ _ _ _ Hc Hg E1) as (Hg1 & Hlt & Hnode & Ht & Hlater & ->).
  pose proof Hg1 as (_ & Hs1 & _).
  destruct (IH w1 l (clock_ok_le _ _ (Nat.lt_le_incl _ _ Hlt) Hc) Hg1 E2) as (Hlen & Hall & Hsort).
  assert (Hfirst := pack_later (st w) (st w1) Hs Hs1 Hn (eq_sym Hnode) Hlater).
  rewrite Hnode in *. simpl. split_and!; [by rewrite Hlen| |].
  - constructor; [split; [done|by exists (lastTime (st w1)), (seq (st w1))]|].
    eapply Forall_impl; [exact Hall|]. cbv beta. intros x [Hx He]. split; [lia|done].
  - constructor; [done|]. eapply Forall_impl; [exact Hall|]. by intros x [Hx _].
Qed.

(** C30: under a clock that does not go back, the ids of a generator are 63-bit
    and strictly increasing, carry its node, and so never repeat. *)
Theorem ids_increase fuel n (w w' : World Generator) ids :
  clock_ok (calls w) -> gen_ok w -> Nexts fuel n w = (Ok (Some ids), w') ->
  length ids = n /\ StronglySorted Z.lt ids /\
  Forall (fun id => 0 <= id < 2 ^ 63 /\ id_node id = nodeID (st w) /\ in_time (id_time id)) ids.
Proof.
  intros Hc Hg Hr. destruct (Nexts_above _ _ _ _ _ Hc Hg Hr) as (Hlen & Hall & Hsort).
  destruct Hg as (Hn & _). split_and!; [done|done|]. eapply Forall_impl; [exact Hall|].
  cbv beta. intros id (_ & t & s & Ht & Hs & ->).
  destruct (pack_fields t (nodeID (st w)) s Ht Hn Hs) as (Et & En & _). rewrite Et, En.
  split_and!; [| |done|done]; unfold pack, in_time, in_node, in_seq in *; lia.
Qed.

Lemma wait_past_returns fuel last now (w : World Generator) :
  last < now \/ (exists k, (k < fuel)%nat /\ last < ms (calls w + k)) ->
  exists t, fst (wait_past fuel last now w) = Ok (Some t).
Proof.
  revert now w. induction fuel as [|fuel IH]; intros now w Hk; simpl;
    (destruct (Z.leb_spec now last) as [Hle|Hgt]; [|by eexists]).
  - destruct Hk as [Hk|(k & Hk & _)]; lia.
  - unfold UnixMilli, gbind, gnow, gret. apply IH. cbn [calls]. destruct Hk as [Hk|(k & Hk & Hlt)]; [lia|].
    destruct k as [|k].
    + left. rewrite Nat.add_0_r in Hlt. done.
    + right. exists k. split; [lia|]. by rewrite Nat.add_succ_l, <- Nat.add_succ_r.
Qed.

(** A call returns as soon as the clock passes the last time within the
    fuel. *)
Theorem Next_returns fuel (w : World Generator) k :
  (k < fuel)%nat -> lastTime (st w) < ms (S (calls w) + k) ->
  exists id, fst (Next fuel w) = Ok (Some id).
Proof.
  intros Hk Hlt. unfold Next, UnixMilli, gget, gmodify. unfold gbind, gnow, gret. cbn [st calls].
  destruct (_ =? lastTime (st w)); cbn [st calls]; [|by eexists].
  destruct (_ =? 0); [|by eexists].
  set (w1 := mkWorld _ _). set (now := env_clock _ / _).
  destruct (wait_past_returns fuel (lastTime (st w)) now w1) as [t Ht]; [right; by exists k|].
  destruct (wait_past fuel _ now w1) as [r w2]. simpl in Ht. rewrite Ht. by eexists.
Qed.

Lemma SetNodeID_spec node g :
  (SetNodeID node g = None <-> ~ in_node node) /\
  (in_node node -> SetNodeID node g = Some (mkGenerator node (seq g) (lastTime g))).
Proof.
  unfold SetNodeID, in_node, nodeBits. change (Z.shiftl 1 10 - 1) with 1023.
  destruct (Z.ltb_spec node 0); [simpl; split; [split; [lia|done]|lia]|]. simpl.
  destruct (Z.ltb_spec 1023 node); (split; [split; [try lia; done|try lia; done]|intros; (lia || done)]).
Qed.
End Sequence.

(** * Concrete runs *)
(** A clock that reads the given milliseconds, the last one from then on. *)
Definition clockEnv (l : list Z) : Env :=
  {| env_clock := fun n => List.nth n l (List.last l 0) * 1000000; env_fault := fun _ => None |}.

(** Two ids in one millisecond, then one in the next. *)
Definition tick_env : Env := clockEnv [epoch + 5; epoch + 5; epoch + 6].
Definition gen_7 : World Generator := mkWorld 0 (New 7).
Example three_ids :
  fst (@Nexts tick_env 1 3 gen_7) = Ok (Some [5 * 2 ^ 22 + 7 * 2 ^ 12; 5 * 2 ^ 22 + 7 * 2 ^ 12 + 1; 6 * 2 ^ 22 + 7 * 2 ^ 12]).
Proof. vm_compute. reflexivity. Qed.

(** When the clock goes back and catches up, an id is issued twice. *)
Theorem clock_back_repeats :
  exists a b, fst (@Nexts (clockEnv [epoch + 5; epoch + 4; epoch + 5]) 1 3 gen_7) = Ok (Some [a; b; a]).
Proof. eexists _, _. vm_compute. reflexivity. Qed.

Lemma tick_clock_ok : @clock_ok tick_env 0.
Proof.
  intros i j _ Hij. unfold in_time, ms. cbn [env_clock tick_env clockEnv].
  rewrite Z.div_mul by lia.
  assert (Hv : forall k, List.nth k [epoch + 5; epoch + 5; epoch + 6] (epoch + 6)
                 = if (k <? 2)%nat then epoch + 5 else epoch + 6) by (intros [|[|[|[|k]]]]; done).
  cbn [List.last]. rewrite !Hv. destruct (Nat.ltb_spec i 2), (Nat.ltb_spec j 2); lia.
Qed.

Lemma gen_7_ok : @gen_ok tick_env gen_7.
Proof.
  unfold gen_ok, in_node, in_seq. cbn. split_and!; try lia. intros i _.
  destruct (tick_clock_ok i i (Nat.le_0_l _) (Nat.le_refl _)) as [_ Ht]. unfold in_time, epoch in Ht. lia.
Qed.

Lemma ids_increase_witness :
  exists ids, fst (@Nexts tick_env 1 3 gen_7) = Ok (Some ids) /\ StronglySorted Z.lt ids.
Proof.
  eexists. split; [exact three_ids|].
  apply (@ids_increase tick_env 1 3 gen_7 (snd (@Nexts tick_env 1 3 gen_7)) _ tick_clock_ok gen_7_ok).
  rewrite (surjective_pairing (@Nexts tick_env 1 3 gen_7)). by rewrite three_ids.
Defined.

Lemma Next_returns_witness : exists id, fst (@Next tick_env 3 (mkWorld 0 (mkGenerator 7 4095 (epoch + 5)))) = Ok (Some id).
Proof.
  apply (@Next_returns tick_env 3 (mkWorld 0 (mkGenerator 7 4095 (epoch + 5))) 1); [lia|].
  vm_compute. reflexivity.
Defined.
