(* ===== verification/Crypto.v ===== *)
(** [src/encryptor]: padding, AES and Blowfish in CBC and CFB mode, Base64, and
    [src/settings/secret.go] on top of them.

    A byte is a [Z] in 0..255.  The modes and Base64 are the standard library's
    algorithms written out; the block ciphers themselves, the random source and
    Base58 are parameters.  A Go panic is the [Panic] of [Prelude.Panics]. *)
From S2P Require Import Prelude.

Definition bytes : Type := list Z.
Definition is_byte (b : Z) : Prop := 0 <= b < 256.
Definition Out (A : Type) : Type := Panics (Res A).

(** [x, err := f(); if err != nil { return err }] where [f] may panic. *)
Definition obind {A B} (m : Out A) (k : A -> Out B) : Out B :=
  match m with
  | Val (Ok a) => k a
  | Val (Err e) => Val (Err e)
  | Panic v => Panic v
  end.
Notation "'letx' x := m 'in' k" := (obind m (fun x => k))
  (at level 10, x pattern, m at level 100, k at level 200) : go_scope.
Definition oret {A} (a : A) : Out A := Val (Ok a).
Definition oerr {A} (e : error) : Out A := Val (Err e).

(** * [padding.go] *)
Definition pad (cipherText : bytes) (blockSize : Z) : bytes :=
  let padding := blockSize - Z.of_nat (length cipherText) mod blockSize in
  cipherText ++ repeat (padding mod 256) (Z.to_nat padding).

Definition unpad (plainText : bytes) : Panics bytes :=
  match last plainText with
  | None => Panic "runtime error: index out of range [-1]"
  | Some unpadding =>
      if Z.of_nat (length plainText) <? unpadding
      then Panic "runtime error: slice bounds out of range"
      else Val (take (length plainText - Z.to_nat unpadding) plainText)
  end.

(** * Modes of [crypto/cipher] *)
(** A block cipher under a key: the check of the key and the two directions. *)
Class BlockCipher : Type := {
  BlockSize : nat;
  NewCipher : bytes -> option error;
  enc_block : bytes -> bytes -> bytes;
  dec_block : bytes -> bytes -> bytes;
}.
Class BlockCipherOk (B : BlockCipher) : Prop := {
  BlockSize_pos : (0 < BlockSize)%nat;
  enc_length : forall k b, length b = BlockSize -> length (enc_block k b) = BlockSize;
  dec_length : forall k b, length b = BlockSize -> length (dec_block k b) = BlockSize;
  dec_enc : forall k b, NewCipher k = None -> length b = BlockSize -> Forall is_byte b ->
              dec_block k (enc_block k b) = b;
  enc_bytes : forall k b, length b = BlockSize -> Forall is_byte (enc_block k b);
}.

Definition xor_bytes (a b : bytes) : bytes := zip_with Z.lxor a b.

Section Modes.
Context `{BlockCipher}.

(** [NewCBCEncrypter(block, iv).CryptBlocks(dst, src)] on full blocks. *)
Fixpoint cbc_enc (fuel : nat) (key iv src : bytes) : bytes :=
  match fuel, src with
  | S fuel', _ :: _ =>
      let c := enc_block key (xor_bytes (take BlockSize src) iv) in
      c ++ cbc_enc fuel' key c (drop BlockSize src)
  | _, _ => []
  end.
Fixpoint cbc_dec (fuel : nat) (key iv src : bytes) : bytes :=
  match fuel, src with
  | S fuel', _ :: _ =>
      let c := take BlockSize src in
      xor_bytes (dec_block key c) iv ++ cbc_dec fuel' key c (drop BlockSize src)
  | _, _ => []
  end.

(** The checks of [CryptBlocks] and of the constructor. *)
Definition crypt_blocks (f : nat -> bytes -> bytes -> bytes -> bytes) (key iv src : bytes) : Panics bytes :=
  if negb (length iv =? BlockSize)%nat
  then Panic "cipher.NewCBC: IV length must equal block size"
  else if negb (length src mod BlockSize =? 0)%nat
       then Panic "crypto/cipher: input not full blocks"
       else Val (f (length src) key iv src).

(** CFB: each block is XORed with the encryption of the ciphertext before it;
    the last block may be short. *)
Fixpoint cfb_enc (fuel : nat) (key iv src : bytes) : bytes :=
  match fuel, src with
  | S fuel', _ :: _ =>
      let c := xor_bytes (take BlockSize src) (enc_block key iv) in
      c ++ cfb_enc fuel' key c (drop BlockSize src)
  | _, _ => []
  end.
Fixpoint cfb_dec (fuel : nat) (key iv src : bytes) : bytes :=
  match fuel, src with
  | S fuel', _ :: _ =>
      let c := take BlockSize src in
      xor_bytes c (enc_block key iv) ++ cfb_dec fuel' key c (drop BlockSize src)
  | _, _ => []
  end.

(** [v] of a run that may panic, as a result. *)
Definition ok_or_panic {A} (p : Panics A) : Out A :=
  match p with Val a => Val (Ok a) | Panic v => Panic v end.
Definition new_cipher (key : bytes) : Out unit :=
  match NewCipher key with Some err => oerr err | None => oret tt end.

(** * [aes.go]: the IV is the first block of the key *)
Definition AesEncrypt (key plainText : bytes) : Out bytes :=
  letx _ := new_cipher key in
  let blockSize := BlockSize in
  let plainText := pad plainText (Z.of_nat blockSize) in
  ok_or_panic (crypt_blocks cbc_enc key (take blockSize key) plainText).

Definition AesDecrypt (key cipherText : bytes) : Out bytes :=
  letx _ := new_cipher key in
  let blockSize := BlockSize in
  letx plainText := ok_or_panic (crypt_blocks cbc_dec key (take blockSize key) cipherText) in
  ok_or_panic (unpad plainText).

(** [EncryptAesCBC] and [EncryptBlowfishCBC]: [rnd] is what the random source
    fills the IV with, and the IV goes in front.  The two functions differ in
    their cipher only. *)
Definition EncryptCBC (rnd : Res bytes) (key plainText : bytes) : Out bytes :=
  letx _ := new_cipher key in
  let paddedText := pad plainText (Z.of_nat BlockSize) in
  letx iv := Val rnd in
  letx cipherText := ok_or_panic (crypt_blocks cbc_enc key iv paddedText) in
  oret (iv ++ cipherText).

Definition DecryptCBC (short : string) (key cipherText : bytes) : Out bytes :=
  letx _ := new_cipher key in
  if (length cipherText <? BlockSize)%nat then oerr (ErrNew short)
  else
    let iv := take BlockSize cipherText in
    let cipherText := drop BlockSize cipherText in
    letx plainText := ok_or_panic (crypt_blocks cbc_dec key iv cipherText) in
    ok_or_panic (unpad plainText).

Definition EncryptAesCBC := EncryptCBC.
Definition DecryptAesCBC := DecryptCBC "cipherText too short".
Definition EncryptBlowfishCBC := EncryptCBC.
Definition DecryptBlowfishCBC := DecryptCBC "ciphertext too short".

(** * [blowfish.go] *)
Definition BlowfishEncrypt (rnd : Res bytes) (key plaintext : bytes) : Out bytes :=
  letx _ := new_cipher key in
  letx iv := Val rnd in
  oret (iv ++ cfb_enc (length plaintext) key iv plaintext).

(** The result and what the call leaves in the caller's buffer: the stream is
    applied in place.  A short input gives nil with a nil error. *)
Definition BlowfishDecrypt (key ciphertext : bytes) : Out bytes * bytes :=
  match NewCipher key with
  | Some err => (oerr err, ciphertext)
  | None =>
      if (length ciphertext <? BlockSize)%nat then (oret [], ciphertext)
      else
        let iv := take BlockSize ciphertext in
        let body := drop BlockSize ciphertext in
        let plain := cfb_dec (length body) key iv body in
        (oret plain, iv ++ plain)
  end.
End Modes.

(** * [base64.go]: the standard alphabet with padding *)
Definition b64_alphabet : string :=
  "ABCDEFGHIJKLMNOPQRSTUVWXYZabcdefghijklmnopqrstuvwxyz0123456789+/".
Definition b64_chars : list ascii := list_ascii_of_string b64_alphabet.
Definition b64_char (i : Z) : ascii := nth (Z.to_nat i) b64_chars "000"%char.
Definition b64_index (c : ascii) : option Z :=
  option_map (fun p => Z.of_nat (fst p)) (list_find (fun x => x = c) b64_chars).
Definition b64_pad : ascii := "=".

Fixpoint b64_encode (src : bytes) : list ascii :=
  match src with
  | a :: b :: c :: rest =>
      let n := a * 65536 + b * 256 + c in
      b64_char (n / 262144) :: b64_char (n / 4096 mod 64) :: b64_char (n / 64 mod 64)
        :: b64_char (n mod 64) :: b64_encode rest
  | [a; b] =>
      let n := a * 65536 + b * 256 in
      [b64_char (n / 262144); b64_char (n / 4096 mod 64); b64_char (n / 64 mod 64); b64_pad]
  | [a] =>
      let n := a * 65536 in
      [b64_char (n / 262144); b64_char (n / 4096 mod 64); b64_pad; b64_pad]
  | [] => []
  end.

(** A full quantum, one ending in [=], one ending in [==]; padding ends the
    text.  Newlines are skipped before this is called. *)
Fixpoint b64_quanta (s : list ascii) : option bytes :=
  match s with
  | [] => Some []
  | c0 :: c1 :: c2 :: c3 :: rest =>
      match b64_index c0, b64_index c1, b64_index c2, b64_index c3 with
      | Some x0, Some x1, Some x2, Some x3 =>
          let n := x0 * 262144 + x1 * 4096 + x2 * 64 + x3 in
          option_map (fun l => n / 65536 :: n / 256 mod 256 :: n mod 256 :: l) (b64_quanta rest)
      | Some x0, Some x1, Some x2, None =>
          let n := x0 * 262144 + x1 * 4096 + x2 * 64 in
          if Ascii.eqb c3 b64_pad
          then match rest with [] => Some [n / 65536; n / 256 mod 256] | _ => None end
          else None
      | Some x0, Some x1, None, None =>
          let n := x0 * 262144 + x1 * 4096 in
          if Ascii.eqb c2 b64_pad && Ascii.eqb c3 b64_pad
          then match rest with [] => Some [n / 65536] | _ => None end
          else None
      | _, _, _, _ => None
      end
  | _ => None
  end.

Definition is_newline (c : ascii) : bool :=
  let n := nat_of_ascii c in (n =? 10)%nat || (n =? 13)%nat.

Definition EncodeBase64 (src : bytes) : string := string_of_list_ascii (b64_encode src).
Definition DecodeBase64 (src : string) : Res bytes :=
  match b64_quanta (List.filter (fun c => negb (is_newline c)) (list_ascii_of_string src)) with
  | Some l => Ok l
  | None => Err (ErrNew "illegal base64 data")
  end.

Definition EncryptToBase64 (ef : bytes -> bytes -> Out bytes) (key src : bytes) : Out string :=
  letx encrypted := ef key src in oret (EncodeBase64 encrypted).
Definition DecryptFromBase64 (df : bytes -> bytes -> Out bytes) (key : bytes) (src : string) : Out bytes :=
  letx buf := Val (DecodeBase64 src) in df key buf.

Definition AesEncryptToBase64 `{BlockCipher} (key plainText : bytes) : Out string :=
  EncryptToBase64 AesEncrypt key plainText.
Definition AesDecryptFromBase64 `{BlockCipher} (key : bytes) (cipherText : string) : Out bytes :=
  DecryptFromBase64 AesDecrypt key cipherText.

(** Base58 is third-party code. *)
Class Base58 : Type := {
  base58_Encode : bytes -> string;
  base58_Decode : string -> Res bytes;
}.
(** [GzipCompress] and [GzipDecompress] of [gzip.go] wrap [compress/gzip]. *)
Class Gzip : Type := {
  GzipCompress : bytes -> Res bytes;
  GzipDecompress : bytes -> Res bytes;
}.
Class ArmourOk (B : Base58) (Z : Gzip) : Prop := {
  base58_undone : forall b, Forall is_byte b -> base58_Decode (base58_Encode b) = Ok b;
  gzip_undone : forall b, Forall is_byte b -> exists c, GzipCompress b = Ok c /\ Forall is_byte c /\ GzipDecompress c = Ok b;
}.
Definition AesEncryptToBase58 `{BlockCipher} `{Base58} (key plainText : bytes) : Out string :=
  letx encripted := AesEncrypt key plainText in oret (base58_Encode encripted).
Definition AesDecryptFromBase58 `{BlockCipher} `{Base58} (key : bytes) (cipherText : string) : Out bytes :=
  letx buf := Val (base58_Decode cipherText) in AesDecrypt key buf.

Definition BlowfishEncryptToBase58 `{BlockCipher} `{Base58} `{Gzip} (rnd : Res bytes) (key plaintext : bytes) : Out string :=
  letx _ := new_cipher key in
  letx iv := Val rnd in
  let ciphertext := iv ++ cfb_enc (length plaintext) key iv plaintext in
  letx comped := Val (GzipCompress ciphertext) in
  oret (base58_Encode comped).
Definition BlowfishDecryptFromBase58 `{BlockCipher} `{Base58} `{Gzip} (key : bytes) (str : string) : Out bytes :=
  letx encod := Val (base58_Decode str) in
  letx ciphertext := Val (GzipDecompress encod) in
  letx _ := new_cipher key in
  if (length ciphertext <? BlockSize)%nat then oret []
  else
    let body := drop BlockSize ciphertext in
    oret (cfb_dec (length body) key (take BlockSize ciphertext) body).

(** * [settings/secret.go] *)
Definition secretEncryptedPrefix : string := "encryped:".
Definition bytes_of (s : string) : bytes :=
  map (fun c => Z.of_nat (nat_of_ascii c)) (list_ascii_of_string s).
Definition string_of (b : bytes) : string :=
  string_of_list_ascii (map (fun z => ascii_of_nat (Z.to_nat z)) b).

Section Secret.
Context `{BlockCipher} (secretAESKey : string).

Definition EncryptSecret (oriData : string) : Panics string :=
  if has_prefix secretEncryptedPrefix oriData then Val oriData
  else match AesEncryptToBase64 (bytes_of secretAESKey) (bytes_of oriData) with
       | Panic v => Panic v
       | Val (Err _) => Val oriData
       | Val (Ok encrypted) => Val (secretEncryptedPrefix ++ encrypted)%string
       end.

Definition DecryptSecret (encData : string) : Panics string :=
  if negb (has_prefix secretEncryptedPrefix encData) then Val encData
  else
    let oriData := str_drop (String.length secretEncryptedPrefix) encData in
    match AesDecryptFromBase64 (bytes_of secretAESKey) oriData with
    | Panic v => Panic v
    | Val (Err _) => Val oriData
    | Val (Ok decrypted) => Val (string_of decrypted)
    end.
End Secret.

(** * Padding *)
Lemma pad_length x bs : 0 < bs ->
  Z.of_nat (length (pad x bs)) = (Z.of_nat (length x) / bs + 1) * bs.
Proof.
  intros Hb. unfold pad. rewrite length_app, repeat_length.
  pose proof (Z.mod_pos_bound (Z.of_nat (length x)) bs Hb). pose proof (Z.div_mod (Z.of_nat (length x)) bs). lia.
Qed.

Lemma last_app_repeat (x : bytes) v n : (0 < n)%nat -> last (x ++ repeat v n) = Some v.
Proof.
  destruct n as [|n]; [lia|]. intros _. replace (S n) with (n + 1)%nat by lia.
  rewrite repeat_app. change (repeat v 1) with [v]. by rewrite app_assoc, last_snoc.
Qed.

(** Unpadding undoes padding for the block sizes a byte can hold. *)
Lemma unpad_pad x bs : 0 < bs < 256 -> unpad (pad x bs) = Val x.
Proof.
  intros Hb. unfold unpad, pad.
  pose proof (Z.mod_pos_bound (Z.of_nat (length x)) bs ltac:(lia)) as Hm.
  set (p := bs - Z.of_nat (length x) mod bs) in *. rewrite Z.mod_small by lia.
  rewrite last_app_repeat by lia. rewrite length_app, repeat_length.
  destruct (Z.ltb_spec (Z.of_nat (length x + Z.to_nat p)) p); [lia|].
  f_equal. rewrite Nat.add_sub. by rewrite take_app_length.
Qed.

Lemma pad_bytes x bs : 0 < bs -> Forall is_byte x -> Forall is_byte (pad x bs).
Proof.
  intros Hb Hx. unfold pad. apply Forall_app. split; [done|]. apply Forall_forall. intros y Hy.
  apply list_elem_of_In, repeat_spec in Hy as ->. unfold is_byte. apply Z.mod_pos_bound. lia.
Qed.

(** * XOR *)
Lemma lxor_byte a b : is_byte a -> is_byte b -> is_byte (Z.lxor a b).
Proof.
  unfold is_byte. intros Ha Hb. split; [apply Z.lxor_nonneg; lia|].
  destruct (Z.eq_dec (Z.lxor a b) 0) as [->|Hn]; [lia|].
  assert (0 < Z.lxor a b) by (pose proof (proj2 (Z.lxor_nonneg a b)); lia).
  change 256 with (2 ^ 8). apply Z.log2_lt_pow2; [done|].
  pose proof (Z.log2_lxor a b ltac:(lia) ltac:(lia)).
  assert (Hl : forall c, 0 <= c < 256 -> Z.log2 c < 8).
  { intros c Hc. destruct (Z.eq_dec c 0) as [->|]; [done|]. apply Z.log2_lt_pow2; lia. }
  pose proof (Hl a Ha). pose proof (Hl b Hb). lia.
Qed.

Lemma xor_bytes_byte a b : Forall is_byte a -> Forall is_byte b -> Forall is_byte (xor_bytes a b).
Proof.
  intros Ha. revert b. induction Ha as [|x a Hx Ha IH]; intros [|y b] Hb; simpl; try constructor.
  - apply Forall_cons_1 in Hb as [Hy Hb]. by apply lxor_byte.
  - apply Forall_cons_1 in Hb as [Hy Hb]. by apply IH.
Qed.

Lemma xor_bytes_twice a b : (length a <= length b)%nat -> xor_bytes (xor_bytes a b) b = a.
Proof.
  revert b. induction a as [|x a IH]; intros [|y b] Hl; simpl in *; [done|done|lia|].
  unfold xor_bytes in *. simpl. rewrite IH by lia. f_equal. by rewrite Z.lxor_assoc, Z.lxor_nilpotent, Z.lxor_0_r.
Qed.

Lemma xor_bytes_length a b : length (xor_bytes a b) = Nat.min (length a) (length b).
Proof. apply length_zip_with. Qed.

(** * The modes undo themselves *)
Section ModesOk.
Context `{B : BlockCipher} `{!BlockCipherOk B}.

Lemma cbc_enc_length n : forall fuel key iv src, length src = (n * BlockSize)%nat -> (n <= fuel)%nat ->
  length iv = BlockSize -> length (cbc_enc fuel key iv src) = length src.
Proof.
  pose proof BlockSize_pos as Hpos.
  induction n as [|n IH]; intros fuel key iv src Hlen Hf Hiv.
  { destruct src; [by destruct fuel|done]. }
  destruct fuel as [|fuel]; [lia|]. destruct src as [|x src]; [simpl in Hlen; lia|].
  cbn [cbc_enc]. set (s := x :: src) in *.
  assert (Hx : length (xor_bytes (take BlockSize s) iv) = BlockSize)
    by (rewrite xor_bytes_length, length_take; lia).
  rewrite length_app, enc_length, IH; rewrite ?length_drop; try lia. by rewrite enc_length.
Qed.

Lemma cbc_enc_bytes n : forall fuel key iv src, length src = (n * BlockSize)%nat ->
  length iv = BlockSize -> Forall is_byte (cbc_enc fuel key iv src).
Proof.
  pose proof BlockSize_pos as Hpos.
  induction n as [|n IH]; intros fuel key iv src Hlen Hiv.
  { destruct src; [by destruct fuel; constructor|done]. }
  destruct fuel as [|fuel]; [constructor|]. destruct src as [|x src]; [constructor|].
  cbn [cbc_enc]. set (s := x :: src) in *.
  assert (Hx : length (xor_bytes (take BlockSize s) iv) = BlockSize)
    by (rewrite xor_bytes_length, length_take; lia).
  apply Forall_app. split; [by apply enc_bytes|].
  apply IH; [rewrite length_drop; lia|by apply enc_length].
Qed.

Lemma cbc_round n : forall fuel fuel' key iv src,
  NewCipher key = None -> Forall is_byte src -> Forall is_byte iv ->
  length src = (n * BlockSize)%nat -> (n <= fuel)%nat -> (n <= fuel')%nat -> length iv = BlockSize ->
  cbc_dec fuel' key iv (cbc_enc fuel key iv src) = src.
Proof.
  pose proof BlockSize_pos as Hpos.
  induction n as [|n IH]; intros fuel fuel' key iv src Hk Hsrc Hivb Hlen Hf Hf' Hiv.
  { destruct src; [|done]. destruct fuel; simpl; by destruct fuel'. }
  destruct fuel as [|fuel]; [lia|]. destruct fuel' as [|fuel']; [lia|].
  destruct src as [|x src]; [simpl in Hlen; lia|].
  cbn [cbc_enc]. set (s := x :: src) in *. set (b := xor_bytes (take BlockSize s) iv).
  assert (Htl : length (take BlockSize s) = BlockSize) by (rewrite length_take; lia).
  assert (Hbl : length b = BlockSize) by (unfold b; rewrite xor_bytes_length; lia).
  assert (Hbb : Forall is_byte b) by (apply xor_bytes_byte; [by apply Forall_take|done]).
  pose proof (enc_length key b Hbl) as Hel. set (c := enc_block key b) in *.
  set (rest := cbc_enc fuel key c (drop BlockSize s)).
  destruct (c ++ rest) as [|y l] eqn:E.
  { apply (f_equal length) in E. rewrite length_app in E. simpl in E. lia. }
  cbn [cbc_dec]. rewrite <- E, take_app_length', drop_app_length' by done.
  unfold c at 1. rewrite dec_enc by done. unfold b.
  rewrite xor_bytes_twice by lia. unfold rest.
  rewrite IH; rewrite ?length_drop; try lia; try done.
  - apply take_drop.
  - by apply Forall_drop.
  - by apply enc_bytes.
Qed.

(** Blocks decrypted after encryption, the checks of both calls included. *)
Lemma crypt_round key iv src :
  NewCipher key = None -> Forall is_byte src -> Forall is_byte iv -> length iv = BlockSize ->
  (length src mod BlockSize = 0)%nat ->
  exists c, crypt_blocks cbc_enc key iv src = Val c /\ length c = length src /\
    crypt_blocks cbc_dec key iv c = Val src.
Proof.
  pose proof BlockSize_pos as Hpos. intros Hk Hs Hib Hil Hm.
  assert (Hn : length src = (length src / BlockSize * BlockSize)%nat)
    by (pose proof (Nat.div_mod_eq (length src) BlockSize); lia).
  assert (Hle : (length src / BlockSize <= length src)%nat) by (apply Nat.Div0.div_le_upper_bound; nia).
  unfold crypt_blocks. rewrite Hil, Nat.eqb_refl, Hm. simpl. eexists. split; [done|].
  pose proof (cbc_enc_length _ (length src) key iv src Hn Hle Hil) as Hl. split; [done|].
  rewrite Hl, Hm. simpl. by rewrite (cbc_round _ _ _ _ _ _ Hk Hs Hib Hn Hle Hle Hil).
Qed.

Lemma padded_full x : (length (pad x (Z.of_nat BlockSize)) mod BlockSize = 0)%nat.
Proof.
  pose proof BlockSize_pos as Hpos.
  assert (Hpz : 0 < Z.of_nat BlockSize) by lia. pose proof (pad_length x _ Hpz) as Hl.
  assert (length (pad x (Z.of_nat BlockSize))
    = (Z.to_nat (Z.of_nat (length x) / Z.of_nat BlockSize + 1) * BlockSize)%nat) as ->.
  { assert (0 <= Z.of_nat (length x) / Z.of_nat BlockSize) by (apply Z.div_pos; lia).
    apply Nat2Z.inj. rewrite Hl, Nat2Z.inj_mul, Z2Nat.id by lia. done. }
  apply Nat.Div0.mod_mul.
Qed.

Lemma CBC_undone key iv short x :
  NewCipher key = None -> (BlockSize < 256)%nat -> length iv = BlockSize -> Forall is_byte iv ->
  Forall is_byte x ->
  exists c, EncryptCBC (Ok iv) key x = oret c /\ DecryptCBC short key c = oret x.
Proof.
  intros Hk Hbs Hil Hib Hx. pose proof BlockSize_pos as Hpos.
  unfold EncryptCBC, DecryptCBC, new_cipher. rewrite Hk. cbn [obind oret].
  destruct (crypt_round key iv (pad x (Z.of_nat BlockSize)) Hk) as (c & -> & Hlc & Hdec);
    [by apply pad_bytes; [lia|]|done|done|apply padded_full|].
  cbn [obind ok_or_panic]. eexists. split; [done|]. rewrite length_app.
  destruct (Nat.ltb_spec (length iv + length c) BlockSize); [lia|].
  rewrite take_app_length', drop_app_length' by done. rewrite Hdec. cbn [obind ok_or_panic].
  by rewrite unpad_pad by lia.
Qed.

(** C34: what [EncryptAesCBC] or [EncryptBlowfishCBC] makes of any bytes,
    decrypts to them with the same key. *)
Theorem CBC_round_trip key iv x :
  NewCipher key = None -> (BlockSize < 256)%nat -> length iv = BlockSize -> Forall is_byte iv ->
  Forall is_byte x ->
  (exists c, EncryptAesCBC (Ok iv) key x = oret c /\ DecryptAesCBC key c = oret x) /\
  (exists c, EncryptBlowfishCBC (Ok iv) key x = oret c /\ DecryptBlowfishCBC key c = oret x).
Proof. intros. split; by apply CBC_undone. Qed.

(** The same for [AesEncrypt], whose IV is the start of the key. *)
Lemma Aes_round_trip key x :
  NewCipher key = None -> (BlockSize < 256)%nat -> (BlockSize <= length key)%nat ->
  Forall is_byte key -> Forall is_byte x ->
  exists c, AesEncrypt key x = oret c /\ AesDecrypt key c = oret x /\
    (length c mod BlockSize = 0)%nat /\ Forall is_byte c.
Proof.
  intros Hk Hbs Hkl Hkb Hx. pose proof BlockSize_pos as Hpos.
  unfold AesEncrypt, AesDecrypt, new_cipher. rewrite Hk. cbn [obind oret].
  destruct (crypt_round key (take BlockSize key) (pad x (Z.of_nat BlockSize)) Hk) as (c & Hc & Hlc & Hdec);
    [by apply pad_bytes; [lia|]|by apply Forall_take|rewrite length_take; lia|apply padded_full|].
  rewrite Hc. cbn [obind ok_or_panic]. exists c. split; [done|]. split; [|split].
  - rewrite Hdec. cbn [obind ok_or_panic]. by rewrite unpad_pad by lia.
  - rewrite Hlc. apply padded_full.
  - unfold crypt_blocks in Hc. destruct (negb _); [done|]. destruct (negb _); [done|].
    injection Hc as <-. pose proof (padded_full x) as Hm.
    apply (cbc_enc_bytes (length (pad x (Z.of_nat BlockSize)) / BlockSize));
      [pose proof (Nat.div_mod_eq (length (pad x (Z.of_nat BlockSize))) BlockSize); lia|].
    rewrite length_take; lia.
Qed.
End ModesOk.

(** * Base64 *)
Definition b64_ok (i : nat) : bool :=
  let c := b64_char (Z.of_nat i) in
  bool_decide (b64_index c = Some (Z.of_nat i)) && negb (is_newline c).
Lemma b64_all_ok : forallb b64_ok (seq 0 64) = true.
Proof. vm_compute. reflexivity. Qed.

Lemma b64_char_ok i : 0 <= i < 64 ->
  b64_index (b64_char i) = Some i /\ is_newline (b64_char i) = false.
Proof.
  intros Hi. pose proof b64_all_ok as Ha. rewrite forallb_forall in Ha.
  specialize (Ha (Z.to_nat i) ltac:(apply in_seq; lia)). unfold b64_ok in Ha.
  rewrite Z2Nat.id in Ha by lia. apply andb_true_iff in Ha as [H1%bool_decide_eq_true H2%negb_true_iff]. done.
Qed.
Lemma b64_pad_ok : b64_index b64_pad = None /\ is_newline b64_pad = false.
Proof. vm_compute. done. Qed.

(** The digits of a 24-bit group, and the group they spell. *)
Lemma b64_digits n : 0 <= n < 16777216 ->
  (0 <= n / 262144 < 64 /\ 0 <= n / 4096 mod 64 < 64 /\ 0 <= n / 64 mod 64 < 64 /\ 0 <= n mod 64 < 64) /\
  n / 262144 * 262144 + n / 4096 mod 64 * 4096 + n / 64 mod 64 * 64 + n mod 64 = n.
Proof. intros Hn. split; [split_and!|]; Z.div_mod_to_equations; lia. Qed.

Lemma three_bytes a b c : is_byte a -> is_byte b -> is_byte c ->
  let n := a * 65536 + b * 256 + c in
  0 <= n < 16777216 /\ n / 65536 = a /\ n / 256 mod 256 = b /\ n mod 256 = c.
Proof. unfold is_byte. intros Ha Hb Hc. cbv zeta. split_and!; Z.div_mod_to_equations; lia. Qed.

Lemma b64_quanta_encode n : forall src, (length src <= n)%nat -> Forall is_byte src ->
  b64_quanta (b64_encode src) = Some src /\
  Forall (fun c => is_newline c = false) (b64_encode src).
Proof.
  destruct b64_pad_ok as [Hp1 Hp2].
  induction n as [|n IH]; intros src Hlen Hb.
  { destruct src; [|simpl in Hlen; lia]. split; [done|constructor]. }
  destruct src as [|a [|b [|c rest]]]; simpl in Hlen.
  - split; [done|constructor].
  - apply Forall_cons_1 in Hb as [Ha _].
    assert (H0 : is_byte 0) by (unfold is_byte; lia).
    destruct (three_bytes a 0 0 Ha H0 H0) as (Hn & E1 & E2 & E3). rewrite !Z.add_0_r in *.
    destruct (b64_digits _ Hn) as [(D0 & D1 & D2 & D3) Hsum].
    assert (Z2 : a * 65536 / 64 mod 64 = 0) by (Z.div_mod_to_equations; lia).
    assert (Z3 : a * 65536 mod 64 = 0) by (Z.div_mod_to_equations; lia). rewrite Z2, Z3 in Hsum.
    destruct (b64_char_ok _ D0) as [I0 N0], (b64_char_ok _ D1) as [I1 N1].
    cbn [b64_encode b64_quanta]. rewrite I0, I1, Hp1. rewrite !Ascii.eqb_refl. cbn [andb].
    rewrite !Z.add_0_r in Hsum. rewrite Hsum, E1. split; [done|]. by repeat constructor.
  - apply Forall_cons_1 in Hb as [Ha Hb]. apply Forall_cons_1 in Hb as [Hb _].
    assert (H0 : is_byte 0) by (unfold is_byte; lia).
    destruct (three_bytes a b 0 Ha Hb H0) as (Hn & E1 & E2 & E3). rewrite !Z.add_0_r in *.
    destruct (b64_digits _ Hn) as [(D0 & D1 & D2 & D3) Hsum].
    assert (Z3 : (a * 65536 + b * 256) mod 64 = 0) by (Z.div_mod_to_equations; lia). rewrite Z3 in Hsum.
    destruct (b64_char_ok _ D0) as [I0 N0], (b64_char_ok _ D1) as [I1 N1], (b64_char_ok _ D2) as [I2 N2].
    cbn [b64_encode b64_quanta]. rewrite I0, I1, I2, Hp1, Ascii.eqb_refl.
    rewrite Z.add_0_r in Hsum. rewrite Hsum, E1, E2. split; [done|]. by repeat constructor.
  - apply Forall_cons_1 in Hb as [Ha Hb]. apply Forall_cons_1 in Hb as [Hb Hc].
    apply Forall_cons_1 in Hc as [Hc Hrest].
    destruct (three_bytes a b c Ha Hb Hc) as (Hn & E1 & E2 & E3).
    destruct (b64_digits _ Hn) as [(D0 & D1 & D2 & D3) Hsum].
    destruct (b64_char_ok _ D0) as [I0 N0], (b64_char_ok _ D1) as [I1 N1], (b64_char_ok _ D2) as [I2 N2],
      (b64_char_ok _ D3) as [I3 N3].
    destruct (IH rest ltac:(lia) Hrest) as [IHq IHn].
    cbn [b64_encode b64_quanta]. rewrite I0, I1, I2, I3, IHq, Hsum, E1, E2, E3. split; [done|].
    by repeat (constructor; [done|]).
Qed.

(** Decoding undoes encoding on any bytes. *)
Lemma base64_round_trip src : Forall is_byte src -> DecodeBase64 (EncodeBase64 src) = Ok src.
Proof.
  intros Hb. destruct (b64_quanta_encode (length src) src (Nat.le_refl _) Hb) as [Hq Hn].
  unfold DecodeBase64, EncodeBase64. rewrite list_ascii_of_string_of_list_ascii.
  replace (List.filter _ (b64_encode src)) with (b64_encode src); [by rewrite Hq|].
  clear Hq. induction Hn as [|c l Hc Hl IH]; [done|]. simpl. rewrite Hc. simpl. by rewrite <- IH.
Qed.

(** * Secrets *)
Lemma bytes_of_bytes s : Forall is_byte (bytes_of s).
Proof.
  unfold bytes_of. apply Forall_forall. intros x Hx. apply list_elem_of_In, in_map_iff in Hx as (c & <- & _).
  unfold is_byte. pose proof (nat_ascii_bounded c). lia.
Qed.
Lemma string_of_bytes_of s : string_of (bytes_of s) = s.
Proof.
  unfold string_of, bytes_of. rewrite map_map, (map_ext _ id).
  - rewrite map_id. apply string_of_list_ascii_of_string.
  - intros c. by rewrite Nat2Z.id, ascii_nat_embedding.
Qed.

Section SecretOk.
Context `{B : BlockCipher} `{!BlockCipherOk B} (secretAESKey : string).
Hypotheses (Hkey : NewCipher (bytes_of secretAESKey) = None)
  (Hbs : (BlockSize < 256)%nat) (Hlen : (BlockSize <= length (bytes_of secretAESKey))%nat).

Lemma secret_undone s :
  has_prefix secretEncryptedPrefix s = false ->
  exists e, EncryptSecret secretAESKey s = Val e /\ has_prefix secretEncryptedPrefix e = true /\
    EncryptSecret secretAESKey e = Val e /\ DecryptSecret secretAESKey e = Val s.
Proof.
  intros Hs. unfold EncryptSecret at 1. rewrite Hs. unfold AesEncryptToBase64, EncryptToBase64.
  destruct (Aes_round_trip (bytes_of secretAESKey) (bytes_of s) Hkey Hbs Hlen (bytes_of_bytes _) (bytes_of_bytes _))
    as (c & -> & Hdec & _ & Hcb). cbn [obind oret].
  eexists. split; [done|]. split; [apply has_prefix_app|]. split.
  - unfold EncryptSecret. by rewrite has_prefix_app.
  - unfold DecryptSecret. rewrite has_prefix_app, str_drop_app. cbn [negb].
    unfold AesDecryptFromBase64, DecryptFromBase64. rewrite base64_round_trip by done. cbn [obind].
    rewrite Hdec. cbn. by rewrite string_of_bytes_of.
Qed.

(** An encrypted secret is marked, encrypting it again changes nothing, and
    decrypting it gives the text back; this needs the text not to start with
    the mark itself. *)
Theorem secret_round_trip s :
  has_prefix secretEncryptedPrefix s = false ->
  exists e, EncryptSecret secretAESKey s = Val e /\ has_prefix secretEncryptedPrefix e = true /\
    EncryptSecret secretAESKey e = Val e /\ DecryptSecret secretAESKey e = Val s.
Proof. apply secret_undone. Qed.
End SecretOk.

(** * CFB *)
Section Cfb.
Context `{B : BlockCipher} `{!BlockCipherOk B}.

Lemma cfb_round : forall fuel fuel' key iv src,
  (length src <= fuel)%nat -> (length src <= fuel')%nat -> length iv = BlockSize ->
  length (cfb_enc fuel key iv src) = length src /\ cfb_dec fuel' key iv (cfb_enc fuel key iv src) = src.
Proof.
  pose proof BlockSize_pos as Hpos.
  induction fuel as [|fuel IH]; intros fuel' key iv src Hf Hf' Hiv.
  { destruct src; [by destruct fuel'|simpl in Hf; lia]. }
  destruct src as [|x src]; [by destruct fuel'|]. destruct fuel' as [|fuel']; [simpl in Hf'; lia|].
  cbn [cfb_enc]. set (s := x :: src) in *. pose proof (enc_length key iv Hiv) as Hel.
  assert (Hts : length (take BlockSize s) = Nat.min BlockSize (length s)) by apply length_take.
  set (c := xor_bytes (take BlockSize s) (enc_block key iv)).
  assert (Hcl : length c = Nat.min BlockSize (length s)) by (unfold c; rewrite xor_bytes_length; lia).
  assert (Hsl : (0 < length s)%nat) by (simpl; lia).
  destruct (decide (length s <= BlockSize)%nat) as [Hle|Hgt].
  - rewrite (drop_ge s) by done. replace (cfb_enc fuel key c []) with (@nil Z) by (by destruct fuel).
    rewrite app_nil_r. split; [lia|].
    destruct c as [|y l] eqn:E; [simpl in Hcl; lia|]. cbn [cfb_dec]. rewrite <- E in *.
    rewrite (take_ge c), (drop_ge c) by lia. replace (cfb_dec fuel' key c []) with (@nil Z) by (by destruct fuel').
    unfold c. rewrite app_nil_r, xor_bytes_twice by lia. by rewrite take_ge.
  - assert (Hc : length c = BlockSize) by lia.
    destruct (IH fuel' key c (drop BlockSize s)) as [IHl IHd];
      [rewrite length_drop; lia|rewrite length_drop; simpl in *; lia|done|].
    rewrite length_app, IHl, length_drop. split; [lia|].
    destruct (c ++ _) as [|y l] eqn:E.
    { apply (f_equal length) in E. rewrite length_app in E. simpl in E. lia. }
    cbn [cfb_dec]. rewrite <- E, take_app_length', drop_app_length' by done. rewrite IHd.
    unfold c. rewrite xor_bytes_twice by lia. apply take_drop.
Qed.

Lemma cfb_enc_bytes : forall fuel key iv src, (length src <= fuel)%nat -> length iv = BlockSize ->
  Forall is_byte src -> Forall is_byte (cfb_enc fuel key iv src).
Proof.
  pose proof BlockSize_pos as Hpos.
  induction fuel as [|fuel IH]; intros key iv src Hf Hiv Hsrc; [constructor|]. destruct src as [|x src]; [constructor|].
  cbn [cfb_enc]. set (s := x :: src) in *. set (c := xor_bytes _ _).
  assert (Hc : Forall is_byte c) by (apply xor_bytes_byte; [by apply Forall_take|by apply enc_bytes]).
  apply Forall_app. split; [done|].
  destruct (decide (length s <= BlockSize)%nat) as [Hle|Hgt].
  { rewrite (drop_ge s) by done. destruct fuel; constructor. }
  apply IH; [rewrite length_drop; simpl in *; lia| |by apply Forall_drop].
  unfold c. rewrite xor_bytes_length, length_take, enc_length by done. lia.
Qed.

(** Decryption undoes [BlowfishEncrypt], and leaves the plain text, not the
    cipher text, in the caller's buffer. *)
Lemma Blowfish_round_trip key iv x :
  NewCipher key = None -> length iv = BlockSize ->
  exists c, BlowfishEncrypt (Ok iv) key x = oret c /\ BlowfishDecrypt key c = (oret x, iv ++ x).
Proof.
  intros Hk Hiv. unfold BlowfishEncrypt, BlowfishDecrypt, new_cipher. rewrite Hk. cbn [obind oret].
  eexists. split; [done|]. rewrite length_app.
  destruct (Nat.ltb_spec (length iv + length (cfb_enc (length x) key iv x)) BlockSize); [lia|].
  rewrite take_app_length', drop_app_length' by done.
  destruct (cfb_round (length x) (length x) key iv x) as [Hl Hd]; [done..|]. rewrite Hl, Hd. done.
Qed.

(** The Base58 forms are undone as well, through any compression that is. *)
Lemma armoured_round_trip `{Base58} `{Gzip} `{!ArmourOk _ _} key iv x :
  NewCipher key = None -> (BlockSize < 256)%nat -> length iv = BlockSize -> (BlockSize <= length key)%nat ->
  Forall is_byte key -> Forall is_byte iv -> Forall is_byte x ->
  (exists s, BlowfishEncryptToBase58 (Ok iv) key x = oret s /\ BlowfishDecryptFromBase58 key s = oret x) /\
  (exists s, AesEncryptToBase58 key x = oret s /\ AesDecryptFromBase58 key s = oret x).
Proof.
  intros Hk Hbs Hiv Hkl Hkb Hib Hx. split.
  - unfold BlowfishEncryptToBase58, BlowfishDecryptFromBase58, new_cipher. rewrite Hk. cbn [obind oret].
    destruct (gzip_undone (iv ++ cfb_enc (length x) key iv x)) as (c & -> & Hc & Hd).
    { apply Forall_app. split; [done|]. by apply cfb_enc_bytes. }
    cbn [obind]. eexists. split; [done|]. rewrite base58_undone by done. cbn [obind oret]. rewrite Hd. cbn [obind].
    rewrite length_app. destruct (Nat.ltb_spec (length iv + length (cfb_enc (length x) key iv x)) BlockSize); [lia|].
    rewrite take_app_length', drop_app_length' by done.
    destruct (cfb_round (length x) (length x) key iv x) as [Hl ?]; [done..|]. by rewrite Hl; f_equal.
  - unfold AesEncryptToBase58, AesDecryptFromBase58.
    destruct (Aes_round_trip key x) as (c & -> & Hd & _ & Hc); [done..|]. cbn [obind oret]. eexists. split; [done|].
    rewrite base58_undone by done. exact Hd.
Qed.
End Cfb.

(** * A toy cipher with AES's sizes *)
Definition toy_key (k : bytes) : bytes := map (fun z => z mod 256) (take 16 (k ++ repeat 0 16)).
Definition toy_block (k b : bytes) : bytes := map (fun z => z mod 256) (xor_bytes b (toy_key k)).
Definition toyAES : BlockCipher := {|
  BlockSize := 16;
  NewCipher k := if existsb (Nat.eqb (length k)) [16; 24; 32]%nat then None
                 else Some (ErrNew "crypto/aes: invalid key size");
  enc_block := toy_block;
  dec_block := toy_block;
|}.

Lemma toy_key_length k : length (toy_key k) = 16%nat.
Proof. unfold toy_key. rewrite length_map, length_take, length_app, repeat_length. lia. Qed.
Lemma toy_key_bytes k : Forall is_byte (toy_key k).
Proof.
  apply Forall_forall. intros x Hx. apply list_elem_of_In, in_map_iff in Hx as (z & <- & _).
  unfold is_byte. apply Z.mod_pos_bound. lia.
Qed.
Lemma mod_bytes l : Forall is_byte l -> map (fun z => z mod 256) l = l.
Proof. induction 1 as [|x l Hx Hl IH]; [done|]. simpl. rewrite IH. f_equal. by apply Z.mod_small. Qed.

Lemma toyAESOk : BlockCipherOk toyAES.
Proof.
  assert (Hl : forall k b, length b = 16%nat -> length (toy_block k b) = 16%nat).
  { intros k b Hb. unfold toy_block. rewrite length_map, xor_bytes_length, toy_key_length. lia. }
  constructor; simpl; try done; [lia| |].
  - intros k b _ Hb Hbytes. unfold toy_block. pose proof (toy_key_bytes k) as Hk.
    rewrite (mod_bytes (xor_bytes b _)) by (by apply xor_bytes_byte).
    rewrite xor_bytes_twice by (rewrite toy_key_length; lia). by apply mod_bytes.
  - intros k b _. apply Forall_forall. intros x Hx. apply list_elem_of_In, in_map_iff in Hx as (z & <- & _).
    unfold is_byte. apply Z.mod_pos_bound. lia.
Qed.

(** The default key of the settings package. *)
Definition default_key : string := "T651qzaEFL6Dpudy".
Example default_key_valid : @NewCipher toyAES (bytes_of default_key) = None.
Proof. vm_compute. reflexivity. Qed.
Lemma byte_list l : forallb (fun z => (0 <=? z) && (z <? 256)) l = true -> Forall is_byte l.
Proof.
  rewrite forallb_forall. intros Hl. apply Forall_forall. intros x Hx. unfold is_byte.
  specialize (Hl x (proj1 (list_elem_of_In _ _) Hx)). lia.
Qed.
Definition demo_iv : bytes := map Z.of_nat (seq 100 16).

Example pad_example : pad [1; 2; 3] 4 = [1; 2; 3; 1] /\ pad [] 3 = [3; 3; 3].
Proof. vm_compute. done. Qed.
Example base64_example : EncodeBase64 (bytes_of "Man") = "TWFu"%string /\ EncodeBase64 (bytes_of "M") = "TQ=="%string.
Proof. vm_compute. done. Qed.
(** A stored secret that is not whole blocks takes the process down, as does a
    block that does not end in a padding byte. *)
Example bad_secret_panics :
  @DecryptSecret toyAES default_key "encryped:TWFu" = Panic "crypto/cipher: input not full blocks".
Proof. vm_compute. reflexivity. Qed.

Lemma CBC_round_trip_witness :
  exists c, @EncryptAesCBC toyAES (Ok demo_iv) (bytes_of default_key) (bytes_of "hello") = oret c /\
    @DecryptAesCBC toyAES (bytes_of default_key) c = oret (bytes_of "hello").
Proof.
  apply (@CBC_round_trip toyAES toyAESOk (bytes_of default_key) demo_iv (bytes_of "hello"));
    [exact default_key_valid|simpl; lia|reflexivity|apply byte_list; vm_compute; reflexivity|apply bytes_of_bytes].
Defined.

Lemma secret_round_trip_witness :
  exists e, @EncryptSecret toyAES default_key "hunter2" = Val e /\
    @DecryptSecret toyAES default_key e = Val "hunter2"%string.
Proof.
  destruct (@secret_round_trip toyAES toyAESOk default_key default_key_valid ltac:(simpl; lia)
    ltac:(simpl; lia) "hunter2" eq_refl) as (e & H1 & _ & _ & H2).
  exists e. split; assumption.
Defined.
