(* ===== verification/Cache.v ===== *)
(** [src/cache]: the cache interface ([cachetype/interface.go]) and its three
    implementations: process memory ([memory/memory.go]), Redis
    ([redis/redis.go]) and a MySQL table ([mysql/mysql.go]).

    [Cache] is the interface, [CacheOk] what a client may rely on: a read gives
    nothing but what was last stored under the key, and nothing after a
    successful delete.  All three satisfy it; how much each of them really
    returns is the subject of the theorems at the end. *)
From S2P Require Import Prelude Mutex.

(** [cachetype.Marshal] and [Unmarshal]: [encoding/json] on the cached type;
    [Unmarshal data v] fills the fields of [v]. *)
Class JsonCodec (V : Type) : Type := {
  jzero : V;
  Marshal : V -> string;
  Unmarshal : string -> V -> Res V;
}.
Class JsonCodecOk (V : Type) (J : JsonCodec V) : Prop := {
  Unmarshal_Marshal : forall v, Unmarshal (Marshal v) jzero = Ok v;
}.

(** [cachetype.Cache] for values of one type; [Get] returns what is left in
    [*val]. *)
Class Cache (C V : Type) : Type := {
  Get : string -> V -> M C V;
  Set_ : string -> V -> Z -> M C unit;
  IsExist : string -> M C bool;
  CDelete : string -> M C unit;
  (* the value stored under a key, readable or not *)
  stored : C -> string -> option V;
}.

(** Nothing is stored that was not there before. *)
Definition no_more {V} (f g : string -> option V) : Prop := forall k x, g k = Some x -> f k = Some x.

Class CacheOk `{Env} (C V : Type) (J : JsonCodec V) (K : Cache C V) : Prop := {
  Get_stored : forall k w v w', Get k jzero w = (Ok v, w') -> v = jzero \/ stored (st w) k = Some v;
  Get_keeps : forall k v0 w, no_more (stored (st w)) (stored (after (Get k v0) w));
  Set_stored : forall k v t w k' x, stored (after (Set_ k v t) w) k' = Some x ->
    (k' = k /\ x = v) \/ stored (st w) k' = Some x;
  Delete_keeps : forall k w, no_more (stored (st w)) (stored (after (CDelete k) w));
  Delete_gone : forall k w w', CDelete k w = (Ok tt, w') -> stored (st w') k = None;
  Delete_ok : forall k w, no_fault_from (calls w) -> fst (CDelete k w) = Ok tt;
}.

(** * Process memory *)
Module Memory.
Record data (V : Type) : Type := mk { Data : V; Expired : Z }.
Arguments mk {V} Data Expired.
Arguments Data {V} d.
Arguments Expired {V} d.
Abbreviation t V := (gmap string (data V)).

Section Memory.
Context `{Env} {V : Type}.

Definition deleteKey (key : string) : M (t V) unit := gmodify (delete key).

(** [val = ret.Data] assigns the parameter, not what it points to; a missing
    key is no error. *)
Definition Get (key : string) (val : V) : M (t V) V :=
  let! mem := gget in
  match mem !! key with
  | Some ret =>
      let! now := gnow in
      if ret.(Expired) <? now
      then deleteKey key ;;; graise (ErrNew ("key(" ++ key ++ ") expired"))
      else gret val
  | None => gret val
  end.

Definition IsExist (key : string) : M (t V) bool :=
  let! mem := gget in
  match mem !! key with
  | Some ret =>
      let! now := gnow in
      if ret.(Expired) <? now then deleteKey key ;;; gret false else gret true
  | None => gret false
  end.

Definition Set_ (key : string) (val : V) (timeout : Z) : M (t V) unit :=
  let! now := gnow in gmodify (<[key := mk val (now + timeout)]>).

Definition Delete (key : string) : M (t V) unit := deleteKey key.
End Memory.
End Memory.

#[export] Instance MemoryCache `{Env} {V} : Cache (Memory.t V) V := {
  Get := Memory.Get;
  Set_ := Memory.Set_;
  IsExist := Memory.IsExist;
  CDelete := Memory.Delete;
  stored c k := Memory.Data <$> c !! k;
}.

(** * Redis *)
(** [SET key value EX], next to the commands of [RedisTTL]. *)
Class RedisKV (R : Type) `{RedisTTL R} : Type := { KSet : Z -> string -> string -> Z -> R -> R }.
Class RedisKVOk (R : Type) `{K : RedisKV R} : Prop := {
  KSet_entry : forall now k v ttl r, ttl_entry k (KSet now k v ttl r) = Some (v, now + ttl);
  KSet_other : forall now k k' v ttl r, k <> k' -> ttl_entry k' (KSet now k v ttl r) = ttl_entry k' r;
  KDel_same : forall k (r : R), ttl_entry k (KDel k r) = None;
  KDel_other : forall k k' (r : R), k <> k' -> ttl_entry k' (KDel k r) = ttl_entry k' r;
}.
#[export] Instance MemKV : RedisKV (gmap string (string * Z)) :=
  {| KSet := fun now k v ttl r => <[k := (v, now + ttl)]> r |}.
#[export] Instance MemKVOk : RedisKVOk (gmap string (string * Z)).
Proof.
  constructor; simpl; intros; [apply lookup_insert_eq|by apply lookup_insert_ne|apply lookup_delete_eq|by apply lookup_delete_ne].
Qed.

Definition decode {V} `{JsonCodec V} (s : string) : option V :=
  match Unmarshal s jzero with Ok v => Some v | Err _ => None end.

Module Redis.
Section Redis.
Context `{Env} {R : Type} `{RedisKV R} {V : Type} `{JsonCodec V}.

Definition Get (key : string) (reply : V) : M R V :=
  let! data := kv (fun now r => (ttl_get now key r, r)) in
  match data with
  | None => graise redis_Nil
  | Some data => fun w => (Unmarshal data reply, w)
  end.
Definition Set_ (key : string) (val : V) (timeout : Z) : M R unit :=
  kv (fun now r => (tt, KSet now key (Marshal val) timeout r)).
(** [Val()] drops the error: a failed call answers 0. *)
Definition IsExist (key : string) : M R bool :=
  let! i := gtry (kv (fun now r => (bool_decide (is_Some (ttl_get now key r)), r))) in
  gret match i with Ok b => b | Err _ => false end.
Definition Delete (key : string) : M R unit := kv (fun _ r => (tt, KDel key r)).
End Redis.
End Redis.

Definition redis_stored {R V} `{RedisTTL R} `{JsonCodec V} (c : R) (k : string) : option V :=
  match ttl_entry k c with Some (s, _) => decode s | None => None end.

(** [SET] and [DEL] through the cache are the commands of the class. *)
Definition RedisCache `{Env} {R} `{RedisKV R} {V} `{JsonCodec V} : Cache R V := {|
  Get := Redis.Get;
  Set_ := Redis.Set_;
  IsExist := Redis.IsExist;
  CDelete := Redis.Delete;
  stored := redis_stored;
|}.

(** * A MySQL table *)
Module Mysql.
Record CacheVal : Type := mk { Val_ : string; ExpiredAt : Z; Version : Z }.
(** The table by primary key.  [Version] is a [smallint unsigned], and a value
    that does not fit is refused; the sizes of the text columns and the
    rounding of the timestamp to seconds are left out. *)
Definition MaxVersion : Z := 65535.
Abbreviation t := (gmap string CacheVal).
Definition ErrRecordNotFound : error := ErrVar "record not found".

Section Mysql.
Context `{Env} {V : Type} `{JsonCodec V}.

Definition getCacheVal (key : string) : M t CacheVal :=
  gextr (fun db => (match db !! key with
                    | Some cv => if str_eqb key "" then Err ErrRecordNotFound else Ok cv
                    | None => Err ErrRecordNotFound
                    end, db)).

(** The comparison is the wrong way round: a value is refused while it is
    alive. *)
Definition Get (key : string) (val : V) : M t V :=
  let! cv := getCacheVal key in
  let! now := gnow in
  if now <? cv.(ExpiredAt) then graise (ErrNew ("key(" ++ key ++ ") expired"))
  else fun w => (Unmarshal cv.(Val_) val, w).

Definition Set_ (key : string) (val : V) (timeout : Z) : M t unit :=
  let! cv := gtry (getCacheVal key) in
  let! now := gnow in
  match cv with
  | Err _ =>
      gextr (fun db => match db !! key with
                       | Some _ => (Err (ErrVar "Error 1062: Duplicate entry"), db)
                       | None => (Ok tt, <[key := mk (Marshal val) (now + timeout) 0]> db)
                       end)
  | Ok cv =>
      gextr (fun db => match db !! key with
                       | Some old =>
                           if old.(Version) =? cv.(Version)
                           then if old.(Version) <? MaxVersion
                                then (Ok tt, <[key := mk (Marshal val) (now + timeout) (old.(Version) + 1)]> db)
                                else (Err (ErrVar "Error 1264: Out of range value for column 'version'"), db)
                           else (Ok tt, db)
                       | None => (Ok tt, db)
                       end)
  end.

Definition IsExist (key : string) : M t bool :=
  let! now := gnow in
  let! count := gtry (gext (fun db =>
    (match db !! key with Some cv => now <? cv.(ExpiredAt) | None => false end, db))) in
  gret match count with Ok b => b | Err _ => false end.

Definition Delete (key : string) : M t unit := gext (fun db => (tt, delete key db)).
End Mysql.
End Mysql.

Definition mysql_stored {V} `{JsonCodec V} (c : Mysql.t) (k : string) : option V :=
  match c !! k with Some cv => decode cv.(Mysql.Val_) | None => None end.
Definition MysqlCache `{Env} {V} `{JsonCodec V} : Cache Mysql.t V := {|
  Get := Mysql.Get;
  Set_ := Mysql.Set_;
  IsExist := Mysql.IsExist;
  CDelete := Mysql.Delete;
  stored := mysql_stored;
|}.

(** * The implementations keep the promise *)
Section Ok.
Context `{Env} {V : Type} {J : JsonCodec V} `{!JsonCodecOk V J}.

Lemma no_more_refl (f : string -> option V) : no_more f f.
Proof. by intros k x. Qed.
Lemma decode_Marshal (v : V) : decode (Marshal v) = Some v.
Proof. unfold decode. by rewrite Unmarshal_Marshal. Qed.
Lemma decode_inv s (v : V) : Unmarshal s jzero = Ok v -> decode s = Some v.
Proof. unfold decode. by intros ->. Qed.

Lemma delete_no_more (m : Memory.t V) k :
  no_more (fun i => Memory.Data <$> m !! i) (fun i => Memory.Data <$> delete k m !! i).
Proof.
  intros i x. cbv beta. destruct (decide (i = k)) as [->|]; [by rewrite lookup_delete_eq|by rewrite lookup_delete_ne].
Qed.

#[export] Instance MemoryCacheOk : CacheOk (Memory.t V) V J MemoryCache.
Proof.
  constructor; simpl; unfold after.
  - intros k w v w'. unfold Memory.Get, gget, gbind. cbn. destruct (st w !! k) as [d|].
    + unfold gnow. cbn. destruct (_ <? _); [done|]. intros [= <- <-]. by left.
    + intros [= <- <-]. by left.
  - intros k v0 w. unfold Memory.Get, gget, gbind. cbn. destruct (st w !! k) as [d|]; [|apply no_more_refl].
    unfold gnow. cbn. destruct (_ <? _); [apply delete_no_more|apply no_more_refl].
  - intros k v t w k' x. cbn. destruct (decide (k' = k)) as [->|].
    + rewrite lookup_insert_eq. simpl. intros [= <-]. by left.
    + rewrite lookup_insert_ne by done. by right.
  - intros k w. apply delete_no_more.
  - intros k w w' [= <-]. cbn. by rewrite lookup_delete_eq.
  - done.
Qed.

Lemma RedisCacheOk {R} `{RedisKVOk R} : CacheOk R V J RedisCache.
Proof.
  constructor; simpl; unfold after, redis_stored.
  - intros k w v w'. unfold Redis.Get, kv. intros Hr. go_inv1; [go_inv|].
    apply gext_inv in Hm as (_ & [(e & _ & ? & _)|(_ & [= ->] & Hs)]); [done|].
    simpl in Hs, Hk. unfold ttl_get in Hk. rewrite <- Hs.
    destruct (ttl_entry k (st w)) as [[s d]|] eqn:E; [|done].
    destruct (_ <? d); [|done]. injection Hk as Hk <-. rewrite Hs, E. right. by apply decode_inv.
  - intros k v0 w. unfold Redis.Get, kv, gext, gbind. destruct (env_fault (calls w)); [apply no_more_refl|].
    simpl. destruct (ttl_get _ _ _); apply no_more_refl.
  - intros k v t w k' x. unfold Redis.Set_, kv, gext. destruct (env_fault (calls w)); [by right|]. simpl.
    destruct (decide (k = k')) as [<-|].
    + rewrite KSet_entry, decode_Marshal. intros [= <-]. by left.
    + rewrite KSet_other by done. by right.
  - intros k w. unfold Redis.Delete, kv, gext. destruct (env_fault (calls w)); [apply no_more_refl|]. simpl.
    intros k' x. cbv beta. destruct (decide (k = k')) as [<-|]; [by rewrite KDel_same|by rewrite KDel_other].
  - intros k w w'. unfold Redis.Delete, kv, gext. destruct (env_fault (calls w)); [done|]. intros [= <-]. simpl.
    by rewrite KDel_same.
  - intros k w Hnf. unfold Redis.Delete, kv. by rewrite gext_ok by (by apply Hnf).
Qed.

Lemma MysqlCacheOk : CacheOk Mysql.t V J MysqlCache.
Proof.
  constructor; simpl; unfold after, mysql_stored.
  - intros k w v w'. unfold Mysql.Get, Mysql.getCacheVal. intros Hr. go_inv1; [go_inv|]. go_inv1; [go_inv|].
    apply gextr_inv in Hm as (_ & [(e & _ & ? & _)|(_ & Hv & Hs)]); [done|]. go_inv1. simplify_eq.
    destruct (_ <? _); [done|]. injection Hk0 as Hk0 <-. simpl in Hv, Hs.
    destruct (st w !! k) as [cv'|]; [|done]. destruct (str_eqb k ""); [done|].
    injection Hv as ->. right. by apply decode_inv.
  - intros k v0 w. unfold Mysql.Get, Mysql.getCacheVal, gextr, gbind, gnow.
    destruct (env_fault (calls w)); [apply no_more_refl|]. simpl.
    destruct (st w !! k); [destruct (str_eqb k "")|]; simpl; try apply no_more_refl.
    destruct (_ <? _); apply no_more_refl.
  - intros k v t w k' x. unfold Mysql.Set_, gbind, gtry, gnow.
    destruct (Mysql.getCacheVal k w) as [r w1] eqn:E.
    assert (Hs : st w1 = st w).
    { unfold Mysql.getCacheVal, gextr in E. destruct (env_fault (calls w)); by injection E as _ <-. }
    assert (Hins : forall cv, Mysql.Val_ cv = Marshal v ->
      match <[k := cv]> (st w) !! k' with Some c => decode (Mysql.Val_ c) | None => None end = Some x ->
      k' = k /\ x = v \/ match st w !! k' with Some c => decode (Mysql.Val_ c) | None => None end = Some x).
    { intros cv Hcv. destruct (decide (k' = k)) as [->|].
      - rewrite lookup_insert_eq, Hcv, decode_Marshal. intros [= <-]. by left.
      - rewrite lookup_insert_ne by done. by right. }
    destruct r as [cv|e]; unfold gext, gextr; simpl; rewrite Hs.
    + destruct (env_fault (S (calls w1))); [by right|]. simpl. destruct (st w !! k) as [old|]; [|by right].
      destruct (_ =? _); [|by right]. destruct (_ <? _); [by apply Hins|by right].
    + destruct (env_fault (S (calls w1))); [by right|]. simpl. destruct (st w !! k) as [old|]; [by right|by apply Hins].
  - intros k w. unfold Mysql.Delete, gext. destruct (env_fault (calls w)); [apply no_more_refl|]. simpl.
    intros k' x. cbv beta. destruct (decide (k' = k)) as [->|]; [by rewrite lookup_delete_eq|by rewrite lookup_delete_ne].
  - intros k w w'. unfold Mysql.Delete, gext. destruct (env_fault (calls w)); [done|]. intros [= <-]. simpl.
    by rewrite lookup_delete_eq.
  - intros k w Hnf. unfold Mysql.Delete. by rewrite gext_ok by (by apply Hnf).
Qed.
End Ok.

(** * What a client reads back *)
Section ReadBack.
Context `{Env} {V : Type} {J : JsonCodec V} `{!JsonCodecOk V J}.

(** Store, then read into a zero value. *)
Definition set_get {C} `{K : Cache C V} (k : string) (v : V) (ttl : Z) : M C V :=
  Set_ k v ttl ;;; Get k jzero.

(** Of a value stored within its time to live, Redis gives back the value,
    the memory cache gives no error and no value, and the MySQL cache, whose
    test of the expiry is inverted, an error although [IsExist] holds. *)
Theorem stored_value_read {R} `{RedisKVOk R} k v ttl (wr : World R) (wm : World (Memory.t V)) (wq : World Mysql.t) :
  (forall i j, env_clock j < env_clock i + ttl) -> (forall n, no_fault_from n) -> k <> ""%string ->
  (forall cv, st wq !! k = Some cv -> Mysql.Version cv < Mysql.MaxVersion) ->
  fst (set_get (K := RedisCache) k v ttl wr) = Ok v /\
  fst (set_get (K := MemoryCache) k v ttl wm) = Ok jzero /\
  (exists e, fst (set_get (K := MysqlCache) k v ttl wq) = Err e) /\
  fst (gbind (Mysql.Set_ k v ttl) (fun _ => Mysql.IsExist k) wq) = Ok true.
Proof.
  intros Hc Hnf Hk Hver. assert (Hf : forall n, env_fault n = None) by (intros n; by apply (Hnf n)).
  assert (Hq : exists w1 cv, Mysql.Set_ k v ttl wq = (Ok tt, w1) /\ st w1 !! k = Some cv /\
            exists i, Mysql.ExpiredAt cv = env_clock i + ttl).
  { unfold Mysql.Set_, Mysql.getCacheVal, gbind, gtry, gnow, gextr, gext. rewrite Hf. simpl. unfold str_eqb.
    destruct (String.eqb_spec k "") as [|_]; [done|].
    destruct (st wq !! k) as [cv|] eqn:E; simpl; rewrite Hf; rewrite ?E, ?Z.eqb_refl; simpl;
      [specialize (Hver cv eq_refl); destruct (Z.ltb_spec (Mysql.Version cv) Mysql.MaxVersion); [|lia]|];
      (eexists _, _; split; [reflexivity|]; simpl; rewrite lookup_insert_eq; split; [reflexivity|by eexists]). }
  destruct Hq as (w1 & cv & Hset & Hcv & i & Hexp). split_and!.
  - unfold set_get, gbind. simpl. unfold Redis.Set_, kv. rewrite gext_ok by done. simpl.
    unfold Redis.Get, gbind, kv. rewrite gext_ok by done. simpl. unfold ttl_get. rewrite KSet_entry.
    specialize (Hc (calls wr) (S (calls wr))). destruct (Z.ltb_spec (env_clock (S (calls wr))) (env_clock (calls wr) + ttl)); [|lia].
    simpl. by rewrite Unmarshal_Marshal.
  - unfold set_get, gbind. simpl. unfold Memory.Get, gget, gbind. simpl. rewrite lookup_insert_eq. simpl.
    specialize (Hc (calls wm) (S (calls wm))).
    destruct (Z.ltb_spec (env_clock (calls wm) + ttl) (env_clock (S (calls wm)))); [lia|done].
  - unfold set_get, gbind. simpl. rewrite Hset. unfold Mysql.Get, Mysql.getCacheVal, gbind, gnow, gextr.
    rewrite Hf, Hcv. unfold str_eqb. destruct (String.eqb_spec k "") as [|_]; [done|]. simpl. rewrite Hexp.
    destruct (Z.ltb_spec (env_clock (S (calls w1))) (env_clock i + ttl)); [by eexists|].
    specialize (Hc i (S (calls w1))). lia.
  - unfold gbind. rewrite Hset. unfold Mysql.IsExist, gbind, gnow, gtry. rewrite gext_ok by done. simpl.
    rewrite Hcv, Hexp. specialize (Hc i (calls w1)).
    by destruct (Z.ltb_spec (env_clock (calls w1)) (env_clock i + ttl)); [|lia].
Qed.
End ReadBack.

(** A codec for any countable type: the bits of its code. *)
Fixpoint bits_of (p : positive) : string :=
  match p with
  | xH => ""
  | xO p' => String "0" (bits_of p')
  | xI p' => String "1" (bits_of p')
  end.
Fixpoint of_bits (s : string) : positive :=
  match s with
  | EmptyString => xH
  | String c s' => if Ascii.eqb c "1" then xI (of_bits s') else xO (of_bits s')
  end.
Lemma of_bits_of p : of_bits (bits_of p) = p.
Proof. induction p; simpl; by f_equal. Qed.
Definition coded {V} `{Countable V} (z : V) : JsonCodec V := {|
  jzero := z;
  Marshal v := bits_of (countable.encode v);
  Unmarshal s _ := match countable.decode (of_bits s) with
                   | Some v => Ok v
                   | None => Err (ErrNew "invalid character")
                   end;
|}.
#[export] Instance codedOk {V} `{Countable V} (z : V) : JsonCodecOk V (coded z).
Proof. constructor. intros v. simpl. by rewrite of_bits_of, decode_encode. Qed.
(** A clock that stands still. *)
Definition stillEnv : Env := {| env_clock := fun _ => 1000000000000; env_fault := fun _ => None |}.

Lemma stored_value_read_witness :
  fst (@set_get string (coded "") _ (@RedisCache stillEnv _ MemTTL MemKV string (coded "")) "k" "v" 5 (mkWorld 0 ∅)) = Ok "v"%string /\
  fst (@set_get string (coded "") _ (@MemoryCache stillEnv string) "k" "v" 5 (mkWorld 0 ∅)) = Ok ""%string.
Proof.
  destruct (@stored_value_read stillEnv string (coded "") (codedOk "") (gmap string (string * Z)) MemTTL MemKV MemKVOk "k" "v" 5
    (mkWorld 0 ∅) (mkWorld 0 ∅) (mkWorld 0 ∅)) as (H1 & H2 & _);
    [simpl; lia|intros n i _; reflexivity|discriminate|intros cv Hcv; discriminate|].
  split; assumption.
Defined.
