(* ===== verification/Settings.v ===== *)
(** [src/settings/setting.go]: the settings table with its cache, over the
    interface of [Cache], the table model of [Gorm] and the secrets of
    [Crypto].  A panic of a secret that does not decrypt goes through. *)
From S2P Require Import Prelude Mutex Gorm Crypto Cache.

Definition ValueSecret : string := "secret".
Definition ValuePassword : string := "password".
Definition ValueText : string := "text".
Definition ValueYaml : string := "yaml".

Record SettingItem : Type := mkItem {
  ID : Z; CreatedAt : Z; UpdatedAt : Z; DeletedAt : option Z;
  Group : string; Key : string; Name : string; Describe : string;
  ValueType : string; Value : string; Default : string;
}.
Definition zero_item : SettingItem := mkItem 0 0 0 None "" "" "" "" "" "" "".
Definition with_value (v : string) (i : SettingItem) : SettingItem :=
  mkItem i.(ID) i.(CreatedAt) i.(UpdatedAt) i.(DeletedAt) i.(Group) i.(Key) i.(Name) i.(Describe) i.(ValueType) v i.(Default).

(** * The table: [idx_setting] is unique on group and key, deleted rows
    included; a zero value type takes the column default; the upsert assigns
    five columns. *)
Definition item_create (now id : Z) (i : SettingItem) : SettingItem :=
  mkItem (nz i.(ID) id) (nz i.(CreatedAt) now) (nz i.(UpdatedAt) now) i.(DeletedAt) i.(Group) i.(Key)
    i.(Name) i.(Describe) (nzs i.(ValueType) ValueText) i.(Value) i.(Default).
Definition item_touch (now : Z) (i : SettingItem) : SettingItem :=
  mkItem i.(ID) i.(CreatedAt) now i.(DeletedAt) i.(Group) i.(Key) i.(Name) i.(Describe) i.(ValueType) i.(Value) i.(Default).
Definition item_deleted (d : option Z) (i : SettingItem) : SettingItem :=
  mkItem i.(ID) i.(CreatedAt) i.(UpdatedAt) d i.(Group) i.(Key) i.(Name) i.(Describe) i.(ValueType) i.(Value) i.(Default).
Definition item_updates (now : Z) (e t : SettingItem) : SettingItem :=
  mkItem (nz e.(ID) t.(ID)) (nz e.(CreatedAt) t.(CreatedAt)) now (nzo e.(DeletedAt) t.(DeletedAt))
    (nzs e.(Group) t.(Group)) (nzs e.(Key) t.(Key)) (nzs e.(Name) t.(Name)) (nzs e.(Describe) t.(Describe))
    (nzs e.(ValueType) t.(ValueType)) (nzs e.(Value) t.(Value)) (nzs e.(Default) t.(Default)).
Definition item_assign (now : Z) (e t : SettingItem) : SettingItem :=
  mkItem t.(ID) t.(CreatedAt) t.(UpdatedAt) t.(DeletedAt) t.(Group) t.(Key)
    e.(Name) e.(Describe) e.(ValueType) e.(Value) e.(Default).
Definition same_key (a b : SettingItem) : bool := str_eqb a.(Group) b.(Group) && str_eqb a.(Key) b.(Key).

#[export] Instance item_model : GormModel SettingItem := {
  m_zero := zero_item;
  m_id := ID;
  m_deleted := DeletedAt;
  m_set_deleted := item_deleted;
  m_touch := item_touch;
  m_create := item_create;
  m_updates := item_updates;
  m_upsert := item_assign;
  m_collide a b := (a.(ID) =? b.(ID)) || same_key a b;
}.

Record Sys (C : Type) : Type := mkSys { table : GTab SettingItem; kvs : C }.
Arguments mkSys {C} table kvs.
Arguments table {C} s.
Arguments kvs {C} s.
#[export] Instance item_tab {C} : HasTab (Sys C) SettingItem := {
  get_tab := table; set_tab t s := mkSys t s.(kvs) }.

(** [fmt.Sprintf("core_setting::%s::%s", group, key)]. *)
Definition redisCacheKey (group key : string) : string := "core_setting::" ++ group ++ "::" ++ key.
Definition Identify (item : SettingItem) : string := item.(Group) ++ "/" ++ item.(Key).
Definition is_secret (item : SettingItem) : bool :=
  str_eqb item.(ValueType) ValueSecret || str_eqb item.(ValueType) ValuePassword.
(** [time.Minute * 5]. *)
Definition cache_ttl : Z := 300000000000.

Section Settings.
Context `{Env} `{BlockCipher} (secretAESKey : string) `{RowOrder SettingItem}.
Context {C : Type} `{KC : Cache C SettingItem}.

(** A call of the cache. *)
Definition on_cache {A} (m : M C A) : M (Sys C) A :=
  fun w => let '(r, wc) := m (mkWorld (calls w) (st w).(kvs)) in
           (r, mkWorld (calls wc) (mkSys (st w).(table) (st wc))).

(** The hook gorm runs on the item before it writes it. *)
Definition BeforeSave (item : SettingItem) : Panics SettingItem :=
  if is_secret item
  then match EncryptSecret secretAESKey item.(Value) with
       | Val v => Val (with_value v item)
       | Panic p => Panic p
       end
  else Val item.
Definition SecretValue (item : SettingItem) : Panics string :=
  if is_secret item then DecryptSecret secretAESKey item.(Value) else Val item.(Value).

(** The outcome of code that may panic, in the call monad. *)
Definition gpanics {A} (p : Panics A) : G (Sys C) A := fun w => (p, w).
(** [if err != nil { return err }]. *)
Definition glet {A B} (m : G (Sys C) (Res A)) (k : A -> G (Sys C) (Res B)) : G (Sys C) (Res B) :=
  let* r := m in match r with Ok a => k a | Err e => pret (Err e) end.

Definition GetByID (id : Z) : M (Sys C) SettingItem := gorm_find (by_id id).

(** The delete of the cache entry comes first, its error is dropped. *)
Definition drop_entry (group key : string) : G (Sys C) (Res unit) :=
  plift (on_cache (CDelete (redisCacheKey group key))).
Definition write_item (v : SettingItem) : G (Sys C) (Res unit) :=
  let* v := gpanics (BeforeSave v) in plift (gorm_upsert [v]).
Definition UpsertSetting (v : SettingItem) : G (Sys C) (Res unit) :=
  let* _ := drop_entry v.(Group) v.(Key) in write_item v.

Definition SetText (group key value : string) : G (Sys C) (Res unit) :=
  UpsertSetting (mkItem 0 0 0 None group key "" "" ValueText value "").
Definition Set_ (group key value : string) : G (Sys C) (Res unit) := SetText group key value.
(** [yaml.Marshal] is third-party code. *)
Definition SetYaml {Y} (yaml_Marshal : Y -> Res string) (group key : string) (value : Y) : G (Sys C) (Res unit) :=
  match yaml_Marshal value with
  | Err e => pret (Err e)
  | Ok vData => UpsertSetting (mkItem 0 0 0 None group key "" "" ValueYaml vData "")
  end.

(** [First(ret)]: the lowest id that meets the conditions, which take the id of
    [ret] in when it has one. *)
Fixpoint least (l : list SettingItem) : option SettingItem :=
  match l with
  | [] => None
  | e :: l' => match least l' with
               | None => Some e
               | Some x => if x.(ID) <? e.(ID) then Some x else Some e
               end
  end.
Definition by_name (group key : string) : Query SettingItem :=
  where_ (fun e => str_eqb e.(Group) group && str_eqb e.(Key) key) newQuery.
Definition ErrRecordNotFound : error := ErrVar "record not found".
Definition first_row (ret : SettingItem) (group key : string) (t : GTab SettingItem) : Res SettingItem :=
  let q := when (negb (ret.(ID) =? 0)) (where_ (fun e => e.(ID) =? ret.(ID))) (by_name group key) in
  match least (List.filter (hits q) t.(rows)) with
  | Some row => Ok row
  | None => Err ErrRecordNotFound
  end.

Definition Get (group key : string) : M (Sys C) SettingItem :=
  let rdsKey := redisCacheKey group key in
  let! cached := gtry (on_cache (Cache.Get rdsKey zero_item)) in
  let ret := match cached with Ok ret => ret | Err _ => zero_item end in
  if is_ok cached && negb (str_eqb ret.(Value) "") then gret ret
  else
    let! ret := tab_read (first_row ret group key) in
    (if str_eqb ret.(Value) "" then gret tt
     else gtry (on_cache (Cache.Set_ rdsKey ret cache_ttl)) ;;; gret tt) ;;;
    gret ret.

Definition GetValue (group key : string) : G (Sys C) (Res string) :=
  glet (plift (Get group key)) (fun si =>
  let* v := gpanics (SecretValue si) in pret (Ok v)).
Definition GetText (group key : string) : G (Sys C) (Res string) := GetValue group key.
Definition GetSecret (group key : string) : G (Sys C) (Res string) :=
  glet (plift (Get group key)) (fun si =>
  let* v := gpanics (DecryptSecret secretAESKey si.(Value)) in pret (Ok v)).

(** [Unmarshal([]byte(text), value)] of YAML or JSON into the caller's value. *)
Definition GetYaml {Y} (yaml_Unmarshal : string -> Y -> Res Y) (group key : string) (value : Y) : G (Sys C) (Res Y) :=
  glet (GetValue group key) (fun text => pret (yaml_Unmarshal text value)).
Definition GetSecretYaml {Y} (yaml_Unmarshal : string -> Y -> Res Y) (group key : string) (value : Y) : G (Sys C) (Res Y) :=
  glet (GetSecret group key) (fun date => pret (yaml_Unmarshal date value)).
Definition GetJSON {Y} `{JsonCodec Y} (group key : string) (value : Y) : G (Sys C) (Res Y) :=
  glet (GetValue group key) (fun text => pret (Unmarshal text value)).

(** No keys give [IN (NULL)], which no row meets. *)
Definition List (group : string) (keys : list string) : M (Sys C) (list SettingItem) :=
  gorm_find_all (where_ (fun e => str_eqb e.(Group) group && existsb (str_eqb e.(Key)) keys) newQuery).

(** [Select("value", "value_type", "describe", "name").Updates(update)]: the
    four columns, zero values too, and [updated_at]. *)
Definition item_select (now : Z) (update t : SettingItem) : SettingItem :=
  mkItem t.(ID) t.(CreatedAt) now t.(DeletedAt) t.(Group) t.(Key) update.(Name) update.(Describe)
    update.(ValueType) update.(Value) t.(Default).
Definition set_query (set : SettingItem) : Query SettingItem :=
  if set.(ID) =? 0 then by_name set.(Group) set.(Key) else by_id set.(ID).
Definition update_one (set : SettingItem) : G (Sys C) (Res unit) :=
  let update := mkItem 0 0 0 None "" "" set.(Name) set.(Describe) set.(ValueType) set.(Value) "" in
  let* update := gpanics (BeforeSave update) in
  glet (plift (let! now := gnow in tab_write (update_rows (set_query set) (item_select now update)))) (fun _ =>
  let* _ := drop_entry set.(Group) set.(Key) in
  pret (Ok tt)).
Fixpoint Updates (sets : list SettingItem) : G (Sys C) (Res unit) :=
  match sets with
  | [] => pret (Ok tt)
  | set :: sets' => glet (update_one set) (fun _ => Updates sets')
  end.
End Settings.

(** * Rows under their names *)
#[export] Instance item_model_ok : GormModelOk SettingItem.
Proof. constructor. intros a b. simpl. unfold same_key, str_eqb. by rewrite (Z.eqb_sym (ID a)), (String.eqb_sym (Group a)), (String.eqb_sym (Key a)). Qed.

Lemma same_key_eq a b : same_key a b = true <-> Group a = Group b /\ Key a = Key b.
Proof. unfold same_key, str_eqb. by rewrite andb_true_iff, !String.eqb_eq. Qed.

(** Distinct names and ids, ids below the counter. *)
Definition Wf (t : GTab SettingItem) : Prop :=
  distinct t.(rows) = true /\ (forall r, In r t.(rows) -> 0 < r.(ID) < t.(next_id)) /\ 0 < t.(next_id).

Lemma same_id_eq t a b : Wf t -> In a t.(rows) -> In b t.(rows) -> ID a = ID b -> a = b.
Proof.
  intros [Hd _] Ha Hb Hab. apply (distinct_In t.(rows)); [done..|]. simpl. by rewrite Hab, Z.eqb_refl.
Qed.
Lemma same_name_eq t a b : Wf t -> In a t.(rows) -> In b t.(rows) -> same_key a b = true -> a = b.
Proof.
  intros [Hd _] Ha Hb Hab. apply (distinct_In t.(rows)); [done..|]. simpl. by rewrite Hab, orb_true_r.
Qed.

(** Changes of rows that keep id and name. *)
Definition keeps_name (f : SettingItem -> SettingItem) : Prop :=
  forall r, ID (f r) = ID r /\ Group (f r) = Group r /\ Key (f r) = Key r.
Lemma map_distinct f l : keeps_name f -> distinct (map f l) = distinct l.
Proof.
  intros Hf. apply distinct_map. intros x y. simpl. unfold same_key.
  destruct (Hf x) as (-> & -> & ->), (Hf y) as (-> & -> & ->). done.
Qed.
Lemma keeps_name_if (p : SettingItem -> bool) f : keeps_name f -> keeps_name (fun r => if p r then f r else r).
Proof. intros Hf r. destruct (p r); [apply Hf|done]. Qed.
Lemma map_Wf f t : keeps_name f -> Wf t -> Wf (mkGTab (map f t.(rows)) t.(next_id)).
Proof.
  intros Hf (Hd & Hid & Hn). unfold Wf. simpl. rewrite map_distinct by done. split_and!; [done| |done].
  intros r (x & <- & Hx)%in_map_iff. destruct (Hf x) as (-> & _). by apply Hid.
Qed.

Lemma item_assign_keeps now v : keeps_name (item_assign now v).
Proof. by intros r. Qed.
Lemma item_select_keeps now v : keeps_name (item_select now v).
Proof. by intros r. Qed.

(** ** The upsert of an item without an id *)
Lemma upsert_one now v t :
  Wf t -> v.(ID) = 0 ->
  exists t', upsert_rows now [v] t = Ok t' /\ Wf t' /\
    (forall r, In r t.(rows) -> same_key r v = false -> In r t'.(rows)) /\
    (exists r, In r t'.(rows) /\ same_key r v = true /\ Value r = Value v /\
       ValueType r = nzs (ValueType v) ValueText /\
       ((In r t.(rows) \/ exists old, In old t.(rows) /\ same_key old v = true /\ DeletedAt r = DeletedAt old) \/
        DeletedAt r = DeletedAt v)).
Proof.
  intros HW Hv. pose proof HW as (Hd & Hid & Hn). cbn [upsert_rows].
  set (row := m_create now (next_id t) v).
  assert (Hrid : ID row = next_id t) by (unfold row; simpl; unfold nz; by rewrite Hv).
  assert (Hrk : forall x, same_key row x = same_key v x) by done.
  unfold conflict_row. destruct (List.find (fun x => m_id x =? m_id row) (rows t)) as [x|] eqn:Ef1.
  { apply find_some in Ef1 as [Hx He%Z.eqb_eq]. change (ID x = ID row) in He. specialize (Hid x Hx). lia. }
  destruct (List.find (m_collide row) (rows t)) as [old|] eqn:Ef2.
  - apply find_some in Ef2 as [Ho Hc]. change ((ID row =? ID old) || same_key row old = true) in Hc. rewrite Hrid in Hc.
    destruct (Z.eqb_spec (next_id t) (ID old)) as [He|_]; [specialize (Hid old Ho); lia|]. rewrite Hrk in Hc.
    simpl in Hc. set (f := fun x => if m_id x =? m_id old then m_upsert now row x else x).
    assert (Hf : keeps_name f) by (apply (keeps_name_if (fun x => m_id x =? m_id old)), item_assign_keeps).
    rewrite map_distinct, Hd by done. eexists. split; [done|]. split; [by apply map_Wf|]. split.
    + intros r Hr Hk. apply in_map_iff. exists r. split; [|done]. unfold f. simpl.
      destruct (Z.eqb_spec (ID r) (ID old)) as [He|]; [|done].
      rewrite (same_id_eq t r old) in Hk by done. apply same_key_eq in Hc as [H1 H2].
      unfold same_key, str_eqb in Hk. by rewrite H1, H2, !String.eqb_refl in Hk.
    + exists (f old). apply same_key_eq in Hc as [H1 H2].
      assert (Hok : same_key old v = true) by (by apply same_key_eq).
      assert (Hfo : f old = item_assign now row old) by (unfold f; simpl; by rewrite Z.eqb_refl).
      split_and!; [by apply in_map|by rewrite Hfo; apply same_key_eq|by rewrite Hfo..|].
      left. right. exists old. by rewrite Hfo.
  - eexists. split; [done|]. assert (Hnc : existsb (m_collide row) (rows t) = false).
    { apply conflict_row_none. unfold conflict_row. by rewrite Ef1. }
    split_and!.
    + unfold Wf. cbn [rows next_id]. change (m_id row) with (ID row). rewrite Hrid.
      split_and!; [by rewrite distinct_snoc, Hnc, Hd| |lia].
      intros r [Hr|[<-|[]]]%in_app_iff; [specialize (Hid r Hr); lia|]. rewrite Hrid. lia.
    + intros r Hr _. apply in_app_iff. by left.
    + exists row. split; [apply in_app_iff; right; by left|]. split; [by apply same_key_eq|]. auto.
Qed.

(** ** Reading a row by its name *)
Lemma least_In l r : least l = Some r -> In r l.
Proof.
  revert r; induction l as [|e l IH]; simpl; [done|]. intros r. destruct (least l) as [x|]; [|intros [= <-]; by left].
  destruct (_ <? _); intros [= <-]; [right; by apply IH|by left].
Qed.
Lemma least_none l : least l = None -> l = [].
Proof. destruct l as [|e l]; simpl; [done|]. destruct (least l) as [x|]; [|done]. by destruct (_ <? _). Qed.

Lemma by_name_hits g k r :
  hits (by_name g k) r = true <-> Group r = g /\ Key r = k /\ DeletedAt r = None.
Proof.
  unfold by_name. rewrite hits_where. unfold str_eqb, live. simpl.
  rewrite !andb_true_iff, !String.eqb_eq. destruct (DeletedAt r); naive_solver.
Qed.

Lemma first_row_inv g k t r :
  first_row zero_item g k t = Ok r -> In r t.(rows) /\ Group r = g /\ Key r = k /\ DeletedAt r = None.
Proof.
  unfold first_row. cbn [ID zero_item Z.eqb negb when]. destruct (least _) as [x|] eqn:E; [|done]. intros [= ->].
  apply least_In in E. apply filter_In in E as [Hin Hh%by_name_hits]. done.
Qed.
Lemma first_row_only g k t r :
  Wf t -> In r t.(rows) -> Group r = g -> Key r = k -> DeletedAt r = None -> first_row zero_item g k t = Ok r.
Proof.
  intros HW Hr Hg Hk Hl. unfold first_row. cbn [ID zero_item Z.eqb negb when].
  assert (Hin : In r (List.filter (hits (by_name g k)) t.(rows))) by (apply filter_In; split; [done|by apply by_name_hits]).
  destruct (least _) as [x|] eqn:E; [|by rewrite (least_none _ E) in Hin].
  apply least_In in E. apply filter_In in E as [Hx (Hxg & Hxk & _)%by_name_hits]. f_equal.
  apply (same_name_eq t); [done..|]. apply same_key_eq. by rewrite Hxg, Hxk.
Qed.

(** ** The cache keys of groups without a colon *)
Definition no_colon (s : string) : Prop := str_mem ":" s = false.
Lemma redisCacheKey_inj g k g' k' :
  no_colon g -> no_colon g' -> redisCacheKey g k = redisCacheKey g' k' -> g = g' /\ k = k'.
Proof.
  unfold no_colon, redisCacheKey. intros Hg Hg' He.
  apply (f_equal (str_drop (String.length "core_setting::"))) in He.
  rewrite !str_drop_app in He. change ("::" ++ k)%string with (String ":" (":" ++ k)) in He.
  change ("::" ++ k')%string with (String ":" (":" ++ k')) in He.
  pose proof (f_equal (split_on ":") He) as Hs. rewrite !split_on_app in Hs by done. injection Hs as <- _.
  split; [done|]. apply (f_equal (str_drop (String.length g))) in He. rewrite !str_drop_app in He. by injection He.
Qed.

(** * The cache holds current rows *)
Section Coherence.
Context `{Env} `{BlockCipher} (secretAESKey : string) `{RowOrder SettingItem}.
Context {C : Type} {J : JsonCodec SettingItem} {KC : Cache C SettingItem} `{!CacheOk C SettingItem J KC}.
Hypothesis (Hnf : forall n, no_fault_from n) (Hzero : jzero = zero_item).

(** What is cached is a live row with a value, under its own name. *)
Definition current (t : GTab SettingItem) (c : C) : Prop :=
  forall k it, stored c k = Some it ->
    k = redisCacheKey (Group it) (Key it) /\ In it t.(rows) /\ DeletedAt it = None /\ Value it <> ""%string.
Definition Coh (s : Sys C) : Prop := Wf s.(table) /\ current s.(table) s.(kvs).

Lemma current_less t (c c' : C) : no_more (stored c) (stored c') -> current t c -> current t c'.
Proof. intros Hm Hc k it Hs. apply Hc, Hm, Hs. Qed.

Lemma on_cache_after {A} (m : M C A) (w : World (Sys C)) :
  after (on_cache m) w = mkSys (table (st w)) (after m (mkWorld (calls w) (kvs (st w)))).
Proof. unfold after, on_cache. by destruct (m _). Qed.
Lemma on_cache_fst {A} (m : M C A) (w : World (Sys C)) :
  fst (on_cache m w) = fst (m (mkWorld (calls w) (kvs (st w)))).
Proof. unfold on_cache. by destruct (m _). Qed.

(** Dropping the entry of a name leaves room for changes of its row. *)
Lemma dropped k (w : World (Sys C)) :
  let s := after (on_cache (CDelete k)) w in
  stored (kvs s) k = None /\ table s = table (st w) /\ (forall t, current t (kvs (st w)) -> current t (kvs s)).
Proof.
  cbv zeta. rewrite on_cache_after. cbn [kvs table]. set (wc := mkWorld _ _). split_and!; [|done|].
  - unfold after. pose proof (Delete_ok k wc (Hnf _)) as Hok. destruct (CDelete k wc) as [r w'] eqn:E.
    simpl in *. subst r. exact (Delete_gone k wc w' E).
  - intros t Hc. apply (current_less _ (st wc)); [apply Delete_keeps|done].
Qed.

(** Rows other than that of a dropped name may not change. *)
Lemma current_after t t' (c : C) g k :
  current t c -> stored c (redisCacheKey g k) = None ->
  (forall r, In r t.(rows) -> ~ (Group r = g /\ Key r = k) -> In r t'.(rows)) -> current t' c.
Proof.
  intros Hc Hno Hrest key it Hs. destruct (Hc key it Hs) as (-> & Hin & Hd & Hv). split_and!; [done| |done..].
  apply Hrest; [done|]. intros [Hg Hk]. rewrite Hg, Hk in Hs. congruence.
Qed.

(** What a read answers, in terms of the call of the cache. *)
Definition cached_item (g k : string) (w : World (Sys C)) : Res SettingItem :=
  fst (Cache.Get (redisCacheKey g k) zero_item (mkWorld (calls w) (kvs (st w)))).
Definition hit (r : Res SettingItem) : bool :=
  match r with Ok ret => negb (str_eqb (Value ret) "") | Err _ => false end.
Definition ret_of (r : Res SettingItem) : SettingItem := match r with Ok ret => ret | Err _ => zero_item end.

Lemma Get_answer g k (w : World (Sys C)) :
  let cached := cached_item g k w in
  table (after (Get g k) w) = table (st w) /\
  fst (Get g k w) = (if hit cached then Ok (ret_of cached) else first_row (ret_of cached) g k (table (st w))) /\
  forall key it, stored (kvs (after (Get g k) w)) key = Some it ->
    stored (kvs (st w)) key = Some it \/
    (hit cached = false /\ key = redisCacheKey g k /\ Value it <> ""%string /\
     first_row (ret_of cached) g k (table (st w)) = Ok it).
Proof.
  cbv zeta. unfold after, Get, cached_item, gbind, gtry.
  pose proof (on_cache_after (Cache.Get (redisCacheKey g k) zero_item) w) as Ha.
  pose proof (on_cache_fst (Cache.Get (redisCacheKey g k) zero_item) w) as Hf. unfold after in Ha.
  set (wc := mkWorld (calls w) (kvs (st w))) in *.
  destruct (on_cache _ w) as [cached w1] eqn:E1. cbn [fst snd] in *. rewrite <- Hf.
  assert (Hc1 : no_more (stored (kvs (st w))) (stored (kvs (st w1)))).
  { rewrite Ha. exact (Get_keeps (K:=KC) (redisCacheKey g k) zero_item wc). }
  assert (Ht1 : table (st w1) = table (st w)) by (by rewrite Ha).
  assert (Hhit : is_ok cached && negb (str_eqb (Value (ret_of cached)) "") = hit cached) by (by destruct cached).
  unfold ret_of in Hhit. rewrite Hhit. fold (ret_of cached). destruct (hit cached) eqn:Eh.
  { unfold gret. cbn [fst snd]. split_and!; [done..|]. intros key it Hs. left. by apply Hc1. }
  unfold tab_read. rewrite gextr_ok by (by apply (Hnf 0); lia). cbn [fst snd get_tab item_tab]. rewrite Ht1.
  destruct (first_row _ g k (table (st w))) as [row|e] eqn:Ef; cbn [fst snd st].
  2: { split_and!; [done..|]. intros key it Hs. left. by apply Hc1. }
  unfold gret. destruct (str_eqb (Value row) "") eqn:Ev; cbn [fst snd st].
  { split_and!; [done..|]. intros key it Hs. left. by apply Hc1. }
  match goal with |- context [on_cache (Cache.Set_ ?a ?b ?c) ?w] =>
    pose proof (on_cache_after (Cache.Set_ a b c) w) as Hs; unfold after in Hs;
    destruct (on_cache (Cache.Set_ a b c) w) as [r2 w2] end.
  cbn [fst snd] in *. rewrite Hs. cbn [table kvs st]. split_and!; [done..|]. intros key it Hst.
  apply (Set_stored (K:=KC)) in Hst as [[-> ->]|Hst]; [|left; by apply Hc1].
  right. split_and!; [done..| |done]. unfold str_eqb in Ev. by apply String.eqb_neq.
Qed.

(** An item that comes out of the cache is the zero item or a stored one. *)
Lemma cached_item_inv g k (w : World (Sys C)) v :
  cached_item g k w = Ok v -> v = zero_item \/ stored (kvs (st w)) (redisCacheKey g k) = Some v.
Proof.
  unfold cached_item. destruct (Cache.Get _ _ _) as [r w2] eqn:Eg. intros Hr. simpl in Hr. subst r.
  rewrite <- Hzero in Eg. apply Get_stored in Eg. by rewrite Hzero in Eg.
Qed.

(** With nothing under the name, the table is read. *)
Lemma Get_miss g k (w : World (Sys C)) :
  (forall v, stored (kvs (st w)) (redisCacheKey g k) = Some v -> Value v = ""%string -> v = zero_item) ->
  hit (cached_item g k w) = false ->
  fst (Get g k w) = first_row zero_item g k (table (st w)).
Proof.
  intros Hs Hh. destruct (Get_answer g k w) as (_ & Ha & _). rewrite Ha, Hh. f_equal.
  destruct (cached_item g k w) as [v|] eqn:Ec; [|done]. simpl in *. unfold str_eqb in Hh.
  destruct (cached_item_inv _ _ _ _ Ec) as [|Hv]; [done|]. apply (Hs v Hv).
  by destruct (String.eqb_spec (Value v) "").
Qed.

Lemma Get_run g k (w : World (Sys C)) :
  Coh (st w) ->
  Coh (after (Get g k) w) /\
  ((forall r, In r (table (st w)).(rows) -> redisCacheKey (Group r) (Key r) = redisCacheKey g k -> Group r = g /\ Key r = k) ->
   fst (Get g k w) = first_row zero_item g k (table (st w))).
Proof.
  intros [HW Hc]. destruct (Get_answer g k w) as (Ht & Ha & Hst).
  assert (Hz : hit (cached_item g k w) = false -> ret_of (cached_item g k w) = zero_item).
  { intros Hh. destruct (cached_item g k w) as [v|] eqn:Ec; [|done]. simpl in *. unfold str_eqb in Hh.
    destruct (cached_item_inv _ _ _ _ Ec) as [|Hv]; [done|]. destruct (Hc _ _ Hv) as (_ & _ & _ & Hne).
    by destruct (String.eqb_spec (Value v) ""). }
  split; [split; rewrite Ht; [done|]|].
  - intros key it Hs. destruct (Hst key it Hs) as [Hs'|(Hh & -> & Hv & Hr)]; [by apply Hc|].
    rewrite (Hz Hh) in Hr. apply first_row_inv in Hr as (Hin & <- & <- & Hd). done.
  - intros Hclash. rewrite Ha. destruct (hit (cached_item g k w)) eqn:Hh; [|by rewrite Hz].
    destruct (cached_item g k w) as [v|] eqn:Ec; [|done]. simpl in *.
    destruct (cached_item_inv _ _ _ _ Ec) as [->|Hv]; [done|]. destruct (Hc _ _ Hv) as (Hk & Hin & Hd & _).
    destruct (Hclash v Hin (eq_sym Hk)). symmetry. by apply first_row_only.
Qed.

(** The hook keeps id and name. *)
Lemma BeforeSave_keeps v p : BeforeSave secretAESKey v = Val p ->
  ID p = ID v /\ Group p = Group v /\ Key p = Key v /\ ValueType p = ValueType v /\ DeletedAt p = DeletedAt v /\
  (is_secret v = false -> Value p = Value v).
Proof. unfold BeforeSave. destruct (is_secret v); [destruct (EncryptSecret _ _); [|done]|]; by intros [= <-]. Qed.

(** The whole of an upsert: the entry is gone and the item is in the table,
    unless the hook panics. *)
Lemma UpsertSetting_run v (w : World (Sys C)) :
  Wf (table (st w)) -> ID v = 0 ->
  let w' := snd (UpsertSetting secretAESKey v w) in
  (Coh (st w) -> Coh (st w')) /\
  forall p, BeforeSave secretAESKey v = Val p ->
    fst (UpsertSetting secretAESKey v w) = Val (Ok tt) /\ stored (kvs (st w')) (redisCacheKey (Group v) (Key v)) = None /\
    exists now, upsert_rows now [p] (table (st w)) = Ok (table (st w')).
Proof.
  intros HW Hv. cbv zeta. unfold UpsertSetting, drop_entry. rewrite pbind_eq. unfold plift.
  pose proof (dropped (redisCacheKey (Group v) (Key v)) w) as (Hno & Ht1 & Hdrop). unfold after in *.
  destruct (on_cache _ w) as [r w1]. cbn [fst snd] in *. unfold write_item. rewrite pbind_eq. unfold gpanics.
  destruct (BeforeSave secretAESKey v) as [p|p] eqn:Eb; cbn [fst snd].
  2: { split; [|done]. intros [_ Hc]. split; rewrite Ht1; [done|]. by apply Hdrop. }
  destruct (BeforeSave_keeps v p Eb) as (Hpid & Hpg & Hpk & _). rewrite Hv in Hpid.
  unfold plift, gorm_upsert, gbind, gnow, tab_write. rewrite gextr_ok by (by apply (Hnf 0); lia).
  cbn [fst snd st get_tab set_tab item_tab]. rewrite Ht1.
  destruct (upsert_one (env_clock (calls w1)) p (table (st w)) HW Hpid) as (t' & Hup & HW' & Hrest & _).
  rewrite Hup. cbn [fst snd st]. split.
  - intros [_ Hc]. split; [done|]. cbn [table kvs].
    apply (current_after (table (st w)) _ _ (Group v) (Key v)); [by apply Hdrop|done|].
    intros x Hx Hn. apply Hrest; [done|]. apply not_true_iff_false. rewrite same_key_eq, Hpg, Hpk. done.
  - intros p' [= <-]. split_and!; [done|done|]. by exists (env_clock (calls w1)).
Qed.

(** A set names the row it updates when its id, if any, belongs to its name. *)
Definition names_row (t : GTab SettingItem) (set : SettingItem) : Prop :=
  ID set <> 0 -> forall r, In r t.(rows) -> ID r = ID set -> same_key r set = true.

Lemma set_query_hits t set r :
  names_row t set -> In r t.(rows) -> hits (set_query set) r = true -> same_key r set = true.
Proof.
  unfold set_query. intros Hn Hr. destruct (Z.eqb_spec (ID set) 0) as [|Hid].
  - intros (Hg & Hk & _)%by_name_hits. by apply same_key_eq.
  - unfold by_id. rewrite hits_where. intros [He%Z.eqb_eq _]%andb_true_iff. by apply Hn.
Qed.

Lemma update_rows_run q f t :
  conds q <> [] -> keeps_name f -> Wf t ->
  update_rows q f t = Ok (mkGTab (map (fun e => if hits q e then f e else e) t.(rows)) t.(next_id)).
Proof.
  intros Hq Hf (Hd & _). unfold update_rows. destruct (conds q); [done|].
  by rewrite map_distinct, Hd by (by apply keeps_name_if).
Qed.

Lemma update_one_run set (w : World (Sys C)) :
  Coh (st w) -> names_row (table (st w)) set ->
  let w' := snd (update_one secretAESKey set w) in
  Coh (st w') /\ (forall s, names_row (table (st w)) s -> names_row (table (st w')) s).
Proof.
  intros [HW Hc] Hn. cbv zeta. unfold update_one. rewrite pbind_eq. unfold gpanics.
  destruct (BeforeSave _ _) as [u|p]; cbn [fst snd]; [|by split; [split|]].
  unfold glet. rewrite pbind_eq. unfold plift, gbind, gnow, tab_write. rewrite gextr_ok by (by apply (Hnf 0); lia).
  cbn [fst snd st get_tab item_tab].
  rewrite update_rows_run; [|unfold set_query; by destruct (_ =? _)|apply item_select_keeps|done].
  cbn [fst snd]. set (f := fun e => if hits (set_query set) e then _ else e).
  assert (Hf : keeps_name f) by (apply keeps_name_if, item_select_keeps).
  set (t' := mkGTab (map f _) _). unfold drop_entry. rewrite pbind_eq. unfold plift. set (w1 := mkWorld _ (set_tab t' (st w))).
  assert (Hc1 : forall c, current (table (st w)) c -> stored c (redisCacheKey (Group set) (Key set)) = None -> current t' c).
  { intros c Hcc Hno. apply (current_after (table (st w)) _ _ (Group set) (Key set)); [done..|].
    intros x Hx Hnn. apply in_map_iff. exists x. split; [|done]. unfold f.
    destruct (hits (set_query set) x) eqn:Eh; [|done]. exfalso. apply Hnn, same_key_eq.
    by apply (set_query_hits (table (st w))). }
  pose proof (dropped (redisCacheKey (Group set) (Key set)) w1) as (Hno & Ht2 & Hdrop). unfold after in *.
  pose proof (Hdrop _ Hc) as Hc2.
  destruct (on_cache _ w1) as [r w2]. cbn [fst snd] in *. unfold pret. cbn [fst snd].
  assert (Ht : table (st w2) = t') by (by rewrite Ht2). split.
  - split; rewrite Ht; [by apply map_Wf|]. by apply Hc1.
  - intros s Hs. unfold names_row. rewrite Ht. intros Hid x. intros (y & <- & Hy)%in_map_iff. destruct (Hf y) as (-> & Hg & Hk). intros He.
    specialize (Hs Hid y Hy He). apply same_key_eq in Hs as [? ?]. apply same_key_eq. by rewrite Hg, Hk.
Qed.

Lemma Updates_run sets (w : World (Sys C)) :
  Coh (st w) -> Forall (names_row (table (st w))) sets -> Coh (after (Updates secretAESKey sets) w).
Proof.
  revert w. induction sets as [|set sets IH]; intros w Hw Hn; [done|]. apply Forall_cons_1 in Hn as [Hs Hn].
  unfold after. cbn [Updates]. unfold glet. rewrite pbind_eq.
  destruct (update_one_run set w Hw Hs) as [Hw1 Hkeep].
  destruct (update_one secretAESKey set w) as [[[[]|e]|p] w1]; cbn [fst snd] in *; [|done..].
  apply IH; [done|]. eapply Forall_impl; [exact Hn|]. auto.
Qed.

(** * Sequences of calls *)
(** The calls of the package that touch its state; [SetText] and [SetYaml] are
    upserts, [GetValue] and the like reads. *)
Inductive Op : Type :=
| OUpsert (v : SettingItem)
| OUpdates (sets : list SettingItem)
| OGet (group key : string).
Definition run (op : Op) (w : World (Sys C)) : World (Sys C) :=
  match op with
  | OUpsert v => snd (UpsertSetting secretAESKey v w)
  | OUpdates sets => snd (Updates secretAESKey sets w)
  | OGet g k => snd (Get g k w)
  end.
(** New items are named, updated ones carry the name of their row. *)
Definition names_own (t : GTab SettingItem) (op : Op) : Prop :=
  match op with
  | OUpsert v => ID v = 0
  | OUpdates sets => Forall (names_row t) sets
  | OGet _ _ => True
  end.

(** From a well-formed table and an empty cache. *)
Inductive reach : World (Sys C) -> Prop :=
| reach_init n t c : Wf t -> (forall k, stored c k = None) -> reach (mkWorld n (mkSys t c))
| reach_step op w : reach w -> names_own (table (st w)) op -> reach (run op w).

Lemma reach_Coh w : reach w -> Coh (st w).
Proof.
  induction 1 as [n t c Ht Hc|op w Hw IH Hop]; [split; [done|]; intros k it; simpl; by rewrite Hc|].
  destruct op as [v|sets|g k]; simpl in *; [apply UpsertSetting_run; [by destruct IH|done..]|by apply Updates_run|by apply (Get_run g k w IH)].
Qed.

(** C19: for items that go by their own names the cache is not observable.  From an
    empty cache, after any sequence of calls of one client, one after another and
    without service failures, where every upsert is of an item without an id and
    every update carries the group and key of the row it changes ([names_own]), a
    read through the cache gives what the table holds, provided neither the group
    asked for nor any group in the table contains a colon ([no_colon]: two names
    could share a cache entry). *)
Theorem cached_reads_current w g k :
  reach w -> no_colon g -> (forall r, In r (table (st w)).(rows) -> no_colon (Group r)) ->
  fst (Get g k w) = first_row zero_item g k (table (st w)).
Proof.
  intros Hw Hg Hr. apply (Get_run g k w (reach_Coh w Hw)). intros r Hin He.
  apply redisCacheKey_inj; [by apply Hr|done|done].
Qed.
End Coherence.

(** * A setting is read back *)
Section ReadBack.
Context `{Env} {B : BlockCipher} `{!BlockCipherOk B} (secretAESKey : string) `{RowOrder SettingItem}.
Context {C : Type} {J : JsonCodec SettingItem} {KC : Cache C SettingItem} `{!CacheOk C SettingItem J KC}.
Hypothesis (Hnf : forall n, no_fault_from n) (Hzero : jzero = zero_item).
Hypotheses (Hkey : NewCipher (bytes_of secretAESKey) = None)
  (Hbs : (BlockSize < 256)%nat) (Hlen : (BlockSize <= length (bytes_of secretAESKey))%nat).

(** Text that is not itself marked as encrypted, where that matters. *)
Definition plain (v : SettingItem) : Prop :=
  is_secret v = true -> has_prefix secretEncryptedPrefix (Value v) = false.

Lemma is_secret_default r v : ValueType r = nzs (ValueType v) ValueText -> is_secret r = is_secret v.
Proof.
  unfold is_secret, nzs, str_eqb. intros ->. destruct (String.eqb_spec (ValueType v) "") as [->|]; done.
Qed.

(** The hook and the reader undo each other. *)
Lemma hook_undone v : plain v ->
  exists p, BeforeSave secretAESKey v = Val p /\
    (is_secret v = true -> has_prefix secretEncryptedPrefix (Value p) = true) /\
    forall r, Value r = Value p -> is_secret r = is_secret v -> SecretValue secretAESKey r = Val (Value v).
Proof.
  intros Hp. unfold BeforeSave, SecretValue. destruct (is_secret v) eqn:Es.
  - destruct (secret_undone secretAESKey Hkey Hbs Hlen (Value v) (Hp Es)) as (e & -> & He & _ & Hd).
    eexists. split; [done|]. split; [done|]. intros r Hr ->. by rewrite Hr.
  - eexists. split; [done|]. split; [done|]. intros r Hr ->. by rewrite Hr.
Qed.

(** Whatever the cache held, a setting that was written is read back: the
    upsert succeeds, the table then holds a secret encrypted only, and
    [GetValue] gives the text that was written. *)
Theorem setting_round_trip v (w : World (Sys C)) :
  Wf (table (st w)) -> ID v = 0 -> DeletedAt v = None ->
  (forall r, In r (table (st w)).(rows) -> same_key r v = true -> DeletedAt r = None) -> plain v ->
  let w' := snd (UpsertSetting secretAESKey v w) in
  fst (UpsertSetting secretAESKey v w) = Val (Ok tt) /\
  fst (GetValue secretAESKey (Group v) (Key v) w') = Val (Ok (Value v)) /\
  (is_secret v = true -> forall r, In r (table (st w')).(rows) -> same_key r v = true ->
     has_prefix secretEncryptedPrefix (Value r) = true).
Proof.
  intros HW Hid Hdel Hlive Hp. destruct (hook_undone v Hp) as (p & Hb & Hmark & Hread). cbv zeta.
  destruct (BeforeSave_keeps secretAESKey v p Hb) as (Hpid & Hpg & Hpk & Hpt & Hpd & _). rewrite Hid in Hpid.
  destruct (UpsertSetting_run secretAESKey Hnf v w HW Hid) as [_ Hup].
  destruct (Hup p Hb) as (Hok & Hno & now & Htab). set (w' := snd (UpsertSetting secretAESKey v w)) in *.
  destruct (upsert_one now p (table (st w)) HW Hpid) as (t' & Hups & HW' & _ & r & Hr & Hk & Hval & Htype & Hd).
  rewrite Htab in Hups. injection Hups as <-.
  assert (Hkv : forall x, same_key x p = same_key x v) by (intros x; unfold same_key; by rewrite Hpg, Hpk).
  rewrite Hkv in Hk. apply same_key_eq in Hk as Hk'. destruct Hk' as [Hg Hkk].
  assert (Hrd : DeletedAt r = None).
  { destruct Hd as [[Hin|(old & Hin & Hko & ->)]|Hd]; [by apply Hlive| |congruence].
    apply Hlive; [done|]. by rewrite <- Hkv. }
  split; [done|]. split.
  - unfold GetValue, glet. rewrite pbind_eq. unfold plift.
    assert (Hg' : fst (Get (Group v) (Key v) w') = Ok r).
    { rewrite (Get_miss (J:=J)); [by apply first_row_only|done|done|by rewrite Hno|].
      destruct (cached_item _ _ _) as [x|] eqn:Ec; [|done].
      destruct (cached_item_inv (J:=J) Hzero _ _ _ _ Ec) as [->|Hx]; [done|congruence]. }
    destruct (Get (Group v) (Key v) w') as [res w2]. simpl in Hg'. subst res. cbn [fst snd].
    rewrite pbind_eq. unfold gpanics. rewrite Hread; [done|done|].
    apply is_secret_default. by rewrite Htype, Hpt.
  - intros Hs x Hx Hxk. rewrite (same_name_eq _ x r HW' Hx Hr), Hval by (by apply same_key_eq; apply same_key_eq in Hxk as [-> ->]).
    by apply Hmark.
Qed.
End ReadBack.

(** * Concrete runs *)
#[export] Instance SettingItem_eq_dec : EqDecision SettingItem.
Proof. solve_decision. Defined.
#[export] Instance SettingItem_countable : Countable SettingItem.
Proof.
  refine (inj_countable'
    (fun i => (ID i, CreatedAt i, UpdatedAt i, DeletedAt i, Group i, Key i, Name i, Describe i, ValueType i, Value i, Default i))
    (fun '(a, b, c, d, e, f, g, h, i, j, k) => mkItem a b c d e f g h i j k) _).
  by intros [].
Defined.
(** Items in Redis, under a clock that stands still. *)
Abbreviation RC := (gmap string (string * Z)).
#[local] Instance item_codec : JsonCodec SettingItem := coded zero_item.
#[local] Instance demo_env : Env := stillEnv.
#[local] Instance demo_cache : Cache RC SettingItem := RedisCache.
#[local] Instance demo_cache_ok : CacheOk RC SettingItem item_codec demo_cache.
Proof. apply RedisCacheOk. Qed.
#[local] Instance demo_cipher : BlockCipher := toyAES.

Definition demo0 : World (Sys RC) := mkWorld 0 (mkSys (mkGTab [] 1) ∅).
Definition demo_secret : SettingItem := mkItem 0 0 0 None "core" "wx" "" "" ValueSecret "hunter2" "".
Definition demo_set (g k v : string) : World (Sys RC) -> World (Sys RC) := fun w => snd (Set_ default_key g k v w).
Definition demo_get (g k : string) (w : World (Sys RC)) : Panics (Res string) * World (Sys RC) := GetValue default_key g k w.

(** Updating by id alone deletes the entry of the empty name: readers keep
    getting the old value. *)
Example update_by_id_stale :
  let w := snd (demo_get "core" "k" (demo_set "core" "k" "old" demo0)) in
  let w' := snd (Updates default_key [mkItem 1 0 0 None "" "" "" "" ValueText "new" ""] w) in
  map Value (table (st w')).(rows) = ["new"%string] /\ fst (demo_get "core" "k" w') = Val (Ok "old"%string).
Proof. vm_compute. split; reflexivity. Qed.
(** A read between the two halves of an upsert puts the old row back into the
    cache. *)
Example racing_read_stale :
  let w := demo_set "core" "k" "old" demo0 in
  let w1 := snd (demo_get "core" "k" (snd (drop_entry "core" "k" w))) in
  let w2 := snd (write_item default_key (mkItem 0 0 0 None "core" "k" "" "" ValueText "new" "") w1) in
  map Value (table (st w2)).(rows) = ["new"%string] /\ fst (demo_get "core" "k" w2) = Val (Ok "old"%string).
Proof. vm_compute. split; reflexivity. Qed.
(** Two names with one cache key. *)
Example key_clash :
  let w := demo_set "a" "b::c" "one" (demo_set "a::b" "c" "two" demo0) in
  fst (demo_get "a" "b::c" (snd (demo_get "a::b" "c" w))) = Val (Ok "two"%string).
Proof. vm_compute. reflexivity. Qed.

Lemma demo_no_fault n : no_fault_from n.
Proof. by intros i _. Qed.
Lemma demo0_Wf : Wf (table (st demo0)).
Proof. split; [reflexivity|]. split; [intros r []|reflexivity]. Qed.

Lemma setting_round_trip_witness :
  fst (GetValue default_key "core" "wx" (snd (UpsertSetting default_key demo_secret demo0))) = Val (Ok "hunter2"%string).
Proof.
  apply (@setting_round_trip demo_env toyAES toyAESOk default_key RC item_codec demo_cache demo_cache_ok demo_no_fault
    eq_refl default_key_valid ltac:(simpl; lia) ltac:(simpl; lia) demo_secret demo0 demo0_Wf eq_refl eq_refl).
  - intros r [].
  - intros _. reflexivity.
Defined.

(** Written, read into the cache, changed by name and read again. *)
Definition demo_ops : list Op :=
  [OUpsert demo_secret; OGet "core" "wx";
   OUpdates [mkItem 1 0 0 None "core" "wx" "" "" ValueText "open" ""]].
Definition demo_end : World (Sys RC) := fold_left (fun w op => run default_key op w) demo_ops demo0.
Example demo_named :
  forallb (fun r => (ID r =? 1) && str_eqb (Group r) "core" && str_eqb (Key r) "wx")
    (table (st (run default_key (OGet "core" "wx") (run default_key (OUpsert demo_secret) demo0)))).(rows) = true.
Proof. vm_compute. reflexivity. Qed.
Lemma demo_reach : reach default_key demo_end.
Proof.
  change (reach default_key (run default_key (OUpdates [mkItem 1 0 0 None "core" "wx" "" "" ValueText "open" ""])
    (run default_key (OGet "core" "wx") (run default_key (OUpsert demo_secret) demo0)))).
  apply reach_step; [apply reach_step; [apply reach_step; [|reflexivity]|exact I]|].
  - apply reach_init; [exact demo0_Wf|]. intros k. reflexivity.
  - constructor; [|constructor]. intros _ r Hr _. pose proof demo_named as Hd. rewrite forallb_forall in Hd.
    specialize (Hd r Hr). apply same_key_eq. unfold str_eqb in Hd.
    apply andb_true_iff in Hd as [[_ Hg]%andb_true_iff Hk]. by apply String.eqb_eq in Hg as ->, Hk as ->.
Qed.
Example demo_groups : forallb (fun r => negb (str_mem ":" (Group r))) (table (st demo_end)).(rows) = true.
Proof. vm_compute. reflexivity. Qed.
Lemma cached_reads_current_witness :
  fst (Get "core" "wx" demo_end) = first_row zero_item "core" "wx" (table (st demo_end)).
Proof.
  apply (@cached_reads_current demo_env toyAES default_key RC item_codec demo_cache demo_cache_ok demo_no_fault
    eq_refl demo_end "core" "wx" demo_reach eq_refl).
  intros r Hr. pose proof demo_groups as Hd. rewrite forallb_forall in Hd. apply negb_true_iff, (Hd r Hr).
Defined.
