(* ===== verification/Notify.v ===== *)
(** [src/notify] and [src/config/notify.go], [wecom.go]: the SMTP account and its
    settings (email.go), the codes sent by SMS with their records
    (verify_code.go and the two services), and the applications of WeCom by
    name.  The services of mail and SMS are parameters. *)
From S2P Require Import Prelude Strings Mutex Gorm Crypto Cache Settings.
#[local] Open Scope string_scope.
#[local] Open Scope Z_scope.

(** * [net.SplitHostPort] *)
Fixpoint index_of (c : ascii) (s : string) : option nat :=
  match s with "" => None | String x s' => if Ascii.eqb x c then Some O else option_map S (index_of c s') end.
Fixpoint last_index (c : ascii) (s : string) : option nat :=
  match s with
  | "" => None
  | String x s' => match last_index c s' with Some i => Some (S i) | None => if Ascii.eqb x c then Some O else None end
  end.
Definition addr_error (why addr : string) : error := ErrNew ("address " ++ addr ++ ": " ++ why).
Definition SplitHostPort (hostport : string) : Res (string * string) :=
  let missingPort := Err (addr_error "missing port in address" hostport) in
  let tooManyColons := Err (addr_error "too many colons in address" hostport) in
  match last_index ":" hostport with
  | None => missingPort
  | Some i =>
      let finish host j k :=
        if str_mem "[" (str_drop j hostport) then Err (addr_error "unexpected '[' in address" hostport)
        else if str_mem "]" (str_drop k hostport) then Err (addr_error "unexpected ']' in address" hostport)
        else Ok (host, str_drop (S i) hostport) in
      match hostport with
      | String "[" _ =>
          match index_of "]" hostport with
          | None => Err (addr_error "missing ']' in address" hostport)
          | Some e =>
              if (e + 1 =? String.length hostport)%nat then missingPort
              else if (e + 1 =? i)%nat then finish (substring 1 (e - 1) hostport) 1%nat (e + 1)%nat
              else match str_drop (e + 1) hostport with String ":" _ => tooManyColons | _ => missingPort end
          end
      | _ => let host := str_take i hostport in
             if str_mem ":" host then tooManyColons else finish host O O
      end
  end.
Example split_addrs : map SplitHostPort ["smtp.x.cn:465"; "[::1]:25"; "::1:25"; "smtp.x.cn"; "[::1]"; ":25"] =
  [Ok ("smtp.x.cn", "465"); Ok ("::1", "25"); Err (addr_error "too many colons in address" "::1:25");
   Err (addr_error "missing port in address" "smtp.x.cn"); Err (addr_error "missing port in address" "[::1]"); Ok ("", "25")].
Proof. reflexivity. Qed.

(** * [email.go] *)
Record SMTPOption : Type := mkSMTP { Addr : string; Username : string; Password : string; Nickname : string }.
Definition smtpSettingGroup : string := "smtp".
Definition required (what : string) : error := ErrNew ("required smtp " ++ what).
Definition Validity (opt : SMTPOption) : option error :=
  if str_eqb opt.(Addr) "" then Some (required "addr")
  else if str_eqb opt.(Username) "" then Some (required "username")
  else if str_eqb opt.(Password) "" then Some (required "password")
  else match SplitHostPort opt.(Addr) with Err _ => Some (ErrNew ("invalid smtp addr: " ++ opt.(Addr))) | Ok _ => None end.
Definition SettingGroupKeys (opt : SMTPOption) : string * list string := (smtpSettingGroup, ["addr"; "username"; "password"; "nickname"]).
Definition setting (name describe key valueType value : string) : SettingItem := mkItem 0 0 0 None smtpSettingGroup key name describe valueType value "".
Definition ToSettings (opt : SMTPOption) : list SettingItem :=
  [setting "SMTP地址" "邮箱的SMTP地址" "addr" ValueText opt.(Addr);
   setting "账户名称" "邮箱的SMTP账号名称" "username" ValueText opt.(Username);
   setting "账号密码" "邮箱的SMTP账号密码" "secret" ValueSecret opt.(Password);
   setting "发送人昵称" "邮箱的发送人昵称" "nickname" ValueText opt.(Nickname)].
Definition take_setting (opt : SMTPOption) (s : SettingItem) : SMTPOption :=
  if str_eqb s.(Key) "username" then mkSMTP opt.(Addr) s.(Value) opt.(Password) opt.(Nickname)
  else if str_eqb s.(Key) "addr" then mkSMTP s.(Value) opt.(Username) opt.(Password) opt.(Nickname)
  else if str_eqb s.(Key) "password" then mkSMTP opt.(Addr) opt.(Username) s.(Value) opt.(Nickname)
  else if str_eqb s.(Key) "nickname" then mkSMTP opt.(Addr) opt.(Username) opt.(Password) s.(Value)
  else opt.
(** The receiver comes back as it was changed. *)
Definition FromSettings (sets : list SettingItem) (opt : SMTPOption) : option error * SMTPOption :=
  let opt := fold_left take_setting sets opt in (Validity opt, opt).
Definition zero_smtp : SMTPOption := mkSMTP "" "" "" "".

Section Email.
(** The sending of a message of gomail: sender, receivers, subject and body. *)
Context `{Env} {X : Type} (atoi_error : string -> error).
Record Dialer : Type := mkDialer { d_host : string; d_port : Z; d_user : string; d_password : string }.
Record EmailAccount : Type := mkAccount { a_option : SMTPOption; cli : Dialer }.
Record Mail : Type := mkMail { From : string; To : list string; Subject : string; HtmlBody : string }.
Context (DialAndSend : Dialer -> Mail -> X -> Res unit * X).
Definition NewAccount (opt : SMTPOption) : Res EmailAccount :=
  match SplitHostPort opt.(Addr) with
  | Err e => Err e
  | Ok (host, sport) =>
      match ParseInt sport with
      | None => Err (atoi_error sport)
      | Some port => Ok (mkAccount opt (mkDialer host port opt.(Username) opt.(Password)))
      end
  end.
Definition SendHTML (a : EmailAccount) (title body : string) (sendTo : list string) : M X unit :=
  gextr (DialAndSend a.(cli) (mkMail (a.(a_option).(Nickname) ++ "<" ++ a.(a_option).(Username) ++ ">") sendTo title body)).
End Email.

(** What an option keeps through its settings: all but the password, which is
    written under one key and read under another, so that the option that comes
    back, to a value that had none, never is valid. *)
Theorem settings_lose_password opt opt0 : let '(err, opt') := FromSettings (ToSettings opt) opt0 in
  opt' = mkSMTP opt.(Addr) opt.(Username) opt0.(Password) opt.(Nickname) /\
  (opt0.(Password) = "" -> err <> None).
Proof.
  cbn [FromSettings ToSettings]. unfold FromSettings. cbn. split; [done|]. intros ->. unfold Validity. cbn.
  by destruct (String.eqb (Addr opt) ""); [|destruct (String.eqb (Username opt) "")].
Qed.
(** Of the keys that it names, the settings have all but that of the password. *)
Theorem setting_keys opt : List.filter (fun k => negb (existsb (fun s => str_eqb s.(Key) k) (ToSettings opt))) (snd (SettingGroupKeys opt)) = ["password"].
Proof. reflexivity. Qed.
(** A valid option can still have a port that is no number. *)
Example valid_without_account : Validity (mkSMTP "smtp.x.cn:smtps" "u" "p" "") = None /\
  NewAccount (fun s => ErrNew s) (mkSMTP "smtp.x.cn:smtps" "u" "p" "") = Err (ErrNew "smtps").
Proof. split; reflexivity. Qed.

(** * [sms] *)
Record AliConfig : Type := mkAli { RegionID : string; Endpoint : string; AccessKeyID : string; AccessKeySecret : string }.
Record TencentSMSConfig : Type := mkTencent { SecretID : string; SecretKey : string; Region : string; SmsSdkAppId : string }.
Record SMSConfig : Type := mkSMS { Aliyun : option AliConfig; Tencent : option TencentSMSConfig; SignName : string; TemplateCode : string }.
Record SmsSend : Type := mkSmsSend {
  s_id : Z; s_created : Z; s_updated : Z; s_deleted : option Z; Phone : string; VerifyCode : string; ErrMsg : string; OutId : string
}.
#[export] Instance sms_model : GormModel SmsSend := {
  m_zero := mkSmsSend 0 0 0 None "" "" "" "";
  m_id := s_id;
  m_deleted := s_deleted;
  m_set_deleted d s := mkSmsSend s.(s_id) s.(s_created) s.(s_updated) d s.(Phone) s.(VerifyCode) s.(ErrMsg) s.(OutId);
  m_touch now s := mkSmsSend s.(s_id) s.(s_created) now s.(s_deleted) s.(Phone) s.(VerifyCode) s.(ErrMsg) s.(OutId);
  m_create now id s := mkSmsSend (nz s.(s_id) id) (nz s.(s_created) now) (nz s.(s_updated) now) s.(s_deleted) s.(Phone) s.(VerifyCode) s.(ErrMsg) s.(OutId);
  m_updates now e t := mkSmsSend (nz e.(s_id) t.(s_id)) (nz e.(s_created) t.(s_created)) now (nzo e.(s_deleted) t.(s_deleted))
    (nzs e.(Phone) t.(Phone)) (nzs e.(VerifyCode) t.(VerifyCode)) (nzs e.(ErrMsg) t.(ErrMsg)) (nzs e.(OutId) t.(OutId));
  m_upsert now e t := mkSmsSend t.(s_id) t.(s_created) e.(s_updated) e.(s_deleted) e.(Phone) e.(VerifyCode) e.(ErrMsg) e.(OutId);
  m_collide a b := a.(s_id) =? b.(s_id);
}.
(** A request to a service: the account, the phone, the signature, the template
    and its parameter. *)
Record SmsRequest : Type := mkSmsReq { q_key : string; q_secret : string; q_region : string; q_app : string; q_phone : string; q_sign : string; q_template : string; q_param : string }.
(** The answer of Tencent: an error of its API, another error, or a code and a
    message for each phone. *)
Inductive TencentAnswer : Type := SDKError (text : string) | OtherError (e : error) | SendStatus (l : list (string * string)).
Record SmsHost (X : Type) : Type := mkSmsHost { sms_table : GTab SmsSend; sms_ext : X }.
Arguments mkSmsHost {X} sms_table sms_ext.
Arguments sms_table {X} s.
Arguments sms_ext {X} s.
#[export] Instance sms_tab {X} : HasTab (SmsHost X) SmsSend := { get_tab := sms_table; set_tab t s := mkSmsHost t s.(sms_ext) }.
Section Sms.
Context `{Env} {X : Type} (GetYaml : string -> string -> X -> Res SMSConfig * X)
  (ali_client : AliConfig -> option error) (ali_SendSms : SmsRequest -> X -> Res (string * string) * X)
  (tencent_SendSms : SmsRequest -> X -> TencentAnswer * X).
(** What the database says to a row with a text too long for its column: the
    columns are of 20, 10, 100 and 100 characters. *)
Context (too_long : SmsSend -> option error).
Abbreviation St := (SmsHost X).
Implicit Types w : World St.
Definition on_sms {A} (f : X -> Res A * X) : M St A :=
  gextr (fun s => let (r, x) := f s.(sms_ext) in (r, mkSmsHost s.(sms_table) x)).
Definition failed (code message : string) : error := ErrNew ("send sms failed, code: " ++ code ++ ", message: " ++ message).
Definition template_param (code : string) : string :=
  "{" ++ String "034" ("code" ++ String "034" (":" ++ String "034" (code ++ String "034" "}"))).
Definition sendVerifyCodeByAliyun (cfg : SMSConfig) (phone code : string) : M St unit :=
  match cfg.(Aliyun) with
  | None => graise (ErrNew "aliyun config is empty")
  | Some a =>
      if str_eqb a.(AccessKeyID) "" || str_eqb a.(AccessKeySecret) "" then graise (ErrNew "aliyun access key id or access key secret is empty")
      else match ali_client a with
           | Some e => graise e
           | None =>
               let! resp := on_sms (ali_SendSms (mkSmsReq a.(AccessKeyID) a.(AccessKeySecret) a.(RegionID) "" phone cfg.(SignName) cfg.(TemplateCode) (template_param code))) in
               if str_eqb (fst resp) "OK" then gret tt else graise (failed (fst resp) (snd resp))
           end
  end.
Definition sendVerifyCodeByTencent (cfg : SMSConfig) (phone code : string) : M St unit :=
  match cfg.(Tencent) with
  | None => graise (ErrNew "tencent config is empty")
  | Some t =>
      if str_eqb t.(SecretID) "" || str_eqb t.(SecretKey) "" then graise (ErrNew "tencent secret_id or secret_key is empty")
      else
        let! resp := on_sms (fun x => let (a, x') := tencent_SendSms (mkSmsReq t.(SecretID) t.(SecretKey) t.(Region) t.(SmsSdkAppId) phone cfg.(SignName) cfg.(TemplateCode) code) x in
          (match a with SDKError s => Err (ErrNew ("an api error has returned: " ++ s)) | OtherError e => Err e | SendStatus l => Ok l end, x')) in
        match List.find (fun v => negb (str_eqb (fst v) "Ok")) resp with
        | Some v => graise (failed (fst v) (snd v))
        | None => gret tt
        end
  end.
Definition record_of (phone code outid : string) (err : option error) : SmsSend :=
  mkSmsSend 0 0 0 None phone code (match err with Some e => Error e | None => "" end) outid.
Definition create_sms (row : SmsSend) : M St unit := match too_long row with Some e => graise e | None => gorm_create [row] end.
(** The record is made whatever the outcome; its own error is not looked at. *)
Definition SendVerifyCode (group key phone code outid : string) : M St (option error) :=
  let! cfg := gtry (on_sms (GetYaml group key)) in
  match cfg with
  | Err e => gret (Some e)
  | Ok cfg =>
      let! sent := (match cfg.(Aliyun), cfg.(Tencent) with
                    | Some _, _ => gtry (sendVerifyCodeByAliyun cfg phone code)
                    | None, Some _ => gtry (sendVerifyCodeByTencent cfg phone code)
                    | None, None => gret (Err (ErrNew "sms config is empty"))
                    end) in
      let err := err_of sent in
      gtry (create_sms (record_of phone code outid err)) ;;;
      gret err
  end.

Definition keeps_table {A} (m : M St A) : Prop := forall w, sms_table (st (snd (m w))) = sms_table (st w).
Lemma on_sms_keeps {A} (f : X -> Res A * X) : keeps_table (on_sms f).
Proof. intros w. unfold on_sms, gextr. destruct (env_fault _); [done|]. by destruct (f _). Qed.
Lemma bind_keeps_table {A B} (m : M St A) (k : A -> M St B) : keeps_table m -> (forall a, keeps_table (k a)) -> keeps_table (gbind m k).
Proof. intros Hm Hk w. rewrite gbind_eq. specialize (Hm w). destruct (m w) as [[a|e] w1]; [|done]. by rewrite (Hk a w1). Qed.
Lemma ali_keeps cfg phone code : keeps_table (sendVerifyCodeByAliyun cfg phone code).
Proof.
  unfold sendVerifyCodeByAliyun. destruct (Aliyun cfg) as [a|]; [|done]. destruct (_ || _); [done|]. destruct (ali_client a); [done|].
  apply bind_keeps_table; [apply on_sms_keeps|]. intros resp. by destruct (str_eqb _ _).
Qed.
Lemma tencent_keeps cfg phone code : keeps_table (sendVerifyCodeByTencent cfg phone code).
Proof.
  unfold sendVerifyCodeByTencent. destruct (Tencent cfg) as [a|]; [|done]. destruct (_ || _); [done|].
  apply bind_keeps_table; [apply on_sms_keeps|]. intros resp. by destruct (List.find _ _).
Qed.
Lemma fresh_row now (t : GTab SmsSend) e : s_id e = 0 -> (forall r, In r (rows t) -> s_id r < next_id t) -> 0 < next_id t ->
  insert_rows now [e] t = Ok (mkGTab (rows t ++ [m_create now (next_id t) e]) (next_id t + 1)).
Proof.
  intros He Hf Hpos. cbn [insert_rows]. destruct (existsb _ _) eqn:E.
  - exfalso. apply existsb_exists in E as (r & Hr & E). specialize (Hf r Hr). cbn in E. rewrite He in E. unfold nz in E. cbn in E. apply Z.eqb_eq in E. lia.
  - cbn. unfold nz. rewrite He. cbn. do 3 f_equal. lia.
Qed.
(** Each code is recorded once the services are known, with the error of its
    sending, on a database that works, unless the record does not fit its
    columns, and then there is none; the answer is the error of the sending and
    never that of the record. *)
Theorem SendVerifyCode_recorded group key phone code outid w : (forall n, no_fault_from n) ->
  (forall r, In r (rows (sms_table (st w))) -> s_id r < next_id (sms_table (st w))) -> 0 < next_id (sms_table (st w)) ->
  exists err w', SendVerifyCode group key phone code outid w = (Ok err, w') /\
    match fst (GetYaml group key (sms_ext (st w))) with
    | Err e => err = Some e /\ rows (sms_table (st w')) = rows (sms_table (st w))
    | Ok _ =>
        match too_long (record_of phone code outid err) with
        | Some _ => rows (sms_table (st w')) = rows (sms_table (st w))
        | None => exists row, rows (sms_table (st w')) = (rows (sms_table (st w)) ++ [row])%list /\
            Phone row = phone /\ VerifyCode row = code /\ OutId row = outid /\ ErrMsg row = match err with Some e => Error e | None => "" end
        end
    end.
Proof.
  intros Hnf Hid Hpos. unfold SendVerifyCode. rewrite gbind_eq. unfold gtry at 1. unfold on_sms at 1. rewrite gextr_ok by (apply (Hnf 0%nat); lia).
  destruct (GetYaml group key (sms_ext (st w))) as [[cfg|e] x]; cbn [fst snd].
  2: { do 2 eexists. split; [reflexivity|]. by split. }
  set (w1 := mkWorld _ _). set (send := match Aliyun cfg, Tencent cfg with Some _, _ => _ | None, Some _ => _ | None, None => _ end).
  assert (Hs : exists r w2, send w1 = (Ok r, w2) /\ sms_table (st w2) = sms_table (st w)).
  { assert (Htry : forall m : M St unit, keeps_table m -> exists r w2, gtry m w1 = (Ok r, w2) /\ sms_table (st w2) = sms_table (st w)).
    { intros m Hm. unfold gtry. specialize (Hm w1). destruct (m w1) as [r w2]. by exists r, w2. }
    unfold send. destruct (Aliyun cfg), (Tencent cfg); try (apply Htry, ali_keeps); [apply Htry, tencent_keeps|by do 2 eexists]. }
  destruct Hs as (r & w2 & E & Ht). rewrite gbind_eq, E, gbind_eq. exists (err_of r). unfold create_sms.
  destruct (too_long _) as [e|]; [eexists; split; [reflexivity|exact (f_equal rows Ht)]|].
  unfold gtry, gorm_create. rewrite gbind_eq. cbn [gnow]. unfold tab_write. rewrite gextr_ok by (apply (Hnf 0%nat); lia). cbn [st get_tab sms_tab]. rewrite Ht, fresh_row by done.
  eexists. split; [reflexivity|]. eexists. cbn. split; [done|]. by split_and!.
Qed.
End Sms.

(** * [wecom.go], [notify.go] *)
Record WecomApp : Type := mkWecom { wx_Name : string; CompanyID : string; AgentID : Z; Secret : string; Token : string; EncodingAESKey : string }.
Definition zero_app : WecomApp := mkWecom "" "" 0 "" "" "".
Definition WecomApp_named (apps : list WecomApp) (name : string) : WecomApp :=
  match List.find (fun app => str_eqb app.(wx_Name) name) apps with Some app => app | None => zero_app end.
Definition IsValide (c : WecomApp) : bool :=
  negb (str_eqb c.(CompanyID) "") && negb (c.(AgentID) =? 0) && negb (str_eqb c.(Secret) "") && negb (str_eqb c.(Token) "") && negb (str_eqb c.(EncodingAESKey) "").
(** The text of a key is one character of padding short. *)
Definition AESKey (c : WecomApp) : list Z := match DecodeBase64 (c.(EncodingAESKey) ++ "=") with Ok key => key | Err _ => [] end.
Lemma unknown_app apps name : ~ In name (map wx_Name apps) -> IsValide (WecomApp_named apps name) = false.
Proof.
  intros Hn. unfold WecomApp_named. destruct (List.find _ apps) as [app|] eqn:E; [|done]. apply find_some in E as [Hin E].
  unfold str_eqb in E. apply String.eqb_eq in E as <-. destruct Hn. by apply in_map.
Qed.

(** * At work *)
Definition sms_conf : SMSConfig := mkSMS (Some (mkAli "cn" "" "id" "secret")) None "yg" "T1".
Definition sms_demo : World (SmsHost nat) := mkWorld 0 (mkSmsHost (mkGTab [] 1) 0%nat).
Definition narrow (r : SmsSend) : option error := if (100 <? String.length (ErrMsg r))%nat then Some (ErrNew "Data too long") else None.
Definition demo_send := SendVerifyCode (H := quietEnv) (fun _ _ n => (Ok sms_conf, n)) (fun _ => None)
  (fun q n => (Ok (if str_eqb (q_phone q) "0" then ("isv.MOBILE_NUMBER_ILLEGAL", "bad") else ("OK", "")), S n)) (fun _ n => (SendStatus [], n)) narrow "g" "k".
Lemma SendVerifyCode_recorded_witness : exists err w' row, demo_send "0" "123" "o" sms_demo = (Ok err, w') /\ rows (sms_table (st w')) = [row] /\
  ErrMsg row = match err with Some e => Error e | None => "" end.
Proof.
  destruct (SendVerifyCode_recorded (H := quietEnv) (fun _ _ n => (Ok sms_conf, n)) (fun _ => None)
    (fun q n => (Ok (if str_eqb (q_phone q) "0" then ("isv.MOBILE_NUMBER_ILLEGAL", "bad") else ("OK", "")), S n)) (fun _ n => (SendStatus [], n)) narrow
    "g" "k" "0" "123" "o" sms_demo quietEnv_ok) as (err & w' & E & Hrec).
  - intros r [].
  - cbn. lia.
  - assert (Herr : err = Some (failed "isv.MOBILE_NUMBER_ILLEGAL" "bad")) by (vm_compute in E; by injection E).
    rewrite Herr in *. destruct Hrec as (row & Hr & _ & _ & _ & He). exists (Some (failed "isv.MOBILE_NUMBER_ILLEGAL" "bad")), w', row.
    split; [exact E|]. split; [exact Hr|exact He].
Defined.
(** A long error of the service is not recorded at all. *)
Example long_error_lost : let failing := SendVerifyCode (H := quietEnv) (fun _ _ n => (Ok sms_conf, n)) (fun _ => None)
    (fun _ n => (Ok ("isv.BUSINESS_LIMIT_CONTROL", "the number of messages that can be sent to the number in one day is limited by the rules"), S n))
    (fun _ n => (SendStatus [], n)) narrow "g" "k" in
  rows (sms_table (st (snd (failing "0" "123" "o" sms_demo)))) = [].
Proof. vm_compute. reflexivity. Qed.
