(* ===== verification/Sse.v ===== *)
(** [src/apis/sseclient]: messages of a server-sent-events stream, kept in
    process memory ([memory.go]) or in Redis ([redis.go]) behind one interface
    ([cache.go]), and the client that writes, replays, follows and stops a
    stream ([client.go]).

    A blocking read is modelled at the moment it completes; what other users do
    meanwhile are steps of their own, interleaved with the turns of the reader.
    A context that ends is the parameter [ctx_done], by the count of calls. *)
From S2P Require Import Prelude.

(** * The interface *)
Class SseCache (S : Type) : Type := {
  WriteMessage : string -> string -> Z -> M S unit;
  ReadMessages : string -> M S (string * list string);
  ReadAfterID : string -> string -> G S (Res (string * string));
  Set_ : string -> Z -> M S unit;
  Exist : string -> M S bool;
  Delete : string -> M S unit;
}.

Definition Minute : Z := 60000000000.
Definition defaultExpiration : Z := 30 * Minute.
Definition defaultBlockTimeout : Z := 300000000.
Definition defaultBlockMaxRetry : Z := 3.
Definition writeKeyPrefix : string := "stream_write".
Definition stopKeyPrefix : string := "stream_stop".

(** * Process memory *)
(** [strings.ReplaceAll(s, old, new)] for a non-empty [old]. *)
Fixpoint replace_all (fuel : nat) (old new s : string) : string :=
  match fuel, s with
  | S fuel', String c s' =>
      if has_prefix old s then new ++ replace_all fuel' old new (str_drop (String.length old) s)
      else String c (replace_all fuel' old new s')
  | _, _ => s
  end.
Definition ReplaceAll (s old new : string) : string := replace_all (String.length s) old new s.

(** [idx, _ := strconv.Atoi(id)]: 0 for what is no number, the nearest [int]
    for one out of range. *)
Definition clamp_i64 (z : Z) : Z := Z.max (- two63) (Z.min (two63 - 1) z).
Definition Atoi_lax (s : string) : Z :=
  match s with
  | String "-" r => match dec_mag r with Some n => clamp_i64 (- n) | None => 0 end
  | String "+" r => match dec_mag r with Some n => clamp_i64 n | None => 0 end
  | _ => match dec_mag s with Some n => clamp_i64 n | None => 0 end
  end.

Module Mem.
Record memoryDataItem : Type := mkData { list_ : list string; expired : Z }.
Record memoryCache : Type := mk {
  dataMap : gmap string memoryDataItem;
  signals : gset string;
}.
Definition newMemoryCache : memoryCache := mk ∅ ∅.

Section Mem.
Context `{Env}.

Definition WriteMessage (key msg : string) (expiration : Z) : M memoryCache unit :=
  let! now := gnow in
  gmodify (fun m =>
    let l := match m.(dataMap) !! key with Some d => d.(list_) | None => [] end in
    mk (<[key := mkData (l ++ [msg]) (now + expiration)]> m.(dataMap)) m.(signals)).

(** An expired stream takes its stop signal along. *)
Definition expire (key : string) (m : memoryCache) : memoryCache :=
  mk (delete key m.(dataMap)) (m.(signals) ∖ {[ ReplaceAll key writeKeyPrefix stopKeyPrefix ]}).

Definition ReadMessages (key : string) : M memoryCache (string * list string) :=
  let! m := gget in
  match m.(dataMap) !! key with
  | Some data =>
      let! now := gnow in
      if data.(expired) <? now then gmodify (expire key) ;;; gret (""%string, [])
      else gret (fmt_d (Z.of_nat (length data.(list_)) - 1), data.(list_))
  | None => gret (""%string, [])
  end.

(** [idx+1] wraps; a negative index panics. *)
Definition ReadAfterID (key id : string) : G memoryCache (Res (string * string)) :=
  let* m := pget in
  match m.(dataMap) !! key with
  | None => pret (Ok (""%string, ""%string))
  | Some data =>
      let* now := pnow in
      if data.(expired) <? now
      then let* _ := pmodify (expire key) in pret (Ok (""%string, ""%string))
      else
        let next := wrap_i64 (Atoi_lax id + 1) in
        if Z.of_nat (length data.(list_)) <=? next then pret (Ok (""%string, ""%string))
        else if next <? 0 then ppanic "runtime error: index out of range"
             else pret (Ok (fmt_d next, nth (Z.to_nat next) data.(list_) ""%string))
  end.

Definition Set_ (key : string) (expiration : Z) : M memoryCache unit :=
  gmodify (fun m => mk m.(dataMap) ({[ key ]} ∪ m.(signals))).
(** It looks among the streams, not among the signals. *)
Definition Exist (key : string) : M memoryCache bool :=
  let! m := gget in gret (bool_decide (is_Some (m.(dataMap) !! key))).
Definition Delete (key : string) : M memoryCache unit :=
  gmodify (fun m => mk (delete key m.(dataMap)) m.(signals)).
End Mem.
End Mem.

#[export] Instance MemSse `{Env} : SseCache Mem.memoryCache := {
  WriteMessage := Mem.WriteMessage;
  ReadMessages := Mem.ReadMessages;
  ReadAfterID := Mem.ReadAfterID;
  Set_ := Mem.Set_;
  Exist := Mem.Exist;
  Delete := Mem.Delete;
}.

(** * Redis *)
(** An entry of a stream: its id and its [data] field, if it has one. *)
Definition Entry : Type := string * option string.

(** The commands the program uses.  [s_until] is the time a key expires. *)
Class RedisSse (R : Type) : Type := {
  s_log : string -> R -> list Entry;
  s_flag : string -> R -> bool;
  s_until : string -> R -> option Z;
  s_XAdd : Z -> string -> string -> R -> R;
  s_Expire : Z -> string -> Z -> R -> R;
  s_XRange : Z -> string -> string -> R -> list Entry;      (* up to an id *)
  s_XRead : Z -> string -> string -> R -> Res (option Entry); (* the next one after an id *)
  s_Set : Z -> string -> Z -> R -> R;
  s_Del : string -> R -> R;
}.
Section View.
Context {R : Type} `{RedisSse R}.
Definition live_at (now : Z) (k : string) (r : R) : bool :=
  match s_until k r with Some t => now <? t | None => true end.
(** What a stream shows at a time, and [EXISTS]. *)
Definition shown (now : Z) (k : string) (r : R) : list Entry := if live_at now k r then s_log k r else [].
Definition exists_at (now : Z) (k : string) (r : R) : bool :=
  live_at now k r && (s_flag k r || negb (bool_decide (s_log k r = []))).
End View.

Module Rds.
Section Rds.
Context `{Env} {R : Type} `{RedisSse R}.

Definition cmd {A} (f : Z -> R -> A * R) : M R A := let! now := gnow in gext (f now).
Definition cmdr {A} (f : Z -> R -> Res A) : M R A := let! now := gnow in gextr (fun r => (f now r, r)).

Definition WriteMessage (key msg : string) (expiration : Z) : M R unit :=
  gfmt "failed to add message to redis stream, err: " (cmd (fun now r => (tt, s_XAdd now key msg r))) ;;;
  gfmt "failed to set expiration for redis stream, err: " (cmd (fun now r => (tt, s_Expire now key expiration r))).

Definition ReadMessages (key : string) : M R (string * list string) :=
  let! latest := gfmt "failed to get latest id, err: " (cmd (fun now r => (last (shown now key r), r))) in
  match latest with
  | None => gret (""%string, [])
  | Some (latestID, _) =>
      let! resList := gfmt "failed to read from redis stream, err: "
                        (cmd (fun now r => (s_XRange now key latestID r, r))) in
      gret (latestID, omap snd resList)
  end.

Definition ReadAfterID (key id : string) : G R (Res (string * string)) :=
  plift (let! res := gfmt "failed to read from redis stream, err: " (cmdr (fun now => s_XRead now key id)) in
         gret match res with
              | None => (""%string, ""%string)
              | Some (msgID, data) => (msgID, default ""%string data)
              end).

Definition Set_ (key : string) (expiration : Z) : M R unit :=
  gfmt "failed to set stop signal, err: " (cmd (fun now r => (tt, s_Set now key expiration r))).
Definition Exist (key : string) : M R bool :=
  gfmt "failed to get stop signal, err: " (cmd (fun now r => (exists_at now key r, r))).
Definition Delete (key : string) : M R unit :=
  gfmt "failed to delete message, err: " (cmd (fun now r => (tt, s_Del key r))).
End Rds.
End Rds.

Definition RedisSseCache `{Env} {R} `{RedisSse R} : SseCache R := {|
  WriteMessage := Rds.WriteMessage;
  ReadMessages := Rds.ReadMessages;
  ReadAfterID := Rds.ReadAfterID;
  Set_ := Rds.Set_;
  Exist := Rds.Exist;
  Delete := Rds.Delete;
|}.

(** * The client *)
Record config : Type := mkConfig { expiration : Z; blockTimeout : Z; blockMaxRetry : Z }.
(** [New]: the options on the defaults, the block timeout capped. *)
Definition New (opts : list (config -> config)) : config :=
  let cfg := fold_left (fun c o => o c) opts (mkConfig defaultExpiration defaultBlockTimeout defaultBlockMaxRetry) in
  if defaultBlockTimeout <? cfg.(blockTimeout)
  then mkConfig cfg.(expiration) defaultBlockTimeout cfg.(blockMaxRetry) else cfg.
Definition WithExpiration (e : Z) (c : config) : config := mkConfig e c.(blockTimeout) c.(blockMaxRetry).
Definition WithBlockTimeout (t : Z) (c : config) : config := mkConfig c.(expiration) t c.(blockMaxRetry).
Definition WithBlockMaxRetry (n : Z) (c : config) : config := mkConfig c.(expiration) c.(blockTimeout) n.

(** The writer of the response: absent, or one that can be flushed or not; what
    it was given is the second part of the state. *)
Inductive Writer : Type := NilWriter | PlainWriter | FlushWriter.
Record Sys (S : Type) : Type := mkSys { store : S; sent : list string }.
Arguments mkSys {S} store sent.
Arguments store {S} s.
Arguments sent {S} s.

Definition buildWriteKey (streamID : string) : string := writeKeyPrefix ++ ":" ++ streamID.
Definition buildStopKey (streamID : string) : string := stopKeyPrefix ++ ":" ++ streamID.
Definition wrap_i32 (z : Z) : Z := (z + 2147483648) mod 4294967296 - 2147483648.

Section Client.
Context `{Env} {S : Type} `{SseCache S} (cfg : config) (ctx_done : nat -> bool).

Definition on_store {A} (m : M S A) : M (Sys S) A :=
  fun w => let '(r, w') := m (mkWorld (calls w) (st w).(store)) in
           (r, mkWorld (calls w') (mkSys (st w') (st w).(sent))).
Definition on_store_p {A} (m : G S A) : G (Sys S) A :=
  fun w => let '(r, w') := m (mkWorld (calls w) (st w).(store)) in
           (r, mkWorld (calls w') (mkSys (st w') (st w).(sent))).

Definition SendEvent (writer : Writer) (msg : string) : M (Sys S) unit :=
  match writer with
  | NilWriter => graise (ErrNew "response writer is nil")
  | _ =>
      gfmt "failed to write to response writer: "
        (gext (fun s => (tt, mkSys s.(store) (s.(sent) ++ [msg])))) ;;;
      match writer with
      | FlushWriter => gret tt
      | _ => graise (ErrNew ("failed to flush response writer, msg:" ++ msg))
      end
  end.

(** Whether the write was stopped. *)
Definition Client_WriteMessage (writer : Writer) (streamID msg : string) : M (Sys S) bool :=
  let! stopped := gfmt "failed to get write stop signal, err: " (on_store (Exist (buildStopKey streamID))) in
  if stopped then gret true
  else
    on_store (WriteMessage (buildWriteKey streamID) msg cfg.(expiration)) ;;;
    SendEvent writer msg ;;;
    gret false.

Definition Client_ReadMessages (streamID : string) : M (Sys S) (string * list string) :=
  on_store (ReadMessages (buildWriteKey streamID)).

(** The local variables of [BlockRead]. *)
Record Reader : Type := mkReader { nextID : string; timeoutCount : Z; affectedRows : Z }.
Inductive Turn : Type :=
| Finished (over : bool) (rows : Z) (err : option error)
| Continue (r : Reader).

(** One round of the [for] loop. *)
Definition block_turn (writer : Writer) (streamID : string) (r : Reader) : G (Sys S) Turn :=
  let* stopped := plift (gfmt "failed to get write stop signal, err: " (on_store (Exist (buildStopKey streamID)))) in
  match stopped with
  | Err err => pret (Finished false 0 (Some err))
  | Ok true => pret (Finished true r.(affectedRows) None)
  | Ok false =>
      if wrap_i32 cfg.(blockMaxRetry) <=? r.(timeoutCount) then pret (Finished true r.(affectedRows) None)
      else fun w =>
        if ctx_done (calls w) then pret (Finished true r.(affectedRows) None) w
        else
          (let* res := on_store_p (ReadAfterID (buildWriteKey streamID) r.(nextID)) in
           match res with
           | Err err => pret (Finished false r.(affectedRows) (Some err))
           | Ok (msgID, msg) =>
               if str_eqb msgID "" then pret (Continue (mkReader r.(nextID) (wrap_i32 (r.(timeoutCount) + 1)) r.(affectedRows)))
               else
                 let* ev := plift (SendEvent writer msg) in
                 match ev with
                 | Err err => pret (Finished false r.(affectedRows) (Some err))
                 | Ok _ => pret (Continue (mkReader msgID 0 (wrap_i32 (r.(affectedRows) + 1))))
                 end
           end) w
  end.

(** [None] when the fuel ran out before the loop returned. *)
Fixpoint block_loop (fuel : nat) (writer : Writer) (streamID : string) (r : Reader)
    : G (Sys S) (option (bool * Z * option error)) :=
  match fuel with
  | O => pret None
  | Datatypes.S fuel' =>
      let* t := block_turn writer streamID r in
      match t with
      | Finished over rows err => pret (Some (over, rows, err))
      | Continue r' => block_loop fuel' writer streamID r'
      end
  end.
Definition BlockRead (fuel : nat) (writer : Writer) (streamID latestID : string) :
    G (Sys S) (option (bool * Z * option error)) :=
  block_loop fuel writer streamID (mkReader latestID 0 0).

Definition Stop (streamID : string) : M (Sys S) unit :=
  gfmt "failed to set write stop signal, err: "
    (on_store (Set_ (buildStopKey streamID) (wrap_i64 (cfg.(expiration) * 2)))) ;;;
  gfmt "failed to delete message, err: " (on_store (Delete (buildWriteKey streamID))).
Definition GetStopSignal (streamID : string) : M (Sys S) bool := on_store (Exist (buildStopKey streamID)).
Definition Close (streamID : string) : M (Sys S) unit :=
  gfmt "failed to delete stop signal, err: " (on_store (Delete (buildWriteKey streamID))).
End Client.

(** * What the client relies on *)
(** The messages of a stream with their ids, oldest first; the keys that no
    reading of the clock finds expired; the keys nothing is stored under. *)
Class SseCacheOk `{Env} (S : Type) (K : SseCache S) : Type := {
  slog : string -> S -> list (string * string);
  lasts : string -> S -> Prop;
  absent : string -> S -> Prop;
  slog_ids : forall k s, NoDup (map fst (slog k s)) /\ ~ In ""%string (map fst (slog k s));
  Exist_absent : forall k w, no_fault_from (calls w) -> absent k (st w) ->
    exists n, Exist k w = (Ok false, mkWorld n (st w)) /\ (calls w <= n)%nat;
  Read_next : forall k id w pre m post, no_fault_from (calls w) -> lasts k (st w) ->
    Z.of_nat (length (slog k (st w))) < two63 -> slog k (st w) = pre ++ (id, m) :: post ->
    exists n, ReadAfterID k id w = (Val (Ok (hd (""%string, ""%string) post)), mkWorld n (st w)) /\ (calls w <= n)%nat;
  Read_all : forall k w, no_fault_from (calls w) -> lasts k (st w) -> slog k (st w) <> [] ->
    exists id n, ReadMessages k w = (Ok (id, map snd (slog k (st w))), mkWorld n (st w)) /\ (calls w <= n)%nat /\
      exists pre m, slog k (st w) = pre ++ [(id, m)];
  Write_appends : forall k m e w, no_fault_from (calls w) -> (forall i j, env_clock j < env_clock i + e) ->
    lasts k (st w) ->
    exists id w', WriteMessage k m e w = (Ok tt, w') /\ (calls w <= calls w')%nat /\
      slog k (st w') = slog k (st w) ++ [(id, m)] /\ lasts k (st w') /\
      forall k', k' <> k -> absent k' (st w) -> absent k' (st w');
}.

(** ** Process memory *)
Lemma Atoi_lax_fmt_d n : 0 <= n < two63 -> Atoi_lax (fmt_d n) = n.
Proof.
  intros Hn. pose proof (dec_mag_fmt_d n ltac:(lia)) as Hd. destruct (fmt_d_head n ltac:(lia)) as (c & s & E & Hc).
  unfold Atoi_lax. rewrite E in *.
  assert (Hcl : clamp_i64 n = n) by (unfold clamp_i64, two63 in *; lia).
  destruct c as [[] [] [] [] [] [] [] []]; try discriminate Hc; rewrite Hd; exact Hcl.
Qed.

Section MemOk.
Context `{Env}.

Definition numbered (l : list string) : list (string * string) := imap (fun i m => (fmt_d (Z.of_nat i), m)) l.

Lemma fmt_d_inj a b : 0 <= a -> 0 <= b -> fmt_d a = fmt_d b -> a = b.
Proof.
  intros Ha Hb He. pose proof (dec_mag_fmt_d a Ha) as H1. rewrite He, dec_mag_fmt_d in H1 by done. congruence.
Qed.
Lemma numbered_lookup l i : numbered l !! i = (fun m => (fmt_d (Z.of_nat i), m)) <$> l !! i.
Proof. unfold numbered. by rewrite list_lookup_imap. Qed.
Lemma numbered_ids l : NoDup (map fst (numbered l)) /\ ~ In ""%string (map fst (numbered l)).
Proof.
  assert (Hl : forall i x, map fst (numbered l) !! i = Some x -> x = fmt_d (Z.of_nat i)).
  { intros i x. rewrite list_lookup_fmap, numbered_lookup. destruct (l !! i); [|done]. by intros [= <-]. }
  split.
  - apply NoDup_alt. intros i j x Hi Hj. apply Hl in Hi, Hj. apply Nat2Z.inj, fmt_d_inj; [lia..|congruence].
  - rewrite <- list_elem_of_In, list_elem_of_lookup. intros [i Hi]. apply Hl in Hi.
    destruct (fmt_d_head (Z.of_nat i)) as (c & s & E & _); [lia|]. by rewrite E in Hi.
Qed.
Lemma numbered_app l m : numbered (l ++ [m]) = numbered l ++ [(fmt_d (Z.of_nat (length l)), m)].
Proof. unfold numbered. rewrite imap_app. simpl. by rewrite Nat.add_0_r. Qed.
Lemma numbered_length l : length (numbered l) = length l.
Proof. apply length_imap. Qed.

Definition mem_list (k : string) (s : Mem.memoryCache) : list string :=
  match Mem.dataMap s !! k with Some d => Mem.list_ d | None => [] end.

Lemma mem_read_next k id (w : World Mem.memoryCache) pre m post :
  match Mem.dataMap (st w) !! k with Some d => forall i, env_clock i <= Mem.expired d | None => True end ->
  Z.of_nat (length (numbered (mem_list k (st w)))) < two63 ->
  numbered (mem_list k (st w)) = pre ++ (id, m) :: post ->
  exists n, Mem.ReadAfterID k id w = (Val (Ok (hd (""%string, ""%string) post)), mkWorld n (st w)) /\ (calls w <= n)%nat.
Proof.
  unfold mem_list, Mem.ReadAfterID. intros Hl Hlen He. rewrite pbind_eq. cbn [pget].
  destruct (Mem.dataMap (st w) !! k) as [d|]; [|by destruct pre]. rewrite pbind_eq. cbn [pnow].
  specialize (Hl (calls w)). destruct (Z.ltb_spec (Mem.expired d) (env_clock (calls w))); [lia|].
  set (l := Mem.list_ d) in *. set (i := length pre). rewrite numbered_length in Hlen.
  assert (Hi : numbered l !! i = Some (id, m)) by (rewrite He, lookup_app_r by done; unfold i; by rewrite Nat.sub_diag).
  rewrite numbered_lookup in Hi. destruct (l !! i) as [m'|] eqn:Eli; [|done]. injection Hi as <- ->.
  assert (Hll : length l = (i + S (length post))%nat)
    by (apply (f_equal length) in He; rewrite numbered_length, length_app in He; simpl in He; unfold i; lia).
  rewrite Atoi_lax_fmt_d by lia. rewrite wrap_i64_id by (unfold two63 in *; lia).
  assert (Hnext : numbered l !! S i = post !! 0%nat).
  { rewrite He, lookup_app_r by (unfold i; lia). replace (S i - length pre)%nat with 1%nat by (unfold i; lia). done. }
  rewrite numbered_lookup in Hnext. destruct post as [|[id' m''] post].
  - simpl in Hll. destruct (Z.leb_spec (Z.of_nat (length l)) (Z.of_nat i + 1)); [|lia].
    eexists. split; [reflexivity|]. simpl. lia.
  - simpl in Hll, Hnext. destruct (Z.leb_spec (Z.of_nat (length l)) (Z.of_nat i + 1)); [lia|].
    destruct (Z.ltb_spec (Z.of_nat i + 1) 0); [lia|].
    destruct (l !! S i) as [x|] eqn:Ex; [|done]. injection Hnext as Hid ->.
    replace (Z.to_nat (Z.of_nat i + 1)) with (S i) by lia. replace (Z.of_nat i + 1) with (Z.of_nat (S i)) by lia.
    rewrite (nth_lookup_Some _ _ _ _ Ex), Hid. eexists. split; [reflexivity|]. simpl. lia.
Qed.

#[export] Instance MemSseOk : SseCacheOk Mem.memoryCache MemSse.
Proof.
  refine {|
    slog k s := numbered (mem_list k s);
    lasts k s := match Mem.dataMap s !! k with Some d => forall i, env_clock i <= Mem.expired d | None => True end;
    absent k s := Mem.dataMap s !! k = None;
  |}.
  - intros k s. apply numbered_ids.
  - intros k w _ Ha. exists (calls w). simpl. unfold Mem.Exist, gget, gbind. rewrite Ha. split; [by destruct w|done].
  - intros k id w pre m post _. apply mem_read_next.
  - intros k w _ Hl Hne. simpl. unfold mem_list in *. unfold Mem.ReadMessages, gget, gbind, gnow, gret. cbn [st calls].
    destruct (Mem.dataMap (st w) !! k) as [d|]; [|done]. destruct (Z.ltb_spec (Mem.expired d) (env_clock (calls w))); [specialize (Hl (calls w)); lia|].
    assert (Hs : map snd (numbered (Mem.list_ d)) = Mem.list_ d).
    { apply list_eq. intros i. rewrite list_lookup_fmap, numbered_lookup. by destruct (Mem.list_ d !! i). }
    destruct (Mem.list_ d) as [|x l] using rev_ind; [done|]. clear IHl.
    eexists _, _. split; [by rewrite Hs|]. split; [simpl; lia|]. exists (numbered l), x.
    rewrite numbered_app, length_app. simpl. do 3 f_equal. f_equal. lia.
  - intros k m e w _ Hc Hl. simpl. unfold Mem.WriteMessage, gbind, gnow, gmodify. cbn [st calls].
    eexists _, _. split; [reflexivity|]. simpl. split; [lia|]. unfold mem_list. cbn [Mem.dataMap].
    rewrite lookup_insert_eq. cbn [Mem.list_ Mem.expired]. split_and!.
    + rewrite numbered_app. reflexivity.
    + intros i. specialize (Hc (calls w) i). lia.
    + intros k' Hk' Ha. by rewrite lookup_insert_ne.
Defined.
End MemOk.

(** ** Redis *)
(** What Redis documents of the commands, for streams whose entries were added
    by this package. *)
Class RedisSseOk (R : Type) (K : RedisSse R) : Prop := {
  log_ids : forall k (r : R), NoDup (map fst (s_log k r)) /\ ~ In ""%string (map fst (s_log k r));
  XAdd_log : forall now k m r, live_at now k r = true ->
    exists id, s_log k (s_XAdd now k m r) = s_log k r ++ [(id, Some m)];
  XAdd_flag : forall now k k' m r, s_flag k' (s_XAdd now k m r) = s_flag k' r;
  XAdd_other : forall now k k' m r, k' <> k ->
    s_log k' (s_XAdd now k m r) = s_log k' r /\ s_until k' (s_XAdd now k m r) = s_until k' r;
  Expire_log : forall now k k' d r, 0 < d ->
    s_log k' (s_Expire now k d r) = s_log k' r /\ s_flag k' (s_Expire now k d r) = s_flag k' r;
  Expire_until : forall now k d r, s_log k r <> [] -> s_until k (s_Expire now k d r) = Some (now + d);
  Expire_other : forall now k k' d r, k' <> k -> s_until k' (s_Expire now k d r) = s_until k' r;
  XRead_next : forall now k id r pre d post,
    live_at now k r = true -> s_log k r = pre ++ (id, d) :: post -> s_XRead now k id r = Ok (head post);
  XRange_upto : forall now k id r pre d post,
    live_at now k r = true -> s_log k r = pre ++ (id, d) :: post -> s_XRange now k id r = pre ++ [(id, d)];
  Set_flag : forall now k d r, 0 < d -> s_flag k (s_Set now k d r) = true /\ s_until k (s_Set now k d r) = Some (now + d);
  Del_gone : forall k k' (r : R), k' <> k ->
    s_log k (s_Del k r) = [] /\ s_flag k (s_Del k r) = false /\
    s_log k' (s_Del k r) = s_log k' r /\ s_flag k' (s_Del k r) = s_flag k' r /\ s_until k' (s_Del k r) = s_until k' r;
}.

Section RdsOk.
Context `{Env} {R : Type} {K : RedisSse R} `{!RedisSseOk R K}.

Definition messages (l : list Entry) : list (string * string) := map (fun e => (fst e, default ""%string (snd e))) l.
Lemma messages_ids l : map fst (messages l) = map fst l.
Proof. unfold messages. rewrite map_map. by apply map_ext. Qed.

Lemma omap_messages l : Forall (fun e => is_Some (snd e)) l -> omap snd l = map snd (messages l).
Proof. induction 1 as [|[i x] l' [y Hy] _ IH]; [done|]. simpl in *. subst x. csimpl. by rewrite IH. Qed.

Lemma messages_split l pre id m post : messages l = pre ++ (id, m) :: post ->
  exists pre' d post', l = pre' ++ (id, d) :: post' /\ pre = messages pre' /\ m = default ""%string d /\ post = messages post'.
Proof.
  unfold messages. intros He. apply map_eq_app in He as (l1 & l2 & -> & <- & He).
  apply map_eq_cons in He as ([id' d] & l3 & -> & E & <-). injection E as <- <-. by exists l1, d, l3.
Qed.

Definition rds_lasts (k : string) (r : R) : Prop :=
  (forall i, live_at (env_clock i) k r = true) /\ Forall (fun e => is_Some (snd e)) (s_log k r).
Definition rds_absent (k : string) (r : R) : Prop := s_log k r = [] /\ s_flag k r = false.

(** A command that does not fail. *)
Lemma cmd_ok {A} p (f : Z -> R -> A * R) (w : World R) : no_fault_from (calls w) ->
  gfmt p (Rds.cmd f) w = (Ok (fst (f (env_clock (calls w)) (st w))),
    mkWorld (S (S (calls w))) (snd (f (env_clock (calls w)) (st w)))).
Proof. intros Hnf. unfold gfmt, Rds.cmd, gbind, gnow. by rewrite gext_ok by (apply Hnf; simpl; lia). Qed.
Lemma cmdr_ok {A} p (f : Z -> R -> Res A) (w : World R) : no_fault_from (calls w) ->
  gfmt p (Rds.cmdr f) w = (match f (env_clock (calls w)) (st w) with Ok a => Ok a | Err e => Err (ErrNew (p ++ Error e)) end,
    mkWorld (S (S (calls w))) (st w)).
Proof.
  intros Hnf. unfold gfmt, Rds.cmdr, gbind, gnow. rewrite gextr_ok by (apply Hnf; simpl; lia). simpl.
  by destruct (f _ _).
Qed.

Lemma rds_write k m e (w : World R) :
  no_fault_from (calls w) -> (forall i j, env_clock j < env_clock i + e) -> rds_lasts k (st w) ->
  exists id w', Rds.WriteMessage k m e w = (Ok tt, w') /\ (calls w <= calls w')%nat /\
    messages (s_log k (st w')) = messages (s_log k (st w)) ++ [(id, m)] /\ rds_lasts k (st w') /\
    forall k', k' <> k -> rds_absent k' (st w) -> rds_absent k' (st w').
Proof.
  intros Hnf Hc [Hl Hdata]. pose proof (Hc 0%nat 0%nat) as He. unfold Rds.WriteMessage, gbind.
  rewrite cmd_ok by done. cbn [fst snd]. rewrite cmd_ok by (intros i Hi; apply Hnf; simpl in Hi; lia). cbn [fst snd calls st].
  set (r1 := s_XAdd _ k m (st w)).
  destruct (XAdd_log (env_clock (calls w)) k m (st w) (Hl _)) as [id Hid].
  destruct (Expire_log (env_clock (S (S (calls w)))) k k e r1 ltac:(lia)) as [Hlog _].
  eexists id, _. split; [reflexivity|]. cbn [calls st]. split_and!.
  - lia.
  - rewrite Hlog. unfold r1. rewrite Hid. unfold messages. by rewrite map_app.
  - split.
    + intros i. unfold live_at. rewrite Expire_until by (unfold r1; rewrite Hid; by destruct (s_log k (st w))).
      apply Z.ltb_lt, Hc.
    + rewrite Hlog. unfold r1. rewrite Hid. apply Forall_app. split; [done|]. repeat constructor. by eexists.
  - intros k' Hk' [Ha1 Ha2]. destruct (Expire_log (env_clock (S (S (calls w)))) k k' e r1 ltac:(lia)) as [Hl' Hf'].
    unfold rds_absent. rewrite Hl', Hf'. unfold r1. rewrite XAdd_flag. by destruct (XAdd_other (env_clock (calls w)) k k' m (st w) Hk') as [-> _].
Qed.

#[export] Instance RdsSseOk : SseCacheOk R RedisSseCache.
Proof.
  refine {|
    slog k r := messages (s_log k r);
    lasts := rds_lasts;
    absent := rds_absent;
  |}.
  - intros k r. rewrite messages_ids. apply log_ids.
  - intros k w Hnf [Ha1 Ha2]. simpl. unfold Rds.Exist. rewrite cmd_ok by done. cbn [fst snd].
    unfold exists_at. rewrite Ha2, Ha1, andb_false_r. eexists. split; [reflexivity|]. lia.
  - intros k id w pre m post Hnf [Hl _] _ He. apply messages_split in He as (pre' & d & post' & He & -> & -> & ->).
    simpl. unfold Rds.ReadAfterID, plift, gbind. rewrite cmdr_ok by done. rewrite (XRead_next _ _ _ _ _ _ _ (Hl _) He).
    unfold gret. destruct post' as [|[id' d'] post']; simpl; (eexists; split; [reflexivity|]; lia).
  - intros k w Hnf [Hl Hdata] Hne. simpl. unfold Rds.ReadMessages, gbind. rewrite cmd_ok by done. cbn [fst snd].
    unfold shown. rewrite Hl. destruct (s_log k (st w)) as [|[id d] l _] eqn:E using rev_ind; [done|].
    rewrite last_snoc. rewrite cmd_ok by (intros i Hi; apply Hnf; simpl in Hi; lia). cbn [fst snd calls st].
    rewrite (XRange_upto _ _ _ _ _ _ _ (Hl _) E). unfold gret. exists id, (S (S (S (S (calls w))))).
    rewrite omap_messages by done. split; [done|]. split; [lia|]. exists (messages l), (default ""%string d). unfold messages. by rewrite map_app.
  - apply rds_write.
Defined.
End RdsOk.

(** * Following a stream *)
Section Follow.
Context `{Env} {S : Type} {K : SseCache S} `{!SseCacheOk S K} (cfg : config) (ctx_done : nat -> bool).
Hypothesis Hnf : forall n, no_fault_from n.
Variable streamID : string.
Abbreviation wk := (buildWriteKey streamID).
Abbreviation turn := (block_turn cfg ctx_done FlushWriter streamID).

(** The stream neither expires nor is stopped. *)
Definition open_stream (s : S) : Prop := lasts wk s /\ absent (buildStopKey streamID) s.

Lemma on_store_eq {A} (m : M S A) (w : World (Sys S)) r n s :
  m (mkWorld (calls w) (store (st w))) = (r, mkWorld n s) ->
  on_store m w = (r, mkWorld n (mkSys s (sent (st w)))).
Proof. unfold on_store. by intros ->. Qed.

(** One turn of the reader behind the message [id]. *)
Lemma turn_eq r w pre m post :
  open_stream (store (st w)) -> Z.of_nat (length (slog wk (store (st w)))) < two63 ->
  slog wk (store (st w)) = pre ++ (nextID r, m) :: post ->
  exists n c, (calls w <= n)%nat /\
    turn r w =
      (if wrap_i32 (blockMaxRetry cfg) <=? timeoutCount r then (Val (Finished true (affectedRows r) None), mkWorld n (st w))
       else if ctx_done c then (Val (Finished true (affectedRows r) None), mkWorld n (st w))
       else match post with
            | [] => (Val (Continue (mkReader (nextID r) (wrap_i32 (timeoutCount r + 1)) (affectedRows r))), mkWorld n (st w))
            | (id', m') :: _ => (Val (Continue (mkReader id' 0 (wrap_i32 (affectedRows r + 1)))),
                                 mkWorld n (mkSys (store (st w)) (sent (st w) ++ [m'])))
            end).
Proof.
  intros [Hl Ha] Hlen He. set (w0 := mkWorld (calls w) (store (st w))).
  destruct (Exist_absent (buildStopKey streamID) w0 (Hnf _) Ha) as (n1 & Hex & Hn1).
  change (calls w0) with (calls w) in Hn1.
  change (st w0) with (store (st w)) in Hex. apply (on_store_eq _ w) in Hex. unfold block_turn. rewrite pbind_eq. unfold plift at 1, gfmt at 1. rewrite Hex.
  assert (Hst : mkSys (store (st w)) (sent (st w)) = st w) by (by destruct (st w)). rewrite Hst.
  destruct (_ <=? _); [exists n1, 0%nat; split; [done|reflexivity]|]. cbn [calls].
  destruct (ctx_done n1) eqn:Ec; [exists n1, n1; rewrite Ec; split; [done|reflexivity]|].
  destruct (Read_next wk (nextID r) (mkWorld n1 (store (st w))) pre m post (Hnf _) Hl Hlen He) as (n2 & Hrd & Hn2).
  simpl in Hn2. rewrite pbind_eq. unfold on_store_p. cbn [calls st]. rewrite Hrd. cbn [calls st]. rewrite Hst.
  destruct post as [|[id' m'] post]; cbn [hd str_eqb].
  { exists n2, n1. rewrite Ec. split; [simpl in *; lia|]. reflexivity. }
  assert (Hid : str_eqb id' "" = false).
  { apply not_true_iff_false. unfold str_eqb. intros ->%String.eqb_eq. apply (proj2 (slog_ids wk (store (st w)))).
    rewrite He, map_app. apply in_app_iff. right. simpl. auto. }
  rewrite Hid. rewrite pbind_eq. unfold plift, SendEvent, gfmt, gbind. rewrite gext_ok by (by apply (Hnf 0); lia).
  exists (Datatypes.S n2), n1. rewrite Ec. split; [simpl in *; lia|]. reflexivity.
Qed.

(** A call of another client on the same store: it sends to a response of its
    own. *)
Definition by_other {A} (m : M (Sys S) A) : M (Sys S) A :=
  fun w => let '(r, w') := m (mkWorld (calls w) (mkSys (store (st w)) [])) in
           (r, mkWorld (calls w') (mkSys (store (st w')) (sent (st w)))).
(** What happens to the stream: turns of the reader, and [WriteMessage] of other
    clients with any writers. *)
Inductive Ev : Type := ETurn | EWrite (writer : Writer) (msg : string).
Definition writes (evs : list Ev) : list string := omap (fun e => match e with EWrite _ m => Some m | ETurn => None end) evs.
Definition step (rw : option Reader * World (Sys S)) (e : Ev) : option Reader * World (Sys S) :=
  match e, fst rw with
  | EWrite writer m, _ => (fst rw, snd (by_other (Client_WriteMessage cfg writer streamID m) (snd rw)))
  | ETurn, Some r => match turn r (snd rw) with
                     | (Val (Continue r'), w') => (Some r', w')
                     | (_, w') => (None, w')
                     end
  | ETurn, None => rw
  end.
Definition follow (evs : list Ev) (r : option Reader) (w : World (Sys S)) : option Reader * World (Sys S) :=
  fold_left step evs (r, w).

Hypothesis Hclock : forall i j, env_clock j < env_clock i + cfg.(expiration).

Lemma SendEvent_store writer msg (w : World (Sys S)) : store (st (snd (SendEvent writer msg w))) = store (st w).
Proof.
  unfold SendEvent. destruct writer; [done|..]; rewrite gbind_eq; unfold gfmt; rewrite gext_ok by (by apply (Hnf 0); lia); done.
Qed.
Lemma write_eq writer msg (w : World (Sys S)) :
  open_stream (store (st w)) ->
  exists id, let w' := snd (by_other (Client_WriteMessage cfg writer streamID msg) w) in
    slog wk (store (st w')) = slog wk (store (st w)) ++ [(id, msg)] /\ open_stream (store (st w')) /\
    sent (st w') = sent (st w).
Proof.
  intros [Hl Ha]. set (w0 := mkWorld (calls w) (mkSys (store (st w)) ([] : list string))).
  destruct (Exist_absent (buildStopKey streamID) (mkWorld (calls w0) (store (st w0))) (Hnf _) Ha) as (n & Hex & _).
  assert (Hex' : on_store (Exist (buildStopKey streamID)) w0 = (Ok false, mkWorld n (mkSys (store (st w)) []))) by exact (on_store_eq _ w0 _ _ _ Hex).
  destruct (Write_appends wk msg _ (mkWorld n (store (st w))) (Hnf _) Hclock Hl) as (id & w1 & Hw & _ & Hlog & Hl' & Habs).
  assert (Hst : store (st (snd (Client_WriteMessage cfg writer streamID msg w0))) = st w1).
  { unfold Client_WriteMessage. rewrite gbind_eq. unfold gfmt at 1. rewrite Hex', gbind_eq. unfold on_store at 1.
    cbn [calls st store]. rewrite Hw. rewrite gbind_eq. pose proof (SendEvent_store writer msg (mkWorld (calls w1) (mkSys (st w1) ([] : list string)))) as Hs.
    cbn [calls st sent w0] in *. destruct (SendEvent writer msg _) as [[[]|e] w2]; exact Hs. }
  exists id. unfold by_other. fold w0. destruct (Client_WriteMessage cfg writer streamID msg w0) as [r w2]. cbn [fst snd st store sent] in *. rewrite Hst.
  split_and!; [done|split; [done|]|done]. apply Habs; [|done]. unfold buildStopKey, buildWriteKey. discriminate.
Qed.

Lemma follow_slice evs : forall r w pre id m post,
  open_stream (store (st w)) -> Z.of_nat (length (slog wk (store (st w))) + length evs) < two63 ->
  slog wk (store (st w)) = pre ++ (id, m) :: post -> (forall x, r = Some x -> nextID x = id) ->
  let w' := snd (follow evs r w) in
  exists got rest, sent (st w') = sent (st w) ++ map snd got /\
    slog wk (store (st w')) = pre ++ (id, m) :: got ++ rest /\
    map snd (got ++ rest) = map snd post ++ writes evs.
Proof.
  induction evs as [|e evs IH]; intros r w pre id m post Hop Hlen He Hr; cbv zeta.
  { exists [], post. simpl. by rewrite !app_nil_r. }
  simpl in Hlen. destruct e as [|writer msg].
  - destruct r as [r|]; [|by apply (IH None w pre id m post); [|lia|..]].
    specialize (Hr r eq_refl). subst id.
    destruct (turn_eq r w pre m post Hop ltac:(lia) He) as (n & c & _ & Ht).
    unfold follow. cbn [fold_left step fst snd]. rewrite Ht.
    destruct (_ <=? _); [by apply (IH None (mkWorld n (st w)) pre (nextID r) m post); [|simpl; lia|..]|].
    destruct (ctx_done c); [by apply (IH None (mkWorld n (st w)) pre (nextID r) m post); [|simpl; lia|..]|].
    destruct post as [|[id' m'] post].
    + apply (IH (Some _) (mkWorld n (st w)) pre (nextID r) m []); [done|simpl; lia|done|]. by intros x [= <-].
    + set (w1 := mkWorld n _).
      destruct (IH (Some (mkReader id' 0 (wrap_i32 (affectedRows r + 1)))) w1 (pre ++ [(nextID r, m)]) id' m' post)
        as (got & rest & Hs & Hlog & Hm); [done|simpl; lia|by rewrite <- app_assoc|by intros x [= <-]|].
      exists ((id', m') :: got), rest. unfold follow in *. rewrite Hs, Hlog. simpl. split_and!.
      * by rewrite <- app_assoc.
      * by rewrite <- app_assoc.
      * by rewrite Hm.
  - unfold follow. cbn [fold_left step fst snd].
    destruct (write_eq writer msg w Hop) as (id' & Hlog & Hop' & Hs). cbv zeta in *.
    set (w1 := snd (by_other (Client_WriteMessage cfg writer streamID msg) w)) in *.
    destruct (IH r w1 pre id m (post ++ [(id', msg)])) as (got & rest & Hs' & Hlog' & Hm);
      [done|rewrite Hlog, length_app; simpl; lia|rewrite Hlog, He; by rewrite <- app_assoc|done|].
    exists got, rest. unfold follow in *. rewrite Hs', Hs. split_and!; [done|done|]. rewrite Hm, map_app, <- app_assoc. done.
Qed.

(** C36: A reader that replays a stream that is not empty and follows it from the id
    it got misses nothing and repeats nothing: at any time, however the turns of
    its [BlockRead] interleave with the writes of other clients, the messages
    replayed and those sent since are, in order, the first messages of the
    stream.  The stream neither expires nor is stopped meanwhile, the services do
    not fail, and [BlockRead] goes on from the id that [ReadMessages] answered
    (any other id is outside this theorem: the empty one loses the first message
    in memory, [zero_id_differs]). *)
Theorem replay_then_follow w :
  open_stream (store (st w)) -> slog wk (store (st w)) <> [] ->
  exists id l w1, Client_ReadMessages streamID w = (Ok (id, l), w1) /\
    forall evs, Z.of_nat (length (slog wk (store (st w))) + length evs) < two63 ->
      let w2 := snd (follow evs (Some (mkReader id 0 0)) w1) in
      exists new rest, sent (st w2) = sent (st w) ++ new /\
        map snd (slog wk (store (st w2))) = l ++ new ++ rest /\
        l ++ new ++ rest = map snd (slog wk (store (st w))) ++ writes evs.
Proof.
  intros Hop Hne. destruct (Read_all wk (mkWorld (calls w) (store (st w))) (Hnf _) (proj1 Hop) Hne)
    as (id & n & Hrd & _ & pre & m & Hlast). cbn [st] in *.
  eexists id, _, _. split; [unfold Client_ReadMessages; by apply on_store_eq|]. intros evs Hlen. cbv zeta.
  set (w1 := mkWorld n _).
  destruct (follow_slice evs (Some (mkReader id 0 0)) w1 pre id m []) as (got & rest & Hs & Hlog & Hm);
    [done|done|done|by intros x [= <-]|]. simpl in Hs.
  exists (map snd got), (map snd rest). rewrite Hs, Hlog. split; [done|].
  rewrite map_app in Hm. simpl in Hm. rewrite Hlast, !map_app. simpl. rewrite !map_app.
  split; [by rewrite <- app_assoc|]. by rewrite Hm.
Qed.

(** ** A stream nobody writes to *)
Hypothesis Hctx : forall n, ctx_done n = false.
Hypothesis Hmax : 0 < wrap_i32 (blockMaxRetry cfg).

Lemma wrap_i32_range z : -2147483648 <= wrap_i32 z < 2147483648.
Proof. unfold wrap_i32. pose proof (Z.mod_pos_bound (z + 2147483648) 4294967296). lia. Qed.
Lemma wrap_i32_id z : -2147483648 <= z < 2147483648 -> wrap_i32 z = z.
Proof. intros. unfold wrap_i32. rewrite Z.mod_small; lia. Qed.

(** With nothing left to read, the retries are used up. *)
Lemma drained fuel : forall r w pre m,
  open_stream (store (st w)) -> Z.of_nat (length (slog wk (store (st w)))) < two63 ->
  slog wk (store (st w)) = pre ++ [(nextID r, m)] -> 0 <= timeoutCount r <= wrap_i32 (blockMaxRetry cfg) ->
  wrap_i32 (blockMaxRetry cfg) - timeoutCount r < Z.of_nat fuel ->
  exists n, block_loop cfg ctx_done fuel FlushWriter streamID r w =
    (Val (Some (true, affectedRows r, None)), mkWorld n (st w)).
Proof.
  pose proof (wrap_i32_range (blockMaxRetry cfg)) as Hrange.
  induction fuel as [|fuel IH]; intros r w pre m Hop Hlen He Ht Hf; [lia|].
  destruct (turn_eq r w pre m [] Hop Hlen He) as (n & c & Hn & Hturn). cbn [block_loop]. rewrite pbind_eq, Hturn, Hctx.
  destruct (Z.leb_spec (wrap_i32 (blockMaxRetry cfg)) (timeoutCount r)); [by exists n|].
  destruct (IH (mkReader (nextID r) (wrap_i32 (timeoutCount r + 1)) (affectedRows r)) (mkWorld n (st w)) pre m)
    as (n' & Hl); [done|done|done|cbn [timeoutCount]; rewrite (wrap_i32_id (timeoutCount r + 1)) by lia; lia..|]. by exists n'.
Qed.

Lemma drains post : forall fuel r w pre m,
  open_stream (store (st w)) -> Z.of_nat (length (slog wk (store (st w)))) < two63 ->
  slog wk (store (st w)) = pre ++ (nextID r, m) :: post -> timeoutCount r = 0 ->
  0 <= affectedRows r -> affectedRows r + Z.of_nat (length post) < 2147483648 ->
  Z.of_nat (length post) + wrap_i32 (blockMaxRetry cfg) < Z.of_nat fuel ->
  exists n, block_loop cfg ctx_done fuel FlushWriter streamID r w =
    (Val (Some (true, affectedRows r + Z.of_nat (length post), None)),
     mkWorld n (mkSys (store (st w)) (sent (st w) ++ map snd post))).
Proof.
  induction post as [|[id' m'] post IH]; intros fuel r w pre m Hop Hlen He Ht Ha Hb Hf.
  { destruct (drained fuel r w pre m Hop Hlen He) as (n & Hl); [lia|simpl in Hf; lia|].
    exists n. simpl. rewrite Z.add_0_r, app_nil_r. rewrite Hl. by destruct (st w). }
  destruct fuel as [|fuel]; [simpl in Hf; lia|]. simpl in Hf, Hb.
  destruct (turn_eq r w pre m _ Hop Hlen He) as (n & c & Hn & Hturn). cbn [block_loop]. rewrite pbind_eq, Hturn, Hctx, Ht.
  destruct (Z.leb_spec (wrap_i32 (blockMaxRetry cfg)) 0); [lia|]. rewrite (wrap_i32_id (affectedRows r + 1)) by lia.
  set (w1 := mkWorld n _).
  destruct (IH fuel (mkReader id' 0 (affectedRows r + 1)) w1 (pre ++ [(nextID r, m)]) m') as (n' & Hl);
    [done|done|by rewrite <- app_assoc|done|cbn [affectedRows]; lia..|].
  exists n'. rewrite Hl. cbn [affectedRows]. simpl. rewrite <- app_assoc. f_equal. do 4 f_equal. lia.
Qed.

(** On a stream that nobody else writes to, [BlockRead] from an id sends
    exactly the messages after it, in order, and returns their number as soon
    as the retries are used up. *)
Theorem BlockRead_drains fuel w id pre m post :
  open_stream (store (st w)) -> Z.of_nat (length (slog wk (store (st w)))) < 2147483648 ->
  slog wk (store (st w)) = pre ++ (id, m) :: post ->
  Z.of_nat (length post) + wrap_i32 (blockMaxRetry cfg) < Z.of_nat fuel ->
  exists n, BlockRead cfg ctx_done fuel FlushWriter streamID id w =
    (Val (Some (true, Z.of_nat (length post), None)),
     mkWorld n (mkSys (store (st w)) (sent (st w) ++ map snd post))).
Proof.
  intros Hop Hlen He Hf. assert (Hp : (length post <= length (slog wk (store (st w))))%nat).
  { rewrite He, length_app. simpl. lia. }
  apply (drains post fuel (mkReader id 0 0) w pre m); unfold two63 in *; simpl; try done; lia.
Qed.
End Follow.

(** * Stopping a stream *)
Section StopSpec.
Context `{Env} {R : Type} {K : RedisSse R} `{!RedisSseOk R K} (cfg : config) (ctx_done : nat -> bool).
Hypothesis Hnf : forall n, no_fault_from n.
Hypotheses (Hexp : 0 < cfg.(expiration)) (Hmax : 2 * cfg.(expiration) < two63)
  (Hclock : forall i j, env_clock j < env_clock i + 2 * cfg.(expiration)).

Lemma on_cmd {A} p p' (f : Z -> R -> A * R) (w : World (Sys R)) :
  gfmt p' (on_store (gfmt p (Rds.cmd f))) w =
  (Ok (fst (f (env_clock (calls w)) (store (st w)))),
   mkWorld (S (S (calls w))) (mkSys (snd (f (env_clock (calls w)) (store (st w)))) (sent (st w)))).
Proof. unfold gfmt at 1, on_store. by rewrite cmd_ok by (simpl; done). Qed.

(** After [Stop] on Redis, for the life of the signal, a write is refused
    and changes nothing and a blocking read is over at once; in memory the
    signal is stored where [Exist] does not look, so a stopped stream takes the
    next write as if nothing had happened. *)
Theorem Stop_spec streamID msg latestID (w : World (Sys R)) (wm : World (Sys Mem.memoryCache)) :
  let w' := snd (Stop (H0:=RedisSseCache) cfg streamID w) in
  let wm' := snd (Stop (H0:=MemSse) cfg streamID wm) in
  Mem.dataMap (store (st wm)) !! buildStopKey streamID = None ->
  (fst (Stop (H0:=RedisSseCache) cfg streamID w) = Ok tt /\
   fst (Client_WriteMessage (H0:=RedisSseCache) cfg FlushWriter streamID msg w') = Ok true /\
   after (Client_WriteMessage (H0:=RedisSseCache) cfg FlushWriter streamID msg) w' = st w' /\
   (forall fuel, fst (BlockRead (H0:=RedisSseCache) cfg ctx_done (Datatypes.S fuel) FlushWriter streamID latestID w') =
      Val (Some (true, 0, None)))) /\
  (fst (Stop (H0:=MemSse) cfg streamID wm) = Ok tt /\
   fst (Client_WriteMessage (H0:=MemSse) cfg FlushWriter streamID msg wm') = Ok false /\
   sent (after (Client_WriteMessage (H0:=MemSse) cfg FlushWriter streamID msg) wm') = sent (st wm) ++ [msg]).
Proof.
  cbv zeta. intros Habs.
  assert (Hkeys : buildStopKey streamID <> buildWriteKey streamID) by discriminate. split.
  - set (sk := buildStopKey streamID). set (wk := buildWriteKey streamID).
    destruct (Stop (H0:=RedisSseCache) cfg streamID w) as [r w'] eqn:Es. cbn [snd].
    assert (Hs : r = Ok tt /\ forall i, exists_at (env_clock i) sk (store (st w')) = true).
    { unfold Stop, gbind in Es. fold sk wk in Es. simpl in Es. unfold Rds.Set_, Rds.Delete in Es.
      rewrite !on_cmd in Es. cbn [fst snd calls st store] in Es. injection Es as <- <-.
      split; [done|]. intros i. cbn [st store].
      rewrite wrap_i64_id by lia. unfold exists_at, live_at.
      destruct (Del_gone wk sk (s_Set (env_clock (calls w)) sk (cfg.(expiration) * 2) (store (st w))) Hkeys)
        as (_ & _ & _ & -> & ->).
      destruct (Set_flag (env_clock (calls w)) sk (cfg.(expiration) * 2) (store (st w))) as [-> ->]; [lia|]. simpl.
      specialize (Hclock (calls w) i). destruct (Z.ltb_spec (env_clock i) (env_clock (calls w) + cfg.(expiration) * 2)); [done|lia]. }
    destruct Hs as [-> Hex]. split; [done|].
    assert (Hstopped : gfmt "failed to get write stop signal, err: " (on_store (Exist (SseCache:=RedisSseCache) sk)) w' =
      (Ok true, mkWorld (S (S (calls w'))) (st w'))).
    { simpl. unfold Rds.Exist. rewrite on_cmd. cbn [fst snd]. rewrite Hex. by destruct (st w'). }
    split_and!.
    + unfold Client_WriteMessage, gbind. fold sk. by rewrite Hstopped.
    + unfold after, Client_WriteMessage, gbind. fold sk. by rewrite Hstopped.
    + intros fuel. unfold BlockRead. cbn [block_loop]. rewrite pbind_eq. unfold block_turn. rewrite pbind_eq.
      fold sk. unfold plift. by rewrite Hstopped.
  - unfold Stop, Client_WriteMessage, after, gbind, gfmt, on_store, SendEvent, gfmt, gbind.
    simpl. unfold Mem.Exist, Mem.WriteMessage, gbind, gget, gret, gmodify, gnow. simpl.
    rewrite lookup_delete_ne by (intros He; by apply Hkeys). rewrite Habs. simpl.
    rewrite gext_ok by (by apply (Hnf 0); lia). done.
Qed.
End StopSpec.

(** * An executable Redis *)
Module Toy.
Record t : Type := mk { streams : gmap string (list string); flags : gset string; expires : gmap string Z }.
Definition id_of (i : nat) : string := fmt_d (Z.of_nat i + 1) ++ "-0".
Definition entries (l : list string) : list Entry := imap (fun i m => (id_of i, Some m)) l.
Definition log (k : string) (r : t) : list Entry := entries (default [] (streams r !! k)).
(** The number before the dash: how many entries are not after the id. *)
Definition ms_of (id : string) : option nat :=
  match split_on "-" id with p :: _ => Z.to_nat <$> dec_mag p | [] => None end.
Definition alive (now : Z) (k : string) (r : t) : bool :=
  match expires r !! k with Some e => now <? e | None => true end.
Definition XAdd (now : Z) (k m : string) (r : t) : t :=
  if alive now k r then mk (<[k := default [] (streams r !! k) ++ [m]]> (streams r)) (flags r) (expires r)
  else mk (<[k := [m]]> (streams r)) (flags r) (delete k (expires r)).
Definition XRead (now : Z) (k id : string) (r : t) : Res (option Entry) :=
  match ms_of id with
  | None => Err (ErrVar "ERR Invalid stream ID specified as stream command argument")
  | Some n => Ok (if alive now k r then log k r !! n else None)
  end.
#[export] Instance toy : RedisSse t := {
  s_log := log;
  s_flag k r := bool_decide (k ∈ flags r);
  s_until k r := expires r !! k;
  s_XAdd := XAdd;
  s_Expire now k d r := mk (streams r) (flags r) (<[k := now + d]> (expires r));
  s_XRange now k id r := match ms_of id with Some n => take n (log k r) | None => [] end;
  s_XRead := XRead;
  s_Set now k d r := mk (streams r) ({[ k ]} ∪ flags r) (<[k := now + d]> (expires r));
  s_Del k r := mk (delete k (streams r)) (flags r ∖ {[ k ]}) (delete k (expires r));
}.

Lemma ms_of_id i : ms_of (id_of i) = Some (S i).
Proof.
  unfold ms_of, id_of. change "-0"%string with (String "-" "0").
  rewrite split_on_app by (apply fmt_d_no_minus; lia). rewrite dec_mag_fmt_d by lia. simpl. f_equal. lia.
Qed.
Lemma id_of_inj i j : id_of i = id_of j -> i = j.
Proof. intros He. pose proof (ms_of_id i) as Hi. rewrite He, ms_of_id in Hi. congruence. Qed.
Lemma entries_lookup l i : entries l !! i = (fun m => (id_of i, Some m)) <$> l !! i.
Proof. unfold entries. by rewrite list_lookup_imap. Qed.
Lemma entries_at l pre id d post : entries l = pre ++ (id, d) :: post -> id = id_of (length pre).
Proof.
  intros He. assert (Hi : entries l !! length pre = Some (id, d)) by (rewrite He, lookup_app_r by done; by rewrite Nat.sub_diag).
  rewrite entries_lookup in Hi. destruct (l !! length pre); [|done]. by injection Hi as <- _.
Qed.

#[export] Instance toyOk : RedisSseOk t toy.
Proof.
  constructor; simpl.
  - intros k r. unfold log. set (l := default [] _).
    assert (Hl : forall i x, map fst (entries l) !! i = Some x -> x = id_of i).
    { intros i x. rewrite list_lookup_fmap, entries_lookup. destruct (l !! i); [|done]. by intros [= <-]. }
    split.
    + apply NoDup_alt. intros i j x Hi Hj. apply Hl in Hi, Hj. apply id_of_inj. congruence.
    + rewrite <- list_elem_of_In, list_elem_of_lookup. intros [i Hi]. apply Hl in Hi. unfold id_of in Hi.
      by destruct (fmt_d (Z.of_nat i + 1)).
  - intros now k m r Hl. unfold XAdd, log. change (alive now k r) with (live_at now k r). rewrite Hl. simpl.
    rewrite lookup_insert_eq. simpl. unfold entries. rewrite imap_app. simpl. by eexists.
  - intros now k k' m r. unfold XAdd. by destruct (alive now k r).
  - intros now k k' m r Hk. unfold XAdd, log. destruct (alive now k r); simpl; rewrite ?lookup_insert_ne, ?lookup_delete_ne by done; done.
  - done.
  - intros now k d r _. apply lookup_insert_eq.
  - intros now k k' d r Hk. by apply lookup_insert_ne.
  - intros now k id r pre d post Hl He. unfold XRead. rewrite (entries_at _ _ _ _ _ He), ms_of_id.
    change (alive now k r) with (live_at now k r). rewrite Hl, He. f_equal.
    rewrite (lookup_app_r pre) by lia. replace (S (length pre) - length pre)%nat with 1%nat by lia. by destruct post.
  - intros now k id r pre d post Hl He. pose proof (entries_at _ _ _ _ _ He) as ->. rewrite ms_of_id, He.
    rewrite <- Nat.add_1_r, take_app_add. done.
  - intros now k d r _. split; [apply bool_decide_eq_true; set_solver|apply lookup_insert_eq].
  - intros k k' r Hk. unfold log. cbn [streams flags expires]. rewrite lookup_delete_eq, !lookup_delete_ne by done. split_and!; try done.
    + apply bool_decide_eq_false. set_solver.
    + apply bool_decide_ext. set_solver.
Qed.
End Toy.

(** * Concrete runs *)
Definition sse_env : Env := {| env_clock := fun _ => 1000; env_fault := fun _ => None |}.
#[local] Existing Instances sse_env Toy.toy Toy.toyOk.
Definition sse_cfg : config := New [].
Definition never : nat -> bool := fun _ => false.
Lemma sse_no_fault n : no_fault_from n.
Proof. by intros i _. Qed.
Lemma sse_clock (i j : nat) : env_clock j < env_clock i + expiration sse_cfg.
Proof. simpl. reflexivity. Qed.

(** Three messages written by the program, in Redis and in memory. *)
Definition three (K : SseCache Toy.t) : World (Sys Toy.t) :=
  snd (gfor ["a"; "b"; "c"]%string (fun m => Client_WriteMessage sse_cfg FlushWriter "s" m ;;; gret tt) (mkWorld 0 (mkSys (Toy.mk ∅ ∅ ∅) []))).
Definition three_rds : World (Sys Toy.t) := three RedisSseCache.
Definition three_mem : World (Sys Mem.memoryCache) :=
  snd (gfor ["a"; "b"; "c"]%string (fun m => Client_WriteMessage sse_cfg FlushWriter "s" m ;;; gret tt) (mkWorld 0 (mkSys Mem.newMemoryCache []))).

(** Read from the start: both caches take the id 0, and the one in memory skips
    the first message. *)
Example zero_id_differs :
  sent (st (snd (BlockRead (H0:=RedisSseCache) sse_cfg never 10 FlushWriter "s" "0" three_rds))) = ["a"; "b"; "c"; "a"; "b"; "c"]%string /\
  sent (st (snd (BlockRead (H0:=MemSse) sse_cfg never 10 FlushWriter "s" "0" three_mem))) = ["a"; "b"; "c"; "b"; "c"]%string.
Proof. vm_compute. split; reflexivity. Qed.
(** An id below -1, or the largest one, takes the process down. *)
Example negative_id_panics :
  fst (BlockRead (H0:=MemSse) sse_cfg never 10 FlushWriter "s" "-5" three_mem) = Panic "runtime error: index out of range" /\
  fst (BlockRead (H0:=MemSse) sse_cfg never 10 FlushWriter "s" "9223372036854775807" three_mem) = Panic "runtime error: index out of range".
Proof. vm_compute. split; reflexivity. Qed.

Example three_mem_log : slog (SseCacheOk:=MemSseOk) "stream_write:s" (store (st three_mem)) = [("0", "a"); ("1", "b"); ("2", "c")]%string.
Proof. vm_compute. reflexivity. Qed.
Lemma three_mem_open : open_stream (K:=MemSse) "s" (store (st three_mem)).
Proof.
  split; [|vm_compute; reflexivity]. unfold lasts, MemSseOk.
  replace (Mem.dataMap (store (st three_mem)) !! buildWriteKey "s") with
    (Some (Mem.mkData ["a"; "b"; "c"]%string (1000 + 30 * Minute))) by (vm_compute; reflexivity).
  intros i. simpl. discriminate.
Qed.

Lemma BlockRead_drains_witness :
  exists n, BlockRead (H0:=MemSse) sse_cfg never 6 FlushWriter "s" "0" three_mem =
    (Val (Some (true, 2, None)), mkWorld n (mkSys (store (st three_mem)) (sent (st three_mem) ++ ["b"; "c"]%string))).
Proof.
  apply (@BlockRead_drains sse_env Mem.memoryCache MemSse MemSseOk sse_cfg never sse_no_fault "s" (fun _ => eq_refl) ltac:(reflexivity)
    6 three_mem "0" [] "a" [("1", "b"); ("2", "c")]%string three_mem_open).
  - change (buildWriteKey "s") with "stream_write:s"%string. rewrite three_mem_log. reflexivity.
  - exact three_mem_log.
  - reflexivity.
Defined.

Lemma replay_then_follow_witness :
  exists id l w1, Client_ReadMessages (H0:=MemSse) "s" three_mem = (Ok (id, l), w1) /\
    exists new rest, l ++ new ++ rest = ["a"; "b"; "c"; "d"; "e"]%string /\
      sent (st (snd (follow (K:=MemSse) sse_cfg never "s" [EWrite FlushWriter "d"; ETurn; EWrite NilWriter "e"] (Some (mkReader id 0 0)) w1))) = ["a"; "b"; "c"]%string ++ new.
Proof.
  destruct (@replay_then_follow sse_env Mem.memoryCache MemSse MemSseOk sse_cfg never sse_no_fault "s" sse_clock three_mem three_mem_open)
    as (id & l & w1 & Hr & Hf).
  - change (buildWriteKey "s") with "stream_write:s"%string. rewrite three_mem_log. discriminate.
  - exists id, l, w1. split; [exact Hr|]. destruct (Hf [EWrite FlushWriter "d"; ETurn; EWrite NilWriter "e"]) as (new & rest & Hs & _ & Hl).
    + change (buildWriteKey "s") with "stream_write:s"%string. rewrite three_mem_log. reflexivity.
    + exists new, rest. split; [|exact Hs]. rewrite Hl. change (buildWriteKey "s") with "stream_write:s"%string.
      rewrite three_mem_log. reflexivity.
Defined.

Lemma Stop_spec_witness :
  fst (Client_WriteMessage (H0:=RedisSseCache) sse_cfg FlushWriter "s" "d" (snd (Stop (H0:=RedisSseCache) sse_cfg "s" three_rds))) = Ok true.
Proof.
  refine (proj1 (proj2 (proj1 (@Stop_spec sse_env Toy.t Toy.toy Toy.toyOk sse_cfg never sse_no_fault _ _ _ "s" "d" "0" three_rds three_mem _))));
    [reflexivity|reflexivity|intros i j; reflexivity|].
  vm_compute. reflexivity.
Defined.
