(* ===== verification/Scroll.v ===== *)
(** [src/dbtools/estool/scroll.go]: reading all hits of an Elasticsearch query
    page by page through a scroll context, and [src/dbtools/esquery]: building
    the query.

    The service is the class [Scrolling]; the JSON of the query and of a hit are
    the class [HitCodec].  The state holds the service and the destination
    slice, so that what an error leaves in the slice is visible. *)
From S2P Require Import Prelude.

(** * [esquery] *)
(** The dynamic values of a query body. *)
Inductive Val_ : Type :=
| VStr (s : string)
| VInt (z : Z)
| VStrs (l : list string)
| VMap (m : gmap string Val_)
| VOther (json : string).
Abbreviation Map := (gmap string Val_).

(** [BuildMap(kvs...)]: pairs from the left, pairs whose key is no string are
    skipped, as is an odd value at the end; a later pair wins. *)
Fixpoint build_from (m : Map) (kvs : list Val_) : Map :=
  match kvs with
  | k :: v :: kvs' =>
      match k with
      | VStr key => build_from (<[key := v]> m) kvs'
      | _ => build_from m kvs'
      end
  | _ => m
  end.
Definition BuildMap (kvs : list Val_) : Map := build_from ∅ kvs.

(** [Builder] is its body. *)
Definition NewBuilder : Map := ∅.
Definition Set_ (key : string) (value : Val_) (b : Map) : Map := <[key := value]> b.
Definition SetQuery (query : Val_) : Map -> Map := Set_ "query" query.
Definition SetAggs (aggs : Val_) : Map -> Map := Set_ "aggs" aggs.
Definition SetSort (sort : Val_) : Map -> Map := Set_ "sort" sort.
Definition SetSize (size : Z) : Map -> Map := Set_ "size" (VInt size).
Definition SetFrom (from : Z) : Map -> Map := Set_ "from" (VInt from).
Definition SetSource (fields : list string) : Map -> Map := Set_ "_source" (VStrs fields).
Definition SetHighlight (highlight : Val_) : Map -> Map := Set_ "highlight" highlight.
Definition BuildSortField (field order : string) : Map := BuildMap [VStr field; VMap (BuildMap [VStr "order"; VStr order])].
Definition BuildSortScore (order : string) : Map := BuildMap [VStr "_score"; VMap (BuildMap [VStr "order"; VStr order])].

Record HighlightCfg : Type := mkHighlight {
  fragmentSize : Z; numberOfFragments : Z; PreTags : list string; PostTags : list string;
}.
Definition WithFragmentSize (n : Z) (c : HighlightCfg) : HighlightCfg := mkHighlight n c.(numberOfFragments) c.(PreTags) c.(PostTags).
Definition WithNumberOfFragments (n : Z) (c : HighlightCfg) : HighlightCfg := mkHighlight c.(fragmentSize) n c.(PreTags) c.(PostTags).
Definition WithPreTags (l : list string) (c : HighlightCfg) : HighlightCfg := mkHighlight c.(fragmentSize) c.(numberOfFragments) l c.(PostTags).
Definition WithPostTags (l : list string) (c : HighlightCfg) : HighlightCfg := mkHighlight c.(fragmentSize) c.(numberOfFragments) c.(PreTags) l.
Definition BuildHighlightField (fields : list string) (options : list (HighlightCfg -> HighlightCfg)) : Map :=
  let cfg := fold_left (fun c o => o c) options (mkHighlight 1500 5 ["<em>"%string] ["</em>"%string]) in
  let fieldMap := fold_left (fun m f => <[f := VMap ∅]> m) fields (∅ : Map) in
  BuildMap [VStr "fields"; VMap fieldMap; VStr "fragment_size"; VInt cfg.(fragmentSize);
            VStr "number_of_fragments"; VInt cfg.(numberOfFragments);
            VStr "pre_tags"; VStrs cfg.(PreTags); VStr "post_tags"; VStrs cfg.(PostTags)].

(** * [scroll.go] *)
Record SearchRequest : Type := mkRequest { Index : list string; Scroll : Z; Size : Z; Body : string }.
Record scrollResult : Type := mkResult { ScrollID : string; Hits : list string }.

(** The service: the first page, the next page of a context, the end of one. *)
Class Scrolling (S : Type) : Type := {
  es_search : SearchRequest -> S -> Res scrollResult * S;
  es_scroll : string -> Z -> S -> Res scrollResult * S;
  es_clear : string -> S -> S;
}.
(** The parsing of JSON: the [size] of a query, the source of a hit, and a
    source as a value of the element type. *)
Class HitCodec (T : Type) : Type := {
  dsl_size : string -> option Z;
  hit_source : string -> Res string;
  from_source : string -> Res T;
}.

Record ScrollConfig : Type := mkScroll {
  ScrollSize : Z; ScrollTime : Z; Total : Z; SearchOptions : list (SearchRequest -> SearchRequest);
}.
Definition Minute : Z := 60000000000.
Definition defaultScrollConfig : ScrollConfig := mkScroll 100 (5 * Minute) 0 [].
Definition WithScrollSize (n : Z) (c : ScrollConfig) : ScrollConfig := mkScroll n c.(ScrollTime) c.(Total) c.(SearchOptions).
Definition WithScrollTime (t : Z) (c : ScrollConfig) : ScrollConfig := mkScroll c.(ScrollSize) t c.(Total) c.(SearchOptions).
Definition WithTotal (n : Z) (c : ScrollConfig) : ScrollConfig := mkScroll c.(ScrollSize) c.(ScrollTime) n c.(SearchOptions).
Definition WithSearchOptions (o : list (SearchRequest -> SearchRequest)) (c : ScrollConfig) : ScrollConfig :=
  mkScroll c.(ScrollSize) c.(ScrollTime) c.(Total) (c.(SearchOptions) ++ o).

Record Sys (S T : Type) : Type := mkSys { es : S; dest : list T }.
Arguments mkSys {S T} es dest.
Arguments es {S T} s.
Arguments dest {S T} s.

Section ScrollSearch.
Context `{Env} {S T : Type} `{Scrolling S} `{HitCodec T} (ctx_done : nat -> option error).

(** A request, which the network or the service may refuse. *)
Definition on_es {A} (f : S -> Res A * S) : M (Sys S T) A :=
  gextr (fun s => let '(r, e) := f s.(es) in (r, mkSys e s.(dest))).

Definition initialSearch (req : SearchRequest) : M (Sys S T) scrollResult := on_es (es_search req).
Definition continueScroll (scrollID : string) (config : ScrollConfig) : M (Sys S T) scrollResult :=
  on_es (es_scroll scrollID config.(ScrollTime)).
(** Its failure is ignored. *)
Definition clearScroll (scrollID : string) : M (Sys S T) unit :=
  gtry (on_es (fun e => (Ok tt, es_clear scrollID e))) ;;; gret tt.

Definition getSizeFromDSL (dsl : string) : Z := default 0 (dsl_size dsl).

Definition ret_res {A} (r : Res A) : M (Sys S T) A := fun w => (r, w).
Definition appendHitsToSlice (hits : list string) : M (Sys S T) unit :=
  gfor hits (fun hit =>
    let! source := gwrap "解析hit失败: " (ret_res (hit_source hit)) in
    let! newItem := gwrap "转换为目标类型失败: " (ret_res (from_source source)) in
    gmodify (fun s => mkSys s.(es) (s.(dest) ++ [newItem]))).

(** How many hits of a page are taken. *)
Definition batch_count (config : ScrollConfig) (totalProcessed : Z) (hits : list string) : Z :=
  let batchCount := Z.of_nat (length hits) in
  if (0 <? config.(Total)) && (config.(Total) <? totalProcessed + batchCount)
  then config.(Total) - totalProcessed else batchCount.
(** A page into the slice; the answer is the new count. *)
Definition take_page (msg : string) (config : ScrollConfig) (totalProcessed : Z) (hits : list string) : M (Sys S T) Z :=
  let batchCount := batch_count config totalProcessed hits in
  if 0 <? batchCount
  then gwrap msg (appendHitsToSlice (take (Z.to_nat batchCount) hits)) ;;; gret (totalProcessed + batchCount)
  else gret totalProcessed.
Definition reached (config : ScrollConfig) (totalProcessed : Z) : bool :=
  (0 <? config.(Total)) && (config.(Total) <=? totalProcessed).

(** The [for] loop.  The deferred clearing takes the id the loop leaves in
    [scrollID], on every way out: the answer carries it.  [None] is lack of
    fuel. *)
Fixpoint scroll_loop (fuel : nat) (config : ScrollConfig) (scrollID : string) (hits : list string) (totalProcessed : Z)
    : M (Sys S T) (option (Res unit * string)) :=
  match hits, fuel with
  | [], _ => gret (Some (Ok tt, scrollID))
  | _, O => gret None
  | _, Datatypes.S fuel' =>
      fun w => match ctx_done (calls w) with
      | Some err => gret (Some (Err err, scrollID)) w
      | None =>
          (let! res := gtry (gwrap "继续滚动查询失败: " (continueScroll scrollID config)) in
           match res with
           | Err err => gret (Some (Err err, scrollID))
           | Ok result =>
               let scrollID := if str_eqb result.(ScrollID) "" then scrollID else result.(ScrollID) in
               let! taken := gtry (take_page "转换滚动结果失败: " config totalProcessed result.(Hits)) in
               match taken with
               | Err err => gret (Some (Err err, scrollID))
               | Ok totalProcessed =>
                   if reached config totalProcessed then gret (Some (Ok tt, scrollID))
                   else scroll_loop fuel' config scrollID result.(Hits) totalProcessed
               end
           end) w
      end
  end.

(** [dest_ok]: the destination is a pointer to a slice. *)
Definition ScrollAll (fuel : nat) (dest_ok : bool) (index queryBody : string) (opts : list (ScrollConfig -> ScrollConfig))
    : M (Sys S T) (option unit) :=
  if str_eqb index "" then graise (ErrNew "索引名称不能为空") else
  let config := fold_left (fun c o => o c) opts defaultScrollConfig in
  let querySize := getSizeFromDSL queryBody in
  let scrollSize := if 0 <? querySize then querySize else config.(ScrollSize) in
  if negb dest_ok then graise (ErrNew "dest必须是指向切片的指针") else
  let req := fold_left (fun r fn => fn r) config.(SearchOptions) (mkRequest [index] config.(ScrollTime) scrollSize queryBody) in
  let! result := gwrap "初始搜索失败: " (initialSearch req) in
  let! taken := gtry (if (0 <? length result.(Hits))%nat
                      then take_page "转换初始结果失败: " config 0 result.(Hits) else gret 0) in
  let! out := match taken with
    | Err err => gret (Some (Err err, result.(ScrollID)))
    | Ok totalProcessed =>
        if (0 <? length result.(Hits))%nat && reached config totalProcessed
        then gret (Some (Ok tt, result.(ScrollID)))
        else scroll_loop fuel config result.(ScrollID) result.(Hits) totalProcessed
    end in
  match out with
  | None => gret None
  | Some (r, scrollID) =>
      (if str_eqb scrollID "" then gret tt else clearScroll scrollID) ;;;
      match r with Ok _ => gret (Some tt) | Err err => graise err end
  end.
End ScrollSearch.

(** * Query bodies *)
Lemma build_from_spec kvs : forall m k v,
  build_from m kvs !! k = Some v <->
  (exists i, kvs !! (2 * i)%nat = Some (VStr k) /\ kvs !! S (2 * i) = Some v /\
     forall j, (i < j)%nat -> is_Some (kvs !! S (2 * j)) -> kvs !! (2 * j)%nat <> Some (VStr k)) \/
  (m !! k = Some v /\ forall j, is_Some (kvs !! S (2 * j)) -> kvs !! (2 * j)%nat <> Some (VStr k)).
Proof.
  assert (Hd : forall j, (2 * S j = S (S (2 * j)))%nat) by (intros; lia).
  assert (Hpair : forall (n : nat) (kvs : list Val_), (length kvs <= n)%nat -> forall m k v,
    build_from m kvs !! k = Some v <->
    (exists i, kvs !! (2 * i)%nat = Some (VStr k) /\ kvs !! S (2 * i) = Some v /\
       forall j, (i < j)%nat -> is_Some (kvs !! S (2 * j)) -> kvs !! (2 * j)%nat <> Some (VStr k)) \/
    (m !! k = Some v /\ forall j, is_Some (kvs !! S (2 * j)) -> kvs !! (2 * j)%nat <> Some (VStr k))).
  2: { intros m k v. by apply (Hpair (length kvs)). }
  clear kvs. induction n as [|n IH]; intros kvs Hn m k v.
  { destruct kvs; [|simpl in Hn; lia]. simpl. split; [intros Hm; right; split; [done|]; intros j [? Hj]; done|].
    intros [(i & Hi & _)|[Hm _]]; done. }
  destruct kvs as [|a [|b kvs]].
  - simpl. split; [intros Hm; right; split; [done|]; intros j [? Hj]; done|]. intros [(i & Hi & _)|[Hm _]]; done.
  - simpl. split.
    + intros Hm. right. split; [done|]. intros j [? Hj]. done.
    + intros [(i & _ & Hi & _)|[Hm _]]; done.
  - set (m' := match a with VStr key => <[key := b]> m | _ => m end).
    assert (Hb : build_from m (a :: b :: kvs) = build_from m' kvs) by (unfold m'; by destruct a).
    rewrite Hb, (IH kvs) by (simpl in Hn; lia). split.
    + intros [(i & H1 & H2 & H3)|[Hm Hno]].
      * left. exists (S i). rewrite Hd. split_and!; [done|done|]. intros [|j] Hj; [lia|]. rewrite Hd. apply H3. lia.
      * unfold m' in Hm. destruct a as [key| | | |].
        { destruct (decide (key = k)) as [->|Hne].
          - rewrite lookup_insert_eq in Hm. injection Hm as ->. left. exists 0%nat. split_and!; [done..|].
            intros [|j] Hj; [lia|]. rewrite Hd. apply Hno.
          - rewrite lookup_insert_ne in Hm by done. right. split; [done|]. intros [|j]; [intros _ [= ?]; done|].
            rewrite Hd. apply Hno. }
        all: right; split; [done|]; intros [|j]; [done|]; rewrite Hd; apply Hno.
    + intros [([|i] & H1 & H2 & H3)|[Hm Hno]].
      * simpl in H1, H2. injection H1 as ->. injection H2 as ->. right. split; [apply lookup_insert_eq|].
        intros j. specialize (H3 (S j)). rewrite Hd in H3. apply H3. lia.
      * rewrite Hd in H1, H2. left. exists i. split_and!; [done|done|]. intros j Hj. specialize (H3 (S j)).
        rewrite Hd in H3. apply H3. lia.
      * right. split; [|intros j; specialize (Hno (S j)); by rewrite Hd in Hno].
        unfold m'. destruct a as [key| | | |]; try done. rewrite lookup_insert_ne; [done|].
        intros ->. specialize (Hno 0%nat ltac:(by eexists)). done.
Qed.

(** The value of a key is that of the last complete pair with the key. *)
Lemma BuildMap_spec kvs k v :
  BuildMap kvs !! k = Some v <->
  exists i, kvs !! (2 * i)%nat = Some (VStr k) /\ kvs !! S (2 * i) = Some v /\
    forall j, (i < j)%nat -> is_Some (kvs !! S (2 * j)) -> kvs !! (2 * j)%nat <> Some (VStr k).
Proof.
  unfold BuildMap. rewrite build_from_spec. split; [|by left].
  intros [Hi|[Hm _]]; [done|]. by rewrite lookup_empty in Hm.
Qed.

(** * Scrolling *)
(** What the service documents: the pages of a context are consecutive parts of
    the hits of the query, empty only at the end; a context is open until it is
    cleared. *)
Class ScrollingOk (S : Type) (K : Scrolling S) : Type := {
  matching : SearchRequest -> S -> list string;
  remaining : string -> S -> list string;
  contexts : S -> gset string;
  search_page : forall req s, exists p s', es_search req s = (Ok p, s') /\
    Hits p ++ remaining (ScrollID p) s' = matching req s /\
    (Hits p = [] -> remaining (ScrollID p) s' = []) /\
    ScrollID p <> ""%string /\ ScrollID p ∉ contexts s /\ contexts s' = {[ ScrollID p ]} ∪ contexts s;
  scroll_page : forall id t s, id ∈ contexts s -> exists p s', es_scroll id t s = (Ok p, s') /\
    let id' := if str_eqb (ScrollID p) "" then id else ScrollID p in
    Hits p ++ remaining id' s' = remaining id s /\ (Hits p = [] -> remaining id s = []) /\
    (id' = id \/ id' ∉ contexts s) /\ contexts s' = {[ id' ]} ∪ (contexts s ∖ {[ id ]});
  clear_context : forall id s, contexts (es_clear id s) = contexts s ∖ {[ id ]};
}.

Section ScrollSpec.
Context `{Env} {S T : Type} {K : Scrolling S} `{!ScrollingOk S K} {HC : HitCodec T} (ctx_done : nat -> option error).
Hypotheses (Hnf : forall n, no_fault_from n) (Hctx : forall n, ctx_done n = None).

Definition decodes (hit : string) (v : T) : Prop := exists src, hit_source hit = Ok src /\ from_source src = Ok v.

Lemma append_run hits l (w : World (Sys S T)) :
  Forall2 decodes hits l ->
  appendHitsToSlice hits w = (Ok tt, mkWorld (calls w) (mkSys (es (st w)) (dest (st w) ++ l))).
Proof.
  unfold appendHitsToSlice. intros Hl. revert w. induction Hl as [|h v hits l (src & Hs & Hv) Hl IH]; intros w.
  { simpl. rewrite app_nil_r. unfold gret. by destruct w as [n []]. }
  cbn [gfor]. unfold gbind at 1. unfold gbind at 1 2. unfold gwrap, ret_res. rewrite Hs, Hv. unfold gmodify.
  rewrite IH. cbn [calls st es dest]. by rewrite <- app_assoc.
Qed.

(** The hits that are still wanted. *)
Definition wanted {A} (config : ScrollConfig) (p : Z) (l : list A) : list A :=
  if 0 <? config.(Total) then take (Z.to_nat (config.(Total) - p)) l else l.
Definition below (config : ScrollConfig) (p : Z) : Prop := 0 < config.(Total) -> p < config.(Total).

Lemma page_run msg config p hits l (w : World (Sys S T)) :
  below config p -> Forall2 decodes hits l ->
  take_page msg config p hits w =
    (Ok (p + Z.of_nat (length (wanted config p hits))),
     mkWorld (calls w) (mkSys (es (st w)) (dest (st w) ++ wanted config p l))).
Proof.
  intros Hp Hl. pose proof (Forall2_length _ _ _ Hl) as Hlen. unfold take_page.
  set (b := batch_count config p hits).
  assert (Hb : 0 <= b <= Z.of_nat (length hits) /\ take (Z.to_nat b) hits = wanted config p hits /\ take (Z.to_nat b) l = wanted config p l).
  { unfold b, batch_count, wanted, below in *. destruct (Z.ltb_spec 0 (Total config)); cbn [andb].
    - specialize (Hp ltac:(lia)). destruct (Z.ltb_spec (Total config) (p + Z.of_nat (length hits))); split_and!; try done; try lia.
      + rewrite Nat2Z.id, !take_ge; [done|lia..].
      + rewrite Nat2Z.id, !take_ge; [done|lia..].
    - split_and!; [lia|lia|rewrite Nat2Z.id, take_ge; [done|lia]..]. }
  destruct Hb as (Hb0 & Hbh & Hbl).
  assert (Hn : Z.of_nat (length (wanted config p hits)) = b).
  { rewrite <- Hbh, length_take. lia. }
  rewrite Hn. destruct (Z.ltb_spec 0 b) as [Hpos|Hneg].
  - unfold gbind, gwrap. rewrite (append_run _ (take (Z.to_nat b) l)) by (by apply Forall2_take). by rewrite Hbl.
  - assert (b = 0) as Hb' by lia. rewrite Hb' in Hbl. rewrite <- Hbl. simpl. rewrite app_nil_r, Hb', Z.add_0_r.
    unfold gret. by destruct w as [n []].
Qed.

Lemma wanted_step {A} config p (h r : list A) :
  below config p ->
  let p' := p + Z.of_nat (length (wanted config p h)) in
  (reached config p' = true -> wanted config p (h ++ r) = wanted config p h) /\
  (reached config p' = false -> below config p' /\ wanted config p (h ++ r) = wanted config p h ++ wanted config p' r).
Proof.
  intros Hp. unfold reached, wanted, below in *. destruct (Z.ltb_spec 0 (Total config)); cbn [andb].
  - specialize (Hp ltac:(lia)). cbv zeta. rewrite length_take. split.
    + intros Hr%Z.leb_le. rewrite take_app. replace (_ - length h)%nat with 0%nat by lia. by rewrite take_0, app_nil_r.
    + intros Hr%Z.leb_gt. split; [lia|]. rewrite take_app. f_equal. f_equal. lia.
  - split; [done|]. intros _. split; [lia|done].
Qed.

Lemma wanted_done {A} config p (h : list A) : reached config p = true -> below config p -> wanted config p h = [].
Proof.
  unfold reached, below. destruct (Z.ltb_spec 0 (Total config)); [|done]. intros Hr%Z.leb_le Hb. specialize (Hb ltac:(lia)). lia.
Qed.

(** The context that is open now, among the others. *)
Lemma moved_away (X : gset string) id id' : id' = id \/ id' ∉ X -> (X ∖ {[ id ]}) ∖ {[ id' ]} = X ∖ {[ id ]}.
Proof. intros [->|Hn]; [set_solver|]. apply difference_disjoint_L. set_solver. Qed.
Lemma here_now (X : gset string) id : id ∈ {[ id ]} ∪ X.
Proof. apply elem_of_union_l, elem_of_singleton_2, eq_refl. Qed.
Lemma cut_here (X : gset string) id Y : (X ∖ {[ id ]}) = Y -> ({[ id ]} ∪ X) ∖ {[ id ]} = Y.
Proof. intros <-. set_solver. Qed.
Lemma cut_new (X : gset string) id : id ∉ X -> ({[ id ]} ∪ X) ∖ {[ id ]} = X.
Proof. intros Hn. apply cut_here. apply difference_disjoint_L. set_solver. Qed.
Lemma loop_run config : forall fuel id hits p l (w : World (Sys S T)),
  below config p -> id ∈ contexts (es (st w)) -> (hits = [] -> remaining id (es (st w)) = []) ->
  Forall2 decodes (remaining id (es (st w))) l -> (hits <> [] -> (length l < fuel)%nat) ->
  exists id' w', scroll_loop ctx_done fuel config id hits p w = (Ok (Some (Ok tt, id')), w') /\
    dest (st w') = dest (st w) ++ wanted config p l /\ id' ∈ contexts (es (st w')) /\
    contexts (es (st w')) ∖ {[ id' ]} = contexts (es (st w)) ∖ {[ id ]} /\ (id' = ""%string -> id = ""%string).
Proof.
  assert (Hnil : forall fuel id p l (w : World (Sys S T)), remaining id (es (st w)) = [] -> id ∈ contexts (es (st w)) ->
    Forall2 decodes (remaining id (es (st w))) l ->
    exists id' w', scroll_loop ctx_done fuel config id [] p w = (Ok (Some (Ok tt, id')), w') /\
      dest (st w') = dest (st w) ++ wanted config p l /\ id' ∈ contexts (es (st w')) /\
      contexts (es (st w')) ∖ {[ id' ]} = contexts (es (st w)) ∖ {[ id ]} /\ (id' = ""%string -> id = ""%string)).
  { intros fuel id p l w Hend Hid Hl. rewrite Hend in Hl. apply Forall2_nil_inv_l in Hl as ->. exists id, w.
    split; [by destruct fuel|]. unfold wanted. rewrite take_nil. destruct (_ <? _); rewrite app_nil_r; by split_and!. }
  induction fuel as [|fuel IH]; intros id [|h hits] p l w Hp Hid Hend Hl Hf; [by apply Hnil; auto| |by apply Hnil; auto|].
  { specialize (Hf ltac:(done)). lia. }
  specialize (Hf ltac:(done)).
  cbn [scroll_loop]. rewrite Hctx. unfold gbind at 1, gtry at 1, gwrap, continueScroll, on_es.
  rewrite gextr_ok by (by apply (Hnf 0); lia).
  destruct (scroll_page id (ScrollTime config) (es (st w)) Hid) as (pg & e' & -> & Hrem & Hemp & Hfresh & Hctxs).
  cbn [fst snd]. set (id' := if str_eqb (ScrollID pg) "" then id else ScrollID pg) in *.
  rewrite <- Hrem in Hl. apply Forall2_app_inv_l in Hl as (l1 & l2 & Hl1 & Hl2 & ->).
  pose proof (Forall2_length _ _ _ Hl1) as Hlen1.
  set (w1 := mkWorld (Datatypes.S (calls w)) (mkSys e' (dest (st w)))). unfold gbind at 1, gtry at 1.
  rewrite (page_run _ config p (Hits pg) l1 w1 Hp Hl1). cbn [st es dest calls w1].
  set (p' := p + Z.of_nat (length (wanted config p (Hits pg)))).
  assert (Hlw : length (wanted config p (Hits pg)) = length (wanted config p l1)).
  { unfold wanted. destruct (_ <? _); rewrite ?length_take; lia. }
  pose proof (wanted_step config p l1 l2 Hp) as [Hw1 Hw2]. cbv zeta in Hw1, Hw2. rewrite <- Hlw in Hw1, Hw2. fold p' in Hw1, Hw2.
  assert (Hback : (contexts (es (st w)) ∖ {[ id ]}) ∖ {[ id' ]} = contexts (es (st w)) ∖ {[ id ]}) by (by apply moved_away).
  assert (Hne : id' = ""%string -> id = ""%string).
  { unfold id', str_eqb. destruct (String.eqb_spec (ScrollID pg) ""); done. }
  destruct (reached config p') eqn:Er.
  - exists id', (mkWorld (Datatypes.S (calls w)) (mkSys e' (dest (st w) ++ wanted config p l1))).
    split; [done|]. cbn [st es dest]. rewrite Hw1 by done. rewrite Hctxs.
    split_and!; [done|apply here_now|by apply cut_here|done].
  - destruct (Hw2 eq_refl) as [Hp' ->].
    destruct (IH id' (Hits pg) p' l2 (mkWorld (Datatypes.S (calls w)) (mkSys e' (dest (st w) ++ wanted config p l1))))
      as (id2 & w2 & Hrun & Hd & Hin & Hc & Hne2); [done|cbn; rewrite Hctxs; apply here_now| |done| |].
    + cbn [st es]. intros He. specialize (Hemp He). rewrite He in Hrem. simpl in Hrem. congruence.
    + intros Hne2. destruct l1 as [|x l1]; [|rewrite length_app in Hf; simpl in *; lia].
      by destruct (Hits pg).
    + exists id2, w2. split; [done|]. cbn [st es dest] in *. rewrite Hd, <- app_assoc. split_and!; [done|done| |auto].
      rewrite Hc, Hctxs. by apply cut_here.
Qed.

(** Without failures [ScrollAll] appends to the slice exactly the hits the
    query matches, in the order the service gives them, or the first [Total] of
    them when a total is set, and leaves no scroll context open. *)
Theorem ScrollAll_spec fuel index queryBody opts l (w : World (Sys S T)) :
  index <> ""%string ->
  let config := fold_left (fun c o => o c) opts defaultScrollConfig in
  let size := getSizeFromDSL (T:=T) queryBody in
  let req := fold_left (fun r fn => fn r) (SearchOptions config)
               (mkRequest [index] (ScrollTime config) (if 0 <? size then size else ScrollSize config) queryBody) in
  Forall2 decodes (matching req (es (st w))) l -> (length l < fuel)%nat ->
  exists w', ScrollAll ctx_done fuel true index queryBody opts w = (Ok (Some tt), w') /\
    dest (st w') = dest (st w) ++ (if 0 <? Total config then take (Z.to_nat (Total config)) l else l) /\
    contexts (es (st w')) = contexts (es (st w)).
Proof.
  intros Hi config size req Hl Hf. unfold ScrollAll, str_eqb. destruct (String.eqb_spec index ""); [done|].
  fold config. fold size. cbn [negb]. fold req. unfold gbind at 1, gwrap at 1, initialSearch, on_es.
  rewrite gextr_ok by (by apply (Hnf 0); lia).
  destruct (search_page req (es (st w))) as (pg & e' & -> & Hm & Hemp & Hne & Hfresh & Hctxs). cbn [fst snd].
  rewrite <- Hm in Hl. apply Forall2_app_inv_l in Hl as (l1 & l2 & Hl1 & Hl2 & ->).
  set (w1 := mkWorld (Datatypes.S (calls w)) (mkSys e' (dest (st w)))).
  assert (Hp0 : below config 0) by (intros ?; lia).
  assert (Hwant : forall A (x : list A), wanted config 0 x = if 0 <? Total config then take (Z.to_nat (Total config)) x else x).
  { intros A x. unfold wanted. by rewrite Z.sub_0_r. }
  rewrite <- Hwant. set (p := Z.of_nat (length (wanted config 0 (Hits pg)))).
  (* the first page *)
  assert (Hfirst : (if (0 <? length (Hits pg))%nat then take_page "转换初始结果失败: " config 0 (Hits pg) else gret 0) w1 =
    (Ok p, mkWorld (calls w1) (mkSys e' (dest (st w) ++ wanted config 0 l1)))).
  { destruct (Nat.ltb_spec 0 (length (Hits pg))).
    - rewrite (page_run _ config 0 (Hits pg) l1 w1 Hp0 Hl1). done.
    - destruct (Hits pg) eqn:E; [|simpl in *; lia]. apply Forall2_nil_inv_l in Hl1 as ->. unfold p, wanted.
      destruct (0 <? Total config); rewrite ?(@take_nil T), ?(@take_nil string), app_nil_r; done. }
  unfold gbind at 1, gtry at 1. rewrite Hfirst. clear Hfirst. cbn [calls w1].
  set (w2 := mkWorld _ _).
  assert (Hlw : length (wanted config 0 (Hits pg)) = length (wanted config 0 l1)).
  { pose proof (Forall2_length _ _ _ Hl1) as Hlen1. unfold wanted. destruct (0 <? Total config); rewrite ?length_take, Hlen1; done. }
  pose proof (wanted_step config 0 l1 l2 Hp0) as [Hw1 Hw2]. cbv zeta in Hw1, Hw2. rewrite <- Hlw in Hw1, Hw2. fold p in Hw1, Hw2.
  (* the rest, and the clearing *)
  assert (Hrest : exists id w3, (if (0 <? length (Hits pg))%nat && reached config p then gret (Some (Ok tt, ScrollID pg))
       else scroll_loop ctx_done fuel config (ScrollID pg) (Hits pg) p) w2 = (Ok (Some (Ok tt, id)), w3) /\
    dest (st w3) = dest (st w) ++ wanted config 0 (l1 ++ l2) /\ id <> ""%string /\
    contexts (es (st w3)) ∖ {[ id ]} = contexts (es (st w))).
  { destruct ((0 <? length (Hits pg))%nat && reached config p) eqn:Er.
    - apply andb_true_iff in Er as [_ Er]. exists (ScrollID pg), w2. split; [done|]. rewrite Hw1 by done.
      split_and!; [done|done|]. cbn [w2 st es]. by rewrite Hctxs, cut_new.
    - assert (Hbelow : below config p /\ wanted config 0 (l1 ++ l2) = wanted config 0 l1 ++ wanted config p l2).
      { destruct (reached config p) eqn:Er'; [|by apply Hw2]. rewrite andb_true_r in Er. apply Nat.ltb_ge in Er.
        destruct (Hits pg) eqn:E; [|simpl in Er; lia].
        assert (Hp : p = 0) by (unfold p, wanted; rewrite take_nil; by destruct (0 <? Total config)).
        rewrite Hp in Er'. unfold reached in Er'. destruct (Z.ltb_spec 0 (Total config)); [|done]. apply Z.leb_le in Er'. lia. }
      destruct Hbelow as [Hb Heq].
      destruct (loop_run config fuel (ScrollID pg) (Hits pg) p l2 w2) as (id & w3 & Hrun & Hd & Hin & Hc & Hz);
        [done|cbn; rewrite Hctxs; apply here_now|done|done|intros; rewrite length_app in Hf; lia|].
      exists id, w3. split; [done|]. cbn [w2 st es dest] in *. rewrite Hd, Heq, <- app_assoc. split_and!; [done|auto|].
      by rewrite Hc, Hctxs, cut_new. }
  destruct Hrest as (id & w3 & Hrun & Hd & Hid & Hc). unfold gbind at 1. rewrite Hrun.
  destruct (String.eqb_spec id ""); [done|]. unfold gbind, clearScroll, gtry, on_es, gbind, gret.
  rewrite gextr_ok by (by apply (Hnf 0); lia). cbn [fst snd st].
  eexists. split; [done|]. cbn [st es dest]. split; [done|]. by rewrite clear_context.
Qed.
End ScrollSpec.

(** * A service with pages of two *)
Record Toy : Type := mkToy { docs : list string; ctxs : gmap string (list string) }.
Definition fresh_id (s : Toy) : string := fresh (A:=string) ({[ ""%string ]} ∪ dom s.(ctxs)).
#[export] Instance toy_scrolling : Scrolling Toy := {
  es_search req s :=
    (Ok (mkResult (fresh_id s) (take 2 s.(docs))), mkToy s.(docs) (<[fresh_id s := drop 2 s.(docs)]> s.(ctxs)));
  es_scroll id t s :=
    match s.(ctxs) !! id with
    | None => (Err (ErrVar "No search context found"), s)
    | Some r => (Ok (mkResult id (take 2 r)), mkToy s.(docs) (<[id := drop 2 r]> s.(ctxs)))
    end;
  es_clear id s := mkToy s.(docs) (delete id s.(ctxs));
}.
Lemma take2_nil {A} (l : list A) : take 2 l = [] -> l = [] /\ drop 2 l = [].
Proof. by destruct l as [|a [|b l]]. Qed.
#[export] Instance toy_scrolling_ok : ScrollingOk Toy toy_scrolling.
Proof.
  refine {|
    matching _ s := docs s;
    remaining id s := default [] (ctxs s !! id);
    contexts s := dom (ctxs s);
  |}.
  - intros req s. pose proof (is_fresh ({[ ""%string ]} ∪ dom s.(ctxs))) as Hf. fold (fresh_id s) in Hf.
    eexists _, _. split; [reflexivity|]. cbn [Hits ScrollID ctxs]. rewrite lookup_insert_eq. cbn [default].
    split_and!; [apply take_drop|apply take2_nil|set_solver|set_solver|by rewrite dom_insert_L].
  - intros id t s [r Hr]%elem_of_dom. simpl. rewrite Hr. eexists _, _. split; [reflexivity|]. cbn [Hits ScrollID ctxs].
    replace (if str_eqb id "" then id else id) with id by (by destruct (str_eqb id "")).
    rewrite lookup_insert_eq. cbn. split_and!; [apply take_drop|apply take2_nil|by left|]. rewrite dom_insert_L.
    assert (id ∈ dom (ctxs s)) by (apply elem_of_dom; by eexists).
    apply set_eq. intros x. destruct (decide (x = id)); set_solver.
  - intros id s. simpl. apply dom_delete_L.
Defined.
(** A hit is its own source, and its own value. *)
#[export] Instance toy_codec : HitCodec string := {
  dsl_size _ := None; hit_source h := Ok h; from_source h := Ok h;
}.
Definition toy_env : Env := {| env_clock := fun _ => 0; env_fault := fun _ => None |}.
Definition no_ctx : nat -> option error := fun _ => None.
Definition toy_start : World (Sys Toy string) := mkWorld 0 (mkSys (mkToy ["a"; "b"; "c"; "d"; "e"]%string ∅) ["z"%string]).

Example three_of_five :
  dest (st (snd (@ScrollAll toy_env Toy string _ _ no_ctx 9 true "idx" "{}" [WithTotal 3] toy_start))) = ["z"; "a"; "b"; "c"]%string.
Proof. vm_compute. reflexivity. Qed.
Example map_pairs :
  BuildSortField "ts" "desc" !! "ts"%string = Some (VMap {[ "order"%string := VStr "desc" ]}) /\
  BuildMap [VStr "a"; VInt 1; VInt 5; VInt 6; VStr "a"; VInt 2; VStr "b"] = {[ "a"%string := VInt 2 ]}.
Proof. vm_compute. split; reflexivity. Qed.

Lemma ScrollAll_spec_witness :
  exists w', @ScrollAll toy_env Toy string _ _ no_ctx 9 true "idx" "{}" [WithTotal 3] toy_start = (Ok (Some tt), w') /\
    dest (st w') = ["z"; "a"; "b"; "c"]%string.
Proof.
  destruct (@ScrollAll_spec toy_env Toy string toy_scrolling toy_scrolling_ok toy_codec no_ctx (fun n i _ => eq_refl) (fun n => eq_refl)
    9 "idx" "{}" [WithTotal 3] ["a"; "b"; "c"; "d"; "e"]%string toy_start) as (w' & Hr & Hd & _).
  - discriminate.
  - repeat (constructor; [by eexists|]). constructor.
  - simpl. lia.
  - exists w'. split; [exact Hr|]. rewrite Hd. reflexivity.
Defined.
