(* ===== verification/Stat.v ===== *)
(** [src/stat/manager.go]: a registry of statistics functions that [Execute]
    runs concurrently, at most fifteen at a time, until the first failure.

    The goroutines, the semaphore and the error group ([golang.org/x/sync]) are
    the steps of a transition system: a goroutine waits for the semaphore, runs
    its function, stores the result and releases, then reports its error; the
    first report cancels the context, and a goroutine that waits under a
    cancelled context gives up.  The metric values are a parameter. *)
From S2P Require Import Prelude.

Section Stat.
Context {Metric : Type} {Key : Type} `{Countable Key} {Query : Type}.

(** What a statistics function returns, and its signature: the answer may
    depend on whether the context is cancelled. *)
Definition Grouped : Type := gmap Key Metric.
Definition Answer : Type := option Metric * option Grouped * option error.
Definition StatFunc : Type := bool -> Query -> Answer.

Record StatResult : Type := mkStat {
  Name : string; SingleValue : option Metric; GroupedValue : option Grouped; IsGrouped : bool; Error_ : option error;
}.
Definition IsSuccess (r : StatResult) : bool := match r.(Error_) with None => true | Some _ => false end.
Definition GetSingleValue (r : StatResult) : option Metric :=
  if r.(IsGrouped) || negb (IsSuccess r) then None else r.(SingleValue).
Definition GetGroupedValue (r : StatResult) : option Grouped :=
  if negb r.(IsGrouped) || negb (IsSuccess r) then None else r.(GroupedValue).

(** * The registry *)
Definition NewStatManager : gmap string StatFunc := ∅.
Definition Register (name : string) (fn : option StatFunc) (m : gmap string StatFunc) : Res unit * gmap string StatFunc :=
  if str_eqb name "" then (Err (ErrNew "stat name cannot be empty"), m)
  else match fn with
  | None => (Err (ErrNew "stat function cannot be nil"), m)
  | Some fn =>
      match m !! name with
      | Some _ => (Err (ErrNew ("stat " ++ name ++ " already registered")), m)
      | None => (Ok tt, <[name := fn]> m)
      end
  end.
(** The order is that of the iteration over a Go map: any. *)
Fixpoint BatchRegister (funcs : list (string * option StatFunc)) (m : gmap string StatFunc) : Res unit * gmap string StatFunc :=
  match funcs with
  | [] => (Ok tt, m)
  | (name, fn) :: funcs' =>
      match Register name fn m with
      | (Ok _, m') => BatchRegister funcs' m'
      | (Err e, m') => (Err e, m')
      end
  end.

(** * One function's entry in the result, and the error of its goroutine *)
Definition entry (name : string) (a : Answer) : StatResult :=
  match a with
  | (_, _, Some err) => mkStat name None None false (Some err)
  | (Some _, Some _, None) =>
      mkStat name None None false (Some (ErrNew "stat function returned both single and grouped values"))
  | (single, grouped, None) =>
      mkStat name single grouped (match grouped with Some _ => true | None => false end) None
  end.
Definition outcome (name : string) (a : Answer) : option error :=
  match a with
  | (_, _, Some err) => Some (ErrWrap ("stat function " ++ name ++ " failed: ") err)
  | (Some _, Some _, None) =>
      Some (ErrNew ("stat function " ++ name ++ " returned invalid result: both single and grouped values present"))
  | _ => None
  end.

(** * The run *)
Definition limit : nat := 15.
Record Exec : Type := mkExec {
  waiting : gset string;
  running : gset string;
  reporting : gmap string error;       (* ended with an error that is not reported yet *)
  result : gmap string StatResult;
  failure : option error;              (* the error [Wait] will return *)
  cancelled : bool;
}.
Inductive Event : Type :=
| EAcquire (n : string) | EGiveUp (n : string) | EReturn (n : string) | EReport (n : string)
| ECancel.                             (* the caller's context ends *)

Definition ctx_error : error := ErrVar "context canceled".
Definition first_error (old : option error) (e : error) : option error := match old with Some e' => Some e' | None => Some e end.

Definition step (funcs : gmap string StatFunc) (query : Query) (ev : Event) (s : Exec) : option Exec :=
  match ev with
  | EAcquire n =>
      if bool_decide (n ∈ s.(waiting)) && negb s.(cancelled) && (size s.(running) <? limit)%nat
      then Some (mkExec (s.(waiting) ∖ {[n]}) ({[n]} ∪ s.(running)) s.(reporting) s.(result) s.(failure) s.(cancelled))
      else None
  | EGiveUp n =>
      if bool_decide (n ∈ s.(waiting)) && s.(cancelled)
      then Some (mkExec (s.(waiting) ∖ {[n]}) s.(running)
                   (<[n := ErrWrap ("failed to acquire semaphore for " ++ n ++ ": ") ctx_error]> s.(reporting))
                   s.(result) s.(failure) s.(cancelled))
      else None
  | EReturn n =>
      match lookup (A:=StatFunc) n funcs with
      | Some fn =>
          if bool_decide (n ∈ s.(running))
          then let a := fn s.(cancelled) query in
               Some (mkExec s.(waiting) (s.(running) ∖ {[n]})
                       (match outcome n a with Some e => <[n := e]> s.(reporting) | None => s.(reporting) end)
                       (<[n := entry n a]> s.(result)) s.(failure) s.(cancelled))
          else None
      | None => None
      end
  | EReport n =>
      match s.(reporting) !! n with
      | Some e => Some (mkExec s.(waiting) s.(running) (delete n s.(reporting)) s.(result) (first_error s.(failure) e) true)
      | None => None
      end
  | ECancel => Some (mkExec s.(waiting) s.(running) s.(reporting) s.(result) s.(failure) true)
  end.

Definition start (funcs : gmap string StatFunc) : Exec := mkExec (dom funcs) ∅ ∅ ∅ None false.
Definition finished (s : Exec) : bool :=
  bool_decide (s.(waiting) = ∅) && bool_decide (s.(running) = ∅) && bool_decide (dom s.(reporting) = (∅ : gset string)).
Fixpoint run (funcs : gmap string StatFunc) (query : Query) (evs : list Event) (s : Exec) : option Exec :=
  match evs with
  | [] => Some s
  | ev :: evs' => match step funcs query ev s with Some s' => run funcs query evs' s' | None => None end
  end.

(** The result map and the error; [None] while goroutines are left. *)
Definition Execute (validate : Query -> option error) (funcs : gmap string StatFunc) (query : Query) (evs : list Event)
    : option (gmap string StatResult * option error) :=
  match validate query with
  | Some err => Some (∅, Some (ErrWrap "invalid query: " err))
  | None =>
      if (size funcs =? 0)%nat then Some (∅, None)
      else match run funcs query evs (start funcs) with
           | Some s => if finished s then Some (s.(result), s.(failure)) else None
           | None => None
           end
  end.
End Stat.

(** * What holds on every way *)
Section Facts.
Context {Metric : Type} {Key : Type} `{Countable Key} {Query : Type}.
Context (funcs : gmap string (@StatFunc Metric Key _ _ Query)) (query : Query).
Abbreviation Exec := (@Exec Metric Key _ _).
Abbreviation step := (@step Metric Key _ _ Query funcs query).
Abbreviation run := (@run Metric Key _ _ Query funcs query).

Lemma outcome_none n (a : @Answer Metric Key _ _) : outcome n a = None <-> IsSuccess (entry n a) = true.
Proof. destruct a as [[[s|] [g|]] [e|]]; simpl; unfold IsSuccess; simpl; split; done. Qed.

Definition in_hand (s : Exec) (n : string) : Prop := n ∈ waiting s \/ n ∈ running s.
(** An error is known. *)
Definition troubled (s : Exec) : Prop := failure s <> None \/ exists n, is_Some (reporting s !! n).
Definition failed_entry (s : Exec) : Prop := exists n r, result s !! n = Some r /\ IsSuccess r = false.

Record Good (byCaller : Prop) (s : Exec) : Prop := {
  g_limit : (size (running s) <= limit)%nat;
  g_known : forall n, in_hand s n -> n ∈ dom funcs;
  g_apart : forall n, n ∈ waiting s -> n ∉ running s;
  g_entry : forall n r, result s !! n = Some r ->
    ~ in_hand s n /\ (exists fn c, funcs !! n = Some fn /\ r = entry n (fn c query)) /\ (IsSuccess r = false -> troubled s);
  g_gone : forall n, n ∈ dom funcs -> ~ in_hand s n -> n ∉ dom (result s) -> troubled s;
  g_cause : troubled s \/ cancelled s = true -> failed_entry s \/ byCaller;
}.

Lemma start_Good P : Good P (start funcs).
Proof.
  constructor; unfold in_hand, troubled; cbn [start waiting running reporting result failure cancelled].
  - rewrite size_empty. unfold limit. lia.
  - intros n [Hn|Hn]; set_solver.
  - set_solver.
  - intros n r. by rewrite lookup_empty.
  - intros n Hn Hh. exfalso. apply Hh. by left.
  - intros [[?|(n & x & Hn)]|?]; [done|by rewrite lookup_empty in Hn|done].
Qed.

Lemma size_remove (X : gset string) n : n ∈ X -> size X = S (size (X ∖ {[n]})).
Proof.
  intros Hn. rewrite (union_difference_singleton_L n X Hn) at 1. rewrite size_union by set_solver.
  by rewrite size_singleton.
Qed.
Lemma size_add (X : gset string) n : (size ({[n]} ∪ X) <= S (size X))%nat.
Proof. rewrite size_union_alt, size_singleton. pose proof (subseteq_size (X ∖ {[n]}) X ltac:(set_solver)). lia. Qed.

Lemma acquire_Good P n s s' : step (EAcquire n) s = Some s' -> Good P s -> Good P s'.
Proof.
  intros Hs [G1 G2 G3 G4 G5 G6]. simpl in Hs.
  destruct (bool_decide (n ∈ waiting s) && negb (cancelled s) && (size (running s) <? limit)%nat) eqn:Ec; [|done].
  injection Hs as <-. apply andb_true_iff in Ec as [[Hn%bool_decide_eq_true Hc]%andb_true_iff Hlt%Nat.ltb_lt].
  set (s' := mkExec _ _ _ _ _ _). assert (Hh : forall m, in_hand s' m <-> in_hand s m).
  { intros m. unfold in_hand. simpl. destruct (decide (m = n)) as [->|]; set_solver. }
  constructor.
  - simpl. pose proof (size_add (running s) n). lia.
  - intros m Hm. by apply G2, Hh.
  - simpl. set_solver.
  - intros m r Hr. rewrite Hh. by apply G4.
  - intros m Hm. rewrite Hh. by apply G5.
  - exact G6.
Qed.

Lemma give_up_Good P n s s' : step (EGiveUp n) s = Some s' -> Good P s -> Good P s'.
Proof.
  intros Hs [G1 G2 G3 G4 G5 G6]. simpl in Hs.
  destruct (bool_decide_reflect (n ∈ waiting s)) as [Hn|]; [|done]. destruct (cancelled s) eqn:Ec; [|done]. injection Hs as <-.
  assert (Htr : troubled (mkExec (waiting s ∖ {[n]}) (running s)
    (<[n := ErrWrap ("failed to acquire semaphore for " ++ n ++ ": ") ctx_error]> (reporting s)) (result s) (failure s) true)).
  { right. exists n. simpl. rewrite lookup_insert_eq. by eexists. }
  constructor; try done.
  - intros m [Hm|Hm]; apply G2; unfold in_hand; simpl in *; set_solver.
  - simpl. set_solver.
  - intros m r Hr. simpl in Hr. destruct (G4 m r Hr) as (Hh & Hf & _). split_and!; [|done|done].
    unfold in_hand in *. simpl. set_solver.
  - intros _. apply G6. by right.
Qed.

Lemma return_Good P n s s' : step (EReturn n) s = Some s' -> Good P s -> Good P s'.
Proof.
  intros Hs [G1 G2 G3 G4 G5 G6]. simpl in Hs.
  destruct (funcs !! n) as [fn|] eqn:Ef; [|done]. destruct (bool_decide_reflect (n ∈ running s)) as [Hn|]; [|done].
  set (a := fn (cancelled s) query) in *. set (s1 := mkExec _ _ _ _ _ _) in Hs. injection Hs as <-.
  assert (Hw : n ∉ waiting s) by (intros Hw; by apply (G3 n)).
  assert (Hmono : troubled s -> troubled s1).
  { intros [?|(m & x & Hm)]; [by left|right; exists m]. simpl. destruct (outcome n a); [|by eexists].
    destruct (decide (m = n)) as [->|]; [rewrite lookup_insert_eq; by eexists|rewrite lookup_insert_ne by done; by eexists]. }
  assert (Hnew : IsSuccess (entry n a) = false -> troubled s1).
  { intros Hf. destruct (outcome n a) as [e|] eqn:Eo; [|by apply outcome_none in Eo; congruence].
    right. exists n. unfold s1. cbn [reporting]. rewrite ?Eo, lookup_insert_eq. by eexists. }
  assert (Hno : ~ in_hand s n -> False) by (intros Hh; apply Hh; by right).
  assert (Hold : failed_entry s -> failed_entry s1).
  { intros (m & r & Hr & Hs). exists m, r. split; [|done]. unfold s1. cbn [result]. rewrite lookup_insert_ne; [done|].
    intros <-. destruct (G4 n r Hr) as (Hh & _). auto. }
  constructor.
  - simpl. pose proof (subseteq_size (running s ∖ {[n]}) (running s) ltac:(set_solver)). lia.
  - intros m [Hm|Hm]; apply G2; unfold in_hand; simpl in *; set_solver.
  - simpl. set_solver.
  - intros m r. unfold s1 at 1. cbn [result]. destruct (decide (m = n)) as [->|Hm].
    + rewrite lookup_insert_eq. intros [= <-]. split_and!; [unfold in_hand; simpl; set_solver|by eexists fn, _|done].
    + rewrite lookup_insert_ne by done. intros Hr. destruct (G4 m r Hr) as (Hh & Hf & Ht). split_and!; [|done|auto].
      unfold in_hand in *. simpl. set_solver.
  - intros m Hm Hh Hd. unfold s1 in Hd. cbn [result] in Hd. rewrite dom_insert_L in Hd.
    apply Hmono, (G5 m Hm); [|set_solver]. unfold in_hand in *. simpl in Hh. set_solver.
  - assert (Hc : (troubled s1 \/ cancelled s1 = true) -> (troubled s \/ cancelled s = true) \/ IsSuccess (entry n a) = false).
    { intros [[Hf|(m & x & Hm)]|Hc]; [left; left; by left| |left; by right]. unfold s1 in Hm. cbn [reporting] in Hm.
      destruct (outcome n a) as [e|] eqn:Eo; [|left; left; right; exists m; by eexists].
      right. apply not_true_iff_false. rewrite <- outcome_none. congruence. }
    intros Ht. destruct (Hc Ht) as [Ht'|Hf]; [destruct (G6 Ht'); auto|].
    left. exists n, (entry n a). split; [|done]. unfold s1. cbn [result]. apply lookup_insert_eq.
Qed.

Lemma report_Good P n s s' : step (EReport n) s = Some s' -> Good P s -> Good P s'.
Proof.
  intros Hs [G1 G2 G3 G4 G5 G6]. simpl in Hs.
  destruct (reporting s !! n) as [e|] eqn:Er; [|done]. injection Hs as <-.
  assert (Htr : troubled (mkExec (waiting s) (running s) (delete n (reporting s)) (result s) (first_error (failure s) e) true)).
  { left. simpl. by destruct (failure s). }
  constructor; try done.
  - intros m r Hr. destruct (G4 m r Hr) as (Hh & Hf & _). by split_and!.
  - intros _. apply G6. left. right. exists n. by eexists.
Qed.

Lemma step_Good P ev s s' : step ev s = Some s' -> (ev = ECancel -> P) -> Good P s -> Good P s'.
Proof.
  intros Hs HP Hg. destruct ev as [n|n|n|n|].
  - by apply (acquire_Good P n s).
  - by apply (give_up_Good P n s).
  - by apply (return_Good P n s).
  - by apply (report_Good P n s).
  - destruct Hg. injection Hs as <-. constructor; try done. intros _. right. by apply HP.
Qed.

Lemma run_Good P evs : forall s s', run evs s = Some s' -> (ECancel ∈ evs -> P) -> Good P s -> Good P s'.
Proof.
  induction evs as [|ev evs IH]; intros s s'; simpl; [by intros [= <-]|].
  destruct (step ev s) as [s1|] eqn:E; [|done]. intros Hr HP Hg. apply (IH s1 s' Hr); [set_solver|].
  apply (step_Good P ev s s1 E); [|done]. intros ->. apply HP. set_solver.
Qed.

(** However the goroutines interleave, at most fifteen functions run at a
    time. *)
Theorem at_most_fifteen evs s : run evs (start funcs) = Some s -> (size (running s) <= 15)%nat.
Proof. intros Hr. apply (g_limit True), (run_Good True evs (start funcs) s Hr); [done|apply start_Good]. Qed.

(** When [Execute] returns, every entry of the result is that of a
    registered function on the query; without an error every function has an
    entry and all succeeded; and unless the caller cancelled, an error means
    that some entry failed. *)
Theorem Execute_spec validate evs res err :
  validate query = None -> Execute validate funcs query evs = Some (res, err) ->
  (forall n r, res !! n = Some r -> exists fn c, funcs !! n = Some fn /\ r = entry n (fn c query)) /\
  (err = None -> dom res = dom funcs /\ forall n r, res !! n = Some r -> IsSuccess r = true) /\
  (err <> None -> ECancel ∉ evs -> exists n r, res !! n = Some r /\ IsSuccess r = false).
Proof.
  intros Hv. unfold Execute. rewrite Hv. destruct (Nat.eqb_spec (size funcs) 0) as [He|Hne].
  { assert (Hfe : funcs = (∅ : gmap string StatFunc)) by (by apply map_size_empty_inv). rewrite Hfe. intros [= <- <-]. split_and!; [intros n r; by rewrite lookup_empty| |done].
    intros _. split; [by rewrite !dom_empty_L|]. intros n r. by rewrite lookup_empty. }
  destruct (run evs (start funcs)) as [s|] eqn:Er; [|done]. destruct (finished s) eqn:Ef; [|done]. intros [= <- <-].
  unfold finished in Ef. apply andb_true_iff in Ef as [[Hw%bool_decide_eq_true Hr%bool_decide_eq_true]%andb_true_iff Hp%bool_decide_eq_true].
  pose proof (run_Good (ECancel ∈ evs) evs _ _ Er (fun x => x) (start_Good _)) as [G1 G2 G3 G4 G5 G6].
  assert (Hh : forall n, ~ in_hand s n) by (intros n; unfold in_hand; rewrite Hw, Hr; set_solver).
  assert (Hnt : failure s = None -> ~ troubled s).
  { intros Hf [?|(n & Hn)]; [done|]. apply elem_of_dom in Hn. set_solver. }
  split_and!.
  - intros n r Hn. by destruct (G4 n r Hn) as (_ & ? & _).
  - intros Hf. specialize (Hnt Hf). split.
    + apply set_eq. intros n. split.
      * intros [r Hn]%elem_of_dom. destruct (G4 n r Hn) as (_ & (fn & c & Hfn & _) & _). apply elem_of_dom. by eexists.
      * intros Hn. destruct (decide (n ∈ dom (result s))); [done|]. exfalso. by apply Hnt, (G5 n).
    + intros n r Hn. destruct (G4 n r Hn) as (_ & _ & Ht). destruct (IsSuccess r); [done|]. exfalso. by apply Hnt, Ht.
  - intros Hf Hc. destruct G6 as [(n & r & Hn)|]; [left; by left| |done]. by exists n, r.
Qed.

(** ** It ends *)
Definition left_over (s : Exec) : nat := 3 * size (waiting s) + 2 * size (running s) + size (dom (reporting s)).

Lemma step_less ev s s' : step ev s = Some s' -> ev <> ECancel -> (left_over s' < left_over s)%nat.
Proof.
  intros Hs Hev. unfold left_over. destruct ev as [n|n|n|n|]; simpl in Hs; [| | | |done].
  - destruct (bool_decide_reflect (n ∈ waiting s)) as [Hn|]; [|done]. destruct (_ && _); [|done]. injection Hs as <-.
    cbn [waiting running reporting]. pose proof (size_remove _ _ Hn). pose proof (size_add (running s) n). lia.
  - destruct (bool_decide_reflect (n ∈ waiting s)) as [Hn|]; [|done]. destruct (cancelled s); [|done]. injection Hs as <-.
    cbn [waiting running reporting]. rewrite dom_insert_L. pose proof (size_remove _ _ Hn). pose proof (size_add (dom (reporting s)) n). lia.
  - destruct (funcs !! n); [|done]. destruct (bool_decide_reflect (n ∈ running s)) as [Hn|]; [|done]. injection Hs as <-.
    cbn [waiting running reporting]. pose proof (size_remove _ _ Hn). destruct (outcome n _); [|lia].
    rewrite dom_insert_L. pose proof (size_add (dom (reporting s)) n). lia.
  - destruct (reporting s !! n) as [e|] eqn:E; [|done]. injection Hs as <-. cbn [waiting running reporting].
    rewrite dom_delete_L. assert (Hn : n ∈ dom (reporting s)) by (apply elem_of_dom; by eexists). pose proof (size_remove _ _ Hn). lia.
Qed.

Lemma can_move P s : Good P s -> finished s = false -> exists ev s', ev <> ECancel /\ step ev s = Some s'.
Proof.
  intros [G1 G2 G3 G4 G5 G6] Hf.
  destruct (decide (dom (reporting s) = (∅ : gset string))) as [Hp|Hp].
  2: { apply set_choose_L in Hp as [n [e Hn]%elem_of_dom]. exists (EReport n). eexists. split; [done|]. cbn [Stat.step]. by rewrite Hn. }
  destruct (decide (running s = ∅)) as [Hr|Hr].
  2: { apply set_choose_L in Hr as [n Hn]. exists (EReturn n).
       assert (is_Some (funcs !! n)) as [fn Hfn] by (apply elem_of_dom, G2; by right).
       eexists. split; [done|]. cbn [Stat.step]. by rewrite Hfn, bool_decide_true by done. }
  destruct (decide (waiting s = ∅)) as [Hw|Hw].
  { exfalso. unfold finished in Hf. rewrite Hw, Hr, Hp, !bool_decide_true in Hf by done. done. }
  apply set_choose_L in Hw as [n Hn]. destruct (cancelled s) eqn:Ec.
  - exists (EGiveUp n). eexists. split; [done|]. cbn [Stat.step]. by rewrite bool_decide_true, Ec by done.
  - exists (EAcquire n). eexists. split; [done|]. cbn [Stat.step]. rewrite bool_decide_true, Ec by done. by rewrite Hr, size_empty.
Qed.

(** From every state the run can reach, the goroutines can finish, and they
    do so within as many moves as are left over: no schedule runs forever and
    none deadlocks. *)
Theorem Execute_finishes evs s :
  run evs (start funcs) = Some s ->
  (forall ev s', step ev s = Some s' -> ev <> ECancel -> (left_over s' < left_over s)%nat) /\
  exists evs' s', run evs' s = Some s' /\ finished s' = true /\ (length evs' <= left_over s)%nat.
Proof.
  intros Hr. split; [intros ev s'; by apply step_less|].
  pose proof (run_Good True evs _ _ Hr (fun _ => I) (start_Good True)) as Hg. clear Hr.
  remember (left_over s) as n eqn:En. revert s En Hg. induction n as [n IH] using lt_wf_ind. intros s -> Hg.
  destruct (finished s) eqn:Ef; [exists [], s; split_and!; [done|done|simpl; lia]|].
  destruct (can_move True s Hg Ef) as (ev & s1 & Hev & Hs). pose proof (step_less ev s s1 Hs Hev) as Hl.
  destruct (IH _ Hl s1 eq_refl (step_Good True ev s s1 Hs (fun _ => I) Hg)) as (evs' & s' & Hrun & Hfin & Hlen).
  exists (ev :: evs'), s'. split_and!; [simpl; by rewrite Hs|done|simpl; lia].
Qed.
End Facts.

(** * Concrete runs *)
(** Two statistics of one number: one that counts, one that fails. *)
Definition demo_funcs (broken : bool) : gmap string (@StatFunc Z Z _ _ Z) :=
  list_to_map [("count"%string, fun _ q => (Some q, None, None));
               ("sum"%string, fun _ q => if broken then (None, None, Some (ErrNew "no table")) else (None, Some {[ 1 := q ]}, None))].
Definition no_check : Z -> option error := fun _ => None.

(** A failure before the other function has the semaphore: the other one is
    missing from the result. *)
Example missing_entry :
  Execute no_check (demo_funcs true) 5 [EAcquire "sum"; EReturn "sum"; EReport "sum"; EGiveUp "count"; EReport "count"] =
  Some ({[ "sum"%string := mkStat "sum" None None false (Some (ErrNew "no table")) ]},
        Some (ErrWrap "stat function sum failed: " (ErrNew "no table"))).
Proof. vm_compute. reflexivity. Qed.
Example all_entries :
  exists res, Execute no_check (demo_funcs false) 5 [EAcquire "sum"; EAcquire "count"; EReturn "count"; EReturn "sum"] = Some (res, None).
Proof. eexists. vm_compute. reflexivity. Qed.

Lemma Execute_spec_witness :
  exists res, Execute no_check (demo_funcs false) 5 [EAcquire "sum"; EAcquire "count"; EReturn "count"; EReturn "sum"] = Some (res, None) /\
    dom res = dom (demo_funcs false).
Proof.
  destruct all_entries as [res Hr]. exists res. split; [exact Hr|].
  exact (proj1 (proj1 (proj2 (Execute_spec (demo_funcs false) 5 no_check _ res None eq_refl Hr)) eq_refl)).
Defined.
Example started : exists s, run (demo_funcs true) 5 [EAcquire "sum"; EReturn "sum"] (start (demo_funcs true)) = Some s.
Proof. eexists. vm_compute. reflexivity. Qed.
Lemma at_most_fifteen_witness :
  exists s, run (demo_funcs true) 5 [EAcquire "sum"; EReturn "sum"] (start (demo_funcs true)) = Some s /\ (size (running s) <= 15)%nat.
Proof. destruct started as [s Hr]. exists s. split; [exact Hr|]. exact (at_most_fifteen _ _ _ s Hr). Defined.
Lemma Execute_finishes_witness :
  exists s evs' s', run (demo_funcs true) 5 [EAcquire "sum"; EReturn "sum"] (start (demo_funcs true)) = Some s /\
    run (demo_funcs true) 5 evs' s = Some s' /\ finished s' = true.
Proof.
  destruct started as [s Hr]. destruct (Execute_finishes _ _ _ s Hr) as (_ & evs' & s' & H1 & H2 & _).
  exists s, evs', s'. split; [exact Hr|]. split; [exact H1|exact H2].
Defined.
