(* ===== verification/Regexp.v ===== *)
(** Package [regexp] and UTF-8 decoding of the Go standard library, as far as
    the validators of src/validate/validate.go use them: the decoding of a
    string into runes, the syntax of the patterns (a parser of the subset
    without [.], lazy repetitions, flags and named groups), the language of an
    expression, and a matcher that decides it ([MatchString_spec]). *)
From stdpp Require Import base list strings.
From Stdlib Require Import ZArith Lia Ascii String.
From S2P Require Import Prelude.
Open Scope Z_scope.

(** * Runes *)
Definition rune_bytes (s : string) : list Z := map (fun c => Z.of_N (N_of_ascii c)) (list_ascii_of_string s).
Definition RuneError : Z := 65533.
Definition within (lo hi x : Z) : bool := (lo <=? x) && (x <=? hi).
(** By the first byte: the width, the bits it gives and the range of the second
    byte; [None] for a byte that starts no character. *)
Definition first_byte (b0 : Z) : option (nat * Z * (Z * Z)) :=
  if within 194 223 b0 then Some (2%nat, b0 - 192, (128, 191))
  else if b0 =? 224 then Some (3%nat, 0, (160, 191))
  else if b0 =? 237 then Some (3%nat, 13, (128, 159))
  else if within 225 239 b0 then Some (3%nat, b0 - 224, (128, 191))
  else if b0 =? 240 then Some (4%nat, 0, (144, 191))
  else if within 241 243 b0 then Some (4%nat, b0 - 240, (128, 191))
  else if b0 =? 244 then Some (4%nat, 4, (128, 143))
  else None.
(** [utf8.DecodeRune]: an invalid byte is [RuneError] of width one. *)
Definition DecodeRune (b0 : Z) (t : list Z) : Z * nat :=
  if b0 <? 128 then (b0, 1%nat)
  else match first_byte b0 with
       | None => (RuneError, 1%nat)
       | Some (n, hi, (lo2, hi2)) =>
           let more := firstn (pred n) t in
           match more with
           | b1 :: others =>
               if (length more =? pred n)%nat && within lo2 hi2 b1 && forallb (within 128 191) others
               then (fold_left (fun acc b => acc * 64 + (b - 128)) more hi, n)
               else (RuneError, 1%nat)
           | [] => (RuneError, 1%nat)
           end
       end.
Fixpoint runes_from (fuel : nat) (l : list Z) : list Z :=
  match fuel, l with
  | S fuel', b0 :: t => let '(r, n) := DecodeRune b0 t in r :: runes_from fuel' (skipn (pred n) t)
  | _, _ => []
  end.
(** [[]rune(s)]. *)
Definition runes (s : string) : list Z := runes_from (length (rune_bytes s)) (rune_bytes s).

(** * Expressions and their language *)
Inductive re : Type :=
| Eps | Bol | Eol
| Cls (negated : bool) (ranges : list (Z * Z))
| Cat (a b : re) | Alt (a b : re) | Star (a : re).
Definition Opt (a : re) : re := Alt a Eps.
Definition Plus (a : re) : re := Cat a (Star a).
Fixpoint Rep (n : nat) (a : re) : re := match n with O => Eps | S n' => Cat a (Rep n' a) end.
Fixpoint UpTo (n : nat) (a : re) : re := match n with O => Eps | S n' => Opt (Cat a (UpTo n' a)) end.
Fixpoint seq_of (l : list re) : re := match l with [] => Eps | r :: l' => Cat r (seq_of l') end.

Definition class_has (negated : bool) (ranges : list (Z * Z)) (c : Z) : bool :=
  xorb negated (existsb (fun '(lo, hi) => within lo hi c) ranges).
Definition is_nil {A} (l : list A) : bool := match l with [] => true | _ => false end.

(** [b]: nothing precedes the word in the text; [e]: nothing follows it. *)
Inductive starred (P : bool -> bool -> list Z -> Prop) : bool -> bool -> list Z -> Prop :=
| star_nil b e : starred P b e []
| star_cons b e w1 w2 : P b (e && is_nil w2) w1 -> starred P (b && is_nil w1) e w2 -> starred P b e (w1 ++ w2).
Fixpoint lang (r : re) (b e : bool) (w : list Z) : Prop :=
  match r with
  | Eps => w = []
  | Bol => w = [] /\ b = true
  | Eol => w = [] /\ e = true
  | Cls n rs => exists c, w = [c] /\ class_has n rs c = true
  | Cat r1 r2 => exists w1 w2, w = w1 ++ w2 /\ lang r1 b (e && is_nil w2) w1 /\ lang r2 (b && is_nil w1) e w2
  | Alt r1 r2 => lang r1 b e w \/ lang r2 b e w
  | Star r1 => starred (lang r1) b e w
  end.

(** * The matcher: how many runes a match may take here *)
Definition after_some (ns : list nat) (f : nat -> list nat) : list nat :=
  nodup Nat.eq_dec (flat_map (fun n => map (Nat.add n) (f n)) ns).
Fixpoint star_ends (f : bool -> list Z -> list nat) (fuel : nat) (b : bool) (l : list Z) : list nat :=
  0%nat :: match fuel with
           | O => []
           | S fuel' => after_some (List.filter (Nat.ltb 0) (f b l)) (fun n => star_ends f fuel' false (skipn n l))
           end.
Fixpoint ends (r : re) (b : bool) (l : list Z) : list nat :=
  match r with
  | Eps => [0%nat]
  | Bol => if b then [0%nat] else []
  | Eol => if is_nil l then [0%nat] else []
  | Cls n rs => match l with c :: _ => if class_has n rs c then [1%nat] else [] | [] => [] end
  | Cat r1 r2 => after_some (ends r1 b l) (fun n => ends r2 (b && (n =? 0)%nat) (skipn n l))
  | Alt r1 r2 => ends r1 b l ++ ends r2 b l
  | Star r1 => star_ends (ends r1) (length l) b l
  end.
Fixpoint search (r : re) (b : bool) (l : list Z) : bool :=
  negb (is_nil (ends r b l)) || match l with [] => false | _ :: l' => search r false l' end.
Definition MatchRunes (r : re) (l : list Z) : bool := search r true l.

(** * The syntax *)
Definition ch (a : ascii) : Z := Z.of_N (N_of_ascii a).
Definition one (c : Z) : re := Cls false [(c, c)].
Definition digits : re := Cls false [(48, 57)].
Fixpoint p_class (fuel : nat) (l : list Z) : option (list (Z * Z) * list Z) :=
  match fuel, l with
  | S f, c :: t =>
      if c =? ch "]" then Some ([], t)
      else match t with
           | d :: hi :: t' =>
               if (d =? ch "-") && negb (hi =? ch "]")
               then if c <=? hi then option_map (fun '(rs, u) => ((c, hi) :: rs, u)) (p_class f t') else None
               else option_map (fun '(rs, u) => ((c, c) :: rs, u)) (p_class f t)
           | _ => option_map (fun '(rs, u) => ((c, c) :: rs, u)) (p_class f t)
           end
  | _, _ => None
  end.
Fixpoint p_number (l : list Z) (acc : nat) : nat * list Z :=
  match l with
  | c :: t => if within 48 57 c then p_number t (10 * acc + Z.to_nat (c - 48)) else (acc, l)
  | [] => (acc, [])
  end.
(** The repetition that may follow an atom. *)
Definition p_suffix (a : re) (l : list Z) : option (re * list Z) :=
  match l with
  | c :: t =>
      if c =? ch "*" then Some (Star a, t)
      else if c =? ch "+" then Some (Plus a, t)
      else if c =? ch "?" then Some (Opt a, t)
      else if c =? ch "{" then
        let '(n, u) := p_number t 0 in
        match u with
        | d :: u' =>
            if d =? ch "}" then Some (Rep n a, u')
            else if d =? ch "," then
              let '(m, v) := p_number u' 0 in
              match v with
              | e :: v' => if (e =? ch "}") && (n <=? m)%nat then Some (seq_of [Rep n a; UpTo (m - n) a], v') else None
              | [] => None
              end
            else None
        | [] => None
        end
      else Some (a, l)
  | [] => Some (a, l)
  end.
Fixpoint p_alt (fuel : nat) (l : list Z) : option (re * list Z) :=
  match fuel with
  | O => None
  | S f =>
      match p_cat f l with
      | Some (rs, c :: t) =>
          if c =? ch "|" then option_map (fun '(r, u) => (Alt (seq_of rs) r, u)) (p_alt f t) else Some (seq_of rs, c :: t)
      | Some (rs, []) => Some (seq_of rs, [])
      | None => None
      end
  end
with p_cat (fuel : nat) (l : list Z) : option (list re * list Z) :=
  match fuel, l with
  | O, _ => None
  | _, [] => Some ([], [])
  | S f, c :: t =>
      if (c =? ch "|") || (c =? ch ")") then Some ([], l)
      else match p_atom f c t with
           | Some (a, u) =>
               match p_suffix a u with
               | Some (r, v) => option_map (fun '(rs, x) => (r :: rs, x)) (p_cat f v)
               | None => None
               end
           | None => None
           end
  end
with p_atom (fuel : nat) (c : Z) (t : list Z) : option (re * list Z) :=
  match fuel with
  | O => None
  | S f =>
      let closed r := match r with
                      | Some (a, d :: u) => if d =? ch ")" then Some (a, u) else None
                      | _ => None
                      end in
      if c =? ch "^" then Some (Bol, t)
      else if c =? ch "$" then Some (Eol, t)
      else if c =? ch "(" then
        match t with
        | q :: d :: t' => if (q =? ch "?") then if d =? ch ":" then closed (p_alt f t') else None else closed (p_alt f t)
        | _ => None
        end
      else if c =? ch "[" then
        match t with
        | n :: t' =>
            let negated := n =? ch "^" in
            match p_class (length t) (if negated then t' else t) with
            | Some (rs, u) => if is_nil rs then None else Some (Cls negated rs, u)
            | None => None
            end
        | [] => None
        end
      else if c =? ch "\" then
        match t with
        | d :: u => if d =? ch "d" then Some (digits, u) else if d =? ch "." then Some (one d, u) else None
        | [] => None
        end
      else if existsb (Z.eqb c) (map ch ["."; "*"; "+"; "?"; "{"; "}"; "]"]%char) then None
      else Some (one c, t)
  end.
(** [None]: the call panics, or the pattern is outside the subset. *)
Definition MustCompile (pattern : string) : option re :=
  let l := runes pattern in
  match p_alt (4 * length l + 8) l with
  | Some (r, []) => Some r
  | _ => None
  end.
Definition MatchString (rgx : option re) (s : string) : bool :=
  match rgx with Some r => MatchRunes r (runes s) | None => false end.

(** * The matcher decides the language *)
Lemma is_nil_eq {A} (l : list A) : is_nil l = true <-> l = [].
Proof. by destruct l. Qed.
Lemma is_nil_length {A} (l : list A) : is_nil l = (length l =? 0)%nat.
Proof. by destruct l. Qed.
Lemma is_nil_app {A} (u v : list A) : is_nil (u ++ v) = is_nil u && is_nil v.
Proof. by destruct u. Qed.

Lemma in_after_some ns f k : In k (after_some ns f) <-> exists n m, In n ns /\ In m (f n) /\ k = (n + m)%nat.
Proof.
  unfold after_some. rewrite nodup_In, in_flat_map. setoid_rewrite in_map_iff. naive_solver.
Qed.

(** What the matcher has to say of an expression: the lengths it gives are
    those of the words of the language that start the rest of the text. *)
Definition decides (f : bool -> list Z -> list nat) (P : bool -> bool -> list Z -> Prop) : Prop :=
  forall b l k, In k (f b l) <-> exists w q, l = w ++ q /\ length w = k /\ P b (is_nil q) w.

Lemma decides_cat f1 f2 P1 P2 : decides f1 P1 -> decides f2 P2 ->
  decides (fun b l => after_some (f1 b l) (fun n => f2 (b && (n =? 0)%nat) (skipn n l)))
    (fun b e w => exists w1 w2, w = w1 ++ w2 /\ P1 b (e && is_nil w2) w1 /\ P2 (b && is_nil w1) e w2).
Proof.
  intros D1 D2 b l k. rewrite in_after_some. split.
  - intros (n & m & (w1 & q1 & -> & <- & H1)%D1 & H2 & ->).
    rewrite drop_app_length in H2. apply D2 in H2 as (w2 & q & -> & <- & H2).
    exists (w1 ++ w2), q. split_and!; [by rewrite app_assoc|by rewrite length_app|].
    exists w1, w2. split_and!; [done| |by rewrite is_nil_length].
    by rewrite is_nil_app, andb_comm in H1.
  - intros (w & q & -> & <- & w1 & w2 & -> & H1 & H2). exists (length w1), (length w2). split_and!.
    + apply D1. exists w1, (w2 ++ q). split_and!; [by rewrite app_assoc|done|]. by rewrite is_nil_app, andb_comm.
    + apply D2. exists w2, q. split_and!; [|done|by rewrite <- is_nil_length].
      by rewrite <- app_assoc, drop_app_length.
    + by rewrite length_app.
Qed.

Lemma star_ends_spec f P : decides f P -> forall fuel b l, (length l <= fuel)%nat -> forall k,
  In k (star_ends f fuel b l) <-> exists w q, l = w ++ q /\ length w = k /\ starred P b (is_nil q) w.
Proof.
  intros D fuel. induction fuel as [|fuel IH]; intros b l Hl k.
  - destruct l; simpl in Hl; [|lia]. simpl. split.
    + intros [<-|[]]. exists [], []. split_and!; [done|done|constructor].
    + intros (w & q & He & <- & _). symmetry in He. apply app_eq_nil in He as [-> _]. by left.
  - cbn [star_ends]. simpl. rewrite in_after_some. split.
    + intros [<-|(n & m & (Hn & Hpos)%filter_In & Hm & ->)].
      { exists [], l. split_and!; [done|done|constructor]. }
      apply D in Hn as (w1 & q1 & -> & <- & H1). apply Nat.ltb_lt in Hpos.
      rewrite drop_app_length in Hm.
      apply IH in Hm as (w2 & q & -> & <- & H2); [|rewrite length_app in Hl; lia].
      exists (w1 ++ w2), q. split_and!; [by rewrite app_assoc|by rewrite length_app|].
      apply star_cons; [by rewrite is_nil_app, andb_comm in H1|].
      destruct w1; [simpl in Hpos; lia|]. by rewrite andb_false_r.
    + intros (w & q & -> & <- & H). remember (is_nil q) as e eqn:Ee. revert Hl.
      induction H as [b e|b e w1 w2 H1 H2 IH2]; intros Hl; [by left|].
      destruct w1 as [|c w1]; [rewrite andb_true_r in *; by apply IH2|]. right.
      exists (length (c :: w1)), (length w2). split_and!; [| |by rewrite length_app].
      * apply filter_In. split; [|done]. apply D. exists (c :: w1), (w2 ++ q).
        split_and!; [by rewrite app_assoc|done|]. by rewrite is_nil_app, <- Ee, andb_comm.
      * rewrite <- app_assoc, drop_app_length.
        apply IH; [rewrite !length_app in Hl; simpl in *; rewrite ?length_app; lia|].
        exists w2, q. split_and!; [done|done|]. rewrite <- Ee. by rewrite andb_false_r in H2.
Qed.

Lemma ends_decide r : decides (ends r) (lang r).
Proof.
  induction r as [| | |n rs|r1 IH1 r2 IH2|r1 IH1 r2 IH2|r1 IH1]; cbn [lang].
  - intros b l k. simpl. split; [intros [<-|[]]; by exists [], l|by intros (w & q & -> & <- & ->); left].
  - intros b l k. simpl. split.
    + destruct b; [|done]. intros [<-|[]]. by exists [], l.
    + intros (w & q & -> & <- & -> & ->). by left.
  - intros b l k. simpl. split.
    + destruct (is_nil l) eqn:El; [|done]. intros [<-|[]]. by exists [], l.
    + intros (w & q & -> & <- & -> & Hq). simpl. rewrite Hq. by left.
  - intros b l k. simpl. split.
    + destruct l as [|c l]; [done|]. destruct (class_has n rs c) eqn:Ec; [|done].
      intros [<-|[]]. exists [c], l. split_and!; [done|done|by exists c].
    + intros (w & q & -> & <- & c & -> & Hc). simpl. rewrite Hc. by left.
  - by apply (decides_cat (ends r1) (ends r2)).
  - intros b l k. simpl. rewrite in_app_iff, (IH1 b l k), (IH2 b l k). split.
    + intros [(w & q & ? & ? & ?)|(w & q & ? & ? & ?)]; exists w, q; auto.
    + intros (w & q & ? & ? & [?|?]); [left|right]; by exists w, q.
  - intros b l k. simpl. by apply star_ends_spec.
Qed.

Lemma search_spec r : forall l b,
  search r b l = true <-> exists p w q, l = p ++ w ++ q /\ lang r (b && is_nil p) (is_nil q) w.
Proof.
  assert (Hhere : forall b l, negb (is_nil (ends r b l)) = true <-> exists w q, l = w ++ q /\ lang r b (is_nil q) w).
  { intros b l. split.
    - intros Hn. destruct (ends r b l) as [|k ks] eqn:E; [done|].
      assert (Hk : In k (ends r b l)) by (rewrite E; by left). apply ends_decide in Hk as (w & q & ? & _ & ?). by exists w, q.
    - intros (w & q & -> & Hw). assert (Hk : In (length w) (ends r b (w ++ q))) by (apply ends_decide; by exists w, q).
      by destruct (ends r b (w ++ q)). }
  induction l as [|c l IH]; intros b; cbn [search]; rewrite orb_true_iff, Hhere.
  - split; [intros [(w & q & ? & ?)|?]; [|done]|].
    + exists [], w, q. by rewrite andb_true_r.
    + intros (p & w & q & He & Hw). left. exists w, q. destruct p; [|done]. by rewrite andb_true_r in Hw.
  - rewrite IH. split.
    + intros [(w & q & ? & ?)|(p & w & q & -> & ?)].
      * exists [], w, q. by rewrite andb_true_r.
      * exists (c :: p), w, q. by rewrite andb_false_r.
    + intros ([|d p] & w & q & He & Hw).
      * left. exists w, q. by rewrite andb_true_r in Hw.
      * right. injection He as -> ->. exists p, w, q. by rewrite andb_false_r in Hw.
Qed.

(** [MatchString] answers whether some part of the text is a word of the
    expression, where [^] and [$] hold only at the ends of the text. *)
Theorem MatchRunes_spec r l :
  MatchRunes r l = true <-> exists p w q, l = p ++ w ++ q /\ lang r (is_nil p) (is_nil q) w.
Proof. apply search_spec. Qed.

(** * Expressions without anchors *)
Fixpoint plain (r : re) : bool :=
  match r with
  | Bol | Eol => false
  | Cat a b | Alt a b => plain a && plain b
  | Star a => plain a
  | _ => true
  end.
Definition word (r : re) (w : list Z) : Prop := lang r true true w.

Lemma starred_iff (P Q : bool -> bool -> list Z -> Prop) b e b' e' w :
  (forall b e b' e' w, P b e w -> Q b' e' w) -> starred P b e w -> starred Q b' e' w.
Proof.
  intros HPQ H. revert b' e'. induction H as [|b e w1 w2 H1 H2 IH]; intros b' e'; constructor; [by eapply HPQ|apply IH].
Qed.
Lemma plain_lang r : plain r = true -> forall b e b' e' w, lang r b e w -> lang r b' e' w.
Proof.
  induction r as [| | |n rs|r1 IH1 r2 IH2|r1 IH1 r2 IH2|r1 IH1]; simpl; intros Hp b e b' e' w; try done.
  - apply andb_true_iff in Hp as [Hp1 Hp2]. intros (w1 & w2 & -> & H1 & H2). exists w1, w2. naive_solver.
  - apply andb_true_iff in Hp as [Hp1 Hp2]. naive_solver.
  - apply starred_iff. by apply IH1.
Qed.

Lemma word_cat a b w : plain a = true -> plain b = true ->
  word (Cat a b) w <-> exists w1 w2, w = w1 ++ w2 /\ word a w1 /\ word b w2.
Proof.
  intros Ha Hb. unfold word. simpl. split; intros (w1 & w2 & -> & H1 & H2); exists w1, w2; split_and!; try done;
    eauto using plain_lang.
Qed.
Lemma word_one c w : word (one c) w <-> w = [c].
Proof.
  unfold word, one. simpl. split.
  - intros (d & -> & Hd). unfold class_has, within in Hd. simpl in Hd. f_equal.
    rewrite orb_false_r, andb_true_iff, !Z.leb_le in Hd. lia.
  - intros ->. exists c. split; [done|]. unfold class_has, within. simpl. by rewrite Z.leb_refl.
Qed.
Lemma word_opt a w : word (Opt a) w <-> w = [] \/ word a w.
Proof. unfold word, Opt. simpl. tauto. Qed.
Lemma word_cls n rs w : word (Cls n rs) w <-> exists c, w = [c] /\ class_has n rs c = true.
Proof. done. Qed.

(** Words of a repetition. *)
Lemma word_star a w : plain a = true -> word (Star a) w <-> exists ws, w = concat ws /\ Forall (word a) ws.
Proof.
  intros Hp. unfold word at 1. simpl. split.
  - generalize true at 1 as b. generalize true as e. intros e b H. induction H as [|b e w1 w2 H1 H2 (ws & -> & Hws)].
    + by exists [].
    + exists (w1 :: ws). split; [done|]. constructor; [by eapply plain_lang|done].
  - intros (ws & -> & Hws). generalize true at 1 as b. generalize true as e. intros e b. revert b.
    induction Hws as [|w ws Hw Hws IH]; intros b; simpl; [constructor|].
    constructor; [by eapply plain_lang|apply IH].
Qed.
Lemma word_star_cls n rs w : word (Star (Cls n rs)) w <-> Forall (fun c => class_has n rs c = true) w.
Proof.
  rewrite word_star by done. split.
  - intros (ws & -> & Hws). induction Hws as [|u ws (c & -> & Hc) Hws IH]; simpl; [done|]. by constructor.
  - intros Hw. exists (map (fun c => [c]) w). split.
    + clear Hw. induction w; simpl; congruence.
    + induction Hw as [|c w Hc Hw IH]; simpl; constructor; [by exists c|done].
Qed.
Lemma word_plus_cls n rs w :
  word (Plus (Cls n rs)) w <-> w <> [] /\ Forall (fun c => class_has n rs c = true) w.
Proof.
  unfold Plus. rewrite word_cat by done. split.
  - intros (w1 & w2 & -> & (c & -> & Hc) & Hw). apply word_star_cls in Hw. split; [done|]. by constructor.
  - intros [Hne Hw]. destruct w as [|c w]; [done|]. apply Forall_cons in Hw as [Hc Hw]. exists [c], w.
    split_and!; [done|by exists c|by apply word_star_cls].
Qed.
Lemma plain_Rep n a : plain a = true -> plain (Rep n a) = true.
Proof. intros Hp. induction n; simpl; [done|by rewrite Hp]. Qed.
Lemma plain_UpTo n a : plain a = true -> plain (UpTo n a) = true.
Proof. intros Hp. induction n as [|n IH]; simpl; [done|by rewrite Hp, IH]. Qed.
Lemma word_rep_cls k n rs w :
  word (Rep k (Cls n rs)) w <-> length w = k /\ Forall (fun c => class_has n rs c = true) w.
Proof.
  revert w. induction k as [|k IH]; intros w; cbn [Rep].
  - unfold word. simpl. split; [intros ->; by split|intros [Hl _]; by apply nil_length_inv].
  - rewrite word_cat by (by try apply plain_Rep). split.
    + intros (w1 & w2 & -> & (c & -> & Hc) & [<- Hw]%IH). split; [done|]. by constructor.
    + intros [Hl Hw]. destruct w as [|c w]; [done|]. apply Forall_cons in Hw as [Hc Hw]. injection Hl as Hl.
      exists [c], w. split_and!; [done|by exists c|by apply IH].
Qed.
Lemma word_upto_cls k n rs w :
  word (UpTo k (Cls n rs)) w <-> (length w <= k)%nat /\ Forall (fun c => class_has n rs c = true) w.
Proof.
  revert w. induction k as [|k IH]; intros w; cbn [UpTo].
  - unfold word. simpl. split; [intros ->; by split|intros [Hl _]; apply nil_length_inv; lia].
  - rewrite word_opt, word_cat by (by try apply plain_UpTo). split.
    + intros [->|(w1 & w2 & -> & (c & -> & Hc) & [? Hw]%IH)]; simpl; [split; [lia|done]|]. split; [lia|]. by constructor.
    + intros [Hl Hw]. destruct w as [|c w]; [by left|]. right. apply Forall_cons in Hw as [Hc Hw]. simpl in Hl.
      exists [c], w. split_and!; [done|by exists c|apply IH; split; [lia|done]].
Qed.

(** A pattern between [^] and [$] is matched by its words only. *)
Lemma seq_of_plain rs : forallb plain rs = true -> plain (seq_of rs) = true.
Proof. induction rs as [|r rs IH]; simpl; [done|]. intros [-> ?]%andb_true_iff. by apply IH. Qed.
Lemma lang_seq_Eol rs b e w : forallb plain rs = true ->
  lang (seq_of (rs ++ [Eol])) b e w <-> e = true /\ word (seq_of rs) w.
Proof.
  revert b e w. induction rs as [|r rs IH]; intros b e w Hp.
  - unfold word. simpl. split.
    + intros (w1 & w2 & -> & [-> He] & ->). by rewrite andb_true_r in He.
    + intros [-> ->]. by exists [], [].
  - apply andb_true_iff in Hp as [Hp1 Hp2]. cbn [app seq_of].
    rewrite (word_cat r (seq_of rs) w Hp1 (seq_of_plain rs Hp2)). simpl. split.
    + intros (w1 & w2 & -> & H1 & [-> H2]%IH); [|done]. split; [done|]. exists w1, w2. split_and!; [done|by eapply plain_lang|done].
    + intros (-> & w1 & w2 & -> & H1 & H2). exists w1, w2. split_and!; [done|by eapply plain_lang|by apply IH].
Qed.
Lemma MatchRunes_whole rs l : forallb plain rs = true ->
  MatchRunes (seq_of (Bol :: rs ++ [Eol])) l = true <-> word (seq_of rs) l.
Proof.
  intros Hp. unfold MatchRunes. rewrite search_spec. cbn [seq_of lang]. split.
  - intros (p & w & q & -> & w1 & w2 & -> & [-> Hb] & H). apply lang_seq_Eol in H as [Hq H]; [|done].
    destruct p; [|done]. apply is_nil_eq in Hq as ->. by rewrite app_nil_r.
  - intros H. exists [], l, []. rewrite app_nil_r. split; [done|]. exists [], l. split_and!; [done|done|done|].
    by apply lang_seq_Eol.
Qed.

(** * Runes of ASCII texts *)
Lemma first_byte_high b0 n hi lo2 hi2 : first_byte b0 = Some (n, hi, (lo2, hi2)) -> (2 <= n)%nat /\ 0 <= hi /\
  (n = 2%nat -> 2 <= hi) /\ (hi = 0 -> 144 <= lo2) /\ 128 <= lo2.
Proof.
  unfold first_byte, within. intros H. repeat case_match; simplify_eq; lia.
Qed.
Lemma fold_runes l : forall hi, 0 <= hi -> forallb (within 128 191) l = true ->
  hi * 64 ^ Z.of_nat (length l) <= fold_left (fun acc b => acc * 64 + (b - 128)) l hi.
Proof.
  induction l as [|b l IH]; intros hi Hhi Hl; simpl fold_left; [change (length []) with 0%nat; lia|].
  simpl in Hl. apply andb_true_iff in Hl as [Hb Hl]. unfold within in Hb.
  specialize (IH (hi * 64 + (b - 128)) ltac:(lia) Hl). cbn [length]. rewrite Nat2Z.inj_succ, Z.pow_succ_r by lia.
  pose proof (Z.pow_pos_nonneg 64 (Z.of_nat (length l)) ltac:(lia) ltac:(lia)). nia.
Qed.
Lemma DecodeRune_high b0 t : 128 <= b0 -> 128 <= fst (DecodeRune b0 t).
Proof.
  intros Hb. unfold DecodeRune. destruct (Z.ltb_spec b0 128); [lia|].
  destruct (first_byte b0) as [[[n hi] [lo2 hi2]]|] eqn:E; [|done].
  apply first_byte_high in E as (Hn & Hhi & H2 & H0 & Hlo). destruct (firstn (pred n) t) as [|b1 more] eqn:Em; [done|].
  destruct (_ && _ && _) eqn:Ec; [|done]. apply andb_true_iff in Ec as [[Hlen H1]%andb_true_iff Hmore].
  apply Nat.eqb_eq in Hlen. unfold within in H1. cbn [fst fold_left].
  pose proof (fold_runes more (hi * 64 + (b1 - 128)) ltac:(lia) Hmore) as Hf. simpl in Hlen.
  pose proof (Z.pow_pos_nonneg 64 (Z.of_nat (length more)) ltac:(lia) ltac:(lia)).
  destruct (decide (n = 2%nat)) as [->|Hn2]; [nia|].
  assert (Hm : (1 <= length more)%nat) by lia. rewrite <- (Nat.succ_pred_pos (length more)) in Hf by lia.
  rewrite Nat2Z.inj_succ, Z.pow_succ_r in Hf by lia.
  pose proof (Z.pow_pos_nonneg 64 (Z.of_nat (pred (length more))) ltac:(lia) ltac:(lia)).
  destruct (decide (hi = 0)) as [->|]; nia.
Qed.
(** The runes are ASCII exactly when the bytes are, and are then the bytes. *)
Lemma runes_ascii s : Forall (fun c => c < 128) (runes s) <-> Forall (fun c => c < 128) (rune_bytes s).
Proof.
  unfold runes. generalize (rune_bytes s) as l. intros l. assert (Hl : (length l <= length l)%nat) by lia.
  revert Hl. generalize (length l) at 2 3 as fuel. intros fuel. revert l.
  induction fuel as [|fuel IH]; intros [|b0 t] Hl; simpl in *; try done; try lia.
  destruct (decide (b0 < 128)) as [Hb|Hb].
  - unfold DecodeRune. destruct (Z.ltb_spec b0 128); [|lia]. rewrite !Forall_cons. simpl. rewrite (IH t) by lia. done.
  - split; [|intros [? _]%Forall_cons; lia].
    pose proof (DecodeRune_high b0 t ltac:(lia)) as Hr. destruct (DecodeRune b0 t) as [r n].
    simpl in Hr. intros [? _]%Forall_cons. lia.
Qed.
Lemma runes_of_ascii s : Forall (fun c => c < 128) (rune_bytes s) -> runes s = rune_bytes s.
Proof.
  unfold runes. generalize (rune_bytes s) as l. intros l. assert (Hl : (length l <= length l)%nat) by lia.
  revert Hl. generalize (length l) at 2 3 as fuel. intros fuel. revert l.
  induction fuel as [|fuel IH]; intros [|b0 t] Hl H; simpl in *; try done; try lia.
  apply Forall_cons in H as [Hb Ht]. unfold DecodeRune. destruct (Z.ltb_spec b0 128); [|lia]. f_equal. apply IH; [simpl; lia|done].
Qed.
