(* ===== verification/Validate.v ===== *)
(** The validators of src/validate/validate.go, with the patterns of the source
    read by the parser of Regexp.v.  The struct validation, which hands over to
    a third-party package, is left out. *)
From stdpp Require Import base list strings.
From Stdlib Require Import ZArith Lia Ascii String.
From S2P Require Import Prelude Regexp.
Open Scope Z_scope.

Definition matches (pattern value : string) : bool := MatchString (MustCompile pattern) value.

Definition email_pattern : string :=
  "^[a-zA-Z0-9.!#$%&'*+/=?^_`{|}~-]+@[a-zA-Z0-9](?:[a-zA-Z0-9-]{0,61}[a-zA-Z0-9])?(?:\.[a-zA-Z0-9](?:[a-zA-Z0-9-]{0,61}[a-zA-Z0-9])?)*$".
Definition IsEmail (value : string) : Res unit :=
  if negb (matches email_pattern value) then Err (ErrNew ("invalid format email: " ++ value)) else Ok tt.

Definition IsPhone (value : string) : Res unit :=
  if matches "^1([38796][0-9]|14[57]|5[^4])\d{8}$" value then Ok tt
  else Err (ErrNew ("手机号码 " ++ value ++ " 格式错误")).

Definition card_pattern : string :=
  "(^[1-9]\d{5}(18|19|([23]\d))\d{2}((0[1-9])|(10|11|12))(([0-2][1-9])|10|20|30|31)\d{3}[0-9Xx])|([1−9]\d5\d2((0[1−9])|(10|11|12))(([0−2][1−9])|10|20|30|31)\d2[0−9Xx])".
Definition IsCardNumber (value : string) : Res unit :=
  if negb (String.length value =? 18)%nat && negb (String.length value =? 15)%nat
  then Err (ErrNew ("身份证 " ++ value ++ " 长度错误"))
  else if matches card_pattern value then Ok tt
  else Err (ErrNew ("身份证 " ++ value ++ " 格式错误")).

Definition IsBankAccountNumber (value : string) : Res unit :=
  if negb (String.length value =? 16)%nat && negb (String.length value =? 19)%nat
  then Err (ErrNew ("银行卡号 " ++ value ++ " 长度错误"))
  else if matches "^(\d+)$" value then Ok tt
  else Err (ErrNew ("银行卡号 " ++ value ++ " 格式错误")).

Definition IsLetterNumber (value : string) : Res unit :=
  if matches "^[A-Za-z0-9]+$" value then Ok tt else Err (ErrNew ("内容格式错误 " ++ value)).

(** [strings.Contains] and [strings.ContainsRune]; the text of the second is
    ASCII here, so an invalid rune is not in it. *)
Fixpoint Contains (s substr : string) : bool :=
  has_prefix substr s || match s with String _ s' => Contains s' substr | EmptyString => false end.
Definition ContainsRune (s : string) (r : Z) : bool := existsb (Z.eqb r) (runes s).

Definition validChars : string := "abcdefghijklmnopqrstuvwxyzABCDEFGHIJKLMNOPQRSTUVWXYZ0123456789-".
Definition IsUsername (username : string) : Res unit :=
  if (String.length username <? 3)%nat || (32 <? String.length username)%nat
  then Err (ErrNew "用户名长度必须为 3-32 个字符")
  else if existsb (fun c => negb (ContainsRune validChars c)) (runes username)
  then Err (ErrNew "用户名只能包含字母数字和破折号（-）")
  else if (nth 0 (rune_bytes username) 0 =? ch "-") ||
          (nth (String.length username - 1) (rune_bytes username) 0 =? ch "-")
  then Err (ErrNew "用户名不能以破折号（-）开头或结尾")
  else if Contains username "--" then Err (ErrNew "用户名不能包含连续的破折号（--）")
  else Ok tt.

Definition IsTitle (value : string) : Res unit :=
  if (String.length value <? 5)%nat then Err (ErrNew "标题长度过短") else Ok tt.
Definition IsPassword (value : string) : Res unit :=
  if (String.length value <? 6)%nat then Err (ErrNew "密码长度过短") else Ok tt.

(** [time.Hour * 24 * 365 * 8]. *)
Definition defaultNearbyTimeRange : Z := 3600000000000 * 24 * 365 * 8.
(** Times are nanoseconds; [fmt_time] is the text of a time. *)
Definition IsNearbyTime `{Env} {S} (fmt_time : Z -> string) (t : Z) (intervals : list Z) : M S unit :=
  let! now := gnow in
  let begin := match intervals with i :: _ => now + wrap_i64 (i * -1) | [] => now + defaultNearbyTimeRange * -1 end in
  let end_ := match intervals with _ :: i :: _ => now + i | _ => now + defaultNearbyTimeRange end in
  if t <? begin then graise (ErrNew ("invalid time " ++ fmt_time t ++ ", is before " ++ fmt_time begin))
  else if end_ <? t then graise (ErrNew ("invalid time " ++ fmt_time t ++ ", is after " ++ fmt_time end_))
  else gret tt.

Definition IsDocumentNumber (value : string) : bool := matches "^[a-zA-Z]{2}\d+[a-zA-Z]$" value.
Definition IsApplicationNumber (value : string) : bool := matches "^[a-zA-Z]{2}\d*\.\d$" value.

(** * Characters *)
Definition is_dec (c : Z) : bool := within 48 57 c.
Definition is_letter (c : Z) : bool := within 97 122 c || within 65 90 c.
Definition is_alnum (c : Z) : bool := is_letter c || is_dec c.
Definition local_char (c : Z) : bool := is_alnum c || existsb (Z.eqb c) (runes ".!#$%&'*+/=?^_`{|}~-").
(** A label of a domain name: up to 63 letters, digits and hyphens, no hyphen
    at either end. *)
Definition good_label (l : list Z) : Prop :=
  (1 <= length l <= 63)%nat /\ Forall (fun c => is_alnum c = true \/ c = ch "-") l /\
  head l <> Some (ch "-") /\ last l <> Some (ch "-").
Definition all (p : Z -> bool) (l : list Z) : Prop := Forall (fun c => p c = true) l.

(** ** Classes of the patterns *)
Lemma all_ext p q l : (forall c, p c = q c) -> all p l <-> all q l.
Proof. intros Hpq. unfold all. split; intros H; (eapply Forall_impl; [exact H|]); intros c; simpl; by rewrite Hpq. Qed.
Lemma class_digits c : class_has false [(48, 57)] c = is_dec c.
Proof. unfold class_has. cbn. by rewrite orb_false_r. Qed.
Lemma class_alnum c : class_has false [(97, 122); (65, 90); (48, 57)] c = is_alnum c.
Proof. unfold class_has, is_alnum, is_letter, is_dec. cbn. by rewrite orb_false_r, orb_assoc. Qed.
Lemma class_alnum' c : class_has false [(65, 90); (97, 122); (48, 57)] c = is_alnum c.
Proof.
  unfold class_has, is_alnum, is_letter, is_dec. cbn. rewrite orb_false_r, orb_assoc. by rewrite (orb_comm (within 65 90 c)).
Qed.
Lemma class_letter c : class_has false [(97, 122); (65, 90)] c = is_letter c.
Proof. unfold class_has, is_letter. cbn. by rewrite orb_false_r. Qed.
Lemma within_one d c : within d d c = (c =? d).
Proof. unfold within. destruct (Z.eqb_spec c d), (Z.leb_spec d c), (Z.leb_spec c d); simpl; lia || done. Qed.
Lemma class_label c : class_has false [(97, 122); (65, 90); (48, 57); (45, 45)] c = is_alnum c || (c =? ch "-").
Proof. unfold class_has, is_alnum, is_letter, is_dec. cbn. by rewrite within_one, orb_false_r, !orb_assoc. Qed.
Lemma class_local c : class_has false [(97, 122); (65, 90); (48, 57); (46, 46); (33, 33); (35, 35); (36, 36); (37, 37);
  (38, 38); (39, 39); (42, 42); (43, 43); (47, 47); (61, 61); (63, 63); (94, 94); (95, 95); (96, 96); (123, 123);
  (124, 124); (125, 125); (126, 126); (45, 45)] c = local_char c.
Proof.
  unfold local_char. assert (Er : runes ".!#$%&'*+/=?^_`{|}~-" = [46; 33; 35; 36; 37; 38; 39; 42; 43; 47; 61; 63; 94; 95; 96; 123; 124; 125; 126; 45]) by reflexivity.
  rewrite Er. unfold class_has, is_alnum, is_letter, is_dec. cbn [existsb xorb]. rewrite !within_one. by rewrite !orb_assoc.
Qed.
Lemma alnum_not_dash c : is_alnum c = true -> c <> ch "-".
Proof. intros Hc ->. done. Qed.

(** ** Words of a sequence *)
Lemma word_seq_cons r rs w : forallb plain (r :: rs) = true ->
  word (seq_of (r :: rs)) w <-> exists w1 w2, w = w1 ++ w2 /\ word r w1 /\ word (seq_of rs) w2.
Proof. intros [Hr Hrs]%andb_true_iff. by apply word_cat, seq_of_plain. Qed.
Lemma word_seq_one r w : plain r = true -> word (seq_of [r]) w <-> word r w.
Proof.
  intros Hr. rewrite word_seq_cons by (simpl; by rewrite Hr). split.
  - intros (w1 & w2 & -> & H1 & ->). by rewrite app_nil_r.
  - intros H. exists w, []. by rewrite app_nil_r.
Qed.
Lemma word_seq_app l1 l2 w : forallb plain l1 = true -> forallb plain l2 = true ->
  word (seq_of (l1 ++ l2)) w <-> exists w1 w2, w = w1 ++ w2 /\ word (seq_of l1) w1 /\ word (seq_of l2) w2.
Proof.
  revert w. induction l1 as [|r l1 IH]; intros w H1 H2.
  - split; [intros H; by exists [], w|by intros (w1 & w2 & -> & -> & H)].
  - cbn [app]. rewrite !word_seq_cons by (try done; simpl in *; rewrite forallb_app; apply andb_true_iff in H1 as [-> ->]; done).
    apply andb_true_iff in H1 as [Hr H1]. setoid_rewrite word_seq_cons; [|simpl; by rewrite Hr]. split.
    + intros (u & v & -> & Hu & (v1 & v2 & -> & Hv1 & Hv2)%IH); [|done|done].
      exists (u ++ v1), v2. split_and!; [by rewrite app_assoc|by exists u, v1|done].
    + intros (w1 & w2 & -> & (u & v & -> & Hu & Hv) & H). exists u, (v ++ w2). split_and!; [by rewrite app_assoc|done|].
      apply IH; [done|done|]. by exists v, w2.
Qed.
Lemma word_all_plus p rs w : (forall c, class_has false rs c = p c) -> word (Plus (Cls false rs)) w <-> w <> [] /\ all p w.
Proof. intros Hp. rewrite word_plus_cls. by rewrite <- (all_ext (class_has false rs) p w Hp). Qed.
Lemma word_all_star p rs w : (forall c, class_has false rs c = p c) -> word (Star (Cls false rs)) w <-> all p w.
Proof. intros Hp. rewrite word_star_cls. by apply all_ext. Qed.
Lemma word_all_rep n p rs w : (forall c, class_has false rs c = p c) -> word (Rep n (Cls false rs)) w <-> length w = n /\ all p w.
Proof. intros Hp. rewrite word_rep_cls. by rewrite <- (all_ext (class_has false rs) p w Hp). Qed.
Lemma word_all_cls p rs w : (forall c, class_has false rs c = p c) -> word (Cls false rs) w <-> exists c, w = [c] /\ p c = true.
Proof. intros Hp. rewrite word_cls. split; intros (c & -> & Hc); exists c; (split; [done|]); [by rewrite <- Hp|by rewrite Hp]. Qed.
Lemma matches_whole pattern rs value :
  MustCompile pattern = Some (seq_of (Bol :: rs ++ [Eol])) -> forallb plain rs = true ->
  matches pattern value = true <-> word (seq_of rs) (runes value).
Proof. intros Hc Hp. unfold matches, MatchString. rewrite Hc. by apply MatchRunes_whole. Qed.

Definition alnum_re : re := Cls false [(97, 122); (65, 90); (48, 57)].
Definition label_res : list re :=
  [alnum_re; Opt (seq_of [seq_of [Rep 0 (Cls false [(97, 122); (65, 90); (48, 57); (45, 45)]);
                                         UpTo 61 (Cls false [(97, 122); (65, 90); (48, 57); (45, 45)])]; alnum_re])].
Lemma word_alnum w : word alnum_re w <-> exists c, w = [c] /\ is_alnum c = true.
Proof. apply word_all_cls, class_alnum. Qed.

Lemma word_label w : word (seq_of label_res) w <-> good_label w.
Proof.
  unfold label_res. rewrite word_seq_cons by reflexivity. setoid_rewrite word_seq_one; [|reflexivity].
  setoid_rewrite word_opt. setoid_rewrite word_seq_cons; [|reflexivity]. setoid_rewrite word_seq_one; [|reflexivity].
  assert (Hmid : forall u, word (seq_of [Rep 0 (Cls false [(97, 122); (65, 90); (48, 57); (45, 45)]);
      UpTo 61 (Cls false [(97, 122); (65, 90); (48, 57); (45, 45)])]) u <->
      (length u <= 61)%nat /\ Forall (fun c => is_alnum c = true \/ c = ch "-") u).
  { intros u. rewrite word_seq_cons by reflexivity. setoid_rewrite word_seq_one; [|reflexivity].
    setoid_rewrite word_upto_cls. split.
    - intros (w1 & w2 & -> & -> & Hl & Hf). split; [done|]. eapply Forall_impl; [exact Hf|]. intros c. cbn beta.
      rewrite class_label, orb_true_iff, Z.eqb_eq. done.
    - intros [Hl Hf]. exists [], u. split_and!; [done|done|done|]. eapply Forall_impl; [exact Hf|]. intros c. cbn beta.
      by rewrite class_label, orb_true_iff, Z.eqb_eq. }
  setoid_rewrite Hmid. setoid_rewrite word_alnum. unfold good_label. split.
  - intros (w1 & w2 & -> & (c & -> & Hc) & [->|(m & u & -> & [Hl Hm] & (d & -> & Hd))]).
    + split_and!; [simpl; lia|simpl; lia|by constructor; [left|]|intros [= ->]; done|intros [= ->]; done].
    + split_and!; [simpl; lia|simpl; rewrite length_app; simpl; lia| | |].
      * constructor; [by left|]. apply Forall_app. split; [done|]. by constructor; [left|].
      * intros [= ->]. done.
      * rewrite app_assoc, last_snoc. intros [= ->]. done.
  - intros ([Hl1 Hl2] & Hf & Hh & Ht). destruct w as [|c w]; [simpl in Hl1; lia|]. apply Forall_cons in Hf as [Hc Hf].
    exists [c], w. split; [done|]. split; [exists c; split; [done|]; destruct Hc as [|Hc]; [done|simpl in Hh; congruence]|].
    destruct (decide (w = [])) as [->|Hne]; [by left|]. right.
    destruct (exists_last Hne) as (m & d & ->). apply Forall_app in Hf as [Hm Hd]. apply Forall_cons in Hd as [Hd _].
    exists m, [d]. split; [done|]. split; [split; [simpl in Hl2; rewrite length_app in Hl2; simpl in Hl2; lia|done]|].
    exists d. split; [done|]. destruct Hd as [|Hd]; [done|]. rewrite app_comm_cons, last_snoc in Ht. congruence.
Qed.

(** An address is accepted exactly when it is a non-empty local part of the
    listed characters, an at sign, and a domain of one or more labels joined by
    dots, each of at most 63 letters, digits and inner hyphens. *)
Theorem IsEmail_spec value :
  IsEmail value = Ok tt <->
  exists local label labels,
    runes value = local ++ [ch "@"] ++ label ++ concat (map (cons (ch ".")) labels) /\
    local <> [] /\ all local_char local /\ Forall good_label (label :: labels).
Proof.
  assert (Hm : IsEmail value = Ok tt <-> matches email_pattern value = true) by (unfold IsEmail; destruct (matches _ _); naive_solver).
  rewrite Hm, (matches_whole _ (Plus (Cls false [(97, 122); (65, 90); (48, 57); (46, 46); (33, 33); (35, 35); (36, 36);
    (37, 37); (38, 38); (39, 39); (42, 42); (43, 43); (47, 47); (61, 61); (63, 63); (94, 94); (95, 95); (96, 96); (123, 123);
    (124, 124); (125, 125); (126, 126); (45, 45)]) :: one 64 :: label_res ++ [Star (seq_of (one 46 :: label_res))])) by (vm_compute; reflexivity).
  rewrite word_seq_cons by reflexivity. setoid_rewrite (word_all_plus local_char); [|exact class_local].
  setoid_rewrite word_seq_cons; [|reflexivity]. setoid_rewrite word_one. setoid_rewrite word_seq_app; [|reflexivity|reflexivity].
  setoid_rewrite word_label. setoid_rewrite word_seq_one; [|reflexivity]. setoid_rewrite word_star; [|reflexivity].
  assert (Hdot : forall u, word (seq_of (one 46 :: label_res)) u <-> exists l, u = 46 :: l /\ good_label l).
  { intros u. rewrite word_seq_cons by reflexivity. setoid_rewrite word_one. setoid_rewrite word_label. split.
    - intros (w1 & w2 & -> & -> & H). by exists w2.
    - intros (l & -> & H). by exists [46], l. }
  split.
  - intros (local & w2 & -> & [Hne Hloc] & w3 & w4 & -> & -> & label & w5 & -> & Hlab & ws & -> & Hws).
    assert (Hl : exists labels, ws = map (cons 46) labels /\ Forall good_label labels).
    { induction Hws as [|u ws (l & -> & Hl)%Hdot Hws (ls & -> & Hls)]; [by exists []|]. exists (l :: ls). split; [done|by constructor]. }
    destruct Hl as (labels & -> & Hls). exists local, label, labels. split_and!; [done|done|done|by constructor].
  - intros (local & label & labels & -> & Hne & Hloc & Hls). apply Forall_cons in Hls as [Hlab Hls].
    exists local, ([ch "@"] ++ label ++ concat (map (cons (ch ".")) labels)). split_and!; [done|done|done|].
    exists [64], (label ++ concat (map (cons (ch ".")) labels)). split_and!; [done|done|]. exists label, (concat (map (cons (ch ".")) labels)).
    split_and!; [done|done|]. exists (map (cons (ch ".")) labels). split; [done|]. apply Forall_map.
    eapply Forall_impl; [exact Hls|]. intros l Hl. apply Hdot. by exists l.
Qed.

(** ** Numbers *)
Lemma word_digit_run n w : word (Rep n digits) w <-> length w = n /\ all is_dec w.
Proof. apply word_all_rep, class_digits. Qed.

Lemma word_digit w : word digits w <-> exists c, w = [c] /\ is_dec c = true.
Proof. apply word_all_cls, class_digits. Qed.

(** The three ways the first digits of a phone number may go on. *)
Definition common_re : re := seq_of [Cls false [(51, 51); (56, 56); (55, 55); (57, 57); (54, 54)]; digits].
Definition data_re : re := seq_of [one 49; one 52; Cls false [(53, 53); (55, 55)]].
Definition five_re : re := seq_of [one 53; Cls true [(52, 52)]].
Definition is_segment (u : list Z) : Prop :=
  (exists a b, u = [a; b] /\ a ∈ map ch ["3"; "8"; "7"; "9"; "6"]%char /\ is_dec b = true) \/
  u = map ch ["1"; "4"; "5"]%char \/ u = map ch ["1"; "4"; "7"]%char \/
  (exists c, u = [ch "5"; c] /\ c <> ch "4").
Lemma word_common u : word common_re u <-> exists a b, u = [a; b] /\ a ∈ map ch ["3"; "8"; "7"; "9"; "6"]%char /\ is_dec b = true.
Proof.
  unfold common_re. rewrite word_seq_cons by done. setoid_rewrite word_seq_one; [|done]. setoid_rewrite word_digit.
  assert (Ha : forall a, class_has false [(51, 51); (56, 56); (55, 55); (57, 57); (54, 54)] a = true <->
    a ∈ map ch ["3"; "8"; "7"; "9"; "6"]%char).
  { intros a. unfold class_has. cbn [existsb xorb]. rewrite !within_one, orb_false_r, !orb_true_iff, !Z.eqb_eq.
    cbn. rewrite !elem_of_cons, elem_of_nil. tauto. }
  setoid_rewrite word_cls. setoid_rewrite Ha. split.
  - intros (w1 & w2 & -> & (a & -> & ?) & (b & -> & ?)). by exists a, b.
  - intros (a & b & -> & ? & ?). exists [a], [b]. split_and!; [done|by exists a|by exists b].
Qed.
Lemma word_data u : word data_re u <-> u = map ch ["1"; "4"; "5"]%char \/ u = map ch ["1"; "4"; "7"]%char.
Proof.
  unfold data_re. rewrite word_seq_cons by done. setoid_rewrite word_seq_cons; [|done]. setoid_rewrite word_seq_one; [|done].
  setoid_rewrite word_one. setoid_rewrite word_cls. unfold class_has. cbn [existsb xorb]. split.
  - intros (w1 & w2 & -> & -> & w3 & w4 & -> & -> & c & -> & Hc). rewrite !within_one, orb_false_r, orb_true_iff, !Z.eqb_eq in Hc.
    destruct Hc as [-> | ->]; [by left|by right].
  - intros [->| ->]; exists [49]; eexists; (split_and!; [done|done|]); exists [52]; eexists; (split_and!; [done|done|]); by eexists.
Qed.
Lemma word_five u : word five_re u <-> exists c, u = [ch "5"; c] /\ c <> ch "4".
Proof.
  unfold five_re. rewrite word_seq_cons by done. setoid_rewrite word_seq_one; [|done].
  setoid_rewrite word_one. setoid_rewrite word_cls.
  assert (Hc : forall c, class_has true [(52, 52)] c = true <-> c <> ch "4").
  { intros c. unfold class_has. cbn [existsb]. rewrite within_one, orb_false_r. destruct (Z.eqb_spec c 52); naive_solver. }
  setoid_rewrite Hc. split; [intros (w1 & w2 & -> & -> & c & -> & ?); by exists c|].
  intros (c & -> & ?). exists [53], [c]. split_and!; [done|done|by exists c].
Qed.
Lemma word_segment u : word (Alt common_re (Alt data_re five_re)) u <-> is_segment u.
Proof.
  change (word common_re u \/ word data_re u \/ word five_re u <-> is_segment u).
  rewrite word_common, word_data, word_five. unfold is_segment. tauto.
Qed.

(** A phone number is accepted exactly when it is a 1, then 3, 8, 7, 9 or 6
    and a digit, or the three characters 145 or 147, or 5 and any character but
    4, then eight digits: so the numbers of the segments 145 and 147 are
    accepted with twelve digits only, and letters pass after 15. *)
Theorem IsPhone_spec value :
  IsPhone value = Ok tt <->
  exists segment digits8, runes value = ch "1" :: segment ++ digits8 /\ is_segment segment /\
    length digits8 = 8%nat /\ all is_dec digits8.
Proof.
  assert (Hm : IsPhone value = Ok tt <-> matches "^1([38796][0-9]|14[57]|5[^4])\d{8}$" value = true)
    by (unfold IsPhone; destruct (matches _ _); naive_solver).
  rewrite Hm, (matches_whole _ [one 49; Alt common_re (Alt data_re five_re); Rep 8 digits]) by (vm_compute; reflexivity).
  rewrite word_seq_cons by done. setoid_rewrite word_one. setoid_rewrite word_seq_cons; [|done]. setoid_rewrite word_seq_one; [|done].
  setoid_rewrite word_digit_run. setoid_rewrite word_segment. split.
  - intros (w1 & w2 & -> & -> & u & v & -> & Hu & Hl & Hv). by exists u, v.
  - intros (u & v & -> & Hu & Hl & Hv). exists [49], (u ++ v). split_and!; [done|done|]. by exists u, v.
Qed.

(** Bank accounts are 16 or 19 digits; a letter-number text is a non-empty
    text of letters and digits; a document number is two letters, at least one
    digit and a letter; an application number is two letters, digits, a dot and
    a digit. *)
Theorem number_formats value :
  (IsBankAccountNumber value = Ok tt <->
     (String.length value = 16 \/ String.length value = 19)%nat /\ all is_dec (runes value)) /\
  (IsLetterNumber value = Ok tt <-> runes value <> [] /\ all is_alnum (runes value)) /\
  (IsDocumentNumber value = true <-> exists country number kind,
     runes value = country ++ number ++ [kind] /\ length country = 2%nat /\ all is_letter country /\
     number <> [] /\ all is_dec number /\ is_letter kind = true) /\
  (IsApplicationNumber value = true <-> exists country number check,
     runes value = country ++ number ++ [ch "."; check] /\ length country = 2%nat /\ all is_letter country /\
     all is_dec number /\ is_dec check = true).
Proof.
  split_and!.
  - assert (Hm : matches "^(\d+)$" value = true <-> runes value <> [] /\ all is_dec (runes value)).
    { rewrite (matches_whole _ [seq_of [Plus digits]]) by (vm_compute; reflexivity).
      rewrite !word_seq_one by done. apply word_all_plus, class_digits. }
    assert (Hne : (String.length value = 16 \/ String.length value = 19)%nat -> runes value <> []).
    { destruct value as [|c value]; [simpl; lia|]. intros _. unfold runes, rune_bytes. cbn [list_ascii_of_string map length runes_from].
      by destruct (DecodeRune _ _). }
    unfold IsBankAccountNumber. destruct (Nat.eqb_spec (String.length value) 16), (Nat.eqb_spec (String.length value) 19);
      cbn [negb andb]; destruct (matches _ _); naive_solver.
  - assert (Hm : matches "^[A-Za-z0-9]+$" value = true <-> runes value <> [] /\ all is_alnum (runes value)).
    { rewrite (matches_whole _ [Plus (Cls false [(65, 90); (97, 122); (48, 57)])]) by (vm_compute; reflexivity).
      rewrite !word_seq_one by done. apply word_all_plus, class_alnum'. }
    unfold IsLetterNumber. destruct (matches _ _); naive_solver.
  - unfold IsDocumentNumber. rewrite (matches_whole _ [Rep 2 (Cls false [(97, 122); (65, 90)]); Plus digits; Cls false [(97, 122); (65, 90)]])
      by (vm_compute; reflexivity).
    rewrite word_seq_cons by done. setoid_rewrite word_seq_cons; [|done]. setoid_rewrite word_seq_one; [|done].
    setoid_rewrite (word_all_rep 2 is_letter); [|exact class_letter]. setoid_rewrite (word_all_plus is_dec); [|exact class_digits].
    setoid_rewrite (word_all_cls is_letter); [|exact class_letter]. split.
    + intros (w1 & w2 & He & [? ?] & w3 & w4 & -> & [? ?] & c & -> & ?). by exists w1, w3, c.
    + intros (w1 & w3 & c & He & ? & ? & ? & ? & ?). exists w1, (w3 ++ [c]). split_and!; [done|done|done|]. exists w3, [c]. split_and!; [done|done|done|by exists c].
  - unfold IsApplicationNumber. rewrite (matches_whole _ [Rep 2 (Cls false [(97, 122); (65, 90)]); Star digits; one 46; digits])
      by (vm_compute; reflexivity).
    rewrite word_seq_cons by done. setoid_rewrite word_seq_cons; [|done]. setoid_rewrite word_seq_cons; [|done]. setoid_rewrite word_seq_one; [|done].
    setoid_rewrite (word_all_rep 2 is_letter); [|exact class_letter]. setoid_rewrite (word_all_star is_dec); [|exact class_digits].
    setoid_rewrite word_one. setoid_rewrite word_digit. split.
    + intros (w1 & w2 & He & [? ?] & w3 & w4 & -> & ? & w5 & w6 & -> & -> & c & -> & ?). by exists w1, w3, c.
    + intros (w1 & w3 & c & He & ? & ? & ? & ?). exists w1, (w3 ++ [46; c]). split_and!; [done|done|done|]. exists w3, [46; c].
      split_and!; [done|done|]. exists [46], [c]. split_and!; [done|done|by exists c].
Qed.

(** ** User names *)
Lemma validChars_has c : ContainsRune validChars c = is_alnum c || (c =? ch "-").
Proof.
  unfold ContainsRune. assert (Er : runes validChars = map Z.of_nat (seq 97 26) ++ map Z.of_nat (seq 65 26) ++ map Z.of_nat (seq 48 10) ++ [45]) by (vm_compute; reflexivity).
  assert (Hrun : forall lo n, existsb (Z.eqb c) (map Z.of_nat (seq lo n)) = within (Z.of_nat lo) (Z.of_nat lo + Z.of_nat n - 1) c).
  { intros lo n. apply eq_true_iff_eq. rewrite existsb_exists. unfold within. rewrite andb_true_iff, !Z.leb_le. split.
    - intros (x & (k & <- & Hk%in_seq)%in_map_iff & ->%Z.eqb_eq). lia.
    - intros Hc. exists c. rewrite Z.eqb_refl. split; [|done]. apply in_map_iff. exists (Z.to_nat c). split; [lia|apply in_seq; lia]. }
  rewrite Er, !existsb_app, !Hrun. cbn [existsb]. unfold is_alnum, is_letter, is_dec. rewrite orb_false_r, !orb_assoc. done.
Qed.

Lemma ch_inj a b : ch a = ch b -> a = b.
Proof. unfold ch. intros H%N2Z.inj. by rewrite <- (ascii_N_embedding a), H, ascii_N_embedding. Qed.
Lemma prefix_dd s : has_prefix "--" s = true <-> exists t, rune_bytes s = ch "-" :: ch "-" :: t.
Proof.
  split.
  - intros (r & ->)%has_prefix_inv. by eexists.
  - destruct s as [|a [|b s]]; intros (t & Ht); try done. injection Ht as Ha%(ch_inj a) Hb%(ch_inj b) _. subst.
    apply (has_prefix_app "--").
Qed.
Lemma Contains_dd s : Contains s "--" = true <-> exists p t, rune_bytes s = p ++ ch "-" :: ch "-" :: t.
Proof.
  induction s as [|c s IH]; cbn [Contains]; rewrite orb_true_iff, prefix_dd.
  - split; [intros [(t & Ht)|]; done|]. intros (p & t & Ht). by destruct p.
  - rewrite IH. split.
    + intros [(t & Ht)|(p & t & Ht)]; [by exists [], t|]. exists (Z.of_N (N_of_ascii c) :: p), t. unfold rune_bytes in *. simpl. by rewrite Ht.
    + intros ([|b p] & t & Ht); [left; by exists t|right]. unfold rune_bytes in *. simpl in Ht. injection Ht as _ Ht. by exists p, t.
Qed.

(** Words joined by single hyphens. *)
Definition dashed (w : list Z) (ws : list (list Z)) : list Z := w ++ concat (map (cons (ch "-")) ws).
Definition full (u : list Z) : Prop := u <> [] /\ all is_alnum u.
Record neat (l : list Z) : Prop := {
  n_some : l <> [];
  n_chars : Forall (fun c => is_alnum c = true \/ c = ch "-") l;
  n_head : head l <> Some (ch "-");
  n_last : last l <> Some (ch "-");
  n_single : forall i, l !! i = Some (ch "-") -> l !! S i = Some (ch "-") -> False;
}.
Lemma single_iff l : (forall i, l !! i = Some (ch "-") -> l !! S i = Some (ch "-") -> False) <->
  ~ exists p t, l = p ++ ch "-" :: ch "-" :: t.
Proof.
  split.
  - intros H (p & t & ->). apply (H (length p)); [by apply list_lookup_middle|].
    rewrite lookup_app_r by lia. by replace (S (length p) - length p)%nat with 1%nat by lia.
  - intros H i H1 H2. apply H. exists (take i l), (drop (S (S i)) l).
    by rewrite <- (drop_S _ _ _ H2), <- (drop_S _ _ _ H1), take_drop.
Qed.
Lemma dashed_snoc w ws u : dashed w (ws ++ [u]) = dashed w ws ++ ch "-" :: u.
Proof. unfold dashed. by rewrite map_app, concat_app, app_assoc; simpl; rewrite app_nil_r. Qed.
Lemma dashed_grow w ws c : Forall full (w :: ws) -> is_alnum c = true ->
  exists w' ws', dashed w ws ++ [c] = dashed w' ws' /\ Forall full (w' :: ws').
Proof.
  intros [Hw Hws]%Forall_cons Hc. assert (Hgrow : forall u, full u -> full (u ++ [c])).
  { intros u [_ Hu]. split; [by destruct u|]. apply Forall_app. by repeat constructor. }
  destruct (decide (ws = [])) as [->|Hne].
  - exists (w ++ [c]), []. unfold dashed. simpl. rewrite !app_nil_r. split; [done|]. constructor; [by apply Hgrow|done].
  - destruct (exists_last Hne) as (ws' & u & ->). apply Forall_app in Hws as [Hws Hu]. apply Forall_cons in Hu as [Hu _].
    exists w, (ws' ++ [u ++ [c]]). rewrite !dashed_snoc, <- app_assoc. split; [done|].
    constructor; [done|]. apply Forall_app. split; [done|]. constructor; [by apply Hgrow|done].
Qed.
Lemma full_neat u : full u -> neat u.
Proof.
  intros [Hne Hu]. assert (Hd : forall i, u !! i = Some (ch "-") -> False).
  { intros i Hi. unfold all in Hu. by pose proof (Forall_lookup_1 _ _ _ _ Hu Hi). }
  split; [done| |by rewrite head_lookup; intros ?%Hd|by rewrite last_lookup; intros ?%Hd|by intros i ?%Hd].
  eapply Forall_impl; [exact Hu|]. by left.
Qed.
Lemma neat_join l u : neat l -> full u -> neat (l ++ ch "-" :: u).
Proof.
  intros [N1 N2 N3 N4 N5] Hu. pose proof (full_neat u Hu) as [U1 U2 U3 U4 U5]. split.
  - by destruct l.
  - apply Forall_app. split; [done|]. constructor; [by right|done].
  - destruct l; [done|]. done.
  - destruct (exists_last U1) as (u' & d & ->). rewrite app_comm_cons, app_assoc, last_snoc. by rewrite last_snoc in U4.
  - intros i Hi1 Hi2. destruct (Nat.lt_trichotomy (S i) (length l)) as [Hi|[Hi|Hi]].
    + rewrite lookup_app_l in Hi1, Hi2 by lia. by apply (N5 i).
    + rewrite lookup_app_l in Hi1 by lia. apply N4. rewrite last_lookup, <- Hi. done.
    + rewrite lookup_app_r in Hi1, Hi2 by lia. replace (S i - length l)%nat with (S (i - length l)) in Hi2 by lia.
      change (u !! (i - length l)%nat = Some (ch "-")) in Hi2.
      destruct (i - length l)%nat as [|k]; [by rewrite <- head_lookup in Hi2|by apply (U5 k)].
Qed.
Lemma neat_iff l : neat l <-> exists w ws, l = dashed w ws /\ Forall full (w :: ws).
Proof.
  split.
  - remember (length l) as n eqn:En. revert l En. induction n as [n IH] using lt_wf_ind. intros l -> [N1 N2 N3 N4 N5].
    destruct (exists_last N1) as (l' & c & ->). rewrite last_snoc in N4. apply Forall_app in N2 as [N2 Hc].
    apply Forall_cons in Hc as [[Hc| ->] _]; [|done]. assert (Hone : full [c]) by (split; [done|by repeat constructor]).
    assert (Hin : forall i, (i < length l')%nat -> (l' ++ [c]) !! i = l' !! i) by (intros; by rewrite lookup_app_l).
    assert (N5' : forall i, l' !! i = Some (ch "-") -> l' !! S i = Some (ch "-") -> False).
    { intros i H1 H2. pose proof (lookup_lt_Some _ _ _ H2). apply (N5 i); rewrite Hin by lia; done. }
    destruct (decide (l' = [])) as [->|Hne]; [exists [c], []; by repeat constructor|].
    assert (N3' : head l' <> Some (ch "-")) by (by destruct l').
    destruct (decide (last l' = Some (ch "-"))) as [He|He].
    + destruct (exists_last Hne) as (m & d & ->). rewrite last_snoc in He. injection He as ->.
      destruct (decide (m = [])) as [->|Hm]; [done|]. apply Forall_app in N2 as [N2 _].
      destruct (IH (length m)) with (l := m) as (w & ws & -> & Hws); [rewrite !length_app; simpl; lia|done| |].
      { split; [done|done|by destruct m| |].
        - rewrite last_lookup. intros Hl. apply (N5' (pred (length m))).
          + rewrite lookup_app_l by (destruct m; simpl; [done|lia]). done.
          + destruct m; [done|]. cbn [length pred]. rewrite lookup_app_r by (simpl; lia).
            by replace (S (length m) - length (z :: m))%nat with 0%nat by (simpl; lia).
        - intros i H1 H2. pose proof (lookup_lt_Some _ _ _ H2). apply (N5' i); rewrite lookup_app_l by lia; done. }
      exists w, (ws ++ [[c]]). rewrite dashed_snoc, <- app_assoc. split; [done|].
      apply Forall_cons in Hws as [Hw Hws]. constructor; [done|]. apply Forall_app. by repeat constructor.
    + destruct (IH (length l')) with (l := l') as (w & ws & -> & Hws); [rewrite length_app; simpl; lia|done|by split|].
      by apply dashed_grow.
  - intros (w & ws & -> & [Hw Hws]%Forall_cons). induction ws as [|u ws IH] using rev_ind.
    + unfold dashed. simpl. rewrite app_nil_r. by apply full_neat.
    + apply Forall_app in Hws as [Hws Hu]. apply Forall_cons in Hu as [Hu _]. rewrite dashed_snoc. apply neat_join; [by apply IH|done].
Qed.

Lemma username_word l :
  word (seq_of [Plus alnum_re; Star (seq_of [one 45; Plus alnum_re])]) l <-> neat l.
Proof.
  rewrite neat_iff, word_seq_cons by reflexivity. setoid_rewrite word_seq_one; [|reflexivity].
  setoid_rewrite word_star; [|reflexivity]. setoid_rewrite (word_all_plus is_alnum); [|exact class_alnum].
  assert (Hd : forall u, word (seq_of [one 45; Plus alnum_re]) u <-> exists v, u = ch "-" :: v /\ full v).
  { intros u. rewrite word_seq_cons by reflexivity. setoid_rewrite word_one. setoid_rewrite word_seq_one; [|reflexivity].
    setoid_rewrite (word_all_plus is_alnum); [|exact class_alnum]. split.
    - intros (w1 & v & -> & -> & H). by exists v.
    - intros (v & -> & H). by exists [45], v. }
  split.
  - intros (w & w2 & -> & Hw & ws & -> & Hws).
    assert (Hl : exists us, ws = map (cons (ch "-")) us /\ Forall full us).
    { induction Hws as [|u ws (v & -> & Hv)%Hd Hws (us & -> & Hus)]; [by exists []|]. exists (v :: us). split; [done|by constructor]. }
    destruct Hl as (us & -> & Hus). exists w, us. split; [done|by constructor].
  - intros (w & us & -> & [Hw Hus]%Forall_cons). exists w, (concat (map (cons (ch "-")) us)).
    split; [done|]. split; [done|].
    exists (map (cons (ch "-")) us). split; [done|]. apply Forall_map. eapply Forall_impl; [exact Hus|]. intros v Hv. apply Hd. by exists v.
Qed.

Lemma rune_bytes_length s : length (rune_bytes s) = String.length s.
Proof. unfold rune_bytes. rewrite length_map. induction s; simpl; congruence. Qed.
Definition username_chars (l : list Z) : Prop := Forall (fun c => is_alnum c = true \/ c = ch "-") l.
Lemma username_chars_low l : username_chars l -> Forall (fun c => c < 128) l.
Proof.
  intros H. eapply Forall_impl; [exact H|]. intros c [Hc| ->]; [|done].
  unfold is_alnum, is_letter, is_dec, within in Hc. lia.
Qed.
Lemma username_bytes s : username_chars (runes s) <-> runes s = rune_bytes s /\ username_chars (rune_bytes s).
Proof.
  split; [|by intros [-> ?]]. intros H.
  assert (He : runes s = rune_bytes s) by (by apply runes_of_ascii, runes_ascii, username_chars_low). by rewrite He in H |- *.
Qed.

(** The checks of [IsUsername], one after the other, accept exactly the
    texts of 3 to 32 bytes that the pattern of words of letters and digits
    joined by single hyphens matches. *)
Theorem IsUsername_pattern username :
  IsUsername username = Ok tt <->
  (3 <= String.length username <= 32)%nat /\ matches "^[a-zA-Z0-9]+(?:-[a-zA-Z0-9]+)*$" username = true.
Proof.
  rewrite (matches_whole _ [Plus alnum_re; Star (seq_of [one 45; Plus alnum_re])]) by (vm_compute; reflexivity).
  rewrite username_word. unfold IsUsername.
  destruct (Nat.ltb_spec (String.length username) 3) as [H3|H3]; [split; [done|lia]|].
  destruct (Nat.ltb_spec 32 (String.length username)) as [H32|H32]; [split; [done|lia]|]. cbn [orb].
  destruct (existsb _ (runes username)) eqn:Ec.
  { split; [done|]. intros [_ Hn]. apply existsb_exists in Ec as (c & Hc & Hbad). rewrite validChars_has in Hbad.
    apply list_elem_of_In, list_elem_of_lookup in Hc as [i Hi].
    destruct (Forall_lookup_1 _ _ _ _ (n_chars _ Hn) Hi) as [Ha| ->]; [by rewrite Ha in Hbad|done]. }
  assert (Hch : username_chars (runes username)).
  { apply Forall_forall. intros c Hc. destruct (is_alnum c || (c =? ch "-")) eqn:E; [by apply orb_true_iff in E as [?|?%Z.eqb_eq]; auto|].
    exfalso. rewrite <- not_true_iff_false, existsb_exists in Ec. apply Ec. exists c. split; [by apply list_elem_of_In|].
    by rewrite validChars_has, E. }
  apply username_bytes in Hch as [-> Hch]. rewrite <- rune_bytes_length in H3, H32 |- *. set (l := rune_bytes username) in *.
  assert (Hne : l <> []) by (intros He; rewrite He in H3; simpl in H3; lia).
  assert (Hnth : forall i, (i < length l)%nat -> l !! i = Some (nth i l 0)) by (intros i Hi; rewrite nth_lookup; by destruct (lookup_lt_is_Some_2 l i Hi) as [? ->]).
  assert (Hhead : head l = Some (nth 0 l 0)) by (rewrite head_lookup; apply Hnth; lia).
  assert (Hlast : last l = Some (nth (length l - 1) l 0)) by (rewrite last_lookup, <- Hnth by lia; f_equal; lia).
  destruct (_ || _) eqn:Ee.
  { split; [done|]. intros [_ Hn]. apply orb_true_iff in Ee as [He|He]; apply Z.eqb_eq in He; rewrite He in *; exfalso;
      [by apply (n_head _ Hn)|by apply (n_last _ Hn)]. }
  apply orb_false_iff in Ee as [E1%Z.eqb_neq E2%Z.eqb_neq].
  destruct (Contains username "--") eqn:Ed.
  { split; [done|]. intros [_ Hn]. apply Contains_dd in Ed. by apply single_iff in Ed; [|apply Hn]. }
  split; [|done]. intros _. split; [lia|]. split; [done|done|rewrite Hhead; congruence|rewrite Hlast; congruence|].
  apply single_iff. intros Hdd%Contains_dd. by rewrite Hdd in Ed.
Qed.

(** * Concrete texts *)
(** An identity number of fifteen digits is refused whatever it is, since the
    second alternative of the pattern has a minus sign for each hyphen and
    misses the backslash of [\d5] and [\d2]; being tied to neither end of the
    text, it accepts what no identity number looks like. *)
Example cards :
  map (fun v => is_ok (IsCardNumber v)) ["11010519491231002X"; "110105491231002"; "115120101120abc"]%string = [true; false; true].
Proof. vm_compute. reflexivity. Qed.
Example phones :
  map (fun v => is_ok (IsPhone v)) ["13812345678"; "14512345678"; "114512345678"; "15x12345678"]%string = [true; false; true; true].
Proof. vm_compute. reflexivity. Qed.
Example names :
  map (fun v => is_ok (IsUsername v)) ["a-b"; "ab"; "a--b"; "-ab"; "王一"; "a1-b2-c3"]%string = [true; false; false; false; false; true].
Proof. vm_compute. reflexivity. Qed.
