(* ===== verification/Json.v ===== *)
(** The values of [encoding/json] of the Go standard library as trees, and what
    [json.Unmarshal] does with a tree: a field is found by its name without
    regard to (ASCII) case, the last of several wins, null changes nothing, a
    wrong type is an error that is returned at the end.  The text of a tree is
    the library's own business and is left out. *)
From stdpp Require Import base list strings.
From Stdlib Require Import ZArith Ascii String.
From S2P Require Import Prelude.
Open Scope Z_scope.

#[local] Unset Elimination Schemes.
Inductive json : Type :=
| JNull | JBool (b : bool) | JNum (literal : string) | JStr (s : string)
| JArr (l : list json) | JObj (fields : list (string * json)).
#[local] Set Elimination Schemes.

Section Induction.
Variable P : json -> Prop.
Hypotheses (Hnull : P JNull) (Hbool : forall b, P (JBool b)) (Hnum : forall s, P (JNum s)) (Hstr : forall s, P (JStr s))
  (Harr : forall l, Forall P l -> P (JArr l)) (Hobj : forall fs, Forall (fun f => P (snd f)) fs -> P (JObj fs)).
Fixpoint json_ind (j : json) : P j :=
  match j with
  | JNull => Hnull | JBool b => Hbool b | JNum s => Hnum s | JStr s => Hstr s
  | JArr l => Harr l ((fix go l := match l return Forall P l with
                       | [] => Forall_nil_2 P
                       | x :: l' => Forall_cons_2 P x l' (json_ind x) (go l')
                       end) l)
  | JObj fs => Hobj fs ((fix go l := match l return Forall (fun f => P (snd f)) l with
                         | [] => Forall_nil_2 _
                         | x :: l' => Forall_cons_2 _ x l' (json_ind (snd x)) (go l')
                         end) fs)
  end.
End Induction.

(** * Decoding *)
Definition kind (j : json) : string :=
  match j with
  | JNull => "null" | JBool _ => "bool" | JNum _ => "number" | JStr _ => "string" | JArr _ => "array" | JObj _ => "object"
  end.
Definition type_error (j : json) (go_type : string) : error :=
  ErrNew ("json: cannot unmarshal " ++ kind j ++ " into Go value of type " ++ go_type).
(** A decoder takes the value the variable has before. *)
Definition Decoder (T : Type) : Type := T -> json -> Res T.

Definition d_string : Decoder string := fun old j =>
  match j with JStr s => Ok s | JNull => Ok old | _ => Err (type_error j "string") end.
(** [json.RawMessage]: the text of the value, null included. *)
Definition d_raw : Decoder (option json) := fun _ j => Ok (Some j).
(** The first error is kept, the rest is decoded all the same. *)
Definition keep_first {T} (acc : Res T) (next : T -> Res T) : Res T :=
  match acc with Err e => Err e | Ok v => next v end.
Fixpoint d_elements {T} (zero : T) (d : Decoder T) (l : list json) : Res (list T) :=
  match l with
  | [] => Ok []
  | j :: l' => match d zero j with
               | Err e => Err e
               | Ok v => match d_elements zero d l' with Ok vs => Ok (v :: vs) | Err e => Err e end
               end
  end.
Definition d_slice {T} (zero : T) (d : Decoder T) : Decoder (list T) := fun old j =>
  match j with JArr l => d_elements zero d l | JNull => Ok [] | _ => Err (type_error j "slice") end.

Definition lower (a : ascii) : ascii :=
  let n := N_of_ascii a in if ((65 <=? n) && (n <=? 90))%N then ascii_of_N (n + 32) else a.
Fixpoint fold_name (s : string) : string :=
  match s with EmptyString => EmptyString | String a s' => String (lower a) (fold_name s') end.
(** A struct: the decoders of its fields by name. *)
Definition Fields (T : Type) : Type := list (string * Decoder T).
Definition field_of {T} (fs : Fields T) (key : string) : option (Decoder T) :=
  snd <$> List.find (fun f => str_eqb (fold_name (fst f)) (fold_name key)) fs.
Definition d_struct {T} (fs : Fields T) : Decoder T := fun old j =>
  match j with
  | JObj kvs => fold_left (fun acc kv => match field_of fs (fst kv) with
                                         | None => acc
                                         | Some d => keep_first acc (fun v => d v (snd kv))
                                         end) kvs (Ok old)
  | JNull => Ok old
  | _ => Err (type_error j "struct")
  end.
(** The decoder of one field of a struct. *)
Definition at_field {T F} (get : T -> F) (set : F -> T -> T) (d : Decoder F) : Decoder T := fun old j =>
  match d (get old) j with Ok v => Ok (set v old) | Err e => Err e end.

(** * Encoding: [omitempty] *)
Definition omit_str (key s : string) : list (string * json) := if str_eqb s "" then [] else [(key, JStr s)].
Definition omit_arr {T} (key : string) (enc : T -> json) (l : list T) : list (string * json) :=
  match l with [] => [] | _ => [(key, JArr (map enc l))] end.

Lemma d_elements_map {T} (zero : T) (d : Decoder T) (enc : T -> json) l :
  Forall (fun v => d zero (enc v) = Ok v) l -> d_elements zero d (map enc l) = Ok l.
Proof. induction 1 as [|v l Hv Hl IH]; simpl; [done|]. by rewrite Hv, IH. Qed.
