(* ===== verification/JsonText.v ===== *)
(** The text of JSON: what [encoding/json] of the Go standard library writes
    and reads.  Texts are lists of bytes.

    A reader's fuel is the length of its text plus one, which every value in
    the text stays below; the limit of 10000 levels is left out. *)
From Stdlib Require Import DecimalFacts DecimalString DecimalN.
From S2P Require Import Prelude Json Regexp.
#[local] Open Scope list_scope.
#[local] Open Scope Z_scope.

Definition of_bytes (l : list Z) : string := string_of_list_ascii (map (fun z => ascii_of_N (Z.to_N z)) l).

(** * UTF-8 *)
(** [utf8.AppendRune]. *)
Definition EncodeRune (r : Z) : list Z :=
  if r <? 128 then [r]
  else if r <? 2048 then [192 + r / 64; 128 + r mod 64]
  else if within 55296 57343 r || (1114111 <? r) then [239; 191; 189]
  else if r <? 65536 then [224 + r / 4096; 128 + r / 64 mod 64; 128 + r mod 64]
  else [240 + r / 262144; 128 + r / 4096 mod 64; 128 + r / 64 mod 64; 128 + r mod 64].
(** [strings.ToValidUTF8] with the replacement character, for each bad byte. *)
Fixpoint valid_from (fuel : nat) (l : list Z) : list Z :=
  match fuel, l with
  | S fuel', b :: t =>
      let '(r, n) := DecodeRune b t in
      if (r =? RuneError) && (n =? 1)%nat then [239; 191; 189] ++ valid_from fuel' t
      else b :: firstn (pred n) t ++ valid_from fuel' (skipn (pred n) t)
  | _, _ => []
  end.
Definition ToValid (l : list Z) : list Z := valid_from (length l) l.

(** * Writing *)
Definition hex (n : Z) : Z := if n <? 10 then 48 + n else 87 + n.
Definition u_escape (r : Z) : list Z := [92; 117; hex (r / 4096); hex (r / 256 mod 16); hex (r / 16 mod 16); hex (r mod 16)].
Definition escape (b : Z) : list Z :=
  if (b =? 34) || (b =? 92) then [92; b]
  else if b =? 8 then [92; 98] else if b =? 12 then [92; 102]
  else if b =? 10 then [92; 110] else if b =? 13 then [92; 114] else if b =? 9 then [92; 116]
  else if (b <? 32) || (b =? 60) || (b =? 62) || (b =? 38) then u_escape b
  else [b].
Fixpoint quote_from (fuel : nat) (l : list Z) : list Z :=
  match fuel, l with
  | S fuel', b :: t =>
      if b <? 128 then escape b ++ quote_from fuel' t
      else let '(r, n) := DecodeRune b t in
           if (r =? RuneError) && (n =? 1)%nat then u_escape RuneError ++ quote_from fuel' t
           else (if (r =? 8232) || (r =? 8233) then u_escape r else b :: firstn (pred n) t) ++ quote_from fuel' (skipn (pred n) t)
  | _, _ => []
  end.
Definition quote (l : list Z) : list Z := 34 :: quote_from (length l) l ++ [34].

Fixpoint sep_by (sep : Z) (l : list (list Z)) : list Z :=
  match l with [] => [] | [x] => x | x :: l' => x ++ sep :: sep_by sep l' end.
Fixpoint print (j : json) : list Z :=
  match j with
  | JNull => rune_bytes "null"
  | JBool b => rune_bytes (if b then "true" else "false")
  | JNum s => rune_bytes s
  | JStr s => quote (rune_bytes s)
  | JArr l => 91 :: sep_by 44 (map print l) ++ [93]
  | JObj fs => 123 :: sep_by 44 (map (fun f => quote (rune_bytes (fst f)) ++ 58 :: print (snd f)) fs) ++ [125]
  end.

(** * Reading *)
Definition is_space (b : Z) : bool := (b =? 32) || (b =? 9) || (b =? 10) || (b =? 13).
Fixpoint skip (l : list Z) : list Z := match l with b :: t => if is_space b then skip t else l | [] => [] end.
Definition unhex (b : Z) : option Z :=
  if within 48 57 b then Some (b - 48) else if within 97 102 b then Some (b - 87) else if within 65 70 b then Some (b - 55) else None.
Definition hex4 (l : list Z) : option (Z * list Z) :=
  match l with
  | a :: b :: c :: d :: t =>
      match unhex a, unhex b, unhex c, unhex d with
      | Some a, Some b, Some c, Some d => Some (((a * 16 + b) * 16 + c) * 16 + d, t)
      | _, _, _, _ => None
      end
  | _ => None
  end.
(** After [\u]: a surrogate without its partner is the replacement. *)
Definition u_rune (l : list Z) : option (Z * list Z) :=
  match hex4 l with
  | None => None
  | Some (r, t) =>
      if within 55296 57343 r
      then match t with
           | 92 :: 117 :: t' =>
               match hex4 t' with
               | Some (r2, t'') => if within 55296 56319 r && within 56320 57343 r2
                                   then Some ((r - 55296) * 1024 + (r2 - 56320) + 65536, t'') else Some (RuneError, t)
               | None => Some (RuneError, t)
               end
           | _ => Some (RuneError, t)
           end
      else Some (r, t)
  end.
Definition unescape (c : Z) : option Z :=
  if (c =? 34) || (c =? 92) || (c =? 47) then Some c
  else if c =? 98 then Some 8 else if c =? 102 then Some 12 else if c =? 110 then Some 10
  else if c =? 114 then Some 13 else if c =? 116 then Some 9 else None.
(** The rest of a string, after its quote. *)
Fixpoint unquote (fuel : nat) (l : list Z) : option (list Z * list Z) :=
  match fuel, l with
  | S fuel', b :: t =>
      if b =? 34 then Some ([], t)
      else
        let more (s : list Z) (t : list Z) := match unquote fuel' t with Some (r, t') => Some (s ++ r, t') | None => None end in
        if b =? 92
        then match t with
             | 117 :: t' => match u_rune t' with Some (r, t'') => more (EncodeRune r) t'' | None => None end
             | c :: t' => match unescape c with Some x => more [x] t' | None => None end
             | [] => None
             end
        else if b <? 32 then None
        else let '(r, n) := DecodeRune b t in
             if (r =? RuneError) && (n =? 1)%nat then more [239; 191; 189] t
             else more (b :: firstn (pred n) t) (skipn (pred n) t)
  | _, _ => None
  end.
Definition is_dig (b : Z) : bool := within 48 57 b.
Fixpoint span (p : Z -> bool) (l : list Z) : list Z * list Z :=
  match l with b :: t => if p b then let '(a, r) := span p t in (b :: a, r) else ([], l) | [] => ([], []) end.
(** [-? (0 | [1-9][0-9]* ) (. [0-9]+)? ([eE] [+-]? [0-9]+)?] *)
Definition num_minus (l : list Z) : list Z * list Z := match l with 45 :: t => ([45], t) | _ => ([], l) end.
Definition num_int (l : list Z) : option (list Z * list Z) :=
  match l with 48 :: t => Some ([48], t) | b :: _ => if is_dig b then Some (span is_dig l) else None | [] => None end.
Definition num_frac (l : list Z) : option (list Z * list Z) :=
  match l with
  | 46 :: t => match span is_dig t with ([], _) => None | (d, r) => Some (46 :: d, r) end
  | _ => Some ([], l)
  end.
Definition num_exp (l : list Z) : option (list Z * list Z) :=
  match l with
  | b :: t => if (b =? 101) || (b =? 69)
              then let '(s, t') := match t with c :: t' => if (c =? 43) || (c =? 45) then ([c], t') else ([], t) | [] => ([], t) end in
                   match span is_dig t' with ([], _) => None | (d, r) => Some (b :: s ++ d, r) end
              else Some ([], l)
  | [] => Some ([], [])
  end.
Definition number (l : list Z) : option (list Z * list Z) :=
  let '(m, l1) := num_minus l in
  match num_int l1 with
  | None => None
  | Some (i, l2) => match num_frac l2 with
                    | None => None
                    | Some (f, l3) => match num_exp l3 with None => None | Some (e, l4) => Some (m ++ i ++ f ++ e, l4) end
                    end
  end.
Definition word (w : string) (j : json) (l : list Z) : option (json * list Z) :=
  let n := length (rune_bytes w) in if bool_decide (firstn n l = rune_bytes w) then Some (j, skipn n l) else None.

Fixpoint value (fuel : nat) (l : list Z) : option (json * list Z) :=
  match fuel with
  | O => None
  | S f =>
      match skip l with
      | 34 :: t => match unquote (S (length t)) t with Some (s, r) => Some (JStr (of_bytes s), r) | None => None end
      | 91 :: t => match skip t with
                   | 93 :: r => Some (JArr [], r)
                   | _ => match elements f t with Some (vs, r) => Some (JArr vs, r) | None => None end
                   end
      | 123 :: t => match skip t with
                    | 125 :: r => Some (JObj [], r)
                    | _ => match members f t with Some (fs, r) => Some (JObj fs, r) | None => None end
                    end
      | 110 :: t => word "null" JNull (110 :: t)
      | 116 :: t => word "true" (JBool true) (116 :: t)
      | 102 :: t => word "false" (JBool false) (102 :: t)
      | t => match number t with Some (n, r) => Some (JNum (of_bytes n), r) | None => None end
      end
  end
with elements (fuel : nat) (l : list Z) : option (list json * list Z) :=
  match fuel with
  | O => None
  | S f => match value f l with
           | None => None
           | Some (v, t) => match skip t with
                            | 44 :: t' => match elements f t' with Some (vs, r) => Some (v :: vs, r) | None => None end
                            | 93 :: r => Some ([v], r)
                            | _ => None
                            end
           end
  end
with members (fuel : nat) (l : list Z) : option (list (string * json) * list Z) :=
  match fuel with
  | O => None
  | S f =>
      match skip l with
      | 34 :: t =>
          match unquote (S (length t)) t with
          | None => None
          | Some (k, t1) =>
              match skip t1 with
              | 58 :: t2 =>
                  match value f t2 with
                  | None => None
                  | Some (v, t3) => match skip t3 with
                                    | 44 :: t4 => match members f t4 with Some (fs, r) => Some ((of_bytes k, v) :: fs, r) | None => None end
                                    | 125 :: r => Some ([(of_bytes k, v)], r)
                                    | _ => None
                                    end
                  end
              | _ => None
              end
          end
      | _ => None
      end
  end.
(** [json.Unmarshal] of a text into a tree: one value and white space. *)
Definition parse (l : list Z) : option json :=
  match value (S (length l)) l with Some (j, r) => match skip r with [] => Some j | _ => None end | None => None end.

(** [json.Compact]: white space outside strings goes. *)
Fixpoint compact (in_str esc : bool) (l : list Z) : list Z :=
  match l with
  | [] => []
  | b :: t =>
      if in_str then b :: compact (esc || negb (b =? 34)) (negb esc && (b =? 92)) t
      else if is_space b then compact false false t
      else b :: compact (b =? 34) false t
  end.

Definition parse_s (s : string) : option json := parse (rune_bytes s).
Definition print_s (j : json) : string := of_bytes (print j).

(** * Reading a string that was written *)
Definition is_byte (b : Z) : Prop := 0 <= b < 256.
Lemma rune_bytes_bytes s : Forall is_byte (rune_bytes s).
Proof.
  apply Forall_forall. intros b (c & <- & _)%list_elem_of_In%in_map_iff. unfold is_byte.
  pose proof (N_ascii_bounded c). lia.
Qed.
Lemma of_bytes_rune_bytes s : of_bytes (rune_bytes s) = s.
Proof.
  unfold of_bytes, rune_bytes. rewrite map_map. erewrite map_ext; [rewrite map_id; apply string_of_list_ascii_of_string|].
  intros c. cbn. rewrite N2Z.id. apply ascii_N_embedding.
Qed.
Lemma rune_bytes_of_bytes l : Forall is_byte l -> rune_bytes (of_bytes l) = l.
Proof.
  intros H. unfold of_bytes, rune_bytes. rewrite list_ascii_of_string_of_list_ascii, map_map.
  induction H as [|b l Hb Hl IH]; [done|]. cbn [map]. rewrite IH. unfold is_byte in Hb. rewrite N_ascii_embedding by lia. f_equal. lia.
Qed.

Lemma unhex_hex n : 0 <= n < 16 -> unhex (hex n) = Some n.
Proof.
  intros H. unfold hex, unhex, within. destruct (Z.ltb_spec n 10) as [Hn|Hn].
  - replace ((48 <=? 48 + n) && (48 + n <=? 57)) with true by lia. f_equal. lia.
  - replace ((48 <=? 87 + n) && (87 + n <=? 57)) with false by lia.
    replace ((97 <=? 87 + n) && (87 + n <=? 102)) with true by lia. f_equal. lia.
Qed.
Lemma hex4_escape r t : 0 <= r < 65536 -> hex4 (skipn 2 (u_escape r) ++ t) = Some (r, t).
Proof.
  intros H. cbn [u_escape skipn app hex4].
  rewrite !unhex_hex by (Z.div_mod_to_equations; lia). do 2 f_equal. Z.div_mod_to_equations. lia.
Qed.
Lemma u_rune_escape r t : 0 <= r < 65536 -> within 55296 57343 r = false -> u_rune (skipn 2 (u_escape r) ++ t) = Some (r, t).
Proof. intros H Hs. unfold u_rune. by rewrite hex4_escape, Hs. Qed.

(** A good character of more than one byte: its width and bytes. *)
Lemma DecodeRune_good b t r n :
  128 <= b -> DecodeRune b t = (r, n) -> (r =? RuneError) && (n =? 1)%nat = false ->
  (2 <= n)%nat /\ length (firstn (pred n) t) = pred n /\ Forall (fun x => 128 <= x) (firstn (pred n) t) /\
  (r = 8232 \/ r = 8233 -> b :: firstn (pred n) t = EncodeRune r) /\
  forall u, DecodeRune b (firstn (pred n) t ++ u) = (r, n).
Proof.
  intros Hb. unfold DecodeRune. rewrite (proj2 (Z.ltb_ge b 128)) by lia.
  destruct (first_byte b) as [[[k hi] [lo2 hi2]]|] eqn:E; [|by intros [= <- <-]].
  destruct (firstn (pred k) t) as [|b1 more] eqn:Em; [by intros [= <- <-]|].
  destruct (_ && _ && _) eqn:Ec; [|by intros [= <- <-]]. intros [= <- <-] _.
  pose proof (first_byte_high _ _ _ _ _ E) as (Hk & _ & _ & _ & Hlo).
  apply andb_true_iff in Ec as [[Hl H1]%andb_true_iff Hm]. apply Nat.eqb_eq in Hl. rewrite Em. split; [done|]. split; [done|].
  split; [|split].
  - constructor; [unfold within in H1; lia|]. apply Forall_forall. intros x Hx.
    apply list_elem_of_In in Hx. rewrite forallb_forall in Hm. specialize (Hm x Hx). unfold within in Hm. lia.
  - clear Em. intros Hr. unfold first_byte, within in *. destruct more as [|b2 [|b3 [|]]]; cbn [length fold_left forallb] in *.
    all: repeat case_match; simplify_eq; cbn [Nat.pred] in *; try lia.
    assert (b = 226 /\ b1 = 128 /\ (b2 = 168 \/ b2 = 169)) as (-> & -> & [-> | ->]) by lia; reflexivity.
  - intros u. rewrite firstn_app, Hl, Nat.sub_diag, firstn_O, app_nil_r, (firstn_all2 (b1 :: more)) by lia.
    by rewrite Hl, Nat.eqb_refl, H1, Hm.
Qed.

Definition more (s : list Z) (o : option (list Z * list Z)) : option (list Z * list Z) :=
  match o with Some (r, t) => Some (s ++ r, t) | None => None end.
Lemma unquote_u f r t :
  0 <= r < 65536 -> within 55296 57343 r = false -> unquote (S f) (u_escape r ++ t) = more (EncodeRune r) (unquote f t).
Proof.
  intros Hr Hs. pose proof (u_rune_escape r t Hr Hs) as Hu. unfold u_escape in *. cbn [skipn app] in *.
  cbn [unquote]. change (92 =? 34) with false. change (92 =? 92) with true. cbv iota. by rewrite Hu.
Qed.
Lemma unquote_escape f b t : 0 <= b < 128 -> unquote (S f) (escape b ++ t) = more [b] (unquote f t).
Proof.
  intros Hb. unfold escape. destruct ((b =? 34) || (b =? 92)) eqn:E1.
  { apply orb_true_iff in E1 as [->%Z.eqb_eq| ->%Z.eqb_eq]; reflexivity. }
  do 5 (match goal with |- context [b =? ?k] => destruct (Z.eqb_spec b k) as [->|]; [reflexivity|] end).
  destruct ((b <? 32) || (b =? 60) || (b =? 62) || (b =? 38)) eqn:E2.
  { rewrite unquote_u by (unfold within; lia). unfold EncodeRune. by rewrite (proj2 (Z.ltb_lt _ _)) by lia. }
  apply orb_false_iff in E1 as [E3 E4]. cbn [app unquote]. rewrite E3, E4.
  replace (b <? 32) with false by lia. unfold DecodeRune. replace (b <? 128) with true by lia.
  replace (b =? RuneError) with false by (unfold RuneError; lia). reflexivity.
Qed.
Lemma unquote_good f b t r n u :
  128 <= b -> DecodeRune b t = (r, n) -> (r =? RuneError) && (n =? 1)%nat = false ->
  unquote (S f) ((b :: firstn (pred n) t) ++ u) = more (b :: firstn (pred n) t) (unquote f u).
Proof.
  intros Hb Hd Hg. destruct (DecodeRune_good b t r n Hb Hd Hg) as (_ & Hl & _ & _ & Hu).
  cbn [app unquote]. replace (b =? 34) with false by lia. replace (b =? 92) with false by lia. replace (b <? 32) with false by lia.
  rewrite Hu, Hg. by rewrite take_app_length', drop_app_length' by done.
Qed.
Lemma escape_length b : (1 <= length (escape b))%nat.
Proof. unfold escape. repeat case_match; cbn; lia. Qed.

(** The reader undoes the writer, and replaces the bytes that are not UTF-8. *)
Lemma unquote_quote n l fuel rest :
  (length l <= n)%nat -> Forall is_byte l -> (length (quote_from n l) < fuel)%nat ->
  unquote fuel (quote_from n l ++ 34 :: rest) = Some (valid_from n l, rest).
Proof.
  revert l fuel. induction n as [|n IH]; intros l fuel Hl Hb Hf.
  { destruct l; [|cbn in Hl; lia]. destruct fuel; [cbn in Hf; lia|done]. }
  destruct l as [|b t]; [destruct fuel; [cbn in Hf; lia|done]|]. destruct fuel as [|fuel]; [lia|].
  apply Forall_cons in Hb as [Hb Ht]. unfold is_byte in Hb. cbn [quote_from valid_from] in *. cbn [length] in Hl.
  destruct (Z.ltb_spec b 128) as [H|H].
  { rewrite <- app_assoc, unquote_escape by lia. pose proof (escape_length b). rewrite length_app in Hf.
    rewrite IH by (done || lia). unfold DecodeRune. replace (b <? 128) with true by lia.
    replace (b =? RuneError) with false by (unfold RuneError; lia). reflexivity. }
  destruct (DecodeRune b t) as [r k] eqn:Ed. destruct ((r =? RuneError) && (k =? 1)%nat) eqn:Eg.
  { rewrite <- app_assoc, unquote_u by done. rewrite length_app in Hf. cbn [length u_escape] in Hf. by rewrite IH by (done || lia). }
  destruct (DecodeRune_good b t r k H Ed Eg) as (Hk & Hlen & _ & H2028 & _).
  assert (Hskip : (length (skipn (pred k) t) <= n)%nat) by (rewrite length_skipn; lia).
  assert (Hbs : Forall is_byte (skipn (pred k) t)) by (by apply Forall_drop).
  rewrite length_app in Hf. rewrite <- app_assoc. destruct ((r =? 8232) || (r =? 8233)) eqn:Er.
  - assert (Hr : r = 8232 \/ r = 8233) by lia. rewrite unquote_u by (unfold within; lia). cbn [length u_escape] in Hf.
    rewrite IH by (done || lia). cbn [more]. by rewrite <- (H2028 Hr).
  - rewrite (unquote_good _ _ _ r k) by done. cbn [length] in Hf. by rewrite IH by (done || lia).
Qed.

(** * Numbers in a text *)
Definition stops (l : list Z) : Prop := match l with [] => True | b :: _ => b = 44 \/ b = 93 \/ b = 125 end.
Lemma span_app p l a r rest :
  span p l = (a, r) -> match rest with [] => True | b :: _ => p b = false end -> span p (l ++ rest) = (a, r ++ rest).
Proof.
  revert a r. induction l as [|b l IH]; intros a r; cbn [span].
  - intros [= <- <-] Hr. destruct rest as [|c rest]; [done|]. cbn. by rewrite Hr.
  - cbn [app span]. destruct (p b); [|by intros [= <- <-]]. destruct (span p l) as [a' r'] eqn:E.
    intros [= <- <-] Hr. by rewrite (IH _ _ eq_refl Hr).
Qed.
Lemma stops_dig rest : stops rest -> match rest with [] => True | b :: _ => is_dig b = false end.
Proof. destruct rest as [|b rest]; [done|]. by intros [-> | [-> | ->]]. Qed.
Ltac stop_cases rest := destruct rest as [|? ?]; [done|]; match goal with H : stops (_ :: _) |- _ => destruct H as [-> | [-> | ->]]; done end.
Lemma num_minus_app l rest : stops rest -> num_minus (l ++ rest) = (fst (num_minus l), snd (num_minus l) ++ rest).
Proof.
  intros Hs. destruct l as [|b l]; [stop_cases rest|]. cbn [app num_minus].
  destruct b as [|p|p]; try done. by repeat (destruct p as [p|p|]; try done).
Qed.
Lemma num_int_app l a r rest : stops rest -> num_int l = Some (a, r) -> num_int (l ++ rest) = Some (a, r ++ rest).
Proof.
  intros Hs. destruct l as [|b l]; [done|]. destruct (decide (b = 48)) as [->|Hb]; [by intros [= <- <-]|].
  assert (Heq : forall t, num_int (b :: t) = if is_dig b then Some (span is_dig (b :: t)) else None).
  { intros t. unfold num_int. destruct b as [|p|p]; try done. by repeat (destruct p as [p|p|]; try done). }
  change ((b :: l) ++ rest) with (b :: (l ++ rest)). rewrite !Heq. destruct (is_dig b); [|done].
  destruct (span is_dig (b :: l)) as [a0 r0] eqn:H. intros [= <- <-].
  change (b :: (l ++ rest)) with ((b :: l) ++ rest). by rewrite (span_app _ _ _ _ _ H (stops_dig _ Hs)).
Qed.
Lemma num_frac_app l a r rest : stops rest -> num_frac l = Some (a, r) -> num_frac (l ++ rest) = Some (a, r ++ rest).
Proof.
  intros Hs. destruct l as [|b l]; [intros [= <- <-]; stop_cases rest|]. destruct (decide (b = 46)) as [->|Hb].
  - cbn [num_frac app]. destruct (span is_dig l) as [[|d ds] r'] eqn:E; [done|]. intros [= <- <-].
    by rewrite (span_app _ _ _ _ _ E (stops_dig _ Hs)).
  - assert (Heq : forall t, num_frac (b :: t) = Some ([], b :: t)).
    { intros t. unfold num_frac. destruct b as [|p|p]; try done. by repeat (destruct p as [p|p|]; try done). }
    change ((b :: l) ++ rest) with (b :: (l ++ rest)). rewrite !Heq. by intros [= <- <-].
Qed.
Lemma num_exp_app l a r rest : stops rest -> num_exp l = Some (a, r) -> num_exp (l ++ rest) = Some (a, r ++ rest).
Proof.
  intros Hs. destruct l as [|b l]; [intros [= <- <-]; stop_cases rest|]. cbn [num_exp app].
  destruct ((b =? 101) || (b =? 69)); [|by intros [= <- <-]].
  set (sgn := fun t => match t with c :: t' => if (c =? 43) || (c =? 45) then ([c], t') else ([], t) | [] => ([], t) end).
  change (match l ++ rest with c :: t' => if (c =? 43) || (c =? 45) then ([c], t') else ([], l ++ rest) | [] => ([], l ++ rest) end) with (sgn (l ++ rest)).
  change (match l with c :: t' => if (c =? 43) || (c =? 45) then ([c], t') else ([], l) | [] => ([], l) end) with (sgn l).
  assert (Hsgn : sgn (l ++ rest) = (fst (sgn l), snd (sgn l) ++ rest)).
  { unfold sgn. destruct l as [|c l]; [stop_cases rest|]. cbn [app]. by destruct ((c =? 43) || (c =? 45)). }
  rewrite Hsgn. destruct (sgn l) as [x t]. cbn [fst snd]. destruct (span is_dig t) as [[|d ds] r'] eqn:E; [done|]. intros [= <- <-].
  by rewrite (span_app _ _ _ _ _ E (stops_dig _ Hs)).
Qed.
Lemma number_app l a r rest : stops rest -> number l = Some (a, r) -> number (l ++ rest) = Some (a, r ++ rest).
Proof.
  intros Hs. unfold number. rewrite num_minus_app by done. destruct (num_minus l) as [m l1]. cbn [fst snd].
  destruct (num_int l1) as [[i l2]|] eqn:Ei; [|done]. rewrite (num_int_app _ _ _ _ Hs Ei).
  destruct (num_frac l2) as [[f l3]|] eqn:Ef; [|done]. rewrite (num_frac_app _ _ _ _ Hs Ef).
  destruct (num_exp l3) as [[e l4]|] eqn:Ee; [|done]. rewrite (num_exp_app _ _ _ _ Hs Ee). by intros [= <- <-].
Qed.

(** * Trees *)
Definition number_text (s : string) : bool := bool_decide (number (rune_bytes s) = Some (rune_bytes s, [])).
(** The numbers of a tree are JSON numbers. *)
Fixpoint well_formed (j : json) : bool :=
  match j with
  | JNum s => number_text s
  | JArr l => forallb well_formed l
  | JObj fs => forallb (fun f => well_formed (snd f)) fs
  | _ => true
  end.
Definition valid_text (s : string) : string := of_bytes (ToValid (rune_bytes s)).
(** [utf8.ValidString]. *)
Definition ValidString (s : string) : bool := str_eqb (valid_text s) s.
Fixpoint clean (j : json) : json :=
  match j with
  | JStr s => JStr (valid_text s)
  | JArr l => JArr (map clean l)
  | JObj fs => JObj (map (fun f => (valid_text (fst f), clean (snd f))) fs)
  | j => j
  end.

Lemma number_head l r : number l = Some r -> exists b t, l = b :: t /\ (b = 45 \/ is_dig b = true).
Proof.
  destruct l as [|b t]; [done|]. intros H. exists b, t. split; [done|].
  destruct (decide (b = 45)) as [|Hb]; [by left|right]. unfold number in H.
  assert (Hm : num_minus (b :: t) = ([], b :: t)).
  { unfold num_minus. destruct b as [|p|p]; try done. by repeat (destruct p as [p|p|]; try done). }
  rewrite Hm in H. destruct (num_int (b :: t)) as [[i r']|] eqn:E; [|done].
  destruct (decide (b = 48)) as [->|Hb0]; [done|]. unfold num_int in E.
  destruct (is_dig b) eqn:Ed; [done|]. exfalso. revert E. clear - Hb0 Ed. destruct b as [|p|p]; try done; by repeat (destruct p as [p|p|]; try done).
Qed.
Lemma print_head j : well_formed j = true -> exists b t, print j = b :: t /\ is_space b = false /\ b <> 93 /\ b <> 125.
Proof.
  destruct j as [|[]|n|s|l|fs]; cbn [print well_formed]; intros H; try (by eexists _, _).
  apply bool_decide_eq_true in H. apply number_head in H as (b & t & -> & Hb). exists b, t. split; [done|].
  unfold is_dig, is_space, within in *. lia.
Qed.
Lemma value_number f b t :
  b = 45 \/ is_dig b = true ->
  value (S f) (b :: t) = match number (b :: t) with Some (n, r) => Some (JNum (of_bytes n), r) | None => None end.
Proof.
  intros Hb. assert (Hin : In b (map Z.of_nat (45 :: seq 48 10)%nat)).
  { destruct Hb as [->|Hb]; [by left|]. unfold is_dig, within in Hb. right. apply in_map_iff. exists (Z.to_nat b).
    split; [lia|]. apply in_seq. lia. }
  cbn [map seq In] in Hin. repeat (destruct Hin as [<-|Hin]; [reflexivity|]). done.
Qed.
Lemma skip_head b t : is_space b = false -> skip (b :: t) = b :: t.
Proof. intros H. cbn. by rewrite H. Qed.

Lemma value_quote f (s : string) rest : value (S f) (quote (rune_bytes s) ++ rest) = Some (JStr (valid_text s), rest).
Proof.
  unfold quote. cbn [app value]. change (skip (34 :: ?t)) with (34 :: t). cbv iota.
  rewrite <- app_assoc. cbn [app]. rewrite unquote_quote; [done|done|apply rune_bytes_bytes|rewrite length_app; lia].
Qed.

Definition Reads (j : json) : Prop :=
  well_formed j = true -> forall fuel rest, stops rest -> (length (print j) < fuel)%nat -> value fuel (print j ++ rest) = Some (clean j, rest).
Lemma elements_print l fuel rest :
  l <> [] -> Forall Reads l -> forallb well_formed l = true -> (S (length (sep_by 44%Z (map print l))) < fuel)%nat ->
  elements fuel (sep_by 44 (map print l) ++ 93 :: rest) = Some (map clean l, rest).
Proof.
  intros Hne Hl. revert fuel Hne. induction Hl as [|j l Hj Hl IH]; intros fuel Hne Hwf Hf; [done|].
  cbn [forallb] in Hwf. apply andb_true_iff in Hwf as [Hw Hwf]. destruct fuel as [|fuel]; [lia|].
  destruct l as [|j' l].
  - cbn [map sep_by] in *. cbn [elements]. rewrite (Hj Hw) by (by (right; left) || lia). done.
  - change (sep_by 44 (map print (j :: j' :: l))) with (print j ++ 44 :: sep_by 44 (map print (j' :: l))) in *.
    rewrite length_app in Hf. cbn [length] in Hf. rewrite <- app_assoc. cbn [elements app].
    rewrite (Hj Hw) by (by left || lia). change (skip (44 :: ?t)) with (44 :: t). cbv iota.
    destruct (print_head j Hw) as (b & t & Hp & _). rewrite Hp in Hf. cbn [length] in Hf. rewrite IH by (done || lia). done.
Qed.
Lemma members_print (fs : list (string * json)) fuel rest :
  let item f := quote (rune_bytes (fst f)) ++ 58 :: print (snd f) in
  fs <> [] -> Forall (fun f => Reads (snd f)) fs -> forallb (fun f => well_formed (snd f)) fs = true ->
  (S (length (sep_by 44%Z (map item fs))) < fuel)%nat ->
  members fuel (sep_by 44 (map item fs) ++ 125 :: rest) = Some (map (fun f => (valid_text (fst f), clean (snd f))) fs, rest).
Proof.
  intros item Hne Hl. revert fuel Hne. induction Hl as [|f fs Hj Hl IH]; intros fuel Hne Hwf Hf; [done|].
  cbn [forallb] in Hwf. apply andb_true_iff in Hwf as [Hw Hwf]. destruct fuel as [|fuel]; [lia|].
  assert (Hq : forall u, members (S fuel) (item f ++ u)
    = match value fuel (print (snd f) ++ u) with
      | None => None
      | Some (v, t3) => match skip t3 with
                        | 44 :: t4 => match members fuel t4 with Some (fs, r) => Some ((valid_text (fst f), v) :: fs, r) | None => None end
                        | 125 :: r => Some ([(valid_text (fst f), v)], r)
                        | _ => None
                        end
      end).
  { intros u. unfold item, quote. cbn [members app]. change (skip (34 :: ?t)) with (34 :: t). cbv iota.
    rewrite <- !app_assoc. cbn [app]. rewrite unquote_quote; [|done|apply rune_bytes_bytes|rewrite length_app; lia].
    change (skip (58 :: ?t)) with (58 :: t). done. }
  assert (Hi : (length (print (snd f)) < length (item f))%nat) by (unfold item; rewrite length_app; cbn [length]; lia).
  destruct fs as [|f' fs].
  - cbn [map sep_by] in *. rewrite Hq, (Hj Hw) by (by (right; right) || lia). done.
  - change (sep_by 44 (map item (f :: f' :: fs))) with (item f ++ 44 :: sep_by 44 (map item (f' :: fs))) in *.
    rewrite length_app in Hf. cbn [length] in Hf. rewrite <- app_assoc, Hq.
    rewrite (Hj Hw) by (by left || lia). cbn [app]. change (skip (44 :: ?t)) with (44 :: t). cbv iota.
    rewrite IH by (done || lia). done.
Qed.
Lemma value_print j : Reads j.
Proof.
  induction j as [|b|n|s|l Hl|fs Hfs] using json_ind; intros Hw fuel rest Hs Hf; (destruct fuel as [|fuel]; [lia|]).
  - done.
  - by destruct b.
  - cbn [print clean well_formed] in *. apply bool_decide_eq_true in Hw. pose proof (number_app _ _ _ rest Hs Hw) as Hn.
    destruct (number_head _ _ Hw) as (b & t & Hb & Hd). rewrite Hb in *. cbn [app] in *. rewrite value_number by done.
    rewrite Hn, <- Hb, of_bytes_rune_bytes. done.
  - apply value_quote.
  - cbn [print clean well_formed] in *. cbn [length] in Hf. rewrite length_app in Hf. cbn [length] in Hf.
    change ((91 :: ?x) ++ ?y) with (91 :: x ++ y). cbn [value]. change (skip (91 :: ?t)) with (91 :: t). cbv iota.
    rewrite <- app_assoc. cbn [app]. destruct l as [|j l]; [done|].
    assert (Hhd : exists b t, sep_by 44 (map print (j :: l)) = b :: t /\ is_space b = false /\ b <> 93).
    { cbn [forallb] in Hw. apply andb_true_iff in Hw as [Hw _]. destruct (print_head j Hw) as (b & t & Hp & H1 & H2 & _).
      cbn [map sep_by]. rewrite Hp. destruct (map print l); by eexists _, _. }
    destruct Hhd as (b & t & Ht & H1 & H2).
    replace (skip (sep_by 44 (map print (j :: l)) ++ 93 :: rest)) with (b :: t ++ 93 :: rest) by (rewrite Ht; cbn [app]; by rewrite skip_head).
    assert (He := elements_print (j :: l) fuel rest ltac:(done) Hl Hw ltac:(lia)). rewrite He.
    destruct b as [|p|p]; try done. by repeat (destruct p as [p|p|]; try done).
  - cbn [print clean well_formed] in *. cbn [length] in Hf. rewrite length_app in Hf. cbn [length] in Hf.
    change ((123 :: ?x) ++ ?y) with (123 :: x ++ y). cbn [value]. change (skip (123 :: ?t)) with (123 :: t). cbv iota.
    rewrite <- app_assoc. cbn [app]. destruct fs as [|f fs]; [done|].
    assert (He := members_print (f :: fs) fuel rest ltac:(done) Hfs Hw ltac:(lia)). cbv zeta in He. rewrite He.
    assert (Hhd : exists t, sep_by 44 (map (fun f => quote (rune_bytes (fst f)) ++ 58 :: print (snd f)) (f :: fs)) = 34 :: t).
    { cbn [map sep_by]. destruct (map _ fs); by eexists. }
    destruct Hhd as [t Ht]. by rewrite Ht.
Qed.

(** Reading back what [json.Marshal] writes gives the tree with
    every text made valid UTF-8, so the tree itself when its texts are. *)
Lemma json_text_round_trip j : well_formed j = true -> parse (print j) = Some (clean j).
Proof.
  intros Hw. unfold parse. pose proof (value_print j Hw (S (length (print j))) [] I ltac:(lia)) as H.
  rewrite app_nil_r in H. by rewrite H.
Qed.

(** * Texts that are read are valid UTF-8 *)
Lemma skipn_le {A} k (l : list A) : (length (skipn k l) <= length l)%nat.
Proof. rewrite length_skipn. lia. Qed.
Lemma valid_from_fuel n m l : (length l <= n)%nat -> (length l <= m)%nat -> valid_from n l = valid_from m l.
Proof.
  revert m l. induction n as [|n IH]; intros m l Hn Hm; [destruct l; [by destruct m|cbn in Hn; lia]|].
  destruct l as [|b t]; [by destruct m|]. destruct m as [|m]; [cbn in Hm; lia|]. cbn [valid_from length] in *.
  destruct (DecodeRune b t) as [r k]. pose proof (skipn_le (pred k) t).
  by rewrite (IH m t), (IH m (skipn (pred k) t)) by lia.
Qed.
(** A chunk of bytes that is kept as it is in front of any other. *)
Definition Kept (c : list Z) : Prop := forall u, ToValid (c ++ u) = c ++ ToValid u.
Lemma Kept_decode b t r n :
  (forall u, DecodeRune b (t ++ u) = (r, n)) -> length t = pred n -> (r =? RuneError) && (n =? 1)%nat = false -> Kept (b :: t).
Proof.
  intros Hd Hl Hg u. unfold ToValid. cbn [app length valid_from]. rewrite Hd, Hg.
  rewrite take_app_length', drop_app_length' by done. do 2 f_equal.
  apply valid_from_fuel; [rewrite length_app; lia|lia].
Qed.
Lemma Kept_ascii b : 0 <= b < 128 -> Kept [b].
Proof.
  intros Hb. apply (Kept_decode b [] b 1); [|done|].
  - intros u. unfold DecodeRune. by replace (b <? 128) with true by lia.
  - replace (b =? RuneError) with false by (unfold RuneError; lia). done.
Qed.
Lemma Kept_encode r : 0 <= r -> Kept (EncodeRune r).
Proof.
  intros Hr. unfold EncodeRune. destruct (Z.ltb_spec r 128) as [H1|H1]; [by apply Kept_ascii|].
  assert (Hbad : Kept [239; 191; 189]) by (apply (Kept_decode 239 [191; 189] 65533 3); done).
  destruct (Z.ltb_spec r 2048) as [H2|H2].
  { apply (Kept_decode _ _ r 2); [|done|by rewrite andb_false_r]. intros u. unfold DecodeRune, first_byte, within. cbn [app].
    replace (192 + r / 64 <? 128) with false by (Z.div_mod_to_equations; lia).
    replace ((194 <=? 192 + r / 64) && (192 + r / 64 <=? 223)) with true by (Z.div_mod_to_equations; lia). cbn [firstn Nat.pred length Nat.eqb]; rewrite ?take_0; cbn [length Nat.eqb].
    replace ((128 <=? 128 + r mod 64) && (128 + r mod 64 <=? 191)) with true by (Z.div_mod_to_equations; lia).
    cbn [forallb andb fold_left]. f_equal. Z.div_mod_to_equations; lia. }
  destruct (within 55296 57343 r || (1114111 <? r)) eqn:Es; [done|]. unfold within in Es.
  destruct (Z.ltb_spec r 65536) as [H3|H3].
  - apply (Kept_decode _ _ r 3); [|done|by rewrite andb_false_r]. intros u. unfold DecodeRune, first_byte, within. cbn [app].
    replace (224 + r / 4096 <? 128) with false by (Z.div_mod_to_equations; lia).
    replace ((194 <=? 224 + r / 4096) && (224 + r / 4096 <=? 223)) with false by (Z.div_mod_to_equations; lia).
    assert (Hb : (128 <=? 128 + r mod 64) && (128 + r mod 64 <=? 191) = true) by (Z.div_mod_to_equations; lia).
    assert (Hsum : (r / 4096 * 64 + (128 + r / 64 mod 64 - 128)) * 64 + (128 + r mod 64 - 128) = r) by (Z.div_mod_to_equations; lia).
    destruct (Z.eqb_spec (224 + r / 4096) 224) as [E|E].
    { cbn [firstn Nat.pred length Nat.eqb]; rewrite ?take_0; cbn [length Nat.eqb]. rewrite (proj2 (andb_true_iff (160 <=? _) _)) by (Z.div_mod_to_equations; lia).
      cbn [forallb andb fold_left within]. unfold within. rewrite Hb. cbn [andb]. f_equal. lia. }
    destruct (Z.eqb_spec (224 + r / 4096) 237) as [E'|E'].
    { cbn [firstn Nat.pred length Nat.eqb]; rewrite ?take_0; cbn [length Nat.eqb]. rewrite (proj2 (andb_true_iff (128 <=? 128 + r / 64 mod 64) _)) by (Z.div_mod_to_equations; lia).
      cbn [forallb andb fold_left within]. unfold within. rewrite Hb. cbn [andb]. f_equal. lia. }
    replace ((225 <=? 224 + r / 4096) && (224 + r / 4096 <=? 239)) with true by (Z.div_mod_to_equations; lia).
    cbn [firstn Nat.pred length Nat.eqb]; rewrite ?take_0; cbn [length Nat.eqb]. rewrite (proj2 (andb_true_iff (128 <=? 128 + r / 64 mod 64) _)) by (Z.div_mod_to_equations; lia).
    cbn [forallb andb fold_left within]. unfold within. rewrite Hb. cbn [andb]. f_equal. lia.
  - apply (Kept_decode _ _ r 4); [|done|by rewrite andb_false_r]. intros u. unfold DecodeRune, first_byte, within. cbn [app].
    set (h := r / 262144). set (a := r / 4096 mod 64). set (b := r / 64 mod 64). set (c := r mod 64).
    assert (Hb : (128 <=? 128 + b) && (128 + b <=? 191) = true) by (unfold b; Z.div_mod_to_equations; lia).
    assert (Hc : (128 <=? 128 + c) && (128 + c <=? 191) = true) by (unfold c; Z.div_mod_to_equations; lia).
    assert (Hsum : ((h * 64 + (128 + a - 128)) * 64 + (128 + b - 128)) * 64 + (128 + c - 128) = r) by (unfold h, a, b, c; Z.div_mod_to_equations; lia).
    assert (Hh : 0 <= h <= 4 /\ 0 <= a < 64 /\ (h = 0 -> 16 <= a) /\ (h = 4 -> a < 16)) by (unfold h, a; Z.div_mod_to_equations; lia).
    clearbody h a b c. destruct Hh as (Hh & Ha & H0 & H4).
    replace (240 + h <? 128) with false by lia. replace ((194 <=? 240 + h) && (240 + h <=? 223)) with false by lia.
    replace (240 + h =? 224) with false by lia. replace (240 + h =? 237) with false by lia.
    replace ((225 <=? 240 + h) && (240 + h <=? 239)) with false by lia.
    assert (h = 0 \/ 1 <= h <= 3 \/ h = 4) as [-> | [Hh' | ->]] by lia.
    + change (240 + 0 =? 240) with true. cbn [firstn Nat.pred length Nat.eqb]; rewrite ?take_0; cbn [length Nat.eqb]. rewrite (proj2 (andb_true_iff (144 <=? 128 + a) _)) by lia.
      cbn [forallb andb fold_left]. unfold within. rewrite Hb, Hc. cbn [andb]. f_equal. lia.
    + replace (240 + h =? 240) with false by lia. replace ((241 <=? 240 + h) && (240 + h <=? 243)) with true by lia.
      cbn [firstn Nat.pred length Nat.eqb]; rewrite ?take_0; cbn [length Nat.eqb]. rewrite (proj2 (andb_true_iff (128 <=? 128 + a) _)) by lia.
      cbn [forallb andb fold_left]. unfold within. rewrite Hb, Hc. cbn [andb]. f_equal. lia.
    + change (240 + 4 =? 240) with false. change (240 + 4 =? 244) with true.
      change ((241 <=? 240 + 4) && (240 + 4 <=? 243)) with false. cbv iota. cbn [firstn Nat.pred length Nat.eqb]; rewrite ?take_0; cbn [length Nat.eqb andb].
      rewrite (proj2 (andb_true_iff (128 <=? 128 + a) (128 + a <=? 143))) by lia.
      cbn [forallb andb fold_left]. unfold within. rewrite Hb, Hc. cbn [andb]. f_equal. lia.
Qed.

Lemma ToValid_app c s : Kept c -> ToValid s = s -> ToValid (c ++ s) = c ++ s.
Proof. intros Hc Hs. by rewrite Hc, Hs. Qed.
Lemma EncodeRune_bytes r : 0 <= r -> Forall is_byte (EncodeRune r).
Proof.
  intros Hr. unfold EncodeRune, within. repeat case_match; repeat constructor; unfold is_byte; Z.div_mod_to_equations; lia.
Qed.
Lemma unhex_pos b n : unhex b = Some n -> 0 <= n < 16.
Proof. unfold unhex, within. repeat case_match; intros [= <-]; lia. Qed.
Lemma hex4_inv l r t : hex4 l = Some (r, t) -> 0 <= r /\ exists p, l = p ++ t.
Proof.
  destruct l as [|a [|b [|c [|d u]]]]; try done. cbn [hex4].
  destruct (unhex a) as [a'|] eqn:Ea; [|done]. destruct (unhex b) as [b'|] eqn:Eb; [|done].
  destruct (unhex c) as [c'|] eqn:Ec; [|done]. destruct (unhex d) as [d'|] eqn:Ed; [|done].
  apply unhex_pos in Ea, Eb, Ec, Ed. intros [= <- <-]. split; [lia|]. by exists [a; b; c; d].
Qed.
Lemma u_rune_inv l r t : u_rune l = Some (r, t) -> 0 <= r /\ exists p, l = p ++ t.
Proof.
  unfold u_rune. destruct (hex4 l) as [[r1 t1]|] eqn:E; [|done]. apply hex4_inv in E as [Hr [p ->]].
  destruct (within 55296 57343 r1) eqn:Es; [|intros [= <- <-]; eauto]. unfold within in Es.
  assert (Hre : Some (RuneError, t1) = Some (r, t) -> 0 <= r /\ exists q, p ++ t1 = q ++ t) by (intros [= <- <-]; split; [done|eauto]).
  destruct t1 as [|c1 [|c2 t']]; try exact Hre.
  { repeat case_match; exact Hre. }
  destruct (decide (c1 = 92)) as [->|]; [|repeat case_match; subst; try done; exact Hre].
  destruct (decide (c2 = 117)) as [->|]; [|repeat case_match; subst; try done; exact Hre].
  destruct (hex4 t') as [[r2 t'']|] eqn:E; [|exact Hre]. destruct (within 55296 56319 r1 && within 56320 57343 r2) eqn:Ew; [|exact Hre].
  apply hex4_inv in E as [? [q ->]]. intros [= <- <-]. unfold within in Ew. split; [lia|].
  exists (p ++ 92 :: 117 :: q). by rewrite <- app_assoc.
Qed.
Lemma unescape_ascii c x : unescape c = Some x -> 0 <= x < 128.
Proof. unfold unescape. repeat case_match; intros [= <-]; lia. Qed.

Lemma unquote_valid fuel l s r : Forall is_byte l -> unquote fuel l = Some (s, r) -> ToValid s = s /\ Forall is_byte s /\ Forall is_byte r.
Proof.
  revert l s r. induction fuel as [|fuel IH]; [done|]. intros [|b t] s r Hl; [done|]. apply Forall_cons in Hl as [Hb Ht]. cbn [unquote].
  destruct (Z.eqb_spec b 34) as [->|]; [by intros [= <- <-]|].
  assert (Hstep : forall c u, Kept c -> Forall is_byte c -> Forall is_byte u -> more c (unquote fuel u) = Some (s, r) ->
    ToValid s = s /\ Forall is_byte s /\ Forall is_byte r).
  { intros c u Hc Hcb Hu. destruct (unquote fuel u) as [[s' r']|] eqn:E; [|done]. intros [= <- <-].
    destruct (IH _ _ _ Hu E) as (H1 & H2 & H3). split; [by apply ToValid_app|]. split; [by apply Forall_app|done]. }
  unfold more in Hstep. destruct (Z.eqb_spec b 92) as [->|].
  - destruct t as [|c t']; [done|]. apply Forall_cons in Ht as [Hc Ht'].
    assert (Hu : forall t'', u_rune t' = Some t'' -> match unquote fuel (snd t'') with Some (r, t') => Some (EncodeRune (fst t'') ++ r, t') | None => None end = Some (s, r) ->
      ToValid s = s /\ Forall is_byte s /\ Forall is_byte r).
    { intros [x u] Hu. apply u_rune_inv in Hu as [Hx [q ->]]. apply Forall_app in Ht' as [_ Ht']. cbn [fst snd].
      by apply Hstep; [apply Kept_encode|apply EncodeRune_bytes|]. }
    assert (He : forall x, unescape c = Some x -> match unquote fuel t' with Some (r, t') => Some ([x] ++ r, t') | None => None end = Some (s, r) ->
      ToValid s = s /\ Forall is_byte s /\ Forall is_byte r).
    { intros x Hx. apply unescape_ascii in Hx. apply Hstep; [by apply Kept_ascii|repeat constructor; unfold is_byte; lia|done]. }
    destruct (decide (c = 117)) as [->|Hn].
    + destruct (u_rune t') as [[x u]|]; [|done]. by apply (Hu (x, u)).
    + intros H. destruct (unescape c) as [x|] eqn:Ex; [apply (He x eq_refl)|]; revert H; clear - Hn.
      all: destruct c as [|p|p]; try done; by repeat (destruct p as [p|p|]; try done).
  - destruct (Z.ltb_spec b 32) as [|Hlo]; [done|]. destruct (DecodeRune b t) as [x k] eqn:Ed.
    destruct ((x =? RuneError) && (k =? 1)%nat) eqn:Eg.
    { apply (Hstep [239; 191; 189]); [|repeat constructor; done|done]. by apply (Kept_decode 239 [191; 189] 65533 3). }
    assert (Hkc : Kept (b :: firstn (pred k) t)).
    { destruct (decide (128 <= b)) as [H|H].
      - destruct (DecodeRune_good b t x k H Ed Eg) as (_ & Hlen & _ & _ & Hu). by apply (Kept_decode _ _ x k).
      - unfold DecodeRune in Ed. replace (b <? 128) with true in Ed by lia. injection Ed as <- <-. cbn [pred]. rewrite take_0. apply Kept_ascii. lia. }
    apply (Hstep (b :: firstn (pred k) t)); [done|constructor; [done|by apply Forall_take]|by apply Forall_drop].
Qed.

Lemma span_inv p l a r : span p l = (a, r) -> l = a ++ r.
Proof.
  revert a r. induction l as [|b l IH]; intros a r; cbn [span]; [by intros [= <- <-]|].
  destruct (p b); [|by intros [= <- <-]]. destruct (span p l) as [a' r']. intros [= <- <-]. by rewrite (IH _ _ eq_refl).
Qed.
Lemma number_inv l n r : number l = Some (n, r) -> exists p, l = p ++ r.
Proof.
  assert (Hm : exists p, l = p ++ snd (num_minus l)).
  { destruct l as [|b l]; [by exists []|]. destruct (decide (b = 45)) as [->|H]; [by exists [45]|]. exists []. unfold num_minus.
    destruct b as [|q|q]; try done. by repeat (destruct q as [q|q|]; try done). }
  unfold number. destruct (num_minus l) as [m l1]. cbn [snd] in Hm. destruct Hm as [p1 ->].
  destruct (num_int l1) as [[i l2]|] eqn:Ei; [|done].
  assert (exists p, l1 = p ++ l2) as [p2 ->].
  { destruct l1 as [|b t]; [done|]. destruct (decide (b = 48)) as [->|]; [injection Ei as <- <-; by exists [48]|].
    assert (H : num_int (b :: t) = if is_dig b then Some (span is_dig (b :: t)) else None).
    { unfold num_int. destruct b as [|q|q]; try done; by repeat (destruct q as [q|q|]; try done). }
    rewrite H in Ei. destruct (is_dig b); [|done]. destruct (span is_dig (b :: t)) as [x y] eqn:Es. injection Ei as <- <-.
    apply span_inv in Es. by exists x. }
  destruct (num_frac l2) as [[f l3]|] eqn:Ef; [|done].
  assert (exists p, l2 = p ++ l3) as [p3 ->].
  { destruct l2 as [|b t]; [injection Ef as <- <-; by exists []|]. destruct (decide (b = 46)) as [->|].
    - cbn [num_frac] in Ef. destruct (span is_dig t) as [[|d ds] r'] eqn:Es; [done|]. injection Ef as <- <-. apply span_inv in Es as ->. by exists (46 :: d :: ds).
    - assert (Some (@nil Z, b :: t) = Some (f, l3)) as [= <- <-]; [|by exists []].
      revert Ef. unfold num_frac. destruct b as [|q|q]; try done; by repeat (destruct q as [q|q|]; try done). }
  destruct (num_exp l3) as [[e l4]|] eqn:Ee; [|done]. intros [= _ <-].
  assert (exists p, l3 = p ++ l4) as [p4 ->].
  { destruct l3 as [|b t]; [injection Ee as <- <-; by exists []|]. cbn [num_exp] in Ee. destruct (_ || _); [|injection Ee as <- <-; by exists []].
    destruct t as [|c t']; [done|]. destruct ((c =? 43) || (c =? 45)).
    - destruct (span is_dig t') as [[|d ds] r'] eqn:Es; [done|]. injection Ee as <- <-. apply span_inv in Es as ->. by exists (b :: c :: d :: ds).
    - destruct (span is_dig (c :: t')) as [[|d ds] r'] eqn:Es; [done|]. injection Ee as <- <-. apply span_inv in Es as ->. by exists (b :: d :: ds). }
  exists (p1 ++ p2 ++ p3 ++ p4). by rewrite <- !app_assoc.
Qed.
Lemma Forall_skip P l : Forall P l -> Forall P (skip l).
Proof. induction 1 as [|b l Hb Hl IH]; [done|]. cbn. destruct (is_space b); [done|by constructor]. Qed.
Lemma valid_text_of s : ToValid s = s -> Forall is_byte s -> valid_text (of_bytes s) = of_bytes s.
Proof. intros Hs Hb. unfold valid_text. by rewrite rune_bytes_of_bytes, Hs. Qed.

Definition CleanRead {A} (cl : A -> A) (o : option (A * list Z)) : Prop :=
  match o with Some (a, r) => cl a = a /\ Forall is_byte r | None => True end.
Lemma word_clean w j l : clean j = j -> Forall is_byte l -> CleanRead clean (word w j l).
Proof. intros Hj Hl. unfold word. case_bool_decide; [|done]. split; [done|by apply Forall_drop]. Qed.
Lemma value_clean fuel :
  (forall l, Forall is_byte l -> CleanRead clean (value fuel l)) /\
  (forall l, Forall is_byte l -> CleanRead (map clean) (elements fuel l)) /\
  (forall l, Forall is_byte l -> CleanRead (map (fun f => (valid_text (fst f), clean (snd f)))) (members fuel l)).
Proof.
  induction fuel as [|fuel (IHv & IHe & IHm)]; [done|]. split; [|split]; intros l Hl.
  - cbn [value]. pose proof (Forall_skip _ _ Hl) as Hs. destruct (skip l) as [|b t]; [done|].
    assert (Hnum : CleanRead clean match number (b :: t) with Some (n, r) => Some (JNum (of_bytes n), r) | None => None end).
    { destruct (number (b :: t)) as [[n r]|] eqn:E; [|done]. apply number_inv in E as [p E]. rewrite E in Hs. apply Forall_app in Hs as [_ Hs]. done. }
    pose proof (Forall_inv_tail Hs) as Ht. pose proof (Forall_skip _ _ Ht) as Hst.
    assert (Hstr : CleanRead clean match unquote (S (length t)) t with Some (s, r) => Some (JStr (of_bytes s), r) | None => None end).
    { destruct (unquote _ t) as [[s r]|] eqn:E; [|done]. destruct (unquote_valid _ _ _ _ Ht E) as (H1 & H2 & H3). split; [|done]. cbn. f_equal. by apply valid_text_of. }
    assert (Harr : CleanRead clean match elements fuel t with Some (vs, r) => Some (JArr vs, r) | None => None end).
    { specialize (IHe t Ht). destruct (elements fuel t) as [[vs r]|]; [|done]. destruct IHe as [H1 H2]. split; [cbn; by f_equal|done]. }
    assert (Hobj : CleanRead clean match members fuel t with Some (fs, r) => Some (JObj fs, r) | None => None end).
    { specialize (IHm t Ht). destruct (members fuel t) as [[fs r]|]; [|done]. destruct IHm as [H1 H2]. split; [cbn; by f_equal|done]. }
    destruct (decide (b = 34)) as [->|]; [exact Hstr|].
    destruct (decide (b = 110)) as [->|]; [by apply word_clean|]. destruct (decide (b = 116)) as [->|]; [by apply word_clean|].
    destruct (decide (b = 102)) as [->|]; [by apply word_clean|].
    destruct (decide (b = 91)) as [->|].
    { destruct (skip t) as [|c u]; [exact Harr|]. destruct (decide (c = 93)) as [->|]; [split; [done|by apply Forall_inv_tail in Hst]|].
      destruct c as [|q|q]; try exact Harr; repeat (destruct q as [q|q|]; try exact Harr); done. }
    destruct (decide (b = 123)) as [->|].
    { destruct (skip t) as [|c u]; [exact Hobj|]. destruct (decide (c = 125)) as [->|]; [split; [done|by apply Forall_inv_tail in Hst]|].
      destruct c as [|q|q]; try exact Hobj; repeat (destruct q as [q|q|]; try exact Hobj); done. }
    destruct b as [|q|q]; try exact Hnum; repeat (destruct q as [q|q|]; try exact Hnum); done.
  - cbn [elements]. specialize (IHv l Hl). destruct (value fuel l) as [[v t]|]; [|done]. destruct IHv as [Hv Ht].
    apply Forall_skip in Ht. destruct (skip t) as [|b t']; [done|]. apply Forall_cons in Ht as [_ Ht]. specialize (IHe t' Ht).
    destruct (decide (b = 93)) as [->|]; [split; [cbn; by rewrite Hv|done]|].
    destruct (decide (b = 44)) as [->|]; [|repeat case_match; subst; done].
    destruct (elements fuel t') as [[vs r]|]; [|done]. split; [cbn; rewrite Hv; f_equal|]; apply IHe.
  - cbn [members]. apply Forall_skip in Hl. destruct (skip l) as [|b t]; [done|]. apply Forall_cons in Hl as [_ Hl].
    destruct (decide (b = 34)) as [->|]; [|repeat case_match; subst; done].
    destruct (unquote _ t) as [[k t1]|] eqn:E; [|done]. destruct (unquote_valid _ _ _ _ Hl E) as (H1 & H2 & H3).
    apply Forall_skip in H3. destruct (skip t1) as [|b1 t2]; [done|]. apply Forall_cons in H3 as [_ H3].
    destruct (decide (b1 = 58)) as [->|]; [|repeat case_match; subst; done].
    specialize (IHv t2 H3). destruct (value fuel t2) as [[v t3]|]; [|done]. destruct IHv as [Hv Ht].
    apply Forall_skip in Ht. destruct (skip t3) as [|b2 t4]; [done|]. apply Forall_cons in Ht as [_ Ht]. specialize (IHm t4 Ht).
    pose proof (valid_text_of _ H1 H2) as Hk.
    destruct (decide (b2 = 125)) as [->|]; [split; [cbn [map fst snd]; by rewrite Hv, Hk|done]|].
    destruct (decide (b2 = 44)) as [->|]; [|repeat case_match; subst; done].
    destruct (members fuel t4) as [[fs r]|]; [|done]. split; [cbn [map fst snd]; rewrite Hv, Hk; f_equal|]; apply IHm.
Qed.
Lemma parse_clean l j : Forall is_byte l -> parse l = Some j -> clean j = j.
Proof.
  intros Hl. unfold parse. destruct (value_clean (S (length l))) as [Hv _]. specialize (Hv l Hl).
  destruct (value _ l) as [[j' r]|]; [|done]. destruct (skip r); [|done]. intros [= <-]. apply Hv.
Qed.

(** * What is written are bytes *)
Lemma hex_byte n : 0 <= n < 16 -> is_byte (hex n).
Proof. unfold hex, is_byte. destruct (n <? 10); lia. Qed.
Lemma u_escape_bytes r : 0 <= r < 65536 -> Forall is_byte (u_escape r).
Proof.
  intros Hr. unfold u_escape. repeat constructor; try done; apply hex_byte; Z.div_mod_to_equations; lia.
Qed.
Lemma quote_from_bytes n l : Forall is_byte l -> Forall is_byte (quote_from n l).
Proof.
  revert l. induction n as [|n IH]; intros l Hl; [by destruct l|]. destruct l as [|b t]; [done|].
  apply Forall_cons in Hl as [Hb Ht]. unfold is_byte in Hb. cbn [quote_from].
  destruct (Z.ltb_spec b 128).
  { apply Forall_app. split; [|by apply IH]. unfold escape. repeat case_match; try (apply u_escape_bytes; lia); repeat constructor; done || (unfold is_byte; lia). }
  destruct (DecodeRune b t) as [r k]. destruct (_ && _).
  { apply Forall_app. split; [by apply u_escape_bytes|by apply IH]. }
  apply Forall_app. split; [|apply IH; by apply Forall_drop].
  destruct ((r =? 8232) || (r =? 8233)) eqn:E; [apply u_escape_bytes; lia|]. constructor; [done|by apply Forall_take].
Qed.
Lemma sep_by_bytes sep l : is_byte sep -> Forall (Forall is_byte) l -> Forall is_byte (sep_by sep l).
Proof.
  intros Hs. induction 1 as [|x l Hx Hl IH]; [constructor|]. destruct l; [done|].
  change (sep_by sep (x :: l :: l0)) with (x ++ sep :: sep_by sep (l :: l0)). apply Forall_app. split; [done|by constructor].
Qed.
Lemma print_bytes j : Forall is_byte (print j).
Proof.
  assert (Hq : forall s, Forall is_byte (quote (rune_bytes s))).
  { intros s. unfold quote. constructor; [done|]. apply Forall_app. split; [|by repeat constructor]. apply quote_from_bytes, rune_bytes_bytes. }
  induction j as [|b|n|s|l Hl|fs Hfs] using json_ind; cbn [print]; try apply rune_bytes_bytes; [apply Hq|..].
  - constructor; [done|]. apply Forall_app. split; [|by repeat constructor]. apply sep_by_bytes; [done|]. by apply Forall_map.
  - constructor; [done|]. apply Forall_app. split; [|by repeat constructor]. apply sep_by_bytes; [done|].
    apply Forall_map. eapply Forall_impl; [exact Hfs|]. intros f Hf. cbv beta in *. apply Forall_app. split; [apply Hq|]. by constructor.
Qed.
Lemma parse_print_s j : well_formed j = true -> parse_s (print_s j) = Some (clean j).
Proof.
  intros Hw. unfold parse_s, print_s. rewrite rune_bytes_of_bytes by apply print_bytes. by apply json_text_round_trip.
Qed.

(** * The numbers that [strconv] writes *)
Lemma to_uint_head p d : Pos.to_uint p = Decimal.D0 d -> False.
Proof.
  intros E. pose proof (of_uint_pos_to_uint p) as Ho. pose proof (DecimalN.Unsigned.to_of (Pos.to_uint p)) as Ht.
  rewrite Ho in Ht. change (N.to_uint (N.pos p)) with (Pos.to_uint p) in Ht. rewrite E in Ht. unfold Decimal.unorm in Ht.
  change (Decimal.nzhead (Decimal.D0 d)) with (Decimal.nzhead d) in Ht. destruct (Decimal.nzhead d) as [|d'| | | | | | | | |] eqn:En; try done.
  - injection Ht as ->. rewrite E in Ho. done.
  - by apply (DecimalFacts.nzhead_nonzero d d').
Qed.
Lemma span_all p l : forallb p l = true -> span p l = (l, []).
Proof. induction l as [|b l IH]; [done|]. cbn. intros [-> H]%andb_true_iff. by rewrite IH. Qed.
Lemma digits_of_uint d : forallb is_dig (rune_bytes (NilEmpty.string_of_uint d)) = true.
Proof. induction d; [done|..]; exact IHd. Qed.
Lemma number_text_fmt_d n : 0 <= n -> number_text (fmt_d n) = true.
Proof.
  intros Hn. unfold number_text. apply bool_decide_eq_true. unfold fmt_d. destruct n as [|p|p]; [done| |lia].
  change (NilZero.string_of_int (Z.to_int (Z.pos p))) with (NilZero.string_of_uint (Pos.to_uint p)).
  pose proof (pos_to_uint_nonnil p) as Hnil. pose proof (to_uint_head p) as Hz.
  assert (Hd : forall c d, is_dig c = true -> c <> 45 -> c <> 48 ->
    number (c :: rune_bytes (NilEmpty.string_of_uint d)) = Some (c :: rune_bytes (NilEmpty.string_of_uint d), [])).
  { intros c d Hc H1 H2. unfold number.
    assert (Hm : forall t, num_minus (c :: t) = ([], c :: t)).
    { intros t. unfold num_minus. destruct c as [|q|q]; try done; by repeat (destruct q as [q|q|]; try done). }
    assert (Hi : forall t, num_int (c :: t) = if is_dig c then Some (span is_dig (c :: t)) else None).
    { intros t. unfold num_int. destruct c as [|q|q]; try done; by repeat (destruct q as [q|q|]; try done). }
    rewrite Hm, Hi, Hc, span_all; [|cbn; by rewrite Hc, digits_of_uint]. cbn [num_frac num_exp app]. by rewrite app_nil_r. }
  destruct (Pos.to_uint p) as [|d|d|d|d|d|d|d|d|d|d] eqn:E; [done|by exfalso; apply (Hz d)|..]; by apply Hd.
Qed.
