(* ===== verification/RedisCmds.v ===== *)
(** The commands of [src/dbtools/redispool/redis_cache.go] on strings, lists,
    sorted sets and hashes, and the package functions on the instance that
    [InitCache] sets.  The server behind the go-redis client is a parameter; the
    messages that are only logged are left out. *)
From S2P Require Import Prelude Mutex Json Regexp JsonText.
#[local] Open Scope string_scope.
#[local] Open Scope Z_scope.

(** [redis.ZRangeBy]. *)
Record ZRangeBy : Type := mkRangeBy { Min : string; Max : string; RangeOffset : Z; RangeCount : Z }.
(** The commands at a time, [F] being the scores. *)
Class RedisServer (R F : Type) : Type := {
  r_exists : Z -> string -> R -> Res Z;
  r_ttl : Z -> string -> R -> Res Z;
  r_get : Z -> string -> R -> Res string;
  r_setex : Z -> string -> string -> Z -> R -> Res unit * R;
  r_setnx : Z -> string -> string -> Z -> R -> Res bool * R;
  r_del : Z -> string -> R -> Res unit * R;
  r_lpush : Z -> string -> list string -> R -> Res unit * R;
  r_rpop : Z -> string -> R -> Res string * R;
  r_rpoplpush : Z -> string -> string -> R -> Res string * R;
  r_lrem : Z -> string -> Z -> string -> R -> Res Z * R;
  r_zadd : Z -> string -> list (F * string) -> R -> Res Z * R;
  r_zcount : Z -> string -> string -> string -> R -> Res Z;
  r_zincrby : Z -> string -> F -> string -> R -> Res F * R;
  r_zrange_scores : Z -> string -> Z -> Z -> R -> Res (list (F * string));
  r_zrange : Z -> string -> Z -> Z -> R -> Res (list string);
  r_zrangebyscore : Z -> string -> ZRangeBy -> R -> Res (list string);
  r_zrangebyscore_scores : Z -> string -> ZRangeBy -> R -> Res (list (F * string));
  r_zrem : Z -> string -> list string -> R -> Res Z * R;
  r_hdel : Z -> string -> list string -> R -> Res Z * R;
  r_hexists : Z -> string -> string -> R -> Res bool;
  r_hget : Z -> string -> string -> R -> Res string;
  r_hset : Z -> string -> list string -> R -> Res Z * R;
  r_hsetnx : Z -> string -> string -> string -> R -> Res bool * R;
}.

Module Client.
Section Methods.
Context `{Env} {R F : Type} `{RedisServer R F}.
Definition rcall {A} (f : Z -> R -> Res A * R) : M R A := fun w => gextr (f (env_clock (calls w))) w.
Definition rread {A} (f : Z -> R -> Res A) : M R A := rcall (fun now r => (f now r, r)).
(** An error reads as absent. *)
Definition IsExist (key : string) : M R bool :=
  let! r := gtry (rread (fun now => r_exists now key)) in gret match r with Ok n => 0 <? n | Err _ => false end.
Definition TTL (key : string) : M R Z :=
  let! r := gtry (rread (fun now => r_ttl now key)) in gret match r with Ok t => t | Err _ => 0 end.
Definition Get (key : string) : M R string := rread (fun now => r_get now key).
Definition SetEx (key data : string) (expired : Z) : M R unit := rcall (fun now => r_setex now key data expired).
Definition SetNX (key data : string) (expired : Z) : M R bool := rcall (fun now => r_setnx now key data expired).
Definition Del (key : string) : M R unit := rcall (fun now => r_del now key).
Definition LPush (key : string) (values : list string) : M R unit := rcall (fun now => r_lpush now key values).
Definition RPop (key : string) : M R string := rcall (fun now => r_rpop now key).
Definition RPopLPush (src dst : string) : M R string := rcall (fun now => r_rpoplpush now src dst).
Definition LRem (key : string) (count : Z) (value : string) : M R Z := rcall (fun now => r_lrem now key count value).
Definition ZAdd (key : string) (members : list (F * string)) : M R Z := rcall (fun now => r_zadd now key members).
Definition ZCount (key min max : string) : M R Z := rread (fun now => r_zcount now key min max).
Definition ZIncrBy (key : string) (increment : F) (member : string) : M R F := rcall (fun now => r_zincrby now key increment member).
Definition ZRangeWithScores (key : string) (start stop : Z) : M R (list (F * string)) := rread (fun now => r_zrange_scores now key start stop).
Definition ZRange (key : string) (start stop : Z) : M R (list string) := rread (fun now => r_zrange now key start stop).
Definition ZRangeByScore (key : string) (by_ : ZRangeBy) : M R (list string) := rread (fun now => r_zrangebyscore now key by_).
Definition ZRangeByScoreWithScores (key : string) (by_ : ZRangeBy) : M R (list (F * string)) :=
  rread (fun now => r_zrangebyscore_scores now key by_).
Definition ZRem (key : string) (member : list string) : M R Z := rcall (fun now => r_zrem now key member).
Definition HDel (key : string) (fields : list string) : M R Z := rcall (fun now => r_hdel now key fields).
Definition HExists (key field : string) : M R bool := rread (fun now => r_hexists now key field).
Definition HGet (key field : string) : M R string := rread (fun now => r_hget now key field).
Definition HSet (key field value : string) : M R Z := rcall (fun now => r_hset now key [field; value]).
Definition HMSet (key : string) (values : list string) : M R Z := rcall (fun now => r_hset now key values).
Definition HSetNX (key field value : string) : M R bool := rcall (fun now => r_hsetnx now key field value).
End Methods.
End Client.

Module Std.
Section Functions.
Context `{Env} {R F : Type} `{RedisServer R F}.
(** Whether [InitCache] has been called. *)
Variable stdCache : bool.
Definition CacheInstance {A} (m : M R A) : G R (Res A) := if stdCache then plift m else ppanic "redis cache is nil".
Definition SetString (key value : string) (timeout : Z) : G R (Res unit) := CacheInstance (Client.SetEx key value timeout).
Definition GetString (key : string) : G R (Res string) := CacheInstance (Client.Get key).
Definition Del (key : string) : G R (Res unit) := CacheInstance (Client.Del key).
Definition IsExistKey (key : string) : G R (Res (bool * Z)) :=
  CacheInstance (let! isExist := Client.IsExist key in
                 if negb isExist then gret (false, -2) else let! ttl := Client.TTL key in gret (isExist, ttl)).
(** The value is one of JSON. *)
Definition SetJSON (key : string) (v : json) (expired : Z) : G R (Res unit) := SetString key (print_s v) expired.
Definition Unmarshal (data : string) : Res json :=
  match parse_s data with Some v => Ok v | None => Err (ErrNew "invalid JSON") end.
Definition GetJSON (key : string) : G R (Res json) :=
  let* data := GetString key in pret match data with Ok d => Unmarshal d | Err e => Err e end.
Definition LPush (key : string) (values : list string) : G R (Res unit) := CacheInstance (Client.LPush key values).
Definition RPop (key : string) : G R (Res string) := CacheInstance (Client.RPop key).
Definition RPopLPush (src dst : string) : G R (Res string) := CacheInstance (Client.RPopLPush src dst).
Definition LRem (key : string) (count : Z) (value : string) : G R (Res Z) := CacheInstance (Client.LRem key count value).
Definition SetNX (key data : string) (expired : Z) : G R (Res bool) := CacheInstance (Client.SetNX key data expired).
Definition ZAdd (key : string) (members : list (F * string)) : G R (Res Z) := CacheInstance (Client.ZAdd key members).
Definition ZCount (key min max : string) : G R (Res Z) := CacheInstance (Client.ZCount key min max).
Definition ZIncrBy (key : string) (increment : F) (member : string) : G R (Res F) := CacheInstance (Client.ZIncrBy key increment member).
Definition ZRangeWithScores (key : string) (start stop : Z) : G R (Res (list (F * string))) := CacheInstance (Client.ZRangeWithScores key start stop).
Definition ZRange (key : string) (start stop : Z) : G R (Res (list string)) := CacheInstance (Client.ZRange key start stop).
Definition ZRangeByScore (key : string) (by_ : ZRangeBy) : G R (Res (list string)) := CacheInstance (Client.ZRangeByScore key by_).
Definition ZRangeByScoreWithScores (key : string) (by_ : ZRangeBy) : G R (Res (list (F * string))) :=
  CacheInstance (Client.ZRangeByScoreWithScores key by_).
(** The members are not passed on. *)
Definition ZRem (key : string) (member : list string) : G R (Res Z) := CacheInstance (Client.ZRem key []).
End Functions.
End Std.

(** * Lists as queues *)
Definition WrongArity : error := ErrVar "ERR wrong number of arguments for 'zrem' command".
(** [LREM] on a queue, oldest first: the newest [count] equal values for a
    positive count, the oldest for a negative one, all for zero; how many, and
    what is left. *)
Fixpoint remove_old (n : nat) (v : string) (q : list string) : nat * list string :=
  match n, q with
  | O, _ | _, [] => (O, q)
  | S n', x :: q' => if str_eqb x v then let '(k, r) := remove_old n' v q' in (S k, r) else let '(k, r) := remove_old n v q' in (k, x :: r)
  end.
Definition lrem (count : Z) (v : string) (q : list string) : nat * list string :=
  if 0 <? count then let '(k, r) := remove_old (Z.to_nat count) v (rev q) in (k, rev r)
  else if count <? 0 then remove_old (Z.to_nat (- count)) v q
  else remove_old (length q) v q.
(** [queue] is a list from the oldest to the newest value, empty for a missing
    key; [lists_at] says that the key holds nothing else. *)
Class RedisLaws (R F : Type) `{RedisServer R F} : Type := {
  lists_at : string -> R -> bool;
  queue : string -> R -> list string;
  LPush_ok : forall now k vs r, lists_at k r = true -> vs <> [] -> exists r', r_lpush now k vs r = (Ok tt, r') /\
    queue k r' = (queue k r ++ vs)%list /\ (forall k', lists_at k' r = true -> lists_at k' r' = true) /\ forall k', k' <> k -> queue k' r' = queue k' r;
  RPop_ok : forall now k r, lists_at k r = true ->
    match queue k r with
    | [] => r_rpop now k r = (Err redis_Nil, r)
    | x :: q => exists r', r_rpop now k r = (Ok x, r') /\ queue k r' = q /\
        (forall k', lists_at k' r = true -> lists_at k' r' = true) /\ forall k', k' <> k -> queue k' r' = queue k' r
    end;
  RPopLPush_ok : forall now src dst r, lists_at src r = true -> lists_at dst r = true -> src <> dst ->
    match queue src r with
    | [] => r_rpoplpush now src dst r = (Err redis_Nil, r)
    | x :: q => exists r', r_rpoplpush now src dst r = (Ok x, r') /\ queue src r' = q /\ queue dst r' = (queue dst r ++ [x])%list /\
        (forall k', lists_at k' r = true -> lists_at k' r' = true) /\ forall k', k' <> src -> k' <> dst -> queue k' r' = queue k' r
    end;
  LRem_ok : forall now k count v r, lists_at k r = true ->
    exists r', r_lrem now k count v r = (Ok (Z.of_nat (fst (lrem count v (queue k r)))), r') /\ queue k r' = snd (lrem count v (queue k r)) /\
      (forall k', lists_at k' r = true -> lists_at k' r' = true) /\ forall k', k' <> k -> queue k' r' = queue k' r;
  SetEx_Get : forall now k v ttl r, 1000000000 <= ttl -> exists r', r_setex now k v ttl r = (Ok tt, r') /\
    forall now', now' < now + ttl / 1000000000 * 1000000000 -> r_get now' k r' = Ok v;
  ZRem_none : forall now k r, r_zrem now k [] r = (Err WrongArity, r);
}.
Lemma remove_old_perm v q : forall n, Permutation q (repeat v (fst (remove_old n v q)) ++ snd (remove_old n v q)).
Proof.
  induction q as [|x q IH]; intros [|n]; try done. cbn. unfold str_eqb. destruct (String.eqb_spec x v) as [->|Hx].
  - specialize (IH n). destruct (remove_old n v q) as [k r]. cbn in *. by rewrite <- IH.
  - specialize (IH (S n)). destruct (remove_old (S n) v q) as [k r]. cbn in *. rewrite IH at 1. apply Permutation_middle.
Qed.
Lemma lrem_perm count v q : Permutation q (repeat v (fst (lrem count v q)) ++ snd (lrem count v q)).
Proof.
  unfold lrem. destruct (0 <? count); [|destruct (count <? 0); apply remove_old_perm].
  pose proof (remove_old_perm v (rev q) (Z.to_nat count)) as Hp. destruct (remove_old _ v (rev q)) as [k r]. cbn in *.
  rewrite <- (rev_involutive q), <- (Permutation_rev (rev q)) at 1. rewrite Hp. by rewrite <- Permutation_rev.
Qed.

Section Reliable.
Context `{Env} {R F : Type} `{RedisLaws R F}.
Implicit Types w : World R.
(** A worker's use of two lists: values are put into [src], taken over into
    [dst], and removed from there when they are done with. *)
Inductive WorkOp : Type := Put (values : list string) | Take | Ack (count : Z) (v : string).
Variables (src dst : string).
(** What is put and what is acknowledged by an operation, as it is answered. *)
Definition work (o : WorkOp) : G R (list string * list string) :=
  match o with
  | Put vs => let* r := Std.LPush true src vs in pret (match r with Ok _ => vs | Err _ => [] end, [])
  | Take => let* _ := Std.RPopLPush true src dst in pret ([], [])
  | Ack count v => let* r := Std.LRem true dst count v in pret ([], match r with Ok n => repeat v (Z.to_nat n) | Err _ => [] end)
  end.
Fixpoint works (l : list WorkOp) : G R (list string * list string) :=
  match l with
  | [] => pret ([], [])
  | o :: l' => let* a := work o in let* b := works l' in pret ((fst a ++ fst b)%list, (snd a ++ snd b)%list)
  end.
Hypothesis Hne : src <> dst.
Definition held (r : R) : list string := (queue src r ++ queue dst r)%list.
Definition both_lists (r : R) : Prop := lists_at src r = true /\ lists_at dst r = true.
Definition puts_ok (o : WorkOp) : Prop := match o with Put vs => vs <> [] | _ => True end.
Lemma run_rcall {A} (f : Z -> R -> Res A * R) w :
  Std.CacheInstance true (Client.rcall f) w =
  match env_fault (calls w) with
  | Some e => (Val (Err e), mkWorld (S (calls w)) (st w))
  | None => (Val (fst (f (env_clock (calls w)) (st w))), mkWorld (S (calls w)) (snd (f (env_clock (calls w)) (st w))))
  end.
Proof.
  unfold Std.CacheInstance, plift, Client.rcall, gextr. destruct (env_fault (calls w)); [done|]. by destruct (f _ _).
Qed.
Lemma work_keeps o w : both_lists (st w) -> puts_ok o ->
  exists put ack w', work o w = (Val (put, ack), w') /\ both_lists (st w') /\ Permutation (held (st w) ++ put) (ack ++ held (st w')).
Proof.
  intros [Hs Hd] Hp. destruct o as [vs| |count v]; cbn [work]; unfold pbind, Std.LPush, Std.RPopLPush, Std.LRem, Client.LPush, Client.RPopLPush, Client.LRem;
    rewrite run_rcall; destruct (env_fault (calls w)).
  all: try (do 3 eexists; split; [reflexivity|]; split; [done|]; by rewrite app_nil_r).
  - destruct (LPush_ok (env_clock (calls w)) src vs (st w) Hs Hp) as (r' & E & Hq & Hl & Ho). rewrite E.
    do 3 eexists. split; [reflexivity|]. split; [split; by apply Hl|]. unfold held. cbn [fst snd st]. rewrite Hq, Ho by done. cbn.
    rewrite <- !app_assoc. apply Permutation_app_head, Permutation_app_comm.
  - pose proof (RPopLPush_ok (env_clock (calls w)) src dst (st w) Hs Hd Hne) as Hr. unfold held. destruct (queue src (st w)) as [|x q] eqn:Eq.
    + rewrite Hr. do 3 eexists. split; [reflexivity|]. split; [done|]. cbn [fst snd st]. by rewrite Eq, app_nil_r.
    + destruct Hr as (r' & E & Hq & Hq' & Hl & _). rewrite E. do 3 eexists. split; [reflexivity|]. split; [split; by apply Hl|].
      cbn [fst snd st]. rewrite Hq, Hq', app_nil_r. cbn. rewrite app_assoc. apply Permutation_cons_append.
  - destruct (LRem_ok (env_clock (calls w)) dst count v (st w) Hd) as (r' & E & Hq & Hl & Ho). rewrite E.
    do 3 eexists. split; [reflexivity|]. split; [split; by apply Hl|]. unfold held. cbn [fst snd st]. rewrite app_nil_r, Hq, Ho by done.
    rewrite (lrem_perm count v (queue dst (st w))) at 1. rewrite Nat2Z.id, !app_assoc. apply Permutation_app_tail, Permutation_app_comm.
Qed.
(** No value is lost or made between the two lists, whichever calls fail: what
    was there or put in is in one of the lists or has been acknowledged. *)
Theorem reliable_queue l w : both_lists (st w) -> Forall puts_ok l ->
  exists put ack w', works l w = (Val (put, ack), w') /\ Permutation (held (st w) ++ put) (ack ++ held (st w')).
Proof.
  revert w. induction l as [|o l IH]; intros w Hb Hl; cbn [works].
  - do 3 eexists. split; [reflexivity|]. by rewrite app_nil_r.
  - apply Forall_cons in Hl as [Ho Hl]. destruct (work_keeps o w Hb Ho) as (p1 & a1 & w1 & E1 & Hb1 & P1).
    destruct (IH w1 Hb1 Hl) as (p2 & a2 & w2 & E2 & P2). unfold pbind. rewrite E1. cbn [fst snd]. unfold pbind. rewrite E2.
    do 3 eexists. split; [reflexivity|]. cbn [fst snd]. rewrite app_assoc, P1, <- !app_assoc, P2. done.
Qed.

(** Values come out in the order in which they were put in, behind those that
    were there. *)
Fixpoint pops (n : nat) : G R (list (Res string)) :=
  match n with O => pret [] | S n' => let* x := Std.RPop true src in let* xs := pops n' in pret (x :: xs) end.
Lemma pops_run n : forall w, no_fault_from (calls w) -> lists_at src (st w) = true -> (n <= length (queue src (st w)))%nat ->
  exists w', pops n w = (Val (map Ok (take n (queue src (st w)))), w') /\ queue src (st w') = drop n (queue src (st w)).
Proof.
  induction n as [|n IH]; intros w Hf Hl Hn; cbn [pops].
  - exists w. by rewrite take_0, drop_0.
  - unfold pbind, Std.RPop, Client.RPop. rewrite run_rcall, no_fault_here by done.
    pose proof (RPop_ok (env_clock (calls w)) src (st w) Hl) as Hr. destruct (queue src (st w)) as [|x q]; [cbn in Hn; lia|].
    destruct Hr as (r' & E & Hq & Hl' & _). rewrite E. cbn [fst snd].
    destruct (IH (mkWorld (S (calls w)) r')) as (w' & E2 & H2').
    + eapply no_fault_le; [|exact Hf]. cbn. lia.
    + by apply Hl'.
    + cbn [st]. rewrite Hq. cbn in Hn. lia.
    + rewrite E2. exists w'. split; [|by rewrite H2'; cbn [st]; rewrite Hq]. cbn [st]. by rewrite Hq.
Qed.
Theorem push_pop_fifo vs w : no_fault_from (calls w) -> lists_at src (st w) = true -> vs <> [] ->
  exists w1 w2, Std.LPush true src vs w = (Val (Ok tt), w1) /\
    pops (length (queue src (st w)) + length vs) w1 = (Val (map Ok (queue src (st w) ++ vs)), w2) /\ queue src (st w2) = [].
Proof.
  intros Hf Hl Hv. unfold Std.LPush, Client.LPush. rewrite run_rcall, no_fault_here by done.
  destruct (LPush_ok (env_clock (calls w)) src vs (st w) Hl Hv) as (r' & E & Hq & Hl' & _). rewrite E. cbn [fst snd].
  destruct (pops_run (length (queue src (st w)) + length vs) (mkWorld (S (calls w)) r')) as (w2 & E2 & H2').
  - eapply no_fault_le; [|exact Hf]. cbn. lia.
  - by apply Hl'.
  - cbn [st]. rewrite Hq, length_app. lia.
  - exists (mkWorld (S (calls w)) r'), w2. split; [done|]. cbn [st] in *. rewrite Hq, take_ge, drop_ge in * by (rewrite length_app; lia). done.
Qed.
(** The package's [ZRem] removes nothing: it sends no members, which the server
    refuses. *)
Theorem ZRem_refused key members w : no_fault_from (calls w) ->
  Std.ZRem true key members w = (Val (Err WrongArity), mkWorld (S (calls w)) (st w)).
Proof. intros Hf. unfold Std.ZRem, Client.ZRem. by rewrite run_rcall, no_fault_here, ZRem_none by done. Qed.
(** A value of JSON that is set is got back while the key lives, its texts made
    valid UTF-8; the life is the whole seconds of the duration. *)
Theorem JSON_round_trip key v expired w : no_fault_from (calls w) -> well_formed v = true -> 1000000000 <= expired ->
  env_clock (S (calls w)) < env_clock (calls w) + expired / 1000000000 * 1000000000 ->
  exists w1, Std.SetJSON true key v expired w = (Val (Ok tt), w1) /\
    Std.GetJSON true key w1 = (Val (Ok (clean v)), mkWorld (S (calls w1)) (st w1)).
Proof.
  intros Hf Hv He Hc. unfold Std.SetJSON, Std.SetString, Client.SetEx. rewrite run_rcall, no_fault_here by done.
  destruct (SetEx_Get (env_clock (calls w)) key (print_s v) expired (st w) He) as (r' & E & Hg). rewrite E. cbn [fst snd].
  eexists. split; [reflexivity|]. unfold Std.GetJSON, pbind, Std.GetString, Client.Get, Client.rread. rewrite run_rcall.
  cbn [calls st]. rewrite (Hf (S (calls w))) by lia. cbn [fst snd]. rewrite Hg by done. unfold Std.Unmarshal. by rewrite parse_print_s.
Qed.
(** Without [InitCache] every function of the package panics. *)
Theorem no_cache_panics {A} (m : M R A) w : Std.CacheInstance false m w = (Panic "redis cache is nil", w).
Proof. done. Qed.
End Reliable.

(** * A server in memory, for the commands that the laws speak of *)
Module MemServer.
Record Mem : Type := mkMem { strs : gmap string (string * Z); lsts : gmap string (list string) }.
Definition NotThere : error := ErrVar "ERR unknown command".
Definition wrong_type : error := ErrVar "WRONGTYPE Operation against a key holding the wrong kind of value".
Definition q_of (k : string) (r : Mem) : list string := default [] (r.(lsts) !! k).
Definition set_q (k : string) (q : list string) (r : Mem) : Mem := mkMem r.(strs) (<[k := q]> r.(lsts)).
Definition is_list (k : string) (r : Mem) : bool := bool_decide (r.(strs) !! k = None).
Definition on_list {A} (k : string) (r : Mem) (f : list string -> Res A * Mem) : Res A * Mem :=
  if is_list k r then f (q_of k r) else (Err wrong_type, r).
#[global] Instance mem_server : RedisServer Mem Z := {
  r_exists now k r := Ok (match r.(strs) !! k with Some (_, d) => if now <? d then 1 else 0 | None => if (length (q_of k r) =? 0)%nat then 0 else 1 end);
  r_ttl now k r := Ok (match r.(strs) !! k with Some (_, d) => if now <? d then d - now else -2 | None => -1 end);
  r_get now k r := match r.(strs) !! k with Some (v, d) => if now <? d then Ok v else Err redis_Nil | None => Err redis_Nil end;
  r_setex now k v ttl r := (Ok tt, mkMem (<[k := (v, now + ttl / 1000000000 * 1000000000)]> r.(strs)) (delete k r.(lsts)));
  r_setnx now k v ttl r := match r.(strs) !! k with
                           | Some _ => (Ok false, r)
                           | None => (Ok true, mkMem (<[k := (v, now + ttl)]> r.(strs)) (delete k r.(lsts)))
                           end;
  r_del now k r := (Ok tt, mkMem (delete k r.(strs)) (delete k r.(lsts)));
  r_lpush now k vs r := on_list k r (fun q => (Ok tt, set_q k (q ++ vs) r));
  r_rpop now k r := on_list k r (fun q => match q with [] => (Err redis_Nil, r) | x :: q' => (Ok x, set_q k q' r) end);
  r_rpoplpush now src dst r := on_list src r (fun q => match q with
    | [] => (Err redis_Nil, r)
    | x :: q' => let r' := set_q src q' r in on_list dst r' (fun p => (Ok x, set_q dst (p ++ [x]) r'))
    end);
  r_lrem now k count v r := on_list k r (fun q => let '(n, q') := lrem count v q in (Ok (Z.of_nat n), set_q k q' r));
  r_zadd _ _ _ r := (Err NotThere, r); r_zcount _ _ _ _ _ := Err NotThere; r_zincrby _ _ _ _ r := (Err NotThere, r);
  r_zrange_scores _ _ _ _ _ := Err NotThere; r_zrange _ _ _ _ _ := Err NotThere; r_zrangebyscore _ _ _ _ := Err NotThere;
  r_zrangebyscore_scores _ _ _ _ := Err NotThere;
  r_zrem _ _ l r := (match l with [] => Err WrongArity | _ => Ok 0 end, r);
  r_hdel _ _ _ r := (Err NotThere, r); r_hexists _ _ _ _ := Err NotThere; r_hget _ _ _ _ := Err NotThere;
  r_hset _ _ _ r := (Err NotThere, r); r_hsetnx _ _ _ _ r := (Err NotThere, r);
}.
Lemma q_set k q r : q_of k (set_q k q r) = q.
Proof. unfold q_of, set_q. cbn. by rewrite lookup_insert_eq. Qed.
Lemma q_set_ne k k' q r : k' <> k -> q_of k' (set_q k q r) = q_of k' r.
Proof. intros Hk. unfold q_of, set_q. cbn. by rewrite lookup_insert_ne. Qed.
#[global] Instance mem_laws : RedisLaws Mem Z.
Proof.
  refine (@Build_RedisLaws Mem Z mem_server is_list q_of _ _ _ _ _ _); try done.
  - intros now k vs r Hl _. cbn. unfold on_list. rewrite Hl. eexists. split; [reflexivity|]. split; [apply q_set|]. split; [done|]. intros k'. apply q_set_ne.
  - intros now k r Hl. cbn. unfold on_list. rewrite Hl. destruct (q_of k r) as [|x q]; [done|]. eexists. split; [reflexivity|]. split; [apply q_set|]. split; [done|].
    intros k'. apply q_set_ne.
  - intros now src dst r Hs Hd Hne. cbn. unfold on_list. rewrite Hs. destruct (q_of src r) as [|x q]; [done|].
    change (is_list dst (set_q src q r)) with (is_list dst r). rewrite Hd. eexists. split; [reflexivity|]. split_and!; try done.
    + by rewrite q_set_ne, q_set.
    + by rewrite q_set, q_set_ne.
    + intros k' H1 H2. by rewrite !q_set_ne.
  - intros now k count v r Hl. cbn. unfold on_list. rewrite Hl. destruct (lrem count v (q_of k r)) as [n q]. eexists. split; [reflexivity|].
    split; [apply q_set|]. split; [done|]. intros k'. apply q_set_ne.
  - intros now k v ttl r Ht. cbn. eexists. split; [reflexivity|]. intros now' Hn. cbn. rewrite lookup_insert_eq. by rewrite (proj2 (Z.ltb_lt _ _)).
Defined.
End MemServer.
Definition two_lists : World MemServer.Mem := mkWorld 0 (MemServer.mkMem ∅ {[ "todo" := ["a"] ]}).
Definition a_shift : list WorkOp := [Put ["b"; "a"]; Take; Take; Ack 1 "a"; Take].
Lemma reliable_queue_witness : exists put ack w', works (H := faultEnv 2 (ErrVar "timeout")) "todo" "doing" a_shift two_lists = (Val (put, ack), w') /\
  Permutation (held (H1 := MemServer.mem_laws) "todo" "doing" (st two_lists) ++ put) (ack ++ held (H1 := MemServer.mem_laws) "todo" "doing" (st w')).
Proof.
  apply (reliable_queue (H := faultEnv 2 (ErrVar "timeout")) "todo" "doing" ltac:(by intros [=]) a_shift two_lists).
  - split; reflexivity.
  - by repeat constructor.
Defined.
Lemma push_pop_fifo_witness : exists w1 w2, Std.LPush (H := quietEnv) true "todo" ["b"; "c"] two_lists = (Val (Ok tt), w1) /\
  pops (H := quietEnv) "todo" 3 w1 = (Val [Ok "a"; Ok "b"; Ok "c"], w2).
Proof.
  destruct (push_pop_fifo (H := quietEnv) "todo" ["b"; "c"] two_lists) as (w1 & w2 & E1 & E2 & _); [apply quietEnv_ok|reflexivity|by intros [=]|].
  exists w1, w2. split; [exact E1|exact E2].
Defined.
Lemma ZRem_refused_witness : fst (Std.ZRem (H := quietEnv) true "scores" ["a"; "b"] two_lists) = Val (Err WrongArity).
Proof. rewrite (ZRem_refused (H := quietEnv) "scores" ["a"; "b"] two_lists (quietEnv_ok 0)). reflexivity. Defined.
Definition a_value : json := JObj [("n", JNum "1")].
Lemma JSON_round_trip_witness : exists w1 w2, Std.SetJSON (H := quietEnv) true "k" a_value 5000000000 two_lists = (Val (Ok tt), w1) /\
  Std.GetJSON (H := quietEnv) true "k" w1 = (Val (Ok (clean a_value)), w2).
Proof.
  destruct (JSON_round_trip (H := quietEnv) "k" a_value 5000000000 two_lists) as (w1 & E1 & E2); [apply quietEnv_ok|vm_compute; reflexivity|lia|vm_compute; reflexivity|].
  exists w1. eexists. split; [exact E1|exact E2].
Defined.
