(* ===== verification/Types.v ===== *)
(** [src/types]: lists of texts and of numbers kept as JSON in a column, the
    three-valued [Bool], encrypted texts and ids, and the small helpers.  The
    JSON text is that of [JsonText], the encryption that of [Crypto]. *)
From S2P Require Import Prelude Json Regexp JsonText Crypto.
#[local] Open Scope string_scope.
#[local] Open Scope Z_scope.

(** * [utils.go] *)
Fixpoint ContainsString (arr : list string) (str : string) : bool :=
  match arr with [] => false | v :: arr' => if str_eqb v str then true else ContainsString arr' str end.
Definition InStringSlice (str : string) (arr : list string) : bool := ContainsString arr str.
Fixpoint InUintSlice (num : Z) (arr : list Z) : bool :=
  match arr with [] => false | v :: arr' => if v =? num then true else InUintSlice num arr' end.
(** A value by its kind; [sized]: an integer or a float of a type other than
    [int], [uint] and [float64]; [named]: of a defined type. *)
Inductive GoValue : Type :=
| GoNil | GoString (named : bool) (s : string) | GoNilPtr | GoPtrString (named : bool) (s : string)
| GoPtrInt (sized : bool) (z : Z) | GoPtrUint (sized : bool) (z : Z) | GoPtrFloat (sized : bool) (printed : string)
| GoPtrOther | GoOther (printed : string).
Definition conversion : string := "interface conversion".
(** The type assertions take the exact type, which the kind does not tell. *)
Definition MustString (s : GoValue) : Panics string :=
  match s with
  | GoNil | GoNilPtr | GoPtrOther => Val ""
  | GoString named s | GoPtrString named s => if named then Panic conversion else Val s
  | GoPtrInt sized z | GoPtrUint sized z => if sized then Panic conversion else Val (fmt_d z)
  | GoPtrFloat sized p => if sized then Panic conversion else Val p
  | GoOther p => Val p
  end.

(** * [array_string.go], [array_uint.go]: a list as its JSON text *)
(** [json.Unmarshal] into an empty slice whose error is only logged: a text
    that is no JSON leaves it empty, an element of a wrong type is the zero
    value. *)
Definition decode_slice {A} (elem : json -> A) (text : string) : list A :=
  match parse_s text with Some (JArr l) => map elem l | _ => [] end.
Definition is_null (text : string) : bool := match parse_s text with Some JNull => true | _ => false end.
Definition elem_string (j : json) : string := match j with JStr s => s | _ => "" end.
Definition elem_uint (j : json) : Z := match j with JNum n => default 0 (ParseUint n) | _ => 0 end.

Module StringArray.
Definition NewStringArray (v : list string) : string :=
  match v with [] => "" | _ => print_s (JArr (map JStr v)) end.
Definition Slice (i : string) : list string := if str_eqb i "" then [] else decode_slice elem_string i.
(** A null leaves a nil slice, which is written as null. *)
Definition MarshalJSON (i : string) : string := if is_null i then "null" else print_s (JArr (map JStr (Slice i))).
Definition UnmarshalJSON (data : string) : string := data.
Definition First (i : string) : string := match Slice i with [] => "" | s :: _ => s end.
Definition Add (item : string) (i : string) : string := NewStringArray (Slice i ++ [item])%list.
Definition Remove (item : string) (i : string) : string :=
  NewStringArray (List.filter (fun v => negb (str_eqb v item)) (Slice i)).
Definition Contains (i : string) (value : string) : bool := existsb (fun v => str_eqb v value) (Slice i).
(** The set of those that were seen. *)
Fixpoint dedup (seen : list string) (arr : list string) : list string :=
  match arr with
  | [] => []
  | v :: arr' => if existsb (str_eqb v) seen then dedup seen arr' else v :: dedup (v :: seen) arr'
  end.
Definition RemoveDuplicates (i : string) : string := NewStringArray (dedup [] (Slice i)).
End StringArray.

Module UintArray.
Definition numbers (v : list Z) : json := JArr (map (fun n => JNum (fmt_d n)) v).
Definition NewUintArray (v : list Z) : string := match v with [] => "[]" | _ => print_s (numbers v) end.
Definition Slice (i : string) : list Z :=
  if str_eqb i "" || str_eqb i "null" then [] else decode_slice elem_uint i.
Definition MarshalJSON (i : string) : string :=
  if is_null i && negb (str_eqb i "null") then "null" else print_s (numbers (Slice i)).
Definition UnmarshalJSON (data : string) : string := data.
Definition Append (value : Z) (i : string) : string := NewUintArray (Slice i ++ [value])%list.
Definition Remove (item : Z) (i : string) : string := NewUintArray (List.filter (fun v => negb (v =? item)) (Slice i)).
Definition Contains (i : string) (value : Z) : bool := existsb (fun v => v =? value) (Slice i).
Fixpoint dedup (seen arr : list Z) : list Z :=
  match arr with
  | [] => []
  | v :: arr' => if existsb (Z.eqb v) seen then dedup seen arr' else v :: dedup (v :: seen) arr'
  end.
Definition RemoveDuplicates (i : string) : string := NewUintArray (dedup [] (Slice i)).
End UintArray.

(** * [boolean.go] *)
Definition False_ : Z := -1.
Definition True_ : Z := 1.
Definition Any : Z := 2.
Definition NewBool (v : bool) : Z := if v then True_ else False_.
Definition ToString (x : Z) : string :=
  if x =? False_ then "FALSE" else if x =? True_ then "TRUE" else if x =? Any then "ANY" else "FALSE".
Definition Bool_Value (b : Z) : bool := b =? True_.
(** [strconv.ParseBool]. *)
Definition ParseBool (s : string) : option bool :=
  if existsb (str_eqb s) ["1"; "t"; "T"; "true"; "TRUE"; "True"] then Some true
  else if existsb (str_eqb s) ["0"; "f"; "F"; "false"; "FALSE"; "False"] then Some false else None.
Definition Bool_MarshalJSON (b : Z) : string := print_s (JBool (Bool_Value b)).
Definition Bool_UnmarshalJSON (old : Z) (data : string) : Res Z :=
  match ParseBool data with
  | Some v => Ok (NewBool v)
  | None => Err (ErrNew ("strconv.ParseBool: parsing " ++ String quote_char (data ++ String quote_char ": invalid syntax")))
  end.

(** * [secret.go] *)
Section Secret.
Context `{BlockCipher} `{Base58} `{Gzip}.
Definition secretKey : bytes := bytes_of "q84n7hz7k4b4tcb0".
Definition encryptorPrefix : string := "enc:".
(** [rnd]: what the random source gives for the initial vector. *)
Definition enc (rnd : Res bytes) (data : bytes) : Out string := BlowfishEncryptToBase58 rnd secretKey data.
Definition dec (str : string) : Out bytes := BlowfishDecryptFromBase58 secretKey str.
Definition Secret_Enc (rnd : Res bytes) (s : string) : Panics string :=
  if has_prefix encryptorPrefix s then Val s
  else match enc rnd (bytes_of s) with
       | Val (Ok e) => Val (encryptorPrefix ++ e)
       | Val (Err _) => Val s
       | Panic v => Panic v
       end.
Definition Secret_Dec (s : string) : Panics string :=
  if negb (has_prefix encryptorPrefix s) then Val s
  else match dec (str_drop (String.length encryptorPrefix) s) with
       | Val (Ok d) => Val (string_of d)
       | Val (Err _) => Val s
       | Panic v => Panic v
       end.

(** [big.Int]: the bytes of the absolute value, without leading zeros. *)
Fixpoint be_bytes (fuel : nat) (n : Z) : bytes :=
  match fuel with
  | O => []
  | S fuel' => if n =? 0 then [] else (be_bytes fuel' (n / 256) ++ [n mod 256])%list
  end.
Definition big_Bytes (z : Z) : bytes := be_bytes 8 (Z.abs z).
Definition SetBytes (b : bytes) : Z := fold_left (fun acc x => acc * 256 + x) b 0.
Definition Int64 (z : Z) : Z := wrap_i64 z.
Definition wrap_u64 (z : Z) : Z := z mod two64.

Definition SafeID_Enc (rnd : Res bytes) (id : Z) : Panics string :=
  match enc rnd (big_Bytes (wrap_i64 id)) with
  | Val (Ok e) => Val e
  | Val (Err _) => Val ""
  | Panic v => Panic v
  end.
(** An error leaves the id as it was. *)
Definition SafeID_Dec (old : Z) (idstr : string) : Panics Z :=
  match dec idstr with
  | Val (Ok d) => Val (wrap_u64 (Int64 (SetBytes d)))
  | Val (Err _) => Val old
  | Panic v => Panic v
  end.
Definition SafeID_MarshalJSON (rnd : Res bytes) (id : Z) : Panics string :=
  match SafeID_Enc rnd id with Val e => Val (print_s (JStr e)) | Panic v => Panic v end.
Definition SafeID_UnmarshalJSON (old : Z) (data : string) : Out Z :=
  match parse_s data with
  | None => oerr (ErrVar "invalid character in JSON")
  | Some j => match d_string "" j with
              | Err e => oerr e
              | Ok idstr => letx d := dec idstr in oret (wrap_u64 (Int64 (SetBytes d)))
              end
  end.
End Secret.

(** * Lists in a column *)
Lemma valid_text_read (i : string) l : parse_s i = Some (JArr l) -> map elem_string (map clean l) = map valid_text (map elem_string l) /\ map clean l = l.
Proof.
  intros H. apply parse_clean in H; [|apply rune_bytes_bytes]. injection H as H. split; [|done].
  rewrite !map_map. apply map_ext. intros []; done.
Qed.
Lemma Slice_valid i : map valid_text (StringArray.Slice i) = StringArray.Slice i.
Proof.
  unfold StringArray.Slice, decode_slice. destruct (str_eqb i ""); [done|]. destruct (parse_s i) as [[| | | |l|]|] eqn:E; try done.
  destruct (valid_text_read i l E) as [H1 H2]. by rewrite <- H1, H2.
Qed.
Lemma print_array_not_empty l : str_eqb (print_s (JArr l)) "" = false.
Proof. done. Qed.
Lemma Slice_New v : StringArray.Slice (StringArray.NewStringArray v) = map valid_text v.
Proof.
  destruct v as [|s v]; [done|]. unfold StringArray.NewStringArray, StringArray.Slice. rewrite print_array_not_empty.
  unfold decode_slice. rewrite parse_print_s.
  - cbn [clean]. rewrite !map_map. by apply map_ext.
  - cbn [well_formed]. apply forallb_forall. by intros j (x & <- & _)%in_map_iff.
Qed.
Lemma Slice_New_valid v : map valid_text v = v -> StringArray.Slice (StringArray.NewStringArray v) = v.
Proof. intros H. by rewrite Slice_New. Qed.
Lemma map_filter_id {A} (f : A -> A) (p : A -> bool) l : map f l = l -> map f (List.filter p l) = List.filter p l.
Proof.
  induction l as [|x l IH]; [done|]. cbn. intros [= Hx Hl]. destruct (p x); cbn; rewrite IH by done; congruence.
Qed.

Lemma existsb_eqb {A} (eqb : A -> A -> bool) (H : forall a b, eqb a b = true <-> a = b) v l : existsb (fun x => eqb x v) l = true <-> v ∈ l.
Proof. rewrite existsb_exists, list_elem_of_In. split; [intros (x & Hx & E); by apply H in E as ->|intros Hv; exists v; split; [done|by apply H]]. Qed.
Lemma string_dedup seen arr : NoDup (StringArray.dedup seen arr) /\ forall v, v ∈ StringArray.dedup seen arr <-> v ∈ arr /\ v ∉ seen.
Proof.
  revert seen. induction arr as [|x arr IH]; intros seen; cbn [StringArray.dedup]; [split; [constructor|set_solver]|].
  destruct (existsb _ seen) eqn:E.
  - apply existsb_exists in E as (y & Hy & E). apply String.eqb_eq in E as <-. apply list_elem_of_In in Hy.
    destruct (IH seen) as [H1 H2]. split; [done|]. intros v. rewrite H2. set_solver.
  - assert (Hx : x ∉ seen).
    { intros Hx. apply list_elem_of_In in Hx. assert (existsb (str_eqb x) seen = true) by (apply existsb_exists; exists x; split; [done|apply String.eqb_refl]). congruence. }
    destruct (IH (x :: seen)) as [H1 H2]. split; [constructor; [rewrite H2; set_solver|done]|].
    intros v. rewrite elem_of_cons, H2. destruct (decide (v = x)); set_solver.
Qed.
Lemma uint_dedup seen arr : NoDup (UintArray.dedup seen arr) /\ forall v, v ∈ UintArray.dedup seen arr <-> v ∈ arr /\ v ∉ seen.
Proof.
  revert seen. induction arr as [|x arr IH]; intros seen; cbn [UintArray.dedup]; [split; [constructor|set_solver]|].
  destruct (existsb _ seen) eqn:E.
  - apply existsb_exists in E as (y & Hy & E). apply Z.eqb_eq in E as <-. apply list_elem_of_In in Hy.
    destruct (IH seen) as [H1 H2]. split; [done|]. intros v. rewrite H2. set_solver.
  - assert (Hx : x ∉ seen).
    { intros Hx. apply list_elem_of_In in Hx. assert (existsb (Z.eqb x) seen = true) by (apply existsb_exists; exists x; split; [done|apply Z.eqb_refl]). congruence. }
    destruct (IH (x :: seen)) as [H1 H2]. split; [constructor; [rewrite H2; set_solver|done]|].
    intros v. rewrite elem_of_cons, H2. destruct (decide (v = x)); set_solver.
Qed.
Lemma map_id_In {A} (f : A -> A) l : (forall x, x ∈ l -> f x = x) -> map f l = l.
Proof. intros H. induction l as [|x l IH]; [done|]. cbn. rewrite H, IH by set_solver. done. Qed.
Lemma map_id_elem {A} (f : A -> A) l x : map f l = l -> x ∈ l -> f x = x.
Proof. induction l as [|y l IH]; [set_solver|]. cbn. intros [= Hy Hl] [->|Hx]%elem_of_cons; [done|by apply IH]. Qed.

(** C31: A list of texts in a column: whatever text the column holds (any JSON
    or none), its operations are those of the list it stands for: making,
    adding at the end, removing every copy, looking up, the first element, and
    removing duplicates; an added text has its bytes that are not UTF-8
    replaced. *)
Theorem string_array_refines (i item : string) (v : list string) :
  StringArray.Slice (StringArray.NewStringArray v) = map valid_text v /\
  StringArray.Slice (StringArray.Add item i) = (StringArray.Slice i ++ [valid_text item])%list /\
  StringArray.Slice (StringArray.Remove item i) = List.filter (fun x => negb (str_eqb x item)) (StringArray.Slice i) /\
  (StringArray.Contains i item = true <-> item ∈ StringArray.Slice i) /\
  StringArray.First i = hd "" (StringArray.Slice i) /\
  NoDup (StringArray.Slice (StringArray.RemoveDuplicates i)) /\
  (forall x, x ∈ StringArray.Slice (StringArray.RemoveDuplicates i) <-> x ∈ StringArray.Slice i) /\
  StringArray.Slice (StringArray.UnmarshalJSON (StringArray.MarshalJSON i)) = StringArray.Slice i.
Proof.
  destruct (string_dedup [] (StringArray.Slice i)) as [Hd1 Hd2].
  assert (Hd : StringArray.Slice (StringArray.RemoveDuplicates i) = StringArray.dedup [] (StringArray.Slice i)).
  { apply Slice_New_valid. apply map_id_In. intros x Hx. apply Hd2 in Hx as [Hx _]. by apply (map_id_elem _ _ _ (Slice_valid i)). }
  rewrite Hd. split; [apply Slice_New|]. split; [|split; [|split; [|split; [|split; [|split]]]]].
  - unfold StringArray.Add. by rewrite Slice_New, map_app, Slice_valid.
  - apply Slice_New_valid, map_filter_id, Slice_valid.
  - apply (existsb_eqb str_eqb). apply String.eqb_eq.
  - unfold StringArray.First. by destruct (StringArray.Slice i).
  - done.
  - intros x. rewrite Hd2. set_solver.
  - unfold StringArray.UnmarshalJSON, StringArray.MarshalJSON. destruct (is_null i) eqn:E.
    + unfold is_null in E. unfold StringArray.Slice, decode_slice. destruct (parse_s i) as [[]|]; try done. by destruct (str_eqb i "").
    + destruct (decide (StringArray.Slice i = [])) as [->|Hn]; [done|].
      pose proof (Slice_New_valid _ (Slice_valid i)) as H. unfold StringArray.NewStringArray in H. destruct (StringArray.Slice i); done.
Qed.

(** * Numbers in a column *)
Definition is_uint (z : Z) : Prop := 0 <= z < two64.
Lemma uint_read v : Forall is_uint v -> parse_s (print_s (UintArray.numbers v)) = Some (UintArray.numbers v) /\ map elem_uint (map (fun n => JNum (fmt_d n)) v) = v.
Proof.
  intros Hv. split.
  - unfold UintArray.numbers. rewrite parse_print_s.
    + cbn [clean]. rewrite map_map. reflexivity.
    + cbn [well_formed]. apply forallb_forall. intros j (n & <- & Hn)%in_map_iff. cbn. apply number_text_fmt_d.
      apply list_elem_of_In in Hn. eapply Forall_forall in Hv; [|exact Hn]. unfold is_uint in Hv. lia.
  - induction Hv as [|n v Hn Hv IH]; [done|]. cbn [map]. rewrite IH. cbn [elem_uint]. by rewrite ParseUint_fmt_d.
Qed.
Lemma Slice_New_uint v : Forall is_uint v -> UintArray.Slice (UintArray.NewUintArray v) = v.
Proof.
  intros Hv. destruct v as [|n v]; [done|]. destruct (uint_read (n :: v) Hv) as [H1 H2].
  unfold UintArray.NewUintArray, UintArray.Slice. change (str_eqb (print_s (UintArray.numbers (n :: v))) "" || _) with false. cbv iota.
  unfold decode_slice. rewrite H1. exact H2.
Qed.
Lemma Slice_uint i : Forall is_uint (UintArray.Slice i).
Proof.
  unfold UintArray.Slice, decode_slice. destruct (_ || _); [constructor|]. destruct (parse_s i) as [[| | | |l|]|]; try constructor.
  apply Forall_map, Forall_forall. intros j _. unfold elem_uint, is_uint. destruct j; try (unfold two64; lia).
  destruct (ParseUint literal) as [z|] eqn:E; cbn; [|unfold two64; lia]. unfold ParseUint in E. repeat case_match; simplify_eq. lia.
Qed.

(** A list of numbers in a column: its operations are those of the list of
    64-bit unsigned numbers it stands for, whatever text the column holds. *)
Theorem uint_array_refines (i : string) (value : Z) (v : list Z) :
  is_uint value -> Forall is_uint v ->
  UintArray.Slice (UintArray.NewUintArray v) = v /\
  UintArray.Slice (UintArray.Append value i) = (UintArray.Slice i ++ [value])%list /\
  UintArray.Slice (UintArray.Remove value i) = List.filter (fun x => negb (x =? value)) (UintArray.Slice i) /\
  (UintArray.Contains i value = true <-> value ∈ UintArray.Slice i) /\
  NoDup (UintArray.Slice (UintArray.RemoveDuplicates i)) /\
  (forall x, x ∈ UintArray.Slice (UintArray.RemoveDuplicates i) <-> x ∈ UintArray.Slice i) /\
  UintArray.Slice (UintArray.UnmarshalJSON (UintArray.MarshalJSON i)) = UintArray.Slice i.
Proof.
  intros Hval Hv. pose proof (Slice_uint i) as Hi. destruct (uint_dedup [] (UintArray.Slice i)) as [Hd1 Hd2].
  assert (Hd : UintArray.Slice (UintArray.RemoveDuplicates i) = UintArray.dedup [] (UintArray.Slice i)).
  { apply Slice_New_uint. apply Forall_forall. intros x Hx. apply Hd2 in Hx as [Hx _]. by eapply Forall_forall in Hi. }
  rewrite Hd. split; [by apply Slice_New_uint|]. split; [|split; [|split; [|split; [|split]]]].
  - apply Slice_New_uint, Forall_app. split; [done|]. constructor; [done|constructor].
  - apply Slice_New_uint. apply Forall_forall. intros x Hx. apply list_elem_of_In, filter_In in Hx as [Hx _].
    apply list_elem_of_In in Hx. by eapply Forall_forall in Hi.
  - apply (existsb_eqb Z.eqb). apply Z.eqb_eq.
  - done.
  - intros x. rewrite Hd2. set_solver.
  - unfold UintArray.UnmarshalJSON, UintArray.MarshalJSON. destruct (is_null i && _) eqn:E.
    + apply andb_true_iff in E as [E _]. unfold is_null in E. change (UintArray.Slice "null") with (@nil Z). unfold UintArray.Slice, decode_slice. destruct (parse_s i) as [[]|]; try done. by destruct (_ || _).
    + pose proof (Slice_New_uint _ Hi) as H. unfold UintArray.NewUintArray in H. by destruct (UintArray.Slice i).
Qed.
Lemma uint_array_refines_witness :
  UintArray.Slice (UintArray.NewUintArray [0; 18446744073709551615]) = [0; 18446744073709551615] /\
  UintArray.Slice (UintArray.Append 7 "[1, -2]") = [1; 0; 7].
Proof.
  assert (H7 : is_uint 7) by (split; reflexivity || discriminate).
  assert (Hv : Forall is_uint [0; 18446744073709551615]) by (repeat constructor; discriminate).
  destruct (uint_array_refines "[1, -2]" 7 _ H7 Hv) as (H1 & H2 & _). split; [exact H1|]. rewrite H2. vm_compute. reflexivity.
Defined.

(** * Bool *)
(** [Bool] in JSON: what is written for any of its values is read back as
    the same truth value, as true or false and never as the unset or the [Any]
    of the database. *)
Theorem bool_json_round_trip (b old : Z) :
  Bool_UnmarshalJSON old (Bool_MarshalJSON b) = Ok (NewBool (Bool_Value b)) /\ Bool_Value (NewBool (Bool_Value b)) = Bool_Value b.
Proof. unfold Bool_MarshalJSON. by destruct (Bool_Value b). Qed.

(** * Secrets and ids *)
Lemma be_bytes_byte fuel n : Forall is_byte (be_bytes fuel n).
Proof.
  revert n. induction fuel as [|fuel IH]; intros n; cbn [be_bytes]; [constructor|]. destruct (n =? 0); [constructor|].
  apply Forall_app. split; [apply IH|]. constructor; [|constructor]. unfold is_byte. Z.div_mod_to_equations. lia.
Qed.
Lemma SetBytes_be fuel n : 0 <= n < 256 ^ Z.of_nat fuel -> SetBytes (be_bytes fuel n) = n.
Proof.
  unfold SetBytes. revert n. induction fuel as [|fuel IH]; intros n Hn; cbn [be_bytes]; [cbn in Hn |- *; lia|].
  destruct (Z.eqb_spec n 0) as [->|H0]; [done|]. rewrite fold_left_app. cbn [fold_left].
  rewrite Nat2Z.inj_succ, Z.pow_succ_r in Hn by lia. rewrite IH by (Z.div_mod_to_equations; lia). Z.div_mod_to_equations. lia.
Qed.

Section SecretOk.
Context `{B : BlockCipher} `{!BlockCipherOk B} `{B58 : Base58} `{Gz : Gzip} `{!ArmourOk B58 Gz}.
Hypotheses (Hkey : NewCipher secretKey = None) (Hsize : (BlockSize <= 16)%nat).

Lemma enc_dec iv data :
  length iv = BlockSize -> Forall is_byte iv -> Forall is_byte data ->
  exists s, enc (Ok iv) data = oret s /\ dec s = oret data.
Proof.
  intros Hl Hiv Hd. unfold enc, dec. apply armoured_round_trip; [exact Hkey|lia|exact Hl| |apply bytes_of_bytes|exact Hiv|exact Hd].
  change (length secretKey) with 16%nat. lia.
Qed.

(** Secrets: a text that is not marked is encrypted to one with the mark,
    which encrypting again leaves alone and decrypting turns back into the
    text; decrypting leaves a text without the mark alone. *)
Theorem Secret_round_trip iv s :
  length iv = BlockSize -> Forall is_byte iv -> has_prefix encryptorPrefix s = false ->
  exists e, Secret_Enc (Ok iv) s = Val e /\ has_prefix encryptorPrefix e = true /\
    (forall rnd, Secret_Enc rnd e = Val e) /\ Secret_Dec e = Val s /\ Secret_Dec s = Val s.
Proof.
  intros Hl Hiv Hs. destruct (enc_dec iv (bytes_of s) Hl Hiv (bytes_of_bytes s)) as (c & Hc & Hdec).
  exists (encryptorPrefix ++ c)%string. unfold Secret_Enc, Secret_Dec. rewrite Hs, Hc, has_prefix_app, str_drop_app. cbn [negb].
  rewrite Hdec. cbn [oret]. rewrite string_of_bytes_of. by repeat split.
Qed.

(** Safe ids: an id below 2^63 is encrypted to a text that decrypts to it,
    whatever the id was before, also through JSON; from 2^63 on the text
    decrypts to another id, 2^64 minus it. *)
Theorem SafeID_round_trip iv id old :
  length iv = BlockSize -> Forall is_byte iv -> 0 <= id < two64 ->
  (forall b, Forall is_byte b -> valid_text (base58_Encode b) = base58_Encode b) ->
  exists e, SafeID_Enc (Ok iv) id = Val e /\
    SafeID_Dec old e = Val (if id <? two63 then id else two64 - id) /\
    SafeID_MarshalJSON (Ok iv) id = Val (print_s (JStr e)) /\
    SafeID_UnmarshalJSON old (print_s (JStr e)) = oret (if id <? two63 then id else two64 - id).
Proof.
  intros Hl Hiv Hid H58. destruct (enc_dec iv (big_Bytes (wrap_i64 id)) Hl Hiv (be_bytes_byte 8 _)) as (e & He & Hd).
  assert (Hv : wrap_u64 (Int64 (SetBytes (big_Bytes (wrap_i64 id)))) = if id <? two63 then id else two64 - id).
  { unfold big_Bytes. pose proof (wrap_i64_range id) as Hr. unfold two63, two64 in *.
    assert (Ha : Z.abs (wrap_i64 id) = if id <? 9223372036854775808 then id else 18446744073709551616 - id).
    { destruct (Z.ltb_spec id 9223372036854775808); [rewrite wrap_i64_id by (unfold two63; lia); lia|].
      unfold wrap_i64, two63, two64. replace (id + 9223372036854775808) with (id - 9223372036854775808 + 1 * 18446744073709551616) by lia.
      rewrite Z_mod_plus_full, Z.mod_small by lia. lia. }
    rewrite SetBytes_be by (change (256 ^ Z.of_nat 8) with 18446744073709551616; rewrite Ha; destruct (_ <? _) eqn:E; lia).
    rewrite Ha. unfold Int64, wrap_u64, wrap_i64, two63, two64. destruct (Z.ltb_spec id 9223372036854775808) as [H|H]; [|
      destruct (decide (id = 9223372036854775808)) as [->|]; [done|]].
    all: rewrite (Z.mod_small (_ + 9223372036854775808)) by lia; rewrite Z.mod_small by lia; lia. }
  exists e. unfold SafeID_Enc. rewrite He. cbn [oret]. split; [done|]. unfold SafeID_Dec. rewrite Hd. cbn [oret]. rewrite Hv. split; [done|].
  unfold SafeID_MarshalJSON, SafeID_Enc. rewrite He. split; [done|]. unfold SafeID_UnmarshalJSON.
  rewrite parse_print_s by done. cbn [clean d_string].
  assert (Hve : valid_text e = e).
  { revert He. unfold enc, BlowfishEncryptToBase58. destruct (new_cipher secretKey) as [[u|]|]; try done. cbn [obind].
    set (c := (iv ++ _)%list). assert (Hc : Forall is_byte c) by (apply Forall_app; split; [done|]; apply cfb_enc_bytes; [lia|done|apply be_bytes_byte]).
    destruct (gzip_undone c Hc) as (z & -> & Hz & _). cbn [obind oret]. intros [= <-]. by apply H58. }
  rewrite Hve, Hd. cbn [obind oret]. by rewrite Hv.
Qed.
End SecretOk.

(** Concrete stand-ins: the toy cipher, letters for bytes, no compression. *)
#[local] Instance toyCipher : BlockCipher := toyAES.
#[local] Instance letters : Base58 := {|
  base58_Encode b := string_of (flat_map (fun x => [97 + x / 16; 97 + x mod 16]) b);
  base58_Decode s := Ok ((fix pairs l := match l with a :: b :: l' => ((a - 97) * 16 + (b - 97)) :: pairs l' | _ => [] end) (bytes_of s));
|}.
#[local] Instance plain : Gzip := {| GzipCompress b := Ok b; GzipDecompress b := Ok b |}.
Example secret_now : match Secret_Enc (Ok (repeat 7 16)) "pa55" with Val e => Secret_Dec e | Panic v => Panic v end = Val "pa55".
Proof. vm_compute. reflexivity. Qed.
Example safe_id_large : match SafeID_Enc (Ok (repeat 7 16)) 18446744073709551615 with Val e => SafeID_Dec 0 e | Panic v => Panic v end = Val 1.
Proof. vm_compute. reflexivity. Qed.

Definition letter_pairs : bytes -> bytes := fix pairs l := match l with a :: b :: l' => ((a - 97) * 16 + (b - 97)) :: pairs l' | _ => [] end.
Lemma letters_bytes b : Forall is_byte b -> Forall (fun x => 0 <= x < 128) (flat_map (fun x => [97 + x / 16; 97 + x mod 16]) b).
Proof.
  induction 1 as [|x b Hx Hb IH]; [constructor|]. cbn. unfold is_byte in Hx. repeat constructor; try done; Z.div_mod_to_equations; lia.
Qed.
Lemma bytes_of_string_of l : Forall is_byte l -> bytes_of (string_of l) = l.
Proof.
  intros H. unfold bytes_of, string_of. rewrite list_ascii_of_string_of_list_ascii, map_map.
  induction H as [|b l Hb Hl IH]; [done|]. cbn [map]. rewrite IH. unfold is_byte in Hb. rewrite nat_ascii_embedding by lia. f_equal. lia.
Qed.
Lemma armour_ok : ArmourOk letters plain.
Proof.
  split; [|by intros b Hb; exists b].
  intros b Hb. cbn [base58_Decode base58_Encode letters]. rewrite bytes_of_string_of.
  - change (Ok (letter_pairs (flat_map (fun x => [97 + x / 16; 97 + x mod 16]) b)) = Ok b). f_equal.
    induction Hb as [|x b Hx Hb IH]; [done|]. cbn [flat_map app letter_pairs]. rewrite IH. f_equal. Z.div_mod_to_equations. lia.
  - eapply Forall_impl; [by apply letters_bytes|]. unfold is_byte. intros x Hx. cbv beta in Hx. lia.
Qed.
Lemma ToValid_ascii l : Forall (fun x => 0 <= x < 128) l -> ToValid l = l.
Proof. induction 1 as [|x l Hx Hl IH]; [done|]. change (x :: l) with ([x] ++ l)%list. apply ToValid_app; [by apply Kept_ascii|done]. Qed.
Lemma letters_valid b : Forall is_byte b -> valid_text (base58_Encode b) = base58_Encode b.
Proof.
  intros Hb. apply letters_bytes in Hb. cbn [base58_Encode letters]. set (l := flat_map _ b) in *.
  assert (E : string_of l = of_bytes l).
  { unfold string_of, of_bytes. f_equal. apply map_ext_in. intros x Hx. apply list_elem_of_In in Hx. eapply Forall_forall in Hb; [|exact Hx].
    cbv beta in Hb. unfold ascii_of_nat. f_equal. lia. }
  rewrite E. apply valid_text_of; [by apply ToValid_ascii|]. eapply Forall_impl; [exact Hb|]. unfold JsonText.is_byte. intros x Hx. cbv beta in Hx. lia.
Qed.
Lemma Secret_round_trip_witness :
  exists e, Secret_Enc (Ok (repeat 7 16)) "pa55" = Val e /\ Secret_Dec e = Val "pa55".
Proof.
  destruct (@Secret_round_trip toyAES toyAESOk letters plain armour_ok eq_refl ltac:(apply Nat.le_refl) (repeat 7 16) "pa55")
    as (e & H1 & _ & _ & H2 & _); [reflexivity|repeat constructor; discriminate|reflexivity|]. exists e. split; [exact H1|exact H2].
Defined.
Lemma SafeID_round_trip_witness :
  exists e, SafeID_Enc (Ok (repeat 7 16)) 1234567 = Val e /\ SafeID_UnmarshalJSON 0 (print_s (JStr e)) = oret 1234567.
Proof.
  destruct (@SafeID_round_trip toyAES toyAESOk letters plain armour_ok eq_refl ltac:(apply Nat.le_refl) (repeat 7 16) 1234567 0)
    as (e & H1 & _ & _ & H2); [reflexivity|repeat constructor; discriminate|split; [discriminate|reflexivity]|exact letters_valid|].
  exists e. split; [exact H1|exact H2].
Defined.
