(* ===== verification/Money.v ===== *)
(** [src/types/money.go] (and its copy [src/types/money/money.go]): amounts of
    money as floating-point numbers of 64 bits, rounded to two places, and their
    text in capital numerals.  The arithmetic is that of IEEE 754, as the Standard
    Library has it on integers ([SpecFloat]). *)
From Stdlib Require Import Floats.SpecFloat.
From S2P Require Import Prelude Strings.
#[local] Open Scope string_scope.
#[local] Open Scope Z_scope.

(** * [float64] *)
Definition float64 : Type := spec_float.
Definition f_add (x y : float64) : float64 := SFadd 53 1024 x y.
Definition f_sub (x y : float64) : float64 := SFsub 53 1024 x y.
Definition f_mul (x y : float64) : float64 := SFmul 53 1024 x y.
Definition f_div (x y : float64) : float64 := SFdiv 53 1024 x y.
Definition f_less (x y : float64) : bool := SFltb x y.
Definition f_eq (x y : float64) : bool := SFeqb x y.
(** An integer as the nearest number, zero as the positive one. *)
Definition of_Z (n : Z) : float64 := binary_normalize 53 1024 n 0 false.
Definition IsInf (x : float64) : bool := match x with S754_infinity _ => true | _ => false end.
Definition IsNaN (x : float64) : bool := match x with S754_nan => true | _ => false end.
(** [math.Pow10] from zero on, [math.Floor] and [math.Ceil]. *)
Definition Pow10 (n : nat) : float64 := of_Z (10 ^ Z.of_nat n).
Definition whole (m : positive) (e : Z) : Z := if 0 <=? e then Z.pos m * 2 ^ e else Z.pos m / 2 ^ (- e).
Definition fractional (m : positive) (e : Z) : bool := if 0 <=? e then false else negb (Z.pos m mod 2 ^ (- e) =? 0).
Definition Floor (x : float64) : float64 :=
  match x with
  | S754_finite false m e => of_Z (whole m e)
  | S754_finite true m e => SFopp (of_Z (if fractional m e then whole m e + 1 else whole m e))
  | _ => x
  end.
Definition Ceil (x : float64) : float64 := SFopp (Floor (SFopp x)).
(** The text with [places] digits behind the point: the exact value, halves to
    even. *)
Definition nearest (a b : Z) : Z :=
  let q := a / b in let r := a mod b in
  if 2 * r <? b then q else if b <? 2 * r then q + 1 else if Z.even q then q else q + 1.
Definition scaled (m : positive) (e : Z) (places : nat) : Z :=
  let a := Z.pos m * 10 ^ Z.of_nat places in if 0 <=? e then a * 2 ^ e else nearest a (2 ^ (- e)).
Fixpoint zeros (n : nat) : string := match n with O => "" | S n' => "0" ++ zeros n' end.
Definition fixed_text (n : Z) (places : nat) : string :=
  match places with
  | O => fmt_d n
  | _ => let s := fmt_d n in
         let s := zeros (S places - String.length s) ++ s in
         str_take (String.length s - places) s ++ "." ++ str_drop (String.length s - places) s
  end.
Definition signed (neg : bool) (s : string) : string := if neg then "-" ++ s else s.
Definition FormatFloat (x : float64) (places : nat) : string :=
  match x with
  | S754_nan => "NaN"
  | S754_infinity neg => if neg then "-Inf" else "+Inf"
  | S754_zero neg => signed neg (fixed_text 0 places)
  | S754_finite neg m e => signed neg (fixed_text (scaled m e places) places)
  end.

(** * [Money] *)
Definition Money : Type := float64.
(** [0.50000000001]. *)
Definition half_and : float64 := f_div (of_Z 50000000001) (of_Z 100000000000).
Definition one : float64 := of_Z 1.
Definition zero : float64 := of_Z 0.
Definition round (val : float64) (places : nat) : float64 :=
  let f := Pow10 places in
  let x := f_mul val f in
  if IsInf x || IsNaN x then val
  else
    let t := if SFleb zero x
             then let t := Ceil x in if f_less half_and (f_sub t x) then f_sub t one else t
             else let t := Ceil (SFopp x) in SFopp (if f_less half_and (f_add t x) then f_sub t one else t) in
    let x := f_div t f in
    if negb (IsInf x) then x else t.
Definition NewMoney (a : float64) : Money := round a 2.
Definition Val_ (m : Money) : float64 := round m 2.
Definition String_ (m : Money) : string := FormatFloat (Val_ m) 2.
Definition Add (m a : Money) : Money := NewMoney (f_add (Val_ m) (Val_ a)).
Definition Sub (m a : Money) : Money := NewMoney (f_sub (Val_ m) (Val_ a)).
Definition Mul (m : Money) (a : float64) : Money := NewMoney (f_mul m a).
Definition Div (m : Money) (a : float64) : Money := NewMoney (f_div m a).
Definition Less (m a : Money) : bool := f_less (Val_ m) (Val_ a).
Definition Equal (m b : Money) : bool := f_eq (Val_ m) (Val_ b).
Definition IsZero (m : Money) : bool := f_eq (Val_ m) zero.
Definition LessZero (m : Money) : bool := f_less (Val_ m) zero.
Definition GreaterZero (m : Money) : bool := f_less zero (Val_ m).
Definition Abs (m : Money) : Money := SFabs m.
Definition CeilMoney (m : Money) : Money := Ceil m.
Definition FloorMoney (m : Money) : Money := Floor m.
Definition MarshalJSON (m : Money) : string := String_ m.

(** ** Capital numerals: a text is its characters *)
(** The numeral of a digit, zero included, or one of the other characters. *)
Inductive Unit_ : Type := Qian | Bai | Shi | Wan | Yi | Yuan | Jiao | Fen | Zheng | Other (c : ascii).
Inductive Rune : Type := Dig (n : nat) | Unt (u : Unit_).
Definition show_unit (u : Unit_) : string :=
  match u with
  | Qian => "仟" | Bai => "佰" | Shi => "拾" | Wan => "万" | Yi => "亿" | Yuan => "圆" | Jiao => "角" | Fen => "分" | Zheng => "整" | Other c => String c ""
  end.
Definition show (r : Rune) : string :=
  match r with Dig n => nth n ["零"; "壹"; "贰"; "叁"; "肆"; "伍"; "陆"; "柒"; "捌"; "玖"] "" | Unt u => show_unit u end.
Definition text : Type := list Rune.
Definition shown (l : text) : string := String.concat "" (map show l).
Definition unit_eqb (a b : Unit_) : bool :=
  match a, b with
  | Qian, Qian | Bai, Bai | Shi, Shi | Wan, Wan | Yi, Yi | Yuan, Yuan | Jiao, Jiao | Fen, Fen | Zheng, Zheng => true
  | Other c, Other d => Ascii.eqb c d
  | _, _ => false
  end.
Definition is_zero (r : Rune) : bool := match r with Dig O => true | _ => false end.
Definition is_unit (u : Unit_) (r : Rune) : bool := match r with Unt v => unit_eqb u v | _ => false end.
Definition units : list Unit_ := [Qian; Bai; Shi; Yi; Qian; Bai; Shi; Wan; Qian; Bai; Shi; Yuan; Jiao; Fen].
(** A sign or a letter has no numeral. *)
Definition upper (c : ascii) : text :=
  let n := N_of_ascii c in if ((48 <=? n) && (n <=? 57))%N then [Dig (N.to_nat (n - 48))] else [].

(** A pattern answers how many characters it takes at the front of a text; all
    matches, from the left and without overlap, are replaced. *)
Definition pattern : Type := text -> option nat.
Fixpoint replace_from (fuel : nat) (p : pattern) (by_ : text) (l : text) : text :=
  match fuel with
  | O => l
  | S fuel' =>
      match l with
      | [] => []
      | c :: l' => match p l with
                   | Some (S n) => by_ ++ replace_from fuel' p by_ (skipn n l')
                   | _ => c :: replace_from fuel' p by_ l'
                   end
      end
  end%list.
Definition ReplaceAllString (p : pattern) (by_ : text) (l : text) : text := replace_from (length l) p by_ l.
(** The characters of a literal, as tests; a literal at the end of the text. *)
Fixpoint literal (w : list (Rune -> bool)) (l : text) : option nat :=
  match w, l with
  | [], _ => Some O
  | t :: w', x :: l' => if t x then option_map S (literal w' l') else None
  | _ :: _, [] => None
  end.
Definition at_end (w : list (Rune -> bool)) (l : text) : option nat := if (length l =? length w)%nat then literal w l else None.
Fixpoint zero_run (l : text) : nat := match l with c :: l' => if is_zero c then S (zero_run l') else O | [] => O end.
Definition qian_bai_shi (r : Rune) : bool := is_unit Qian r || is_unit Bai r || is_unit Shi r.
Definition zeros_2 (l : text) : option nat := let n := zero_run l in if (2 <=? n)%nat then Some n else None.
Definition zeros_yuan (l : text) : option nat :=
  let n := zero_run l in match skipn n l with c :: _ => if is_unit Yuan c then Some (S n) else None | [] => None end.
(** The braces of the pattern before the last have a space in them, so they
    stand for themselves. *)
Definition yi_braces_wan : pattern :=
  literal ([is_unit Yi; is_zero] ++ map (fun c => is_unit (Other c)) ["{"; "0"; ","; " "; "3"; "}"]%char ++ [is_unit Wan])%list.
Definition steps : list (pattern * text) :=
  [(at_end [is_zero; is_unit Jiao; is_zero; is_unit Fen], [Unt Zheng]);
   (literal [is_zero; is_unit Jiao], [Dig 0]);
   (at_end [is_zero; is_unit Fen], [Unt Zheng]);
   (literal [is_zero; qian_bai_shi], [Dig 0]);
   (zeros_2, [Dig 0]);
   (literal [is_zero; is_unit Yi], [Unt Yi]);
   (literal [is_zero; is_unit Wan], [Unt Wan]);
   (zeros_yuan, [Unt Yuan]);
   (yi_braces_wan, [Unt (Other "^"); Unt Yuan]);
   (literal [is_zero; is_unit Yuan], [Dig 0])].
Definition tidy (str : text) : text :=
  let str := fold_left (fun str s => ReplaceAllString (fst s) (snd s) str) steps str in
  if existsb (fun c => is_unit Jiao c || is_unit Fen c) str then List.filter (fun c => negb (is_unit Zheng c)) str else str.
(** The digits with their units; more than fourteen characters are a slice out of
    bounds. *)
Fixpoint with_units (price : list text) (s : list Unit_) : text :=
  match price, s with v :: price', u :: s' => v ++ [Unt u] ++ with_units price' s' | _, _ => [] end%list.
Definition upper_of (unitPrice : string) : Panics text :=
  let price := list_ascii_of_string unitPrice in
  if (length units <? length price)%nat then Panic "slice bounds out of range"
  else Val (tidy (with_units (map upper price) (skipn (length units - length price) units))).
Definition ToUpper (m : Money) : Panics text :=
  if f_eq (Val_ m) zero then Val [Dig 0; Unt Yuan; Unt Zheng] else upper_of (FormatFloat (f_mul (Val_ m) (of_Z 100)) 0).

(** * Tests *)
Definition cents (n : Z) : float64 := f_div (of_Z n) (of_Z 100).
Example texts : map (fun n => String_ (NewMoney (cents n))) [0; 5; 115; 123456; -1; 100000000000] = ["0.00"; "0.05"; "1.15"; "1234.56"; "-0.01"; "1000000000.00"].
Proof. vm_compute. reflexivity. Qed.
Example rounded : map (fun p => String_ (f_div (of_Z (fst p)) (of_Z (snd p)))) [(1005, 1000); (1004999, 1000000); (-1005, 1000); (2675, 1000); (1, 3)] =
  ["1.01"; "1.00"; "-1.01"; "2.68"; "0.33"].
Proof. vm_compute. reflexivity. Qed.
Definition spelled (n : Z) : Panics string := match ToUpper (cents n) with Val t => Val (shown t) | Panic v => Panic v end.
Example numerals : map spelled [123456; 10000; 50; 105; 1000000; 10010001; 0] =
  map Val ["壹仟贰佰叁拾肆圆伍角陆分"; "壹佰圆整"; "伍角"; "壹圆零伍分"; "壹万圆整"; "壹拾万零壹佰圆零壹分"; "零圆整"].
Proof. vm_compute. reflexivity. Qed.
(** A hundred million, which should read 壹亿圆整; a negative amount, whose sign
    leaves its unit; an amount of thirteen digits. *)
Example misspelled : map spelled [10000000000; -100; 100000000000000] = [Val "壹亿万圆整"; Val "拾壹圆整"; Panic "slice bounds out of range"].
Proof. vm_compute. reflexivity. Qed.

(** * The numerals of an amount read back *)
(** Reading: each digit with its weight in cents; [None] for a text that is no
    amount.  A section below ten thousand is read with its units, and takes the
    weight of the 万 or 亿 behind it. *)
Definition Term : Type := (nat * Z)%type.
Definition weigh (k : Z) (l : list Term) : list Term := map (fun t => (fst t, snd t * k)) l.
Record Reading : Type := mkReading { done : list Term; section : list Term; digit : option nat }.
Definition put (k : Z) (r : Reading) : option Reading :=
  match r.(digit) with Some n => Some (mkReading r.(done) (r.(section) ++ [(n, k)]) None) | None => None end.
Definition close (r : Reading) : list Term := (r.(section) ++ match r.(digit) with Some n => [(n, 1)] | None => [] end)%list.
Definition read_rune (r : option Reading) (c : Rune) : option Reading :=
  r ← r;
  match c with
  | Dig O => Some r
  | Dig n => match r.(digit) with None => Some (mkReading r.(done) r.(section) (Some n)) | Some _ => None end
  | Unt Qian => put 1000 r
  | Unt Bai => put 100 r
  | Unt Shi => put 10 r
  | Unt Wan => match close r with [] => None | l => Some (mkReading (r.(done) ++ weigh 10000 l) [] None) end
  | Unt Yi => match close r with [] => None | l => Some (mkReading (r.(done) ++ weigh 100000000 l) [] None) end
  | Unt Yuan => Some (mkReading (weigh 100 (r.(done) ++ close r)) [] None)
  | Unt Jiao => r' ← put 10 r; Some (mkReading (r'.(done) ++ r'.(section)) [] None)
  | Unt Fen => r' ← put 1 r; Some (mkReading (r'.(done) ++ r'.(section)) [] None)
  | Unt Zheng => Some r
  | Unt (Other _) => None
  end%list.
Definition read_terms (l : text) : option (list Term) :=
  match fold_left read_rune l (Some (mkReading [] [] None)) with
  | Some (mkReading d [] None) => Some d
  | _ => None
  end.
Definition value (l : list Term) : Z := fold_right (fun t s => Z.of_nat (fst t) * snd t + s) 0 l.
Definition read_amount (l : text) : option Z := option_map value (read_terms l).

(** ** A renaming of the digits other than zero *)
Definition rename (f : nat -> nat) (r : Rune) : Rune := match r with Dig n => Dig (f n) | Unt u => Unt u end.
Section Rename.
Context (f : nat -> nat) (Hf : forall n, f n = O <-> n = O).
Abbreviation ren := (map (rename f)).
Definition blind (p : pattern) : Prop := forall l, p (ren l) = p l.
Lemma ren_zero r : is_zero (rename f r) = is_zero r.
Proof. destruct r as [n|u]; [|done]. cbn. destruct n as [|n]; [by rewrite (proj2 (Hf 0))|]. destruct (f (S n)) eqn:E; [|done]. by apply (proj1 (Hf _)) in E. Qed.
Lemma ren_unit u r : is_unit u (rename f r) = is_unit u r.
Proof. by destruct r. Qed.
Lemma literal_blind w : Forall (fun t => forall r, t (rename f r) = t r) w -> blind (literal w).
Proof.
  induction w as [|t w IH]; intros Hw l; [done|]. apply Forall_cons in Hw as [Ht Hw]. destruct l as [|x l]; [done|]. cbn. rewrite Ht. destruct (t x); [|done]. by rewrite IH.
Qed.
Lemma at_end_blind w : Forall (fun t => forall r, t (rename f r) = t r) w -> blind (at_end w).
Proof. intros Hw l. unfold at_end. rewrite length_map. by rewrite (literal_blind w Hw). Qed.
Lemma zero_run_blind l : zero_run (ren l) = zero_run l.
Proof. induction l as [|r l IH]; [done|]. cbn. rewrite ren_zero. by rewrite IH. Qed.
Lemma zeros_yuan_blind : blind zeros_yuan.
Proof.
  intros l. unfold zeros_yuan. rewrite zero_run_blind, skipn_map. destruct (skipn (zero_run l) l) as [|c r]; [done|]. cbn. by rewrite ren_unit.
Qed.
Lemma replace_ren p by_ : blind p -> ren by_ = by_ -> forall fuel l, replace_from fuel p by_ (ren l) = ren (replace_from fuel p by_ l).
Proof.
  intros Hp Hb. induction fuel as [|fuel IH]; intros l; [done|]. destruct l as [|c l]; [done|]. cbn [map replace_from].
  change (rename f c :: ren l) with (ren (c :: l)). rewrite Hp. destruct (p (c :: l)) as [[|n]|]; cbn [map]; [by rewrite IH| |by rewrite IH].
  by rewrite map_app, Hb, skipn_map, IH.
Qed.
Lemma steps_blind : Forall (fun s => blind (fst s) /\ ren (snd s) = snd s) steps.
Proof.
  assert (H0 : f 0 = O) by by apply Hf. unfold steps. repeat constructor; cbn [fst snd map rename]; rewrite ?H0; try done;
    try (apply at_end_blind || apply literal_blind || apply zeros_yuan_blind); try (repeat constructor; intros r; rewrite ?ren_zero, ?ren_unit; try done; by destruct r).
  intros l. unfold zeros_2. by rewrite zero_run_blind.
Qed.
Lemma tidy_ren l : tidy (ren l) = ren (tidy l).
Proof.
  unfold tidy. assert (E : forall ss l, Forall (fun s => blind (fst s) /\ ren (snd s) = snd s) ss ->
    fold_left (fun str s => ReplaceAllString (fst s) (snd s) str) ss (ren l) = ren (fold_left (fun str s => ReplaceAllString (fst s) (snd s) str) ss l)).
  { induction ss as [|s ss IH]; intros l0 Hs; [done|]. apply Forall_cons in Hs as [[Hp Hb] Hs]. cbn. unfold ReplaceAllString at 2 4.
    rewrite length_map, replace_ren by done. by apply IH. }
  rewrite E by apply steps_blind. set (t := fold_left _ _ _).
  assert (Ex : existsb (fun c => is_unit Jiao c || is_unit Fen c) (ren t) = existsb (fun c => is_unit Jiao c || is_unit Fen c) t).
  { induction t as [|r t IH]; [done|]. cbn. by rewrite !ren_unit, IH. }
  rewrite Ex. destruct (existsb _ t); [|done]. clear. induction t as [|r t IH]; [done|]. cbn. rewrite ren_unit, IH. by destruct (is_unit Zheng r).
Qed.
Definition ren_terms (l : list Term) : list Term := map (fun t => (f (fst t), snd t)) l.
Definition ren_reading (r : Reading) : Reading := mkReading (ren_terms r.(done)) (ren_terms r.(section)) (option_map f r.(digit)).
End Rename.
Section Reading.
Context (f : nat -> nat) (Hf : forall n, f n = O <-> n = O).
Lemma ren_weigh k l : ren_terms f (weigh k l) = weigh k (ren_terms f l).
Proof. unfold ren_terms, weigh. by rewrite !map_map. Qed.
Lemma ren_app a b : ren_terms f (a ++ b) = (ren_terms f a ++ ren_terms f b)%list.
Proof. apply map_app. Qed.
Lemma ren_close r : ren_terms f (close r) = close (ren_reading f r).
Proof. unfold close. rewrite ren_app. by destruct r as [d s [n|]]. Qed.
Lemma ren_put k r : option_map (ren_reading f) (put k r) = put k (ren_reading f r).
Proof. destruct r as [d s [n|]]; [|done]. unfold put, ren_reading. cbn [digit done section option_map]. by rewrite ren_app. Qed.
Lemma ren_section k r : option_map (ren_reading f) (match close r with [] => None | l => Some (mkReading (r.(done) ++ weigh k l) [] None) end) =
  match close (ren_reading f r) with [] => None | l => Some (mkReading ((ren_reading f r).(done) ++ weigh k l) [] None) end.
Proof.
  rewrite <- ren_close. destruct (close r) as [|t l]; [done|]. cbn [option_map]. unfold ren_reading at 1. cbn [done section digit].
  rewrite ren_app, ren_weigh. done.
Qed.
Lemma read_ren r c : option_map (ren_reading f) (read_rune r c) = read_rune (option_map (ren_reading f) r) (rename f c).
Proof.
  destruct r as [r|]; [|by destruct c as [[|n]|[]]]. destruct c as [n|u]; cbn [rename option_map].
  - destruct n as [|n]; [by rewrite (proj2 (Hf 0))|]. destruct (f (S n)) as [|k] eqn:E; [by apply (proj1 (Hf _)) in E|].
    cbn. destruct r as [d s [m|]]; [done|]. unfold ren_reading. cbn. by rewrite E.
  - destruct u; cbn [read_rune mbind option_bind]; try apply ren_put; try done.
    1,2: apply ren_section.
    + unfold ren_reading. cbn [option_map done section digit]. by rewrite ren_weigh, ren_app, ren_close.
    + rewrite <- ren_put. destruct (put 10 r) as [r'|]; [|done]. cbn [mbind option_bind option_map]. unfold ren_reading. cbn [done section digit]. by rewrite ren_app.
    + rewrite <- ren_put. destruct (put 1 r) as [r'|]; [|done]. cbn [mbind option_bind option_map]. unfold ren_reading. cbn [done section digit]. by rewrite ren_app.
Qed.
Lemma read_terms_ren l : read_terms (map (rename f) l) = option_map (ren_terms f) (read_terms l).
Proof.
  unfold read_terms. assert (E : forall l r, fold_left read_rune (map (rename f) l) (option_map (ren_reading f) r) = option_map (ren_reading f) (fold_left read_rune l r)).
  { clear l. induction l as [|c l IH]; intros r; [done|]. cbn [map fold_left]. by rewrite <- read_ren, IH. }
  specialize (E l (Some (mkReading [] [] None))). change (option_map (ren_reading f) (Some (mkReading [] [] None))) with (Some (mkReading [] [] None)) in E. rewrite E.
  destruct (fold_left read_rune l _) as [[d [|t s] [n|]]|]; done.
Qed.
End Reading.

(** ** The amounts of up to twelve digits *)
(** A pattern of zeros and other digits, each of these with a name of its own;
    what should be read of it. *)
Fixpoint named_digits (i : nat) (bs : list bool) : list nat := match bs with [] => [] | b :: bs' => (if b then S i else O) :: named_digits (S i) bs' end.
Fixpoint expected (i : nat) (bs : list bool) : list Term :=
  match bs with [] => [] | b :: bs' => ((if b then [(S i, 10 ^ Z.of_nat (length bs'))] else []) ++ expected (S i) bs')%list end.
Definition spelled_digits (ds : list nat) : text := tidy (with_units (map (fun n => [Dig n]) ds) (skipn (length units - length ds) units)).
(** The four digits of the ten thousands are not all zero, if there are more
    digits before them. *)
Definition wan_there (bs : list bool) : bool := (length bs <=? 10)%nat || existsb (fun b => b) (firstn 4 (skipn (length bs - 10) bs)).
Definition Term_eqb (a b : Term) : bool := (fst a =? fst b)%nat && (snd a =? snd b).
Definition reads_well (bs : list bool) : bool :=
  match read_terms (spelled_digits (named_digits 0 bs)) with
  | Some l => (length l =? length (expected 0 bs))%nat && forallb (fun p => Term_eqb (fst p) (snd p)) (combine l (expected 0 bs))
  | None => false
  end.
Fixpoint bools (k : nat) : list (list bool) := match k with O => [[]] | S k' => flat_map (fun l => [true :: l; false :: l]) (bools k') end.
Lemma bools_all bs : In bs (bools (length bs)).
Proof. induction bs as [|b bs IH]; [by left|]. cbn. apply in_flat_map. exists bs. split; [done|]. destruct b; [by left|right; by left]. Qed.
Lemma all_read_well : forallb (fun k => forallb (fun bs => negb (wan_there (true :: bs)) || reads_well (true :: bs)) (bools k)) (seq 0 12) = true.
Proof. vm_compute. reflexivity. Qed.
Lemma reads_well_terms bs : reads_well bs = true -> read_terms (spelled_digits (named_digits 0 bs)) = Some (expected 0 bs).
Proof.
  unfold reads_well. destruct (read_terms _) as [l|]; [|done]. intros [Hl Hall]%andb_true_iff. apply Nat.eqb_eq in Hl. f_equal.
  revert Hl Hall. generalize (expected 0 bs) as e. induction l as [|t l IH]; intros [|u e]; cbn; try done. intros [= Hl] [Ht Hall]%andb_true_iff.
  f_equal; [|by apply IH]. unfold Term_eqb in Ht. apply andb_true_iff in Ht as [H1 H2]. apply Nat.eqb_eq in H1. apply Z.eqb_eq in H2.
  destruct t, u. cbn in *. by subst.
Qed.
(** Digits and the numbers that they are. *)
Fixpoint number (ds : list nat) : Z := match ds with [] => 0 | d :: ds' => Z.of_nat d * 10 ^ Z.of_nat (length ds') + number ds' end.
Definition digits_text (ds : list nat) : string := string_of_list_ascii (map (fun n => ascii_of_nat (48 + n)) ds).
Definition nonzero (ds : list nat) : list bool := map (fun d => negb (d =? 0)%nat) ds.
Definition namer (ds : list nat) (n : nat) : nat := match n with O => O | S i => match nth i ds 1%nat with O => 1%nat | d => d end end.
Lemma namer_zero ds n : namer ds n = O <-> n = O.
Proof. destruct n as [|i]; [done|]. cbn. by destruct (nth i ds 1%nat). Qed.
Lemma namer_named pre ds : map (namer (pre ++ ds)) (named_digits (length pre) (nonzero ds)) = ds.
Proof.
  revert pre. induction ds as [|d ds IH]; intros pre; [done|]. cbn [nonzero map named_digits].
  assert (Hrest : map (namer (pre ++ d :: ds)) (named_digits (S (length pre)) (nonzero ds)) = ds).
  { specialize (IH (pre ++ [d])%list). rewrite <- app_assoc, length_app, Nat.add_1_r in IH. exact IH. }
  unfold nonzero in Hrest. rewrite Hrest. f_equal. destruct d as [|d]; [done|]. cbn. by rewrite app_nth2, Nat.sub_diag by lia.
Qed.
Lemma value_cons n k l : value ((n, k) :: l) = Z.of_nat n * k + value l.
Proof. reflexivity. Qed.
Lemma value_named pre ds : value (ren_terms (namer (pre ++ ds)) (expected (length pre) (nonzero ds))) = number ds.
Proof.
  revert pre. induction ds as [|d ds IH]; intros pre; [done|]. cbn [nonzero map expected number].
  assert (Hrest : value (ren_terms (namer (pre ++ d :: ds)) (expected (S (length pre)) (nonzero ds))) = number ds).
  { specialize (IH (pre ++ [d])%list). rewrite <- app_assoc, length_app, Nat.add_1_r in IH. exact IH. }
  unfold nonzero in Hrest. rewrite ren_app. destruct d as [|d]; cbn [negb Nat.eqb]; [exact Hrest|].
  change (ren_terms (namer (pre ++ S d :: ds)) [(S (length pre), 10 ^ Z.of_nat (length (map (fun d => negb (d =? 0)%nat) ds)))])
    with [(namer (pre ++ S d :: ds) (S (length pre)), 10 ^ Z.of_nat (length (map (fun d => negb (d =? 0)%nat) ds)))].
  cbn [app]. rewrite value_cons, length_map, Hrest. f_equal. cbn [namer]. by rewrite app_nth2, Nat.sub_diag by lia.
Qed.
Lemma upper_digit d : (d <= 9)%nat -> upper (ascii_of_nat (48 + d)) = [Dig d].
Proof. intros Hd. do 10 (destruct d as [|d]; [reflexivity|]). lia. Qed.
Lemma with_units_ren f : forall cs us, with_units (map (fun n => [Dig n]) (map f cs)) us = map (rename f) (with_units (map (fun n => [Dig n]) cs) us).
Proof. induction cs as [|c cs IH]; intros [|u us]; [done..|]. cbn. by rewrite IH. Qed.
(** C40: the numerals of an amount of at most twelve digits are an amount that
    reads back to the same number of cents, but for those of more than a hundred
    million whose ten thousands are all zero. *)
Theorem ToUpper_reads m ds : f_eq (Val_ m) zero = false -> FormatFloat (f_mul (Val_ m) (of_Z 100)) 0 = digits_text ds ->
  Forall (fun d => (d <= 9)%nat) ds -> hd O ds <> O -> (length ds <= 12)%nat -> wan_there (nonzero ds) = true ->
  exists t, ToUpper m = Val t /\ read_amount t = Some (number ds).
Proof.
  intros Hz Hf Hd Hh Hl Hw. unfold ToUpper. rewrite Hz, Hf. unfold upper_of, digits_text. rewrite list_ascii_of_string_of_list_ascii, length_map.
  rewrite (proj2 (Nat.ltb_ge _ _)) by (cbn [units length]; lia). eexists. split; [reflexivity|].
  assert (Hu : map upper (map (fun n => ascii_of_nat (48 + n)) ds) = map (fun n => [Dig n]) ds).
  { rewrite map_map. clear -Hd. induction Hd as [|d ds Hd _ IH]; [done|]. cbn [map]. by rewrite upper_digit, IH. }
  rewrite Hu. change (tidy _) with (spelled_digits ds).
  set (f := namer ds). pose proof (namer_named [] ds) as En. cbn [app length] in En. fold f in En.
  assert (Es : spelled_digits ds = map (rename f) (spelled_digits (named_digits 0 (nonzero ds)))).
  { unfold spelled_digits. rewrite <- tidy_ren by apply namer_zero. rewrite <- with_units_ren, En. do 4 f_equal.
    rewrite <- En at 1. by rewrite length_map. }
  assert (Hr : reads_well (nonzero ds) = true).
  { destruct ds as [|d ds]; [done|]. cbn in Hh. pose proof all_read_well as Hall. rewrite forallb_forall in Hall.
    cbn [length] in Hl. specialize (Hall (length ds)). rewrite in_seq in Hall. specialize (Hall ltac:(lia)). rewrite forallb_forall in Hall.
    assert (Hin : In (nonzero ds) (bools (length ds))).
    { rewrite <- (length_map (fun d => negb (d =? 0)%nat) ds). apply bools_all. }
    specialize (Hall (nonzero ds) Hin). destruct d as [|d]; [done|]. change (nonzero (S d :: ds)) with (true :: nonzero ds) in *.
    cbv beta in Hall. rewrite Hw in Hall. cbn [negb orb] in Hall. assumption. }
  unfold read_amount. rewrite Es, read_terms_ren by apply namer_zero. rewrite (reads_well_terms _ Hr). cbn [option_map]. f_equal. exact (value_named [] ds).
Qed.

(** * At work *)
Lemma ToUpper_reads_witness : exists t, ToUpper (cents 10203040506) = Val t /\ read_amount t = Some 10203040506.
Proof.
  apply (ToUpper_reads (cents 10203040506) [1; 0; 2; 0; 3; 0; 4; 0; 5; 0; 6]%nat).
  - vm_compute. reflexivity.
  - vm_compute. reflexivity.
  - apply (bool_decide_unpack _). vm_compute. exact I.
  - discriminate.
  - cbn. lia.
  - reflexivity.
Defined.
(** Sums do not depend on the order. *)
Lemma Add_comm m a : Add m a = Add a m.
Proof.
  unfold Add. f_equal. generalize (Val_ m) (Val_ a). clear m a. intros x y. unfold f_add, SFadd. destruct x as [s|s| |s p e], y as [t|t| |t q g]; try done.
  - by destruct s, t.
  - by destruct s, t.
  - rewrite (Z.min_comm e g). f_equal. apply Z.add_comm.
Qed.
(** Amounts of whole cents stay what they are, and add up and compare as such. *)
Definition sample : list Z := [0; 1; 29; 115; 123456789; -435].
Definition f_same (x y : float64) : bool := (f_eq x y) && str_eqb (FormatFloat x 20) (FormatFloat y 20).
Example exact : forallb (fun a => f_same (NewMoney (cents a)) (cents a) && forallb (fun b =>
    f_same (Add (cents a) (cents b)) (cents (a + b)) && f_same (Sub (cents a) (cents b)) (cents (a - b)) &&
    Bool.eqb (Less (cents a) (cents b)) (a <? b) && Bool.eqb (Equal (cents a) (cents b)) (a =? b)) sample) sample = true.
Proof. vm_compute. reflexivity. Qed.
(** What is no number is no JSON either. *)
Example not_json : map MarshalJSON [Div (cents 0) (of_Z 0); Div (cents 100) (of_Z 0)] = ["NaN"; "+Inf"].
Proof. vm_compute. reflexivity. Qed.

(** * [src/types/money/money.go]: the same text in a package of its own *)
Module Package.
Definition Money : Type := Money.
Definition NewMoney : float64 -> Money := NewMoney.
Definition String_ : Money -> string := String_.
Definition Add : Money -> Money -> Money := Add.
Definition Sub : Money -> Money -> Money := Sub.
Definition Mul : Money -> float64 -> Money := Mul.
Definition Div : Money -> float64 -> Money := Div.
Definition Val_ : Money -> float64 := Val_.
Definition Less : Money -> Money -> bool := Less.
Definition Equal : Money -> Money -> bool := Equal.
Definition IsZero : Money -> bool := IsZero.
Definition LessZero : Money -> bool := LessZero.
Definition GreaterZero : Money -> bool := GreaterZero.
Definition Abs : Money -> Money := Abs.
Definition Ceil : Money -> Money := CeilMoney.
Definition Floor : Money -> Money := FloorMoney.
Definition MarshalJSON : Money -> string := MarshalJSON.
Definition ToUpper : Money -> Panics text := ToUpper.
Definition round : float64 -> nat -> float64 := round.
End Package.
