(* ===== verification/Metrics.v ===== *)
(** [src/metrics]: metrics that register themselves on first use, on a registry
    of the vendored prometheus client.

    A vector of the client is its descriptor and, for each set of label values,
    the updates it was given, in their order: what a counter or a histogram
    makes of them is the client's.  What the client refuses, and when it panics,
    is its documented behaviour. *)
From S2P Require Import Prelude Strings Json Regexp JsonText.
#[local] Open Scope string_scope.
#[local] Open Scope Z_scope.

(** The values of metrics: [float64], of which the code only asks what the
    client asks. *)
Class Float : Type := { float : Type; negative : float -> bool; increasing : list float -> bool; infinite : float -> bool }.

Inductive Kind : Type := KCounter | KGauge | KHistogram | KSummary.
#[global] Instance Kind_eq : EqDecision Kind. Proof. solve_decision. Defined.

Section Metrics.
Context `{Float}.

Inductive Update : Type := UInc | UDec | UAdd (v : float) | USet (v : float) | UObserve (v : float).
Abbreviation Labels := (gmap string string).
(** Buckets of a histogram, objectives of a summary. *)
Inductive Extra : Type := NoExtra | XBuckets (l : list float) | XObjectives (l : list (float * float)).
Record Vec : Type := mkVec {
  v_kind : Kind; fqName : string; help : string; labelNames : list string; extra : Extra; series : gmap Labels (list Update)
}.

(** * The client *)
Definition BuildFQName (namespace subsystem name : string) : string :=
  if str_eqb name "" then ""
  else (if str_eqb namespace "" then "" else namespace ++ "_") ++ (if str_eqb subsystem "" then "" else subsystem ++ "_") ++ name.
Definition checkLabelName (l : string) : bool := negb (str_eqb l "") && ValidString l && negb (has_prefix "__" l).
Definition valid_desc (v : Vec) : bool := negb (str_eqb v.(fqName) "") && ValidString v.(fqName) && forallb checkLabelName v.(labelNames).
(** All vectors there are, and which of them each registry has. *)
Record Client : Type := mkClient { vecs : list Vec; registries : gmap nat (list nat) }.
Definition registered (r : nat) (c : Client) : list Vec := omap (fun i => nth_error c.(vecs) i) (default [] (c.(registries) !! r)).
Definition Register (r : nat) (v : Vec) (c : Client) : Res Client :=
  if negb (valid_desc v) then Err (ErrNew "descriptor is invalid")
  else match List.find (fun x => str_eqb x.(fqName) v.(fqName)) (registered r c) with
       | Some x => if str_eqb x.(help) v.(help) && bool_decide (x.(labelNames) = v.(labelNames))
                   then Err (ErrVar "duplicate metrics collector registration attempted")
                   else Err (ErrNew "a previously registered descriptor has different label names or a different help string")
       | None => Ok (mkClient (c.(vecs) ++ [v]) (<[r := (default [] (c.(registries) !! r) ++ [length c.(vecs)])%list]> c.(registries)))
       end.
(** [NewXxxVec] panics for a label that the kind has for itself, or the first
    use of a series does. *)
Definition new_vec_panics (v : Vec) : option string :=
  if bool_decide (v.(v_kind) = KSummary) && existsb (str_eqb "quantile") v.(labelNames) then Some "quantile is not allowed as label name in summaries" else None.
Definition series_panics (v : Vec) : option string :=
  match v.(v_kind), v.(extra) with
  | KHistogram, x =>
      if existsb (str_eqb "le") v.(labelNames) then Some "le is not allowed as label name in histograms"
      else match x with XBuckets l => if increasing l then None else Some "histogram buckets must be in increasing order" | _ => None end
  | _, _ => None
  end.
(** [vec.With(labels)]. *)
Definition with_panics (labels : Labels) (v : Vec) : option string :=
  if negb (bool_decide (size labels = length v.(labelNames))) then Some "inconsistent label cardinality"
  else if negb (forallb (fun x => ValidString (snd x)) (map_to_list labels)) then Some "label value is not valid UTF-8"
  else if negb (forallb (fun n => bool_decide (is_Some (labels !! n))) v.(labelNames)) then Some "label name missing in label map"
  else match v.(series) !! labels with Some _ => None | None => series_panics v end.
(** The update itself: a counter refuses to go down. *)
Definition update_panics (k : Kind) (u : Update) : option string :=
  match k, u with KCounter, UAdd x => if negative x then Some "counter cannot decrease in value" else None | _, _ => None end.
Definition push (labels : Labels) (us : list Update) (v : Vec) : Vec :=
  mkVec v.(v_kind) v.(fqName) v.(help) v.(labelNames) v.(extra) (<[labels := (default [] (v.(series) !! labels) ++ us)%list]> v.(series)).

(** * [easy_metrics.go] *)
Record EasyMetrics : Type := mkEasy {
  registry : nat; counters : gmap string nat; gauges : gmap string nat; histograms : gmap string nat; summaries : gmap string nat;
  labelKeys : gmap string (list string); namespace : string; subsystem : string
}.
(** [std]: the package's registry; the argument is not used. *)
Definition NewEasyMetrics (std : nat) (registry : nat) (opts : list (string * string)) : EasyMetrics :=
  let '(ns, sub) := match opts with o :: _ => o | [] => ("", "") end in
  mkEasy std ∅ ∅ ∅ ∅ ∅ ns sub.

Definition str_le (a b : string) : Prop := String.leb a b = true.
#[global] Instance str_le_dec a b : Decision (str_le a b). Proof. unfold str_le. solve_decision. Defined.
Definition extractLabelKeys (labels : Labels) : list string := merge_sort str_le (map fst (map_to_list labels)).
Definition getLabelKey (name : string) (keys : list string) : string := name ++ ":" ++ str_join "," keys.

Definition maps (k : Kind) (em : EasyMetrics) : gmap string nat :=
  match k with KCounter => em.(counters) | KGauge => em.(gauges) | KHistogram => em.(histograms) | KSummary => em.(summaries) end.
Definition remember (k : Kind) (key : string) (i : nat) (names : list string) (em : EasyMetrics) : EasyMetrics :=
  let put m := <[key := i]> m in
  mkEasy em.(registry) (if decide (k = KCounter) then put em.(counters) else em.(counters)) (if decide (k = KGauge) then put em.(gauges) else em.(gauges))
    (if decide (k = KHistogram) then put em.(histograms) else em.(histograms)) (if decide (k = KSummary) then put em.(summaries) else em.(summaries))
    (<[key := names]> em.(labelKeys)) em.(namespace) em.(subsystem).
Definition noun (k : Kind) : string := match k with KCounter => "counter" | KGauge => "gauge" | KHistogram => "histogram" | KSummary => "summary" end.
Definition State_ : Type := EasyMetrics * Client.
(** The four functions differ in the kind and its options; a panic leaves the
    state. *)
Definition autoRegister (k : Kind) (x : Extra) (name : string) (labels : Labels) (s : State_) : Panics (Res nat) * State_ :=
  let '(em, c) := s in
  let names := extractLabelKeys labels in
  let key := getLabelKey name names in
  match maps k em !! key with
  | Some i => (Val (Ok i), s)
  | None =>
      let v := mkVec k (BuildFQName em.(namespace) em.(subsystem) name) ("Auto-generated " ++ noun k ++ " metric: " ++ name) names x ∅ in
      match new_vec_panics v with
      | Some p => (Panic p, s)
      | None => match Register em.(registry) v c with
                | Err e => (Val (Err (ErrWrap ("failed to register " ++ noun k ++ " " ++ name ++ ": ") e)), s)
                | Ok c' => (Val (Ok (length c.(vecs))), (remember k key (length c.(vecs)) names em, c'))
                end
      end
  end.
Context (DefBuckets : list float) (defObjectives : list (float * float)).
Definition autoRegisterCounter : string -> Labels -> State_ -> Panics (Res nat) * State_ := autoRegister KCounter NoExtra.
Definition autoRegisterGauge : string -> Labels -> State_ -> Panics (Res nat) * State_ := autoRegister KGauge NoExtra.
Definition autoRegisterHistogram (name : string) (labels : Labels) (buckets : list float) : State_ -> Panics (Res nat) * State_ :=
  autoRegister KHistogram (XBuckets (match buckets with [] => DefBuckets | l => l end)) name labels.
Definition autoRegisterSummary (name : string) (labels : Labels) (objectives : list (float * float)) : State_ -> Panics (Res nat) * State_ :=
  autoRegister KSummary (XObjectives (match objectives with [] => defObjectives | l => l end)) name labels.

(** [vec.With(labels).Op(v)] on vector [i]: [With] makes the series even when
    the update panics. *)
Definition with_update (i : nat) (labels : Labels) (u : Update) (c : Client) : Panics (option error) * Client :=
  match nth_error c.(vecs) i with
  | None => (Panic "nil pointer dereference", c)
  | Some v =>
      match with_panics labels v with
      | Some p => (Panic p, c)
      | None =>
          let c' us := mkClient (<[i := push labels us v]> c.(vecs)) c.(registries) in
          match update_panics v.(v_kind) u with
          | Some p => (Panic p, c' [])
          | None => (Val None, c' [u])
          end
      end
  end.
Definition finish (labels : Labels) (u : Update) (r : Panics (Res nat) * State_) : Panics (option error) * State_ :=
  match r with
  | (Panic p, s) => (Panic p, s)
  | (Val (Err e), s) => (Val (Some e), s)
  | (Val (Ok i), (em, c)) => let '(o, c) := with_update i labels u c in (o, (em, c))
  end.

(** Builders: a nil map of labels is the empty one. *)
Record CounterBuilder : Type := mkCB { cb_name : string; cb_labels : option Labels }.
Definition Counter (name : string) : CounterBuilder := mkCB name None.
Definition Counter_With (labels : Labels) (cb : CounterBuilder) : CounterBuilder := mkCB cb.(cb_name) (Some labels).
Definition counter_op (u : Update) (cb : CounterBuilder) (s : State_) : Panics (option error) * State_ :=
  let labels := default ∅ cb.(cb_labels) in finish labels u (autoRegisterCounter cb.(cb_name) labels s).
Definition Counter_Inc : CounterBuilder -> State_ -> Panics (option error) * State_ := counter_op UInc.
Definition Counter_Add (value : float) : CounterBuilder -> State_ -> Panics (option error) * State_ := counter_op (UAdd value).

Record GaugeBuilder : Type := mkGB { gb_name : string; gb_labels : option Labels }.
Definition Gauge (name : string) : GaugeBuilder := mkGB name None.
Definition Gauge_With (labels : Labels) (gb : GaugeBuilder) : GaugeBuilder := mkGB gb.(gb_name) (Some labels).
Definition gauge_op (u : Update) (gb : GaugeBuilder) (s : State_) : Panics (option error) * State_ :=
  let labels := default ∅ gb.(gb_labels) in finish labels u (autoRegisterGauge gb.(gb_name) labels s).
Definition Gauge_Set (value : float) : GaugeBuilder -> State_ -> Panics (option error) * State_ := gauge_op (USet value).
Definition Gauge_Inc : GaugeBuilder -> State_ -> Panics (option error) * State_ := gauge_op UInc.
Definition Gauge_Dec : GaugeBuilder -> State_ -> Panics (option error) * State_ := gauge_op UDec.
Definition Gauge_Add (value : float) : GaugeBuilder -> State_ -> Panics (option error) * State_ := gauge_op (UAdd value).

Record HistogramBuilder : Type := mkHB { hb_name : string; hb_labels : option Labels; hb_buckets : list float }.
Definition Histogram (name : string) : HistogramBuilder := mkHB name None [].
Definition Histogram_With (labels : Labels) (hb : HistogramBuilder) : HistogramBuilder := mkHB hb.(hb_name) (Some labels) hb.(hb_buckets).
Definition Buckets (buckets : list float) (hb : HistogramBuilder) : HistogramBuilder := mkHB hb.(hb_name) hb.(hb_labels) buckets.
Definition Histogram_Observe (value : float) (hb : HistogramBuilder) (s : State_) : Panics (option error) * State_ :=
  let labels := default ∅ hb.(hb_labels) in finish labels (UObserve value) (autoRegisterHistogram hb.(hb_name) labels hb.(hb_buckets) s).

Record SummaryBuilder : Type := mkSB { sb_name : string; sb_labels : option Labels; sb_objectives : list (float * float) }.
Definition Summary (name : string) : SummaryBuilder := mkSB name None [].
Definition Summary_With (labels : Labels) (sb : SummaryBuilder) : SummaryBuilder := mkSB sb.(sb_name) (Some labels) sb.(sb_objectives).
Definition Objectives (objectives : list (float * float)) (sb : SummaryBuilder) : SummaryBuilder := mkSB sb.(sb_name) sb.(sb_labels) objectives.
Definition Summary_Observe (value : float) (sb : SummaryBuilder) (s : State_) : Panics (option error) * State_ :=
  let labels := default ∅ sb.(sb_labels) in finish labels (UObserve value) (autoRegisterSummary sb.(sb_name) labels sb.(sb_objectives) s).

(** Timing: [elapsed] in seconds, between the two readings of the clock. *)
Definition Histogram_Time (elapsed : float) : HistogramBuilder -> State_ -> Panics (option error) * State_ := Histogram_Observe elapsed.
Definition Summary_Time (elapsed : float) : SummaryBuilder -> State_ -> Panics (option error) * State_ := Summary_Observe elapsed.
Record Timer : Type := mkTimer { t_start : Z; t_builder : HistogramBuilder }.
Definition StartTimer (now : Z) (hb : HistogramBuilder) : Timer := mkTimer now hb.
Definition Stop (seconds : Z -> float) (now : Z) (t : Timer) : State_ -> Panics (option error) * State_ :=
  Histogram_Observe (seconds (now - t.(t_start))) t.(t_builder).

(** [promex.go]: the package's own metrics on a fresh registry. *)
Definition Init (project model : string) (fresh : nat) (c : Client) : State_ :=
  (NewEasyMetrics fresh fresh [(project, model)], mkClient c.(vecs) (<[fresh := []]> c.(registries))).

(** * Keys *)
(** Names without the separators of the keys. *)
Definition clean (name : string) (names : list string) : Prop :=
  str_mem ":" name = false /\ Forall (fun n => n <> "" /\ str_mem "," n = false) names.
Lemma colon_split a b x y : str_mem ":" a = false -> str_mem ":" b = false -> a ++ ":" ++ x = b ++ ":" ++ y -> a = b /\ x = y.
Proof.
  revert b. induction a as [|c a IH]; intros [|d b] Ha Hb E.
  - change (String ":" x = String ":" y) in E. by injection E.
  - change (String ":" x = String d (b ++ ":" ++ y)) in E. injection E as <- _. cbn in Hb. done.
  - change (String c (a ++ ":" ++ x) = String ":" y) in E. injection E as -> _. cbn in Ha. done.
  - change (String c (a ++ ":" ++ x) = String d (b ++ ":" ++ y)) in E. injection E as -> E2. cbn in Ha, Hb.
    apply orb_false_iff in Ha as [_ Ha], Hb as [_ Hb]. destruct (IH b Ha Hb E2) as [-> ->]. done.
Qed.
Lemma split_join names : names <> [] -> Forall (fun n => n <> "" /\ str_mem "," n = false) names -> split_on "," (str_join "," names) = names.
Proof.
  induction names as [|n names IH]; [done|]. intros _ [[Hn Hc] Hns]%Forall_cons. destruct names as [|m names].
  - cbn [str_join]. by apply split_on_none.
  - cbn [str_join]. change (n ++ "," ++ ?r)%string with (n ++ String "," r)%string. rewrite split_on_app by done. f_equal. by apply IH.
Qed.
Lemma key_inj name names name' names' :
  clean name names -> clean name' names' -> getLabelKey name names = getLabelKey name' names' -> name = name' /\ names = names'.
Proof.
  intros [H1 H2] [H1' H2'] E. destruct (colon_split _ _ _ _ H1 H1' E) as [-> Ej]. split; [done|].
  assert (Hempty : forall l, Forall (fun n => n <> "" /\ str_mem "," n = false) l -> str_join "," l = "" -> l = []).
  { intros [|n l] Hl; [done|]. apply Forall_cons in Hl as [[Hn _] _]. destruct n as [|a n]; [done|]. intros E'. apply (f_equal String.length) in E'.
    destruct l as [|m l]; cbn [str_join] in E'; [done|]. rewrite str_length_app in E'. cbn in E'. lia. }
  destruct names as [|n l], names' as [|n' l'].
  - done.
  - symmetry in Ej. by apply Hempty in Ej.
  - by apply Hempty in Ej.
  - rewrite <- (split_join (n :: l)), Ej by done. by apply split_join.
Qed.
Lemma labels_names (labels : Labels) n : n ∈ extractLabelKeys labels <-> is_Some (labels !! n).
Proof.
  unfold extractLabelKeys. rewrite merge_sort_Permutation, list_elem_of_In, in_map_iff. split.
  - intros ([k v] & <- & Hin). apply list_elem_of_In, elem_of_map_to_list in Hin. by eexists.
  - intros [v Hv]. exists (n, v). split; [done|]. by apply list_elem_of_In, elem_of_map_to_list.
Qed.
Lemma labels_size (labels : Labels) : length (extractLabelKeys labels) = size labels.
Proof. unfold extractLabelKeys. by rewrite merge_sort_Permutation, length_map, length_map_to_list. Qed.

(** * What holds of a manager whose registry is its own *)
Definition own (s : State_) : list nat := default [] ((snd s).(registries) !! (fst s).(registry)).
Record Inv (s : State_) : Prop := {
  inv_maps : forall k key i, maps k (fst s) !! key = Some i ->
    exists v name, nth_error (snd s).(vecs) i = Some v /\ v.(v_kind) = k /\ clean name v.(labelNames) /\
      key = getLabelKey name v.(labelNames) /\ v.(fqName) = BuildFQName (fst s).(namespace) (fst s).(subsystem) name /\ i ∈ own s;
  inv_own : forall i, i ∈ own s -> (i < length (snd s).(vecs))%nat;
  inv_once : forall i j v w, i ∈ own s -> j ∈ own s -> nth_error (snd s).(vecs) i = Some v -> nth_error (snd s).(vecs) j = Some w ->
    v.(fqName) = w.(fqName) -> i = j;
}.
Lemma Inv_Init project model fresh c : Inv (Init project model fresh c).
Proof.
  assert (Ho : own (Init project model fresh c) = []) by (unfold own, Init; cbn; by rewrite lookup_insert_eq).
  split; rewrite ?Ho.
  - intros k key i H1. exfalso. destruct k; cbn in H1; by rewrite lookup_empty in H1.
  - set_solver.
  - set_solver.
Qed.

Lemma registered_own (s : State_) v : v ∈ registered (fst s).(registry) (snd s) <-> exists i, i ∈ own s /\ nth_error (snd s).(vecs) i = Some v.
Proof. unfold registered. rewrite list_elem_of_omap. fold (own s). naive_solver. Qed.
Lemma find_fq q l : List.find (fun x => str_eqb x.(fqName) q) l = None <-> forall v, v ∈ l -> v.(fqName) <> q.
Proof.
  split.
  - intros H1 v Hv E. apply list_elem_of_In in Hv. apply (List.find_none _ _ H1) in Hv. rewrite <- E in Hv. unfold str_eqb in Hv. by rewrite String.eqb_refl in Hv.
  - intros H1. destruct (List.find _ l) as [v|] eqn:E; [|done]. apply List.find_some in E as [Hin E]. apply String.eqb_eq in E.
    by destruct (H1 v (proj2 (list_elem_of_In _ _) Hin)).
Qed.

Lemma maps_remember k key i names em k2 key2 :
  maps k2 (remember k key i names em) !! key2 = if decide (k2 = k /\ key2 = key) then Some i else maps k2 em !! key2.
Proof.
  destruct (decide (k2 = k)) as [->|Hk].
  - destruct (decide (key2 = key)) as [->|Hn].
    + rewrite decide_True by done. destruct k; cbn; rewrite decide_True by done; by rewrite lookup_insert_eq.
    + rewrite decide_False by tauto. destruct k; cbn; rewrite decide_True by done; by rewrite lookup_insert_ne.
  - rewrite decide_False by tauto. destruct k2; cbn; rewrite decide_False by congruence; done.
Qed.
Lemma nth_error_snoc {A} (l : list A) x i : nth_error (l ++ [x]) i = if decide (i = length l) then Some x else nth_error l i.
Proof.
  destruct (decide (i = length l)) as [->|Hn]; [by rewrite nth_error_app2, Nat.sub_diag by lia|].
  destruct (decide (i < length l)%nat); [by rewrite nth_error_app1 by lia|].
  rewrite nth_error_app2 by lia. rewrite (proj2 (nth_error_None l i)) by lia. apply nth_error_None. cbn. lia.
Qed.

(** A vector that is remembered, or a new one for a name that the registry does
    not have. *)
Lemma autoRegister_inv k x name labels s i s' :
  Inv s -> clean name (extractLabelKeys labels) -> autoRegister k x name labels s = (Val (Ok i), s') ->
  let key := getLabelKey name (extractLabelKeys labels) in
  Inv s' /\ maps k (fst s') !! key = Some i /\
  ((s' = s) \/
   (maps k (fst s) !! key = None /\ i = length (snd s).(vecs) /\
    (forall k2 key2, maps k2 (fst s') !! key2 = if decide (k2 = k /\ key2 = key) then Some i else maps k2 (fst s) !! key2) /\
    exists v, (snd s').(vecs) = ((snd s).(vecs) ++ [v])%list /\ v.(series) = ∅ /\ v.(labelNames) = extractLabelKeys labels /\ v.(extra) = x)).
Proof.
  destruct s as [em c]. intros HI Hc. unfold autoRegister. set (names := extractLabelKeys labels) in *. set (key := getLabelKey name names).
  destruct (maps k em !! key) as [j|] eqn:Ek; [intros [= <- <-]; cbn; split; [done|]; split; [done|by left]|].
  set (v := mkVec k _ _ names x ∅). destruct (new_vec_panics v); [done|]. unfold Register.
  destruct (negb (valid_desc v)); [done|]. destruct (List.find _ _) as [y|] eqn:Ef; [by destruct (_ && _)|]. intros [= <- <-].
  cbv zeta. cbn [fst snd vecs registries]. split; [|split; [by rewrite maps_remember, decide_True|right]].
  - destruct HI as [Hm Ho Hu]. assert (Hnew : forall i, i ∈ own (em, c) -> (i < length c.(vecs))%nat) by exact Ho.
    assert (Hown : own (remember k key (length c.(vecs)) names em, mkClient (c.(vecs) ++ [v]) (<[em.(registry) := (own (em, c) ++ [length c.(vecs)])%list]> c.(registries)))
      = (own (em, c) ++ [length c.(vecs)])%list).
    { unfold own at 1. cbn [fst snd registries registry remember]. by rewrite lookup_insert_eq. }
    change (default [] (c.(registries) !! em.(registry))) with (own (em, c)).
    split; rewrite ?Hown.
    + intros k2 key2 i. cbn [fst snd vecs]. rewrite maps_remember, nth_error_snoc. case_decide as Hd.
      * intros [= <-]. destruct Hd as [-> ->]. rewrite decide_True by done. exists v, name. repeat split; try done; try apply Hc. set_solver.
      * intros Hi. destruct (Hm k2 key2 i Hi) as (u & n & H1 & H2 & H3 & H4 & H5 & H6). cbn in *.
        rewrite decide_False by (apply Ho in H6; lia). exists u, n. repeat split; try done; try apply H3. set_solver.
    + intros i Hi. cbn [snd vecs]. rewrite length_app. cbn. apply elem_of_app in Hi as [Hi|Hi]; [apply Ho in Hi; cbn in Hi; lia|].
      apply list_elem_of_singleton in Hi. lia.
    + intros a b u w Ha Hb. cbn [snd vecs]. rewrite !nth_error_snoc.
      assert (Hf : forall u j, j ∈ own (em, c) -> nth_error c.(vecs) j = Some u -> u.(fqName) <> v.(fqName)).
      { intros u' j Hj Hn. eapply (proj1 (find_fq _ _) Ef). apply (registered_own (em, c)). by exists j. }
      rewrite elem_of_app, list_elem_of_singleton in Ha. rewrite elem_of_app, list_elem_of_singleton in Hb.
      destruct Ha as [Ha| ->], Hb as [Hb| ->]; [| | |done].
      * rewrite !decide_False by (apply Ho in Ha, Hb; cbn in *; lia). by apply (Hu a b).
      * rewrite decide_False, decide_True by (apply Ho in Ha; cbn in *; lia || done). intros Hu1 [= <-] E. by destruct (Hf u a Ha Hu1).
      * rewrite decide_True, decide_False by (apply Ho in Hb; cbn in *; lia || done). intros [= <-] Hw E. by destruct (Hf w b Hb Hw).
  - split; [done|]. split; [done|]. split; [intros k2 key2; apply maps_remember|]. by exists v.
Qed.

(** * One operation of a builder *)
Definition record (k : Kind) (x : Extra) (name : string) (labels : Labels) (u : Update) (s : State_) : Panics (option error) * State_ :=
  finish labels u (autoRegister k x name labels s).
Lemma builders_record value cb gb hb sb s :
  counter_op value cb s = record KCounter NoExtra cb.(cb_name) (default ∅ cb.(cb_labels)) value s /\
  gauge_op value gb s = record KGauge NoExtra gb.(gb_name) (default ∅ gb.(gb_labels)) value s /\
  (forall o, Histogram_Observe o hb s = record KHistogram (XBuckets (match hb.(hb_buckets) with [] => DefBuckets | l => l end)) hb.(hb_name) (default ∅ hb.(hb_labels)) (UObserve o) s) /\
  (forall o, Summary_Observe o sb s = record KSummary (XObjectives (match sb.(sb_objectives) with [] => defObjectives | l => l end)) sb.(sb_name) (default ∅ sb.(sb_labels)) (UObserve o) s).
Proof. split_and!; try done; intros o; [unfold Histogram_Observe, autoRegisterHistogram|unfold Summary_Observe, autoRegisterSummary]; by case_match. Qed.

(** What was recorded for the series [labels] of the metric [name]. *)
Definition samples (s : State_) (i : nat) (labels : Labels) : list Update :=
  match nth_error (snd s).(vecs) i with Some v => default [] (v.(series) !! labels) | None => [] end.
Definition view (s : State_) (k : Kind) (name : string) (labels : Labels) : list Update :=
  match maps k (fst s) !! getLabelKey name (extractLabelKeys labels) with Some i => samples s i labels | None => [] end.

Lemma BuildFQName_inj ns sub a b : BuildFQName ns sub a = BuildFQName ns sub b -> a = b.
Proof.
  assert (Hne : forall p q n : string, n <> "" -> p ++ q ++ n <> "").
  { intros p q n Hn E. apply (f_equal String.length) in E. rewrite !str_length_app in E. destruct n; [done|]. cbn in E. lia. }
  assert (Hinj : forall p q q' : string, p ++ q = p ++ q' -> q = q') by (intros p; induction p as [|c p IH]; intros q q' E; [done|injection E as E; by apply IH]).
  unfold BuildFQName, str_eqb. destruct (String.eqb_spec a ""), (String.eqb_spec b ""); subst; try done; intros E.
  - by destruct (Hne _ _ _ n (eq_sym E)).
  - by destruct (Hne _ _ _ n E).
  - by apply Hinj, Hinj in E.
Qed.
(** A remembered key is its vector's, and a vector has one key. *)
Lemma remembered s k name labels i :
  Inv s -> clean name (extractLabelKeys labels) -> maps k (fst s) !! getLabelKey name (extractLabelKeys labels) = Some i ->
  exists v, nth_error (snd s).(vecs) i = Some v /\ v.(v_kind) = k /\ v.(labelNames) = extractLabelKeys labels /\
    v.(fqName) = BuildFQName (fst s).(namespace) (fst s).(subsystem) name /\ i ∈ own s.
Proof.
  intros HI Hc Hi. destruct (inv_maps _ HI _ _ _ Hi) as (v & n & H1 & H2 & H3 & H4 & H5 & H6).
  destruct (key_inj _ _ _ _ Hc H3 H4) as [-> E]. by exists v.
Qed.
Lemma remembered_once s k name labels k2 name2 labels2 i :
  Inv s -> clean name (extractLabelKeys labels) -> clean name2 (extractLabelKeys labels2) ->
  maps k (fst s) !! getLabelKey name (extractLabelKeys labels) = Some i ->
  maps k2 (fst s) !! getLabelKey name2 (extractLabelKeys labels2) = Some i -> k = k2 /\ name = name2.
Proof.
  intros HI Hc Hc2 Hi Hi2. destruct (remembered _ _ _ _ _ HI Hc Hi) as (v & H1 & H2 & _ & H3 & _), (remembered _ _ _ _ _ HI Hc2 Hi2) as (w & H1' & H2' & _ & H3' & _).
  rewrite H1 in H1'. injection H1' as <-. split; [congruence|]. eapply BuildFQName_inj. by rewrite <- H3, <- H3'.
Qed.

Lemma nth_error_lookup {A} (l : list A) i : nth_error l i = l !! i.
Proof. revert i. induction l as [|x l IH]; intros [|i]; try done. apply IH. Qed.
(** With the vectors as they are, one update is appended to one series. *)
Lemma with_update_inv em c i labels u o c' :
  with_update i labels u c = (o, c') -> c'.(registries) = c.(registries) /\ length c'.(vecs) = length c.(vecs) /\
  (forall j, option_map (fun v => (v.(v_kind), v.(fqName), v.(labelNames))) (nth_error c'.(vecs) j) =
             option_map (fun v => (v.(v_kind), v.(fqName), v.(labelNames))) (nth_error c.(vecs) j)) /\
  (o = Val None -> forall j l, samples (em, c') j l = (samples (em, c) j l ++ (if decide (j = i /\ l = labels) then [u] else []))%list).
Proof.
  unfold with_update. destruct (nth_error c.(vecs) i) as [v|] eqn:Ev; [|by intros [= <- <-]].
  destruct (with_panics labels v); [by intros [= <- <-]|].
  assert (Hlen : (i < length c.(vecs))%nat) by (apply nth_error_Some; by rewrite Ev).
  assert (Hnth : forall us j, nth_error (<[i := push labels us v]> c.(vecs)) j = if decide (j = i) then Some (push labels us v) else nth_error c.(vecs) j).
  { intros us j. rewrite !nth_error_lookup. destruct (decide (j = i)) as [->|Hj]; [by rewrite list_lookup_insert_eq|by rewrite list_lookup_insert_ne]. }
  assert (Hsame : forall us j, option_map (fun v => (v.(v_kind), v.(fqName), v.(labelNames))) (nth_error (<[i := push labels us v]> c.(vecs)) j) =
             option_map (fun v => (v.(v_kind), v.(fqName), v.(labelNames))) (nth_error c.(vecs) j)).
  { intros us j. rewrite Hnth. case_decide; [subst; by rewrite Ev|done]. }
  destruct (update_panics _ _); intros [= <- <-]; cbn [vecs registries]; rewrite length_insert.
  - split_and!; auto. done.
  - split_and!; auto. intros _ j l. unfold samples. cbn [snd vecs]. rewrite Hnth. destruct (decide (j = i)) as [->|Hj].
    + rewrite Ev. cbn. destruct (decide (l = labels)) as [->|Hl]; [by rewrite lookup_insert_eq, decide_True|].
      by rewrite lookup_insert_ne, decide_False, app_nil_r by naive_solver.
    + by rewrite decide_False, app_nil_r by tauto.
Qed.
Lemma Inv_same em c c' :
  c'.(registries) = c.(registries) -> length c'.(vecs) = length c.(vecs) ->
  (forall j, option_map (fun v => (v.(v_kind), v.(fqName), v.(labelNames))) (nth_error c'.(vecs) j) =
             option_map (fun v => (v.(v_kind), v.(fqName), v.(labelNames))) (nth_error c.(vecs) j)) ->
  Inv (em, c) -> Inv (em, c').
Proof.
  intros Hr Hlen Hs [Hm Ho Hu].
  assert (Hown : own (em, c') = own (em, c)) by (unfold own; cbn; by rewrite Hr).
  assert (Hat : forall j v, nth_error c'.(vecs) j = Some v -> exists w, nth_error c.(vecs) j = Some w /\ w.(fqName) = v.(fqName)).
  { intros j v Hj. specialize (Hs j). rewrite Hj in Hs. destruct (nth_error c.(vecs) j) as [w|]; [|done]. injection Hs as ???. exists w. done. }
  split; rewrite ?Hown.
  - intros k key i Hi. destruct (Hm k key i Hi) as (v & n & H1 & H2 & H3 & H4 & H5 & H6). cbn in *. specialize (Hs i). rewrite H1 in Hs.
    destruct (nth_error c'.(vecs) i) as [w|]; [|done]. injection Hs as E1 E2 E3. exists w, n. by rewrite E1, E2, E3.
  - cbn. rewrite Hlen. exact Ho.
  - intros i j v w Hi Hj Hv Hw E. destruct (Hat _ _ Hv) as (v0 & Hv0 & E1), (Hat _ _ Hw) as (w0 & Hw0 & E2). apply (Hu i j v0 w0); auto. congruence.
Qed.

Lemma with_update_val i labels u c o c' : with_update i labels u c = (Val o, c') -> o = None.
Proof. unfold with_update. destruct (nth_error _ _); [|done]. destruct (with_panics _ _); [done|]. destruct (update_panics _ _); congruence. Qed.
Lemma autoRegister_failed k x name labels s r s' : autoRegister k x name labels s = (r, s') -> (forall i, r <> Val (Ok i)) -> s' = s.
Proof.
  destruct s as [em c]. unfold autoRegister. intros E Hr. destruct (maps _ _ !! _); [congruence|]. destruct (new_vec_panics _); [congruence|].
  destruct (Register _ _ _); [|congruence]. injection E as <- _. by destruct (Hr (length c.(vecs))).
Qed.
(** After a registration a key finds what it found, the new one an empty
    vector. *)
Lemma autoRegister_view k x name labels s i s' k2 name2 labels2 :
  Inv s -> clean name (extractLabelKeys labels) -> clean name2 (extractLabelKeys labels2) -> autoRegister k x name labels s = (Val (Ok i), s') ->
  view s' k2 name2 labels2 = view s k2 name2 labels2.
Proof.
  intros HI Hc Hc2 Ea. destruct (autoRegister_inv _ _ _ _ _ _ _ HI Hc Ea) as (HI1 & Hk & [->|(Hn & Hi & Hm & v & Hv & Hs & Hl & _)]); [done|].
  unfold view. rewrite Hm. assert (Hsamp : forall j, samples s' j labels2 = samples s j labels2).
  { intros j. unfold samples. rewrite Hv, nth_error_snoc. case_decide as Hj; [|done]. subst j. rewrite Hs, lookup_empty.
    by rewrite (proj2 (nth_error_None _ _)) by lia. }
  case_decide as Hd.
  - destruct Hd as [-> ->]. rewrite Hn, Hsamp, Hi. unfold samples. by rewrite (proj2 (nth_error_None _ _)) by lia.
  - by destruct (maps k2 _ !! _).
Qed.

(** One operation and what every key then finds. *)
Lemma record_view k x name labels u s o s' :
  Inv s -> clean name (extractLabelKeys labels) -> record k x name labels u s = (Val o, s') ->
  Inv s' /\ (o <> None -> s' = s) /\
  (o = None -> forall k2 name2 labels2, clean name2 (extractLabelKeys labels2) ->
     view s' k2 name2 labels2 = (view s k2 name2 labels2 ++ (if decide ((k2, name2, labels2) = (k, name, labels)) then [u] else []))%list).
Proof.
  intros HI Hc. unfold record. destruct (autoRegister k x name labels s) as [[[i|e]|p] [em1 c1]] eqn:Ea; [|intros [= <- <-]|done].
  2: { by apply autoRegister_failed in Ea as ->. }
  destruct (autoRegister_inv _ _ _ _ _ _ _ HI Hc Ea) as (HI1 & Hk & _). cbn [finish].
  destruct (with_update i labels u c1) as [o1 c2] eqn:Ew. intros [= -> <-].
  destruct (with_update_inv em1 _ _ _ _ _ _ Ew) as (Hr & Hlen & Hs & Hv). split_and!; [by eapply Inv_same|by rewrite (with_update_val _ _ _ _ _ _ Ew)|].
  intros -> k2 name2 labels2 Hc2. specialize (Hv eq_refl). rewrite <- (autoRegister_view _ _ _ _ _ _ _ k2 name2 labels2 HI Hc Hc2 Ea).
  unfold view. cbn [fst] in *. destruct (maps k2 em1 !! _) as [j|] eqn:Ej.
  - rewrite Hv. f_equal. destruct (decide (_ = _ /\ _)) as [[-> ->]|Hd].
    + destruct (remembered_once (em1, c1) _ _ _ _ _ _ _ HI1 Hc Hc2 Hk Ej) as [-> ->]. by rewrite decide_True.
    + rewrite decide_False; [done|]. intros [= -> -> ->]. cbn in Ej. rewrite Hk in Ej. naive_solver.
  - rewrite decide_False; [done|]. intros [= -> -> ->]. by rewrite Hk in Ej.
Qed.

(** C27: A metric behaves as one list of updates for each kind, name and set of
    labels: an operation that succeeds appends its update to the list of its
    own kind, name and labels and leaves every other as it is, whether it had
    to register the vector first or not; an operation that answers an error
    changes nothing. *)
Theorem record_appends k x name labels u s o s' :
  Inv s -> clean name (extractLabelKeys labels) -> record k x name labels u s = (Val o, s') ->
  Inv s' /\ (o <> None -> s' = s) /\
  (o = None -> forall k2 name2 labels2, clean name2 (extractLabelKeys labels2) ->
     view s' k2 name2 labels2 = (view s k2 name2 labels2 ++ (if decide ((k2, name2, labels2) = (k, name, labels)) then [u] else []))%list).
Proof. apply record_view. Qed.

(** The client refuses a name that the registry has. *)
Lemma Register_taken (s : State_) i v w :
  i ∈ own s -> nth_error (snd s).(vecs) i = Some v -> w.(fqName) = v.(fqName) -> exists e, Register (fst s).(registry) w (snd s) = Err e.
Proof.
  intros Hi Hv E. unfold Register. destruct (negb (valid_desc w)); [by eexists|]. destruct (List.find _ _) eqn:Ef; [destruct (_ && _); by eexists|].
  destruct (proj1 (find_fq _ _) Ef v); [|done]. apply registered_own. by exists i.
Qed.

(** The first use of a name fixes its kind and its label names: with another
    kind, or with other label names, every later operation is refused with an
    error and nothing changes. *)
Theorem name_fixed k k2 x name labels labels2 u s :
  Inv s -> clean name (extractLabelKeys labels) -> clean name (extractLabelKeys labels2) ->
  is_Some (maps k (fst s) !! getLabelKey name (extractLabelKeys labels)) ->
  k2 <> k \/ extractLabelKeys labels2 <> extractLabelKeys labels -> ~ (k2 = KSummary /\ "quantile" ∈ extractLabelKeys labels2) ->
  exists e, record k2 x name labels2 u s = (Val (Some e), s).
Proof.
  intros HI Hc Hc2 [i Hi] Hd Hq. destruct (remembered _ _ _ _ _ HI Hc Hi) as (v & H1 & H2 & H3 & H4 & H5). destruct s as [em c]. cbn [fst snd] in *.
  unfold record, autoRegister. destruct (maps k2 em !! _) as [j|] eqn:Ej.
  - destruct (remembered (em, c) _ _ _ _ HI Hc2 Ej) as (w & G1 & G2 & G3 & G4 & G5). cbn [fst snd] in *.
    assert (i = j) as <- by (apply (inv_once _ HI i j v w); auto; congruence). rewrite H1 in G1. injection G1 as <-. destruct Hd; congruence.
  - destruct (new_vec_panics _) eqn:Ep.
    { unfold new_vec_panics in Ep. cbn [v_kind labelNames] in Ep. destruct (bool_decide_reflect (k2 = KSummary)) as [Ek|]; [|done].
      destruct (existsb _ _) eqn:Ex; [|done]. apply existsb_exists in Ex as (n & Hn & E). apply String.eqb_eq in E as <-.
      destruct Hq. split; [done|]. by apply list_elem_of_In. }
    match goal with |- context [Register _ ?w _] => destruct (Register_taken (em, c) i v w H5 H1) as [e He]; [by rewrite H4|] end.
    cbn [fst snd] in He. rewrite He. by eexists.
Qed.
End Metrics.

(** * On concrete values *)
#[local] Instance ZFloat : Float := { float := Z; negative := fun v => v <? 0; increasing := fun _ => true; infinite := fun _ => false }.
Definition demo_s : @State_ ZFloat := Init "shop" "api" 0 (mkClient [] ∅).
Definition hits : @State_ ZFloat := snd (autoRegister KCounter NoExtra "hits" ∅ demo_s).
Lemma clean_hits : clean "hits" (extractLabelKeys ∅).
Proof. split; [done|]. by apply Forall_nil. Qed.
Lemma hits_inv : Inv hits.
Proof.
  destruct (autoRegister KCounter NoExtra "hits" ∅ demo_s) as [r s'] eqn:E. assert (hits = s') as -> by (unfold hits; by rewrite E).
  assert (Hr : r = Val (Ok 0%nat)) by (replace r with (fst (r, s')) by done; rewrite <- E; vm_compute; reflexivity).
  rewrite Hr in E. apply (autoRegister_inv _ _ _ _ _ _ _ (Inv_Init "shop" "api" 0 (mkClient [] ∅)) clean_hits E).
Qed.
Lemma record_appends_witness : exists s', record KCounter NoExtra "hits" ∅ UInc demo_s = (Val None, s') /\ Inv s' /\
  view s' KCounter "hits" ∅ = (view demo_s KCounter "hits" ∅ ++ [UInc])%list.
Proof.
  destruct (record KCounter NoExtra "hits" ∅ UInc demo_s) as [r s'] eqn:E. exists s'.
  assert (Hr : r = Val None) by (replace r with (fst (r, s')) by done; rewrite <- E; vm_compute; reflexivity). rewrite Hr in E |- *.
  destruct (record_appends _ _ _ _ _ _ _ _ (Inv_Init "shop" "api" 0 (mkClient [] ∅)) clean_hits E) as (H1 & _ & H2).
  split; [done|]. split; [done|]. rewrite (H2 eq_refl _ _ _ clean_hits). by rewrite decide_True.
Defined.
Lemma name_fixed_witness : exists e, record KGauge NoExtra "hits" ∅ UInc hits = (Val (Some e), hits).
Proof.
  apply (name_fixed KCounter KGauge NoExtra "hits" ∅ ∅ UInc hits hits_inv clean_hits clean_hits).
  - exists 0%nat. vm_compute. reflexivity.
  - by left.
  - by intros [? _].
Defined.
(** The second set of label names of a name is refused, a counter that goes
    down panics, and a key does not tell one label [a,b] from two. *)
Example hits_by_path : fst (Counter_Inc (Counter_With {["path" := "/"]} (Counter "hits")) hits) =
  Val (Some (ErrWrap "failed to register counter hits: " (ErrNew "a previously registered descriptor has different label names or a different help string"))).
Proof. vm_compute. reflexivity. Qed.
Example down_panics : fst (Counter_Add (-1) (Counter "hits") hits) = Panic "counter cannot decrease in value".
Proof. vm_compute. reflexivity. Qed.
Example comma_label : fst (Counter_Inc (Counter_With {["a" := "1"; "b" := "2"]} (Counter "n"))
  (snd (Counter_Inc (Counter_With {["a,b" := "1"]} (Counter "n")) demo_s))) = Panic "inconsistent label cardinality".
Proof. vm_compute. reflexivity. Qed.
(** The registry that [NewEasyMetrics] is given is not the one it uses. *)
Example registry_ignored : (@NewEasyMetrics 1 2 []).(registry) = 1%nat.
Proof. reflexivity. Qed.
