(* ===== verification/Jobs.v ===== *)
(** Jobs: [src/job] with its cron jobs and asynchronous jobs, and the export jobs
    of [src/apis/exportjob] with the monitor that ends those that time out.

    A table is its rows in the order of their ids; times are nanoseconds.  A
    comparison of seconds is made on the nanoseconds, without the rounding of
    the floats.  The columns' sizes, [updated_at] and [deleted_at] are left out:
    nothing here deletes a job. *)
From S2P Require Import Prelude Gorm Types.
#[local] Open Scope string_scope.
#[local] Open Scope Z_scope.

(** * Tables of jobs *)
Class JobRow (E : Type) : Type := {
  row_id : E -> Z;
  row_create : Z -> Z -> E -> E   (* the row that is stored: now, its id *)
}.
Definition ErrRecordNotFound : error := ErrVar "record not found".
Section Db.
Context `{Env} {S E : Type} `{JobRow E} `{HasTab S E}.
(** [Create(&e)]: the row comes back. *)
Definition db_create (e : E) : M S E :=
  let! now := gnow in
  gextr (fun s => let t := get_tab s in let row := row_create now t.(next_id) e in
                  (Ok row, set_tab (mkGTab (t.(rows) ++ [row]) (t.(next_id) + 1)) s)).
(** [Where(p).Last(&e)]: by the largest id. *)
Definition db_last (p : E -> bool) : M S E :=
  gextr (fun s => (match last (List.filter p (get_tab s).(rows)) with Some e => Ok e | None => Err ErrRecordNotFound end, s)).
(** [Where(p).Find(&l)]. *)
Definition db_find (p : E -> bool) : M S (list E) :=
  gextr (fun s => (Ok (List.filter p (get_tab s).(rows)), s)).
Definition replace (e : E) (l : list E) : list E := map (fun x => if row_id x =? row_id e then e else x) l.
(** [Save(&e)] of a row that is there: every column. *)
Definition db_save (e : E) : M S unit :=
  gextr (fun s => let t := get_tab s in (Ok tt, set_tab (mkGTab (replace e t.(rows)) t.(next_id)) s)).
(** [Where("id = ?", id).Updates(map)]. *)
Definition db_update (id : Z) (f : E -> E) : M S unit :=
  gextr (fun s => let t := get_tab s in
                  (Ok tt, set_tab (mkGTab (map (fun x => if row_id x =? id then f x else x) t.(rows)) t.(next_id)) s)).
End Db.

(** * [job/job.go] *)
Definition JobStatusPending : string := "pending".
Definition JobStatusSuccess : string := "success".
Definition JobStatusFailed : string := "failed".
Definition second : Z := 1000000000.
(** [int(d.Seconds())]. *)
Definition seconds (d : Z) : Z := Z.quot d second.

(** * Export jobs: [job/export_job.go], [apis/exportjob] *)
Module Exporting.
Record ExportJob : Type := mkExport {
  ID : Z; CreatedAt : Z; JobUUID : string; CompanyID : Z; Uin : Z; Purpose : string;
  ExportStatus : string; CostSeconds : Z; TimeoutSeconds : Z; Output : string; ErrorMsg : string
}.
#[global] Instance export_row : JobRow ExportJob := {
  row_id := ID;
  row_create now id j := mkExport id now j.(JobUUID) j.(CompanyID) j.(Uin) j.(Purpose) j.(ExportStatus) j.(CostSeconds)
                           j.(TimeoutSeconds) j.(Output) j.(ErrorMsg)
}.
Definition set_end (status msg : string) (j : ExportJob) : ExportJob :=
  mkExport j.(ID) j.(CreatedAt) j.(JobUUID) j.(CompanyID) j.(Uin) j.(Purpose) status j.(CostSeconds) j.(TimeoutSeconds) j.(Output) msg.
Definition set_output (o : string) (j : ExportJob) : ExportJob :=
  mkExport j.(ID) j.(CreatedAt) j.(JobUUID) j.(CompanyID) j.(Uin) j.(Purpose) j.(ExportStatus) j.(CostSeconds) j.(TimeoutSeconds) o j.(ErrorMsg).
Definition set_cost (c : Z) (j : ExportJob) : ExportJob :=
  mkExport j.(ID) j.(CreatedAt) j.(JobUUID) j.(CompanyID) j.(Uin) j.(Purpose) j.(ExportStatus) c j.(TimeoutSeconds) j.(Output) j.(ErrorMsg).

Section Ops.
Context `{Env} {S : Type} `{HasTab S ExportJob}.

Definition CreateExportJob (uuid : string) (compid uin : Z) (purpose : string) (timeoutSeconds : Z) : M S ExportJob :=
  db_create (mkExport 0 0 uuid compid uin purpose JobStatusPending 0 timeoutSeconds "" "").
Definition GetJobByUUID (uuid : string) : M S ExportJob := db_last (fun j => str_eqb j.(JobUUID) uuid).

(** Past its time at [now]. *)
Definition late (now : Z) (j : ExportJob) : bool := (0 <? j.(TimeoutSeconds)) && (j.(TimeoutSeconds) * second <? now - j.(CreatedAt)).
(** [time.Since] is asked only of a job that has a time. *)
Definition late_now (j : ExportJob) : M S bool :=
  if 0 <? j.(TimeoutSeconds) then let! now := gnow in gret (late now j) else gret false.
Definition timed_out (j : ExportJob) : ExportJob := set_end JobStatusFailed "timeout" j.
Definition settle (output : string) (e : option error) (timeout : bool) (j : ExportJob) : ExportJob :=
  let j := if timeout then timed_out j else j in
  let j := match e with
           | Some err => set_end JobStatusFailed (if str_eqb j.(ErrorMsg) "" then Error err else j.(ErrorMsg) ++ "; " ++ Error err) j
           | None => if str_eqb j.(ExportStatus) JobStatusPending then set_end JobStatusSuccess j.(ErrorMsg) j else j
           end in
  if str_eqb output "" then j else set_output output j.
Definition UpdateJobStatus (uuid output : string) (e : option error) : M S ExportJob :=
  let! ejob := GetJobByUUID uuid in
  let! timeout := late_now ejob in
  let ejob := settle output e timeout ejob in
  let! now := gnow in
  let ejob := set_cost (seconds (now - ejob.(CreatedAt))) ejob in
  db_save ejob ;;; gret ejob.

Definition checkTimeoutJob (j : ExportJob) : M S bool :=
  let! timeout := late_now j in
  if timeout then db_save (timed_out j) ;;; gret true else gret false.
Definition pending_timed (j : ExportJob) : bool := str_eqb j.(ExportStatus) JobStatusPending && (0 <? j.(TimeoutSeconds)).
(** Errors are logged and end the sweep. *)
Definition repairTimeoutJobs : M S unit :=
  gtry (let! jobs := db_find pending_timed in gfor jobs (fun j => checkTimeoutJob j ;;; gret tt)) ;;; gret tt.
(** [ticks] rounds of the timer, until the process ends. *)
Fixpoint MonitorExportJobRoutine (ticks : nat) : M S unit :=
  match ticks with O => gret tt | Datatypes.S n => repairTimeoutJobs ;;; MonitorExportJobRoutine n end.

(** [biz_api.go]: what the response holds; the storage, which is loaded by the
    purpose, gives the link. *)
Record Detail : Type := mkDetail { d_code : Z; d_message : string; d_job : string; d_url : string; d_status : string; d_error : string }.
Definition DetailExportJob (LoadStorager : string -> Res (string -> Res string)) (uin : Z) (jobID : string) : M S Detail :=
  let! r := gtry (GetJobByUUID jobID) in
  gret (match r with
        | Err e => mkDetail 500 (Error e) "" "" "" ""
        | Ok ejob =>
            if negb (ejob.(Uin) =? uin) then mkDetail 403 "无权访问" "" "" "" ""
            else
              let base code msg url := mkDetail code msg ejob.(JobUUID) url ejob.(ExportStatus) ejob.(ErrorMsg) in
              if str_eqb ejob.(Output) "" || negb (str_eqb ejob.(ExportStatus) JobStatusSuccess) then base 0 "" ""
              else match LoadStorager ejob.(Purpose) with
                   | Err e => base 500 (Error e) ""
                   | Ok s => match s ejob.(Output) with Err e => base 500 (Error e) "" | Ok url => base 0 "" url end
                   end
        end).
End Ops.
End Exporting.

(** * Asynchronous jobs: [job/async_job.go], [job/asyncjob] *)
Module Async.
Record AsyncJob : Type := mkAsync {
  ID : Z; CreatedAt : Z; JobUUID : string; Uin : Z; Purpose : string; BusinessID : Z; JobStatus : string;
  ErrorMsg : string; CostSeconds : Z; Input : string; Output : string; Extra : string
}.
#[global] Instance async_row : JobRow AsyncJob := {
  row_id := ID;
  row_create now id j := mkAsync id now j.(JobUUID) j.(Uin) j.(Purpose) j.(BusinessID) j.(JobStatus) j.(ErrorMsg)
                           j.(CostSeconds) j.(Input) j.(Output) j.(Extra)
}.
Record CreateJobRequest : Type := mkCreate { c_Uin : Z; c_Purpose : string; c_BusinessID : Z; c_Input : string; c_Extra : string }.
Definition CreateJobRequest_Validate (req : option CreateJobRequest) : option error :=
  match req with
  | None => Some (ErrNew "request is nil")
  | Some r => if str_eqb r.(c_Purpose) "" then Some (ErrNew "purpose is empty") else None
  end.
Record UpdateJobStatusRequest : Type := mkUpdate { u_JobUUID : string; u_Error : option error; u_Output : string }.
Definition UpdateJobStatusRequest_Validate (req : option UpdateJobStatusRequest) : option error :=
  match req with
  | None => Some (ErrNew "request is nil")
  | Some r => if str_eqb r.(u_JobUUID) "" then Some (ErrNew "job_uuid is empty") else None
  end.

Section Ops.
Context `{Env} {S : Type} `{HasTab S AsyncJob}.

Definition CreateAsyncJob (uuid : string) (req : option CreateJobRequest) : M S AsyncJob :=
  match CreateJobRequest_Validate req, req with
  | None, Some r => db_create (mkAsync 0 0 uuid r.(c_Uin) r.(c_Purpose) r.(c_BusinessID) JobStatusPending "" 0 r.(c_Input) "" r.(c_Extra))
  | Some err, _ => graise err
  | None, None => graise (ErrNew "request is nil")
  end.
Definition GetJobByUUID (jobUUID : string) : M S AsyncJob := db_last (fun j => str_eqb j.(JobUUID) jobUUID).
Definition BatchGetJobByUUIDs (jobUUIDs : list string) : M S (list AsyncJob) :=
  db_find (fun j => existsb (str_eqb j.(JobUUID)) jobUUIDs).
Definition BatchGetJobStatusByUUIDs (jobUUIDs : list string) : M S (gmap string string) :=
  let! ejobs := BatchGetJobByUUIDs jobUUIDs in
  gret (fold_left (fun statusMap ejob => <[ejob.(JobUUID) := ejob.(JobStatus)]> statusMap) ejobs ∅).
(** The columns of [updateMap], from the job that was read. *)
Definition updateMap (cost : Z) (ejob : AsyncJob) (req : UpdateJobStatusRequest) (row : AsyncJob) : AsyncJob :=
  let '(status, msg) := match req.(u_Error) with
                        | Some err => (JobStatusFailed, if str_eqb ejob.(ErrorMsg) "" then Error err else ejob.(ErrorMsg) ++ "; " ++ Error err)
                        | None => (JobStatusSuccess, row.(ErrorMsg))
                        end in
  mkAsync row.(ID) row.(CreatedAt) row.(JobUUID) row.(Uin) row.(Purpose) row.(BusinessID) status msg cost row.(Input)
    (if str_eqb req.(u_Output) "" then row.(Output) else req.(u_Output)) row.(Extra).
Definition UpdateJobStatus (req : option UpdateJobStatusRequest) : M S AsyncJob :=
  match UpdateJobStatusRequest_Validate req, req with
  | None, Some r =>
      let! ejob := GetJobByUUID r.(u_JobUUID) in
      let! now := gnow in
      db_update ejob.(ID) (updateMap (seconds (now - ejob.(CreatedAt))) ejob r) ;;;
      gret ejob
  | Some err, _ => graise err
  | None, None => graise (ErrNew "request is nil")
  end.
End Ops.
End Async.

(** * Cron jobs: [job/cronjob.go] *)
Module Cron.
Record Job : Type := mkJob {
  ID : Z; CreatedAt : Z; JobUUID : string; CompanyID : Z; Uin : Z; Purpose : string; JobStatus : string; CostSeconds : Z;
  Output : string; ErrorMsg : string; Extra : string
}.
#[global] Instance cron_row : JobRow Job := {
  row_id := ID;
  row_create now id j := mkJob id now j.(JobUUID) j.(CompanyID) j.(Uin) j.(Purpose) j.(JobStatus) j.(CostSeconds) j.(Output)
                           j.(ErrorMsg) j.(Extra)
}.
Definition finish (cost : Z) (outcome : string * option error) (j : Job) : Job :=
  match outcome with
  | (_, Some taskErr) => mkJob j.(ID) j.(CreatedAt) j.(JobUUID) j.(CompanyID) j.(Uin) j.(Purpose) JobStatusFailed cost j.(Output)
                           (StringArray.Add (Error taskErr) j.(ErrorMsg)) j.(Extra)
  | (output, None) => mkJob j.(ID) j.(CreatedAt) j.(JobUUID) j.(CompanyID) j.(Uin) j.(Purpose) JobStatusSuccess cost output
                        j.(ErrorMsg) j.(Extra)
  end.
(** The function that [RegistryCronFunc] registers: [master], what the cluster
    mutex says; the task returns or panics, which is recovered and logged. *)
Definition cron_func `{Env} {S : Type} `{HasTab S Job} (master : bool) (uuid purpose : string) (taskFunc : Panics (string * option error)) : M S unit :=
  if negb master then gret tt
  else
    let! startTime := gnow in
    let! r := gtry (db_create (mkJob 0 0 uuid 0 0 purpose JobStatusPending 0 "" "" "{}")) in
    match r, taskFunc with
    | Err _, _ => gret tt
    | Ok _, Panic _ => gret tt
    | Ok job, Val outcome =>
        let! now := gnow in
        gtry (db_save (finish (seconds (now - startTime)) outcome job)) ;;; gret tt
    end.
End Cron.

(** * Tables with distinct ids *)
#[export] Instance own_tab {E} : HasTab (GTab E) E := { get_tab t := t; set_tab t _ := t }.
Lemma replace_fresh {E} `{JobRow E} (e x : E) l :
  Forall (fun y => row_id y < row_id x) l -> row_id e = row_id x -> replace e (l ++ [x]) = (l ++ [e])%list.
Proof.
  intros Hl He. unfold replace. rewrite map_app. cbn [map]. rewrite He, Z.eqb_refl. f_equal.
  induction Hl as [|y l Hy Hl IH]; [done|]. cbn [map]. rewrite IH. by replace (row_id y =? row_id x) with false by lia.
Qed.

Module ExportFacts.
Import Exporting.

(** ** The monitor *)
(** The rows with some of them timed out. *)
Definition timed (ids : list Z) (l : list ExportJob) : list ExportJob :=
  map (fun x => if bool_decide (x.(ID) ∈ ids) then timed_out x else x) l.
Lemma timed_nil l : timed [] l = l.
Proof. unfold timed. rewrite (map_ext _ id); [apply map_id|]. intros x. by rewrite bool_decide_eq_false_2 by set_solver. Qed.
Lemma same_id (l : list ExportJob) x y : NoDup (map ID l) -> x ∈ l -> y ∈ l -> x.(ID) = y.(ID) -> x = y.
Proof.
  induction l as [|z l IH]; cbn [map]; [set_solver|]. intros [Hz Hn]%NoDup_cons Hx Hy E.
  assert (Hin : forall u, u ∈ l -> u.(ID) ∈ map ID l) by (intros u Hu; apply list_elem_of_In, in_map; by apply list_elem_of_In).
  apply elem_of_cons in Hx as [->|Hx], Hy as [->|Hy]; [done| | |by apply IH].
  - exfalso. apply Hz. rewrite E. by apply Hin.
  - exfalso. apply Hz. rewrite <- E. by apply Hin.
Qed.
Lemma save_timed l ids j :
  NoDup (map ID l) -> j ∈ l -> replace (timed_out j) (timed ids l) = timed (j.(ID) :: ids) l.
Proof.
  intros Hn Hj. unfold replace, timed. rewrite map_map. apply map_ext_in. intros x Hx. apply list_elem_of_In in Hx.
  change (row_id (timed_out j)) with j.(ID).
  assert (Hid : row_id (if bool_decide (x.(ID) ∈ ids) then timed_out x else x) = x.(ID)) by (by case_bool_decide). rewrite Hid.
  destruct (Z.eqb_spec x.(ID) j.(ID)) as [E|E].
  - rewrite (same_id l x j Hn Hx Hj E). by rewrite bool_decide_eq_true_2 by set_solver.
  - destruct (decide (x.(ID) ∈ ids)); [by rewrite !bool_decide_eq_true_2 by set_solver|by rewrite !bool_decide_eq_false_2 by set_solver].
Qed.

Section Monitor.
Context `{Env}.
(** Some reading of the clock between two calls. *)
Definition seen_late (from to : nat) (j : ExportJob) : Prop := exists n, (from <= n < to)%nat /\ late (env_clock n) j = true.
Lemma seen_late_mono a b a' b' j : seen_late a b j -> (a' <= a)%nat -> (b <= b')%nat -> seen_late a' b' j.
Proof. intros (n & Hn & Hl) Ha Hb. exists n. split; [lia|done]. Qed.

Lemma checkTimeoutJob_run (t : GTab ExportJob) l ids j (w w' : World (GTab ExportJob)) r :
  NoDup (map ID l) -> j ∈ l -> (st w).(rows) = timed ids l -> checkTimeoutJob j w = (r, w') ->
  (calls w <= calls w')%nat /\ (st w').(next_id) = (st w).(next_id) /\
  (((st w').(rows) = timed ids l /\ (is_ok r = true -> late (env_clock (calls w)) j = false)) \/
   ((st w').(rows) = timed (j.(ID) :: ids) l /\ seen_late (calls w) (calls w') j)).
Proof.
  intros Hn Hj Hw. unfold checkTimeoutJob, late_now. destruct (0 <? TimeoutSeconds j) eqn:Et.
  - rewrite gbind_eq. unfold gnow at 1. rewrite gbind_eq. cbn [gret calls st]. destruct (late (env_clock (calls w)) j) eqn:El.
    + unfold db_save. rewrite gbind_eq. unfold gextr. cbn [calls st]. destruct (env_fault _); cbn; intros [= <- <-]; cbn.
      * split; [lia|]. split; [done|]. left. by split.
      * split; [lia|]. split; [done|]. right. split; [rewrite Hw; by apply save_timed|]. exists (calls w). split; [lia|done].
    + cbn [gret]. intros [= <- <-]. cbn. split; [lia|]. split; [done|]. left. by split.
  - rewrite gbind_eq. cbn [gret]. intros [= <- <-]. split; [lia|]. split; [done|]. left. split; [done|]. intros _. unfold late. by rewrite Et.
Qed.

Lemma sweep l js ids (w w' : World (GTab ExportJob)) r :
  NoDup (map ID l) -> (forall j, j ∈ js -> j ∈ l) -> (st w).(rows) = timed ids l ->
  gfor js (fun j => checkTimeoutJob j ;;; gret tt) w = (r, w') ->
  (calls w <= calls w')%nat /\
  exists ids', (st w').(rows) = timed ids' l /\ (forall i, i ∈ ids -> i ∈ ids') /\
    (forall i, i ∈ ids' -> i ∈ ids \/ exists j, j ∈ js /\ j.(ID) = i /\ seen_late (calls w) (calls w') j) /\
    (is_ok r = true -> forall j, j ∈ js -> (forall n, (calls w <= n)%nat -> late (env_clock n) j = true) -> j.(ID) ∈ ids').
Proof.
  intros Hn. revert ids w. induction js as [|j js IH]; intros ids w Hjs Hw; cbn [gfor].
  - intros [= <- <-]. split; [lia|]. exists ids. repeat split; [done|done|by left|set_solver].
  - rewrite gbind_eq, gbind_eq. destruct (checkTimeoutJob j w) as [r1 w1] eqn:E1.
    destruct (checkTimeoutJob_run (st w) l ids j w w1 r1 Hn ltac:(apply Hjs; left) Hw E1) as (Hc & _ & Hrun).
    assert (exists ids1, (st w1).(rows) = timed ids1 l /\ (forall i, i ∈ ids -> i ∈ ids1) /\
      (forall i, i ∈ ids1 -> i ∈ ids \/ i = j.(ID) /\ seen_late (calls w) (calls w1) j) /\
      (is_ok r1 = true -> late (env_clock (calls w)) j = true -> j.(ID) ∈ ids1)) as (ids1 & Hw1 & Hs1 & Hi1 & Hl1).
    { destruct Hrun as [[Hr Hl]|[Hr Hl]]; [exists ids|exists (j.(ID) :: ids)]; repeat split; [done|done|by left| |done|set_solver| |set_solver].
      - intros Ho Hlate. rewrite (Hl Ho) in Hlate. done.
      - intros i [->|Hi]%elem_of_cons; [by right|by left]. }
    destruct r1 as [b|e]; cbn [gret].
    + intros E2. destruct (IH ids1 w1 ltac:(intros; apply Hjs; by right) Hw1 E2) as (Hc2 & ids2 & Hw2 & Hs2 & Hi2 & Hl2).
      split; [lia|]. exists ids2. split; [done|]. split; [auto|]. split.
      * intros i [Hi|(k & Hk & <- & Hlk)]%Hi2; [apply Hi1 in Hi as [Hi|[-> Hlj]]; [by left|right; exists j]|right; exists k].
        { split; [left|]. split; [done|]. by eapply seen_late_mono. }
        { split; [by right|]. split; [done|]. by eapply seen_late_mono. }
      * intros Ho k [->|Hk]%elem_of_cons Hlate; [apply Hs2, Hl1; [done|apply Hlate; lia]|]. apply Hl2; [done|done|]. intros n Hn'. apply Hlate. lia.
    + intros [= <- <-]. split; [done|]. exists ids1. split; [done|]. split; [done|]. split; [|done].
      intros i [Hi|[-> Hlj]]%Hi1; [by left|right; exists j; split; [left|done]].
Qed.
Lemma sweep_ok js (w : World (GTab ExportJob)) :
  no_fault_from (calls w) -> is_ok (fst (gfor js (fun j => checkTimeoutJob j ;;; gret tt) w)) = true.
Proof.
  revert w. induction js as [|j js IH]; intros w Hf; [done|]. cbn [gfor]. rewrite gbind_eq, gbind_eq.
  unfold checkTimeoutJob, late_now. destruct (0 <? TimeoutSeconds j).
  - rewrite gbind_eq. unfold gnow at 1. rewrite gbind_eq. cbn [gret calls st]. destruct (late _ j).
    + unfold db_save. rewrite gbind_eq. unfold gextr. cbn [calls st]. rewrite (Hf _) by lia. cbn [gret].
      apply IH. cbn. intros i Hi. apply Hf. lia.
    + cbn [gret]. apply IH. cbn. intros i Hi. apply Hf. lia.
  - rewrite gbind_eq. cbn [gret]. by apply IH.
Qed.
Lemma late_mono a b j : a <= b -> late a j = true -> late b j = true.
Proof. unfold late. rewrite !andb_true_iff, !Z.ltb_lt. lia. Qed.

Definition waits (j : ExportJob) : Prop := j.(ExportStatus) = JobStatusPending /\ 0 < j.(TimeoutSeconds).
Lemma pending_timed_spec j : pending_timed j = true <-> waits j.
Proof. unfold pending_timed, waits, str_eqb. by rewrite andb_true_iff, String.eqb_eq, Z.ltb_lt. Qed.

(** C25: the monitor of export jobs: a round, whatever fails in it, changes
    nothing but jobs that were pending and past their time at a moment of the
    round, and of those only the status and the error, to a failed timeout; a
    round in which no call fails ends all jobs that were past their time when
    it began. *)
Theorem repairTimeoutJobs_sweep (w : World (GTab ExportJob)) :
  NoDup (map ID (st w).(rows)) ->
  exists ids, (after repairTimeoutJobs w).(rows) = timed ids (st w).(rows) /\
    (forall x, x ∈ (st w).(rows) -> x.(ID) ∈ ids -> waits x /\ seen_late (calls w) (calls (snd (repairTimeoutJobs w))) x) /\
    (no_fault_from (calls w) -> (forall a b, (a <= b)%nat -> env_clock a <= env_clock b) ->
     forall x, x ∈ (st w).(rows) -> waits x -> late (env_clock (calls w)) x = true -> x.(ID) ∈ ids).
Proof.
  intros Hn. unfold after, repairTimeoutJobs. rewrite gbind_eq. unfold gtry. rewrite gbind_eq. unfold db_find, gextr.
  destruct (env_fault (calls w)) as [e|] eqn:Ef; cbn [fst snd gret st calls].
  - exists []. rewrite timed_nil. repeat split; [set_solver..|]. intros Hf. by rewrite (Hf _) in Ef.
  - set (w1 := mkWorld (S (calls w)) (st w)). set (js := List.filter pending_timed _).
    assert (Hjs : forall j, j ∈ js <-> j ∈ (st w).(rows) /\ waits j)
      by (intros j; unfold js; by rewrite !list_elem_of_In, filter_In, pending_timed_spec).
    destruct (gfor js (fun j => checkTimeoutJob j ;;; gret tt) w1) as [r w2] eqn:Eg. cbn [fst snd gret st calls].
    destruct (sweep (st w).(rows) js [] w1 w2 r Hn) as (Hc & ids & Hr & _ & Hi & Hl); [intros j; by rewrite Hjs; intros []|by rewrite timed_nil|done|].
    exists ids. split; [done|]. split.
    + intros x Hx [?|(j & Hj & E & Hlate)]%Hi; [set_solver|]. apply Hjs in Hj as [Hj Hp].
      rewrite <- (same_id _ j x Hn Hj Hx E). split; [done|]. eapply seen_late_mono; [exact Hlate|cbn; lia|lia].
    + intros Hf Hm x Hx Hp Hlate. apply Hl; [|by apply Hjs|].
      * pose proof (sweep_ok js w1) as Hok. rewrite Eg in Hok. apply Hok. intros i Hi'. apply Hf. cbn in Hi'. lia.
      * intros n Hn'. eapply late_mono; [|exact Hlate]. apply Hm. cbn in Hn'. lia.
Qed.
End Monitor.

(** ** The outcome of a job *)
Definition known (status : string) : Prop := status = JobStatusPending \/ status = JobStatusSuccess \/ status = JobStatusFailed.
Definition given (e : option error) : bool := match e with Some _ => true | None => false end.
Lemma settle_status output e t j :
  known j.(ExportStatus) ->
  (settle output e t j).(ExportStatus)
  = if t || given e || str_eqb j.(ExportStatus) JobStatusFailed then JobStatusFailed else JobStatusSuccess.
Proof.
  intros Hk. unfold settle. destruct e as [err|], t; cbn [given orb timed_out set_end ExportStatus].
  all: destruct (str_eqb output ""); cbn [set_output set_end ExportStatus]; try done.
  all: by destruct Hk as [E | [E | E]]; rewrite E; cbn.
Qed.
Lemma settle_same output e t j :
  let j' := settle output e t j in
  j'.(ID) = j.(ID) /\ j'.(CreatedAt) = j.(CreatedAt) /\ j'.(JobUUID) = j.(JobUUID) /\ j'.(CompanyID) = j.(CompanyID) /\
  j'.(Uin) = j.(Uin) /\ j'.(Purpose) = j.(Purpose) /\ j'.(TimeoutSeconds) = j.(TimeoutSeconds).
Proof. unfold settle. by destruct t, e as [err|], (str_eqb output ""); cbn; repeat case_match. Qed.
Lemma last_filter {A} (p : A -> bool) l x : last (List.filter p l) = Some x -> x ∈ l /\ p x = true.
Proof. intros H. apply last_Some_elem_of in H. by rewrite list_elem_of_In, filter_In, <- list_elem_of_In in H. Qed.

Section Update.
Context `{Env}.

(** The error text a job ends with. *)
Definition end_message (late : bool) (e : option error) (msg : string) : string :=
  let msg := if late then "timeout" else msg in
  match e with
  | None => msg
  | Some err => if str_eqb msg "" then Error err else msg ++ "; " ++ Error err
  end.
Lemma settle_texts output e t j :
  (settle output e t j).(ErrorMsg) = end_message t e j.(ErrorMsg) /\
  (settle output e t j).(Output) = (if str_eqb output "" then j.(Output) else output).
Proof. unfold settle, end_message. by destruct t, e as [err|], (str_eqb output ""); cbn; repeat case_match. Qed.

(** C24: the outcome of an export job.  Without failures an update is answered with a
    job exactly when there is one of this uuid; it goes to the newest such job and
    changes no other row.  That job ends as failed when it is past its time, when
    an error is given, or when it had failed already (so a failed job stays
    failed), and as a success otherwise; its error text is the timeout's or its
    own with the error behind it, its output is replaced by one that is not
    empty, its cost is counted from its creation, and whose it is, its purpose
    and its times stay.  An update that answers an error has changed nothing. *)
Theorem UpdateJobStatus_outcome uuid output e (w w' : World (GTab ExportJob)) r :
  (forall j, j ∈ (st w).(rows) -> known j.(ExportStatus)) ->
  UpdateJobStatus uuid output e w = (r, w') ->
  let newest := last (List.filter (fun j => str_eqb j.(JobUUID) uuid) (st w).(rows)) in
  match r with
  | Err err => (st w').(rows) = (st w).(rows) /\
               (no_fault_from (calls w) -> newest = None /\ err = ErrRecordNotFound)
  | Ok j' => exists j, newest = Some j /\ (st w').(rows) = replace j' (st w).(rows) /\
      let t := late (env_clock (S (calls w))) j in
      j'.(ExportStatus) = (if t || given e || str_eqb j.(ExportStatus) JobStatusFailed
                           then JobStatusFailed else JobStatusSuccess) /\
      j'.(ErrorMsg) = end_message t e j.(ErrorMsg) /\
      j'.(Output) = (if str_eqb output "" then j.(Output) else output) /\
      j'.(CostSeconds) = seconds (env_clock (if 0 <? j.(TimeoutSeconds) then S (S (calls w)) else S (calls w)) - j.(CreatedAt)) /\
      (j'.(ID), j'.(CreatedAt), j'.(JobUUID), j'.(CompanyID), j'.(Uin), j'.(Purpose), j'.(TimeoutSeconds))
      = (j.(ID), j.(CreatedAt), j.(JobUUID), j.(CompanyID), j.(Uin), j.(Purpose), j.(TimeoutSeconds))
  end.
Proof.
  intros Hk. unfold UpdateJobStatus, GetJobByUUID, db_last. rewrite gbind_eq. unfold gextr at 1. cbv zeta.
  destruct (env_fault (calls w)) as [e0|] eqn:Ef; [intros [= <- <-]; split; [done|]; intros Hnf; rewrite (Hnf _ (le_n _)) in Ef; done|].
  cbn [get_tab own_tab]. destruct (last _) as [j|] eqn:El; [|intros [= <- <-]; split; [done|by split]].
  apply last_filter in El as [Hj _].
  assert (Hl : late_now j (mkWorld (S (calls w)) (st w)) = (Ok (late (env_clock (S (calls w))) j),
      mkWorld (if 0 <? j.(TimeoutSeconds) then S (S (calls w)) else S (calls w)) (st w))).
  { unfold late_now, late. destruct (0 <? TimeoutSeconds j); [|done]. rewrite gbind_eq. unfold gnow. done. }
  cbn [fst snd]. rewrite gbind_eq, Hl, gbind_eq. unfold gnow. rewrite gbind_eq. unfold db_save, gextr. cbn [calls st].
  set (n := if 0 <? j.(TimeoutSeconds) then _ else _).
  assert (Hn : (calls w <= S n)%nat) by (subst n; destruct (0 <? _); lia).
  destruct (env_fault (S n)) as [e1|] eqn:Ef1; [intros [= <- <-]; split; [done|]; intros Hnf; rewrite (Hnf _ Hn) in Ef1; done|].
  intros [= <- <-]. exists j. cbn [st rows get_tab set_tab own_tab set_cost ID CreatedAt JobUUID CompanyID Uin Purpose TimeoutSeconds ExportStatus ErrorMsg Output CostSeconds].
  destruct (settle_same output e (late (env_clock (S (calls w))) j) j) as (H1 & H2 & H3 & H4 & H5 & H6 & H7).
  destruct (settle_texts output e (late (env_clock (S (calls w))) j) j) as [H8 H9].
  rewrite H1, H2, H3, H4, H5, H6, H7, H8, H9. split_and!; try done. apply settle_status. by apply Hk.
Qed.

(** The privacy of export jobs: what [DetailExportJob] shows of a job it
    shows to the job's own user only, and it gives a link only to the output of
    a job that succeeded, from the storage of the job's purpose. *)
Theorem DetailExportJob_private LoadStorager uin jobID (w : World (GTab ExportJob)) :
  exists d, fst (DetailExportJob LoadStorager uin jobID w) = Ok d /\ st (snd (DetailExportJob LoadStorager uin jobID w)) = st w /\
    (d = mkDetail d.(d_code) d.(d_message) "" "" "" "" \/
     exists j, j ∈ (st w).(rows) /\ j.(JobUUID) = jobID /\ j.(Uin) = uin /\ d.(d_job) = jobID /\ d.(d_status) = j.(ExportStatus) /\
       d.(d_error) = j.(ErrorMsg) /\
       (d.(d_url) <> "" -> j.(ExportStatus) = JobStatusSuccess /\ exists s, LoadStorager j.(Purpose) = Ok s /\ s j.(Output) = Ok d.(d_url))).
Proof.
  unfold DetailExportJob, GetJobByUUID, db_last. rewrite gbind_eq. unfold gtry, gextr.
  destruct (env_fault (calls w)); [eexists; split; [done|]; split; [done|]; by left|]. cbn [get_tab own_tab].
  destruct (last _) as [j|] eqn:El; [|eexists; split; [done|]; split; [done|]; by left]. apply last_filter in El as [Hj Hu]. apply String.eqb_eq in Hu.
  cbn [gret fst snd st]. destruct (Z.eqb_spec j.(Uin) uin) as [Hin|]; cbn [negb]; [|eexists; split; [done|]; split; [done|]; by left].
  destruct (str_eqb _ "" || _) eqn:Es.
  { eexists. split; [done|]. split; [done|]. right. exists j. by repeat split. }
  apply orb_false_iff in Es as [_ Es]. apply negb_false_iff, String.eqb_eq in Es.
  destruct (LoadStorager _) as [s|] eqn:EL; [destruct (s _) as [url|] eqn:Eu|].
  all: eexists; split; [done|]; split; [done|]; right; exists j; repeat split; try done; by exists s.
Qed.
End Update.
End ExportFacts.

(** * Asynchronous jobs *)
Module AsyncFacts.
Import Async.
Lemma status_fold l m u :
  fold_left (fun (statusMap : gmap string string) (ejob : AsyncJob) => <[ejob.(JobUUID) := ejob.(JobStatus)]> statusMap) l m !! u
  = match last (List.filter (fun j => str_eqb j.(JobUUID) u) l) with Some j => Some j.(JobStatus) | None => m !! u end.
Proof.
  revert m. induction l as [|j l IH]; intros m; [done|]. cbn [fold_left List.filter]. rewrite IH.
  destruct (str_eqb j.(JobUUID) u) eqn:E.
  - apply String.eqb_eq in E as <-. rewrite last_cons. destruct (last _); [done|]. by rewrite lookup_insert_eq.
  - apply String.eqb_neq in E. destruct (last _); [done|]. by rewrite lookup_insert_ne.
Qed.
Lemma filter_twice {A} (p q : A -> bool) l : List.filter p (List.filter q l) = List.filter (fun x => q x && p x) l.
Proof. induction l as [|x l IH]; [done|]. cbn. destruct (q x); cbn; [destruct (p x)|]; by rewrite IH. Qed.

Section Facts.
Context `{Env}.
(** Statuses of asynchronous jobs: the map has exactly the asked uuids that
    have a job, each with the status of its latest job. *)
Theorem BatchGetJobStatus_latest uuids (w : World (GTab AsyncJob)) m :
  fst (BatchGetJobStatusByUUIDs uuids w) = Ok m ->
  forall u, m !! u = if existsb (str_eqb u) uuids
                     then JobStatus <$> last (List.filter (fun j => str_eqb j.(JobUUID) u) (st w).(rows)) else None.
Proof.
  unfold BatchGetJobStatusByUUIDs, BatchGetJobByUUIDs, db_find. rewrite gbind_eq. unfold gextr. destruct (env_fault _); [done|].
  cbn [get_tab own_tab gret fst]. intros [= <-] u. rewrite status_fold, filter_twice, lookup_empty.
  destruct (existsb (str_eqb u) uuids) eqn:E.
  - rewrite (filter_ext _ (fun j => str_eqb j.(JobUUID) u)); [by destruct (last _)|].
    intros j. destruct (str_eqb j.(JobUUID) u) eqn:Eu; [|by rewrite andb_false_r]. apply String.eqb_eq in Eu. by rewrite Eu, E.
  - rewrite (filter_ext _ (fun _ => false)).
    + clear. by induction (rows (st w)).
    + intros j. destruct (str_eqb j.(JobUUID) u) eqn:Eu; [|by rewrite andb_false_r]. apply String.eqb_eq in Eu. by rewrite Eu, E.
Qed.
End Facts.

(** What the caller gets is the job as it was before the update. *)
Definition one_job : GTab AsyncJob := mkGTab [mkAsync 1 (1000 * second) "u1" 7 "mail" 0 JobStatusFailed "broken" 0 "in" "" ""] 2.
Definition update_one : Res AsyncJob * World (GTab AsyncJob) :=
  @UpdateJobStatus quietEnv _ own_tab (Some (mkUpdate "u1" None "out")) (mkWorld 10 one_job).
Example async_stale : match fst update_one with Ok j => j.(JobStatus) | Err _ => "" end = JobStatusFailed
  /\ map JobStatus (st (snd update_one)).(rows) = [JobStatusSuccess] /\ map ErrorMsg (st (snd update_one)).(rows) = ["broken"].
Proof. vm_compute. done. Qed.
Lemma BatchGetJobStatus_latest_witness :
  match fst (@BatchGetJobStatusByUUIDs quietEnv _ own_tab ["u1"; "u2"] (mkWorld 10 one_job)) with
  | Ok m => m !! "u1" = Some JobStatusFailed /\ m !! "u2" = None
  | Err _ => False
  end.
Proof.
  destruct (fst (@BatchGetJobStatusByUUIDs quietEnv _ own_tab ["u1"; "u2"] (mkWorld 10 one_job))) as [m|e] eqn:E; [|vm_compute in E; discriminate E].
  split.
  - rewrite (@BatchGetJobStatus_latest quietEnv ["u1"; "u2"] (mkWorld 10 one_job) m E "u1"). reflexivity.
  - rewrite (@BatchGetJobStatus_latest quietEnv ["u1"; "u2"] (mkWorld 10 one_job) m E "u2"). reflexivity.
Defined.
End AsyncFacts.

(** * Cron jobs *)
Module CronFacts.
Import Cron.
Section Facts.
Context `{Env}.
Definition started (uuid purpose : string) (w : World (GTab Job)) : Job :=
  mkJob (st w).(next_id) (env_clock (S (calls w))) uuid 0 0 purpose JobStatusPending 0 "" "" "{}".
(** Cron jobs: a run on a node that is not the master leaves the table; on
    the master, when no call fails, it adds one job, which ends with the
    outcome of the task, its error as the only entry of the list of errors,
    and which stays pending for good when the task panics. *)
Theorem cron_func_run master uuid purpose taskFunc (w : World (GTab Job)) :
  no_fault_from (calls w) -> Forall (fun j => j.(ID) < (st w).(next_id)) (st w).(rows) ->
  fst (cron_func master uuid purpose taskFunc w) = Ok tt /\
  (after (cron_func master uuid purpose taskFunc) w).(rows)
  = if master
    then ((st w).(rows) ++ [match taskFunc with
                            | Panic _ => started uuid purpose w
                            | Val o => finish (seconds (env_clock (3 + calls w)%nat - env_clock (calls w))) o (started uuid purpose w)
                            end])%list
    else (st w).(rows).
Proof.
  intros Hf Hi. unfold after. destruct (cron_func master uuid purpose taskFunc w) as [r w'] eqn:E. cbn [fst snd]. revert E.
  unfold cron_func. destruct master; cbn [negb]; [|by intros [= <- <-]].
  rewrite gbind_eq. unfold gnow at 1. rewrite gbind_eq. unfold gtry at 1, db_create. rewrite gbind_eq. unfold gnow at 1, gextr at 1. cbn [calls st].
  rewrite (Hf _) by lia. cbn [get_tab own_tab set_tab]. change (row_create _ _ _) with (started uuid purpose w).
  destruct taskFunc as [o|v]; [|by intros [= <- <-]]. rewrite gbind_eq. unfold gnow. rewrite gbind_eq. unfold gtry, db_save, gextr. cbn [calls st].
  rewrite (Hf _) by lia. cbn [get_tab own_tab set_tab rows gret]. intros [= <- <-]. split; [done|].
  apply (replace_fresh (E := Job)); [done|]. by destruct o as [out [err|]].
Qed.
End Facts.
Definition no_jobs : GTab Job := mkGTab [] 1.
Definition run_job (t : Panics (string * option error)) : list (string * string * string) :=
  map (fun j => (j.(JobStatus), j.(Output), j.(ErrorMsg))) (after (@cron_func quietEnv _ own_tab true "u1" "nightly" t) (mkWorld 0 no_jobs)).(rows).
Example cron_ok : run_job (Val ("done", None)) = [("success", "done", "")].
Proof. vm_compute. reflexivity. Qed.
Example cron_panic : run_job (Panic "boom") = [("pending", "", "")].
Proof. vm_compute. reflexivity. Qed.
Lemma cron_func_run_witness :
  (after (@cron_func quietEnv _ own_tab true "u1" "nightly" (Panic "boom")) (mkWorld 0 no_jobs)).(rows)
  = [mkJob 1 1001000000000 "u1" 0 0 "nightly" JobStatusPending 0 "" "" "{}"].
Proof.
  destruct (@cron_func_run quietEnv true "u1" "nightly" (Panic "boom") (mkWorld 0 no_jobs)) as [_ H]; [apply quietEnv_ok|constructor|].
  rewrite H. reflexivity.
Defined.
End CronFacts.

(** * Interleavings of the monitor and a worker *)
Module Interleaved.
Import Exporting.
(** A job of 950 seconds; the clock moves a hundred seconds per call. *)
Definition t0 : GTab ExportJob :=
  mkGTab [mkExport 1 (1000 * second) "u1" 1 7 "report" JobStatusPending 0 950 "" ""] 2.
#[local] Existing Instance slowEnv.
(** A worker reads its job in time, the monitor times the job out, the worker
    writes its success. *)
Definition failed_then_success : M (GTab ExportJob) unit :=
  let! j := GetJobByUUID "u1" in
  let! late := late_now j in
  repairTimeoutJobs ;;;
  db_save (settle "file" None late j).
(** The monitor has read the job as pending, the worker ends it, the monitor
    writes its own copy of it. *)
Definition success_then_failed : M (GTab ExportJob) unit :=
  let! jobs := db_find pending_timed in
  UpdateJobStatus "u1" "file" None ;;;
  gfor jobs (fun j => checkTimeoutJob j ;;; gret tt).
Definition end_of (m : M (GTab ExportJob) unit) (k : nat) : list (string * string) :=
  map (fun j => (j.(ExportStatus), j.(Output))) (after m (mkWorld k t0)).(rows).
(** Either write is lost: neither status is final. *)
Lemma lost_updates :
  end_of failed_then_success 8 = [(JobStatusSuccess, "file")] /\ end_of success_then_failed 6 = [(JobStatusFailed, "")].
Proof. vm_compute. done. Qed.
(** A job that succeeded is turned into a failed one by a late second report. *)
Lemma success_undone :
  end_of (UpdateJobStatus "u1" "file" None ;;; UpdateJobStatus "u1" "" None ;;; gret tt) 6 = [(JobStatusFailed, "file")].
Proof. vm_compute. done. Qed.
End Interleaved.

(** * Concrete export jobs *)
Module ExportWitnesses.
Import Exporting ExportFacts Interleaved.
#[local] Existing Instance slowEnv.
Definition late_world : World (GTab ExportJob) := mkWorld 12 t0.
Lemma t0_ids : NoDup (map ID t0.(rows)).
Proof. repeat constructor. set_solver. Qed.
Lemma repairTimeoutJobs_sweep_witness :
  map ExportStatus (after repairTimeoutJobs late_world).(rows) = [JobStatusFailed].
Proof.
  destruct (repairTimeoutJobs_sweep late_world t0_ids) as (ids & H1 & _ & H3). rewrite H1.
  assert (Hin : 1 ∈ ids).
  { apply (H3 (slowEnv_ok 12) ltac:(intros a b Hab; cbn; lia) (mkExport 1 (1000 * second) "u1" 1 7 "report" JobStatusPending 0 950 "" ""));
      [left|done|reflexivity]. }
  unfold timed, late_world, t0. cbn [st rows map ID]. rewrite bool_decide_eq_true_2 by exact Hin. reflexivity.
Defined.
Lemma UpdateJobStatus_outcome_witness : exists j' w', UpdateJobStatus "u1" "file" None late_world = (Ok j', w') /\
  j'.(ExportStatus) = JobStatusFailed /\ j'.(ErrorMsg) = "timeout" /\ j'.(Output) = "file" /\ (st w').(rows) = replace j' t0.(rows).
Proof.
  destruct (UpdateJobStatus "u1" "file" None late_world) as [r w'] eqn:E.
  assert (Hk : forall j, j ∈ t0.(rows) -> known j.(ExportStatus)).
  { intros j Hj. apply list_elem_of_singleton in Hj as ->. left. reflexivity. }
  pose proof (UpdateJobStatus_outcome "u1" "file" None late_world w' r Hk E) as H. destruct r as [j'|err].
  - destruct H as (j & Hj & Hr & Hs & Hm & Ho & _). exists j', w'. injection Hj as <-. rewrite Hs, Hm, Ho. by split_and!.
  - destruct H as [_ H]. destruct (H (slowEnv_ok 12)) as [[=] _].
Defined.
End ExportWitnesses.
