(* ===== verification/RpcQueue.v ===== *)
(** [src/queue/rpcqueue/controller.go]: requests over RabbitMQ whose replies come
    back on one queue and are handed to the request that waits for them.

    The goroutines interleave between the accesses to what they share: the map
    of channels under its lock, the channels, the broker.  An event is one such
    access, by one goroutine; a run is a list of events.  A request is named by
    its channel, which is its own. *)
From S2P Require Import Prelude.
#[local] Open Scope string_scope.
#[local] Open Scope Z_scope.

(** Where [SendRequest] is; [Leaving] and [Deleted] are inside its deferred
    function. *)
Inductive Pc : Type :=
| Registered | Published | Waiting
| Leaving (r : Res string) | Deleted (r : Res string) | Returned (r : Res string).
Record Request : Type := mkRequest { corrID : string; body : string; pc : Pc }.
Definition set_pc (p : Pc) (q : Request) : Request := mkRequest q.(corrID) q.(body) p.
(** [ConsumeReplyRoutine]: at its select, holding a channel it has looked up
    and the body to send, stopped, or dead of a panic. *)
Inductive Consumer : Type := Receiving | Holding (ch : nat) (body : string) | Stopped | Crashed.
(** [published] and [delivered] record what the broker was given and gave: the
    correlation id and the body. *)
Record RPCQueue : Type := mkQueue {
  requestQueueName : string; responseCh : gmap string nat; requests : gmap nat Request; consumer : Consumer;
  published : list (string * string); delivered : list (string * string)
}.
Definition set_request (ch : nat) (q : Request) (s : RPCQueue) : RPCQueue :=
  mkQueue s.(requestQueueName) s.(responseCh) (<[ch := q]> s.(requests)) s.(consumer) s.(published) s.(delivered).
Definition set_consumer (c : Consumer) (s : RPCQueue) : RPCQueue :=
  mkQueue s.(requestQueueName) s.(responseCh) s.(requests) c s.(published) s.(delivered).
Definition set_map (m : gmap string nat) (s : RPCQueue) : RPCQueue :=
  mkQueue s.(requestQueueName) m s.(requests) s.(consumer) s.(published) s.(delivered).

(** [NewRPCQueue]: the channel, the reply queue and its consumption; only then
    does the routine run. *)
Definition NewRPCQueue (reqQueueName : string) (Channel QueueDeclare Consume : Res unit) : RPCQueue * option error :=
  let rq c := mkQueue reqQueueName ∅ ∅ c [] [] in
  match Channel with
  | Err e => (rq Stopped, Some e)
  | Ok _ => match QueueDeclare with
            | Err e => (rq Stopped, Some e)
            | Ok _ => match Consume with Err e => (rq Stopped, Some e) | Ok _ => (rq Receiving, None) end
            end
  end.

(** The events.  [ESend]: a request with a fresh channel registers itself;
    [fresh] is the id it generates when it is given none.  [EPublish]: the body
    is marshalled and published, or fails.  [EWait]: the request comes to its
    select; [ETimeout] ends it.  [EReply]: the consumer takes a delivery and
    looks it up; [EHand]: it offers the body to the channel it holds.
    [EDelete] and [EClose]: the request's deferred function. *)
Inductive Event : Type :=
| ESend (ch : nat) (corrID fresh body : string) | EPublish (ch : nat) (err : option error) | EWait (ch : nat)
| ETimeout (ch : nat) | EReply (corrID body : string) | EHand | EDelete (ch : nat) | EClose (ch : nat) | EDone.
Definition timeout_error (s : RPCQueue) : error := ErrNew ("request queue(" ++ s.(requestQueueName) ++ ") timeout").
(** The state after an event; [None] when the goroutine is not there. *)
Definition exec (e : Event) (s : RPCQueue) : option RPCQueue :=
  match e with
  | ESend ch id fresh body =>
      match s.(requests) !! ch with
      | Some _ => None
      | None => let id := if str_eqb id "" then fresh else id in
                Some (set_map (<[id := ch]> s.(responseCh)) (set_request ch (mkRequest id body Registered) s))
      end
  | EPublish ch err =>
      match s.(requests) !! ch with
      | Some (mkRequest id b Registered as q) =>
          match err with
          | Some err => Some (set_request ch (set_pc (Leaving (Err err)) q) s)
          | None => let s := set_request ch (set_pc Published q) s in
                    Some (mkQueue s.(requestQueueName) s.(responseCh) s.(requests) s.(consumer) (s.(published) ++ [(id, b)]) s.(delivered))
          end
      | _ => None
      end
  | EWait ch => match s.(requests) !! ch with
                | Some (mkRequest _ _ Published as q) => Some (set_request ch (set_pc Waiting q) s)
                | _ => None
                end
  | ETimeout ch => match s.(requests) !! ch with
                   | Some (mkRequest _ _ Waiting as q) => Some (set_request ch (set_pc (Leaving (Err (timeout_error s))) q) s)
                   | _ => None
                   end
  | EReply id b =>
      match s.(consumer) with
      | Receiving =>
          let s := mkQueue s.(requestQueueName) s.(responseCh) s.(requests) s.(consumer) s.(published) (s.(delivered) ++ [(id, b)]) in
          Some (match s.(responseCh) !! id with Some ch => set_consumer (Holding ch b) s | None => s end)
      | _ => None
      end
  | EHand =>
      match s.(consumer) with
      | Holding ch b =>
          match s.(requests) !! ch with
          | None => None
          | Some q => Some (match q.(pc) with
                            | Waiting => set_consumer Receiving (set_request ch (set_pc (Leaving (Ok b)) q) s)
                            | Returned _ => set_consumer Crashed s   (* send on a closed channel *)
                            | _ => set_consumer Receiving s          (* nobody receives: the default case *)
                            end)
          end
      | _ => None
      end
  | EDelete ch => match s.(requests) !! ch with
                  | Some (mkRequest id _ (Leaving r) as q) => Some (set_map (delete id s.(responseCh)) (set_request ch (set_pc (Deleted r) q) s))
                  | _ => None
                  end
  | EClose ch => match s.(requests) !! ch with
                 | Some (mkRequest _ _ (Deleted r) as q) => Some (set_request ch (set_pc (Returned r) q) s)
                 | _ => None
                 end
  | EDone => match s.(consumer) with Receiving => Some (set_consumer Stopped s) | _ => None end
  end.
Fixpoint run (es : list Event) (s : RPCQueue) : option RPCQueue :=
  match es with [] => Some s | e :: es' => match exec e s with Some s => run es' s | None => None end end.
Definition start (name : string) : RPCQueue := fst (NewRPCQueue name (Ok tt) (Ok tt) (Ok tt)).
Definition result (s : RPCQueue) (ch : nat) : option (Res string) :=
  match s.(requests) !! ch with Some (mkRequest _ _ (Returned r)) => Some r | _ => None end.

(** * What holds in every run *)
Definition outcome (p : Pc) : option (Res string) :=
  match p with Leaving r | Deleted r | Returned r => Some r | _ => None end.
Record Inv (s : RPCQueue) : Prop := {
  inv_map : forall id ch, s.(responseCh) !! id = Some ch -> exists q, s.(requests) !! ch = Some q /\ q.(corrID) = id;
  inv_hold : forall ch b, s.(consumer) = Holding ch b -> exists q, s.(requests) !! ch = Some q /\ (q.(corrID), b) ∈ s.(delivered);
  inv_ok : forall ch q b, s.(requests) !! ch = Some q -> outcome q.(pc) = Some (Ok b) -> (q.(corrID), b) ∈ s.(delivered);
}.
Lemma Inv_start name : Inv (start name).
Proof. split; cbn; [intros id ch|intros ch b|intros ch q b]; by rewrite ?lookup_empty. Qed.

(** Moving one request along keeps the others and their ids. *)
Lemma lookup_set ch q s x : (set_request ch q s).(requests) !! x = if decide (ch = x) then Some q else s.(requests) !! x.
Proof. cbn. rewrite lookup_insert. done. Qed.
Lemma Inv_set ch q p s :
  Inv s -> s.(requests) !! ch = Some q -> (forall b, outcome p = Some (Ok b) -> (q.(corrID), b) ∈ s.(delivered)) ->
  Inv (set_request ch (set_pc p q) s).
Proof.
  intros [Hm Hh Ho] Hq Hp. split; cbn [responseCh consumer delivered set_request].
  - intros id x Hx. destruct (Hm _ _ Hx) as (q' & Hq' & Hid). rewrite lookup_set. destruct (decide (ch = x)) as [->|]; [|by exists q'].
    eexists. split; [done|]. rewrite Hq in Hq'. by injection Hq' as ->.
  - intros x b Hx. destruct (Hh _ _ Hx) as (q' & Hq' & Hid). rewrite lookup_set. destruct (decide (ch = x)) as [->|]; [|by exists q'].
    eexists. split; [done|]. rewrite Hq in Hq'. by injection Hq' as ->.
  - intros x q' b. rewrite lookup_set. destruct (decide (ch = x)) as [->|]; [intros [= <-]; apply Hp|apply Ho].
Qed.
Lemma Inv_consumer c s :
  Inv s -> (forall ch b, c = Holding ch b -> exists q, s.(requests) !! ch = Some q /\ (q.(corrID), b) ∈ s.(delivered)) -> Inv (set_consumer c s).
Proof. intros [Hm Hh Ho] Hc. by split. Qed.
Lemma Inv_step e s s' : Inv s -> exec e s = Some s' -> Inv s'.
Proof.
  intros HI. destruct e as [ch id fresh b|ch err|ch|ch|id b| |ch|ch|]; cbn [exec].
  - destruct (s.(requests) !! ch) eqn:Hq; [done|]. intros [= <-]. destruct HI as [Hm Hh Ho]. set (i := if str_eqb id "" then fresh else id).
    split; cbn [responseCh consumer delivered set_map set_request requests].
    + intros j x. rewrite lookup_insert. destruct (decide (i = j)) as [->|]; [intros [= ->]; rewrite lookup_insert_eq; by eexists|].
      intros Hx. destruct (Hm _ _ Hx) as (q' & Hq' & Hid). exists q'. split; [|done]. rewrite lookup_insert_ne; [done|congruence].
    + intros x b' Hx. destruct (Hh _ _ Hx) as (q' & Hq' & Hid). exists q'. split; [|done]. rewrite lookup_insert_ne; [done|congruence].
    + intros x q' b'. rewrite lookup_insert. destruct (decide (ch = x)); [by intros [= <-]|apply Ho].
  - destruct (s.(requests) !! ch) as [[id b p]|] eqn:Hq; [|done]. destruct p; try done. destruct err; intros [= <-]; [by apply Inv_set|].
    pose proof (Inv_set ch _ Published s HI Hq ltac:(done)) as [Hm Hh Ho]. by split.
  - destruct (s.(requests) !! ch) as [[id b p]|] eqn:Hq; [|done]. destruct p; try done. intros [= <-]. by apply Inv_set.
  - destruct (s.(requests) !! ch) as [[id b p]|] eqn:Hq; [|done]. destruct p; try done. intros [= <-]. by apply Inv_set.
  - destruct (s.(consumer)) eqn:Hc; try done. intros [= <-]. destruct HI as [Hm Hh Ho].
    assert (HI' : Inv (mkQueue s.(requestQueueName) s.(responseCh) s.(requests) Receiving s.(published) (s.(delivered) ++ [(id, b)]))).
    { split; cbn; [done|done|]. intros ch q b' Hq Hp. apply elem_of_app. left. by eapply Ho. }
    destruct (s.(responseCh) !! id) as [ch|] eqn:E; [|done]. apply Inv_consumer; [done|]. intros ch' b' [= <- <-].
    destruct (Hm _ _ E) as (q & Hq & Hid). exists q. split; [done|]. cbn. rewrite Hid. set_solver.
  - destruct (s.(consumer)) as [|ch b| |] eqn:Hc; try done. destruct (s.(requests) !! ch) as [q|] eqn:Hq; [|done]. intros [= <-].
    destruct (inv_hold s HI ch b Hc) as (q' & Hq' & Hd). rewrite Hq in Hq'. injection Hq' as <-.
    destruct (pc q) eqn:Hp; try (by apply Inv_consumer).
    apply Inv_consumer; [|done]. apply Inv_set; [done..|]. by intros b' [= <-].
  - destruct (s.(requests) !! ch) as [[id b p]|] eqn:Hq; [|done]. destruct p as [| | |r|r|r] eqn:Hp; try done. intros [= <-].
    assert (H1 : Inv (set_request ch (set_pc (Deleted r) (mkRequest id b (Leaving r))) s)).
    { apply Inv_set; [done..|]. intros b' Hb. by apply (inv_ok s HI ch _ b' Hq). }
    destruct H1 as [Hm Hh Ho]. split; [|done|done]. intros j x. cbn. rewrite lookup_delete_Some. intros [_ Hx]. by apply Hm.
  - destruct (s.(requests) !! ch) as [[id b p]|] eqn:Hq; [|done]. destruct p as [| | |r|r|r] eqn:Hp; try done. intros [= <-].
    apply Inv_set; [done..|]. intros b' Hb. by apply (inv_ok s HI ch _ b' Hq).
  - destruct (s.(consumer)) eqn:Hc; try done. intros [= <-]. by apply Inv_consumer.
Qed.
Lemma Inv_run es s s' : Inv s -> run es s = Some s' -> Inv s'.
Proof.
  revert s. induction es as [|e es IH]; intros s HI; cbn [run]; [by intros [= <-]|].
  destruct (exec e s) as [s1|] eqn:E; [|done]. intros Hr. apply (IH s1); [by eapply Inv_step|done].
Qed.

(** C26: rPC replies: however the goroutines interleave and whatever the broker
    delivers, an answer that a request returns is the body of a delivery that
    carried the request's own correlation id. *)
Theorem SendRequest_own_reply name es s ch b :
  run es (start name) = Some s -> result s ch = Some (Ok b) ->
  exists q, s.(requests) !! ch = Some q /\ (q.(corrID), b) ∈ s.(delivered).
Proof.
  intros Hr Hb. pose proof (Inv_run es _ _ (Inv_start name) Hr) as HI. unfold result in Hb.
  destruct (s.(requests) !! ch) as [[id b' p]|] eqn:Hq; [|done]. destruct p; try done. injection Hb as ->.
  eexists. split; [done|]. by apply (inv_ok s HI ch _ b Hq).
Qed.

(** * With ids of their own *)
Definition Distinct (s : RPCQueue) : Prop :=
  forall ch ch' q q', s.(requests) !! ch = Some q -> s.(requests) !! ch' = Some q' -> q.(corrID) = q'.(corrID) -> ch = ch'.
(** Not yet past its [delete]. *)
Definition in_progress (q : Request) : bool := match q.(pc) with Deleted _ | Returned _ => false | _ => true end.
Definition Exact (s : RPCQueue) : Prop :=
  forall id ch, s.(responseCh) !! id = Some ch <-> exists q, s.(requests) !! ch = Some q /\ q.(corrID) = id /\ in_progress q = true.

Lemma Distinct_set ch q p s : s.(requests) !! ch = Some q -> Distinct (set_request ch (set_pc p q) s) -> Distinct s.
Proof.
  intros Hq Hd a b qa qb Ha Hb E.
  assert (Hget : forall x qx, s.(requests) !! x = Some qx -> exists qy, (set_request ch (set_pc p q) s).(requests) !! x = Some qy /\ qy.(corrID) = qx.(corrID)).
  { intros x qx Hx. rewrite lookup_set. destruct (decide (ch = x)) as [->|]; [|by exists qx]. eexists. split; [done|]. rewrite Hq in Hx. by injection Hx as ->. }
  destruct (Hget _ _ Ha) as (qa' & Ha' & Ea), (Hget _ _ Hb) as (qb' & Hb' & Eb). apply (Hd a b qa' qb' Ha' Hb'). congruence.
Qed.
Lemma Exact_set ch q p s :
  Exact s -> s.(requests) !! ch = Some q -> in_progress (set_pc p q) = in_progress q -> Exact (set_request ch (set_pc p q) s).
Proof.
  intros He Hq Hp id x. cbn [responseCh set_request]. rewrite (He id x), lookup_set. destruct (decide (ch = x)) as [->|]; [|done].
  rewrite Hq. split; intros (q' & [= <-] & Hid & Hin); eexists; (split; [done|]); (split; [done|]); congruence.
Qed.
Lemma Exact_step e s s' : (Distinct s -> Exact s) -> exec e s = Some s' -> Distinct s' -> Exact s'.
Proof.
  intros IH. destruct e as [ch id fresh b|ch err|ch|ch|id b| |ch|ch|]; cbn [exec].
  - destruct (s.(requests) !! ch) eqn:Hq; [done|]. intros [= <-] Hd. set (i := if str_eqb id "" then fresh else id) in *.
    assert (Hd0 : Distinct s).
    { intros a c qa qc Ha Hc E. apply (Hd a c qa qc); [| |done]; cbn; rewrite lookup_insert_ne; congruence. }
    assert (Hnew : forall x q, s.(requests) !! x = Some q -> q.(corrID) <> i).
    { intros x q Hx E. assert (x = ch); [|congruence].
      apply (Hd x ch q (mkRequest i b Registered)); cbn; [rewrite lookup_insert_ne; congruence|by rewrite lookup_insert_eq|done]. }
    intros j x. cbn [responseCh set_map set_request requests]. rewrite lookup_insert.
    destruct (decide (i = j)) as [<-|Hj].
    + split; [intros [= <-]; rewrite lookup_insert_eq; by eexists|]. intros (q & Hx & Hid & Hin). f_equal.
      destruct (decide (ch = x)); [done|]. rewrite lookup_insert_ne in Hx by done. by destruct (Hnew _ _ Hx).
    + rewrite (IH Hd0 j x). split; intros (q & Hx & Hid & Hin).
      * exists q. split; [rewrite lookup_insert_ne; [done|congruence]|done].
      * destruct (decide (ch = x)) as [->|]; [rewrite lookup_insert_eq in Hx; by injection Hx as <-|]. rewrite lookup_insert_ne in Hx by done. by exists q.
  - destruct (s.(requests) !! ch) as [[id b p]|] eqn:Hq; [|done]. destruct p; try done.
    destruct err as [err|]; intros [= <-] Hd; (assert (Hd0 : Distinct s) by (eapply Distinct_set; [exact Hq|exact Hd])).
    + exact (Exact_set ch (mkRequest id b Registered) (Leaving (Err err)) s (IH Hd0) Hq eq_refl).
    + exact (Exact_set ch (mkRequest id b Registered) Published s (IH Hd0) Hq eq_refl).
  - destruct (s.(requests) !! ch) as [[id b p]|] eqn:Hq; [|done]. destruct p; try done. intros [= <-] Hd.
    assert (Hd0 : Distinct s) by (eapply Distinct_set; [exact Hq|exact Hd]). exact (Exact_set ch (mkRequest id b Published) Waiting s (IH Hd0) Hq eq_refl).
  - destruct (s.(requests) !! ch) as [[id b p]|] eqn:Hq; [|done]. destruct p; try done. intros [= <-] Hd.
    assert (Hd0 : Distinct s) by (eapply Distinct_set; [exact Hq|exact Hd]). exact (Exact_set ch (mkRequest id b Waiting) (Leaving (Err (timeout_error s))) s (IH Hd0) Hq eq_refl).
  - destruct (s.(consumer)) eqn:Hc; try done. intros [= <-]. by destruct (s.(responseCh) !! id).
  - destruct (s.(consumer)) as [|ch b| |] eqn:Hc; try done. destruct (s.(requests) !! ch) as [q|] eqn:Hq; [|done]. intros [= <-].
    destruct (pc q) eqn:Hp; try exact IH. intros Hd.
    assert (Hd0 : Distinct s) by (eapply Distinct_set; [exact Hq|exact Hd]). apply (Exact_set ch q (Leaving (Ok b)) s (IH Hd0) Hq). unfold in_progress. by rewrite Hp.
  - destruct (s.(requests) !! ch) as [[id b p]|] eqn:Hq; [|done]. destruct p as [| | |r|r|r]; try done. intros [= <-] Hd.
    assert (Hd0 : Distinct s) by (eapply Distinct_set; [exact Hq|exact Hd]). specialize (IH Hd0).
    intros j x. cbn [responseCh set_map requests]. rewrite lookup_delete_Some, (IH j x), lookup_set. destruct (decide (ch = x)) as [<-|Hx].
    + rewrite Hq. split; [intros (Hn & q & [= <-] & Hid & _); cbn in Hid; congruence|by intros (q & [= <-] & _ & Hin)].
    + split; [by intros [_ H]|]. intros (q & Hqx & Hid & Hin). split; [|by exists q]. intros ->. apply Hx, (Hd0 _ _ _ _ Hq Hqx). done.
  - destruct (s.(requests) !! ch) as [[id b p]|] eqn:Hq; [|done]. destruct p as [| | |r|r|r]; try done. intros [= <-] Hd.
    assert (Hd0 : Distinct s) by (eapply Distinct_set; [exact Hq|exact Hd]). exact (Exact_set ch (mkRequest id b (Deleted r)) (Returned r) s (IH Hd0) Hq eq_refl).
  - destruct (s.(consumer)) eqn:Hc; try done. by intros [= <-].
Qed.

(** The map of waiting requests: with correlation ids of their own, as the
    generated ones are, it holds at any moment exactly the requests in
    progress, each with its own channel: none is lost and none stays behind. *)
Theorem responseCh_exact name es s :
  run es (start name) = Some s -> Distinct s ->
  forall id ch, s.(responseCh) !! id = Some ch <-> exists q, s.(requests) !! ch = Some q /\ q.(corrID) = id /\ in_progress q = true.
Proof.
  intros Hr. assert (H0 : Distinct (start name) -> Exact (start name)).
  { intros _ id ch. cbn. rewrite lookup_empty. split; [done|]. intros (q & Hq & _). by rewrite lookup_empty in Hq. }
  revert Hr H0. generalize (start name) as s0. induction es as [|e es IH]; intros s0; cbn [run]; [by intros [= <-]|].
  destruct (exec e s0) as [s1|] eqn:E; [|done]. intros Hr H0. apply (IH s1 Hr). exact (Exact_step e s0 s1 H0 E).
Qed.

(** * A request always returns *)
Definition own (ch : nat) (e : Event) : bool :=
  match e with EPublish c _ | EWait c | ETimeout c | EDelete c | EClose c => (c =? ch)%nat | _ => false end.
(** The end of a request: from wherever it is and whatever the others and
    the broker do, a request can always take its own next step, and it returns
    after at most five of them, with the timeout as its last resort. *)
Theorem SendRequest_returns s ch q :
  s.(requests) !! ch = Some q ->
  exists es s', (length es <= 5)%nat /\ forallb (own ch) es = true /\ run es s = Some s' /\ is_Some (result s' ch).
Proof.
  destruct q as [id b p]. intros Hq.
  assert (Hdel : forall s r, s.(requests) !! ch = Some (mkRequest id b (Deleted r)) ->
    exists s', run [EClose ch] s = Some s' /\ is_Some (result s' ch)).
  { intros s1 r H. eexists. cbn [run exec]. rewrite H. split; [done|]. unfold result. rewrite lookup_set, decide_True by done. by eexists. }
  assert (Hlea : forall s r, s.(requests) !! ch = Some (mkRequest id b (Leaving r)) ->
    exists s', run [EDelete ch; EClose ch] s = Some s' /\ is_Some (result s' ch)).
  { intros s1 r H. change [EDelete ch; EClose ch] with ([EDelete ch] ++ [EClose ch])%list. cbn [app run exec]. rewrite H.
    apply (Hdel _ r). cbn [requests set_map]. by rewrite lookup_set, decide_True. }
  assert (Hwai : forall s, s.(requests) !! ch = Some (mkRequest id b Waiting) ->
    exists s', run [ETimeout ch; EDelete ch; EClose ch] s = Some s' /\ is_Some (result s' ch)).
  { intros s1 H. cbn [run exec]. rewrite H. apply (Hlea _ (Err (timeout_error s1))). by rewrite lookup_set, decide_True. }
  assert (Hpub : forall s, s.(requests) !! ch = Some (mkRequest id b Published) ->
    exists s', run [EWait ch; ETimeout ch; EDelete ch; EClose ch] s = Some s' /\ is_Some (result s' ch)).
  { intros s1 H. cbn [run exec]. rewrite H. apply Hwai. by rewrite lookup_set, decide_True. }
  destruct p as [| | |r|r|r].
  - exists [EPublish ch None; EWait ch; ETimeout ch; EDelete ch; EClose ch]. cbn [run exec]. rewrite Hq.
    edestruct Hpub as (s' & Hr & Hs); [|exists s'; split; [done|]; split; [cbn; by rewrite Nat.eqb_refl|]; split; [exact Hr|done]].
    cbn [requests]. by rewrite lookup_set, decide_True.
  - destruct (Hpub s Hq) as (s' & Hr & Hs). eexists _, s'. split; [|split; [|split; [exact Hr|done]]]; [cbn; lia|cbn; by rewrite Nat.eqb_refl].
  - destruct (Hwai s Hq) as (s' & Hr & Hs). eexists _, s'. split; [|split; [|split; [exact Hr|done]]]; [cbn; lia|cbn; by rewrite Nat.eqb_refl].
  - destruct (Hlea s r Hq) as (s' & Hr & Hs). eexists _, s'. split; [|split; [|split; [exact Hr|done]]]; [cbn; lia|cbn; by rewrite Nat.eqb_refl].
  - destruct (Hdel s r Hq) as (s' & Hr & Hs). eexists _, s'. split; [|split; [|split; [exact Hr|done]]]; [cbn; lia|cbn; by rewrite Nat.eqb_refl].
  - exists [], s. split; [cbn; lia|]. split; [done|]. split; [done|]. unfold result. rewrite Hq. by eexists.
Qed.

(** * Concrete runs *)
Definition peek (es : list Event) : option (list (option (Res string)) * Consumer * bool) :=
  match run es (start "orders") with
  | Some s => Some ([result s 0; result s 1], s.(consumer), bool_decide (s.(responseCh) = ∅))
  | None => None
  end.
Definition timed_out : Res string := Err (ErrNew "request queue(orders) timeout").
Definition answered : list Event :=
  [ESend 0 "" "id0" "ping"; EPublish 0 None; EWait 0; EReply "id0" "pong"; EHand; EDelete 0; EClose 0].
Example run_answered : peek answered = Some ([Some (Ok "pong"); None], Receiving, true).
Proof. vm_compute. reflexivity. Qed.
(** A reply that comes before the request is at its select is dropped, and the
    request times out. *)
Lemma early_reply_lost :
  peek [ESend 0 "" "id0" "ping"; EPublish 0 None; EReply "id0" "pong"; EHand; EWait 0; ETimeout 0; EDelete 0; EClose 0]
  = Some ([Some timed_out; None], Receiving, true).
Proof. vm_compute. reflexivity. Qed.
(** A reply that is looked up before a request that times out has closed its
    channel ends the process: the send panics and nothing recovers it. *)
Lemma late_reply_crashes :
  peek [ESend 0 "" "id0" "ping"; EPublish 0 None; EWait 0; EReply "id0" "pong"; ETimeout 0; EDelete 0; EClose 0; EHand]
  = Some ([Some timed_out; None], Crashed, true).
Proof. vm_compute. reflexivity. Qed.
(** Two requests with the same id: the second takes the place of the first and
    loses it when the first ends, so that its reply is not found. *)
Lemma same_id_unanswered :
  peek [ESend 0 "id0" "" "a"; ESend 1 "id0" "" "b"; EPublish 0 None; EPublish 1 None; EWait 0; EWait 1; ETimeout 0; EDelete 0; EClose 0;
        EReply "id0" "pong"; ETimeout 1; EDelete 1; EClose 1]
  = Some ([Some timed_out; Some timed_out], Receiving, true).
Proof. vm_compute. reflexivity. Qed.

Definition answered_state : RPCQueue := match run answered (start "orders") with Some s => s | None => start "orders" end.
Lemma SendRequest_own_reply_witness :
  exists q, answered_state.(requests) !! 0%nat = Some q /\ (q.(corrID), "pong") ∈ answered_state.(delivered).
Proof. apply (SendRequest_own_reply "orders" answered answered_state 0 "pong"); vm_compute; reflexivity. Defined.
Lemma responseCh_exact_witness : answered_state.(responseCh) !! "id0" <> Some 0%nat.
Proof.
  intros H. apply (responseCh_exact "orders" answered answered_state) in H as (q & Hq & _ & Hp).
  - vm_compute in Hq. injection Hq as <-. vm_compute in Hp. discriminate Hp.
  - vm_compute. reflexivity.
  - assert (E : answered_state.(requests) = {[0%nat := mkRequest "id0" "ping" (Returned (Ok "pong"))]}) by (vm_compute; reflexivity).
    intros ch ch' q q'. rewrite E. intros [<- _]%lookup_singleton_Some [<- _]%lookup_singleton_Some _. reflexivity.
Defined.
Lemma SendRequest_returns_witness :
  exists es s', (length es <= 5)%nat /\ forallb (own 0) es = true /\ run es answered_state = Some s' /\ is_Some (result s' 0).
Proof. apply (SendRequest_returns answered_state 0 (mkRequest "id0" "ping" (Returned (Ok "pong")))). vm_compute. reflexivity. Defined.
