(* ===== verification/Llm.v ===== *)
(** The LLM client: the messages and their JSON of src/llm/llmtype/types.go, the
    conversions and the streaming of src/llm/provider/openai (convert.go,
    stream.go, client.go) and the provider registry of src/llm/factory.go.  The
    SDK behind it is a parameter: the answers of [Recv] and of the completion
    calls. *)
From stdpp Require Import base gmap list strings.
From Stdlib Require Import ZArith Lia Ascii String Permutation.
From S2P Require Import Prelude Json.
Open Scope Z_scope.

(** * Messages *)
Definition RoleUser : string := "user".
Definition PartTypeText : string := "text".
Definition PartTypeImageURL : string := "image_url".
(** Pointers in a message are taken as non-nil; [OtherPart] is an implementation
    of the interface outside the package, with its JSON. *)
Inductive Part : Type :=
| TextPart (Text : string)
| ImageUrlPart (PartType URL Detail : string)
| OtherPart (type : string) (marshal : Res json).
Definition Part_Type (p : Part) : string :=
  match p with TextPart _ => PartTypeText | ImageUrlPart _ _ _ => PartTypeImageURL | OtherPart t _ => t end.
Record FunctionCall : Type := mkFunctionCall { FName : string; Arguments : string }.
Record ToolCall : Type := mkToolCall { ID : string; TType : string; Function_ : FunctionCall }.
Record Message : Type := mkMessage {
  Role : string; Content : string; Parts : list Part; ToolCalls : list ToolCall; ToolCallID : string; Name : string
}.
Definition zeroMessage : Message := mkMessage "" "" [] [] "" "".

(** ** Their JSON *)
Definition function_json (f : FunctionCall) : json := JObj [("name", JStr f.(FName)); ("arguments", JStr f.(Arguments))].
Definition tool_call_json (c : ToolCall) : json :=
  JObj [("id", JStr c.(ID)); ("type", JStr c.(TType)); ("function", function_json c.(Function_))].
(** [json.Marshal] of a part: the text part has no type. *)
Definition part_json (p : Part) : Res json :=
  match p with
  | TextPart text => Ok (JObj [("text", JStr text)])
  | ImageUrlPart t url detail =>
      Ok (JObj [("type", JStr t); ("image_url", JObj (("url", JStr url) :: omit_str "detail" detail))])
  | OtherPart _ m => m
  end.
Definition bytesJoin (parts : list json) : json := JArr parts.
Fixpoint marshal_parts (parts : list Part) : Res (list json) :=
  match parts with
  | [] => Ok []
  | p :: ps => match part_json p with
               | Err e => Err (ErrWrap "marshal part failed: " e)
               | Ok b => match marshal_parts ps with Ok bs => Ok (b :: bs) | Err e => Err e end
               end
  end.
Definition tail_fields (m : Message) : list (string * json) :=
  omit_arr "tool_calls" tool_call_json m.(ToolCalls) ++ omit_str "tool_call_id" m.(ToolCallID) ++ omit_str "name" m.(Name).
Definition MarshalJSON (m : Message) : Res json :=
  match m.(Parts) with
  | _ :: _ =>
      match marshal_parts m.(Parts) with
      | Err e => Err e
      | Ok rawParts => Ok (JObj ([("role", JStr m.(Role)); ("content", bytesJoin rawParts)] ++ tail_fields m))
      end
  | [] => Ok (JObj (("role", JStr m.(Role)) :: omit_str "content" m.(Content) ++ tail_fields m))
  end.

(** The auxiliary struct of [UnmarshalJSON]. *)
Record Aux : Type := mkAux {
  aRole : string; aContent : option json; aToolCalls : list ToolCall; aToolCallID : string; aName : string
}.
Definition zeroCall : ToolCall := mkToolCall "" "" (mkFunctionCall "" "").
Definition d_function : Decoder FunctionCall :=
  d_struct [("name", at_field FName (fun v f => mkFunctionCall v f.(Arguments)) d_string);
            ("arguments", at_field Arguments (fun v f => mkFunctionCall f.(FName) v) d_string)].
Definition d_tool_call : Decoder ToolCall :=
  d_struct [("id", at_field ID (fun v c => mkToolCall v c.(TType) c.(Function_)) d_string);
            ("type", at_field TType (fun v c => mkToolCall c.(ID) v c.(Function_)) d_string);
            ("function", at_field Function_ (fun v c => mkToolCall c.(ID) c.(TType) v) d_function)].
Definition d_aux : Decoder Aux :=
  d_struct [("role", at_field aRole (fun v a => mkAux v a.(aContent) a.(aToolCalls) a.(aToolCallID) a.(aName)) d_string);
            ("content", at_field aContent (fun v a => mkAux a.(aRole) v a.(aToolCalls) a.(aToolCallID) a.(aName)) d_raw);
            ("tool_calls", at_field aToolCalls (fun v a => mkAux a.(aRole) a.(aContent) v a.(aToolCallID) a.(aName))
                             (d_slice zeroCall d_tool_call));
            ("tool_call_id", at_field aToolCallID (fun v a => mkAux a.(aRole) a.(aContent) a.(aToolCalls) v a.(aName)) d_string);
            ("name", at_field aName (fun v a => mkAux a.(aRole) a.(aContent) a.(aToolCalls) a.(aToolCallID) v) d_string)].
Definition d_typed : Decoder string := d_struct [("type", d_string)].
Definition d_text : Decoder string := d_struct [("text", d_string)].
Definition d_image_url : Decoder (string * string) :=
  d_struct [("url", at_field fst (fun v p => (v, snd p)) d_string); ("detail", at_field snd (fun v p => (fst p, v)) d_string)].
Definition d_image : Decoder (string * (string * string)) :=
  d_struct [("type", at_field fst (fun v p => (v, snd p)) d_string);
            ("image_url", at_field snd (fun v p => (fst p, v)) d_image_url)].
Definition unmarshal_part (raw : json) : Res Part :=
  match d_typed "" raw with
  | Err e => Err e
  | Ok t =>
      if str_eqb t PartTypeText then
        match d_text "" raw with Ok s => Ok (TextPart s) | Err e => Err e end
      else if str_eqb t PartTypeImageURL then
        match d_image ("", ("", "")) raw with Ok (t, (url, detail)) => Ok (ImageUrlPart t url detail) | Err e => Err e end
      else Err (ErrNew ("unknown part type: " ++ t))
  end.
(** The parts read before an error stay in the message. *)
Fixpoint unmarshal_parts (raws : list json) (done : list Part) : Res unit * list Part :=
  match raws with
  | [] => (Ok tt, done)
  | raw :: raws' => match unmarshal_part raw with
                    | Err e => (Err e, done)
                    | Ok p => unmarshal_parts raws' (done ++ [p])
                    end
  end.
Definition set_content (s : string) (m : Message) : Message :=
  mkMessage m.(Role) s m.(Parts) m.(ToolCalls) m.(ToolCallID) m.(Name).
Definition set_parts (ps : list Part) (m : Message) : Message :=
  mkMessage m.(Role) m.(Content) ps m.(ToolCalls) m.(ToolCallID) m.(Name).
(** [m]: the message unmarshalled into. *)
Definition UnmarshalJSON (data : json) (m : Message) : Res unit * Message :=
  match d_aux (mkAux "" None [] "" "") data with
  | Err e => (Err e, m)
  | Ok aux =>
      let m := mkMessage aux.(aRole) m.(Content) m.(Parts) aux.(aToolCalls) aux.(aToolCallID) aux.(aName) in
      match aux.(aContent) with
      | None => (Ok tt, m)
      | Some (JArr rawParts) => let '(r, ps) := unmarshal_parts rawParts [] in (r, set_parts ps m)
      | Some c => match d_string "" c with Ok s => (Ok tt, set_content s m) | Err e => (Err e, m) end
      end
  end.

(** ** Round trip *)
(** What can be read back: images that carry their type. *)
Definition readable (p : Part) : bool :=
  match p with ImageUrlPart t _ _ => str_eqb t PartTypeImageURL | _ => false end.

Lemma tool_calls_read l : d_elements zeroCall d_tool_call (map tool_call_json l) = Ok l.
Proof. apply d_elements_map, Forall_forall. by intros [id t [n a]] _. Qed.
Lemma aux_step v kv kvs : d_aux v (JObj (kv :: kvs)) =
  match d_aux v (JObj [kv]) with Ok v' => d_aux v' (JObj kvs) | Err e => Err e end.
Proof.
  unfold d_aux, d_struct. cbn [fold_left]. destruct (field_of _ (fst kv)) as [d|]; [|done]. cbn [keep_first].
  destruct (d v (snd kv)) as [v'|e]; [done|].
  induction kvs as [|kv' kvs IH]; cbn [fold_left]; [done|]. by destruct (field_of _ (fst kv')).
Qed.
Lemma aux_calls r c id n l : d_aux (mkAux r c [] id n) (JObj [("tool_calls"%string, JArr (map tool_call_json l))]) =
  Ok (mkAux r c l id n).
Proof.
  transitivity (at_field aToolCalls (fun v a => mkAux a.(aRole) a.(aContent) v a.(aToolCallID) a.(aName))
    (d_slice zeroCall d_tool_call) (mkAux r c [] id n) (JArr (map tool_call_json l))); [done|].
  unfold at_field, d_slice. by rewrite tool_calls_read.
Qed.
Lemma aux_tail r c m : d_aux (mkAux r c [] "" "") (JObj (tail_fields m)) =
  Ok (mkAux r c m.(ToolCalls) m.(ToolCallID) m.(Name)).
Proof.
  unfold tail_fields, omit_arr, omit_str. destruct m as [role content parts calls callID name]. cbn [ToolCalls ToolCallID Name].
  assert (Hcalls : forall kvs, d_aux (mkAux r c [] "" "") (JObj (match calls with [] => [] | _ :: _ =>
      [("tool_calls"%string, JArr (map tool_call_json calls))] end ++ kvs)) = d_aux (mkAux r c calls "" "") (JObj kvs)).
  { intros kvs. destruct calls as [|call calls]; [done|]. cbn [app]. by rewrite aux_step, aux_calls. }
  rewrite Hcalls. unfold str_eqb. destruct (String.eqb_spec callID ""), (String.eqb_spec name ""); subst; reflexivity.
Qed.

Lemma part_read p j : part_json p = Ok j -> (forall t m, p <> OtherPart t m) ->
  unmarshal_part j = Ok p <-> readable p = true.
Proof.
  intros Hj Hp. destruct p as [text|t url detail|t m]; [|cbn in Hj; injection Hj as <-|by destruct (Hp t m)].
  { injection Hj as <-. split; [vm_compute|]; done. }
  unfold unmarshal_part, omit_str, str_eqb. cbn [readable].
  assert (E : forall fs, d_typed "" (JObj (("type"%string, JStr t) :: ("image_url"%string, fs) :: [])) = Ok t) by done. rewrite E. clear E.
  unfold str_eqb. destruct (String.eqb_spec t PartTypeImageURL) as [->|Ht].
  - destruct (String.eqb_spec detail "") as [->|]; done.
  - split; [|done]. destruct (String.eqb t PartTypeText); [|done]. by destruct (d_text _ _).
Qed.
Lemma parts_grow raws : forall done, exists more, snd (unmarshal_parts raws done) = done ++ more.
Proof.
  induction raws as [|raw raws IH]; intros ps; cbn [unmarshal_parts]; [exists []; by rewrite app_nil_r|].
  destruct (unmarshal_part raw) as [p|e]; [|exists []; by rewrite app_nil_r].
  destruct (IH (ps ++ [p])) as [more ->]. exists (p :: more). by rewrite <- app_assoc.
Qed.
Definition known (p : Part) : Prop := match p with OtherPart _ _ => False | _ => True end.
Lemma parts_read parts : Forall known parts -> forall ps, exists raws, marshal_parts parts = Ok raws /\
  (unmarshal_parts raws ps = (Ok tt, ps ++ parts) <-> forallb readable parts = true).
Proof.
  induction 1 as [|p parts Hp Hparts IH]; intros ps.
  - exists []. simpl. by rewrite app_nil_r.
  - destruct (IH (ps ++ [p])) as (raws & Hraws & Hread). assert (Hj : exists j, part_json p = Ok j) by (destruct p; [by eexists|by eexists|destruct Hp]).
    destruct Hj as [j Hj]. exists (j :: raws). cbn [marshal_parts unmarshal_parts forallb]. rewrite Hj, Hraws. split; [done|].
    assert (Hpr : unmarshal_part j = Ok p <-> readable p = true) by (apply part_read; [done|by intros ? ? ->]).
    destruct (readable p) eqn:Er; cbn [andb].
    + rewrite (proj2 Hpr eq_refl). by rewrite <- Hread, <- app_assoc.
    + split; [|done]. destruct (unmarshal_part j) as [p'|e] eqn:Ep; [|done]. intros H.
      destruct (parts_grow raws (ps ++ [p'])) as [more Hm]. rewrite H in Hm. cbn in Hm. rewrite <- app_assoc in Hm.
      apply app_inv_head in Hm. injection Hm as <- _. by destruct Hpr as [Hpr _]; specialize (Hpr eq_refl).
Qed.

(** A message of plain text is read back from its JSON as it was; one with
    parts is read back, without its plain text, exactly when every part is an
    image that carries its type: text parts are written without one. *)
Theorem message_round_trip m :
  Forall known m.(Parts) ->
  exists j, MarshalJSON m = Ok j /\
    (m.(Parts) = [] -> UnmarshalJSON j zeroMessage = (Ok tt, m)) /\
    (m.(Parts) <> [] -> (UnmarshalJSON j zeroMessage = (Ok tt, set_content "" m) <-> forallb readable m.(Parts) = true)).
Proof.
  intros Hk. unfold MarshalJSON, UnmarshalJSON. destruct m as [role content parts calls callID name]. cbn [Parts] in *.
  set (m := mkMessage role content parts calls callID name).
  assert (Hrole : forall kvs, d_aux (mkAux "" None [] "" "") (JObj (("role"%string, JStr role) :: kvs)) = d_aux (mkAux role None [] "" "") (JObj kvs))
    by (intros; by rewrite aux_step).
  assert (Hcont : forall c kvs, d_aux (mkAux role None [] "" "") (JObj (("content"%string, c) :: kvs)) = d_aux (mkAux role (Some c) [] "" "") (JObj kvs))
    by (intros; by rewrite aux_step).
  destruct parts as [|p parts].
  - eexists. split; [done|]. split; [|done]. intros _. rewrite Hrole. unfold omit_str, str_eqb. change (Content m) with content. change (Role m) with role.
    destruct (String.eqb_spec content "") as [->|]; cbv iota; cbn [app]; [|rewrite Hcont]; by rewrite (aux_tail _ _ m).
  - destruct (parts_read (p :: parts) Hk []) as (raws & -> & Hread). eexists. split; [done|]. split; [done|]. intros _.
    cbn [app]. rewrite Hrole, Hcont, (aux_tail _ _ m). cbn [aContent bytesJoin]. rewrite <- Hread.
    destruct (unmarshal_parts raws []) as [r ps]. cbn. split; [intros [= -> ->]; done|intros [= -> ->]; done].
Qed.

(** * The SDK's data, as far as the client reads and fills it *)
Section Client.
(** [any], and [float32] with its zero. *)
Context {Any F : Type} (F0 : F).
Record FunctionDefinition : Type := mkDefinition { DName : string; Description : string; Parameters_ : option Any }.
Record Tool : Type := mkTool { ToolType : string; Definition_ : FunctionDefinition }.
Record OaiToolCall : Type := mkOaiCall { Index : option Z; OID : string; OType : string; OName : string; OArguments : string }.
Record OaiPart : Type := mkOaiPart { PType : string; PText : string; PImage : option (string * string) }.
Record OaiMessage : Type := mkOaiMessage {
  ORole : string; OContent : string; MultiContent : list OaiPart; OToolCalls : list OaiToolCall; OToolCallID : string; OMName : string
}.
Record OaiRequest : Type := mkOaiRequest {
  OModel : string; OMaxTokens : Z; OTemperature : F; OTopP : F; OMessages : list OaiMessage; OTools : list Tool; OToolChoice : option Any
}.
Record Usage : Type := mkUsage { PromptTokens : Z; CompletionTokens : Z; TotalTokens : Z }.
Record OaiChoice : Type := mkOaiChoice { CMessage : OaiMessage; CFinish : string }.
Record OaiResponse : Type := mkOaiResponse { RID : string; Choices : list OaiChoice; RUsage : Usage }.
Record OaiStreamChoice : Type := mkOaiStream { DeltaContent : string; DeltaCalls : list OaiToolCall; DeltaFinish : string }.
Record OaiStreamResponse : Type := mkOaiStreamResponse { SRID : string; SChoices : list OaiStreamChoice; SRUsage : option Usage }.

Record ChatRequest : Type := mkRequest {
  Model : string; Messages : list Message; Tools : list Tool; ToolChoice : option Any; Temperature : option F; MaxTokens : Z;
  TopP : option F; TraceID : string; TaskID : string
}.
Record ChatResponse : Type := mkResponse {
  CID : string; CContent : string; CToolCalls : list ToolCall; FinishReason : string; CUsage : Usage; RawResponse : OaiResponse
}.
Record StreamChunk : Type := mkChunk {
  SID : string; SContent : string; SToolCalls : list ToolCall; SFinish : string; SUsage : option Usage; Done : bool
}.

(** * Conversions *)
Definition convertParts (parts : list Part) : list OaiPart :=
  omap (fun p => match p with
                 | TextPart text => Some (mkOaiPart PartTypeText text None)
                 | ImageUrlPart _ url detail => Some (mkOaiPart PartTypeImageURL "" (Some (url, detail)))
                 | OtherPart _ _ => None
                 end) parts.
Definition convertTools (tools : list Tool) : list Tool :=
  map (fun t => mkTool t.(ToolType) (mkDefinition t.(Definition_).(DName) t.(Definition_).(Description) t.(Definition_).(Parameters_))) tools.
Definition convertToolCalls (calls : list ToolCall) : list OaiToolCall :=
  map (fun c => mkOaiCall None c.(ID) c.(TType) c.(Function_).(FName) c.(Function_).(Arguments)) calls.
Definition convertMessages (messages : list Message) : list OaiMessage :=
  map (fun m => mkOaiMessage m.(Role) (match m.(Parts) with [] => m.(Content) | _ => "" end) (convertParts m.(Parts))
                  (convertToolCalls m.(ToolCalls)) m.(ToolCallID) m.(Name)) messages.
Definition convertRequest (req : ChatRequest) : OaiRequest :=
  mkOaiRequest req.(Model) req.(MaxTokens) (default F0 req.(Temperature)) (default F0 req.(TopP))
    (convertMessages req.(Messages)) (convertTools req.(Tools)) req.(ToolChoice).

Definition convertResponseToolCalls (calls : list OaiToolCall) : list ToolCall :=
  map (fun c => mkToolCall c.(OID) c.(OType) (mkFunctionCall c.(OName) c.(OArguments))) calls.
Definition convertStreamToolCalls : list OaiToolCall -> list ToolCall := convertResponseToolCalls.
Definition extractTextFromMultiContent (parts : list OaiPart) : string :=
  fold_left (fun text p => if str_eqb p.(PType) PartTypeText then (text ++ p.(PText))%string else text) parts ""%string.
Definition convertUsage (u : Usage) : Usage := mkUsage u.(PromptTokens) u.(CompletionTokens) u.(TotalTokens).
Definition convertResponse (resp : OaiResponse) : ChatResponse :=
  let usage := convertUsage resp.(RUsage) in
  match resp.(Choices) with
  | [] => mkResponse resp.(RID) "" [] "" usage resp
  | choice :: _ =>
      let m := choice.(CMessage) in
      mkResponse resp.(RID)
        (match m.(MultiContent) with [] => m.(OContent) | parts => extractTextFromMultiContent parts end)
        (convertResponseToolCalls m.(OToolCalls)) choice.(CFinish) usage resp
  end.
Definition convertStreamChunk (resp : OaiStreamResponse) : StreamChunk :=
  let usage := convertUsage <$> resp.(SRUsage) in
  match resp.(SChoices) with
  | [] => mkChunk resp.(SRID) "" [] "" usage false
  | choice :: _ => mkChunk resp.(SRID) choice.(DeltaContent) (convertStreamToolCalls choice.(DeltaCalls)) choice.(DeltaFinish) usage false
  end.

(** * Streaming *)
(** The cache of unfinished tool calls by index.  [iterate k]: the order in
    which the [k]-th loop over the Go map visits its values. *)
Context (iterate : nat -> list ToolCall -> list ToolCall).
Definition values (k : nat) (cache : gmap Z ToolCall) : list ToolCall := iterate k (map snd (map_to_list cache)).

Definition nonempty_or (s old : string) : string := if str_eqb s "" then old else s.
Definition merge_delta (cache : gmap Z ToolCall) (delta : OaiToolCall) : gmap Z ToolCall :=
  match delta.(Index) with
  | None => cache
  | Some idx =>
      match cache !! idx with
      | None => <[idx := mkToolCall delta.(OID) delta.(OType) (mkFunctionCall delta.(OName) delta.(OArguments))]> cache
      | Some c => <[idx := mkToolCall (nonempty_or delta.(OID) c.(ID)) c.(TType)
                             (mkFunctionCall (c.(Function_).(FName) ++ delta.(OName)) (c.(Function_).(Arguments) ++ delta.(OArguments)))]> cache
      end
  end.
Definition mergeStreamToolCalls (k : nat) (cache : gmap Z ToolCall) (deltas : list OaiToolCall) : gmap Z ToolCall * list ToolCall :=
  let cache' := fold_left merge_delta deltas cache in (cache', values k cache').
Definition flushToolCallCache (k : nat) (cache : gmap Z ToolCall) : list ToolCall := values k cache.

Definition EOF : error := ErrVar "EOF".
Definition isStreamEOF (err : error) : bool := errors_Is err EOF.
Definition FinishReasonToolCalls : string := "tool_calls".
Inductive Call : Type := CChunk (c : StreamChunk) | CErr (e : error).
Definition with_calls (cs : list ToolCall) (c : StreamChunk) : StreamChunk :=
  mkChunk c.(SID) c.(SContent) cs c.(SFinish) c.(SUsage) c.(Done).
Definition doneChunk : StreamChunk := mkChunk "" "" [] "" None true.
Definition deltas_of (resp : OaiStreamResponse) : list OaiToolCall := match resp.(SChoices) with c :: _ => c.(DeltaCalls) | [] => [] end.
Definition flushes (resp : OaiStreamResponse) : bool :=
  match resp.(SChoices) with c :: _ => str_eqb c.(DeltaFinish) FinishReasonToolCalls | [] => false end.
(** What the handler is called with for one answer, with the new cache and the
    number of loops over it so far. *)
Definition on_response (k : nat) (cache : gmap Z ToolCall) (resp : OaiStreamResponse) : StreamChunk * gmap Z ToolCall * nat :=
  let chunk := convertStreamChunk resp in
  let '(chunk, cache, k) :=
    match deltas_of resp with
    | [] => (chunk, cache, k)
    | ds => let '(cache', cs) := mergeStreamToolCalls k cache ds in (with_calls cs chunk, cache', S k)
    end in
  if flushes resp then (with_calls (flushToolCallCache k cache) chunk, cache, S k) else (chunk, cache, k).

(** [recvs]: what [stream.Recv] answers, call by call; the handler decides by
    the calls it has had.  The answer is the returned error, [None] as long as
    [Recv] has not answered, and the calls of the handler. *)
Context (handler : list Call -> Call -> bool).
Fixpoint stream_loop (k : nat) (cache : gmap Z ToolCall) (recvs : list (Res OaiStreamResponse)) (calls : list Call)
    : option (option error) * list Call :=
  match recvs with
  | [] => (None, calls)
  | Err err :: _ =>
      if isStreamEOF err then (Some None, calls ++ [CChunk doneChunk])
      else (if handler calls (CErr err) then Some (Some err) else Some None, calls ++ [CErr err])
  | Ok resp :: recvs' =>
      let '(chunk, cache', k') := on_response k cache resp in
      if handler calls (CChunk chunk) then stream_loop k' cache' recvs' (calls ++ [CChunk chunk])
      else (Some None, calls ++ [CChunk chunk])
  end.
Definition handleStream (recvs : list (Res OaiStreamResponse)) : option (option error) * list Call := stream_loop 0 ∅ recvs [].

(** * The client.  The completion calls of the SDK are parameters. *)
Context (CreateChatCompletion : OaiRequest -> Res OaiResponse)
        (CreateChatCompletionStream : OaiRequest -> Res (list (Res OaiStreamResponse))).
Record Client : Type := mkClient { defaultModel : string }.
(** The request is the caller's: it comes back with its model. *)
Definition with_model (c : Client) (req : ChatRequest) : ChatRequest :=
  if str_eqb req.(Model) ""
  then mkRequest c.(defaultModel) req.(Messages) req.(Tools) req.(ToolChoice) req.(Temperature) req.(MaxTokens) req.(TopP) req.(TraceID) req.(TaskID)
  else req.
Definition Chat (c : Client) (req : ChatRequest) : Res ChatResponse * ChatRequest :=
  let req := with_model c req in
  (match CreateChatCompletion (convertRequest req) with Err e => Err e | Ok resp => Ok (convertResponse resp) end, req).
Definition ChatStream (c : Client) (req : ChatRequest) : (option (option error) * list Call) * ChatRequest :=
  let req := with_model c req in
  (match CreateChatCompletionStream (convertRequest req) with
   | Err e => (Some (Some e), [])
   | Ok stream => handleStream stream
   end, req).
End Client.

(** * What a stream adds up to *)
(** The tool call of an index over the deltas seen so far: the type of the
    first, the last id that is not empty, the names and arguments in a row. *)
Definition with_index (i : Z) (d : OaiToolCall) : bool := bool_decide (Index d = Some i).
Definition joined (f : OaiToolCall -> string) (ds : list OaiToolCall) : string := foldr (fun d s => (f d ++ s)%string) ""%string ds.
Definition last_id (ds : list OaiToolCall) : string := fold_left (fun id d => nonempty_or d.(OID) id) ds ""%string.
Definition assembled (i : Z) (seen : list OaiToolCall) : option ToolCall :=
  match List.filter (with_index i) seen with
  | [] => None
  | d :: ds => Some (mkToolCall (last_id (d :: ds)) d.(OType) (mkFunctionCall (joined OName (d :: ds)) (joined OArguments (d :: ds))))
  end.
(** Those of all indices, in the order of their first delta. *)
Fixpoint indices (seen : list OaiToolCall) (known : gset Z) : list Z :=
  match seen with
  | [] => []
  | d :: ds => match d.(Index) with
               | Some i => if bool_decide (i ∈ known) then indices ds known else i :: indices ds ({[i]} ∪ known)
               | None => indices ds known
               end
  end.
Definition assembled_calls (seen : list OaiToolCall) : list ToolCall := omap (fun i => assembled i seen) (indices seen ∅).

Lemma joined_snoc f ds d : joined f (ds ++ [d]) = (joined f ds ++ f d)%string.
Proof.
  unfold joined. induction ds as [|x ds IH]; simpl; [by rewrite str_app_nil_r|]. by rewrite IH, str_app_assoc.
Qed.
Lemma assembled_snoc i seen d : assembled i (seen ++ [d]) =
  if with_index i d
  then Some (match assembled i seen with
             | None => mkToolCall d.(OID) d.(OType) (mkFunctionCall d.(OName) d.(OArguments))
             | Some c => mkToolCall (nonempty_or d.(OID) c.(ID)) c.(TType)
                           (mkFunctionCall (c.(Function_).(FName) ++ d.(OName)) (c.(Function_).(Arguments) ++ d.(OArguments)))
             end)
  else assembled i seen.
Proof.
  unfold assembled. rewrite List.filter_app. cbn [List.filter]. destruct (with_index i d); [|by rewrite app_nil_r].
  destruct (List.filter (with_index i) seen) as [|d0 ds].
  - cbn. unfold last_id, nonempty_or. cbn. rewrite !str_app_nil_r. unfold str_eqb. by destruct (String.eqb_spec (OID d) "") as [->|].
  - cbn [app]. rewrite !(app_comm_cons ds [d] d0), !joined_snoc. unfold last_id. by rewrite fold_left_app.
Qed.
Lemma merge_assembled seen deltas cache : (forall i, cache !! i = assembled i seen) ->
  forall i, fold_left merge_delta deltas cache !! i = assembled i (seen ++ deltas).
Proof.
  revert seen cache. induction deltas as [|d ds IH]; intros seen cache Hc i; [by rewrite app_nil_r|].
  cbn [fold_left]. rewrite cons_middle, app_assoc. apply IH. clear i IH. intros i. rewrite assembled_snoc.
  unfold merge_delta, with_index. destruct (Index d) as [j|] eqn:Ej; [|by rewrite bool_decide_eq_false_2].
  rewrite <- (Hc i). destruct (decide (j = i)) as [->|Hne].
  - rewrite bool_decide_eq_true_2 by done. destruct (cache !! i); by rewrite lookup_insert_eq.
  - rewrite bool_decide_eq_false_2 by congruence. destruct (cache !! j); by rewrite lookup_insert_ne.
Qed.

Lemma indices_spec seen : forall known i, i ∈ indices seen known <-> i ∉ known /\ exists d, d ∈ seen /\ Index d = Some i.
Proof.
  induction seen as [|d ds IH]; intros known i; cbn [indices].
  - split; [by intros ?%elem_of_nil|by intros (_ & d & ?%elem_of_nil & _)].
  - destruct (Index d) as [j|] eqn:Ej.
    + case_bool_decide as Hj.
      * rewrite IH. split; [intros (? & d' & ? & ?); split; [done|]; exists d'; by split; [right|]|].
        intros (Hi & d' & [->|?]%elem_of_cons & Hd); [by simplify_eq|]. split; [done|]. by exists d'.
      * rewrite elem_of_cons, IH. split.
        -- intros [->|(Hi & d' & ? & ?)]; [split; [done|exists d; by split; [left|]]|].
           split; [set_solver|]. exists d'. by split; [right|].
        -- intros (Hi & d' & [->|?]%elem_of_cons & Hd); [left; by simplify_eq|].
           destruct (decide (i = j)); [by left|right]. split; [set_solver|]. by exists d'.
    + rewrite IH. split; intros (? & d' & Hd' & ?); (split; [done|]); exists d'; split; try done; [by right|].
      apply elem_of_cons in Hd' as [->|]; [congruence|done].
Qed.
Lemma indices_nodup seen : forall known, NoDup (indices seen known).
Proof.
  induction seen as [|d ds IH]; intros known; cbn [indices]; [constructor|].
  destruct (Index d) as [j|]; [|done]. case_bool_decide; [done|]. constructor; [|done]. rewrite indices_spec. set_solver.
Qed.
Lemma assembled_some i seen : is_Some (assembled i seen) <-> exists d, d ∈ seen /\ Index d = Some i.
Proof.
  unfold assembled. destruct (List.filter (with_index i) seen) as [|d ds] eqn:Ef.
  - split; [by intros [? ?]|]. intros (d & Hd & Hi). assert (Hin : In d (List.filter (with_index i) seen)).
    { apply filter_In. split; [by apply list_elem_of_In|]. by apply bool_decide_eq_true. }
    by rewrite Ef in Hin.
  - split; [intros _|by eexists]. assert (Hin : In d (List.filter (with_index i) seen)) by (rewrite Ef; by left).
    apply filter_In in Hin as [Hin Hi]. exists d. split; [by apply list_elem_of_In|]. by apply bool_decide_eq_true in Hi.
Qed.
(** The values of the cache are the assembled calls, in some order. *)
Lemma cache_values seen (cache : gmap Z ToolCall) : (forall i, cache !! i = assembled i seen) ->
  Permutation (map snd (map_to_list cache)) (assembled_calls seen).
Proof.
  intros Hc. unfold assembled_calls.
  assert (Hk : Permutation (map fst (map_to_list cache)) (indices seen ∅)).
  { apply NoDup_Permutation; [apply NoDup_fst_map_to_list|apply indices_nodup|]. intros i.
    rewrite indices_spec, <- assembled_some, <- Hc. rewrite list_elem_of_fmap. split.
    - intros ([j c] & -> & Hj%elem_of_map_to_list). split; [set_solver|by eexists].
    - intros [_ [c Hi]]. exists (i, c). split; [done|by apply elem_of_map_to_list]. }
  rewrite <- Hk. assert (Hall : Forall (fun p => assembled (fst p) seen = Some (snd p)) (map_to_list cache)).
  { apply Forall_forall. intros [i c] Hp%elem_of_map_to_list. simpl. by rewrite <- Hc. }
  clear Hk. induction Hall as [|[i c] l Hp Hl IH]; simpl; [done|]. simpl in Hp. rewrite Hp. by apply perm_skip.
Qed.

Section StreamSpec.
Context (iterate : nat -> list ToolCall -> list ToolCall) (handler : list Call -> Call -> bool).
(** A loop over a map visits each value once. *)
Hypothesis iterate_all : forall k l, Permutation (iterate k l) l.

(** What the handler is to be called with, as long as it goes on. *)
Definition calls_for (seen : list OaiToolCall) (resp : OaiStreamResponse) : list ToolCall :=
  if flushes resp || negb (match deltas_of resp with [] => true | _ => false end) then assembled_calls (seen ++ deltas_of resp) else [].
Fixpoint script (seen : list OaiToolCall) (recvs : list (Res OaiStreamResponse)) : list Call :=
  match recvs with
  | [] => []
  | Err err :: _ => [if isStreamEOF err then CChunk doneChunk else CErr err]
  | Ok resp :: recvs' =>
      CChunk (with_calls (calls_for seen resp) (convertStreamChunk resp)) :: script (seen ++ deltas_of resp) recvs'
  end.
(** The same call up to the order of the tool calls. *)
Definition like (c c' : Call) : Prop :=
  match c, c' with
  | CChunk a, CChunk b => a = with_calls a.(SToolCalls) b /\ Permutation a.(SToolCalls) b.(SToolCalls)
  | CErr e, CErr e' => e = e'
  | _, _ => False
  end.
Lemma like_refl c : like c c.
Proof. destruct c as [[]|]; done. Qed.
#[local] Hint Resolve like_refl : core.
Fixpoint accepted (calls new : list Call) : bool :=
  match new with [] => true | c :: new' => handler calls c && accepted (calls ++ [c]) new' end.

Lemma on_response_like k cache seen resp : (forall i, cache !! i = assembled i seen) ->
  exists chunk cache' k', on_response iterate k cache resp = (chunk, cache', k') /\
    like (CChunk chunk) (CChunk (with_calls (calls_for seen resp) (convertStreamChunk resp))) /\
    forall i, cache' !! i = assembled i (seen ++ deltas_of resp).
Proof.
  intros Hc. unfold on_response, calls_for, mergeStreamToolCalls, flushToolCallCache, values.
  assert (Hnone : deltas_of resp = [] -> SToolCalls (convertStreamChunk resp) = []).
  { unfold deltas_of, convertStreamChunk. destruct (SChoices resp) as [|c ?]; [done|]. by intros ->. }
  pose proof (merge_assembled seen (deltas_of resp) cache Hc) as Hm. destruct (deltas_of resp) as [|d ds] eqn:Ed.
  - cbn [fold_left] in Hm. destruct (flushes resp); cbn [orb negb]; do 3 eexists; (split; [done|]); (split; [|done]); unfold like; split; try done; cbn [with_calls SToolCalls].
    + rewrite iterate_all. by apply cache_values.
    + by destruct (convertStreamChunk resp).
    + by rewrite Hnone.
  - rewrite orb_true_r. destruct (flushes resp); do 3 eexists; (split; [done|]); (split; [|done]); unfold like; (split; [done|]); cbn [with_calls SToolCalls];
      rewrite iterate_all; by apply cache_values.
Qed.

(** The loop makes a first part of the calls of the script and stops at the
    first one that is refused, or at the last. *)
Lemma loop_script recvs : forall k cache seen calls, (forall i, cache !! i = assembled i seen) ->
  exists ret new, stream_loop iterate handler k cache recvs calls = (ret, calls ++ new) /\
    Forall2 like new (take (length new) (script seen recvs)) /\
    (forall p c, new = p ++ [c] -> accepted calls p = true) /\
    match ret with
    | None => length new = length recvs /\ accepted calls new = true /\ Forall (fun r => is_ok r = true) recvs
    | Some None => exists p c, new = p ++ [c] /\ (handler (calls ++ p) c = false \/ c = CChunk doneChunk)
    | Some (Some e) => exists p, new = p ++ [CErr e] /\ Err e ∈ recvs /\ accepted calls new = true
    end.
Proof.
  induction recvs as [|[resp|err] recvs IH]; intros k cache seen calls Hc; cbn [stream_loop script].
  - exists None, []. rewrite app_nil_r. split_and!; [done|constructor|by intros [|] ?|done|done|done].
  - destruct (on_response_like k cache seen resp Hc) as (chunk & cache' & k' & -> & Hlike & Hc').
    destruct (handler calls (CChunk chunk)) eqn:Eh.
    + destruct (IH k' cache' _ (calls ++ [CChunk chunk]) Hc') as (ret & new & -> & Hnew & Hacc & Hret).
      exists ret, (CChunk chunk :: new). rewrite <- app_assoc. split_and!; [done|by constructor| |].
      * intros [|c0 p] c He; [done|]. injection He as <- He. cbn [accepted]. rewrite Eh. by eapply Hacc.
      * destruct ret as [[e|]|].
        -- destruct Hret as (p & -> & ? & Ha). exists (CChunk chunk :: p). split_and!; [done|by right|]. cbn [accepted]. by rewrite Eh.
        -- destruct Hret as (p & c & -> & Hr). exists (CChunk chunk :: p), c. split; [done|]. by rewrite <- app_assoc in Hr.
        -- destruct Hret as (Hl & Ha & Hok). cbn [accepted length]. rewrite Eh, Hl. split_and!; [done|done|by constructor].
    + exists (Some None), [CChunk chunk]. split_and!; [done|constructor; [done|constructor]|by intros [|? [|]] ? ?|].
      exists [], (CChunk chunk). split; [done|]. left. by rewrite app_nil_r.
  - destruct (isStreamEOF err).
    + exists (Some None), [CChunk doneChunk]. split_and!; [done|constructor; [done|constructor]|by intros [|? [|]] ? ?|].
      exists [], (CChunk doneChunk). split; [done|by right].
    + destruct (handler calls (CErr err)) eqn:Eh.
      * exists (Some (Some err)), [CErr err]. split_and!; [done|constructor; [done|constructor]|by intros [|? [|]] ? ?|].
        exists []. split_and!; [done|by left|]. cbn [accepted]. by rewrite Eh.
      * exists (Some None), [CErr err]. split_and!; [done|constructor; [done|constructor]|by intros [|? [|]] ? ?|].
        exists [], (CErr err). split; [done|]. left. by rewrite app_nil_r.
Qed.

(** The calls the comments ask for: a response that finishes with tool calls
    gives them out and empties the cache. *)
Fixpoint documented (seen : list OaiToolCall) (recvs : list (Res OaiStreamResponse)) : list Call :=
  match recvs with
  | [] => []
  | Err err :: _ => [if isStreamEOF err then CChunk doneChunk else CErr err]
  | Ok resp :: recvs' =>
      CChunk (with_calls (calls_for seen resp) (convertStreamChunk resp))
        :: documented (if flushes resp then [] else seen ++ deltas_of resp) recvs'
  end.
(** A stream of one round of tool calls: behind the response that finishes with
    them there are no further deltas and no second such finish. *)
Definition quiet (r : Res OaiStreamResponse) : bool :=
  match r with Ok resp => negb (flushes resp) && match deltas_of resp with [] => true | _ => false end | Err _ => true end.
Fixpoint one_round (recvs : list (Res OaiStreamResponse)) : bool :=
  match recvs with
  | [] => true
  | Err _ :: _ => true
  | Ok resp :: recvs' => if flushes resp then forallb quiet recvs' else one_round recvs'
  end.
Lemma quiet_script seen seen' recvs : forallb quiet recvs = true -> script seen recvs = documented seen' recvs.
Proof.
  revert seen seen'. induction recvs as [|[resp|err] recvs IH]; intros seen seen'; [done| |done]. cbn.
  intros [[Hf Hd]%andb_true_iff Hq]%andb_true_iff. apply negb_true_iff in Hf. unfold calls_for. rewrite Hf.
  destruct (deltas_of resp); [|done]. cbn. f_equal. by apply IH.
Qed.
Lemma one_round_script seen recvs : one_round recvs = true -> script seen recvs = documented seen recvs.
Proof.
  revert seen. induction recvs as [|[resp|err] recvs IH]; intros seen; [done| |done]. cbn.
  destruct (flushes resp); intros Hr; f_equal; [by apply quiet_script|by apply IH].
Qed.

(** C29: on a stream of one round of tool calls the handler is called with the answers
    of the stream in order, the tool calls of each put together from all deltas so
    far (up to the order of the calls) and given out complete with the response
    that finishes with them, then with the end or the error, and never again after
    it refused; the error is returned exactly when the handler took it; and once
    [Recv] fails the function returns.  (The cache is not emptied at that finish,
    as the comment has it, so a second round would go on from the first:
    [flush_keeps].) *)
Theorem handleStream_spec recvs ret calls :
  one_round recvs = true ->
  handleStream iterate handler recvs = (ret, calls) ->
  Forall2 like calls (take (length calls) (documented [] recvs)) /\
  (forall p c, calls = p ++ [c] -> accepted [] p = true) /\
  match ret with
  | None => length calls = length recvs /\ Forall (fun r => is_ok r = true) recvs
  | Some None => exists p c, calls = p ++ [c] /\ (handler p c = false \/ c = CChunk doneChunk)
  | Some (Some e) => (exists p, calls = p ++ [CErr e]) /\ Err e ∈ recvs /\ accepted [] calls = true
  end.
Proof.
  intros Hone H. rewrite <- (one_round_script [] recvs Hone).
  destruct (loop_script recvs 0 ∅ [] []) as (ret' & new & He & H1 & H2 & H3); [intros i; apply lookup_empty|].
  unfold handleStream in H. rewrite He in H. injection H as <- <-. split_and!; [done|done|].
  destruct ret' as [[e|]|]; [|done|by destruct H3 as (? & _ & ?)]. destruct H3 as (p & -> & ? & ?). split_and!; [by exists p|done|done].
Qed.
End StreamSpec.

(** * Providers *)
Record Config : Type := mkConfig { BaseURL : string; ProxyURL : string; ModelName : string }.
Definition WithBaseURL (baseURL : string) (cfg : Config) : Config := mkConfig baseURL cfg.(ProxyURL) cfg.(ModelName).
Definition WithProxy (proxyURL : string) (cfg : Config) : Config := mkConfig cfg.(BaseURL) proxyURL cfg.(ModelName).
Definition WithDefaultModel (model : string) (cfg : Config) : Config := mkConfig cfg.(BaseURL) cfg.(ProxyURL) model.
Section Providers.
Context {C : Type}.
Definition ProviderFactory : Type := string -> list (Config -> Config) -> Res C.
Definition RegisterProvider (name : string) (factory : ProviderFactory) (providers : gmap string ProviderFactory)
    : gmap string ProviderFactory := <[name := factory]> providers.
Definition NewClient (providers : gmap string ProviderFactory) (provider apiKey : string) (opts : list (Config -> Config)) : Res C :=
  match lookup (A:=ProviderFactory) provider providers with
  | None => Err (ErrNew ("unsupported llm provider: " ++ provider))
  | Some factory => factory apiKey opts
  end.
End Providers.
(** The connection of the SDK: the address ([None]: its own) and the proxy. *)
Record Connection : Type := mkConnection { apiKey_ : string; base : option string; proxy : option string; client : Client }.
(** [url_Parse]: whether [url.Parse] reads the text. *)
Definition newFactory (url_Parse : string -> bool) : @ProviderFactory Connection := fun apiKey opts =>
  let cfg := fold_left (fun cfg opt => opt cfg) opts (mkConfig "" "" "") in
  let base := if str_eqb cfg.(BaseURL) "" then None else Some cfg.(BaseURL) in
  if str_eqb cfg.(ProxyURL) "" then Ok (mkConnection apiKey base None (mkClient cfg.(ModelName)))
  else if url_Parse cfg.(ProxyURL) then Ok (mkConnection apiKey base (Some cfg.(ProxyURL)) (mkClient cfg.(ModelName)))
  else Err (ErrNew ("invalid proxy url: " ++ cfg.(ProxyURL))).

(** * Concrete runs *)
Definition delta (i : option Z) (id name args : string) : OaiToolCall := mkOaiCall i id "function" name args.
Definition answer (content : string) (ds : list OaiToolCall) (finish : string) : Res OaiStreamResponse :=
  Ok (mkOaiStreamResponse "r" [mkOaiStream content ds finish] None).
Definition weather : list (Res OaiStreamResponse) :=
  [answer "" [delta (Some 0) "c0" "get_" "{"] ""; answer "" [delta (Some 0) "" "weather" "}"; delta (Some 1) "c1" "time" "{}"] "";
   answer "" [] "tool_calls"; Err EOF].
Definition plainIterate (_ : nat) (l : list ToolCall) : list ToolCall := l.
Definition weather_calls : list ToolCall :=
  [mkToolCall "c1" "function" (mkFunctionCall "time" "{}"); mkToolCall "c0" "function" (mkFunctionCall "get_weather" "{}")].
Definition tool_calls_of (c : Call) : list ToolCall := match c with CChunk c => c.(SToolCalls) | CErr _ => [] end.

Example weather_stream :
  fst (handleStream plainIterate (fun _ _ => true) weather) = Some None /\
  map tool_calls_of (snd (handleStream plainIterate (fun _ _ => true) weather)) =
    [[mkToolCall "c0" "function" (mkFunctionCall "get_" "{")]; weather_calls; weather_calls; []].
Proof. vm_compute. split; reflexivity. Qed.
(** The cache is not emptied when the calls are given out: a second round in the
    same stream goes on from the first. *)
Example flush_keeps :
  map tool_calls_of (snd (handleStream plainIterate (fun _ _ => true)
    [answer "" [delta (Some 0) "c0" "f" "{}"] "tool_calls"; answer "" [delta (Some 0) "c9" "g" "{}"] "tool_calls"])) =
  [[mkToolCall "c0" "function" (mkFunctionCall "f" "{}")]; [mkToolCall "c9" "function" (mkFunctionCall "fg" "{}{}")]].
Proof. vm_compute. reflexivity. Qed.
Definition greeting (parts : list Part) : Message := mkMessage "user" "hi" parts [zeroCall] "" "bob".
Example text_part_lost :
  match MarshalJSON (greeting [TextPart "hello"]) with
  | Ok j => fst (UnmarshalJSON j zeroMessage) = Err (ErrNew "unknown part type: ")
  | Err _ => False
  end.
Proof. vm_compute. reflexivity. Qed.

Lemma message_round_trip_witness :
  exists j, MarshalJSON (greeting [ImageUrlPart "image_url" "http://x" ""]) = Ok j /\
    UnmarshalJSON j zeroMessage = (Ok tt, set_content "" (greeting [ImageUrlPart "image_url" "http://x" ""])).
Proof.
  destruct (message_round_trip (greeting [ImageUrlPart "image_url" "http://x" ""])) as (j & Hj & _ & H); [by repeat constructor|].
  exists j. split; [done|]. by apply H.
Defined.
Lemma handleStream_spec_witness :
  exists calls, handleStream plainIterate (fun _ _ => true) weather = (Some None, calls) /\ length calls = 4%nat /\
    Forall2 like calls (documented [] weather).
Proof.
  eexists. split; [vm_compute; reflexivity|]. split; [reflexivity|].
  exact (proj1 (handleStream_spec plainIterate (fun _ _ => true) (fun _ _ => Permutation_refl _) weather (Some None) _ eq_refl eq_refl)).
Defined.
