(* ===== verification/FileInfo.v ===== *)
(** [src/storage/fileinfo.go] and [src/storage/temp_file.go]: the records of
    uploaded files and of uploads in progress, their tables behind gorm and the
    functions on them. *)
From S2P Require Import Prelude Gorm.

Module FI.
(** The columns of an upload by presigned addresses, which the operations of the
    package carry along unchanged. *)
Record Chunked : Type := mkChunked {
  UploadChunkSize : Z; UploadChunkTotal : Z; UploadedChunks : list (Z * string); Progress : Z; Exists_ : bool;
  UploadS3ID : string; RenewCount : Z; AbortAt : option Z; CompletedAt : option Z; Extra : string
}.
Definition notChunked : Chunked := mkChunked 0 0 [] 0 false "" 0 None None "".
Record FileInfo : Type := mkFile {
  ID : Z; CreatedAt : Z; UpdatedAt : Z; DeletedAt : option Z;
  CompanyID : Z; Uin : Z; Purpose : string; Filename : string; FileExt : string; MIMEType : string; Size : Z;
  Hash : string; ChunkHash : string; StoragePath : string; PublicURL : string; CopyNumber : Z; Status : string; Upload : Chunked
}.
Definition zero : FileInfo := mkFile 0 0 0 None 0 0 "" "" "" "" 0 "" "" "" "" 0 "" notChunked.
Definition set_saved (path : string) (size : Z) (f : FileInfo) : FileInfo :=
  mkFile f.(ID) f.(CreatedAt) f.(UpdatedAt) f.(DeletedAt) f.(CompanyID) f.(Uin) f.(Purpose) f.(Filename) f.(FileExt)
    f.(MIMEType) size f.(Hash) f.(ChunkHash) path f.(PublicURL) f.(CopyNumber) f.(Status) f.(Upload).
Definition set_head (id created updated : Z) (deleted : option Z) (f : FileInfo) : FileInfo :=
  mkFile id created updated deleted f.(CompanyID) f.(Uin) f.(Purpose) f.(Filename) f.(FileExt)
    f.(MIMEType) f.(Size) f.(Hash) f.(ChunkHash) f.(StoragePath) f.(PublicURL) f.(CopyNumber) f.(Status) f.(Upload).
Definition set_columns (copies : Z) (status : string) (f : FileInfo) : FileInfo :=
  mkFile f.(ID) f.(CreatedAt) f.(UpdatedAt) f.(DeletedAt) f.(CompanyID) f.(Uin) f.(Purpose) f.(Filename) f.(FileExt)
    f.(MIMEType) f.(Size) f.(Hash) f.(ChunkHash) f.(StoragePath) f.(PublicURL) copies status f.(Upload).
Definition set_address (hash url : string) (f : FileInfo) : FileInfo :=
  mkFile f.(ID) f.(CreatedAt) f.(UpdatedAt) f.(DeletedAt) f.(CompanyID) f.(Uin) f.(Purpose) f.(Filename) f.(FileExt)
    f.(MIMEType) f.(Size) hash f.(ChunkHash) f.(StoragePath) url f.(CopyNumber) f.(Status) f.(Upload).
(** [Updates] of a whole record: the columns that are not zero. *)
Definition nz_chunked (e t : Chunked) : Chunked :=
  mkChunked (nz e.(UploadChunkSize) t.(UploadChunkSize)) (nz e.(UploadChunkTotal) t.(UploadChunkTotal))
    (match e.(UploadedChunks) with [] => t.(UploadedChunks) | l => l end) (nz e.(Progress) t.(Progress))
    (e.(Exists_) || t.(Exists_)) (nzs e.(UploadS3ID) t.(UploadS3ID)) (nz e.(RenewCount) t.(RenewCount))
    (nzo e.(AbortAt) t.(AbortAt)) (nzo e.(CompletedAt) t.(CompletedAt)) (nzs e.(Extra) t.(Extra)).
Definition updates (now : Z) (e t : FileInfo) : FileInfo :=
  mkFile (nz e.(ID) t.(ID)) (nz e.(CreatedAt) t.(CreatedAt)) now (nzo e.(DeletedAt) t.(DeletedAt))
    (nz e.(CompanyID) t.(CompanyID)) (nz e.(Uin) t.(Uin)) (nzs e.(Purpose) t.(Purpose)) (nzs e.(Filename) t.(Filename))
    (nzs e.(FileExt) t.(FileExt)) (nzs e.(MIMEType) t.(MIMEType)) (nz e.(Size) t.(Size)) (nzs e.(Hash) t.(Hash))
    (nzs e.(ChunkHash) t.(ChunkHash)) (nzs e.(StoragePath) t.(StoragePath)) (nzs e.(PublicURL) t.(PublicURL))
    (nz e.(CopyNumber) t.(CopyNumber)) (nzs e.(Status) t.(Status)) (nz_chunked e.(Upload) t.(Upload)).
End FI.
Abbreviation FileInfo := FI.FileInfo.
Definition FileStatusUploading : string := "uploading".
Definition FileStatusNormal : string := "normal".
Definition FileStatusUploadWaitComp : string := "upload_wait_comp".

(** The primary key is the only unique index; a zero copy number and an empty
    status take the defaults of their columns. *)
#[export] Instance file_model : GormModel FileInfo := {
  m_zero := FI.zero;
  m_id := FI.ID;
  m_deleted := FI.DeletedAt;
  m_set_deleted d f := FI.set_head f.(FI.ID) f.(FI.CreatedAt) f.(FI.UpdatedAt) d f;
  m_touch now f := FI.set_head f.(FI.ID) f.(FI.CreatedAt) now f.(FI.DeletedAt) f;
  m_create now id f :=
    FI.set_head (nz f.(FI.ID) id) (nz f.(FI.CreatedAt) now) (nz f.(FI.UpdatedAt) now) f.(FI.DeletedAt)
      (FI.set_columns (nz f.(FI.CopyNumber) 1) (nzs f.(FI.Status) FileStatusNormal) f);
  m_updates := FI.updates;
  m_upsert now e t := FI.set_head t.(FI.ID) t.(FI.CreatedAt) now e.(FI.DeletedAt) e;
  m_collide a b := a.(FI.ID) =? b.(FI.ID);
}.

Module TF.
Record TempFile : Type := mkTemp {
  ID : Z; CreatedAt : Z; UpdatedAt : Z; DeletedAt : option Z;
  CompanyID : Z; Uin : Z; EmployeeID : Z; Purpose : string; Filename : string; FileExt : string; MIMEType : string; Size : Z;
  ChunkHash : string; StoragePath : string; PublicURL : string; ErrMsg : string; AnnotationsStr : string;
  ThirdUploadID : string; ExpiredAt : Z; PartSize : Z; PartCount : Z
}.
Definition zero : TempFile := mkTemp 0 0 0 None 0 0 0 "" "" "" "" 0 "" "" "" "" "" "" 0 0 0.
Definition set_head (id created updated : Z) (deleted : option Z) (f : TempFile) : TempFile :=
  mkTemp id created updated deleted f.(CompanyID) f.(Uin) f.(EmployeeID) f.(Purpose) f.(Filename) f.(FileExt) f.(MIMEType)
    f.(Size) f.(ChunkHash) f.(StoragePath) f.(PublicURL) f.(ErrMsg) f.(AnnotationsStr) f.(ThirdUploadID) f.(ExpiredAt)
    f.(PartSize) f.(PartCount).
Definition set_upload (uploadID : string) (f : TempFile) : TempFile :=
  mkTemp f.(ID) f.(CreatedAt) f.(UpdatedAt) f.(DeletedAt) f.(CompanyID) f.(Uin) f.(EmployeeID) f.(Purpose) f.(Filename)
    f.(FileExt) f.(MIMEType) f.(Size) f.(ChunkHash) f.(StoragePath) f.(PublicURL) f.(ErrMsg) f.(AnnotationsStr) uploadID
    f.(ExpiredAt) f.(PartSize) f.(PartCount).
Definition updates (now : Z) (e t : TempFile) : TempFile :=
  mkTemp (nz e.(ID) t.(ID)) (nz e.(CreatedAt) t.(CreatedAt)) now (nzo e.(DeletedAt) t.(DeletedAt))
    (nz e.(CompanyID) t.(CompanyID)) (nz e.(Uin) t.(Uin)) (nz e.(EmployeeID) t.(EmployeeID)) (nzs e.(Purpose) t.(Purpose))
    (nzs e.(Filename) t.(Filename)) (nzs e.(FileExt) t.(FileExt)) (nzs e.(MIMEType) t.(MIMEType)) (nz e.(Size) t.(Size))
    (nzs e.(ChunkHash) t.(ChunkHash)) (nzs e.(StoragePath) t.(StoragePath)) (nzs e.(PublicURL) t.(PublicURL))
    (nzs e.(ErrMsg) t.(ErrMsg)) (nzs e.(AnnotationsStr) t.(AnnotationsStr)) (nzs e.(ThirdUploadID) t.(ThirdUploadID))
    (nz e.(ExpiredAt) t.(ExpiredAt)) (nz e.(PartSize) t.(PartSize)) (nz e.(PartCount) t.(PartCount)).
End TF.
Abbreviation TempFile := TF.TempFile.
#[export] Instance temp_model : GormModel TempFile := {
  m_zero := TF.zero;
  m_id := TF.ID;
  m_deleted := TF.DeletedAt;
  m_set_deleted d f := TF.set_head f.(TF.ID) f.(TF.CreatedAt) f.(TF.UpdatedAt) d f;
  m_touch now f := TF.set_head f.(TF.ID) f.(TF.CreatedAt) now f.(TF.DeletedAt) f;
  m_create now id f := TF.set_head (nz f.(TF.ID) id) (nz f.(TF.CreatedAt) now) (nz f.(TF.UpdatedAt) now) f.(TF.DeletedAt) f;
  m_updates := TF.updates;
  m_upsert now e t := TF.set_head t.(TF.ID) t.(TF.CreatedAt) now e.(TF.DeletedAt) e;
  m_collide a b := a.(TF.ID) =? b.(TF.ID);
}.

(** * [First] and [Last]: the lowest and the highest id of the result *)
Definition ErrRecordNotFound : error := ErrVar "record not found".
Section First.
Context {E : Type} `{GormModel E}.
Fixpoint extreme (before : Z -> Z -> bool) (l : list E) : option E :=
  match l with
  | [] => None
  | e :: l' => match extreme before l' with
               | None => Some e
               | Some x => if before (m_id x) (m_id e) then Some x else Some e
               end
  end.
Definition found (r : option E) : Res E := match r with Some e => Ok e | None => Err ErrRecordNotFound end.
Definition first_of (q : Query E) (t : GTab E) : Res E := found (extreme Z.ltb (List.filter (hits q) t.(rows))).
Definition last_of (q : Query E) (t : GTab E) : Res E := found (extreme (fun a b => b <? a) (List.filter (hits q) t.(rows))).
End First.

Section Files.
Context `{Env} {S : Type} `{HasTab S FileInfo} `{HasTab S TempFile}.

Definition gorm_first {E} `{GormModel E} `{HasTab S E} (q : Query E) : M S E := tab_read (first_of q).
Definition gorm_last {E} `{GormModel E} `{HasTab S E} (q : Query E) : M S E := tab_read (last_of q).
(** [db.Transaction]: on an error the state is as before; the bodies here only
    touch tables. *)
Definition in_transaction {A} (body : M S A) : M S A :=
  fun w => match (gext (fun s => (tt, s)) ;;; let! a := body in gext (fun s => (a, s))) w with
           | (Ok a, w') => (Ok a, w')
           | (Err e, w') => (Err e, mkWorld (calls w') (st w))
           end.
(** [if fi.ID == 0 { return nil, gorm.ErrRecordNotFound }]. *)
Definition with_id {E} `{GormModel E} (m : M S E) : M S E :=
  let! fi := m in if m_id fi =? 0 then graise ErrRecordNotFound else gret fi.

Definition GetFileByChunkHash (hashstr : string) (size : Z) : M S FileInfo :=
  with_id (gorm_first (where_ (fun f => str_eqb f.(FI.ChunkHash) hashstr) (where_ (fun f => f.(FI.Size) =? size) newQuery))).
Definition GetFileByHash (hashstr : string) : M S FileInfo :=
  with_id (gorm_first (where_ (fun f => str_eqb f.(FI.Hash) hashstr) newQuery)).
Definition GetFileByPublicURL (publicURL : string) : M S FileInfo :=
  with_id (gorm_first (where_ (fun f => str_eqb f.(FI.PublicURL) publicURL) newQuery)).
Definition GetCompanyFileByID (companyID id : Z) : M S FileInfo :=
  if id =? 0 then graise ErrRecordNotFound
  else gorm_first (where_ (fun f => f.(FI.ID) =? id) (where_ (fun f => f.(FI.CompanyID) =? companyID) newQuery)).
Definition GetFileByID (id : Z) : M S FileInfo :=
  if id =? 0 then graise ErrRecordNotFound else gorm_first (by_id id).
Definition UpdateByID (id : Z) (updateMap : FileInfo -> FileInfo) : M S unit := gorm_update_map (by_id id) updateMap.
(** [Create] puts the default into the record when the number is zero.  The
    update names the table only: deleted rows are updated too and [updated_at]
    stays. *)
Definition SaveCopyFile (fi : FileInfo) : M S unit :=
  in_transaction (
    gorm_create [fi] ;;;
    tab_write (update_rows (unscope (where_ (fun f => str_eqb f.(FI.Hash) fi.(FI.Hash) && (f.(FI.Size) =? fi.(FI.Size))) newQuery))
                 (fun f => FI.set_columns (nz fi.(FI.CopyNumber) 1) f.(FI.Status) f))).

Definition GetTempFileByHash (hashstr : string) (size : Z) : M S TempFile :=
  with_id (gorm_first (where_ (fun f => str_eqb f.(TF.ChunkHash) hashstr) (where_ (fun f => f.(TF.Size) =? size) newQuery))).
Definition GetTempFileByThirdUploadID (companyID : Z) (thirdUploadID : string) : M S TempFile :=
  with_id (gorm_last (where_ (fun f => (f.(TF.CompanyID) =? companyID) && str_eqb f.(TF.ThirdUploadID) thirdUploadID) newQuery)).
(** [Create(&e)]: the record comes back with its id, times and defaults. *)
Definition gorm_create_one {E} `{GormModel E} `{HasTab S E} (e : E) : M S E :=
  let! now := gnow in
  gextr (fun s => let t := get_tab s in
                  match insert_rows now [e] t with
                  | Ok t' => (Ok (m_create now t.(next_id) e), set_tab t' s)
                  | Err x => (Err x, s)
                  end).
(** [Delete(&e)]: the row with the id of the record, unless it is deleted. *)
Definition gorm_delete_one {E} `{GormModel E} `{HasTab S E} (e : E) : M S unit :=
  let! now := gnow in
  tab_write (fun t => if m_id e =? 0 then Err (ErrVar "WHERE conditions required")
                      else update_rows (by_id (m_id e)) (m_set_deleted (Some now)) t).
Definition SaveTempFile (tempFile : TempFile) : M S TempFile := gorm_create_one tempFile.

(** Reading back what was stored. *)
Hypothesis files_stored : forall t s, get_tab (E := FileInfo) (set_tab t s) = t.
Definition same_content (fi f : FileInfo) : bool := str_eqb f.(FI.Hash) fi.(FI.Hash) && (f.(FI.Size) =? fi.(FI.Size)).
Lemma tab_write_inv {E} `{HasTab S E} (f : GTab E -> Res (GTab E)) (w w' : World S) :
  tab_write f w = (Ok tt, w') -> exists t, f (get_tab (st w)) = Ok t /\ st w' = set_tab t (st w).
Proof.
  unfold tab_write, gextr. destruct (env_fault (calls w)); [done|]. destruct (f (get_tab (st w))) as [t|e]; [|done].
  intros [= <-]. by exists t.
Qed.
Lemma in_transaction_inv {A} (body : M S A) (w w' : World S) a :
  in_transaction body w = (Ok a, w') -> exists w0 w1, st w0 = st w /\ body w0 = (Ok a, w1) /\ st w' = st w1.
Proof.
  unfold in_transaction, gext, gbind. destruct (env_fault (calls w)); [done|]. cbn [fst snd].
  destruct (body _) as [[b|e] w1] eqn:E; [|done]. destruct (env_fault (calls w1)); [done|]. intros [= -> <-]. exists (mkWorld (Datatypes.S (calls w)) (st w)), w1. by split_and!.
Qed.
Lemma transaction_err {A} (body : M S A) (w : World S) : is_ok (fst (in_transaction body w)) = false -> st (snd (in_transaction body w)) = st w.
Proof. unfold in_transaction. destruct (gbind _ _ w) as [[b|e] w1]; cbn; [discriminate|done]. Qed.

(** A copy of a file is recorded as a whole or, whatever call fails, not at
    all: the new row comes last, every row with its content, deleted rows
    included, then counts its number of copies, and the other rows are as they
    were. *)
Theorem SaveCopyFile_spec (fi : FileInfo) (w : World S) :
  let w' := snd (SaveCopyFile fi w) in
  (fst (SaveCopyFile fi w) <> Ok tt -> st w' = st w) /\
  (fst (SaveCopyFile fi w) = Ok tt ->
     exists now, let old := get_tab (E := FileInfo) (st w) in
       let row := m_create now old.(next_id) fi in
       (get_tab (E := FileInfo) (st w')).(rows) =
         map (fun f => if same_content fi f then FI.set_columns (nz fi.(FI.CopyNumber) 1) f.(FI.Status) f else f) (old.(rows) ++ [row]) /\
       forall f, In f (get_tab (E := FileInfo) (st w')).(rows) -> same_content fi f = true -> f.(FI.CopyNumber) = nz fi.(FI.CopyNumber) 1).
Proof.
  split; [intros Hr; apply transaction_err; by destruct (fst _) as [[]|]|]. intros Hr.
  destruct (SaveCopyFile fi w) as [r w'] eqn:E. cbn [fst snd] in *. subst r.
  apply in_transaction_inv in E as (w0 & w1 & Hw0 & E & Hw1).
  apply gbind_inv in E as [(? & _ & [=])|([] & w2 & E & E1)]. apply gbind_inv in E as [(? & [=] & _)|(now & w3 & E3 & E)].
  injection E3 as Hnow <-. apply tab_write_inv in E as (t & Ht & Hw2), E1 as (t1 & Ht1 & Hw3). exists now.
  cbn [st] in Ht, Hw2. rewrite Hw0 in Ht, Hw2. rewrite Hw1, Hw3, files_stored. rewrite Hw2, files_stored in Ht1. cbn [insert_rows] in Ht.
  destruct (existsb _ _); [done|]. injection Ht as <-. unfold update_rows in Ht1. cbn [conds unscope where_ newQuery app] in Ht1.
  destruct (distinct _); [|done]. injection Ht1 as <-. cbn [rows]. 
  assert (Hmap : forall l, map (fun e => if hits (unscope (where_ (same_content fi) newQuery)) e then FI.set_columns (nz fi.(FI.CopyNumber) 1) e.(FI.Status) e else e) l
                 = map (fun f => if same_content fi f then FI.set_columns (nz fi.(FI.CopyNumber) 1) f.(FI.Status) f else f) l).
  { intros l. apply map_ext. intros f. unfold hits. cbn. by rewrite !andb_true_r. }
  rewrite <- Hmap. split; [done|]. intros f Hf Hs. rewrite Hmap in Hf. apply in_map_iff in Hf as (g & <- & _).
  destruct (same_content fi g) eqn:Eg; [done|]. congruence.
Qed.
End Files.

(** * The tables at work *)
Record FileTabs : Type := mkTabs { files : GTab FileInfo; temps : GTab TempFile }.
#[export] Instance tabs_files : HasTab FileTabs FileInfo := { get_tab := files; set_tab t s := mkTabs t s.(temps) }.
#[export] Instance tabs_temps : HasTab FileTabs TempFile := { get_tab := temps; set_tab t s := mkTabs s.(files) t }.
Lemma files_tab_law (t : GTab FileInfo) (s : FileTabs) : get_tab (set_tab t s) = t.
Proof. done. Qed.
Definition stored (id : Z) (hash : string) (size copies : Z) : FileInfo :=
  FI.set_head id 1 1 None (FI.set_columns copies FileStatusNormal
    (FI.mkFile 0 0 0 None 7 0 "" "" "" "" size hash "" "" "" 0 "" FI.notChunked)).
Definition demoTabs : FileTabs := mkTabs (mkGTab [stored 1 "md5:a" 10 1; stored 2 "md5:b" 10 1] 3) (mkGTab [] 1).
Lemma SaveCopyFile_spec_witness :
  let w' := snd (SaveCopyFile (H := quietEnv) (S := FileTabs) (stored 0 "md5:a" 10 2) (mkWorld 0 demoTabs)) in
  forall f, In f (rows (get_tab (E := FileInfo) (st w'))) ->
    same_content (stored 0 "md5:a" 10 2) f = true -> f.(FI.CopyNumber) = nz 2 1.
Proof.
  destruct (SaveCopyFile_spec (H := quietEnv) (S := FileTabs) files_tab_law (stored 0 "md5:a" 10 2) (mkWorld 0 demoTabs)) as [_ Hs].
  destruct (Hs ltac:(vm_compute; reflexivity)) as (now & _ & Hf). exact Hf.
Defined.
(** The three rows after the copy, and none of it when the last call fails. *)
Example copied_rows :
  map (fun f => (FI.ID f, FI.CopyNumber f)) (rows (files (st (snd (SaveCopyFile (H := quietEnv) (stored 0 "md5:a" 10 2) (mkWorld 0 demoTabs)))))) =
    [(1, 2); (2, 1); (3, 2)] /\
  st (snd (SaveCopyFile (H := faultEnv 4 (ErrVar "connection lost")) (stored 0 "md5:a" 10 2) (mkWorld 0 demoTabs))) = demoTabs.
Proof. vm_compute. split; reflexivity. Qed.
