(* ===== verification/Files.v ===== *)
(** Paths and the file system: [path/filepath] and [os] of the Go standard
    library on Unix, as far as the local storage uses them.  A path is a text;
    [Clean] and [Join] are lexical; the system calls work on a tree of
    directories and files without symbolic links. *)
From S2P Require Import Prelude.

(** * Lexical paths *)
Definition slash : ascii := "/".
Definition rooted (s : string) : bool := has_prefix "/" s.
(** One element of a path over the elements so far, last first. *)
Definition clean_step (root : bool) (stack : list string) (c : string) : list string :=
  if str_eqb c "" || str_eqb c "." then stack
  else if str_eqb c ".." then
    match stack with
    | top :: rest => if str_eqb top ".." then ".."%string :: stack else rest
    | [] => if root then [] else [".."%string]
    end
  else c :: stack.
Definition clean_elems (root : bool) (l : list string) : list string := rev (fold_left (clean_step root) l []).
Definition elems (s : string) : list string := split_on slash s.
Fixpoint join_elems (l : list string) : string :=
  match l with [] => "" | [c] => c | c :: l' => c ++ String slash (join_elems l') end.
(** [filepath.Clean]. *)
Definition Clean (s : string) : string :=
  let l := clean_elems (rooted s) (elems s) in
  if rooted s then String slash (join_elems l) else match l with [] => "." | _ => join_elems l end.
(** [filepath.Join]: empty elements in front are dropped. *)
Fixpoint Join (l : list string) : string :=
  match l with
  | [] => ""
  | e :: l' => if str_eqb e "" then Join l' else Clean (join_elems l)
  end.
(** [filepath.Dir]: up to the last separator. *)
Definition Dir (s : string) : string := Clean (join_elems (removelast (elems s) ++ [""%string])).

(** * Files *)
Inductive node : Type := File (content : string) | Folder.
#[export] Instance node_eq_dec : EqDecision node.
Proof. solve_decision. Defined.
Abbreviation path := (list string).
(** The root always is a folder and is not in the map. *)
Abbreviation FS := (gmap path node).
Definition at_ (fs : FS) (p : path) : option node := match p with [] => Some Folder | _ => lookup (A:=node) p fs end.
Definition parent (p : path) : path := removelast p.
Definition prefixes (p : path) : list path := map (fun n => firstn n p) (seq 1 (length p)).

Definition ENOENT : error := ErrVar "no such file or directory".
Definition ENOTDIR : error := ErrVar "not a directory".
Definition EISDIR : error := ErrVar "is a directory".
Definition ENOTEMPTY : error := ErrVar "directory not empty".

(** [os.Stat]: whether it is a folder. *)
Definition stat (p : path) (fs : FS) : Res bool :=
  match at_ fs p with Some Folder => Ok true | Some (File _) => Ok false | None => Err ENOENT end.
(** [os.MkdirAll]. *)
Fixpoint mkdirs (ps : list path) (fs : FS) : Res unit * FS :=
  match ps with
  | [] => (Ok tt, fs)
  | p :: ps' => match at_ fs p with
                | Some Folder => mkdirs ps' fs
                | Some (File _) => (Err ENOTDIR, fs)
                | None => mkdirs ps' (<[p := Folder]> fs)
                end
  end.
Definition mkdir_all (p : path) (fs : FS) : Res unit * FS := mkdirs (prefixes p) fs.
(** [os.Create]: an existing file is emptied. *)
Definition create (p : path) (fs : FS) : Res unit * FS :=
  match at_ fs (parent p), at_ fs p with
  | Some Folder, Some Folder => (Err EISDIR, fs)
  | Some Folder, _ => (Ok tt, <[p := File ""]> fs)
  | Some (File _), _ => (Err ENOTDIR, fs)
  | None, _ => (Err ENOENT, fs)
  end.
(** [os.Open] and reading it all, now. *)
Definition open (p : path) (fs : FS) : Res unit := match at_ fs p with Some _ => Ok tt | None => Err ENOENT end.
Definition read (p : path) (fs : FS) : Res string :=
  match at_ fs p with Some (File c) => Ok c | Some Folder => Err EISDIR | None => Err ENOENT end.
(** Writing through the descriptor of a file. *)
Definition write (p : path) (data : string) (fs : FS) : FS :=
  match at_ fs p with Some (File c) => <[p := File (c ++ data)]> fs | _ => fs end.
(** The entries of a folder: names and whether they are folders, by name. *)
Definition child_of (p q : path) : option string :=
  match q with
  | [] => None
  | _ => if bool_decide (parent q = p) then last q else None
  end.
Definition is_folder (n : node) : bool := match n with Folder => true | File _ => false end.
Definition entries (p : path) (fs : FS) : list (string * bool) :=
  omap (fun e => (fun c => (c, is_folder (snd e))) <$> child_of p (fst e)) (map_to_list fs).
(** [os.ReadDir] sorts by name: [sorted] is that order. *)
Definition name_le (a b : string * bool) : Prop := String.leb (fst a) (fst b) = true.
#[export] Instance name_le_dec a b : Decision (name_le a b).
Proof. unfold name_le. solve_decision. Defined.
Definition read_dir (p : path) (fs : FS) : Res (list (string * bool)) :=
  match at_ fs p with
  | Some Folder => Ok (merge_sort name_le (entries p fs))
  | Some (File _) => Err ENOTDIR
  | None => Err ENOENT
  end.
(** [os.Remove]: a file or an empty folder. *)
Definition remove (p : path) (fs : FS) : Res unit * FS :=
  match at_ fs p with
  | None => (Err ENOENT, fs)
  | Some (File _) => (Ok tt, delete p fs)
  | Some Folder => match p, entries p fs with [], _ => (Err ENOTEMPTY, fs) | _, [] => (Ok tt, delete p fs) | _, _ => (Err ENOTEMPTY, fs) end
  end.

(** The place a text names for a process in the folder [cwd]. *)
Definition resolve (cwd : path) (s : string) : path :=
  clean_elems true (if rooted s then elems s else cwd ++ elems s).

(** * Facts of paths *)
Definition plain (c : string) : bool :=
  negb (str_eqb c "") && negb (str_eqb c ".") && negb (str_eqb c "..") && negb (str_mem slash c).
Lemma plain_spec c : plain c = true <-> c <> ""%string /\ c <> "."%string /\ c <> ".."%string /\ str_mem slash c = false.
Proof.
  unfold plain, str_eqb. rewrite !andb_true_iff, !negb_true_iff.
  destruct (String.eqb_spec c ""), (String.eqb_spec c "."), (String.eqb_spec c ".."), (str_mem slash c); naive_solver.
Qed.
(** The text of the place [p]. *)
Definition canon (p : path) : string := String slash (join_elems p).

Lemma split_app c a b : split_on c (a ++ String c b) = split_on c a ++ split_on c b.
Proof.
  induction a as [|x a IH].
  - change (split_on c (String c b) = ""%string :: split_on c b). cbn [split_on]. by rewrite Ascii.eqb_refl.
  - change (String x a ++ String c b)%string with (String x (a ++ String c b)). cbn [split_on]. rewrite IH.
    destruct (Ascii.eqb x c); [done|]. destruct (split_on c a) eqn:E; [by apply split_on_nonempty in E|done].
Qed.
Lemma split_no_sep c s : Forall (fun x => str_mem c x = false) (split_on c s).
Proof.
  induction s as [|x s IH]; cbn [split_on]; [by repeat constructor|]. destruct (Ascii.eqb x c) eqn:E; [by constructor|].
  destruct (split_on c s) as [|p ps]; [constructor; [simpl; by rewrite E|done]|].
  apply Forall_cons in IH as [Hp Hps]. constructor; [simpl; by rewrite E|done].
Qed.
Lemma elems_join l : l <> [] -> Forall (fun x => str_mem slash x = false) l -> elems (join_elems l) = l.
Proof.
  intros Hne H. induction H as [|c l Hc Hl IH]; [done|]. cbn [join_elems]. destruct l as [|d l]; [by apply split_on_none|].
  unfold elems in *. rewrite split_on_app by done. by rewrite IH.
Qed.
Lemma elems_slash s : elems (String slash s) = ""%string :: elems s.
Proof. done. Qed.
Lemma join_snoc_sep l : l <> [] -> join_elems (l ++ [""%string]) = (join_elems l ++ "/")%string.
Proof.
  induction l as [|c [|d l] IH]; intros Hne; [done|done|].
  change (join_elems ((c :: d :: l) ++ [""%string])) with (c ++ String slash (join_elems ((d :: l) ++ [""%string])))%string.
  rewrite IH by done. change (join_elems (c :: d :: l)) with (c ++ String slash (join_elems (d :: l)))%string.
  by rewrite str_app_assoc.
Qed.

Section Clean.
Variable root : bool.
Definition normal (c : string) : Prop := plain c = true \/ (root = false /\ c = ".."%string).
Lemma step_plain r c stack : plain c = true -> clean_step r stack c = c :: stack.
Proof.
  intros (H1 & H2 & H3 & H4)%plain_spec. unfold clean_step, str_eqb.
  destruct (String.eqb_spec c ""), (String.eqb_spec c "."), (String.eqb_spec c ".."); done.
Qed.
Lemma step_up r c stack : plain c = true -> clean_step r (c :: stack) ".." = stack.
Proof.
  intros (_ & _ & H & _)%plain_spec. change ((if str_eqb c ".." then ".."%string :: c :: stack else stack) = stack).
  unfold str_eqb. by destruct (String.eqb_spec c "..").
Qed.
Lemma fold_plain r l : forall stack, Forall (fun c => plain c = true) l -> fold_left (clean_step r) l stack = rev l ++ stack.
Proof.
  induction l as [|c l IH]; intros stack H; [done|]. apply Forall_cons in H as [Hc Hl]. cbn [fold_left rev].
  rewrite step_plain, IH by done. by rewrite <- app_assoc.
Qed.
Lemma step_normal stack c : Forall normal stack -> str_mem slash c = false -> Forall normal (clean_step root stack c).
Proof.
  intros Hs Hc. unfold clean_step, str_eqb. destruct (String.eqb_spec c ""), (String.eqb_spec c "."); [done|done|done|]. cbn [orb].
  destruct (String.eqb_spec c "..") as [->|H3].
  - destruct stack as [|top rest].
    + destruct root eqn:Er; [done|]. constructor; [by right|constructor].
    + apply Forall_cons in Hs as [Ht Hr]. destruct (String.eqb_spec top "..") as [->|]; [|done].
      destruct Ht as [Ht|[Er _]]; [done|]. constructor; [by right|]. constructor; [by right|done].
  - constructor; [|done]. left. by apply plain_spec.
Qed.
Lemma clean_normal l : Forall (fun x => str_mem slash x = false) l -> Forall normal (clean_elems root l).
Proof.
  intros H. unfold clean_elems. apply Forall_rev. assert (Hs : Forall normal []) by constructor. revert Hs.
  generalize (@nil string) as stack. induction H as [|c l Hc Hl IH]; intros stack Hs; [done|]. apply IH. by apply step_normal.
Qed.
End Clean.
Lemma clean_true_plain s l : Forall (fun c => plain c = true) (clean_elems true (elems s ++ elems l)).
Proof.
  eapply Forall_impl; [apply clean_normal|intros c [H|[? _]]; [exact H|done]].
  apply Forall_app. split; apply split_no_sep.
Qed.

(** Cleaning a relative part first changes nothing. *)
Lemma clean_rel_again l stack : Forall (fun x => str_mem slash x = false) l ->
  fold_left (clean_step true) (clean_elems false l) stack = fold_left (clean_step true) l stack.
Proof.
  intros Hl. pose proof (clean_normal false) as Hn. induction l as [|c l IH] using rev_ind; [done|].
  apply Forall_app in Hl as [Hl Hc]. specialize (Hn l Hl). unfold clean_elems in *. rewrite !fold_left_app. cbn [fold_left].
  rewrite <- IH by done. set (st := fold_left (clean_step false) l []) in *. clearbody st. clear IH.
  unfold clean_step at 2, str_eqb.
  destruct (String.eqb_spec c "") as [->|]; [done|]. destruct (String.eqb_spec c ".") as [->|]; [done|]. cbn [orb].
  destruct (String.eqb_spec c "..") as [->|Hdd].
  - destruct st as [|top rest]; [done|]. cbn [rev]. destruct (String.eqb_spec top "..") as [->|Ht].
    + cbn [rev]. by rewrite !fold_left_app.
    + rewrite fold_left_app. cbn [fold_left]. cbn [rev] in Hn. apply Forall_app in Hn as [_ Hn]. apply Forall_cons in Hn as [[Htop|[_ ?]] _]; [|done].
      by rewrite (step_plain true top), step_up by done.
  - cbn [rev]. by rewrite fold_left_app.
Qed.

Lemma rooted_canon p : rooted (canon p) = true.
Proof. apply (has_prefix_app "/" (join_elems p)). Qed.
Lemma plain_no_slash l : Forall (fun c => plain c = true) l -> Forall (fun x => str_mem slash x = false) l.
Proof. intros H. eapply Forall_impl; [exact H|]. by intros c (_ & _ & _ & ?)%plain_spec. Qed.
Lemma clean_plain r l : Forall (fun c => plain c = true) l -> clean_elems r l = l.
Proof. intros H. unfold clean_elems. by rewrite fold_plain, app_nil_r, rev_involutive. Qed.
Lemma clean_skip r l : clean_elems r (""%string :: l) = clean_elems r l.
Proof. done. Qed.
Lemma clean_canon p : Forall (fun c => plain c = true) p -> clean_elems true (elems (canon p)) = p.
Proof.
  intros Hp. unfold canon. rewrite elems_slash, clean_skip. destruct p as [|c p]; [done|].
  rewrite elems_join by (done || by apply plain_no_slash). by apply clean_plain.
Qed.
Lemma resolve_canon cwd p : Forall (fun c => plain c = true) p -> resolve cwd (canon p) = p.
Proof. intros Hp. unfold resolve. rewrite rooted_canon. by apply clean_canon. Qed.
Lemma Clean_rooted s : rooted s = true -> Clean s = canon (clean_elems true (elems s)).
Proof. intros Hr. unfold Clean. by rewrite Hr. Qed.
Lemma rooted_app s t : rooted s = true -> rooted (s ++ t) = true.
Proof. intros (r & ->)%has_prefix_inv. rewrite str_app_assoc. apply has_prefix_app. Qed.
Lemma Join_rooted d s : rooted d = true -> Join [d; s] = canon (clean_elems true (elems d ++ elems s)).
Proof.
  intros Hd. cbn [Join]. unfold str_eqb. destruct (String.eqb_spec d "") as [->|_]; [done|].
  change (join_elems [d; s]) with (d ++ String slash s)%string.
  rewrite Clean_rooted by by apply rooted_app. unfold elems. by rewrite split_app.
Qed.
Lemma Join_canon p n : Forall (fun c => plain c = true) p -> plain n = true -> Join [canon p; n] = canon (p ++ [n]).
Proof.
  intros Hp Hn. rewrite Join_rooted by apply rooted_canon. unfold clean_elems. rewrite fold_left_app.
  pose proof (clean_canon p Hp) as Hc. unfold clean_elems in Hc. rewrite <- (rev_involutive (fold_left _ (elems (canon p)) [])), Hc.
  unfold elems. rewrite split_on_none by by apply plain_spec in Hn as (_ & _ & _ & ?). cbn [fold_left]. rewrite step_plain by done.
  cbn [rev]. by rewrite rev_involutive.
Qed.
Lemma Dir_canon p : Forall (fun c => plain c = true) p -> Dir (canon p) = canon (parent p).
Proof.
  intros Hp. unfold Dir, parent. unfold canon at 1. rewrite elems_slash.
  assert (E : removelast (""%string :: elems (join_elems p)) ++ [""%string] = ""%string :: removelast p ++ [""%string]).
  { destruct p as [|c p]; [done|]. rewrite elems_join by (done || by apply plain_no_slash). done. }
  rewrite E. assert (Hr : Forall (fun c => plain c = true) (removelast p)).
  { destruct (decide (p = [])) as [->|Hne]; [done|]. destruct (exists_last Hne) as (q & c & ->).
    rewrite removelast_last. by apply Forall_app in Hp as [? _]. }
  assert (Ej : forall l, join_elems (""%string :: l ++ [""%string]) = String slash (join_elems (l ++ [""%string])))
    by (intros [|x l]; [done|]; by destruct (l ++ [""%string])). rewrite Ej.
  rewrite Clean_rooted by apply (has_prefix_app "/"). f_equal. rewrite elems_slash, clean_skip, elems_join.
  - unfold clean_elems. rewrite fold_left_app, (fold_plain true (removelast p)) by done. cbn [fold_left]. rewrite app_nil_r.
    change (clean_step true (rev (removelast p)) "") with (rev (removelast p)). by rewrite rev_involutive.
  - by destruct (removelast p).
  - apply Forall_app. split; [by apply plain_no_slash|by repeat constructor].
Qed.

(** Where a storage path leads: below the folder unless its clean form climbs
    out of it. *)
Definition climbs (s : string) : bool :=
  match clean_elems (rooted s) (elems s) with c :: _ => str_eqb c ".." | [] => false end.
Lemma clean_shape l : Forall (fun x => str_mem slash x = false) l ->
  exists n ps, clean_elems false l = repeat ".."%string n ++ ps /\ Forall (fun c => plain c = true) ps.
Proof.
  unfold clean_elems. induction l as [|c l IH] using rev_ind; [by exists 0%nat, []|]. intros [Hl Hc]%Forall_app.
  apply Forall_cons in Hc as [Hc _]. destruct (IH Hl) as (n & ps & E & Hps). clear IH. rewrite fold_left_app. cbn [fold_left].
  set (st := fold_left (clean_step false) l []) in *. assert (Est : st = rev ps ++ repeat ".."%string n).
  { by rewrite <- (rev_involutive st), E, rev_app_distr, rev_repeat. }
  clearbody st. unfold clean_step, str_eqb.
  destruct (String.eqb_spec c "") as [->|H1]; [by exists n, ps|]. destruct (String.eqb_spec c ".") as [->|H2]; [by exists n, ps|]. cbn [orb].
  destruct (String.eqb_spec c "..") as [->|H3].
  - destruct (decide (ps = [])) as [->|Hne].
    + exists (S n), []. split; [|done]. subst st. cbn [rev app]. rewrite app_nil_r.
      destruct n as [|n]; [done|]. cbn [repeat]. change (String.eqb ".." "..") with true. cbv iota.
      change (".."%string :: ".."%string :: repeat ".."%string n) with (repeat ".."%string (S (S n))). by rewrite rev_repeat.
    + destruct (exists_last Hne) as (qs & q & ->). apply Forall_app in Hps as [Hqs Hq]. apply Forall_cons in Hq as [Hq _].
      exists n, qs. split; [|done]. subst st. rewrite rev_app_distr. cbn [rev app].
      apply plain_spec in Hq as (_ & _ & Hq & _). destruct (String.eqb_spec q ".."); [done|].
      by rewrite rev_app_distr, rev_involutive, rev_repeat.
  - exists n, (ps ++ [c]). subst st. cbn [rev]. rewrite rev_app_distr, rev_involutive, rev_repeat, <- app_assoc. split; [done|].
    apply Forall_app. split; [done|]. constructor; [by apply plain_spec|done].
Qed.
Lemma climbs_rel s : climbs s = false -> Forall (fun c => plain c = true) (clean_elems (rooted s) (elems s)).
Proof.
  unfold climbs. intros Hc. destruct (rooted s).
  - apply (clean_true_plain "" s).
  - destruct (clean_shape (elems s)) as (n & ps & E & Hps); [apply split_no_sep|]. rewrite E in Hc |- *. by destruct n.
Qed.
Lemma join_rel_unrooted l : l <> [] -> Forall (fun c => c <> ""%string /\ str_mem slash c = false) l -> rooted (join_elems l) = false.
Proof.
  intros Hne H. destruct l as [|c l]; [done|]. apply Forall_cons in H as [[Hc Hs] _]. destruct c as [|a c]; [done|].
  apply not_true_is_false. intros (r & Hr)%has_prefix_inv. simpl in Hs. apply orb_false_iff in Hs as [Ha _].
  assert (Hcons : exists t, join_elems (String a c :: l) = String a t) by (destruct l; by eexists). destruct Hcons as [t Ht].
  rewrite Ht in Hr. injection Hr as ->. done.
Qed.
Lemma Clean_elems s : rooted (Clean s) = rooted s /\ clean_elems (rooted s) (elems (Clean s)) = clean_elems (rooted s) (elems s).
Proof.
  destruct (rooted s) eqn:Hr.
  - rewrite Clean_rooted by done. split; [apply rooted_canon|]. apply clean_canon. apply (clean_true_plain "" s).
  - unfold Clean. rewrite Hr. destruct (clean_shape (elems s)) as (n & ps & E & Hps); [apply split_no_sep|].
    destruct (clean_elems false (elems s)) as [|c l] eqn:El; [done|]. rewrite E.
    assert (Hn : Forall (fun c => c <> ""%string /\ str_mem slash c = false) (repeat ".."%string n ++ ps)).
    { apply Forall_app. split; [clear; induction n; simpl; by constructor|]. eapply Forall_impl; [exact Hps|]. intros ? (? & _ & _ & ?)%plain_spec. done. }
    assert (Hne : repeat ".."%string n ++ ps <> []) by (by rewrite <- E).
    split; [by apply join_rel_unrooted|]. rewrite elems_join; [|done|].
    + unfold clean_elems. rewrite fold_left_app.
      assert (Hdd : fold_left (clean_step false) (repeat ".."%string n) [] = repeat ".."%string n).
      { clear. assert (H : forall k, fold_left (clean_step false) (repeat ".."%string n) (repeat ".."%string k) = repeat ".."%string (n + k)).
        { induction n as [|n IH]; intros k; [done|]. cbn [repeat fold_left].
          assert (Es : clean_step false (repeat ".."%string k) ".." = repeat ".."%string (S k)) by (by destruct k).
          rewrite Es, IH. f_equal. lia. }
        specialize (H 0%nat). by rewrite Nat.add_0_r in H. }
      rewrite Hdd, fold_plain, rev_app_distr, rev_involutive, rev_repeat by done. done.
    + eapply Forall_impl; [exact Hn|]. by intros ? [_ ?].
Qed.

Lemma Clean_idem s : Clean (Clean s) = Clean s.
Proof. destruct (Clean_elems s) as [Hr He]. unfold Clean at 1. rewrite Hr, He. done. Qed.

(** The place of the storage path [s] in the folder [d]. *)
Definition place (d s : string) : path := clean_elems true (elems d ++ elems (Clean s)).
Lemma place_plain d s : Forall (fun c => plain c = true) (place d s).
Proof. apply clean_true_plain. Qed.
Lemma place_below d s : climbs s = false ->
  place d s = clean_elems true (elems d) ++ clean_elems (rooted s) (elems s).
Proof.
  intros Hc. pose proof (climbs_rel s Hc) as Hp. destruct (Clean_elems s) as [Hr He]. unfold place, clean_elems at 1. rewrite fold_left_app.
  set (st := fold_left (clean_step true) (elems d) []). assert (Est : rev st = clean_elems true (elems d)) by done.
  assert (Ef : fold_left (clean_step true) (elems (Clean s)) st = rev (clean_elems (rooted s) (elems s)) ++ st).
  { destruct (rooted s) eqn:Ers.
    - rewrite Clean_rooted by done. unfold canon. rewrite elems_slash. cbn [fold_left]. change (clean_step true st "") with st.
      destruct (clean_elems true (elems s)) as [|c l] eqn:El; [done|]. rewrite elems_join by (done || by apply plain_no_slash).
      by apply fold_plain.
    - rewrite <- (fold_plain true) by done. rewrite <- He. symmetry. apply clean_rel_again, split_no_sep. }
  rewrite Ef, rev_app_distr, rev_involutive. done.
Qed.

(** * Trees *)
(** Every entry has a proper name and stands in a folder. *)
Record Tree (fs : FS) : Prop := {
  t_names : forall p n, fs !! p = Some n -> p <> [] /\ Forall (fun c => plain c = true) p;
  t_parent : forall p n, fs !! p = Some n -> at_ fs (parent p) = Some Folder;
}.
Lemma at_lookup fs p : p <> [] -> at_ fs p = fs !! p.
Proof. by destruct p. Qed.
Lemma at_insert fs p n : p <> [] -> at_ (<[p := n]> fs) p = Some n.
Proof. intros Hp. rewrite at_lookup by done. apply lookup_insert_eq. Qed.
Lemma at_insert_ne fs p q n : p <> q -> at_ (<[p := n]> fs) q = at_ fs q.
Proof. intros Hpq. destruct q as [|c q]; [done|]. cbn [at_]. by rewrite lookup_insert_ne. Qed.
Lemma parent_snoc p c : parent (p ++ [c]) = p.
Proof. apply removelast_last. Qed.
Lemma parent_ne p : p <> [] -> parent p <> p.
Proof.
  intros Hne. destruct (exists_last Hne) as (q & c & ->). rewrite parent_snoc. intros He.
  apply (f_equal length) in He. rewrite length_app in He. simpl in He. lia.
Qed.
Lemma tree_above fs p : Tree fs -> forall k n, at_ fs (p ++ k) = Some n -> k <> [] -> at_ fs p = Some Folder.
Proof.
  intros Ht k. induction k as [|c k IH] using rev_ind; [done|]. intros n Hn _. rewrite app_assoc in Hn.
  assert (Hne : (p ++ k) ++ [c] <> []) by (by destruct (p ++ k)). rewrite at_lookup in Hn by done.
  apply (t_parent fs Ht) in Hn. rewrite parent_snoc in Hn. destruct k as [|d k]; [by rewrite app_nil_r in Hn|]. by apply (IH _ Hn).
Qed.
Lemma tree_insert fs p n : Tree fs -> p <> [] -> Forall (fun c => plain c = true) p -> at_ fs (parent p) = Some Folder ->
  (at_ fs p = Some Folder -> n = Folder) -> Tree (<[p := n]> fs).
Proof.
  intros Ht Hne Hp Hpar Hn. split; intros q m Hq.
  - destruct (decide (p = q)) as [<-|Hpq]; [done|]. rewrite lookup_insert_ne in Hq by done. by apply (t_names fs Ht q m).
  - destruct (decide (p = q)) as [<-|Hpq].
    + by rewrite at_insert_ne by (by apply not_eq_sym, parent_ne).
    + rewrite lookup_insert_ne in Hq by done. pose proof (t_parent fs Ht q m Hq) as Hf.
      destruct (decide (p = parent q)) as [->|Hpp]; [|by rewrite at_insert_ne].
      rewrite at_insert by done. by rewrite Hn.
Qed.
Lemma tree_delete fs p : Tree fs -> p <> [] -> (forall c, fs !! (p ++ [c]) = None) -> Tree (delete p fs).
Proof.
  intros Ht Hne Hc. split; intros q m [Hpq Hq]%lookup_delete_Some; [by apply (t_names fs Ht q m)|].
  pose proof (t_parent fs Ht q m Hq) as Hf. destruct (parent q) as [|d r] eqn:Eq; [done|]. cbn [at_] in *. rewrite lookup_delete_ne; [done|].
  intros ->. destruct (t_names fs Ht q m Hq) as [Hqne _]. destruct (exists_last Hqne) as (q' & c & ->).
  rewrite parent_snoc in Eq. subst q'. by rewrite Hc in Hq.
Qed.

(** ** Folders on the way *)
Lemma prefixes_spec p q : q ∈ prefixes p <-> q <> [] /\ q `prefix_of` p.
Proof.
  unfold prefixes. rewrite list_elem_of_fmap. setoid_rewrite elem_of_seq. split.
  - intros (n & -> & Hn). split; [|apply prefix_take]. destruct n; [lia|]. by destruct p; [simpl in Hn; lia|].
  - intros [Hne [k ->]]. exists (length q). rewrite take_app_length, length_app. split; [done|]. destruct q; [done|simpl; lia].
Qed.
Lemma prefixes_snoc p c : prefixes (p ++ [c]) = prefixes p ++ [p ++ [c]].
Proof.
  unfold prefixes. rewrite length_app. cbn [length]. rewrite Nat.add_1_r, seq_S, map_app. f_equal.
  - apply map_ext_in. intros n Hn%in_seq. rewrite take_app_le by lia. done.
  - simpl. f_equal. change (S (length p)) with (1 + length p)%nat. rewrite take_ge by (rewrite length_app; simpl; lia). done.
Qed.
Definition no_file (fs : FS) (ps : list path) : Prop := forall p c, p ∈ ps -> at_ fs p <> Some (File c).
Lemma mkdirs_ok ps : forall fs, Forall (fun p => p <> []) ps -> no_file fs ps ->
  exists fs', mkdirs ps fs = (Ok tt, fs') /\ forall q, at_ fs' q = if bool_decide (q ∈ ps) then Some Folder else at_ fs q.
Proof.
  induction ps as [|p ps IH]; intros fs Hne Hnf; [by exists fs|]. apply Forall_cons in Hne as [Hp Hne]. cbn [mkdirs].
  destruct (at_ fs p) as [[c|]|] eqn:Ep; [by destruct (Hnf p c ltac:(left))| |].
  - destruct (IH fs Hne) as (fs' & -> & Hfs'); [intros q c Hq; apply Hnf; by right|]. exists fs'. split; [done|]. intros q. rewrite Hfs'.
    destruct (decide (q = p)) as [->|Hqp]; repeat case_bool_decide; try done; set_solver.
  - destruct (IH (<[p := Folder]> fs) Hne) as (fs' & -> & Hfs').
    { intros q c Hq. destruct (decide (p = q)) as [<-|Hpq]; [by rewrite at_insert by done|]. rewrite at_insert_ne by done. apply Hnf. by right. }
    exists fs'. split; [done|]. intros q. rewrite Hfs'. destruct (decide (p = q)) as [<-|Hpq].
    + rewrite at_insert by done. repeat case_bool_decide; try done; set_solver.
    + rewrite at_insert_ne by done. repeat case_bool_decide; try done; set_solver.
Qed.
Lemma mkdirs_there ps fs : (forall p, p ∈ ps -> at_ fs p = Some Folder) -> mkdirs ps fs = (Ok tt, fs).
Proof.
  induction ps as [|p ps IH]; intros H; [done|]. cbn [mkdirs]. rewrite (H p) by left. apply IH. intros q Hq. apply H. by right.
Qed.
Lemma mkdir_all_there p fs : Tree fs -> at_ fs p = Some Folder -> mkdir_all p fs = (Ok tt, fs).
Proof.
  intros Ht Hp. apply mkdirs_there. intros q [Hq [k ->]]%prefixes_spec.
  destruct k as [|c k]; [by rewrite app_nil_r in Hp|]. by apply (tree_above fs q Ht (c :: k) Folder).
Qed.
Lemma folder_no_file fs p : Tree fs -> at_ fs p = Some Folder -> no_file fs (prefixes p).
Proof.
  intros Ht Hp q c [Hq [k Hk]]%prefixes_spec Hf. destruct k as [|d k]; [rewrite app_nil_r in Hk; congruence|].
  subst p. rewrite (tree_above fs q Ht (d :: k) Folder Hp) in Hf; done.
Qed.
Lemma mkdir_all_ok p fs : no_file fs (prefixes p) ->
  exists fs', mkdir_all p fs = (Ok tt, fs') /\ forall q, at_ fs' q = if bool_decide (q ∈ prefixes p) then Some Folder else at_ fs q.
Proof.
  intros Hnf. apply mkdirs_ok; [|done]. apply Forall_forall. by intros q [? _]%prefixes_spec.
Qed.
Lemma mkdirs_tree ps : forall fs p, Tree fs -> Forall (fun c => plain c = true) (p ++ ps) ->
  at_ fs p = Some Folder -> Tree (snd (mkdirs (map (fun n => p ++ firstn n ps) (seq 1 (length ps))) fs)).
Proof.
  induction ps as [|c ps IH]; intros fs p Ht Hp Hf; [done|]. cbn [length seq map mkdirs firstn].
  assert (Hpc : Forall (fun c => plain c = true) (p ++ [c])).
  { apply Forall_app in Hp as [? Hp]. apply Forall_cons in Hp as [? _]. apply Forall_app. by repeat constructor. }
  assert (Hmap : forall gs, mkdirs (map (fun n => p ++ firstn n (c :: ps)) (seq 2 (length ps))) gs =
                            mkdirs (map (fun n => (p ++ [c]) ++ firstn n ps) (seq 1 (length ps))) gs).
  { intros gs. f_equal. rewrite <- (seq_shift (length ps) 1), map_map. apply map_ext. intros n. cbn [firstn]. by rewrite <- app_assoc. }
  assert (Hrest : Forall (fun c => plain c = true) ((p ++ [c]) ++ ps)) by (by rewrite <- app_assoc).
  change (p ++ c :: take 0 ps) with (p ++ [c]). destruct (at_ fs (p ++ [c])) as [[x|]|] eqn:Ep; [done| |]; rewrite Hmap.
  - by apply IH.
  - apply IH; [|done|apply at_insert; by destruct p]. apply tree_insert; [done|by destruct p|done|by rewrite parent_snoc|by rewrite Ep].
Qed.
Lemma mkdir_all_tree p fs : Tree fs -> Forall (fun c => plain c = true) p -> Tree (snd (mkdir_all p fs)).
Proof.
  intros Ht Hp. by apply (mkdirs_tree p fs []).
Qed.
Lemma create_tree p fs : Tree fs -> Forall (fun c => plain c = true) p -> Tree (snd (create p fs)).
Proof.
  intros Ht Hp. unfold create. destruct (at_ fs (parent p)) as [[x|]|] eqn:Ep; [done| |done].
  destruct (at_ fs p) as [[y|]|] eqn:Eq; [|done|]; (apply tree_insert; [done| |done|done|try by rewrite Eq]); try by intros ->.
Qed.
Lemma write_tree p d fs : Tree fs -> Forall (fun c => plain c = true) p -> Tree (write p d fs).
Proof.
  intros Ht Hp. unfold write. destruct (at_ fs p) as [[x|]|] eqn:Ep; [|done|done].
  assert (Hne : p <> []) by (by intros ->). apply tree_insert; [done|done|done| |by rewrite Ep].
  rewrite at_lookup in Ep by done. by apply (t_parent fs Ht p _ Ep).
Qed.
Lemma entries_spec p fs c b : (forall q n, fs !! q = Some n -> q <> []) ->
  (c, b) ∈ entries p fs <-> exists n, fs !! (p ++ [c]) = Some n /\ b = is_folder n.
Proof.
  intros Hne. unfold entries. rewrite list_elem_of_omap. split.
  - intros ([q n] & Hq%elem_of_map_to_list & Hc). simpl in Hc. unfold child_of in Hc. destruct q as [|d q]; [done|].
    case_bool_decide as Hp; [|done]. destruct (exists_last (l := d :: q)) as (q' & x & E); [done|]. rewrite E in *.
    rewrite last_snoc in Hc. injection Hc as -> <-. rewrite parent_snoc in Hp. subst q'. by exists n.
  - intros (n & Hn & ->). exists (p ++ [c], n). split; [by apply elem_of_map_to_list|]. unfold child_of. simpl.
    destruct (p ++ [c]) as [|d q] eqn:E; [by destruct p|]. rewrite <- E, bool_decide_eq_true_2 by apply parent_snoc. by rewrite last_snoc.
Qed.
Lemma remove_tree p fs : Tree fs -> Tree (snd (remove p fs)).
Proof.
  intros Ht. unfold remove. destruct (at_ fs p) as [[x|]|] eqn:Ep; [| |done].
  - assert (Hne : p <> []) by (by intros ->). apply tree_delete; [done|done|]. intros c. destruct (fs !! (p ++ [c])) eqn:Ec; [|done].
    apply (t_parent fs Ht) in Ec. rewrite parent_snoc in Ec. congruence.
  - destruct p as [|d q]; [done|]. destruct (entries (d :: q) fs) as [|e l] eqn:Ee; [|done].
    apply tree_delete; [done|done|]. intros c. destruct (fs !! ((d :: q) ++ [c])) as [n|] eqn:Ec; [|done].
    assert (Hin : (c, is_folder n) ∈ entries (d :: q) fs).
    { apply entries_spec; [intros r m Hr; by apply (t_names fs Ht r m)|]. by exists n. }
    rewrite Ee in Hin. by apply not_elem_of_nil in Hin.
Qed.
(** A file where a folder should be stops [os.MkdirAll] before it does anything. *)
Lemma mkdirs_blocked ps : forall fs p, Tree fs -> at_ fs p = Some Folder ->
  let l := map (fun n => p ++ firstn n ps) (seq 1 (length ps)) in
  ~ no_file fs l -> exists e, mkdirs l fs = (Err e, fs).
Proof.
  induction ps as [|c ps IH]; intros fs p Ht Hp l Hl; [by destruct Hl; intros ? ? ?%not_elem_of_nil|].
  assert (El : l = (p ++ [c]) :: map (fun n => (p ++ [c]) ++ firstn n ps) (seq 1 (length ps))).
  { unfold l. cbn [length seq map firstn]. f_equal. rewrite <- (seq_shift (length ps) 1), map_map. apply map_ext. intros n. cbn [firstn].
    by rewrite <- app_assoc. }
  rewrite El in Hl |- *. cbn [mkdirs]. destruct (at_ fs (p ++ [c])) as [[x|]|] eqn:Ep; [by eexists| |].
  - apply IH; [done|done|]. intros Hn. apply Hl. intros q d [->|Hq]%elem_of_cons; [congruence|]. by apply Hn.
  - exfalso. apply Hl. intros q d [->|Hq]%elem_of_cons; [congruence|]. apply list_elem_of_fmap in Hq as (n & -> & _).
    intros Hf. destruct (firstn n ps) as [|e k] eqn:Ek; [rewrite app_nil_r in Hf; congruence|].
    rewrite (tree_above fs (p ++ [c]) Ht (e :: k) (File d)) in Ep; done.
Qed.
Lemma mkdir_all_cases p fs : Tree fs ->
  (no_file fs (prefixes p) /\ exists fs', mkdir_all p fs = (Ok tt, fs') /\ forall q, at_ fs' q = if bool_decide (q ∈ prefixes p) then Some Folder else at_ fs q) \/
  (~ no_file fs (prefixes p) /\ exists e, mkdir_all p fs = (Err e, fs)).
Proof.
  intros Ht. destruct (existsb (fun q => match at_ fs q with Some (File _) => true | _ => false end) (prefixes p)) eqn:E.
  - right. apply existsb_exists in E as (q & Hq%list_elem_of_In & Hf). assert (Hn : ~ no_file fs (prefixes p)).
    { intros Hn. destruct (at_ fs q) as [[c|]|] eqn:Eq; [|done|done]. by apply (Hn q c). }
    split; [done|]. by apply (mkdirs_blocked p fs []).
  - left. assert (Hn : no_file fs (prefixes p)).
    { intros q c Hq Hf. rewrite <- not_true_iff_false in E. apply E, existsb_exists. exists q. split; [by apply list_elem_of_In|]. by rewrite Hf. }
    split; [done|]. by apply mkdir_all_ok.
Qed.
