(* ===== verification/Remote.v ===== *)
(** [src/settings/remote/remote.go]: settings that a server keeps, with
    [src/encryptor/hash.go]; and [src/config/config.go]: the configuration of
    the process, from a file or from that server.

    The hash functions and the YAML library are parameters, and so is the
    exchange of one request with the server. *)
From S2P Require Import Prelude Strings Json Regexp JsonText Files.
#[local] Open Scope string_scope.
#[local] Open Scope Z_scope.

(** * [hash.go] *)
Definition bytes_of (s : string) : list Z := map (fun c => Z.of_N (N_of_ascii c)) (list_ascii_of_string s).
Definition hex_of (s : string) : string := of_bytes (List.concat (map (fun b => [hex (b / 16); hex (b mod 16)]) (bytes_of s))).
Section Hash.
(** A hash function of package [crypto]: blocks of 64 bytes, as MD5 and SHA-1. *)
Variable sum : string -> string.
Definition pad_key (key : string) : list Z :=
  let k := bytes_of (if (64 <? String.length key)%nat then sum key else key) in (k ++ repeat 0 (64 - length k))%list.
Definition xor_with (n : Z) (l : list Z) : string := of_bytes (map (fun b => Z.lxor b n) l).
(** [hmac.New] and [Sum]. *)
Definition hmac (key msg : string) : string := sum (xor_with 92 (pad_key key) ++ sum (xor_with 54 (pad_key key) ++ msg)).
Definition HashText (v : string) : string := hex_of (sum v).
Definition HmacHash (key str : string) : string := hex_of (hmac key str).
(** [HashFile], which opens the file and reads it to the end. *)
Definition HashFile `{Env} (cwd path_ : path) : M FS string :=
  gextr (fun fs => (open path_ fs, fs)) ;;;
  let! data := gextr (fun fs => (read path_ fs, fs)) in gret (HashText data).
End Hash.
Section Named.
Context (md5 sha1 : string -> string).
Definition MD5 (v : string) : string := HashText md5 v.
Definition HmacMD5 (key str : string) : string := HmacHash md5 key str.
Definition SHA1 (v : string) : string := HashText sha1 v.
Definition MD5File `{Env} (cwd path_ : path) : M FS string := HashFile md5 cwd path_.
Definition SHA1File `{Env} (cwd path_ : path) : M FS string := HashFile sha1 cwd path_.
End Named.

(** * The client *)
Record RemoteSettingClient : Type := mkClient { BaseURL : string; AK : string; SK : string; Group : string }.
Definition NewRemoteSettingClient (baseURL ak sk group : string) : RemoteSettingClient := mkClient baseURL ak sk group.
Definition NewRemoteSettingClientWithEnv (Getenv : string -> string) : RemoteSettingClient :=
  NewRemoteSettingClient "https://yygu.cn/v2/cook.GetSettingContent" (Getenv "YGCFG_AK") (Getenv "YGCFG_SK") (Getenv "YGCFG_GROUP").
Record getSettingContentRequest : Type := mkReq { GroupName : string; SettingKey : string }.
Definition request_json (r : getSettingContentRequest) : json :=
  JObj [("cmd", JStr ""); ("Request", JObj [("group", JStr r.(GroupName)); ("setting_key", JStr r.(SettingKey))])].
Record getSettingContentResponse : Type := mkResp { Code : Z; Message : string; Content : string; Type_ : string; Nonce : string }.
Definition zero_resp : getSettingContentResponse := mkResp 0 "" "" "" "".
(** [Decode] of the first value of a text, its error dropped: a text that is no
    JSON changes nothing, and a field of a wrong type only itself. *)
Definition LFields (T : Type) : Type := list (string * (T -> json -> T)).
Definition lenient {T} (fs : LFields T) (old : T) (j : json) : T :=
  match j with
  | JObj kvs => fold_left (fun v kv =>
      match List.find (fun f => str_eqb (fold_name (fst f)) (fold_name (fst kv))) fs with Some f => snd f v (snd kv) | None => v end) kvs old
  | _ => old
  end.
Definition l_string {T} (set : string -> T -> T) : T -> json -> T := fun v j => match j with JStr s => set s v | _ => v end.
Definition l_uint32 {T} (set : Z -> T -> T) : T -> json -> T := fun v j =>
  match j with JNum s => match ParseUint s with Some n => if n <? 4294967296 then set n v else v | None => v end | _ => v end.
Definition response_fields : LFields getSettingContentResponse :=
  [("code", l_uint32 (fun n r => mkResp n r.(Message) r.(Content) r.(Type_) r.(Nonce)));
   ("message", l_string (fun s r => mkResp r.(Code) s r.(Content) r.(Type_) r.(Nonce)));
   ("Response", lenient
      [("content", l_string (fun s r => mkResp r.(Code) r.(Message) s r.(Type_) r.(Nonce)));
       ("type", l_string (fun s r => mkResp r.(Code) r.(Message) r.(Content) s r.(Nonce)));
       ("nonce", l_string (fun s r => mkResp r.(Code) r.(Message) r.(Content) r.(Type_) s))])].
Definition first_value (body : string) : option json :=
  match value (S (length (rune_bytes body))) (rune_bytes body) with Some (j, _) => Some j | None => None end.
Definition decode_response (body : string) (out : getSettingContentResponse) : getSettingContentResponse :=
  match first_value body with Some j => lenient response_fields out j | None => out end.

Section Client.
(** A request: the address, the [Authorization] header and the body; the answer
    is its body, whatever its status.  [new_request] is the check of the address. *)
Context `{Env} {X : Type} (sha1 : string -> string) (new_request : string -> option error)
  (Do : string -> option string -> string -> X -> Res string * X).
Implicit Types (w : World X) (c : RemoteSettingClient).
Definition doReuqest c (inp : getSettingContentRequest) (out : getSettingContentResponse) (token : string) : M X getSettingContentResponse :=
  match new_request c.(BaseURL) with
  | Some e => graise e
  | None =>
      let! body := gextr (Do c.(BaseURL) (if str_eqb token "" then None else Some token) (print_s (request_json inp) ++ newline)) in
      gret (decode_response body out)
  end.
Definition remote_error (out : getSettingContentResponse) : error := ErrNew ("remote setting error: " ++ out.(Message)).
Definition token_of c (nonce : string) : string :=
  let tokenSli := [c.(AK); nonce] in
  let expectedSignature := HmacHash sha1 c.(SK) (str_join "." tokenSli) in
  str_join "." (tokenSli ++ [expectedSignature])%list.
Definition Get c (key : string) : M X string :=
  let inp := mkReq c.(Group) key in
  let! out := doReuqest c inp zero_resp "" in
  if out.(Code) =? 0 then gret out.(Content)
  else if negb (out.(Code) =? 401) then graise (remote_error out)
  else
    let! out := doReuqest c inp out (token_of c out.(Nonce)) in
    if negb (out.(Code) =? 0) then graise (remote_error out) else gret out.(Content).
Definition GetRemoteText (stdRemoteClient : RemoteSettingClient) (key : string) : M X string := Get stdRemoteClient key.
Definition GetRemoteVal {V} (Unmarshal : string -> V -> Res V) (stdRemoteClient : RemoteSettingClient) (key : string) (val : V) : M X V :=
  let! content := Get stdRemoteClient key in
  match Unmarshal content val with Ok v => gret v | Err e => graise e end.
Definition GetRemoteYAML {V} (yaml_Unmarshal : string -> V -> Res V) := GetRemoteVal yaml_Unmarshal.
Definition GetRemoteJSON {V} (json_Unmarshal : string -> V -> Res V) := GetRemoteVal json_Unmarshal.

(** ** What comes back *)
(** The calls and answers of one [Get] on a service that does not fail. *)
Lemma ask_once c inp out token w body x : new_request c.(BaseURL) = None -> env_fault (calls w) = None ->
  Do c.(BaseURL) (if str_eqb token "" then None else Some token) (print_s (request_json inp) ++ newline) (st w) = (Ok body, x) ->
  doReuqest c inp out token w = (Ok (decode_response body out), mkWorld (S (calls w)) x).
Proof. intros Hn Hf E. unfold doReuqest. rewrite Hn, gbind_eq, gextr_ok by done. rewrite E. done. Qed.
(** An answer that is no JSON, the page of a proxy for example, is an empty
    setting without an error. *)
Theorem Get_not_json c key w body x : new_request c.(BaseURL) = None -> env_fault (calls w) = None ->
  Do c.(BaseURL) None (print_s (request_json (mkReq c.(Group) key)) ++ newline) (st w) = (Ok body, x) ->
  first_value body = None -> Get c key w = (Ok "", mkWorld (S (calls w)) x).
Proof.
  intros Hn Hf E Hb. unfold Get. rewrite gbind_eq, (ask_once _ _ _ "" _ body x) by done. unfold decode_response. by rewrite Hb.
Qed.

(** A server that keeps contents by group and key for the owner of the keys:
    without a token it refuses and gives a nonce, and it answers a token that is
    signed over this nonce. *)
Definition answers (AK_ SK_ nonce : string) (contents : string -> string -> string) (url : string) : Prop :=
  forall auth inp x, exists body x', Do url auth (print_s (request_json inp) ++ newline) x = (Ok body, x') /\
    first_value body = Some (match auth with
      | None => JObj [("code", JNum "401"); ("message", JStr "unauthorized"); ("Response", JObj [("nonce", JStr nonce)])]
      | Some token =>
          if str_eqb token (str_join "." [AK_; nonce; HmacHash sha1 SK_ (AK_ ++ "." ++ nonce)])
          then JObj [("code", JNum "0"); ("Response", JObj [("content", JStr (contents inp.(GroupName) inp.(SettingKey)))])]
          else JObj [("code", JNum "401"); ("message", JStr "bad signature")]
      end).
Lemma str_app_inj (a b d : string) : a ++ b = a ++ d -> b = d.
Proof. intros E. apply (f_equal (str_drop (String.length a))) in E. by rewrite !str_drop_app in E. Qed.
Lemma token_text c nonce : token_of c nonce = str_join "." [c.(AK); nonce; HmacHash sha1 c.(SK) (c.(AK) ++ "." ++ nonce)].
Proof. reflexivity. Qed.
Lemma token_some c nonce : str_eqb (token_of c nonce) "" = false.
Proof.
  rewrite token_text. cbn [str_join]. unfold str_eqb. apply String.eqb_neq. destruct (AK c); discriminate.
Qed.
(** The client gets the setting of its group from such a server, in two
    requests, when its keys are the server's; with another secret, whose
    signature differs, it gets an error. *)
Theorem Get_challenged c key nonce contents SK_ w : (forall n, no_fault_from n) -> new_request c.(BaseURL) = None ->
  answers c.(AK) SK_ nonce contents c.(BaseURL) ->
  (c.(SK) = SK_ -> exists x, Get c key w = (Ok (contents c.(Group) key), mkWorld (2 + calls w) x)) /\
  (HmacHash sha1 c.(SK) (c.(AK) ++ "." ++ nonce) <> HmacHash sha1 SK_ (c.(AK) ++ "." ++ nonce) ->
     exists x, Get c key w = (Err (ErrNew "remote setting error: bad signature"), mkWorld (2 + calls w) x)).
Proof.
  intros Hf Hn Ha. set (inp := mkReq (Group c) key). destruct (Ha None inp (st w)) as (b1 & x1 & E1 & Hb1).
  set (out := mkResp 401 "unauthorized" "" "" nonce).
  assert (G1 : doReuqest c inp zero_resp "" w = (Ok out, mkWorld (S (calls w)) x1)).
  { rewrite (ask_once _ _ _ "" _ b1 x1) by (done || by apply (Hf 0%nat); lia). unfold decode_response. by rewrite Hb1. }
  destruct (Ha (Some (token_of c nonce)) inp x1) as (b2 & x2 & E2 & Hb2).
  assert (G2 : doReuqest c inp out (token_of c nonce) (mkWorld (S (calls w)) x1) = (Ok (decode_response b2 out), mkWorld (S (S (calls w))) x2)).
  { apply ask_once; [done|apply (Hf 0%nat); lia|]. by rewrite token_some. }
  assert (EG : Get c key w = let out' := decode_response b2 out in
    if negb (out'.(Code) =? 0) then (Err (remote_error out'), mkWorld (2 + calls w) x2) else (Ok out'.(Content), mkWorld (2 + calls w) x2)).
  { unfold Get. fold inp. rewrite gbind_eq, G1. change (Code out) with 401. change (Nonce out) with nonce. cbn [Z.eqb Pos.eqb negb].
    rewrite gbind_eq, G2. cbv zeta. by destruct (negb _). }
  assert (Hcmp : str_eqb (token_of c nonce) (str_join "." [AK c; nonce; HmacHash sha1 SK_ (AK c ++ "." ++ nonce)]) = true <->
    HmacHash sha1 (SK c) (AK c ++ "." ++ nonce) = HmacHash sha1 SK_ (AK c ++ "." ++ nonce)).
  { rewrite token_text. unfold str_eqb. rewrite String.eqb_eq. split; [|by intros ->].
    cbn [str_join]. intros E. do 4 apply str_app_inj in E. exact E. }
  unfold decode_response in EG. rewrite Hb2 in EG. split.
  - intros Hsk. rewrite (proj2 Hcmp) in EG by by rewrite Hsk. exists x2. exact EG.
  - intros Hne. destruct (str_eqb _ _) in EG, Hcmp; [by destruct Hne; apply Hcmp|]. exists x2. exact EG.
Qed.
End Client.

(** * [os.ExpandEnv] *)
Definition isShellSpecialVar (c : ascii) : bool := str_mem c "*#$@!?-0123456789".
Definition isAlphaNum (c : ascii) : bool :=
  let n := nat_of_ascii c in Ascii.eqb c "_" || is_digit c || ((97 <=? n) && (n <=? 122))%nat || ((65 <=? n) && (n <=? 90))%nat.
Fixpoint alnum_len (s : string) : nat := match s with String c s' => if isAlphaNum c then S (alnum_len s') else O | "" => O end.
(** Where the closing brace is. *)
Fixpoint index_byte (c : ascii) (s : string) : option nat :=
  match s with "" => None | String x s' => if Ascii.eqb x c then Some O else option_map S (index_byte c s') end.
(** The name behind a dollar sign and what it takes of the text. *)
Definition getShellName (s : string) : string * nat :=
  match s with
  | "" => ("", O)
  | String "{" rest =>
      match rest with
      | String c (String "}" _) => if isShellSpecialVar c then (String c "", 3%nat) else
          match index_byte "}" rest with Some i => if (i =? 0)%nat then ("", 2%nat) else (str_take i rest, i + 2)%nat | None => ("", 1%nat) end
      | _ => match index_byte "}" rest with Some i => if (i =? 0)%nat then ("", 2%nat) else (str_take i rest, i + 2)%nat | None => ("", 1%nat) end
      end
  | String c _ => if isShellSpecialVar c then (String c "", 1%nat) else (str_take (alnum_len s) s, alnum_len s)
  end.
Section Expand.
Context (Getenv : string -> string).
(** The fuel is the length of the text: each round takes a byte of it. *)
Fixpoint expand_from (fuel : nat) (s : string) : string :=
  match fuel, s with
  | S fuel', String c s' =>
      if Ascii.eqb c "$" && negb (str_eqb s' "") then
        let '(name, w) := getShellName s' in
        (if str_eqb name "" then (if (w =? 0)%nat then "$" else "") else Getenv name) ++ expand_from fuel' (str_drop w s')
      else String c (expand_from fuel' s')
  | _, _ => ""
  end.
Definition ExpandEnv (s : string) : string := expand_from (String.length s) s.

Lemma expand_fuel s : forall n, (String.length s <= n)%nat -> expand_from n s = ExpandEnv s.
Proof.
  assert (H : forall k s n m, (String.length s <= k)%nat -> (String.length s <= n)%nat -> (String.length s <= m)%nat -> expand_from n s = expand_from m s).
  { induction k as [|k IH]; intros t n m Hk Hn Hm; destruct t as [|c t]; cbn in *; try lia; try (by destruct n, m).
    destruct n, m; try lia. cbn [expand_from]. destruct (Ascii.eqb c "$" && negb (str_eqb t "")).
    - destruct (getShellName t) as [name w0]. f_equal. assert (Hd : (String.length (str_drop w0 t) <= String.length t)%nat).
      { clear. revert t. induction w0 as [|w0 IHw]; intros t; [done|]. destruct t; [done|]. cbn. specialize (IHw t). lia. }
      apply IH; lia.
    - f_equal. apply IH; lia. }
  intros n Hn. unfold ExpandEnv. by apply (H (String.length s)).
Qed.
Lemma expand_cons c s : Ascii.eqb c "$" = false -> ExpandEnv (String c s) = String c (ExpandEnv s).
Proof. intros Hc. unfold ExpandEnv. cbn [String.length expand_from]. by rewrite Hc. Qed.
(** A text without a dollar sign stays as it is, up to the first one. *)
Lemma expand_app s r : str_mem "$" s = false -> ExpandEnv (s ++ r) = s ++ ExpandEnv r.
Proof.
  induction s as [|c s IH]; [done|]. intros Hs. cbn [str_mem] in Hs. apply orb_false_iff in Hs as [Hc Hs].
  change (ExpandEnv (String c (s ++ r)) = String c (s ++ ExpandEnv r)). rewrite expand_cons by done. by rewrite IH.
Qed.
Lemma index_byte_app c a b : str_mem c a = false -> index_byte c (a ++ String c b) = Some (String.length a).
Proof.
  induction a as [|x a IH]; intros Ha; [change (index_byte c (String c b) = Some O); cbn [index_byte]; by rewrite Ascii.eqb_refl|].
  cbn [str_mem] in Ha. apply orb_false_iff in Ha as [Hx Ha].
  change (index_byte c (String x (a ++ String c b)) = Some (S (String.length a))). cbn [index_byte]. by rewrite Hx, IH.
Qed.
Definition name_ok (name : string) : bool := (2 <=? String.length name)%nat && negb (str_mem "}" name).
Lemma braced_name name r : name_ok name = true -> getShellName (String "{" (name ++ String "}" r)) = (name, String.length name + 2)%nat.
Proof.
  intros [Hl Hn]%andb_true_iff. apply negb_true_iff in Hn. apply Nat.leb_le in Hl.
  assert (E : match index_byte "}" (name ++ String "}" r) with Some i => if (i =? 0)%nat then ("", 2%nat) else (str_take i (name ++ String "}" r), i + 2)%nat | None => ("", 1%nat) end
            = (name, String.length name + 2)%nat).
  { rewrite index_byte_app by done. rewrite (proj2 (Nat.eqb_neq _ _)) by lia. unfold str_take. by rewrite substring_app. }
  destruct name as [|c [|d name]]; cbn in Hl; try lia.
  change (String c (String d name) ++ String "}" r) with (String c (String d (name ++ String "}" r))) in *.
  cbn [getShellName]. cbn [str_mem] in Hn. apply orb_false_iff in Hn as [_ Hn]. apply orb_false_iff in Hn as [Hd _]. 
  destruct d as [[] [] [] [] [] [] [] []]; try exact E. discriminate Hd.
Qed.
(** A reference in braces is the variable, and what is around it is expanded on
    its own. *)
Theorem ExpandEnv_braced a name r : str_mem "$" a = false -> name_ok name = true ->
  ExpandEnv (a ++ "${" ++ name ++ "}" ++ r) = a ++ Getenv name ++ ExpandEnv r.
Proof.
  intros Ha Hn. rewrite expand_app by done. f_equal.
  change ("${" ++ name ++ "}" ++ r) with (String "$" (String "{" (name ++ String "}" r))). unfold ExpandEnv at 1.
  set (t := String "{" (name ++ String "}" r)). cbn [String.length expand_from]. rewrite Ascii.eqb_refl. change (str_eqb t "") with false. cbn [negb andb].
  unfold t at 1. rewrite braced_name by done.
  assert (Hne : str_eqb name "" = false) by (unfold str_eqb; destruct name; done). rewrite Hne. f_equal.
  assert (Hd : str_drop (String.length name + 2) t = r).
  { replace (String.length name + 2)%nat with (S (String.length (name ++ "}"))) by (rewrite str_length_app; cbn; lia).
    change (str_drop (String.length (name ++ "}")) (name ++ ("}" ++ r)) = r). rewrite <- (str_app_assoc name). apply str_drop_app. }
  rewrite Hd. apply expand_fuel. unfold t. cbn [String.length]. rewrite str_length_app. cbn. lia.
Qed.
End Expand.

(** * [src/config] *)
(** [zapcore.Level], and the configuration of one output of a logger; the
    rotation of a file is lumberjack's, known by the name of the file. *)
Definition InfoLevel : Z := 0.
Record LogConfig : Type := mkLog { Writer : string; Encoder : string; Level : Z; LogKey : string; TencentCLS : option string; Filename : option string }.
Definition LogsConfig : Type := gmap string (list LogConfig).
Definition defaultLogConfig : LogConfig := mkLog "console" "" InfoLevel "" None None.
Module Logs.
Definition Get (c : LogsConfig) (name : string) : list LogConfig := match c !! name with Some cfg => cfg | None => [defaultLogConfig] end.
(** The [break] of the first name that is missing ends the loop. *)
Fixpoint first_of (c : LogsConfig) (names : list string) : list LogConfig :=
  match names with
  | [] => [defaultLogConfig]
  | name :: _ => match c !! name with None => [defaultLogConfig] | Some cfg => cfg end
  end.
Definition Default (c : LogsConfig) : list LogConfig := first_of c ["main"; "default"].
End Logs.
Record MainConfig : Type := mkMain {
  App : string; HttpAddr : string; GrpcAddr : string; OpenDocsAPI : bool; MysqlConns : gmap string string;
  PostgresConns : gmap string string; DatabaseConns : gmap string string; ClickhouseConns : gmap string string; MainEnv : string
}.
Record CoreConfig : Type := mkCore { MainConf : MainConfig; LogsConf : LogsConfig }.
Definition zeroConfig : CoreConfig := mkCore (mkMain "" "" "" false ∅ ∅ ∅ ∅ "") ∅.
Definition DefaultConfig : CoreConfig :=
  let plain := [mkLog "" "" InfoLevel "" None None] in
  mkCore (mkMain "" ":8080" "" true ∅ ∅ ∅ ∅ "dev") (<["main" := plain]> (<["access" := plain]> ∅)).
Record MysqlConfig : Type := mkMysql { Host : string; MysqlPort : Z; MysqlUser : string; MysqlPassword : string; Database : string; Charset : string }.
Definition BuildDNS (cfg : MysqlConfig) : string :=
  cfg.(MysqlUser) ++ ":" ++ cfg.(MysqlPassword) ++ "@tcp(" ++ cfg.(Host) ++ ":" ++ fmt_d cfg.(MysqlPort) ++ ")/" ++ cfg.(Database) ++
  "?charset=" ++ cfg.(Charset) ++ "&parseTime=true&loc=Local".

(** The configuration of the process, its files and the services. *)
Record ConfHost (X : Type) : Type := mkConf { conf_std : option CoreConfig; files : FS; web : X }.
Arguments mkConf {X} conf_std files web.
Arguments conf_std {X} c.
Arguments files {X} c.
Arguments web {X} c.
Section Config.
Context `{Env} {X : Type} (cwd : path) (Getenv : string -> string) (sha1 : string -> string) (new_request : string -> option error)
  (Do : string -> option string -> string -> X -> Res string * X).
(** [yaml.Unmarshal] and [Decode], on what the variable holds before. *)
Context (yaml_Unmarshal yaml_Decode : string -> CoreConfig -> Res CoreConfig).
Abbreviation St := (ConfHost X).
Implicit Types w : World St.
Definition set_std (cfg : CoreConfig) (s : St) : St := mkConf (Some cfg) s.(files) s.(web).
(** The message that the configuration is nil goes to the output. *)
Definition Conf : M St CoreConfig :=
  let! s := gget in
  match s.(conf_std) with
  | Some c => gret c
  | None => gmodify (set_std zeroConfig) ;;; gret zeroConfig
  end.
Definition LoadYamlLocalFile (file : string) (cfg : CoreConfig) : M St CoreConfig :=
  let! data := gextr (fun s => (read (resolve cwd file) s.(files), s)) in
  match yaml_Decode (ExpandEnv Getenv data) cfg with Ok c => gret c | Err e => graise e end.
Definition LoadCoreConfigFromFile (filepath : string) : M St CoreConfig :=
  let! cfg := LoadYamlLocalFile filepath zeroConfig in gmodify (set_std cfg) ;;; gret cfg.
(** The client of the process is made from the environment when it starts. *)
Definition on_web {A} (m : M X A) : M St A :=
  fun w => let (r, w') := m (mkWorld (calls w) (web (st w))) in (r, mkWorld (calls w') (mkConf (conf_std (st w)) (files (st w)) (st w'))).
Definition envKeys : list string := ["YGCFG_AK"; "YGCFG_SK"; "YGCFG_GROUP"; "YGCFG_KEY"].
Definition LoadCoreConfigFromEnv : M St CoreConfig :=
  match List.find (fun envKey => str_eqb (Getenv envKey) "") envKeys with
  | Some envKey => graise (ErrNew (envKey ++ " is empty"))
  | None =>
      let! cfg := on_web (GetRemoteYAML sha1 new_request Do yaml_Unmarshal (NewRemoteSettingClientWithEnv Getenv) (Getenv "YGCFG_KEY") zeroConfig) in
      gmodify (set_std cfg) ;;; gret cfg
  end.
Definition LoadCoreConfig (configPath : list string) : M St CoreConfig :=
  match configPath with
  | p :: _ => if str_eqb p "" then LoadCoreConfigFromEnv else LoadCoreConfigFromFile p
  | [] => LoadCoreConfigFromEnv
  end.
Definition EnvName : M St string :=
  let! c := Conf in
  gret (if negb (str_eqb c.(MainConf).(MainEnv) "") then c.(MainConf).(MainEnv) else Getenv "ENV").
Definition IsProd : M St bool := let! e := EnvName in gret (str_eqb e "prod").
Definition IsDev : M St bool := let! e := EnvName in gret (str_eqb e "dev").

(** ** The configuration in use *)
Lemma on_web_std {A} (m : M X A) w : conf_std (st (snd (on_web m w))) = conf_std (st w).
Proof. unfold on_web. by destruct (m _). Qed.
(** C33: the configuration in use is the one that was loaded last: a load that
    fails leaves it. *)
Theorem LoadCoreConfig_std configPath w : match LoadCoreConfig configPath w with
  | (Ok cfg, w') => conf_std (st w') = Some cfg /\ Conf w' = (Ok cfg, w')
  | (Err _, w') => conf_std (st w') = conf_std (st w)
  end.
Proof.
  assert (Hset : forall cfg w1, Conf (mkWorld (calls w1) (set_std cfg (st w1))) = (Ok cfg, mkWorld (calls w1) (set_std cfg (st w1)))) by done.
  assert (Hfile : forall p, match LoadCoreConfigFromFile p w with
    | (Ok cfg, w') => conf_std (st w') = Some cfg /\ Conf w' = (Ok cfg, w') | (Err _, w') => conf_std (st w') = conf_std (st w) end).
  { intros p. unfold LoadCoreConfigFromFile, LoadYamlLocalFile. rewrite !gbind_eq. unfold gextr. destruct (env_fault (calls w)); [done|]. cbn [fst snd].
    destruct (read _ _) as [d|e]; [|done]. destruct (yaml_Decode _ _) as [cfg|e]; [|done]. cbn [gret fst snd]. split; [done|apply (Hset cfg (mkWorld _ _))]. }
  assert (Henv : match LoadCoreConfigFromEnv w with
    | (Ok cfg, w') => conf_std (st w') = Some cfg /\ Conf w' = (Ok cfg, w') | (Err _, w') => conf_std (st w') = conf_std (st w) end).
  { unfold LoadCoreConfigFromEnv. destruct (List.find _ _); [done|]. rewrite gbind_eq. 
    pose proof (on_web_std (GetRemoteYAML sha1 new_request Do yaml_Unmarshal (NewRemoteSettingClientWithEnv Getenv) (Getenv "YGCFG_KEY") zeroConfig) w) as Hs.
    destruct (on_web _ w) as [[cfg|e] w1]; [|exact Hs]. split; [done|apply (Hset cfg w1)]. }
  unfold LoadCoreConfig. destruct configPath as [|p l]; [exact Henv|]. destruct (str_eqb p ""); [exact Henv|apply Hfile].
Qed.
(** A server that is not there behind its proxy gives an empty configuration
    without an error, and it takes the place of the one in use. *)
Theorem LoadCoreConfig_not_json w body x : (forall k, In k envKeys -> Getenv k <> "") -> env_fault (calls w) = None ->
  let c := NewRemoteSettingClientWithEnv Getenv in
  new_request c.(BaseURL) = None ->
  Do c.(BaseURL) None (print_s (request_json (mkReq c.(Group) (Getenv "YGCFG_KEY"))) ++ newline) (web (st w)) = (Ok body, x) ->
  first_value body = None -> (forall cfg, yaml_Unmarshal "" cfg = Ok cfg) ->
  exists w', LoadCoreConfig [] w = (Ok zeroConfig, w') /\ conf_std (st w') = Some zeroConfig.
Proof.
  intros Hk Hf c Hn E Hb Hy. unfold LoadCoreConfig, LoadCoreConfigFromEnv.
  rewrite find_none by (intros k Hin; unfold str_eqb; apply String.eqb_neq; by apply Hk). fold c. rewrite gbind_eq.
  unfold on_web, GetRemoteYAML, GetRemoteVal. rewrite gbind_eq.
  rewrite (Get_not_json sha1 new_request Do c (Getenv "YGCFG_KEY") (mkWorld (calls w) (web (st w))) body x) by done.
  rewrite Hy. cbn [gret fst snd]. eexists. split; reflexivity.
Qed.
End Config.
(** A logger that is configured as "default" is not the default. *)
Example default_not_found : Logs.Default (<["default" := [mkLog "file" "" 2 "" None (Some "a.log")]]> ∅) = [defaultLogConfig].
Proof. reflexivity. Qed.

(** * At work *)
Definition toy_sum (s : string) : string := of_bytes [Z.of_nat (String.length s) mod 256; fold_left (fun a b => (a * 31 + b) mod 251) (bytes_of s) 7].
Definition demo_env (k : string) : string :=
  if str_eqb k "YGCFG_AK" then "ak" else if str_eqb k "YGCFG_SK" then "sk" else if str_eqb k "YGCFG_GROUP" then "g" else if str_eqb k "YGCFG_KEY" then "core" else "".
Definition demo_client : RemoteSettingClient := NewRemoteSettingClientWithEnv demo_env.
Definition refusal : string := print_s (JObj [("code", JNum "401"); ("message", JStr "unauthorized"); ("Response", JObj [("nonce", JStr "n1")])]).
Definition bad_signature : string := print_s (JObj [("code", JNum "401"); ("message", JStr "bad signature")]).
Definition content_answer (s : string) : string := print_s (JObj [("code", JNum "0"); ("Response", JObj [("content", JStr s)])]).
Definition demo_Do (url : string) (auth : option string) (body : string) (n : nat) : Res string * nat :=
  (Ok (match auth with
       | None => refusal
       | Some token => if str_eqb token (str_join "." ["ak"; "n1"; HmacHash toy_sum "sk" "ak.n1"]) then content_answer "a: 1" else bad_signature
       end), S n).
Lemma Get_challenged_witness : exists x, Get (H := quietEnv) toy_sum (fun _ => None) demo_Do demo_client "core" (mkWorld 0 0%nat) = (Ok "a: 1", mkWorld 2 x).
Proof.
  apply (Get_challenged (H := quietEnv) toy_sum (fun _ => None) demo_Do demo_client "core" "n1" (fun _ _ => "a: 1") "sk" (mkWorld 0 0%nat)).
  - exact quietEnv_ok.
  - reflexivity.
  - intros auth inp n. eexists. exists (S n). split; [reflexivity|]. destruct auth as [token|]; [|vm_compute; reflexivity].
    change (AK demo_client) with "ak". destruct (str_eqb token _); vm_compute; reflexivity.
  - reflexivity.
Defined.
Definition page_Do (url : string) (auth : option string) (body : string) (n : nat) : Res string * nat := (Ok "<html>502 Bad Gateway</html>", S n).
Lemma Get_not_json_witness : Get (H := quietEnv) toy_sum (fun _ => None) page_Do demo_client "core" (mkWorld 0 0%nat) = (Ok "", mkWorld 1 1%nat).
Proof.
  apply (Get_not_json (H := quietEnv) toy_sum (fun _ => None) page_Do demo_client "core" (mkWorld 0 0%nat) "<html>502 Bad Gateway</html>"); reflexivity.
Defined.
Lemma LoadCoreConfig_not_json_witness : exists w', LoadCoreConfig (H := quietEnv) [] demo_env toy_sum (fun _ => None) page_Do (fun _ c => Ok c) (fun _ c => Ok c) []
    (mkWorld 0 (mkConf (Some DefaultConfig) ∅ 0%nat)) = (Ok zeroConfig, w') /\ conf_std (st w') = Some zeroConfig.
Proof.
  apply (LoadCoreConfig_not_json (H := quietEnv) [] demo_env toy_sum (fun _ => None) page_Do (fun _ c => Ok c) (fun _ c => Ok c)
    (mkWorld 0 (mkConf (Some DefaultConfig) ∅ 0%nat)) "<html>502 Bad Gateway</html>" 1%nat); try reflexivity.
  intros k Hk E. cbn in Hk. destruct Hk as [<-|[<-|[<-|[<-|[]]]]]; discriminate E.
Defined.
Lemma ExpandEnv_braced_witness : ExpandEnv (fun k => if str_eqb k "HOST" then "db.local" else "") ("url: " ++ "${" ++ "HOST" ++ "}" ++ ":1") = "url: db.local:1".
Proof. etransitivity; [apply ExpandEnv_braced; reflexivity|reflexivity]. Defined.
(** A password with a dollar sign loses a part, and two of them do not help. *)
Example dollars : map (ExpandEnv (fun _ => "")) ["p$ss"; "p$$ss"; "5$"; "${}x"; "a$.b"] = ["p"; "pss"; "5$"; "x"; "a$.b"].
Proof. reflexivity. Qed.
