(* ===== verification/Logging.v ===== *)
(** [src/logs]: the loggers of a process by name (logger_wrapper.go), the logger
    that a context carries (logger.go), and the loggers of gorm (gorm.go) and of
    Elasticsearch (es.go).  A logger of zap is its outputs, its fields and its
    name; an output gets the entries of its level and above.  What an output
    does with an entry is left out. *)
From S2P Require Import Prelude Strings Json JsonText Remote.
#[local] Open Scope string_scope.
#[local] Open Scope Z_scope.

(** * Loggers *)
Inductive Sink : Type := Stdout | FileSink (name : option string) | WorkwxSink (key : string) | ClsSink (topic : string).
Inductive EncoderConfig : Type := stdcfg | accessCfg.
Record Core : Type := mkLogCore { c_encoder : EncoderConfig; c_sink : Sink; c_level : Z }.
Definition Field : Type := string * string.
Record Logger : Type := mkLogger { cores : list Core; fields : list Field; l_name : string }.
Record Entry : Type := mkEntry { e_sink : Sink; e_encoder : EncoderConfig; e_level : Z; e_name : string; e_fields : list Field; e_msg : string }.
Definition DebugLevel : Z := -1.
Definition WarnLevel : Z := 1.
Definition ErrorLevel : Z := 2.
Definition FatalLevel : Z := 5.
Definition With (fs : list Field) (l : Logger) : Logger := mkLogger l.(cores) (l.(fields) ++ fs) l.(l_name).
Definition Named (name : string) (l : Logger) : Logger :=
  if str_eqb name "" then l
  else mkLogger l.(cores) l.(fields) (if str_eqb l.(l_name) "" then name else l.(l_name) ++ "." ++ name).
Definition log_at (lvl : Z) (l : Logger) (msg : string) : list Entry :=
  map (fun c => mkEntry c.(c_sink) c.(c_encoder) lvl l.(l_name) l.(fields) msg) (List.filter (fun c => c.(c_level) <=? lvl) l.(cores)).

(** ** The loggers of the process *)
Record Wrapper : Type := mkWrapper { w_module : string; w_name : string; w_logger : option Logger }.
(** The loggers by name, the one in use, the closers, and the values that the
    contexts of gin hold: a logger or something else. *)
Inductive CtxVal : Type := VLogger (l : Logger) | VText (s : string) | VOther.
Record LogState : Type := mkLogState {
  loggers : gmap string Wrapper; logger : option Logger; closerList : list string; gins : gmap nat (gmap string CtxVal)
}.
Definition set_wrapper (key : string) (w : Wrapper) (s : LogState) : LogState := mkLogState (<[key := w]> s.(loggers)) s.(logger) s.(closerList) s.(gins).
Definition set_logger (l : option Logger) (s : LogState) : LogState := mkLogState s.(loggers) l s.(closerList) s.(gins).
Definition add_closer (c : string) (s : LogState) : LogState := mkLogState s.(loggers) s.(logger) (s.(closerList) ++ [c]) s.(gins).

Section Wrappers.
(** The start of the client of Tencent's log service for a topic. *)
Context (NewAsyncProducerClient : string -> option error).
Abbreviation L := (G LogState).
Definition NewTencentClsSyncer (topic : string) : L (Res Sink) :=
  match NewAsyncProducerClient topic with
  | Some e => pret (Err e)
  | None => let* _ := pmodify (add_closer topic) in pret (Ok (ClsSink topic))
  end.
Definition getLoggerEncoder (edr : string) : L EncoderConfig :=
  if str_eqb edr "access" then pret accessCfg
  else if existsb (str_eqb edr) [""; "std"; "default"] then pret stdcfg
  else ppanic ("unsupport logger encoder (" ++ edr ++ ")").
(** The panic of an unknown writer names the encoder. *)
Definition core_of (lcfg : LogConfig) : L Core :=
  let* edr := getLoggerEncoder lcfg.(Encoder) in
  let* syncer :=
    (if str_eqb lcfg.(Writer) "file" then pret (FileSink lcfg.(Filename))
     else if str_eqb lcfg.(Writer) "workwx" then pret (WorkwxSink lcfg.(LogKey))
     else if existsb (str_eqb lcfg.(Writer)) ["console"; "stdout"; ""] then pret Stdout
     else if existsb (str_eqb lcfg.(Writer)) ["tencentcls"; "tencent"; "cls"] then
       match lcfg.(TencentCLS) with
       | None => ppanic "invalid memory address or nil pointer dereference"
       | Some topic => let* r := NewTencentClsSyncer topic in match r with Ok s => pret s | Err e => ppanic (Error e) end
       end
     else ppanic ("unsupport logger writer (" ++ lcfg.(Encoder) ++ ")")) in
  pret (mkLogCore edr syncer lcfg.(Level)).
Fixpoint cores_of (cfgs : list LogConfig) : L (list Core) :=
  match cfgs with
  | [] => pret []
  | lcfg :: cfgs' => let* c := core_of lcfg in let* cs := cores_of cfgs' in pret (c :: cs)
  end.
Definition fields_of (module name : string) : list Field :=
  ((if negb (str_eqb module "-") && negb (str_eqb name "") then [("module", module)] else []) ++
   (if negb (str_eqb name "default") then [("logger", name)] else []))%list.
Definition zero_log : LogConfig := mkLog "" "" InfoLevel "" None None.
(** [load] on the wrapper [lw]; [keep] is where the module is written before the
    outputs are made. *)
Definition load (keep : Wrapper -> L unit) (module : string) (cfgs : list LogConfig) (lw : Wrapper) : L Wrapper :=
  let* _ := keep (mkWrapper module lw.(w_name) lw.(w_logger)) in
  let* cs := cores_of (match cfgs with [] => [zero_log] | _ => cfgs end) in
  pret (mkWrapper module lw.(w_name) (Some (mkLogger cs (fields_of module lw.(w_name)) ""))).
Definition newLoggerWrapper (module name : string) (cfgs : list LogConfig) : L Wrapper :=
  load (fun _ => pret tt) module cfgs (mkWrapper module name None).
Definition reload_one (module : string) (p : string * list LogConfig) : L unit :=
  let* s := pget in
  let* lw := (match s.(loggers) !! fst p with
              | None => newLoggerWrapper module (fst p) (snd p)
              | Some lw => load (fun lw' => pmodify (set_wrapper (fst p) lw')) module (snd p) lw
              end) in
  pmodify (set_wrapper (fst p) lw).
Fixpoint reload_each (module : string) (cfg : list (string * list LogConfig)) : L unit :=
  match cfg with [] => pret tt | p :: cfg' => let* _ := reload_one module p in reload_each module cfg' end.
Definition default_logger (s : LogState) : option Logger := match s.(loggers) !! "default" with Some lw => lw.(w_logger) | None => None end.
(** The configuration in the order in which Go ranges over it. *)
Definition ReloadConfig (module : string) (cfg : list (string * list LogConfig)) : L unit :=
  let* _ := reload_each module cfg in
  let* s := pget in
  match s.(loggers) !! "default" with
  | None => ppanic "invalid memory address or nil pointer dereference"
  | Some lw => pmodify (set_logger lw.(w_logger))
  end.
(** The state of the package before and after its [init]. *)
Definition unloaded : LogState := mkLogState {["default" := mkWrapper "" "default" None]} None [] ∅.
Definition init : L unit :=
  let* lw := load (fun lw' => pmodify (set_wrapper "default" lw')) "-" [] (mkWrapper "" "default" None) in
  let* _ := pmodify (set_wrapper "default" lw) in pmodify (set_logger lw.(w_logger)).
Definition initial : LogState := after init (mkWorld 0 unloaded).
Definition logs_Get (lgr : string) (s : LogState) : option Logger :=
  match s.(loggers) !! lgr with
  | None => if negb (str_eqb lgr "") && negb (str_eqb lgr "default") then option_map (Named lgr) s.(logger) else s.(logger)
  | Some lw => lw.(w_logger)
  end.
Definition logs_Named (name : string) (s : LogState) : option Logger := option_map (Named name) s.(logger).
Definition RequestLogger (reqid : string) (s : LogState) : option Logger := option_map (Named reqid) (logs_Get "access" s).
Definition SetLevel (lvl : Z) (s : LogState) : LogState := set_logger (Some (mkLogger [mkLogCore stdcfg Stdout lvl] [] "")) s.
(** The topics whose clients are closed. *)
Definition Close (s : LogState) : list string := s.(closerList).

(** ** There is always a logger *)
Definition loaded (s : LogState) : Prop :=
  is_Some s.(logger) /\ is_Some (s.(loggers) !! "default") /\ forall name lw, s.(loggers) !! name = Some lw -> is_Some lw.(w_logger).
Lemma core_keeps lcfg w : loggers (st (snd (core_of lcfg w))) = loggers (st w) /\ logger (st (snd (core_of lcfg w))) = logger (st w).
Proof.
  unfold core_of, getLoggerEncoder, NewTencentClsSyncer, pbind, pret, ppanic, pmodify.
  destruct (str_eqb (Encoder lcfg) "access"); [|destruct (existsb _ [""; _; _]); [|done]];
    (destruct (str_eqb (Writer lcfg) "file"); [done|]; destruct (str_eqb (Writer lcfg) "workwx"); [done|];
     destruct (existsb _ ["console"; _; _]); [done|]; destruct (existsb _ ["tencentcls"; _; _]); [|done];
     destruct (TencentCLS lcfg); [|done]; destruct (NewAsyncProducerClient _); done).
Qed.
Lemma cores_keeps cfgs : forall w, loggers (st (snd (cores_of cfgs w))) = loggers (st w) /\ logger (st (snd (cores_of cfgs w))) = logger (st w).
Proof.
  induction cfgs as [|c cfgs IH]; intros w; [done|]. cbn [cores_of]. unfold pbind. destruct (core_keeps c w) as [H1 H2].
  destruct (core_of c w) as [[x|v] w1]; cbn in *; [|done]. destruct (IH w1) as [H3 H4]. destruct (cores_of cfgs w1) as [[y|v] w2]; cbn in *; split; congruence.
Qed.
(** What a load answers, given what it kept. *)
Lemma load_answer keep module cfgs lw w : match load keep module cfgs lw w with
  | (Val lw', w') => is_Some lw'.(w_logger) /\ exists u w1, keep (mkWrapper module lw.(w_name) lw.(w_logger)) w = (Val u, w1) /\
      loggers (st w') = loggers (st w1) /\ logger (st w') = logger (st w1)
  | (Panic _, w') => loggers (st w') = loggers (st (snd (keep (mkWrapper module lw.(w_name) lw.(w_logger)) w))) /\
      logger (st w') = logger (st (snd (keep (mkWrapper module lw.(w_name) lw.(w_logger)) w)))
  end.
Proof.
  unfold load, pbind. destruct (keep _ w) as [[u|v] w1]; [|done]. destruct (cores_keeps (match cfgs with [] => [zero_log] | _ => cfgs end) w1) as [H1 H2].
  destruct (cores_of _ w1) as [[cs|v] w2]; cbn in *; [|done]. split; [by eexists|]. by exists u, w1.
Qed.
Lemma loaded_set key lw s : loaded s -> is_Some lw.(w_logger) -> loaded (set_wrapper key lw s).
Proof.
  intros (Hl & Hd & Hall) Hw. unfold loaded, set_wrapper. cbn. split; [done|]. split.
  - destruct (decide (key = "default")) as [->|]; [rewrite lookup_insert_eq; by eexists|by rewrite lookup_insert_ne].
  - intros name lw'. destruct (decide (key = name)) as [->|]; [rewrite lookup_insert_eq; by intros [= <-]|rewrite lookup_insert_ne by done; apply Hall].
Qed.
Lemma reload_one_loaded module p w : loaded (st w) -> loaded (st (snd (reload_one module p w))).
Proof.
  intros Hw. unfold reload_one, pbind, pget. destruct (loggers (st w) !! fst p) as [lw|] eqn:El.
  - assert (Hlw : is_Some (w_logger lw)) by by eapply Hw.
    pose proof (load_answer (fun lw' => pmodify (set_wrapper (fst p) lw')) module (snd p) lw w) as Ha.
    assert (Hk : loaded (set_wrapper (fst p) (mkWrapper module (w_name lw) (w_logger lw)) (st w))) by by apply loaded_set.
    destruct (load _ _ _ _ w) as [[lw'|v] w1].
    + destruct Ha as (Hlw' & u & w2 & [= <- <-] & H1 & H2). cbn. apply loaded_set; [|done]. unfold loaded in *. by rewrite H1, H2.
    + destruct Ha as [H1 H2]. cbn in *. unfold loaded in *. by rewrite H1, H2.
  - unfold newLoggerWrapper. pose proof (load_answer (fun _ => pret tt) module (snd p) (mkWrapper module (fst p) None) w) as Ha.
    destruct (load _ _ _ _ w) as [[lw'|v] w1].
    + destruct Ha as (Hlw' & u & w2 & [= <- <-] & H1 & H2). cbn. apply loaded_set; [|done]. unfold loaded in *. by rewrite H1, H2.
    + destruct Ha as [H1 H2]. cbn in *. unfold loaded in *. by rewrite H1, H2.
Qed.
Lemma reload_each_loaded module cfg : forall w, loaded (st w) -> loaded (st (snd (reload_each module cfg w))).
Proof.
  induction cfg as [|p cfg IH]; intros w Hw; [done|]. cbn [reload_each]. unfold pbind. pose proof (reload_one_loaded module p w Hw) as H1.
  destruct (reload_one module p w) as [[u|v] w1]; [by apply IH|done].
Qed.
Inductive LogOp : Type := OpReload (module : string) (cfg : list (string * list LogConfig)) | OpSetLevel (lvl : Z).
Definition run_log_op (o : LogOp) (w : World LogState) : World LogState :=
  match o with OpReload m cfg => snd (ReloadConfig m cfg w) | OpSetLevel lvl => mkWorld (calls w) (SetLevel lvl (st w)) end.
Lemma log_op_loaded o w : loaded (st w) -> loaded (st (run_log_op o w)).
Proof.
  intros Hw. destruct o as [m cfg|lvl]; cbn [run_log_op].
  - unfold ReloadConfig, pbind, pget. pose proof (reload_each_loaded m cfg w Hw) as H1. destruct (reload_each m cfg w) as [[u|v] w1]; [|done].
    cbn in *. destruct (loggers (st w1) !! "default") as [lw|] eqn:E; [|done]. cbn. destruct H1 as (_ & Hd & Hall). split; [by eapply Hall|done].
  - cbn. destruct Hw as (_ & Hd & Hall). split; [by eexists|done].
Qed.
(** There is a logger under every name, whatever was loaded since the start,
    loads that panicked included. *)
Theorem logs_Get_there (ops : list LogOp) (lgr : string) :
  is_Some (logs_Get lgr (st (fold_left (fun w o => run_log_op o w) ops (mkWorld 0 initial)))).
Proof.
  assert (H : forall w, loaded (st w) -> loaded (st (fold_left (fun w o => run_log_op o w) ops w))).
  { induction ops as [|o ops IH]; intros w Hw; [done|]. cbn. by apply IH, log_op_loaded. }
  assert (H0 : loaded initial).
  { unfold loaded, initial. vm_compute. split; [by eexists|]. split; [by eexists|]. intros name lw E.
    change (({["default" := mkWrapper "-" "default" (Some (mkLogger [mkLogCore stdcfg Stdout 0] [] ""))]} : gmap string Wrapper) !! name = Some lw) in E.
    apply lookup_singleton_Some in E as [_ <-]. by eexists. }
  destruct (H (mkWorld 0 initial) H0) as (Hl & _ & Hall). unfold logs_Get. destruct (loggers _ !! lgr) as [lw|] eqn:E; [by eapply Hall|].
  destruct (negb (str_eqb lgr "") && negb (str_eqb lgr "default")); [|done]. destruct Hl as [l ->]. by eexists.
Qed.

(** ** What a configuration makes *)
Definition levels_of (cfgs : list LogConfig) : list Z := map Level (match cfgs with [] => [zero_log] | _ => cfgs end).
Definition made (module name : string) (cfgs : list LogConfig) (s : LogState) : Prop :=
  exists lw l, s.(loggers) !! name = Some lw /\ lw.(w_logger) = Some l /\ lw.(w_name) = name /\
    map c_level l.(cores) = levels_of cfgs /\ l.(fields) = fields_of module name.
Definition named (s : LogState) : Prop := forall name lw, s.(loggers) !! name = Some lw -> lw.(w_name) = name.
Lemma core_level lcfg w c w' : core_of lcfg w = (Val c, w') -> c.(c_level) = Level lcfg.
Proof.
  unfold core_of, pbind. destruct (getLoggerEncoder _ w) as [[edr|v] w1]; [|done]. destruct (_ w1) as [[sy|v] w2]; [|done]. by intros [= <- <-].
Qed.
Lemma cores_levels cfgs : forall w cs w', cores_of cfgs w = (Val cs, w') -> map c_level cs = map Level cfgs.
Proof.
  induction cfgs as [|c cfgs IH]; intros w cs w'; cbn [cores_of]; [by intros [= <- <-]|]. unfold pbind.
  destruct (core_of c w) as [[x|v] w1] eqn:E1; [|done]. destruct (cores_of cfgs w1) as [[xs|v] w2] eqn:E2; [|done]. intros [= <- <-].
  cbn [map]. f_equal; [by eapply core_level|by eapply IH].
Qed.
Lemma load_made keep module cfgs lw w lw' w' : load keep module cfgs lw w = (Val lw', w') ->
  lw'.(w_name) = lw.(w_name) /\ exists l, lw'.(w_logger) = Some l /\ map c_level l.(cores) = levels_of cfgs /\ l.(fields) = fields_of module lw.(w_name).
Proof.
  unfold load, pbind, pret. destruct (keep _ w) as [[u|v] w1]; [|done]. destruct (cores_of _ w1) as [[cs|v] w2] eqn:E; [|done].
  intros [= <- <-]. cbn. split; [done|]. eexists. split; [done|]. cbn. split; [|done]. unfold levels_of. by eapply cores_levels.
Qed.
Lemma reload_one_made module p w w' : named (st w) -> reload_one module p w = (Val tt, w') ->
  made module (fst p) (snd p) (st w') /\ named (st w') /\ forall name, name <> fst p -> loggers (st w') !! name = loggers (st w) !! name.
Proof.
  intros Hn. unfold reload_one, pbind, pget.
  assert (Hgoal : forall lw' w1, lw'.(w_name) = fst p ->
    (exists l, lw'.(w_logger) = Some l /\ map c_level l.(cores) = levels_of (snd p) /\ l.(fields) = fields_of module (fst p)) ->
    (forall name, name <> fst p -> loggers (st w1) !! name = loggers (st w) !! name) ->
    w' = mkWorld (calls w1) (set_wrapper (fst p) lw' (st w1)) ->
    made module (fst p) (snd p) (st w') /\ named (st w') /\ forall name, name <> fst p -> loggers (st w') !! name = loggers (st w) !! name).
  { intros lw' w1 Hname (l & Hl & Hlv & Hf) Ho ->. cbn. split; [|split].
    - exists lw', l. cbn. rewrite lookup_insert_eq. by split_and!.
    - intros name lw. cbn. destruct (decide (fst p = name)) as [<-|Hne]; [rewrite lookup_insert_eq; by intros [= <-]|].
      rewrite lookup_insert_ne, Ho by congruence. apply Hn.
    - intros name Hne. cbn. rewrite lookup_insert_ne by congruence. by apply Ho. }
  destruct (loggers (st w) !! fst p) as [lw|] eqn:El.
  - pose proof (load_answer (fun lw' => pmodify (set_wrapper (fst p) lw')) module (snd p) lw w) as Ha.
    destruct (load _ _ _ _ w) as [[lw'|v] w1] eqn:E; [|done]. destruct (load_made _ _ _ _ _ _ _ E) as [H1 H2]. destruct Ha as (_ & u & w2 & [= <- <-] & H3 & _).
    intros [= <-]. apply (Hgoal lw' w1); try done; [by rewrite H1; apply Hn|rewrite (Hn _ _ El) in H2; exact H2|].
    intros name Hne. rewrite H3. cbn. by rewrite lookup_insert_ne by congruence.
  - unfold newLoggerWrapper. pose proof (load_answer (fun _ => pret tt) module (snd p) (mkWrapper module (fst p) None) w) as Ha.
    destruct (load _ _ _ _ w) as [[lw'|v] w1] eqn:E; [|done]. destruct (load_made _ _ _ _ _ _ _ E) as [H1 H2]. destruct Ha as (_ & u & w2 & [= <- <-] & H3 & _).
    intros [= <-]. apply (Hgoal lw' w1); try done. intros name Hne. by rewrite H3.
Qed.
Lemma reload_each_made module cfg : NoDup (map fst cfg) -> forall w w', named (st w) -> reload_each module cfg w = (Val tt, w') ->
  (forall name cfgs, In (name, cfgs) cfg -> made module name cfgs (st w')) /\
  (forall name, ~ In name (map fst cfg) -> loggers (st w') !! name = loggers (st w) !! name).
Proof.
  induction cfg as [|p cfg IH]; intros Hd w w' Hn; cbn [reload_each]; [intros [= <-]; by split|]. cbn [map] in Hd. apply NoDup_cons in Hd as [Hp Hd].
  unfold pbind. destruct (reload_one module p w) as [[[]|v] w1] eqn:E; [|done]. intros E2. destruct (reload_one_made module p w w1 Hn E) as (Hm & Hn1 & Ho1).
  destruct (IH Hd w1 w' Hn1 E2) as [Hm2 Ho2]. split.
  - intros name cfgs [->|Hin]; [|by apply Hm2]. destruct Hm as (lw & l & Hlw & Hr). exists lw, l. split; [|done]. cbn in Hlw.
    rewrite Ho2; [done|]. by rewrite <- list_elem_of_In.
  - intros name Hnot. rewrite Ho2 by (intros ?; apply Hnot; by right). apply Ho1. intros ->. apply Hnot. by left.
Qed.
(** A configuration that loads, in any order of its names, makes a logger with
    the configured levels under each of them, leaves the others, and the logger
    in use becomes that of the name "default". *)
Theorem ReloadConfig_spec module cfg (w w' : World LogState) : NoDup (map fst cfg) -> named (st w) -> ReloadConfig module cfg w = (Val tt, w') ->
  (forall name cfgs, In (name, cfgs) cfg -> exists l, logs_Get name (st w') = Some l /\ map c_level l.(cores) = levels_of cfgs /\ l.(fields) = fields_of module name) /\
  (forall name, ~ In name (map fst cfg) -> loggers (st w') !! name = loggers (st w) !! name) /\
  logger (st w') = default_logger (st w').
Proof.
  intros Hd Hn. unfold ReloadConfig, pbind, pget. destruct (reload_each module cfg w) as [[[]|v] w1] eqn:E; [|done].
  destruct (reload_each_made module cfg Hd w w1 Hn E) as [Hm Ho]. destruct (loggers (st w1) !! "default") as [lw|] eqn:El; [|done]. intros [= <-].
  split; [|split].
  - intros name cfgs Hin. destruct (Hm name cfgs Hin) as (lw' & l & Hlw & Hl & _ & Hr). exists l. unfold logs_Get. cbn. by rewrite Hlw.
  - exact Ho.
  - unfold default_logger. cbn. by rewrite El.
Qed.
End Wrappers.

(** * The logger of a context *)
(** A key of package [context] keeps its type: that of this package differs from
    a text.  A context of gin is shared, by its number; one that is derived with
    a deadline, say, has the values of its parent. *)
Inductive CtxKey : Type := KText (s : string) | KLogs (s : string).
#[export] Instance CtxKey_eq_dec : EqDecision CtxKey.
Proof. solve_decision. Defined.
Inductive Context_ : Type := BackgroundCtx | ValueCtx (parent : Context_) (key : CtxKey) (val : CtxVal) | Derived (parent : Context_) | GinCtx (g : nat).
Definition contextKeyLogger : string := "yg-go-logger".
Definition contextKeyRequestID : string := "reqid".
Definition gin_Get (g : nat) (key : string) (s : LogState) : option CtxVal := m ← s.(gins) !! g; m !! key.
Definition gin_Set (g : nat) (key : string) (v : CtxVal) (s : LogState) : LogState :=
  mkLogState s.(loggers) s.(logger) s.(closerList) (<[g := <[key := v]> (default ∅ (s.(gins) !! g))]> s.(gins)).
(** [ctx.Value]; gin looks for texts only. *)
Fixpoint ctx_Value (s : LogState) (ctx : Context_) (key : CtxKey) : option CtxVal :=
  match ctx with
  | BackgroundCtx => None
  | ValueCtx parent k v => if decide (key = k) then Some v else ctx_Value s parent key
  | Derived parent => ctx_Value s parent key
  | GinCtx g => match key with KText t => gin_Get g t s | KLogs _ => None end
  end.
Definition or_default (s : LogState) (v : option CtxVal) : option Logger := match v with Some (VLogger l) => Some l | _ => s.(logger) end.
(** [None] is a nil context. *)
Definition LoggerFromContext (s : LogState) (ctx : option Context_) : option Logger :=
  match ctx with
  | None => s.(logger)
  | Some (GinCtx g) => or_default s (gin_Get g contextKeyLogger s)
  | Some ctx => or_default s (ctx_Value s ctx (KLogs contextKeyLogger))
  end.
Definition WithContextFields (s : LogState) (ctx : option Context_) (fs : list Field) : option Context_ :=
  let ctx := default BackgroundCtx ctx in
  match or_default s (ctx_Value s ctx (KLogs contextKeyLogger)) with
  | None => None
  | Some l => Some (ValueCtx ctx (KLogs contextKeyLogger) (VLogger (With fs l)))
  end.
Definition WithContextLogger (ctx : option Context_) (l : Logger) : Context_ :=
  ValueCtx (default BackgroundCtx ctx) (KLogs contextKeyLogger) (VLogger l).
(** The context that the other branch makes is dropped. *)
Definition SetContextFields (ctx : option Context_) (fs : list Field) (s : LogState) : LogState :=
  match ctx with
  | Some (GinCtx g) => match LoggerFromContext s ctx with Some l => gin_Set g contextKeyLogger (VLogger (With fs l)) s | None => s end
  | _ => s
  end.
Definition SetContextLogger (ctx : option Context_) (l : Logger) (s : LogState) : LogState :=
  match ctx with Some (GinCtx g) => gin_Set g contextKeyLogger (VLogger l) s | _ => s end.

(** ** Writing *)
(** The functions of the package write with the logger in use, those for a
    context with its logger; [Fatal] ends the process. *)
Definition write (lvl : Z) (l : option Logger) (fs : list Field) (msg : string) : list Entry := match l with Some l => log_at lvl (With fs l) msg | None => [] end.
Definition Debug (s : LogState) (msg : string) : list Entry := write DebugLevel s.(logger) [] msg.
Definition Info (s : LogState) (msg : string) : list Entry := write InfoLevel s.(logger) [] msg.
Definition Warn (s : LogState) (msg : string) : list Entry := write WarnLevel s.(logger) [] msg.
Definition Error_ (s : LogState) (msg : string) : list Entry := write ErrorLevel s.(logger) [] msg.
Definition Fatal (s : LogState) (msg : string) : list Entry := write FatalLevel s.(logger) [] msg.
Definition Debugw (s : LogState) (msg : string) (kvs : list Field) : list Entry := write DebugLevel s.(logger) kvs msg.
Definition Infow (s : LogState) (msg : string) (kvs : list Field) : list Entry := write InfoLevel s.(logger) kvs msg.
Definition Warnw (s : LogState) (msg : string) (kvs : list Field) : list Entry := write WarnLevel s.(logger) kvs msg.
Definition Errorw (s : LogState) (msg : string) (kvs : list Field) : list Entry := write ErrorLevel s.(logger) kvs msg.
Definition Fatalw (s : LogState) (msg : string) (kvs : list Field) : list Entry := write FatalLevel s.(logger) kvs msg.
Definition DebugContext (s : LogState) (ctx : option Context_) (msg : string) : list Entry := write DebugLevel (LoggerFromContext s ctx) [] msg.
Definition InfoContext (s : LogState) (ctx : option Context_) (msg : string) : list Entry := write InfoLevel (LoggerFromContext s ctx) [] msg.
Definition WarnContext (s : LogState) (ctx : option Context_) (msg : string) : list Entry := write WarnLevel (LoggerFromContext s ctx) [] msg.
Definition ErrorContext (s : LogState) (ctx : option Context_) (msg : string) : list Entry := write ErrorLevel (LoggerFromContext s ctx) [] msg.
Definition FatalContext (s : LogState) (ctx : option Context_) (msg : string) : list Entry := write FatalLevel (LoggerFromContext s ctx) [] msg.
Definition DebugContextw (s : LogState) (ctx : option Context_) (msg : string) (kvs : list Field) : list Entry := write DebugLevel (LoggerFromContext s ctx) kvs msg.
Definition InfoContextw (s : LogState) (ctx : option Context_) (msg : string) (kvs : list Field) : list Entry := write InfoLevel (LoggerFromContext s ctx) kvs msg.
Definition WarnContextw (s : LogState) (ctx : option Context_) (msg : string) (kvs : list Field) : list Entry := write WarnLevel (LoggerFromContext s ctx) kvs msg.
Definition ErrorContextw (s : LogState) (ctx : option Context_) (msg : string) (kvs : list Field) : list Entry := write ErrorLevel (LoggerFromContext s ctx) kvs msg.
Definition FatalContextw (s : LogState) (ctx : option Context_) (msg : string) (kvs : list Field) : list Entry := write FatalLevel (LoggerFromContext s ctx) kvs msg.

(** The message of a template is the template alone when there is nothing to put
    in; zap's [getMessage]. *)
Section Formatted.
Context {Arg : Type} (Sprintf : string -> list Arg -> string) (Sprint : list Arg -> string).
Definition getMessage (template : string) (args : list Arg) : string :=
  match args with [] => template | _ => if str_eqb template "" then Sprint args else Sprintf template args end.
Definition Debugf (s : LogState) (template : string) (args : list Arg) : list Entry := write DebugLevel s.(logger) [] (getMessage template args).
Definition Infof (s : LogState) (template : string) (args : list Arg) : list Entry := write InfoLevel s.(logger) [] (getMessage template args).
Definition Warnf (s : LogState) (template : string) (args : list Arg) : list Entry := write WarnLevel s.(logger) [] (getMessage template args).
Definition Errorf (s : LogState) (template : string) (args : list Arg) : list Entry := write ErrorLevel s.(logger) [] (getMessage template args).
Definition Fatalf (s : LogState) (template : string) (args : list Arg) : list Entry := write FatalLevel s.(logger) [] (getMessage template args).
Definition DebugContextf (s : LogState) (ctx : option Context_) (template : string) (args : list Arg) : list Entry :=
  write DebugLevel (LoggerFromContext s ctx) [] (getMessage template args).
Definition InfoContextf (s : LogState) (ctx : option Context_) (template : string) (args : list Arg) : list Entry :=
  write InfoLevel (LoggerFromContext s ctx) [] (getMessage template args).
Definition WarnContextf (s : LogState) (ctx : option Context_) (template : string) (args : list Arg) : list Entry :=
  write WarnLevel (LoggerFromContext s ctx) [] (getMessage template args).
Definition ErrorContextf (s : LogState) (ctx : option Context_) (template : string) (args : list Arg) : list Entry :=
  write ErrorLevel (LoggerFromContext s ctx) [] (getMessage template args).
Definition FatalContextf (s : LogState) (ctx : option Context_) (template : string) (args : list Arg) : list Entry :=
  write FatalLevel (LoggerFromContext s ctx) [] (getMessage template args).
(** What gorm reports goes to the logger of the package, whatever logger was
    asked for: only statements ([Trace]) go to that one. *)
Definition gorm_Info (s : LogState) (g : option Logger) (msg : string) (data : list Arg) : list Entry := Infof s msg data.
Definition gorm_Warn (s : LogState) (g : option Logger) (msg : string) (data : list Arg) : list Entry := Warnf s msg data.
Definition gorm_Error (s : LogState) (g : option Logger) (msg : string) (data : list Arg) : list Entry := Errorf s msg data.
End Formatted.

Definition is_gin (ctx : Context_) : bool := match ctx with GinCtx _ => true | _ => false end.
(** The fields of a context add up: those given to a context of package
    [context], along any chain of contexts, are behind those of the logger it
    starts from, in their order; a context of gin takes them in place, for
    itself alone. *)
Fixpoint with_all (s : LogState) (ctx : Context_) (l : list (list Field)) : option Context_ :=
  match l with [] => Some ctx | fs :: l' => ctx' ← WithContextFields s (Some ctx) fs; with_all s (Derived ctx') l' end.
Lemma with_fields s ctx l fs : is_gin ctx = false -> LoggerFromContext s (Some ctx) = Some l ->
  exists ctx', WithContextFields s (Some ctx) fs = Some ctx' /\ is_gin ctx' = false /\ LoggerFromContext s (Some (Derived ctx')) = Some (With fs l).
Proof.
  intros Hg Hl. assert (E : or_default s (ctx_Value s ctx (KLogs contextKeyLogger)) = Some l) by (by destruct ctx).
  unfold WithContextFields. change (default BackgroundCtx (Some ctx)) with ctx. cbv zeta. rewrite E. eexists. split; [done|]. split; [done|]. cbn. by rewrite decide_True.
Qed.
Theorem context_fields s l : (forall ctx fss, is_gin ctx = false -> LoggerFromContext s (Some ctx) = Some l ->
    exists ctx', with_all s ctx fss = Some ctx' /\ LoggerFromContext s (Some ctx') = Some (With (List.concat fss) l)) /\
  (forall g fs, LoggerFromContext s (Some (GinCtx g)) = Some l ->
    let s' := SetContextFields (Some (GinCtx g)) fs s in
    LoggerFromContext s' (Some (GinCtx g)) = Some (With fs l) /\
    forall g', g' <> g -> LoggerFromContext s' (Some (GinCtx g')) = LoggerFromContext s (Some (GinCtx g'))).
Proof.
  split.
  - intros ctx fss. revert ctx l. induction fss as [|fs fss IH]; intros ctx l Hg Hl.
    { exists ctx. split; [done|]. rewrite Hl. unfold With. cbn [List.concat]. rewrite app_nil_r. by destruct l. }
    destruct (with_fields s ctx l fs Hg Hl) as (ctx' & E & _ & Hl'). cbn [with_all]. rewrite E. cbn [mbind option_bind].
    destruct (IH (Derived ctx') (With fs l) eq_refl Hl') as (ctx2 & E2 & Hl2). exists ctx2. split; [done|]. rewrite Hl2. unfold With. cbn. by rewrite app_assoc.
  - intros g fs Hl s'. unfold s', SetContextFields. rewrite Hl. unfold LoggerFromContext, gin_Get, gin_Set. cbn. split.
    + rewrite lookup_insert_eq. cbn. by rewrite lookup_insert_eq.
    + intros g' Hne. rewrite lookup_insert_ne by congruence. cbn. unfold or_default. done.
Qed.
(** The two kinds do not meet: fields that a context of gin took are lost to the
    contexts made from it, and setting fields of another context has no effect. *)
Theorem context_fields_lost s g fs fs' ctx : LoggerFromContext (SetContextFields (Some (GinCtx g)) fs s) (Some (Derived (GinCtx g))) = s.(logger) /\
  (forall c, WithContextFields (SetContextFields (Some (GinCtx g)) fs s) (Some (GinCtx g)) fs' = Some c ->
     LoggerFromContext s (Some c) = option_map (With fs') s.(logger)) /\
  (is_gin ctx = false -> SetContextFields (Some ctx) fs s = s).
Proof.
  assert (Hlog : logger (SetContextFields (Some (GinCtx g)) fs s) = logger s) by (unfold SetContextFields; by destruct (LoggerFromContext s _)).
  split; [exact Hlog|]. split; [|by destruct ctx].
  intros c. unfold WithContextFields. change (default BackgroundCtx (Some (GinCtx g))) with (GinCtx g). cbn [ctx_Value or_default]. rewrite Hlog. destruct (logger s) as [l|] eqn:El; [|done]. intros [= <-]. cbn. by rewrite decide_True.
Qed.

(** * The logger of gorm *)
Definition text_of (v : option CtxVal) : string := match v with Some (VText t) => t | _ => "" end.
Definition LogMode (g : option Logger) (level : Z) : option Logger := g.
Definition GetGorm (lgrName : string) (s : LogState) : option Logger := logs_Get lgrName s.
(** [Trace]: the statement [sql] with its rows, after [elapsed] nanoseconds. *)
Definition Trace (s : LogState) (g : option Logger) (ctx : Context_) (elapsed : Z) (sql : string) (nrows : Z) (err : option error) : list Entry :=
  let reqID := text_of (ctx_Value s ctx (KText contextKeyRequestID)) in
  let common := [(contextKeyRequestID, reqID); ("elapsed", fmt_d (Z.quot elapsed 1000000) ++ "ms"); ("rows", fmt_d nrows)] in
  match err with
  | Some e => write WarnLevel g (common ++ [("error", Error e)]) sql
  | None => write DebugLevel g common sql
  end.

(** * The logger of Elasticsearch *)
Record ESLogger : Type := mkES { es_l : option Logger; slowThreshold : Z }.
Definition GetESLogger (name : string) (slow : Z) (s : LogState) : ESLogger := mkES (logs_Get name s) slow.
(** A request: its method, address and body, given again by [GetBody]; an answer:
    its status, and its body with the error that ends it. *)
Record EsRequest : Type := mkEsReq { r_method : string; r_path : string; r_query : string; r_ctx : Context_; r_body : option string }.
Record EsResponse : Type := mkEsResp { StatusCode : Z; r_data : option (string * option error) }.
(** The integer part of a number of JSON. *)
Section EsLog.
Context (float_int : string -> Z).
Definition member (key : string) (j : json) : option json :=
  match j with JObj kvs => snd <$> List.last (map Some (List.filter (fun kv => str_eqb (fst kv) key) kvs)) None | _ => None end.
Definition affected (body : string) : Z :=
  match (j ← parse_s body; h ← member "hits" j; t ← member "total" h; member "value" t) with Some (JNum n) => float_int n | _ => 0 end.
(** That a document is not there is no error. *)
Definition level_for (method : string) (realCode : Z) : Z :=
  if str_eqb method "HEAD" && (realCode =? 404) then DebugLevel
  else if negb (realCode =? 200) && negb (realCode =? 201) then ErrorLevel else DebugLevel.
(** The entries, the error, and the answer as the client gets it: what was read
    of the body takes its place. *)
Definition LogRoundTrip (s : LogState) (e : ESLogger) (req : EsRequest) (res : EsResponse) (err : option error) (dur : Z) :
    list Entry * option error * EsResponse :=
  let reqID := text_of (ctx_Value s req.(r_ctx) (KText contextKeyRequestID)) in
  let fields := [(contextKeyRequestID, reqID); ("elapsed", fmt_d (Z.quot dur 1000000) ++ "ms"); ("dslMethod", req.(r_method));
                 ("dslPath", req.(r_path) ++ "?" ++ req.(r_query))] in
  let dslBody := default "" req.(r_body) in
  match err with
  | Some er => (write ErrorLevel e.(es_l) (fields ++ [("error", Error er); ("ralcode", fmt_d (-1))]) dslBody, Some er, res)
  | None =>
      let fields := (fields ++ [("ralcode", fmt_d res.(StatusCode))])%list in
      let finish rows res' :=
        let fields := (fields ++ [("rows", fmt_d rows)])%list in
        ((write (level_for req.(r_method) res.(StatusCode)) e.(es_l) fields dslBody ++
          (if (0 <? e.(slowThreshold)) && (e.(slowThreshold) <? dur) then write WarnLevel e.(es_l) fields ("slow dsl: " ++ dslBody) else []))%list, None, res') in
      match res.(r_data) with
      | None => finish 0 res
      | Some (bodyBytes, Some readErr) =>
          (write ErrorLevel e.(es_l) (fields ++ [("error", Error readErr)]) dslBody, None, mkEsResp res.(StatusCode) (Some (bodyBytes, None)))
      | Some (bodyBytes, None) => finish (affected bodyBytes) (mkEsResp res.(StatusCode) (Some (bodyBytes, None)))
      end
  end.

(** Logging a request does not change what the client sees: the error and the
    status, and the body when it could be read; when it could not, the client
    gets the part that was read as if it were all.  An answer below the level of
    an error is never written as one. *)
Theorem LogRoundTrip_spec s e req res err dur :
  let '(es, r, res') := LogRoundTrip s e req res err dur in
  r = err /\ StatusCode res' = StatusCode res /\
  r_data res' = match err, r_data res with None, Some (b, Some _) => Some (b, None) | _, d => d end /\
  (err = None -> (StatusCode res = 200 \/ StatusCode res = 201 \/ (r_method req = "HEAD" /\ StatusCode res = 404)) ->
     match r_data res with Some (_, Some _) => True | _ => Forall (fun x => e_level x < ErrorLevel) es end).
Proof.
  assert (Hw : forall lvl l fs msg, Forall (fun x => e_level x = lvl) (write lvl l fs msg)).
  { intros lvl [l|] fs msg; [|constructor]. unfold write, log_at. apply Forall_map, Forall_true. done. }
  assert (Hlow : forall lvl l fs msg, lvl < ErrorLevel -> Forall (fun x => e_level x < ErrorLevel) (write lvl l fs msg)).
  { intros lvl l fs msg Hl. eapply Forall_impl; [apply Hw|]. by intros x ->. }
  unfold LogRoundTrip. destruct err as [er|]; [done|].
  assert (Hall : forall fs msg, (StatusCode res = 200 \/ StatusCode res = 201 \/ (r_method req = "HEAD" /\ StatusCode res = 404)) ->
    Forall (fun x => e_level x < ErrorLevel) (write (level_for (r_method req) (StatusCode res)) (es_l e) fs msg ++
      (if (0 <? slowThreshold e) && (slowThreshold e <? dur) then write WarnLevel (es_l e) fs ("slow dsl: " ++ msg) else []))).
  { intros fs msg Hs. apply Forall_app. split; [apply Hlow|destruct (_ && _); [by apply Hlow|constructor]].
    unfold level_for. destruct Hs as [-> | [-> | [-> ->]]]; [by rewrite andb_false_r|by rewrite andb_false_r|done]. }
  destruct res as [code [[b [re|]]|]]; cbn [r_data StatusCode] in *; (split; [done|]; split; [done|]; split; [done|]; intros _ Hs; auto).
Qed.
End EsLog.

(** * At work *)
Definition quiet_cls (topic : string) : option error := None.
Definition demo_cfg : list (string * list LogConfig) :=
  [("main", [mkLog "file" "std" WarnLevel "" None (Some "a.log"); mkLog "" "" 0 "" None None]); ("default", [])].
Definition demo_reload := ReloadConfig quiet_cls "app" demo_cfg (mkWorld 0 (initial quiet_cls)).
Lemma ReloadConfig_spec_witness : exists w' l, demo_reload = (Val tt, w') /\ logs_Get "main" (st w') = Some l /\ map c_level l.(cores) = [WarnLevel; 0] /\
  l.(fields) = [("module", "app"); ("logger", "main")].
Proof.
  destruct (ReloadConfig_spec quiet_cls "app" demo_cfg (mkWorld 0 (initial quiet_cls)) (snd demo_reload)) as (Hm & _ & _).
  - apply (bool_decide_unpack _). vm_compute. exact I.
  - intros name lw E.
    change (({["default" := mkWrapper "-" "default" (Some (mkLogger [mkLogCore stdcfg Stdout 0] [] ""))]} : gmap string Wrapper) !! name = Some lw) in E.
    by apply lookup_singleton_Some in E as [<- <-].
  - vm_compute. reflexivity.
  - destruct (Hm "main" [mkLog "file" "std" WarnLevel "" None (Some "a.log"); mkLog "" "" 0 "" None None] (or_introl eq_refl)) as (l & E & Hl & Hf).
    exists (snd demo_reload), l. split; [vm_compute; reflexivity|]. split; [exact E|]. split; [exact Hl|exact Hf].
Defined.
(** The panic of an unknown writer names the encoder; one of several outputs that
    is wrong leaves the logger as it was, but for its module. *)
Example wrong_writer : fst (ReloadConfig quiet_cls "app" [("default", [mkLog "syslog" "std" 0 "" None None])] (mkWorld 0 (initial quiet_cls))) =
  Panic "unsupport logger writer (std)".
Proof. vm_compute. reflexivity. Qed.
(** The level set for the package is not that of the logger "default". *)
Example level_not_shared : let s := SetLevel ErrorLevel (initial quiet_cls) in
  (Warn s "x", length (write WarnLevel (logs_Get "default" s) [] "x"), length (write WarnLevel (logs_Get "other" s) [] "x")) = ([], 1%nat, O).
Proof. vm_compute. reflexivity. Qed.
