(* ===== verification/Weedfs.v ===== *)
(** [src/storage/weedfs/filer.go] (and its copy under [src/storage/v2]): walking a
    folder of a SeaweedFS filer, page by page.  The client of the filer is a
    parameter; its answers are decoded as package [encoding/json] does. *)
From S2P Require Import Prelude Strings Json Regexp JsonText Files.
#[local] Open Scope string_scope.
#[local] Open Scope Z_scope.

Record WeedFileChunk : Type := mkChunk { FileID : string; ChunkSize : Z }.
Record WeedFileEntry : Type := mkWeed { FullPath : string; Mode : Z; Mime : string; Md5 : string; FileSize : Z; Chunks : list WeedFileChunk }.
(** An element that is null is a nil pointer. *)
Record WeedFileListResponse : Type := mkWeedList { ListPath : string; Entries : list (option WeedFileEntry) }.

(** * Decoding *)
Definition d_int64 : Decoder Z := fun old j =>
  match j with
  | JNum s => match ParseInt s with Some n => Ok n | None => Err (type_error j "int64") end
  | JNull => Ok old
  | _ => Err (type_error j "int64")
  end.
Definition d_uint32 : Decoder Z := fun old j =>
  match j with
  | JNum s => match ParseUint s with Some n => if n <? 4294967296 then Ok n else Err (type_error j "uint32") | None => Err (type_error j "uint32") end
  | JNull => Ok old
  | _ => Err (type_error j "uint32")
  end.
Definition d_pointer {T} (zero : T) (d : Decoder T) : Decoder (option T) := fun old j =>
  match j with
  | JNull => Ok None
  | _ => match d (default zero old) j with Ok v => Ok (Some v) | Err e => Err e end
  end.
Definition chunk_fields : Fields WeedFileChunk :=
  [("file_id", at_field FileID (fun s c => mkChunk s c.(ChunkSize)) d_string); ("size", at_field ChunkSize (fun n c => mkChunk c.(FileID) n) d_int64)].
Definition entry_fields : Fields WeedFileEntry :=
  [("FullPath", at_field FullPath (fun s e => mkWeed s e.(Mode) e.(Mime) e.(Md5) e.(FileSize) e.(Chunks)) d_string);
   ("Mode", at_field Mode (fun n e => mkWeed e.(FullPath) n e.(Mime) e.(Md5) e.(FileSize) e.(Chunks)) d_uint32);
   ("Mime", at_field Mime (fun s e => mkWeed e.(FullPath) e.(Mode) s e.(Md5) e.(FileSize) e.(Chunks)) d_string);
   ("Md5", at_field Md5 (fun s e => mkWeed e.(FullPath) e.(Mode) e.(Mime) s e.(FileSize) e.(Chunks)) d_string);
   ("FileSize", at_field FileSize (fun n e => mkWeed e.(FullPath) e.(Mode) e.(Mime) e.(Md5) n e.(Chunks)) d_int64);
   ("chunks", at_field Chunks (fun l e => mkWeed e.(FullPath) e.(Mode) e.(Mime) e.(Md5) e.(FileSize) l) (d_slice (mkChunk "" 0) (d_struct chunk_fields)))].
Definition zero_entry : WeedFileEntry := mkWeed "" 0 "" "" 0 [].
Definition list_fields : Fields WeedFileListResponse :=
  [("Path", at_field ListPath (fun s r => mkWeedList s r.(Entries)) d_string);
   ("Entries", at_field Entries (fun l r => mkWeedList r.(ListPath) l) (d_slice None (d_pointer zero_entry (d_struct entry_fields))))].
Definition syntax_error : error := ErrNew "invalid character in JSON".
Definition Unmarshal (data : string) : Res WeedFileListResponse :=
  match parse_s data with None => Err syntax_error | Some j => d_struct list_fields (mkWeedList "" []) j end.

(** [FileMode.IsDir]: the highest bit. *)
Definition IsDir (mode : Z) : bool := Z.testbit mode 31.
(** [filepath.Base]. *)
Fixpoint strip_slashes (l : list string) : list string :=
  match l with [] => [] | c :: l' => match strip_slashes l' with [] => if str_eqb c "" then [] else [c] | r => c :: r end end.
Definition Base (s : string) : string :=
  if str_eqb s "" then "."
  else match strip_slashes (elems s) with [] => "/" | l => List.last l "" end.

(** * The filer *)
Section Filer.
(** [F] is the filer, [T] what the callback keeps; [filer_Get] answers a page of
    a folder, of at most [limit] entries behind the name given (none at first),
    with the status of the answer. *)
Context `{Env} {F T : Type} (filer_Get : string -> Z -> option string -> F -> Res (string * Z)) (http_Head : string -> F -> Res Z).
Abbreviation St := (F * T)%type.
Implicit Types w : World St.
Definition WalkWeedFunc : Type := string -> option WeedFileEntry -> T -> option error * T.
Definition ask {A} (f : F -> Res A) : M St A := gextr (fun s => (f (fst s), s)).
Definition call_back (wf : WalkWeedFunc) (root : string) (ent : option WeedFileEntry) : M St unit :=
  fun w => let (r, t) := wf root ent (snd (st w)) in
           (match r with Some e => Err e | None => Ok tt end, mkWorld (calls w) (fst (st w), t)).
(** A status other than 200 answers no entries and the error of the call, which
    is nil. *)
Definition ListWeedDirFiles (rootDir lastFilename : string) : M St (list (option WeedFileEntry)) :=
  let last := if str_eqb lastFilename "" then None
              else Some (if str_mem "/" lastFilename then Base lastFilename else lastFilename) in
  let! a := ask (filer_Get rootDir 500 last) in
  if negb (snd a =? 200) then gret []
  else match Unmarshal (fst a) with Err e => graise e | Ok resp => gret resp.(Entries) end.
(** How a walk ends. *)
Inductive Outcome : Type := Done | Failed (e : error) | Panicked | OutOfFuel.
Definition then_ (m : M St Outcome) (k : M St Outcome) : M St Outcome :=
  let! o := m in match o with Done => k | _ => gret o end.
Fixpoint entries_loop (body : WeedFileEntry -> M St Outcome) (wf : WalkWeedFunc) (rootDir : string) (entries : list (option WeedFileEntry)) : M St Outcome :=
  match entries with
  | [] => gret Done
  | ent :: rest =>
      let! r := gtry (call_back wf rootDir ent) in
      match r with
      | Err e => gret (Failed e)
      | Ok _ => match ent with
                | None => gret Panicked
                | Some e => then_ (if IsDir e.(Mode) then body e else gret Done) (entries_loop body wf rootDir rest)
                end
      end
  end.
(** The name that the next page starts behind: that of the last entry. *)
Definition next_name (entries : list (option WeedFileEntry)) : string :=
  match List.last entries None with Some e => Base e.(FullPath) | None => "" end.
Fixpoint walk_from (fuel : nat) (wf : WalkWeedFunc) (rootDir lastFilename : string) : M St Outcome :=
  match fuel with
  | O => gret OutOfFuel
  | S fuel' =>
      let! r := gtry (ListWeedDirFiles rootDir lastFilename) in
      match r with
      | Err e => gret (Failed e)
      | Ok entries =>
          then_ (entries_loop (fun ent => walk_from fuel' wf ent.(FullPath) "") wf rootDir entries)
                (match entries with [] => gret Done | _ => walk_from fuel' wf rootDir (next_name entries) end)
      end
  end.
Definition WalkWeedDir (fuel : nat) (rootDir : string) (wf : WalkWeedFunc) : M St Outcome := walk_from fuel wf rootDir "".
(** A failed call and any other status say no. *)
Definition ExistsFile (filerurl filename : string) : M St bool :=
  let! r := gtry (ask (http_Head (filerurl ++ filename))) in
  gret (match r with Ok code => code =? 200 | Err _ => false end).

(** * What a walk sees *)
(** A filer whose folders have the entries [children], under names of their own;
    [answers] is how it takes the listing of a folder behind a name: with a page,
    with a status other than 200, or with an error of the call or of the
    decoding. *)
Inductive Answer : Type := Page | Status | Fails (e : error).
Variable children : F -> string -> list WeedFileEntry.
Variable answers : F -> string -> option string -> Answer.
Definition name_of (e : WeedFileEntry) : string := Base e.(FullPath).
Fixpoint behind (name : string) (l : list WeedFileEntry) : list WeedFileEntry :=
  match l with [] => [] | e :: l' => if str_eqb (name_of e) name then l' else behind name l' end.
Definition rest_of (last : option string) (l : list WeedFileEntry) : list WeedFileEntry :=
  match last with None => l | Some name => behind name l end.
(** The names that a listing of the folder may start behind: those in it. *)
Definition start (f : F) (dir : string) (last : option string) : Prop :=
  last = None \/ exists e, In e (children f dir) /\ last = Some (name_of e).
Definition pages (f : F) : Prop := forall dir last, start f dir last ->
  match answers f dir last with
  | Page => exists data p, filer_Get dir 500 last f = Ok (data, 200) /\
      Unmarshal data = Ok (mkWeedList p (map Some (firstn 500 (rest_of last (children f dir)))))
  | Status => exists data code, filer_Get dir 500 last f = Ok (data, code) /\ code <> 200
  | Fails e => filer_Get dir 500 last f = Err e \/ exists data, filer_Get dir 500 last f = Ok (data, 200) /\ Unmarshal data = Err e
  end.
Definition named (f : F) : Prop := forall dir, NoDup (map name_of (children f dir)) /\
  Forall (fun e => str_eqb (name_of e) "" = false /\ str_mem "/" (name_of e) = false) (children f dir).
(** What happens to the callback: an entry of a folder, or the error of a listing. *)
Inductive Event : Type := Visit (dir : string) (e : WeedFileEntry) | Stop (e : error).
Definition visit_of (under : WeedFileEntry -> list Event) (dir : string) (e : WeedFileEntry) : list Event :=
  Visit dir e :: (if IsDir e.(Mode) then under e else []).
(** The entries [l] that are left in a folder behind the name [last], of which
    [room] are on a page that is there; a listing is asked for when there is no
    such page, and once more behind the last entry. *)
Fixpoint seen_in (f : F) (dir : string) (under : WeedFileEntry -> list Event) (room : nat) (last : option string) (l : list WeedFileEntry) : list Event :=
  match l, room with
  | [], _ => match answers f dir last with Fails e => [Stop e] | _ => [] end
  | e :: l', S room' => (visit_of under dir e ++ seen_in f dir under room' (Some (name_of e)) l')%list
  | e :: l', O =>
      match answers f dir last with
      | Page => (visit_of under dir e ++ seen_in f dir under 499 (Some (name_of e)) l')%list
      | Status => []
      | Fails er => [Stop er]
      end
  end.
(** What happens under a folder in the order of the walk, folders before what is
    in them; [n] levels. *)
Fixpoint below (n : nat) (f : F) (dir : string) : list Event :=
  match n with O => [] | S n' => seen_in f dir (fun e => below n' f e.(FullPath)) 0 None (children f dir) end.
Fixpoint bottom (n : nat) (f : F) (dir : string) : bool :=
  match n with
  | O => false
  | S n' => forallb (fun e => if IsDir e.(Mode) then bottom n' f e.(FullPath) else true) (children f dir)
  end.
(** The callback on the events, up to the first error. *)
Fixpoint visits (wf : WalkWeedFunc) (l : list Event) (t : T) : option error * T :=
  match l with
  | [] => (None, t)
  | Stop e :: _ => (Some e, t)
  | Visit dir e :: l' => match wf dir (Some e) t with (None, t') => visits wf l' t' | (Some err, t') => (Some err, t') end
  end.
Definition outcome_of (r : option error) : Outcome := match r with None => Done | Some e => Failed e end.
Lemma visits_app wf l1 l2 t : visits wf (l1 ++ l2) t = match visits wf l1 t with (None, t') => visits wf l2 t' | r => r end.
Proof.
  revert t. induction l1 as [|[d e|e] l1 IH]; intros t; [done| |done]. cbn. destruct (wf d (Some e) t) as [[err|] t']; [done|]. apply IH.
Qed.
(** The name behind a page. *)
Fixpoint last_of (last : option string) (p : list WeedFileEntry) : option string :=
  match p with [] => last | e :: p' => last_of (Some (name_of e)) p' end.
Lemma last_of_snoc p e : forall last, last_of last (p ++ [e]) = Some (name_of e).
Proof. induction p as [|x p IH]; intros last; [done|]. apply IH. Qed.
Lemma seen_in_page f dir under k : forall last l,
  seen_in f dir under k last l = (List.concat (map (visit_of under dir) (firstn k l)) ++ seen_in f dir under 0 (last_of last (firstn k l)) (skipn k l))%list.
Proof.
  induction k as [|k IH]; intros last l; [done|]. destruct l as [|e l]; [done|]. cbn [seen_in firstn skipn map List.concat last_of]. by rewrite IH, <- app_assoc.
Qed.
Lemma then_run m k w o w1 : m w = (Ok o, w1) -> then_ m k w = match o with Done => k w1 | _ => (Ok o, w1) end.
Proof. intros E. unfold then_. rewrite gbind_eq, E. by destruct o. Qed.
Lemma behind_split a e b : NoDup (map name_of (a ++ e :: b)) -> behind (name_of e) (a ++ e :: b) = b.
Proof.
  induction a as [|x a IH]; cbn; intros Hd.
  - unfold str_eqb. by rewrite String.eqb_refl.
  - apply NoDup_cons in Hd as [Hx Hd]. destruct (str_eqb (name_of x) (name_of e)) eqn:E; [|by apply IH].
    exfalso. apply Hx. unfold str_eqb in E. apply String.eqb_eq in E. rewrite E, map_app. apply elem_of_app. right. by left.
Qed.
Section Walk.
Hypothesis Hnf : forall n, no_fault_from n.
Context (f : F) (wf : WalkWeedFunc).
Hypothesis Hpages : pages f.
Hypothesis Hnamed : named f.
(** The list and the callback agree on what is seen of [l] and on how it ends. *)
Definition sees (m : M St Outcome) (l : list Event) : Prop := forall w, fst (st w) = f ->
  exists w', m w = (Ok (outcome_of (fst (visits wf l (snd (st w))))), w') /\ st w' = (f, snd (visits wf l (snd (st w)))).
Lemma sees_then m k l1 l2 : sees m l1 -> sees k l2 -> sees (then_ m k) (l1 ++ l2).
Proof.
  intros Hm Hk w Hf. destruct (Hm w Hf) as (w1 & E & Es). rewrite visits_app, (then_run _ _ _ _ _ E).
  destruct (visits wf l1 (snd (st w))) as [[err|] t'] eqn:Ev; cbn [fst snd outcome_of] in *; [by exists w1|].
  destruct (Hk w1) as (w2 & E2 & Es2); [by rewrite Es|]. rewrite Es in E2, Es2. by exists w2.
Qed.
Lemma sees_done : sees (gret Done) [].
Proof. intros w Hf. exists w. split; [done|]. by destruct (st w); cbn in *; subst. Qed.
Lemma sees_entries body under dir l : (forall e, In e l -> IsDir e.(Mode) = true -> sees (body e) (under e)) ->
  sees (entries_loop body wf dir (map Some l)) (List.concat (map (visit_of under dir) l)).
Proof.
  induction l as [|e l IH]; intros Hb w Hf; [by apply sees_done|].
  cbn [map entries_loop List.concat visits app]. rewrite gbind_eq. unfold gtry, call_back, visit_of. rewrite Hf. cbn [app visits].
  destruct (wf dir (Some e) (snd (st w))) as [[err|] t']; cbn [snd fst outcome_of]; [by eexists|].
  assert (Hrest : sees (entries_loop body wf dir (map Some l)) (List.concat (map (visit_of under dir) l))) by (apply IH; intros e' He'; apply Hb; by right).
  assert (Hhere : sees (if IsDir (Mode e) then body e else gret Done) (if IsDir (Mode e) then under e else [])).
  { destruct (IsDir (Mode e)) eqn:Ed; [apply Hb; [by left|done]|apply sees_done]. }
  apply (sees_then _ _ _ _ Hhere Hrest (mkWorld (calls w) (f, t'))). done.
Qed.
Lemma list_run dir last w : fst (st w) = f -> start f dir last ->
  ListWeedDirFiles dir (default "" last) w =
    (match answers f dir last with Page => Ok (map Some (firstn 500 (rest_of last (children f dir)))) | Status => Ok [] | Fails e => Err e end,
     mkWorld (S (calls w)) (st w)).
Proof.
  intros Hf Hl. pose proof (Hpages dir last Hl) as Ha. unfold ListWeedDirFiles.
  assert (El : (if str_eqb (default "" last) "" then None else Some (if str_mem "/" (default "" last) then Base (default "" last) else default "" last)) = last).
  { destruct Hl as [->|(e & He & ->)]; [done|]. change (default "" (Some (name_of e))) with (name_of e). destruct (Hnamed dir) as [_ Hs].
    rewrite Forall_forall in Hs. destruct (Hs e) as [-> ->]; [by apply list_elem_of_In|done]. }
  rewrite El, gbind_eq. unfold ask. rewrite gextr_ok by (apply (Hnf 0%nat); lia). cbn [fst snd]. rewrite Hf. destruct (answers f dir last) as [| |er].
  - destruct Ha as (data & p & -> & Eu). cbn [fst snd]. rewrite Z.eqb_refl. cbn [negb]. rewrite Eu. by destruct w.
  - destruct Ha as (data & code & -> & Hc). cbn [fst snd]. rewrite (proj2 (Z.eqb_neq _ _) Hc). by destruct w.
  - destruct Ha as [->|(data & -> & Eu)]; [by destruct w|]. cbn [fst snd]. rewrite Z.eqb_refl. cbn [negb]. rewrite Eu. by destruct w.
Qed.
(** Turns enough for [n] levels from a folder on. *)
Fixpoint weight (n : nat) (dir : string) : nat :=
  match n with
  | O => O
  | S n' => (2 + length (children f dir) + list_max (map (fun e => if IsDir e.(Mode) then weight n' e.(FullPath) else O) (children f dir)))%nat
  end.
Lemma weight_of n dir e : In e (children f dir) -> IsDir e.(Mode) = true ->
  (weight n e.(FullPath) <= list_max (map (fun e => if IsDir e.(Mode) then weight n e.(FullPath) else O) (children f dir)))%nat.
Proof.
  intros He Hd. pose proof (proj1 (list_max_le (map (fun e => if IsDir (Mode e) then weight n (FullPath e) else O) (children f dir)) _) (le_n _)) as Hm.
  rewrite Forall_forall in Hm. apply Hm. apply list_elem_of_In, in_map_iff. exists e. by rewrite Hd.
Qed.
(** The name of the last entry of a page leads to the entries behind it. *)
Lemma next_page dir a p q e : children f dir = (a ++ (p ++ [e]) ++ q)%list ->
  next_name (map Some (p ++ [e])) = default "" (Some (name_of e)) /\ start f dir (Some (name_of e)) /\
  rest_of (Some (name_of e)) (children f dir) = q.
Proof.
  intros Hc. unfold next_name. rewrite map_app. cbn [map]. rewrite last_last. split; [done|].
  assert (Hs : children f dir = ((a ++ p) ++ e :: q)%list) by (rewrite Hc, <- !app_assoc; done). split.
  - right. exists e. split; [|done]. rewrite Hs. apply in_or_app. right. by left.
  - cbn [rest_of]. rewrite Hs. apply behind_split. rewrite <- Hs. apply Hnamed.
Qed.
Lemma walk_sees n : forall dir, bottom n f dir = true -> forall fuel last r a, children f dir = (a ++ r)%list ->
  rest_of last (children f dir) = r -> start f dir last ->
  (2 + length r + list_max (map (fun e => if IsDir e.(Mode) then weight (pred n) e.(FullPath) else O) (children f dir)) <= fuel)%nat ->
  sees (walk_from fuel wf dir (default "" last)) (seen_in f dir (fun e => below (pred n) f e.(FullPath)) 0 last r).
Proof.
  induction n as [|n IHn]; [done|]. intros dir Hb. cbn [pred]. cbn [bottom] in Hb. rewrite forallb_forall in Hb.
  set (mx := list_max _). set (under := fun e => below n f e.(FullPath)). induction fuel as [|fuel IHf]; intros last r a Ha Hr Hl Hfuel; [lia|].
  intros w Hf. cbn [walk_from]. rewrite gbind_eq. unfold gtry. rewrite (list_run dir last w Hf Hl), Hr.
  assert (Hend : forall o : Outcome, exists w' : World St, gret o (mkWorld (S (calls w)) (st w)) = (Ok o, w') /\ st w' = (f, snd (st w))).
  { intros o. exists (mkWorld (S (calls w)) (st w)). split; [done|]. rewrite <- Hf. by destruct (st w). }
  destruct r as [|x r']; [cbn [seen_in]; destruct (answers f dir last); apply Hend|].
  cbn [seen_in]. destruct (answers f dir last) as [| |er] eqn:Ean; [|apply Hend|apply Hend].
  change (visit_of under dir x ++ seen_in f dir under 499 (Some (name_of x)) r')%list with (seen_in f dir under 500 last (x :: r')).
  rewrite seen_in_page. set (r := x :: r') in *. set (p := firstn 500 r). set (q := skipn 500 r).
  assert (Hrpq : r = (p ++ q)%list) by (unfold p, q; by rewrite take_drop). assert (Hp0 : p <> []) by done. clearbody p q.
  assert (Hp : sees (entries_loop (fun ent => walk_from fuel wf (FullPath ent) "") wf dir (map Some p)) (List.concat (map (visit_of under dir) p))).
  { apply sees_entries. intros e He Hd.
    assert (Hin : In e (children f dir)) by (rewrite Ha; apply in_or_app; right; rewrite Hrpq; apply in_or_app; by left).
    specialize (Hb e Hin). cbn beta in Hb. rewrite Hd in Hb. pose proof (weight_of n dir e Hin Hd) as Hw. fold mx in Hw. destruct n as [|n']; [done|].
    cbn [weight] in Hw. apply (IHn (FullPath e) Hb fuel None (children f (FullPath e)) []); [done|done|by left|]. cbn [pred]. lia. }
  destruct (exists_last (l := p) Hp0) as (p1 & e & E1). rewrite E1 in *. rewrite last_of_snoc.
  destruct (next_page dir a p1 q e) as (En & Hst & Hre); [by rewrite Ha, Hrpq|].
  assert (Hk : sees (walk_from fuel wf dir (next_name (map Some (p1 ++ [e])))) (seen_in f dir under 0 (Some (name_of e)) q)).
  { rewrite En. apply (IHf (Some (name_of e)) q (a ++ p1 ++ [e])%list); [by rewrite Ha, Hrpq, <- !app_assoc|exact Hre|exact Hst|].
    assert (length r = length (p1 ++ [e]) + length q)%nat by (rewrite Hrpq; apply length_app). rewrite length_app in *. cbn [length] in *. lia. }
  destruct (sees_then _ _ _ _ Hp Hk (mkWorld (S (calls w)) (st w)) Hf) as (w' & E & Es). exists w'. split; [|exact Es]. cbn [st] in *. rewrite <- E. by destruct p1.
Qed.
(** C39: A walk gives its function the entries below the folder, each once, folder
    by folder and each folder before what is in it, over as many pages as the
    folders have.  It stops at the first error of the function or of a listing
    and answers it.  A listing that is answered with a status other than 200 is
    no error: it ends its folder, whose further entries are left out, and the
    walk goes on behind that folder. *)
Theorem WalkWeedDir_spec n fuel dir w : fst (st w) = f -> bottom n f dir = true -> (weight n dir <= fuel)%nat ->
  let '(err, t) := visits wf (below n f dir) (snd (st w)) in
  exists w', WalkWeedDir fuel dir wf w = (Ok (outcome_of err), w') /\ st w' = (f, t).
Proof.
  intros Hf Hb Hfuel. destruct n as [|n]; [done|]. cbn [weight] in Hfuel.
  pose proof (walk_sees (S n) dir Hb fuel None (children f dir) [] eq_refl eq_refl (or_introl eq_refl)) as Hs. cbn [pred] in Hs.
  destruct (Hs ltac:(lia) w Hf) as (w' & E & Es). cbn [below].
  destruct (visits wf _ _) as [err t]. by exists w'.
Qed.
End Walk.
(** Where every listing is answered the walk sees the whole tree. *)
Fixpoint tree (n : nat) (f : F) (dir : string) : list Event :=
  match n with O => [] | S n' => List.concat (map (visit_of (fun e => tree n' f e.(FullPath)) dir) (children f dir)) end.
Lemma seen_in_all f dir under l : (forall d last, answers f d last = Page) -> forall k last, seen_in f dir under k last l = List.concat (map (visit_of under dir) l).
Proof.
  intros Ha. induction l as [|e l IH]; intros k last; cbn [seen_in map List.concat]; rewrite ?Ha; [done|]. destruct k; by rewrite IH.
Qed.
Lemma below_all f n : (forall d last, answers f d last = Page) -> forall dir, below n f dir = tree n f dir.
Proof.
  intros Ha. induction n as [|n IH]; intros dir; [done|]. cbn [below tree]. rewrite seen_in_all by done. f_equal. apply map_ext. intros e. unfold visit_of. by rewrite IH.
Qed.
(** A folder that the filer does not answer with 200 looks empty. *)
Lemma walk_refused (wf : WalkWeedFunc) fuel dir data code w : (forall n, no_fault_from n) -> filer_Get dir 500 None (fst (st w)) = Ok (data, code) -> code <> 200 ->
  WalkWeedDir (S fuel) dir wf w = (Ok Done, mkWorld (S (calls w)) (st w)).
Proof.
  intros Hnf Eg Hc. unfold WalkWeedDir. cbn [walk_from]. rewrite gbind_eq. unfold gtry, ListWeedDirFiles. rewrite gbind_eq. unfold ask.
  rewrite gextr_ok by (apply (Hnf 0%nat); lia). cbn [str_eqb]. change (str_eqb "" "") with true. cbn [fst snd]. rewrite Eg. cbn [fst snd].
  rewrite (proj2 (Z.eqb_neq _ _) Hc). cbn. by destruct w as [c [g t]].
Qed.
End Filer.

(** * [src/storage/v2/weedfs/filer.go]: the same text in the second package *)
Module V2Weed.
Definition WeedFileChunk : Type := WeedFileChunk.
Definition WeedFileEntry : Type := WeedFileEntry.
Definition WeedFileListResponse : Type := WeedFileListResponse.
Definition WalkWeedDir `{Env} {F T : Type} (filer_Get : string -> Z -> option string -> F -> Res (string * Z)) (fuel : nat) (rootDir : string) (wf : @WalkWeedFunc T) :
    M (F * T) Outcome := WalkWeedDir filer_Get fuel rootDir wf.
Definition ListWeedDirFiles `{Env} {F T : Type} (filer_Get : string -> Z -> option string -> F -> Res (string * Z)) (rootDir lastFilename : string) :
    M (F * T) (list (option WeedFileEntry)) := ListWeedDirFiles filer_Get rootDir lastFilename.
Definition ExistsFile `{Env} {F T : Type} (http_Head : string -> F -> Res Z) (filerurl filename : string) : M (F * T) bool := ExistsFile http_Head filerurl filename.
End V2Weed.

(** * At work *)
Definition folder_bit : Z := 2147483648.
Definition weed_demo : unit -> string -> list WeedFileEntry := fun _ dir =>
  if str_eqb dir "/a" then [mkWeed "/a/1.txt" 432 "text/plain" "" 3 [mkChunk "3,01" 3]; mkWeed "/a/d" (folder_bit + 493) "" "" 0 [];
                            mkWeed "/a/e" (folder_bit + 493) "" "" 0 []; mkWeed "/a/z" 432 "" "" 0 []]
  else if str_eqb dir "/a/d" then [mkWeed "/a/d/2.txt" 432 "" "" 7 []] else if str_eqb dir "/a/e" then [mkWeed "/a/e/3.txt" 432 "" "" 7 []] else [].
Definition entry_json (e : WeedFileEntry) : json :=
  JObj [("FullPath", JStr e.(FullPath)); ("Mode", JNum (fmt_d e.(Mode))); ("Mime", JStr e.(Mime)); ("Md5", JStr e.(Md5)); ("FileSize", JNum (fmt_d e.(FileSize)));
        ("chunks", match e.(Chunks) with [] => JNull | l => JArr (map (fun c => JObj [("file_id", JStr c.(FileID)); ("size", JNum (fmt_d c.(ChunkSize)))]) l) end)].
Definition page_json (dir : string) (l : list WeedFileEntry) : string := print_s (JObj [("Path", JStr "/"); ("Entries", JArr (map entry_json l)); ("Limit", JNum "500")]).
(** A filer that refuses the folder [/a/e] and answers the listings behind
    [broken] with no JSON; behind a name that is not there it starts with the
    first name that follows it. *)
Definition weed_answers (broken : string) : unit -> string -> option string -> Answer := fun _ dir last =>
  if str_eqb dir "/a/e" then Status else match last with Some name => if str_eqb name broken then Fails syntax_error else Page | None => Page end.
Definition weed_rest (last : option string) (l : list WeedFileEntry) : list WeedFileEntry :=
  match last with None => l | Some name => List.filter (fun e => match String.compare name (name_of e) with Lt => true | _ => false end) l end.
Definition weed_get (broken : string) (dir : string) (limit : Z) (last : option string) (f : unit) : Res (string * Z) :=
  match weed_answers broken f dir last with
  | Page => Ok (page_json dir (firstn (Z.to_nat limit) (weed_rest last (weed_demo f dir))), 200)
  | Status => Ok ("", 404)
  | Fails _ => Ok ("<html>", 200)
  end.
Lemma weed_pages broken : pages (weed_get broken) weed_demo (weed_answers broken) tt.
Proof.
  intros dir last Hl. unfold weed_get. destruct (weed_answers broken tt dir last) as [| |e] eqn:Ea.
  - exists (page_json dir (firstn 500 (rest_of last (weed_demo tt dir)))), "/". revert Hl. unfold start, weed_demo.
    destruct (str_eqb dir "/a"); [|destruct (str_eqb dir "/a/d"); [|destruct (str_eqb dir "/a/e")]];
      (intros [->|(e & He & ->)]; [split; vm_compute; reflexivity|]; cbn [In] in He; repeat destruct He as [<-|He]; try done; split; vm_compute; reflexivity).
  - by exists "", 404.
  - right. exists "<html>". split; [done|]. unfold weed_answers in Ea. destruct (str_eqb dir _); [done|]. destruct last as [name|]; [|done].
    destruct (str_eqb name broken); [|done]. injection Ea as <-. vm_compute. reflexivity.
Qed.
Lemma weed_named : named weed_demo tt.
Proof.
  intros dir. unfold weed_demo. destruct (str_eqb dir "/a"); [|destruct (str_eqb dir "/a/d"); [|destruct (str_eqb dir "/a/e")]];
    (split; [apply (bool_decide_unpack _); vm_compute; exact I|repeat constructor]).
Qed.
(** A callback that collects the paths, and one that fails at a folder. *)
Definition collect : @WalkWeedFunc (list string) := fun _ ent t => (None, match ent with Some e => (t ++ [e.(FullPath)])%list | None => t end).
Definition no_folders : @WalkWeedFunc (list string) := fun _ ent t =>
  match ent with Some e => if IsDir e.(Mode) then (Some (ErrNew "folder"), t) else (None, (t ++ [e.(FullPath)])%list) | None => (None, t) end.
Definition weed_walk (broken : string) (wf : @WalkWeedFunc (list string)) (fuel : nat) :=
  WalkWeedDir (H := quietEnv) (T := list string) (weed_get broken) fuel "/a" wf (mkWorld 0 (tt, [])).
(** The refused folder [/a/e] is passed over in silence; a listing that breaks
    ends the walk with its error. *)
Lemma WalkWeedDir_spec_witness :
  (exists w', weed_walk "" collect 20 = (Ok Done, w') /\ st w' = (tt, ["/a/1.txt"; "/a/d"; "/a/d/2.txt"; "/a/e"; "/a/z"])) /\
  (exists w', weed_walk "2.txt" collect 20 = (Ok (Failed syntax_error), w') /\ st w' = (tt, ["/a/1.txt"; "/a/d"; "/a/d/2.txt"])).
Proof.
  split.
  - apply (WalkWeedDir_spec (H := quietEnv) (weed_get "") weed_demo (weed_answers "") quietEnv_ok tt collect (weed_pages "") weed_named 2 20 "/a" (mkWorld 0 (tt, []))).
    + reflexivity.
    + reflexivity.
    + apply (bool_decide_unpack _). vm_compute. exact I.
  - apply (WalkWeedDir_spec (H := quietEnv) (weed_get "2.txt") weed_demo (weed_answers "2.txt") quietEnv_ok tt collect (weed_pages "2.txt") weed_named 2 20 "/a" (mkWorld 0 (tt, []))).
    + reflexivity.
    + reflexivity.
    + apply (bool_decide_unpack _). vm_compute. exact I.
Defined.
Example stopped : (fst (weed_walk "" no_folders 20), snd (st (snd (weed_walk "" no_folders 20)))) = (Ok (Failed (ErrNew "folder")), ["/a/1.txt"]).
Proof. vm_compute. reflexivity. Qed.
