(* ===== verification/I18n.v ===== *)
(** [src/i18n]: the supported languages and their localizers, the matching of a
    request's languages, and translation with the message's id as the fallback.

    A language tag is its text.  The matching of languages, the parsing of
    message files and the templates are vendored packages and parameters. *)
From S2P Require Import Prelude.
#[local] Open Scope string_scope.
#[local] Open Scope Z_scope.

(** [golang.org/x/text/language] and [go-i18n]. *)
Class I18nLib : Type := {
  ParseAcceptLanguage : string -> Res (list string);
  (* the index of the best match among the supported; None: no confidence *)
  Match : list string -> list string -> option nat;
  (* a message file of a bundle, by its path: its messages *)
  MessageFile : Type;
  ParseMessageFile : string -> string -> Res MessageFile;
  (* a message of the bundle's files in a language, its template executed *)
  Localize : list MessageFile -> string -> string -> string -> list (string * string) -> Res string;
}.
Definition Und : string := "und".
Definition sysDefaultLanguage : string := "zh-Hans".

Section I18n.
Context `{I18nLib}.

Record I18nConfig : Type := mkI18nConfig { SupportedLanguages : list string; DefaultLanguage : string }.
Definition DefaultConfig : I18nConfig := mkI18nConfig ["zh-Hans"] "zh-Hans".
(** The package's variables; all localizers share the bundle, whose default
    language is kept with it. *)
Record I18n : Type := mkI18n { cfg : I18nConfig; bundle : string * list MessageFile; localizers : gmap string string }.
Definition uninitialised : I18n := mkI18n (mkI18nConfig [] Und) (Und, []) ∅.

Definition matchLanguageFromSupported (acceptLanguage : string) (supported : list string) : string :=
  match supported with
  | [] => Und
  | first :: _ =>
      if str_eqb acceptLanguage "" then first
      else match ParseAcceptLanguage acceptLanguage with
           | Err _ => first
           | Ok userPrefs => match Match supported userPrefs with
                             | None => first
                             | Some index => nth index supported first
                             end
           end
  end.
Definition MatchLanguage (st : I18n) (acceptLanguage : string) : string :=
  let m := matchLanguageFromSupported acceptLanguage st.(cfg).(SupportedLanguages) in
  if str_eqb m Und then st.(cfg).(DefaultLanguage) else m.
(** A nil localizer is [None]. *)
Definition NewLocalizer (st : I18n) (lang : string) : option string :=
  match st.(localizers) !! lang with Some l => Some l | None => st.(localizers) !! st.(cfg).(DefaultLanguage) end.

Fixpoint load (ReadFile : string -> Res string) (langs : list string) (st : I18n) : Panics I18n :=
  match langs with
  | [] => Val st
  | lang :: langs' =>
      let fPath := lang ++ ".yaml" in
      match ReadFile fPath with
      | Err e => Panic (Error e)
      | Ok data =>
          match ParseMessageFile fPath data with
          | Err e => Panic (Error e)
          | Ok f => load ReadFile langs' (mkI18n st.(cfg) (fst st.(bundle), snd st.(bundle) ++ [f])%list (<[lang := lang]> st.(localizers)))
          end
      end
  end.
Definition Init (i18nCfg : I18nConfig) (ReadFile : string -> Res string) (st : I18n) : Panics I18n :=
  let defaultLang := matchLanguageFromSupported i18nCfg.(DefaultLanguage) i18nCfg.(SupportedLanguages) in
  let c := mkI18nConfig i18nCfg.(SupportedLanguages) (if str_eqb defaultLang Und then sysDefaultLanguage else defaultLang) in
  load ReadFile c.(SupportedLanguages) (mkI18n c (c.(DefaultLanguage), []) st.(localizers)).

Definition TWithData (st : I18n) (lang messageID : string) (templateData : list (string * string)) : string :=
  match NewLocalizer st (MatchLanguage st lang) with
  | None => messageID
  | Some l => match Localize (snd st.(bundle)) (fst st.(bundle)) l messageID templateData with
              | Err _ => messageID
              | Ok msg => msg
              end
  end.
Definition T (st : I18n) (lang messageID : string) : string := TWithData st lang messageID [].

(** * Facts *)
Lemma load_localizers ReadFile langs st st' :
  load ReadFile langs st = Val st' ->
  st'.(cfg) = st.(cfg) /\ (forall l, l ∈ langs -> st'.(localizers) !! l = Some l) /\
  (forall l, l ∉ langs -> st'.(localizers) !! l = st.(localizers) !! l).
Proof.
  revert st. induction langs as [|lang langs IH]; intros st; cbn [load]; [intros [= <-]; set_solver|].
  destruct (ReadFile _) as [data|]; [|done]. destruct (ParseMessageFile _ data) as [f|]; [|done]. intros Hl.
  destruct (IH _ Hl) as (H1 & H2 & H3). cbn [cfg localizers] in *. split; [done|]. split.
  - intros l [->|Hin]%elem_of_cons; [|by apply H2]. destruct (decide (lang ∈ langs)) as [Hin|Hn]; [by apply H2|].
    rewrite H3 by done. by rewrite lookup_insert_eq.
  - intros l Hn. rewrite H3 by set_solver. rewrite lookup_insert_ne by set_solver. done.
Qed.
Lemma match_supported a s : s <> [] -> matchLanguageFromSupported a s ∈ s.
Proof.
  destruct s as [|x s]; [done|]. intros _. unfold matchLanguageFromSupported.
  destruct (str_eqb a ""); [left|]. destruct (ParseAcceptLanguage a); [|left]. destruct (Match _ _) as [i|]; [|left].
  destruct (decide (i < length (x :: s))%nat) as [Hi|Hi]; [apply list_elem_of_In; by apply nth_In|rewrite nth_overflow by lia; left].
Qed.

(** Languages: after a successful [Init] with supported languages, whatever
    the client asks for is answered in one of the supported languages, by a
    localizer that exists. *)
Theorem Init_localizes i18nCfg ReadFile st st' acceptLanguage :
  Init i18nCfg ReadFile st = Val st' -> i18nCfg.(SupportedLanguages) <> [] -> Und ∉ i18nCfg.(SupportedLanguages) ->
  MatchLanguage st' acceptLanguage ∈ i18nCfg.(SupportedLanguages) /\
  NewLocalizer st' (MatchLanguage st' acceptLanguage) = Some (MatchLanguage st' acceptLanguage).
Proof.
  intros Hi Hne Hu. destruct (load_localizers _ _ _ _ Hi) as (H1 & H2 & _). cbn [cfg SupportedLanguages] in *.
  assert (Hm : MatchLanguage st' acceptLanguage ∈ i18nCfg.(SupportedLanguages)).
  { unfold MatchLanguage. rewrite H1. cbn [SupportedLanguages]. pose proof (match_supported acceptLanguage _ Hne) as Hin.
    destruct (str_eqb (matchLanguageFromSupported acceptLanguage _) Und) eqn:E; [|done]. apply String.eqb_eq in E. rewrite E in Hin. done. }
  split; [done|]. unfold NewLocalizer. by rewrite (H2 _ Hm).
Qed.

(** The language of the configuration is not the one a client gets whose
    languages match none: that is the first supported one. *)
Lemma no_match_first i18nCfg ReadFile st st' a prefs x s :
  Init i18nCfg ReadFile st = Val st' -> i18nCfg.(SupportedLanguages) = x :: s -> x <> Und -> a <> "" ->
  ParseAcceptLanguage a = Ok prefs -> Match (x :: s) prefs = None -> MatchLanguage st' a = x.
Proof.
  intros Hi Hs Hx Ha Hp Hm. destruct (load_localizers _ _ _ _ Hi) as (H1 & _ & _). unfold MatchLanguage. rewrite H1. cbn [cfg SupportedLanguages]. rewrite Hs.
  unfold matchLanguageFromSupported, str_eqb. rewrite (proj2 (String.eqb_neq _ _) Ha), Hp, Hm. by rewrite (proj2 (String.eqb_neq _ _) Hx).
Qed.
End I18n.

(** A library with two languages, a message per line number. *)
Definition demoLib : I18nLib := {|
  ParseAcceptLanguage s := if str_eqb s "??" then Err (ErrNew "bad") else Ok [s];
  Match sup prefs := match prefs with
                     | [p] => (fix at_ n l := match l with [] => None | x :: l' => if str_eqb x p then Some n else at_ (S n) l' end) O sup
                     | _ => None
                     end;
  MessageFile := string * string;
  ParseMessageFile p d := Ok (p, d);
  Localize fs _ lang id _ := match List.find (fun f => str_eqb (fst f) (lang ++ ".yaml")) fs with
                             | Some (_, d) => if str_eqb id "hello" then Ok d else Err (ErrNew "message not found")
                             | None => Err (ErrNew "message not found")
                             end;
|}.
Definition demoFiles (p : string) : Res string := if str_eqb p "en.yaml" then Ok "Hello" else if str_eqb p "zh-Hans.yaml" then Ok "你好" else Err (ErrNew "no file").
Definition demoI18n : @I18n demoLib := match @Init demoLib (mkI18nConfig ["en"; "zh-Hans"] "zh-Hans") demoFiles (@uninitialised demoLib) with Val s => s | Panic _ => @uninitialised demoLib end.
Example i18n_zh : @T demoLib demoI18n "zh-Hans" "hello" = "你好".
Proof. vm_compute. reflexivity. Qed.
Example i18n_fr : @T demoLib demoI18n "fr" "hello" = "Hello".
Proof. vm_compute. reflexivity. Qed.
Example i18n_missing : @T demoLib demoI18n "en" "bye" = "bye".
Proof. vm_compute. reflexivity. Qed.
Lemma Init_localizes_witness : @NewLocalizer demoLib demoI18n (@MatchLanguage demoLib demoI18n "fr") = Some "en".
Proof.
  destruct (@Init_localizes demoLib (mkI18nConfig ["en"; "zh-Hans"] "zh-Hans") demoFiles (@uninitialised demoLib) demoI18n "fr") as [_ H].
  - vm_compute. reflexivity.
  - discriminate.
  - apply (bool_decide_eq_true_1 _). vm_compute. reflexivity.
  - rewrite H. vm_compute. reflexivity.
Defined.
