(* ===== verification/Http.v ===== *)
(** The HTTP runtime: [src/apis/runtime] with its middleware and its server.
    First the handler chain of gin (vendored): the context of a request, [Next]
    and [Abort]; then the login status and the middlewares, the router and the
    wrapping of API functions.

    A handler is given what [ctx.Next] does and the context, and ends or
    panics.  Logging and metrics are output and left out. *)
From S2P Require Import Prelude Strings Json.
#[local] Open Scope string_scope.
#[local] Open Scope Z_scope.

(** * Login status: [auth/claims.go], [auth/login_status.go] *)
Record UserClaims : Type := mkClaims {
  claim_Uin : Z; IssuedAt : Z; ExpiresAt : Z; claim_Issuer : string; Audience : string; LoginWay : Z
}.
Definition zeroClaims : UserClaims := mkClaims 0 0 0 "" "" 0.
(** [now] in seconds; the later test names the error. *)
Definition Valid (now : Z) (c : UserClaims) : option error :=
  if c.(ExpiresAt) <? now then Some (ErrNew "token is expired")
  else if now <? c.(IssuedAt) then Some (ErrNew "token used before issued")
  else None.

Definition AuthBearer : string := "Bearer ".
Definition AuthAPIKeyPrefix : string := "yg-".
Definition StateNil : Z := 0.
Definition StateSucc : Z := 1.
Definition StateFailed : Z := 2.
Definition RoleNil : Z := 0.
Definition RoleUser : Z := 1.
Definition RoleEmployee : Z := 2.
Definition RoleAPI : Z := 3.
Record LoginStatus : Type := mkLogin {
  Token : string; Claim : option UserClaims; Issuer : string; login_Err : option error; Role : Z; State : Z; idmap : gmap string Z
}.
Definition newLogin : LoginStatus := mkLogin "" None "" None RoleNil StateNil ∅.
Definition SetID (idname : string) (id : Z) (ls : LoginStatus) : LoginStatus :=
  mkLogin ls.(Token) ls.(Claim) ls.(Issuer) ls.(login_Err) ls.(Role) ls.(State) (<[idname := id]> ls.(idmap)).
Definition GetID (ls : LoginStatus) (idname : string) : Z := default 0 (ls.(idmap) !! idname).
Definition set_outcome (err : option error) (state : Z) (ls : LoginStatus) : LoginStatus :=
  mkLogin ls.(Token) ls.(Claim) ls.(Issuer) err ls.(Role) state ls.(idmap).

(** * The context of a request *)
Inductive Value : Type := VStr (s : string) | VInt (z : Z) | VLogin (ls : LoginStatus).
(** The request, the keys, the position in the chain, and the answer: [None]
    while nothing is written.  The login status is a pointer: there is one, and
    it lives under its key. *)
Record Ctx : Type := mkCtx {
  path : string; headers : gmap string string; reqbody : string;
  keys : gmap string Value; index : Z; status : Z; answer : option (list json); respHeaders : gmap string string
}.
Definition set_key (k : string) (v : Value) (c : Ctx) : Ctx :=
  mkCtx c.(path) c.(headers) c.(reqbody) (<[k := v]> c.(keys)) c.(index) c.(status) c.(answer) c.(respHeaders).
Definition set_index (i : Z) (c : Ctx) : Ctx :=
  mkCtx c.(path) c.(headers) c.(reqbody) c.(keys) i c.(status) c.(answer) c.(respHeaders).
Definition set_resp_header (k v : string) (c : Ctx) : Ctx :=
  mkCtx c.(path) c.(headers) c.(reqbody) c.(keys) c.(index) c.(status) c.(answer) (<[k := v]> c.(respHeaders)).
Definition header (c : Ctx) (k : string) : string := default "" (c.(headers) !! k).
Definition GetString (c : Ctx) (k : string) : string := match c.(keys) !! k with Some (VStr s) => s | _ => "" end.
(** A status cannot change once something is written. *)
Definition WriteHeader (code : Z) (c : Ctx) : Ctx :=
  match c.(answer) with
  | Some _ => c
  | None => mkCtx c.(path) c.(headers) c.(reqbody) c.(keys) c.(index) (if 0 <? code then code else c.(status)) None c.(respHeaders)
  end.
Definition Write (j : json) (c : Ctx) : Ctx :=
  mkCtx c.(path) c.(headers) c.(reqbody) c.(keys) c.(index) c.(status) (Some (default [] c.(answer) ++ [j])%list) c.(respHeaders).
Definition JSON (code : Z) (j : json) (c : Ctx) : Ctx := Write j (WriteHeader code c).

Definition wrap_i8 (z : Z) : Z := (z + 128) mod 256 - 128.
Definition abortIndex : Z := 63.
Definition Abort (c : Ctx) : Ctx := set_index abortIndex c.
Definition IsAborted (c : Ctx) : bool := abortIndex <=? c.(index).
Definition AbortWithStatusJSON (code : Z) (j : json) (c : Ctx) : Ctx := JSON code j (Abort c).

(** How running a handler ends; [Stuck]: the fuel of the model is used up. *)
Inductive Out : Type := Done (c : Ctx) | Panicked (v : string) (c : Ctx) | Stuck.
Definition obind (o : Out) (k : Ctx -> Out) : Out := match o with Done c => k c | o => o end.
Definition Handler : Type := (Ctx -> Out) -> Ctx -> Out.
Definition bump (c : Ctx) : Ctx := set_index (wrap_i8 (c.(index) + 1)) c.
(** The loop of [Next] once the index is advanced. *)
Fixpoint loop (fuel : nat) (hs : list Handler) (c : Ctx) : Out :=
  match fuel with
  | O => Stuck
  | S fuel' =>
      if c.(index) <? Z.of_nat (length hs)
      then match (if c.(index) <? 0 then None else nth_error hs (Z.to_nat c.(index))) with
           | Some h => obind (h (fun c => loop fuel' hs (bump c)) c) (fun c => loop fuel' hs (bump c))
           | None => Panicked "index out of range" c
           end
      else Done c
  end.
Definition Next (fuel : nat) (hs : list Handler) (c : Ctx) : Out := loop fuel hs (bump c).
(** A request starts in front of the first handler with status 200. *)
Definition newCtx (p : string) (h : gmap string string) (body : string) : Ctx := mkCtx p h body ∅ (-1) 200 None ∅.
Definition serve (hs : list Handler) (c : Ctx) : Out := Next (S (S (length hs))) hs c.

(** * [runtime/context.go], [runtime/context_biz.go], [runtime/error.go] *)
Definition CtxKeyRequestID : string := "reqid".
Definition CtxKeyCode : string := "code".
Definition CtxKeyLoginStatus : string := "loginstatus".
Definition CtxKeyUin : string := "uin".
Definition CtxKeyLang : string := "lang".
Definition CtxKeyCompanyID : string := "companyid".
Definition CtxKeyEmployeeID : string := "employeeid".
(** [ctx.MustGet(...).( *auth.LoginStatus)]: [None] panics. *)
Definition loginStatus (c : Ctx) : option LoginStatus :=
  match c.(keys) !! CtxKeyLoginStatus with Some (VLogin ls) => Some ls | _ => None end.
Definition no_login : string := "Key " ++ String "034" ("loginstatus" ++ String "034" " does not exist").
Definition RequestID (c : Ctx) : option string := match c.(keys) !! CtxKeyRequestID with Some (VStr s) => Some s | _ => None end.
Definition GetLanguage (c : Ctx) : string := GetString c CtxKeyLang.
Definition CompanyID (c : Ctx) : option Z := ls ← loginStatus c; Some (GetID ls CtxKeyCompanyID).
Definition EmployeeID (c : Ctx) : option Z := ls ← loginStatus c; Some (GetID ls CtxKeyEmployeeID).
Definition Uin (c : Ctx) : option Z := ls ← loginStatus c; Some (GetID ls CtxKeyUin).
Definition GetRealIP (remoteAddr : string) (c : Ctx) : string :=
  if negb (str_eqb (header c "X-Real-Ip") "") then header c "X-Real-Ip"
  else if negb (str_eqb (header c "X-Forwarded-For") "") then header c "X-Forwarded-For"
  else remoteAddr.

Definition base_json (code : Z) (msg : string) : json := JObj (("code", JNum (fmt_d code)) :: omit_str "message" msg).
Definition ResponseMessage (msgCode : Z) (msg : string) (c : Ctx) : Ctx := Abort (Write (base_json msgCode msg) c).
Definition Success (msg : string) (c : Ctx) : Ctx := ResponseMessage 0 msg (WriteHeader 200 c).
Definition BadRequest (msg : string) (c : Ctx) : Ctx := ResponseMessage 400 msg (WriteHeader 400 c).
Definition InternalError (msg : string) (c : Ctx) : Ctx := ResponseMessage 500 msg (WriteHeader 500 c).

(** * Middlewares *)
Section Middleware.
(** What the process knows: [config.Conf().MainConf.Env], the time in
    microseconds, a fresh request id, the secret of an issuer from the settings,
    and the parsing of a token: its claims and the check of its signature with a
    key (the vendored jwt package). *)
Context (env : string) (now_micro : Z) (new_id : string).
Context (GetJwtSecret : string -> Res string) (ParseUnverified : string -> Res (UserClaims * (string -> option error))).

(** [middleware/env.go], [middleware/request_id.go], [middleware/i18nmd.go]. *)
Definition CustomerHeader : Handler := fun _ c =>
  Done (if str_eqb env "" then c
        else let reqID := header c "X-Request-Id" in
             set_resp_header "Env" env (set_key CtxKeyRequestID (VStr (if str_eqb reqID "" then new_id else reqID)) c)).
Definition GenerateRequestID : Handler := fun _ c =>
  let reqID := header c "X-Request-Id" in
  Done (set_key CtxKeyRequestID (VStr (if str_eqb reqID "" then new_id else reqID)) c).
Definition AcceptLanguage : Handler := fun _ c => Done (set_key CtxKeyLang (VStr (header c "Accept-Language")) c).

(** The place of [middleware/logger.go] in the chain: the handler with its entry
    and its observation is [HttpLog.Logger], which gives the same answer. *)
Definition Logger : Handler := fun next c => next c.

(** [middleware/recovery.go]; [broken] says that the panic is a broken
    connection. *)
Definition Recovery (broken : string -> bool) : Handler := fun next c =>
  match next c with
  | Panicked v c' => Done (if broken v then Abort c' else InternalError "网络错误，请稍后重试" c')
  | o => o
  end.

(** [middleware/login_status.go]. *)
Definition ParseWithClaims (token : string) : Res UserClaims :=
  match ParseUnverified token with
  | Err e => Err e
  | Ok (claims, verify) =>
      match GetJwtSecret claims.(claim_Issuer) with
      | Err e => Err e
      | Ok key => match verify key, Valid (now_micro / 1000000) claims with
                  | Some e, _ | None, Some e => Err e
                  | None, None => Ok claims
                  end
      end
  end.
Definition login_of (authstr : string) : LoginStatus :=
  if str_eqb authstr "" then newLogin
  else let token := TrimSpace (trim_prefix AuthBearer authstr) in
       if has_prefix AuthAPIKeyPrefix token then mkLogin token (Some zeroClaims) "" None RoleAPI StateSucc ∅
       else match ParseWithClaims token with
            | Err e => mkLogin token None "" (Some e) RoleNil StateFailed ∅
            | Ok claims => mkLogin token (Some claims) claims.(claim_Issuer) None RoleNil StateSucc ∅
            end.
Definition with_login (ls : LoginStatus) (c : Ctx) : Ctx :=
  let c := set_key CtxKeyLoginStatus (VLogin ls) c in
  match ls.(Claim) with
  | Some cl => if 0 <? cl.(claim_Uin) then set_key CtxKeyUin (VInt cl.(claim_Uin)) c else c
  | None => c
  end.
Definition LoginStatus_ : Handler := fun _ c => Done (with_login (login_of (header c "Authorization")) c).

(** [middleware/auth.go]. *)
Definition unauthorized : json := JObj [("code", JNum "401"); ("message", JStr "unauthorized")].
Definition AuthMiddleWare : Handler := fun next c =>
  match loginStatus c with
  | None => Panicked no_login c
  | Some ls => if negb (ls.(State) =? StateSucc) then Done (AbortWithStatusJSON 200 unauthorized c) else next c
  end.
Definition AuthMiddleWareEmployee : Handler := fun next c =>
  match loginStatus c with
  | None => Panicked no_login c
  | Some ls => if negb (ls.(State) =? StateSucc) || negb (ls.(Role) =? RoleEmployee)
               then Done (AbortWithStatusJSON 200 unauthorized c) else next c
  end.

(** [middleware/license.go]: [license] is the setting. *)
Definition refused (msg : string) (c : Ctx) : Out :=
  Done (AbortWithStatusJSON 200 (JObj [("code", JNum "400"); ("message", JStr msg)]) c).
Definition LicenseCheck (license : Res string) (whitelist : list string) : Handler := fun next c =>
  if existsb (str_contains c.(path)) whitelist then next c
  else match license with
       | Err _ => refused "license auth failed" c
       | Ok s => if str_eqb s "" then refused "license is not found" c
                 else match ParseInt s with
                      | None => refused "invalid license" c
                      | Some t => if t <? now_micro then refused "license expired" c else next c
                      end
       end.

(** * [server/author.go]
    An injector may change the login status, and anything else, in the context. *)
Definition InjectorFunc : Type := Ctx -> LoginStatus -> LoginStatus * Ctx * option error.
Record authInjectors : Type := mkInjectors { injectors : gmap string InjectorFunc; defaultInjector : option InjectorFunc }.
Definition AuthInject (issuer : string) (f : InjectorFunc) (ai : authInjectors) : authInjectors :=
  mkInjectors (<[issuer := f]> ai.(injectors)) (if str_eqb issuer "" then Some f else ai.(defaultInjector)).
Definition Default (f : InjectorFunc) (ai : authInjectors) : authInjectors := mkInjectors ai.(injectors) (Some f).
Definition injector_of (ai : authInjectors) (issuer : string) : option InjectorFunc :=
  match ai.(injectors) !! issuer with Some f => Some f | None => ai.(defaultInjector) end.
Definition Inject (ai : authInjectors) : Handler := fun _ c =>
  match loginStatus c with
  | None => Panicked no_login c
  | Some ls =>
      if negb (ls.(State) =? StateSucc) then Done c
      else match ls.(Claim) with
           | None => Panicked "nil pointer dereference" c
           | Some cl =>
               let '(ls, c, err) := match injector_of ai cl.(claim_Issuer) with
                                    | Some f => f c ls
                                    | None => (ls, c, ls.(login_Err))
                                    end in
               let ls := set_outcome err (match err with Some _ => StateFailed | None => ls.(State) end) ls in
               Done (set_key CtxKeyLoginStatus (VLogin ls) c)
           end
  end.
End Middleware.

(** * Facts about the chain *)
Lemma wrap_i8_small z : -128 <= z < 128 -> wrap_i8 z = z.
Proof. intros H. unfold wrap_i8. rewrite Z.mod_small; lia. Qed.

(** The handler at the context's place. *)
Lemma loop_at fuel hs h c i :
  nth_error hs i = Some h -> c.(index) = Z.of_nat i ->
  loop (S fuel) hs c = obind (h (fun c => loop fuel hs (bump c)) c) (fun c => loop fuel hs (bump c)).
Proof.
  intros Hh Hi. assert (Hl : (i < length hs)%nat) by (apply nth_error_Some; congruence).
  cbn [loop]. rewrite Hi, (proj2 (Z.ltb_lt _ _)) by lia. rewrite (proj2 (Z.ltb_ge _ 0)) by lia.
  by rewrite Nat2Z.id, Hh.
Qed.

(** Past the last handler the loop ends. *)
Lemma loop_end fuel hs c : Z.of_nat (length hs) <= c.(index) -> loop (S fuel) hs c = Done c.
Proof. intros H. cbn [loop]. by rewrite (proj2 (Z.ltb_ge _ _)) by lia. Qed.

Lemma index_bump c : -128 <= c.(index) < 127 -> (bump c).(index) = c.(index) + 1.
Proof. intros H. unfold bump. cbn [set_index index]. apply wrap_i8_small. lia. Qed.

Lemma loop_bump_end fuel hs c :
  Z.of_nat (length hs) <= c.(index) + 1 -> -128 <= c.(index) < 127 -> loop (S fuel) hs (bump c) = Done (bump c).
Proof. intros H H'. apply loop_end. rewrite index_bump; lia. Qed.

(** A handler that only changes the context and stays at its place. *)
Definition Plain (f : Ctx -> Ctx) (h : Handler) : Prop :=
  forall next c, h next c = Done (f c) /\ (f c).(index) = c.(index).

Lemma loop_plain fuel hs h f c i :
  Plain f h -> nth_error hs i = Some h -> c.(index) = Z.of_nat i -> loop (S fuel) hs c = loop fuel hs (bump (f c)).
Proof. intros Hf Hh Hi. erewrite loop_at by done. by rewrite (proj1 (Hf _ c)). Qed.

(** What the client gets: the status and the bodies. *)
Definition reply (o : Out) : option (Z * option (list json)) :=
  match o with Done c => Some (c.(status), c.(answer)) | _ => None end.
Lemma reply_bump c : reply (Done (bump c)) = reply (Done c).
Proof. done. Qed.

(** The end of a loop that is past the last handler: only the position of the
    context moves, and by a few places. *)
Definition ended (n : Z) (c : Ctx) (o : Out) : Prop :=
  exists c', o = Done c' /\ c'.(status) = c.(status) /\ c'.(answer) = c.(answer) /\ c.(index) <= c'.(index) <= c.(index) + n.
Lemma ended_obind fuel hs n c o :
  ended n c o -> 0 <= n -> Z.of_nat (length hs) <= c.(index) + 1 -> -128 <= c.(index) -> c.(index) + n < 127 ->
  ended (n + 1) c (obind o (fun c => loop (S fuel) hs (bump c))).
Proof.
  intros (c' & -> & Hs & Ha & Hi) Hn Hl H1 H2. cbn [obind]. rewrite loop_bump_end by lia.
  exists (bump c'). rewrite index_bump by lia. repeat split; [done..|lia|lia].
Qed.
Lemma ended_reply n c o : ended n c o -> reply o = reply (Done c).
Proof. intros (c' & -> & Hs & Ha & _). cbn. by rewrite Hs, Ha. Qed.

Lemma AuthMiddleWare_refuses next c ls :
  loginStatus c = Some ls -> ls.(State) <> StateSucc -> AuthMiddleWare next c = Done (AbortWithStatusJSON 200 unauthorized c).
Proof. intros Hl Hs. unfold AuthMiddleWare. by rewrite Hl, (proj2 (Z.eqb_neq _ _) Hs). Qed.
Lemma AuthMiddleWare_admits next c ls : loginStatus c = Some ls -> ls.(State) = StateSucc -> AuthMiddleWare next c = next c.
Proof. intros Hl Hs. unfold AuthMiddleWare. by rewrite Hl, Hs. Qed.
Lemma AbortWithStatusJSON_fresh code j c :
  c.(answer) = None -> 0 < code ->
  let X := AbortWithStatusJSON code j c in X.(status) = code /\ X.(answer) = Some [j] /\ X.(index) = abortIndex.
Proof.
  intros Ha Hc. unfold AbortWithStatusJSON, JSON, Write, WriteHeader, Abort, set_index. cbn [answer]. rewrite Ha.
  cbn. by rewrite (proj2 (Z.ltb_lt _ _)).
Qed.
