(* ===== verification/HttpServer.v ===== *)
(** The HTTP server of [src/apis/runtime/server]: the wrapping of API functions
    by reflection (handler.go), the router (server.go), and what a request goes
    through (the chain of [Http]).

    Reflection sees a response as its fields.  CORS is a vendored package: it
    may answer the request itself, and otherwise only adds headers. *)
From S2P Require Import Prelude Strings Json Files I18n Http.
#[local] Open Scope string_scope.
#[local] Open Scope Z_scope.

(** * Responses under reflection *)
(** [apiobj.BaseResponse]. *)
Record BaseResponse : Type := mkBase { Code : Z; Message : string; MessageData : list (string * string); resp_Env : string; resp_RequestID : string }.
Inductive Field : Type :=
| FBase (br : BaseResponse) | FUint (z : Z) | FInt (z : Z) | FText (s : string) | FMap (l : list (string * string))
| FNilPtr | FPtr (f : Field) | FOther.
(** [promoted]: an embedded field; all fields are exported ones. *)
Record StructField : Type := mkField { fieldName : string; promoted : bool; field : Field }.
Inductive Response : Type := RStruct (fields : list StructField) | ROpaque.

(** What [FieldByName] finds under the name of the message: nothing, the field
    with this name, or the one of the only embedded base response. *)
Inductive Found : Type := NotFound | Direct (s : string) | InBase (br : BaseResponse) | WrongType.
Fixpoint field_named (name : string) (fs : list StructField) : option StructField :=
  match fs with [] => None | f :: fs' => if str_eqb f.(fieldName) name then Some f else field_named name fs' end.
Definition base_of (f : StructField) : option BaseResponse :=
  match f.(field) with FBase br | FPtr (FBase br) => if f.(promoted) then Some br else None | _ => None end.
Definition message_field (fs : list StructField) : Found :=
  match field_named "Message" fs with
  | Some f => match f.(field) with FText s => Direct s | _ => WrongType end
  | None => match omap base_of fs with [br] => InBase br | _ => NotFound end
  end.
(** The field [MessageData], its own or the promoted one. *)
Definition message_data (fs : list StructField) : list (string * string) :=
  match field_named "MessageData" fs with
  | Some f => match f.(field) with FMap l => l | _ => [] end
  | None => match omap base_of fs with [br] => br.(MessageData) | _ => [] end
  end.
Definition with_message (s : string) (br : BaseResponse) : BaseResponse :=
  mkBase br.(Code) s br.(MessageData) br.(resp_Env) br.(resp_RequestID).
Definition set_base (f : BaseResponse -> BaseResponse) (x : Field) : Field :=
  match x with FBase br => FBase (f br) | FPtr (FBase br) => FPtr (FBase (f br)) | x => x end.
Definition put_direct (s : string) (x : StructField) : StructField :=
  if str_eqb x.(fieldName) "Message" then mkField x.(fieldName) x.(promoted) (FText s) else x.
Definition put_in_base (s : string) (x : StructField) : StructField :=
  mkField x.(fieldName) x.(promoted) (if x.(promoted) then set_base (with_message s) x.(field) else x.(field)).

(** Reflection panics where the code asks for what is not there. *)
Inductive Reflect (A : Type) : Type := RVal (a : A) | RPanic (v : string).
Arguments RVal {A} a.
Arguments RPanic {A} v.

(** [errcode.GetMessage]. *)
Definition errCodeMap : list (Z * string) :=
  [(10001, "用户名或密码错误"); (10002, "用户状态不正常"); (10003, "用户没有可用资源");
   (10004, "暂不支持手机号找回密码"); (10005, "发送验证码太过频繁"); (10006, "密码太短")].
Definition GetMessage (code : Z) : string :=
  match List.find (fun x => fst x =? code) errCodeMap with Some (_, m) => m | None => "" end.

Section Server.
(** The environment's name and the state of package i18n. *)
Context (env : string) `{Lib : I18nLib} (i18n : I18n).
Definition translate : string -> string -> list (string * string) -> string := TWithData i18n.

(** [translateMessage]: a missing field reads as a text that is not empty, and
    is then set. *)
Definition translateMessage (c : Ctx) (r : Response) : Reflect Response :=
  match r with
  | ROpaque => RVal r
  | RStruct fs =>
      match message_field fs with
      | NotFound => RPanic "reflect: call of reflect.Value.Set on zero Value"
      | WrongType => RPanic "reflect.Set: value of type string is not assignable"
      | Direct s => if str_eqb s "" then RVal r
                    else RVal (RStruct (map (put_direct (translate (GetLanguage c) s (message_data fs))) fs))
      | InBase br => if str_eqb br.(Message) "" then RVal r
                     else RVal (RStruct (map (put_in_base (translate (GetLanguage c) br.(Message) (message_data fs))) fs))
      end
  end.
Definition fixed (c : Ctx) (br : BaseResponse) : BaseResponse :=
  mkBase br.(Code) (if str_eqb br.(Message) "" then GetMessage br.(Code) else br.(Message)) br.(MessageData) env (GetString c CtxKeyRequestID).
(** [fixBaseResponse]: the first field that is a code or a base response. *)
Fixpoint fix_fields (c : Ctx) (fs : list StructField) : Reflect (Ctx * list StructField) :=
  match fs with
  | [] => RVal (c, [])
  | f :: fs' =>
      let x := match f.(field) with FPtr x => x | x => x end in
      match (if str_eqb f.(fieldName) "Code" then match x with FUint z | FInt z => Some z | _ => None end else None) with
      | Some z => RVal (set_key CtxKeyCode (VInt z) c, fs)
      | None =>
          match f.(field), x with
          | FNilPtr, _ => RPanic "reflect: call of reflect.Value.Type on zero Value"
          | _, FBase br => RVal (set_key CtxKeyCode (VInt br.(Code)) c, mkField f.(fieldName) f.(promoted) (set_base (fixed c) f.(field)) :: fs')
          | _, _ => match fix_fields c fs' with RVal (c, r) => RVal (c, f :: r) | RPanic v => RPanic v end
          end
      end
  end.
Definition fixBaseResponse (c : Ctx) (r : Response) : Reflect (Ctx * Response) :=
  match r with
  | ROpaque => RVal (c, r)
  | RStruct fs => match fix_fields c fs with RVal (c, fs) => RVal (c, RStruct fs) | RPanic v => RPanic v end
  end.

(** * API functions *)
(** What a function returns: nothing, a nil, an error, another value. *)
Inductive RetVal : Type := NoResult | NilResult | ErrResult (type : string) (e : error) | OtherResult (type : string).
Inductive CallEnd : Type := Returns (c : Ctx) (out : Response) (ret : RetVal) | Panics_ (v : string) (c : Ctx).
(** A function under reflection: its type, the numbers of its parameters and
    results, whether it takes the context and pointers, the decoding of its
    request, the call, and the JSON of its response. *)
Record ApiFunc : Type := mkApi {
  func_type : string; NumIn : Z; NumOut : Z; takes_pointers : bool; takes_context : bool;
  Request : Type; decode : string -> Res Request; call : Ctx -> Request -> CallEnd; encode : Response -> json
}.
Definition transAPI (hdr : ApiFunc + string) : Handler := fun _ c =>
  match hdr with
  | inr type => Done (BadRequest ("failed hdrType " ++ type) c)
  | inl f =>
      if negb (f.(NumIn) =? 3) then Done (InternalError ("invalid handler params number. " ++ f.(func_type) ++ " " ++ fmt_d f.(NumIn)) c)
      else if 1 <? f.(NumOut) then Done (InternalError ("invalid handler returns number. " ++ f.(func_type) ++ " " ++ fmt_d f.(NumOut)) c)
      else if negb f.(takes_pointers) then Panicked "reflect: Elem of invalid type" c
      else match f.(decode) c.(reqbody) with
           | Err e => Done (BadRequest ("decode request failed, " ++ Error e) c)
           | Ok req =>
               if negb f.(takes_context) then Panicked "reflect: Call using *gin.Context as other type" c
               else match f.(call) c req with
                    | Panics_ v c => Panicked v c
                    | Returns c out ret =>
                        match ret with
                        | OtherResult t => Done (InternalError ("invalid handler returns type: " ++ t) c)
                        | ErrResult t e => Done (InternalError ("handler return error " ++ t ++ " " ++ Error e) c)
                        | NoResult | NilResult =>
                            match translateMessage c out with
                            | RPanic v => Panicked v c
                            | RVal out =>
                                if IsAborted c then Done c
                                else match fixBaseResponse c out with
                                     | RPanic v => Panicked v c
                                     | RVal (c, out) => Done (JSON 200 (f.(encode) out) c)
                                     end
                            end
                        end
                    end
           end
  end.

(** * The router *)
(** What may be registered: functions on the context, on the writer and the
    request, API functions, and values of a type that is no function. *)
Inductive Hdr : Type := HGin (h : Handler) | HHttp (f : Ctx -> Ctx) | HApi (f : ApiFunc) | HValue (type : string).
Definition transHttp (f : Ctx -> Ctx) : Handler := fun _ c => Done (f c).
Definition to_handler (h : Hdr) : Handler :=
  match h with HGin h => h | HHttp f => transHttp f | HApi f => transAPI (inl f) | HValue t => transAPI (inr t) end.

Record Route : Type := mkRoute { route_method : string; route_path : string; route_handlers : list Handler }.
(** A route holds its handlers after those of the engine. *)
Record Router : Type := mkRouter { Prefix : string; prefixes : list string; middlewares : list Handler; routes : list Route }.
Definition PrefixAPIV3 : string := "/v3/".
Definition joinPaths (absolutePath relativePath : string) : string :=
  if str_eqb relativePath "" then absolutePath
  else let final := Join [absolutePath; relativePath] in
       if has_suffix "/" relativePath && negb (has_suffix "/" final) then final ++ "/" else final.
Definition full_path (prefix action : string) : string := joinPaths (joinPaths "/" prefix) action.
Definition same_route (method path : string) (x : Route) : bool :=
  str_eqb x.(route_method) method && str_eqb x.(route_path) path.
(** [gin.Engine.addRoute] refuses a path twice for one method, a chain without
    handlers and one with as many as [abortIndex]. *)
Definition addRoute (method path : string) (hs : list Handler) (r : Router) : Reflect Router :=
  let all := (r.(middlewares) ++ hs)%list in
  if abortIndex <=? Z.of_nat (length all) then RPanic "too many handlers"
  else if negb (has_prefix "/" path) then RPanic "path must begin with '/'"
  else if existsb (same_route method path) r.(routes) then RPanic "handlers are already registered for path"
  else RVal (mkRouter r.(Prefix) r.(prefixes) r.(middlewares) (r.(routes) ++ [mkRoute method path all])).
Fixpoint add_all (l : list (string * string)) (hs : list Handler) (r : Router) : Reflect Router :=
  match l with
  | [] => RVal r
  | (m, p) :: l' => match addRoute m p hs r with RVal r => add_all l' hs r | RPanic v => RPanic v end
  end.
Definition wanted (methods : list string) (action : string) (ps : list string) : list (string * string) :=
  flat_map (fun p => map (fun m => (m, full_path p action)) methods) ps.
Definition register (methods : list string) (action : string) (hdrs : list Hdr) (r : Router) : Reflect Router :=
  add_all (wanted methods action r.(prefixes)) (map to_handler hdrs) r.
Definition anyMethods : list string := ["GET"; "POST"; "PUT"; "PATCH"; "HEAD"; "OPTIONS"; "DELETE"; "CONNECT"; "TRACE"].
Definition Any : string -> list Hdr -> Router -> Reflect Router := register anyMethods.
Definition P : string -> list Hdr -> Router -> Reflect Router := register ["POST"].
Definition G : string -> list Hdr -> Router -> Reflect Router := register ["GET"].
Definition PRequireLogin (action : string) (hdrs : list Hdr) : Router -> Reflect Router := P action (HGin AuthMiddleWare :: hdrs).
Definition PRequireEmployee (action : string) (hdrs : list Hdr) : Router -> Reflect Router := P action (HGin AuthMiddleWareEmployee :: hdrs).
Definition GRequireLogin (action : string) (hdrs : list Hdr) : Router -> Reflect Router := G action (HGin AuthMiddleWare :: hdrs).

(** The options of [NewRouter]; the prefixes of a map, in any order. *)
Inductive RouterOption : Type := WithPrefixes (ps : list string) | WithMiddleware (hs : list Handler).
Definition not_empty (p : string) : bool := negb (str_eqb p "").
Definition apply_option (r : Router) (o : RouterOption) : Router :=
  match o with
  | WithPrefixes ps => mkRouter r.(Prefix) (remove_dups (List.filter not_empty (r.(Prefix) :: ps))) r.(middlewares) r.(routes)
  | WithMiddleware hs => mkRouter r.(Prefix) r.(prefixes) (r.(middlewares) ++ hs) r.(routes)
  end.

(** The handlers of every route, [Router.router], and the one for no route,
    which runs with status 404. *)
Context (now_micro : Z) (new_id : string) (GetJwtSecret : string -> Res string).
Context (ParseUnverified : string -> Res (UserClaims * (string -> option error))) (broken : string -> bool) (CORS : Handler).
Definition base_chain (ai : authInjectors) : list Handler :=
  [CORS; CustomerHeader env new_id; Logger; Recovery broken; LoginStatus_ now_micro GetJwtSecret ParseUnverified; AcceptLanguage; Inject ai].
Definition not_found : Handler := fun _ c => Done (Write (JStr "The incorrect API route.") (WriteHeader 404 c)).
Definition NewRouter (apiPrefix : string) (opts : list RouterOption) (ai : authInjectors) : Router :=
  let p := if str_eqb apiPrefix "" then PrefixAPIV3 else apiPrefix in
  let r := fold_left apply_option opts (mkRouter p [] (base_chain ai) []) in
  mkRouter p (match r.(prefixes) with [] => [p] | ps => ps end) r.(middlewares) [].
Definition newInjectors : authInjectors := mkInjectors ∅ (Some (fun c ls => (ls, c, None))).

(** A request on a path that is registered. *)
Definition route_of (r : Router) (method path : string) : option Route := List.find (same_route method path) r.(routes).
Definition handle (r : Router) (method : string) (c : Ctx) : option Out :=
  option_map (fun x => serve x.(route_handlers) c) (route_of r method c.(path)).

(** * The login of a request *)
(** What the middlewares before a route's own handlers make of a request:
    [cors] are the headers that CORS adds. *)
Definition with_headers (hs : gmap string string) (c : Ctx) : Ctx :=
  mkCtx c.(path) c.(headers) c.(reqbody) c.(keys) c.(index) c.(status) c.(answer) hs.
Definition custom (c : Ctx) : Ctx := match CustomerHeader env new_id Done c with Done c => c | _ => c end.
Definition logged_in (c : Ctx) : Ctx :=
  with_login (login_of now_micro GetJwtSecret ParseUnverified (header c "Authorization")) c.
Definition with_lang (c : Ctx) : Ctx := set_key CtxKeyLang (VStr (header c "Accept-Language")) c.
Definition injected (ai : authInjectors) (c : Ctx) : Ctx := match Inject ai Done c with Done c => c | _ => c end.
Definition before_auth (cors : Ctx -> gmap string string) (ai : authInjectors) (c : Ctx) : Ctx :=
  injected ai (set_index 6 (with_lang (logged_in (custom (with_headers (cors c) c))))).
(** Injectors stay at their place in the chain and leave the answer. *)
Definition Behaved (ai : authInjectors) : Prop :=
  forall issuer f, injector_of ai issuer = Some f -> forall c ls, (f c ls).1.2.(index) = c.(index) /\ (f c ls).1.2.(answer) = c.(answer).

Lemma login_claim authstr :
  (login_of now_micro GetJwtSecret ParseUnverified authstr).(State) = StateSucc ->
  is_Some (login_of now_micro GetJwtSecret ParseUnverified authstr).(Claim).
Proof.
  unfold login_of. destruct (str_eqb authstr ""); [by intros [=]|].
  destruct (has_prefix AuthAPIKeyPrefix _); [by eexists|]. destruct (ParseWithClaims _ _ _ _); [by eexists|by intros [=]].
Qed.

Lemma login_after_key v c : loginStatus (set_key CtxKeyLoginStatus (VLogin v) c) = Some v.
Proof. unfold loginStatus. cbn [set_key keys]. by rewrite lookup_insert. Qed.

Lemma Inject_done ai next c ls :
  loginStatus c = Some ls -> (ls.(State) = StateSucc -> is_Some ls.(Claim)) -> Inject ai next c = Done (injected ai c).
Proof.
  intros Hls Hc. unfold injected, Inject. rewrite Hls.
  destruct (negb _) eqn:E; [done|]. apply negb_false_iff, Z.eqb_eq in E. destruct (Hc E) as [cl ->].
  destruct (injector_of ai _) as [f|]; [|done]. by destruct (f c ls) as [[ls' c'] [e|]].
Qed.
Lemma injected_keeps ai c ls :
  Behaved ai -> loginStatus c = Some ls -> (ls.(State) = StateSucc -> is_Some ls.(Claim)) ->
  (injected ai c).(index) = c.(index) /\ (injected ai c).(answer) = c.(answer) /\ is_Some (loginStatus (injected ai c)).
Proof.
  intros Hb Hls Hc. unfold injected, Inject. rewrite Hls.
  destruct (negb _) eqn:E; [by rewrite Hls; eauto|]. apply negb_false_iff, Z.eqb_eq in E. destruct (Hc E) as [cl ->].
  destruct (injector_of ai _) as [f|] eqn:Hf; [|rewrite login_after_key; eauto].
  specialize (Hb _ f Hf c ls). destruct (f c ls) as [[ls' c'] e]. cbn in Hb. rewrite login_after_key.
  by destruct e; cbn; destruct Hb; eauto.
Qed.

Lemma login_other_key k v c : k <> CtxKeyLoginStatus -> loginStatus (set_key k v c) = loginStatus c.
Proof. intros Hk. unfold loginStatus. cbn [set_key keys]. by rewrite lookup_insert_ne by done. Qed.
Lemma login_with ls c : loginStatus (with_login ls c) = Some ls.
Proof.
  unfold with_login. destruct (Claim ls) as [cl|]; [|apply login_after_key].
  destruct (0 <? _); [|apply login_after_key]. rewrite login_other_key by done. apply login_after_key.
Qed.
Lemma with_login_index ls c : (with_login ls c).(index) = c.(index) /\ (with_login ls c).(answer) = c.(answer).
Proof. unfold with_login. destruct (Claim ls) as [cl|]; [|done]. by destruct (0 <? _). Qed.
Lemma custom_keeps c : (custom c).(index) = c.(index) /\ (custom c).(answer) = c.(answer) /\ (custom c).(headers) = c.(headers).
Proof. unfold custom, CustomerHeader. by destruct (str_eqb env ""). Qed.

(** The context that reaches the injectors, and the login in it. *)
Lemma before_inject (cors : Ctx -> gmap string string) c :
  let c' := with_lang (logged_in (custom (with_headers (cors c) c))) in
  c'.(index) = c.(index) /\ c'.(answer) = c.(answer) /\
  loginStatus c' = Some (login_of now_micro GetJwtSecret ParseUnverified (header c "Authorization")).
Proof.
  cbv zeta. set (c1 := with_headers _ _). destruct (custom_keeps c1) as (Hi & Ha & Hh).
  unfold with_lang, logged_in. rewrite login_other_key, login_with by done. cbn [set_key index answer].
  destruct (with_login_index (login_of now_micro GetJwtSecret ParseUnverified (header (custom c1) "Authorization")) (custom c1)) as [-> ->].
  rewrite Hi, Ha. unfold header. rewrite Hh. done.
Qed.
Lemma before_auth_login cors ai c :
  Behaved ai -> (before_auth cors ai c).(index) = 6 /\ (before_auth cors ai c).(answer) = c.(answer) /\
  is_Some (loginStatus (before_auth cors ai c)).
Proof.
  intros Hb. destruct (before_inject cors c) as (_ & Ha & Hl).
  destruct (injected_keeps ai (set_index 6 (with_lang (logged_in (custom (with_headers (cors c) c))))) _ Hb Hl) as (H1 & H2 & H3);
    [apply login_claim|]. unfold before_auth. rewrite H1, H2. split; [done|]. split; [done|exact H3].
Qed.

Definition started (p : string) (h : gmap string string) (body : string) : Ctx := set_index 0 (newCtx p h body).
Definition recovered (o : Out) : Out := Recovery broken (fun _ => o) (newCtx "" ∅ "").

(** Up to the route's own handlers: what follows runs inside the logger and the
    recovery, which go on in the chain when it comes back. *)
Lemma base_chain_runs cors ai post p h b :
  (forall next c, CORS next c = Done (with_headers (cors c) c)) -> Behaved ai ->
  let L := (base_chain ai ++ post)%list in let k := length post in
  serve L (newCtx p h b)
  = obind (obind (recovered (loop (2 + k) L (set_index 7 (before_auth cors ai (started p h b)))))
                 (fun c => loop (5 + k) L (bump c)))
          (fun c => loop (6 + k) L (bump c)).
Proof.
  intros HC Hb L k. unfold serve, Next.
  assert (Hn : length L = (7 + k)%nat) by (unfold L; by rewrite length_app). rewrite Hn. cbn [Nat.add].
  change (bump (newCtx p h b)) with (started p h b). set (c0 := started p h b).
  erewrite (loop_plain _ L CORS (fun c => with_headers (cors c) c) c0 0%nat) by (reflexivity || (intros next c; by rewrite HC)).
  erewrite (loop_plain _ L (CustomerHeader env new_id) custom _ 1%nat); [|intros next c; split; [|apply custom_keeps];
    unfold custom, CustomerHeader; by destruct (str_eqb env "")|done|done].
  destruct (custom_keeps (bump (with_headers (cors c0) c0))) as (Hi & _ & _).
  change (index (bump _)) with 1 in Hi. set (c1 := custom _) in *.
  assert (H2 : (bump c1).(index) = 2) by (rewrite index_bump; lia).
  erewrite (loop_at _ L Logger _ 2%nat) by done. unfold Logger at 1.
  assert (H3 : (bump (bump c1)).(index) = 3) by (rewrite index_bump; lia).
  erewrite (loop_at _ L (Recovery broken) _ 3%nat) by done.
  assert (H4 : (bump (bump (bump c1))).(index) = 4) by (rewrite index_bump; lia).
  unfold recovered, Recovery at 1. cbn [Nat.add]. do 3 f_equal.
  erewrite (loop_plain _ L _ logged_in _ 4%nat); [|intros next c; split; [done|apply with_login_index]|done|done].
  destruct (with_login_index (login_of now_micro GetJwtSecret ParseUnverified (header (bump (bump (bump c1))) "Authorization"))
    (bump (bump (bump c1)))) as [H5 _].
  erewrite (loop_plain _ L AcceptLanguage with_lang _ 5%nat); [|intros next c; done|done|].
  2:{ unfold logged_in. rewrite index_bump; lia. }
  set (c2 := bump (with_lang _)).
  assert (Hc2 : c2 = set_index 6 (with_lang (logged_in (custom (with_headers (cors c0) c0))))).
  { unfold c2, c1, with_lang, logged_in, custom, CustomerHeader, with_login. destruct (str_eqb env ""); cbn.
    all: destruct (Claim _); [destruct (0 <? _)|]; done. }
  erewrite (loop_at _ L (Inject ai) _ 6%nat); [|done|by rewrite Hc2].
  destruct (before_inject cors c0) as (_ & _ & Hl).
  rewrite Hc2, (Inject_done ai _ (set_index 6 _) _ Hl) by apply login_claim.
  change (injected ai _) with (before_auth cors ai c0). cbn [obind].
  destruct (before_auth_login cors ai c0 Hb) as (H6 & _ & _). unfold bump at 1. rewrite H6. done.
Qed.

(** Once the route's own part has ended past the last handler, its answer is
    the answer to the request. *)
Lemma base_chain_reply cors ai post p h b X n :
  (forall next c, CORS next c = Done (with_headers (cors c) c)) -> Behaved ai -> (length post <= 55)%nat ->
  7 + Z.of_nat (length post) <= X.(index) + 1 -> X.(index) <= 64 -> 0 <= n <= 50 ->
  ended n X (recovered (loop (2 + length post) (base_chain ai ++ post) (set_index 7 (before_auth cors ai (started p h b))))) ->
  reply (serve (base_chain ai ++ post) (newCtx p h b)) = Some (X.(status), X.(answer)).
Proof.
  intros HC Hb Hp Hi Hi' Hn He. rewrite (base_chain_runs cors) by done. cbv zeta.
  assert (Hl : Z.of_nat (length (base_chain ai ++ post)) = 7 + Z.of_nat (length post)) by (rewrite length_app; cbn [length base_chain]; lia).
  apply (ended_reply (n + 1 + 1)). apply ended_obind; [apply ended_obind; [exact He|..]|..]; lia.
Qed.

(** What a request must show to be logged in: an API key, or a token that the
    secret of its issuer verifies and whose time has come and is not over. *)
Definition credential (authstr : string) : Prop :=
  authstr <> "" /\
  let token := TrimSpace (trim_prefix AuthBearer authstr) in
  has_prefix AuthAPIKeyPrefix token = true \/
  exists claims verify key, ParseUnverified token = Ok (claims, verify) /\ GetJwtSecret claims.(claim_Issuer) = Ok key /\
    verify key = None /\ claims.(IssuedAt) <= now_micro / 1000000 <= claims.(ExpiresAt).

Lemma login_credential authstr :
  (login_of now_micro GetJwtSecret ParseUnverified authstr).(State) = StateSucc -> credential authstr.
Proof.
  unfold login_of, credential. destruct (str_eqb authstr "") eqn:E; [by intros [=]|].
  intros H. split; [intros ->; done|]. cbv zeta. revert H. destruct (has_prefix AuthAPIKeyPrefix _); [by left|].
  unfold ParseWithClaims. destruct (ParseUnverified _) as [[claims verify]|] eqn:Hp; [|by intros [=]].
  destruct (GetJwtSecret _) as [key|] eqn:Hk; [|by intros [=]].
  destruct (verify key) eqn:Hv; [by intros [=]|]. unfold Valid.
  destruct (_ <? _) eqn:H1; [by intros [=]|]. destruct (now_micro / 1000000 <? _) eqn:H2; [by intros [=]|].
  intros _. right. exists claims, verify, key. apply Z.ltb_ge in H1, H2. by repeat split.
Qed.
(** The injectors only see a request that is logged in, and cannot log in
    another. *)
Lemma injected_login cors ai c ls :
  loginStatus (before_auth cors ai c) = Some ls -> ls.(State) = StateSucc -> credential (header c "Authorization").
Proof.
  destruct (before_inject cors c) as (_ & _ & Hl). intros H Hs. apply login_credential.
  destruct (decide ((login_of now_micro GetJwtSecret ParseUnverified (header c "Authorization")).(State) = StateSucc)) as [|Hn]; [done|].
  exfalso. apply Hn. revert H. unfold before_auth, injected, Inject.
  change (loginStatus (set_index 6 ?x)) with (loginStatus x). rewrite Hl.
  rewrite (proj2 (Z.eqb_neq _ _) Hn). cbn [negb]. change (loginStatus (set_index 6 ?x)) with (loginStatus x). rewrite Hl.
  intros [=->]. done.
Qed.

Lemma refused_by_auth cors ai rest c ls :
  Behaved ai -> loginStatus (before_auth cors ai c) = Some ls -> ls.(State) <> StateSucc -> c.(answer) = None -> (length rest <= 54)%nat ->
  exists X, X.(index) = 63 /\ X.(status) = 200 /\ X.(answer) = Some [unauthorized] /\
    ended 1 X (loop (3 + length rest) (base_chain ai ++ AuthMiddleWare :: rest) (set_index 7 (before_auth cors ai c))).
Proof.
  intros Hb Hls Hs Ha Hr. destruct (before_auth_login cors ai c Hb) as (_ & Hn & _).
  set (c1 := set_index 7 (before_auth cors ai c)). set (X := AbortWithStatusJSON 200 unauthorized c1).
  assert (Hc1 : c1.(answer) = None) by (rewrite <- Ha; exact Hn).
  assert (HX := AbortWithStatusJSON_fresh 200 unauthorized c1 Hc1 ltac:(lia)). cbv zeta in HX. fold X in HX.
  destruct HX as (HX1 & HX2 & HX3). unfold abortIndex in HX3. exists X. do 3 (split; [done|]).
  cbn [Nat.add]. rewrite (loop_at _ _ AuthMiddleWare c1 7%nat) by reflexivity.
  rewrite (AuthMiddleWare_refuses _ c1 ls) by done. fold X.
  apply (ended_obind _ _ 0); rewrite ?length_app; cbn [length base_chain]; try lia.
  exists X. repeat split; lia.
Qed.

(** A request that shows no credential, neither an API key nor a
    token that its issuer's secret verifies within its time, is answered with
    status 200 and the refusal alone on every route that requires login, so
    that none of the handlers behind has any part in the answer, however the
    injectors are set. *)
Lemma login_refused cors ai rest p h b :
  (forall next c, CORS next c = Done (with_headers (cors c) c)) -> Behaved ai -> (length rest <= 54)%nat ->
  ~ credential (default "" (h !! "Authorization")) ->
  reply (serve (base_chain ai ++ AuthMiddleWare :: rest) (newCtx p h b)) = Some (200, Some [unauthorized]).
Proof.
  intros HC Hb Hr Hc. destruct (before_auth_login cors ai (started p h b) Hb) as (_ & _ & [ls Hls]).
  destruct (refused_by_auth cors ai rest (started p h b) ls Hb Hls) as (X & Hi & Hs & Ha & He); [|done|done|].
  { intros Hs. apply Hc. exact (injected_login cors ai (started p h b) ls Hls Hs). }
  rewrite (base_chain_reply cors ai _ p h b X 1); rewrite ?Hs, ?Ha; [done|done|done|..]; try (cbn [length]; lia).
  destruct He as (c' & E & H). cbn [length Nat.add]. cbn [Nat.add] in E. rewrite E. by exists c'.
Qed.

(** A route's last handler: it stays in front of the end of the chain. *)
Definition Final (h : Handler) : Prop :=
  forall next c, c.(index) <= abortIndex ->
                 match h next c with
                 | Done c' | Panicked _ c' => c.(index) <= c'.(index) <= abortIndex /\ h next c = h Done c
                 | Stuck => False
                 end.

(** A logged-in request: when the injectors have kept the login, the
    answer to the request is what the route's handler does with the context the
    middlewares built, a panic of the handler being answered with status 500
    (unless something is already written) or, on a broken connection, with
    nothing more. *)
Theorem login_admitted cors ai hd p h b ls :
  (forall next c, CORS next c = Done (with_headers (cors c) c)) -> Behaved ai -> Final hd ->
  loginStatus (before_auth cors ai (started p h b)) = Some ls -> ls.(State) = StateSucc ->
  reply (serve (base_chain ai ++ [AuthMiddleWare; hd]) (newCtx p h b))
  = reply (recovered (hd Done (set_index 8 (before_auth cors ai (started p h b))))).
Proof.
  intros HC Hb Hf Hls Hs. set (L := (base_chain ai ++ [AuthMiddleWare; hd])%list). set (c1 := before_auth cors ai (started p h b)) in *.
  assert (Hloop : loop 4 L (set_index 7 c1) = match hd Done (set_index 8 c1) with
                                             | Done c => Done (bump (bump c)) | o => o end).
  { rewrite (loop_at _ L AuthMiddleWare _ 7%nat) by reflexivity. rewrite (AuthMiddleWare_admits _ (set_index 7 c1) ls) by done.
    change (bump (set_index 7 c1)) with (set_index 8 c1). rewrite (loop_at _ L hd _ 8%nat) by reflexivity.
    specialize (Hf (fun c => loop 2 L (bump c)) (set_index 8 c1) ltac:(discriminate)). destruct (hd _ _) as [c|v c|] eqn:Eh; [| |done].
    all: destruct Hf as [Hi Hf]; cbn [set_index index] in Hi; unfold abortIndex in Hi; rewrite <- Hf; cbn [obind]; try done.
    rewrite loop_bump_end by (cbn [length L app base_chain]; lia). cbn [obind].
    rewrite loop_bump_end; [done|..]; rewrite index_bump; cbn [length L app base_chain]; lia. }
  specialize (Hf Done (set_index 8 c1) ltac:(discriminate)). destruct (hd Done _) as [c|v c|] eqn:Eh; [| |done]; destruct Hf as [Hi _]; cbn [set_index index] in Hi.
  all: unfold abortIndex in Hi.
  - etransitivity; [apply (base_chain_reply cors ai [AuthMiddleWare; hd] p h b c 2 HC Hb)|]; cbn [length]; [lia..| |by destruct c].
    change (2 + 2)%nat with 4%nat. fold L c1. rewrite Hloop.
    exists (bump (bump c)). repeat (split; [reflexivity|]). rewrite !index_bump by (rewrite ?index_bump; lia). lia.
  - set (Y := if broken v then Abort c else InternalError "网络错误，请稍后重试" c).
    assert (HY : Y.(index) = 63) by (unfold Y; by destruct (broken v)).
    etransitivity; [apply (base_chain_reply cors ai [AuthMiddleWare; hd] p h b Y 0 HC Hb)|]; cbn [length]; [lia..| |reflexivity].
    change (2 + 2)%nat with 4%nat. fold L c1. rewrite Hloop. exists Y. repeat split; lia.
Qed.

(** * What is registered *)
Lemma same_route_true m p x : same_route m p x = true <-> x.(route_method) = m /\ x.(route_path) = p.
Proof. unfold same_route, str_eqb. by rewrite andb_true_iff, !String.eqb_eq. Qed.
Lemma find_app_l {A} (f : A -> bool) l l' x : List.find f l = Some x -> List.find f (l ++ l') = Some x.
Proof. induction l as [|y l IH]; [done|]. cbn. by destruct (f y). Qed.
Lemma find_app_r {A} (f : A -> bool) l x : existsb f l = false -> f x = true -> List.find f (l ++ [x]) = Some x.
Proof. induction l as [|y l IH]; cbn; [by intros _ ->|]. intros [-> H]%orb_false_iff. by apply IH. Qed.

Lemma addRoute_route m p hs r r' :
  addRoute m p hs r = RVal r' ->
  route_of r' m p = Some (mkRoute m p (r.(middlewares) ++ hs)) /\ r'.(middlewares) = r.(middlewares) /\ r'.(prefixes) = r.(prefixes) /\
  (forall m' p' x, route_of r m' p' = Some x -> route_of r' m' p' = Some x) /\ (length (r.(middlewares) ++ hs) < 63)%nat.
Proof.
  unfold addRoute. destruct (abortIndex <=? _) eqn:El; [done|]. destruct (has_prefix _ _); [|done].
  destruct (existsb _ _) eqn:Ee; [done|]. intros [= <-]. apply Z.leb_gt in El. unfold abortIndex in El.
  unfold route_of. cbn [routes middlewares prefixes]. repeat split; [|intros m' p' x; apply find_app_l|lia].
  apply find_app_r; [done|]. by apply same_route_true.
Qed.
Lemma add_all_route l hs r r' :
  add_all l hs r = RVal r' ->
  (forall m p, (m, p) ∈ l -> route_of r' m p = Some (mkRoute m p (r.(middlewares) ++ hs)) /\ (length (r.(middlewares) ++ hs) < 63)%nat) /\
  r'.(middlewares) = r.(middlewares) /\ r'.(prefixes) = r.(prefixes) /\
  (forall m' p' x, route_of r m' p' = Some x -> route_of r' m' p' = Some x).
Proof.
  revert r. induction l as [|[m0 p0] l IH]; intros r; cbn [add_all].
  - intros [= <-]. repeat split; try done; by apply not_elem_of_nil in H.
  - destruct (addRoute _ _ _ _) as [r1|] eqn:E; [|done]. intros H.
    destruct (addRoute_route _ _ _ _ _ E) as (Hx & Hm & Hp & Hk & Hl). destruct (IH _ H) as (Ha & Hm' & Hp' & Hk').
    rewrite Hm in *. rewrite Hp in *. split; [|by split; [|split; [|intros m p x Hf; apply Hk', Hk]]].
    intros m p [[= -> ->]|H0]%elem_of_cons; [by split; [apply Hk'|]|by apply Ha].
Qed.
Lemma wanted_elem methods action ps m p : m ∈ methods -> p ∈ ps -> (m, full_path p action) ∈ wanted methods action ps.
Proof.
  intros Hm Hp. unfold wanted. apply list_elem_of_In, in_flat_map. exists p. split; [by apply list_elem_of_In|].
  apply in_map_iff. exists m. split; [done|]. by apply list_elem_of_In.
Qed.

Lemma register_route methods action hdrs r r' m p :
  register methods action hdrs r = RVal r' -> m ∈ methods -> p ∈ r.(prefixes) ->
  route_of r' m (full_path p action) = Some (mkRoute m (full_path p action) (r.(middlewares) ++ map to_handler hdrs)) /\
  (length r.(middlewares) + length hdrs < 63)%nat.
Proof.
  intros H Hm Hp. destruct (add_all_route _ _ _ _ H) as (Ha & _).
  destruct (Ha m (full_path p action)) as [H1 H2]; [by apply wanted_elem|]. split; [done|].
  by rewrite length_app, length_map in H2.
Qed.

(** Registering: [Router.P] (and [G], [Any]) either panics or leaves, under
    every prefix of the router and for every method, exactly this route with
    the handlers of the engine followed by the given ones in their order, and
    no route that was there is changed. *)
Theorem register_everywhere methods action hdrs r r' :
  register methods action hdrs r = RVal r' ->
  (forall m p, m ∈ methods -> p ∈ r.(prefixes) ->
     route_of r' m (full_path p action) = Some (mkRoute m (full_path p action) (r.(middlewares) ++ map to_handler hdrs))) /\
  (forall m path x, route_of r m path = Some x -> route_of r' m path = Some x) /\
  r'.(prefixes) = r.(prefixes) /\ r'.(middlewares) = r.(middlewares).
Proof.
  intros H. split; [intros m p Hm Hp; by apply (register_route _ _ _ _ _ _ _ H)|].
  by destruct (add_all_route _ _ _ _ H) as (_ & H2 & H3 & H4).
Qed.

(** C12: login: on a router with the middlewares of [NewRouter], a request to
    a route of [PRequireLogin], under any of its prefixes, that shows no
    credential, neither an API key nor a token that its issuer's secret
    verifies within its time, is answered with status 200 and the refusal
    alone, whatever the handlers of the route do and however the injectors are
    set. *)
Theorem PRequireLogin_guards cors ai action hdrs r r' p h b :
  (forall next c, CORS next c = Done (with_headers (cors c) c)) -> Behaved ai -> r.(middlewares) = base_chain ai ->
  PRequireLogin action hdrs r = RVal r' -> p ∈ r.(prefixes) -> ~ credential (default "" (h !! "Authorization")) ->
  option_map reply (handle r' "POST" (newCtx (full_path p action) h b)) = Some (Some (200, Some [unauthorized])).
Proof.
  intros HC Hb Hm Hr Hp Hc.
  destruct (register_route _ _ _ _ _ "POST" p Hr) as [Hx Hl]; [set_solver|done|]. rewrite Hm in *.
  unfold handle. change (path (newCtx (full_path p action) h b)) with (full_path p action). rewrite Hx. cbn [option_map route_handlers].
  f_equal. cbn [map to_handler]. apply (login_refused cors); [done|done| |done]. rewrite length_map. cbn [length base_chain] in Hl. lia.
Qed.

(** * API functions *)
Definition WellTyped (f : ApiFunc) : Prop :=
  f.(NumIn) = 3 /\ f.(NumOut) <= 1 /\ f.(takes_pointers) = true /\ f.(takes_context) = true.
(** A response that embeds the base response first, and has no message of its
    own nor a second base response. *)
Definition BasedOn (name : string) (br : BaseResponse) (fs : list StructField) : list StructField := mkField name true (FBase br) :: fs.
Definition OnlyBase (name : string) (fs : list StructField) : Prop :=
  name <> "Code" /\ field_named "Message" (mkField name true FOther :: fs) = None /\
  field_named "MessageData" (mkField name true FOther :: fs) = None /\ omap base_of fs = [].
(** The base response the client gets. *)
Definition finished (c : Ctx) (br : BaseResponse) : BaseResponse :=
  fixed c (if str_eqb br.(Message) "" then br else with_message (translate (GetLanguage c) br.(Message) br.(MessageData)) br).

Lemma put_in_base_rest s fs : omap base_of fs = [] -> map (put_in_base s) fs = fs.
Proof.
  induction fs as [|f fs IH]; [done|]. cbn [map omap list_omap]. intros H.
  destruct (base_of f) eqn:E; [done|]. rewrite (IH H). f_equal. destruct f as [n pr x]. unfold put_in_base, base_of in *. cbn in *.
  destruct pr; [|done]. destruct x as [ | | | | | |[] | ]; by try done.
Qed.
Lemma translate_based c name br fs :
  OnlyBase name fs ->
  translateMessage c (RStruct (BasedOn name br fs))
  = RVal (RStruct (BasedOn name (if str_eqb br.(Message) "" then br
                                 else with_message (translate (GetLanguage c) br.(Message) br.(MessageData)) br) fs)).
Proof.
  intros (_ & Hm & Hd & Ho). unfold translateMessage, BasedOn, message_field, message_data. cbn [field_named fieldName] in *.
  destruct (str_eqb name "Message"); [done|]. destruct (str_eqb name "MessageData"); [done|]. rewrite Hm, Hd.
  cbn [omap list_omap base_of field promoted]. rewrite Ho.
  destruct (str_eqb (Message br) ""); [done|]. cbn [map]. by rewrite put_in_base_rest.
Qed.
Lemma fix_based c name br fs :
  name <> "Code" ->
  fixBaseResponse c (RStruct (BasedOn name br fs)) = RVal (set_key CtxKeyCode (VInt br.(Code)) c, RStruct (BasedOn name (fixed c br) fs)).
Proof.
  intros Hn. unfold fixBaseResponse, BasedOn. cbn [fix_fields field fieldName]. unfold str_eqb.
  rewrite (proj2 (String.eqb_neq _ _) Hn). done.
Qed.

(** C13: aPI functions: a function of the documented type, with a context, a
    request and a response that embeds the base response and at most an error,
    is always called as it is meant: a body that does not decode is answered
    400 without the call, a panic passes through, an error is answered 500, and
    otherwise an answer 200 is the JSON of the response, with the message in the
    caller's language or that of the code, the environment and the request's
    id, unless the function aborted the request. *)
Theorem transAPI_well_typed f next c :
  WellTyped f ->
  match f.(decode) c.(reqbody) with
  | Err e => transAPI (inl f) next c = Done (BadRequest ("decode request failed, " ++ Error e) c)
  | Ok req =>
      match f.(call) c req with
      | Panics_ v c' => transAPI (inl f) next c = Panicked v c'
      | Returns c' out (ErrResult t e) => transAPI (inl f) next c = Done (InternalError ("handler return error " ++ t ++ " " ++ Error e) c')
      | Returns c' out (OtherResult t) => transAPI (inl f) next c = Done (InternalError ("invalid handler returns type: " ++ t) c')
      | Returns c' out _ =>
          forall name br fs, OnlyBase name fs -> out = RStruct (BasedOn name br fs) ->
          transAPI (inl f) next c
          = Done (if IsAborted c' then c'
                  else JSON 200 (f.(encode) (RStruct (BasedOn name (finished c' br) fs))) (set_key CtxKeyCode (VInt br.(Code)) c'))
      end
  end.
Proof.
  intros (H1 & H2 & H3 & H4). unfold transAPI. rewrite (proj2 (Z.eqb_eq _ _) H1), (proj2 (Z.ltb_ge _ _) H2), H3, H4. cbn [negb].
  destruct (decode f _) as [req|e]; [|done]. destruct (call f c req) as [c' out ret|v c']; [|done].
  destruct ret; try done.
  all: intros name br fs Hn ->; rewrite translate_based by done; destruct (IsAborted c'); [done|].
  all: destruct Hn as [Hn _]; rewrite fix_based by done; do 3 f_equal; by destruct (str_eqb (Message br) "").
Qed.

Lemma fix_fields_index c fs c' r : fix_fields c fs = RVal (c', r) -> c'.(index) = c.(index).
Proof.
  revert r. induction fs as [|f fs IH]; intros r; [by intros [= <- _]|]. cbn [fix_fields].
  destruct (if str_eqb _ _ then _ else _); [by intros [= <- _]|].
  assert (Hrest : (match fix_fields c fs with RVal (c, r) => RVal (c, f :: r) | RPanic v => RPanic v end = RVal (c', r)) -> c'.(index) = c.(index)).
  { destruct (fix_fields c fs) as [[c1 r1]|]; [|done]. intros [= -> _]. by eapply IH. }
  destruct (field f) as [ | | | | | |x| ]; try done; try (by intros [= <- _]). destruct x; try done. by intros [= <- _].
Qed.
(** An API function that goes no further in the chain than to abort it. *)
Lemma transAPI_final f :
  (forall c req, c.(index) <= abortIndex ->
     match f.(call) c req with Returns c' _ _ | Panics_ _ c' => c.(index) <= c'.(index) <= abortIndex end) ->
  Final (transAPI (inl f)).
Proof.
  intros Hf next c Hc. change (transAPI (inl f) Done c) with (transAPI (inl f) next c).
  enough (match transAPI (inl f) next c with Done c' | Panicked _ c' => c.(index) <= c'.(index) <= abortIndex | Stuck => False end)
    by (destruct (transAPI (inl f) next c); [by split..|done]).
  unfold transAPI. destruct (negb _); [done|]. destruct (1 <? _); [done|]. destruct (negb _); [done|].
  destruct (decode f _) as [req|e]; [|done]. destruct (negb _); [done|].
  specialize (Hf c req Hc). destruct (call f c req) as [c' out ret|v c']; [|done].
  destruct ret; try (cbn; lia).
  all: destruct (translateMessage c' out) as [out'|]; [|done]; destruct (IsAborted c'); [done|].
  all: unfold fixBaseResponse; destruct out' as [fs|]; [destruct (fix_fields c' fs) as [[c2 fs']|] eqn:E; [|done]; apply fix_fields_index in E|].
  all: unfold JSON, Write, WriteHeader; repeat case_match; cbn in *; lia.
Qed.

(** A response without any message panics, so that the client gets an answer
    500 from every call that succeeds. *)
Lemma no_message_panics f next c req c' fs :
  WellTyped f -> f.(decode) c.(reqbody) = Ok req -> f.(call) c req = Returns c' (RStruct fs) NilResult -> message_field fs = NotFound ->
  exists v, transAPI (inl f) next c = Panicked v c'.
Proof.
  intros (H1 & H2 & H3 & H4) Hd Hc Hm. unfold transAPI.
  rewrite (proj2 (Z.eqb_eq _ _) H1), (proj2 (Z.ltb_ge _ _) H2), H3, H4, Hd, Hc. cbn [negb translateMessage]. rewrite Hm. by eexists.
Qed.
(** With the injectors of a new router every token that begins as an API key is
    logged in. *)
Lemma api_key_login cors token p h b :
  token <> "" -> has_prefix AuthAPIKeyPrefix (TrimSpace (trim_prefix AuthBearer token)) = true -> h !! "Authorization" = Some token ->
  exists ls, loginStatus (before_auth cors newInjectors (started p h b)) = Some ls /\ ls.(State) = StateSucc /\ ls.(Role) = RoleAPI.
Proof.
  intros Hn Ht Hh. destruct (before_inject cors (started p h b)) as (_ & _ & Hl).
  unfold header in Hl. change (headers (started p h b)) with h in Hl. rewrite Hh in Hl. change (default "" (Some token)) with token in Hl.
  unfold login_of in Hl. unfold str_eqb in Hl at 1. rewrite (proj2 (String.eqb_neq _ _) Hn), Ht in Hl.
  unfold before_auth, injected, Inject. change (loginStatus (set_index 6 ?x)) with (loginStatus x). rewrite Hl.
  assert (Hi : forall i, injector_of newInjectors i = Some (fun c ls => (ls, c, None))) by done.
  cbn [Claim zeroClaims claim_Issuer State]. rewrite Hi, Z.eqb_refl. cbn [negb]. cbv beta iota zeta.
  eexists. rewrite login_after_key. repeat split.
Qed.
End Server.

(** * Concrete routers *)
(** A router with one API function behind a login. *)
Definition quiet_cors : Handler := fun _ c => Done (with_headers c.(respHeaders) c).
Definition demo_chain : list Handler :=
  base_chain "prod" 1000000000 "id1" (fun _ => Ok "secret") (fun t => if str_eqb t "good" then Ok (mkClaims 7 900 1100 "web" "" 0, fun k => None) else Err (ErrNew "malformed"))
    (fun _ => false) quiet_cors newInjectors.
Definition greeting (c : Ctx) (req : string) : CallEnd :=
  if str_eqb req "panic" then Panics_ "boom" c
  else if str_eqb req "fail" then Returns c ROpaque (ErrResult "*errors.errorString" (ErrNew "no luck"))
  else Returns c (RStruct [mkField "BaseResponse" true (FBase (mkBase 0 req [] "" "")); mkField "Data" false (FText "hi")]) NilResult.
Definition show (r : Response) : json :=
  match r with
  | RStruct [mkField _ _ (FBase br); mkField _ _ (FText t)] =>
      JObj ([("code", JNum (fmt_d br.(Code)))] ++ omit_str "message" br.(Message) ++ omit_str "env" br.(resp_Env)
            ++ omit_str "request_id" br.(resp_RequestID) ++ [("Data", JStr t)])%list
  | _ => JNull
  end.
Definition demo_api : ApiFunc :=
  mkApi "func(*gin.Context, *Req, *Resp) error" 3 1 true true string (fun b => if str_eqb b "" then Err (ErrVar "EOF") else Ok b) greeting show.
#[local] Existing Instance demoLib.
Definition demo_router : Router := mkRouter "/v3/" ["/v3/"; "v4"] demo_chain [].
Definition demo_routes : Reflect Router := PRequireLogin "prod" demoI18n "hello" [HApi demo_api] demo_router.
Definition ask (path auth body : string) : option (Z * option (list json)) :=
  match demo_routes with
  | RVal r => match handle r "POST" (newCtx path {[ "Authorization" := auth; "Accept-Language" := "en" ]} body) with Some o => reply o | None => None end
  | RPanic _ => None
  end.
Example ask_good : ask "/v4/hello" "Bearer good" "hello"
  = Some (200, Some [JObj [("code", JNum "0"); ("message", JStr "Hello"); ("env", JStr "prod"); ("request_id", JStr "id1"); ("Data", JStr "hi")]]).
Proof. vm_compute. reflexivity. Qed.
Example ask_bad : ask "/v3/hello" "Bearer bad" "moin" = Some (200, Some [unauthorized]).
Proof. vm_compute. reflexivity. Qed.
Example ask_key : ask "/v3/hello" "Bearer yg-anything" "panic" = Some (500, Some [base_json 500 "网络错误，请稍后重试"]).
Proof. vm_compute. reflexivity. Qed.
Example ask_fail : ask "/v3/hello" "good" "fail" = Some (500, Some [base_json 500 "handler return error *errors.errorString no luck"]).
Proof. vm_compute. reflexivity. Qed.
Example ask_empty : ask "/v3/hello" "good" "" = Some (400, Some [base_json 400 "decode request failed, EOF"]).
Proof. vm_compute. reflexivity. Qed.

Lemma quiet_adds next c : quiet_cors next c = Done (with_headers c.(respHeaders) c).
Proof. done. Qed.
Lemma newInjectors_behaved : Behaved newInjectors.
Proof. intros issuer f. unfold injector_of. cbn. intros [= <-] c ls. done. Qed.
Definition demo_secret : string -> Res string := fun _ => Ok "secret".
Definition demo_parse (t : string) : Res (UserClaims * (string -> option error)) :=
  if str_eqb t "good" then Ok (mkClaims 7 900 1100 "web" "" 0, fun k => None) else Err (ErrNew "malformed").
Definition demo_after : Router := match demo_routes with RVal r => r | RPanic _ => demo_router end.
Lemma demo_registered : demo_routes = RVal demo_after.
Proof.
  assert (H : match demo_routes with RVal _ => true | RPanic _ => false end = true) by (vm_compute; reflexivity).
  unfold demo_after. by destruct demo_routes.
Qed.

Lemma PRequireLogin_guards_witness :
  option_map reply (handle demo_after "POST" (newCtx (full_path "v4" "hello") {[ "Authorization" := "Bearer bad" ]} "moin"))
  = Some (Some (200, Some [unauthorized])).
Proof.
  apply (PRequireLogin_guards "prod" demoI18n 1000000000 "id1" demo_secret demo_parse (fun _ => false) quiet_cors
    respHeaders newInjectors "hello" [HApi demo_api] demo_router demo_after "v4" _ "moin").
  - exact quiet_adds.
  - exact newInjectors_behaved.
  - reflexivity.
  - exact demo_registered.
  - right. left.
  - intros [_ [H|(claims & verify & key & H & _)]]; vm_compute in H; discriminate H.
Defined.
Lemma register_everywhere_witness :
  demo_routes = RVal demo_after /\
  option_map route_path (route_of demo_after "POST" "/v4/hello") = Some "/v4/hello".
Proof.
  split; [exact demo_registered|].
  destruct (register_everywhere "prod" demoI18n ["POST"] "hello" [HGin AuthMiddleWare; HApi demo_api]
    demo_router demo_after demo_registered) as [H _].
  specialize (H "POST" "v4" ltac:(left) ltac:(right; left)). change (full_path "v4" "hello") with "/v4/hello" in H. by rewrite H.
Defined.
Lemma transAPI_well_typed_witness :
  WellTyped demo_api /\
  transAPI "prod" demoI18n (inl demo_api) Done (newCtx "/v3/hello" ∅ "panic")
  = Panicked "boom" (newCtx "/v3/hello" ∅ "panic").
Proof.
  assert (H : WellTyped demo_api) by (repeat split; discriminate). split; [exact H|].
  exact (transAPI_well_typed "prod" demoI18n demo_api Done (newCtx "/v3/hello" ∅ "panic") H).
Defined.
Lemma login_admitted_witness :
  reply (serve (demo_chain ++ [AuthMiddleWare; transAPI "prod" demoI18n (inl demo_api)])
               (newCtx "/v4/hello" {[ "Authorization" := "good" ]} "panic"))
  = Some (500, Some [base_json 500 "网络错误，请稍后重试"]).
Proof.
  unfold demo_chain.
  rewrite (login_admitted "prod" 1000000000 "id1" demo_secret demo_parse (fun _ => false) quiet_cors respHeaders newInjectors
    (transAPI "prod" demoI18n (inl demo_api)) "/v4/hello" {[ "Authorization" := "good" ]} "panic"
    (mkLogin "good" (Some (mkClaims 7 900 1100 "web" "" 0)) "web" None RoleNil StateSucc ∅)).
  - vm_compute. reflexivity.
  - exact quiet_adds.
  - exact newInjectors_behaved.
  - apply transAPI_final. intros c req Hc. cbn [call demo_api]. unfold greeting.
    destruct (str_eqb req "panic"); [split; [reflexivity|exact Hc]|]. destruct (str_eqb req "fail"); split; reflexivity || exact Hc.
  - vm_compute. reflexivity.
  - reflexivity.
Defined.
