(* ===== verification/HttpLog.v ===== *)
(** [src/apis/runtime/middleware/logger.go] and [metrics.go]: the entry that each
    request leaves in the log and the observation of its time, on the chain of
    [Http], the loggers of [Logging], the metrics of [Metrics] and the floating
    point of [Money]; the stack that a panic leaves in the log ([recovery.go]). *)
From S2P Require Import Prelude Sse Strings Json Regexp JsonText Money Metrics Remote Logging Http.
#[local] Open Scope string_scope.
#[local] Open Scope Z_scope.

(** * What a request has beside its context *)
(** The pattern of its route, empty for none, and what the client sent. *)
Record Request : Type := mkRequest { FullPath : string; Method : string; RequestURI : string; ContentLength : Z; RemoteAddr : string }.
#[export] Instance Float64 : Float := {
  float := float64; negative := fun x => f_less x zero; infinite := IsInf;
  increasing := fix inc (l : list float64) : bool := match l with x :: (y :: _) as l' => f_less x y && inc l' | _ => true end
}.
(** [time.Duration.Seconds]. *)
Definition Seconds (d : Z) : float64 := f_add (of_Z (Z.quot d 1000000000)) (f_div (of_Z (Z.rem d 1000000000)) (of_Z 1000000000)).
(** What a chain of handlers changes beside the context: the loggers, what was
    written, the metrics of the process, the clock, the errors of the context and
    what reading the body gives, [None] a nil body. *)
Record Access : Type := mkAccess {
  a_logs : LogState; entries : list Entry; a_metrics : State_; now : Z; Errors : list error; Body : option (Res string)
}.
Definition set_logs (l : LogState) (a : Access) : Access := mkAccess l a.(entries) a.(a_metrics) a.(now) a.(Errors) a.(Body).
Definition add_entries (l : list Entry) (a : Access) : Access := mkAccess a.(a_logs) (a.(entries) ++ l) a.(a_metrics) a.(now) a.(Errors) a.(Body).
Definition set_metrics (m : State_) (a : Access) : Access := mkAccess a.(a_logs) a.(entries) m a.(now) a.(Errors) a.(Body).
Definition add_error (e : error) (a : Access) : Access := mkAccess a.(a_logs) a.(entries) a.(a_metrics) a.(now) (a.(Errors) ++ [e]) a.(Body).
Definition set_body (b : option (Res string)) (a : Access) : Access := mkAccess a.(a_logs) a.(entries) a.(a_metrics) a.(now) a.(Errors) b.
(** The rest of the chain. *)
Definition Rest : Type := Ctx -> Access -> Out * Access.

(** * Handlers *)
Section Handlers.
(** [prometheus.DefBuckets]; the bytes of an answer; the number of the context
    under which the loggers know it. *)
Context (DefBuckets : list float64) (length_of : list json -> Z) (g : nat).
Definition reqBodyMaxSize : nat := 128.
(** [ctx.GetRawData]: a body that was read to its end is empty. *)
Definition GetRawData (a : Access) : Res string * Access :=
  match a.(Body) with
  | Some (Ok data) => (Ok data, set_body (Some (Ok "")) a)
  | Some (Err e) => (Err e, a)
  | None => (Err (ErrNew "cannot read nil body"), a)
  end.
Definition Compact (s : string) : string := of_bytes (compact false false (rune_bytes s)).
Definition getReqBody (a : Access) : Res string * Access :=
  match a.(Body) with
  | None => (Ok "", a)
  | Some _ =>
      match GetRawData a with
      | (Err e, a) => (Err e, a)
      | (Ok byteBody, a) =>
          let a := set_body (Some (Ok byteBody)) a in
          (Ok (match parse_s byteBody with Some _ => Compact byteBody | None => byteBody end), a)
      end
  end.
Definition read_body (a : Access) : string * Access :=
  match getReqBody a with
  | (Err e, a) => ("", add_error e a)
  | (Ok reqBody, a) => (str_take reqBodyMaxSize reqBody, a)
  end.
Definition whitelisted (whitelist : list string) (rq : Request) : bool := existsb (fun x => has_suffix x rq.(FullPath)) whitelist.
Definition labels_of (c : Ctx) : gmap string string := <["uri" := c.(path)]> {["code" := fmt_d c.(status)]}.
Definition latency : string := "request_latency_seconds".
(** An error of the metrics is dropped. *)
Definition observe (hb : HistogramBuilder) (c : Ctx) (cost : Z) (a : Access) : option string * Access :=
  match Histogram_Observe DefBuckets (Seconds cost) hb a.(a_metrics) with
  | (Panic p, m) => (Some p, set_metrics m a)
  | (Val _, m) => (None, set_metrics m a)
  end.
Definition respsize (c : Ctx) : Z := match c.(answer) with Some l => length_of l | None => -1 end.
Definition GetInt (c : Ctx) (k : string) : Z := match c.(keys) !! k with Some (VInt z) => z | _ => 0 end.
Definition log_args (rq : Request) (reqBody : string) (cost : Z) (c : Ctx) : list Field :=
  ([("method", rq.(Method)); ("uri", rq.(RequestURI)); ("reqbody", reqBody); ("reqsize", fmt_d rq.(ContentLength));
   ("latency", FormatFloat (Seconds cost) 3); ("clientip", GetRealIP rq.(RemoteAddr) c); ("respsize", fmt_d (respsize c));
   ("referer", header c "Referer"); ("uin", fmt_d (GetInt c CtxKeyUin))]
   ++ (if str_eqb (header c "App-Version") "" then [] else [("appversion", header c "App-Version")])
   ++ (if str_eqb (header c "App-Type") "" then [] else [("apptype", header c "App-Type")]))%list.
(** The entry of a request: an error from 500 on. *)
Definition entry_of (rq : Request) (reqBody : string) (cost : Z) (c : Ctx) (s : LogState) : list Entry :=
  let l := LoggerFromContext s (Some (GinCtx g)) in
  if 500 <=? c.(status) then write ErrorLevel l (log_args rq reqBody cost c) (fmt_d c.(status))
  else write InfoLevel l (log_args rq reqBody cost c) (fmt_d (GetInt c CtxKeyCode)).
Definition frac (a b : Z) : float64 := f_div (of_Z a) (of_Z b).
Definition latency_buckets : list float64 := [frac 1 5; frac 4 5; frac 8 5; of_Z 5; of_Z 10; of_Z 60].
Definition Logger (whitelist : list string) (rq : Request) (next : Rest) (c : Ctx) (a : Access) : Out * Access :=
  let a := set_logs (SetContextFields (Some (GinCtx g)) [("reqid", GetString c CtxKeyRequestID)] a.(a_logs)) a in
  if whitelisted whitelist rq then next c a
  else
    let '(reqBody, a) := read_body a in
    let start := a.(now) in
    match next c a with
    | (Done c, a) =>
        let cost := a.(now) - start in
        match observe (Buckets latency_buckets (Histogram_With (labels_of c) (Histogram latency))) c cost a with
        | (Some p, a) => (Panicked p c, a)
        | (None, a) => (Done c, add_entries (entry_of rq reqBody cost c a.(a_logs)) a)
        end
    | r => r
    end.
(** The body is read here for nothing. *)
Definition Metrics (whitelist : list string) (rq : Request) (next : Rest) (c : Ctx) (a : Access) : Out * Access :=
  if whitelisted whitelist rq then next c a
  else
    let '(_, a) := read_body a in
    let start := a.(now) in
    match next c a with
    | (Done c, a) =>
        match observe (Histogram_With (labels_of c) (Histogram latency)) c (a.(now) - start) a with
        | (Some p, a) => (Panicked p c, a)
        | (None, a) => (Done c, a)
        end
    | r => r
    end.
End Handlers.

(** * The stack of a panic, [recovery.go] *)
Definition dunno : string := "???".
(** The part behind the last slash of a name, its package cut off. *)
Definition cut_at (c : ascii) (s : string) : option string := match split_on c s with _ :: ((_ :: _) as l) => Some (str_join (String c "") l) | _ => None end.
Definition function (name : option string) : string :=
  match name with
  | None => dunno
  | Some name =>
      let name := List.last (split_on "/" name) "" in
      Sse.ReplaceAll (default name (cut_at "." name)) "·" "."
  end.
(** The n-th line counts from one. *)
Definition source (lines : list string) (n : Z) : string :=
  let n := n - 1 in
  if (n <? 0) || (Z.of_nat (length lines) <=? n) then dunno else TrimSpace (nth (Z.to_nat n) lines "").
(** What [runtime.Caller] answers: the number of the instruction as hexadecimal
    text, the file, the line and the function. *)
Record Frame : Type := mkFrame { pc : string; file : string; line : Z; func : option string }.
Section Stack.
Context (ReadFile : string -> Res string).
Fixpoint stack_from (frames : list Frame) (lines : list string) (lastFile : string) : string :=
  match frames with
  | [] => ""
  | f :: frames' =>
      let head := f.(file) ++ ":" ++ fmt_d f.(line) ++ " (0x" ++ f.(pc) ++ ")" ++ newline in
      let body lines := String (ascii_of_nat 9) "" ++ function f.(func) ++ ": " ++ source lines f.(line) ++ newline in
      if str_eqb f.(file) lastFile then head ++ body lines ++ stack_from frames' lines lastFile
      else match ReadFile f.(file) with
           | Err _ => head ++ stack_from frames' lines lastFile
           | Ok data => let lines := split_on (ascii_of_nat 10) data in head ++ body lines ++ stack_from frames' lines f.(file)
           end
  end.
Definition stack (skip : nat) (frames : list Frame) : string := stack_from (skipn skip frames) [] "".
End Stack.

(** * What a request leaves *)
Lemma ascii_valid s : Forall (fun b => 0 <= b < 128) (rune_bytes s) -> ValidString s = true.
Proof.
  intros Hs. assert (E : ToValid (rune_bytes s) = rune_bytes s).
  { induction Hs as [|b l Hb Hl IH]; [done|]. by apply (ToValid_app [b]); [apply Kept_ascii|]. }
  unfold ValidString, valid_text. rewrite E, of_bytes_rune_bytes. unfold str_eqb. apply String.eqb_refl.
Qed.
Lemma number_valid n : 0 <= n -> ValidString (fmt_d n) = true.
Proof.
  intros Hn. apply ascii_valid. pose proof (fmt_d_digits n) as Hd. revert Hd. generalize (fmt_d n) as s. induction s as [|c s IH]; intros Hd; [constructor|].
  constructor.
  - assert (Hc : is_digit c = true) by (apply Hd; [done|]; cbn; by rewrite Ascii.eqb_refl).
    clear -Hc. by destruct c as [[] [] [] [] [] [] [] []].
  - apply IH. intros c' Hn' Hc'. apply Hd; [done|]. cbn. by destruct (Ascii.eqb _ _).
Qed.
Section Spec.
Context (DefBuckets : list float64) (length_of : list json -> Z) (g : nat).
Lemma label_names c : extractLabelKeys (labels_of c) = ["code"; "uri"].
Proof. unfold labels_of. generalize (path c) as p, (fmt_d (status c)) as k. intros p k. vm_compute. reflexivity. Qed.
Lemma labels_clean c : clean latency (extractLabelKeys (labels_of c)).
Proof. rewrite label_names. split; [done|]. by repeat constructor. Qed.
(** The metric is registered, with buckets in order. *)
Definition ready (s : State_) : Prop := Inv s /\ exists i v,
  maps KHistogram (fst s) !! getLabelKey latency ["code"; "uri"] = Some i /\ nth_error (snd s).(vecs) i = Some v /\
  match v.(extra) with XBuckets l => increasing l = true | _ => True end.
Lemma with_ready (s : State_) i v c : Inv s -> maps KHistogram (fst s) !! getLabelKey latency ["code"; "uri"] = Some i ->
  nth_error (snd s).(vecs) i = Some v -> match v.(extra) with XBuckets l => increasing l = true | _ => True end -> 0 <= c.(status) ->
  v.(v_kind) = KHistogram /\ with_panics (labels_of c) v = if ValidString c.(path) then None else Some "label value is not valid UTF-8".
Proof.
  intros HI Hi Hv Hx Hst. rewrite <- (label_names c) in Hi. destruct (remembered _ _ _ _ _ HI (labels_clean c) Hi) as (v' & Hv' & Hk & Hn & _).
  rewrite Hv in Hv'. injection Hv' as <-. rewrite label_names in Hn. split; [done|]. unfold with_panics. rewrite Hn.
  assert (Hsz : size (labels_of c) = 2%nat) by (by rewrite <- labels_size, label_names).
  rewrite Hsz. cbn [length]. rewrite bool_decide_true by done. cbn [negb].
  assert (Hval : forallb (fun x => ValidString (snd x)) (map_to_list (labels_of c)) = ValidString c.(path)).
  { assert (Hu : labels_of c !! "uri" = Some c.(path)) by (unfold labels_of; by rewrite lookup_insert_eq).
    apply eq_true_iff_eq. rewrite forallb_forall. split.
    - intros Hall. apply (Hall ("uri", c.(path))). rewrite <- list_elem_of_In. by apply elem_of_map_to_list.
    - intros Hp [k x] Hin. rewrite <- list_elem_of_In in Hin. apply elem_of_map_to_list in Hin. unfold labels_of in Hin. cbn [snd].
      destruct (decide (k = "uri")) as [->|Hk']; [rewrite lookup_insert_eq in Hin; by injection Hin as <-|].
      rewrite lookup_insert_ne in Hin by done. apply lookup_singleton_Some in Hin as [_ <-]. by apply number_valid. }
  rewrite Hval. destruct (ValidString (path c)); [|done]. cbn [negb].
  assert (Hthere : forallb (fun n => bool_decide (is_Some (labels_of c !! n))) ["code"; "uri"] = true) by done.
  rewrite Hthere. cbn [negb]. destruct (series v !! labels_of c); [done|]. unfold series_panics. rewrite Hk, Hn. cbn [existsb orb].
  change (str_eqb "le" "code" || (str_eqb "le" "uri" || false)) with false. cbv iota. destruct (extra v) as [|l|l]; [reflexivity| |reflexivity]. rewrite Hx. reflexivity.
Qed.
Lemma set_metrics_same a : set_metrics a.(a_metrics) a = a.
Proof. by destruct a. Qed.
(** A ready metric takes the observation of a valid path and panics at any
    other. *)
Lemma observe_ready hb c cost a : hb.(hb_name) = latency -> hb.(hb_labels) = Some (labels_of c) -> ready a.(a_metrics) -> 0 <= c.(status) ->
  let '(o, a') := observe DefBuckets hb c cost a in
  (exists m, a' = set_metrics m a) /\ ready a'.(a_metrics) /\
  if ValidString c.(path)
  then o = None /\ forall c2, view a'.(a_metrics) KHistogram latency (labels_of c2) =
         (view a.(a_metrics) KHistogram latency (labels_of c2) ++ (if decide (labels_of c2 = labels_of c) then [UObserve (Seconds cost)] else []))%list
  else o = Some "label value is not valid UTF-8" /\ a' = a.
Proof.
  intros Hn Hl (HI & i & v & Hi & Hv & Hx) Hst. unfold observe, Histogram_Observe, autoRegisterHistogram, autoRegister. rewrite Hn, Hl.
  set (b := XBuckets _). change (default ∅ (Some (labels_of c))) with (labels_of c). destruct (with_ready _ _ _ _ HI Hi Hv Hx Hst) as [Hk Hw].
  destruct (a_metrics a) as [em c0] eqn:Ea. cbv beta iota zeta. rewrite label_names. cbn [fst snd] in *. rewrite Hi. unfold finish, with_update. rewrite Hv, Hw.
  destruct (ValidString (path c)).
  - cbn [update_panics]. rewrite Hk. split; [by eexists|]. cbn [set_metrics a_metrics].
    set (c1 := Metrics.mkClient _ _).
    assert (Er : record KHistogram b latency (labels_of c) (UObserve (Seconds cost)) (em, c0) = (Val None, (em, c1))).
    { unfold record, autoRegister. cbv zeta. rewrite label_names, Hi. unfold finish, with_update. rewrite Hv, Hw, Hk. reflexivity. }
    destruct (record_view _ _ _ _ _ _ _ _ HI (labels_clean c) Er) as (HI1 & _ & Hview). split; [|split; [reflexivity|]].
    + split; [exact HI1|]. exists i, (push (labels_of c) [@UObserve Float64 (Seconds cost)] v). split; [exact Hi|]. split; [|exact Hx].
      cbn [snd c1 vecs]. rewrite nth_error_lookup. apply list_lookup_insert_eq. apply nth_error_Some. by rewrite Hv.
    + intros c2. cbn [set_metrics a_metrics]. rewrite (Hview eq_refl) by apply labels_clean. f_equal.
      apply decide_ext. split; [intros E; exact (f_equal snd E)|intros E; exact (f_equal (fun l => (KHistogram, latency, l)) E)].
  - assert (Es : set_metrics (em, c0) a = a) by (rewrite <- Ea; apply set_metrics_same). rewrite Es. split; [exists (em, c0); symmetry; exact Es|]. split; [|split; reflexivity].
    rewrite Ea. split; [exact HI|]. exists i, v. split; [exact Hi|]. split; [exact Hv|exact Hx].
Qed.
(** Registering the metric with buckets in order makes it ready. *)
Lemma ready_registered b s c i s' : Inv s -> maps KHistogram (fst s) !! getLabelKey latency ["code"; "uri"] = None ->
  autoRegister KHistogram (XBuckets b) latency (labels_of c) s = (Val (Ok i), s') -> increasing b = true -> ready s'.
Proof.
  intros HI Hn E Hb. destruct (autoRegister_inv _ _ _ _ _ _ _ HI (labels_clean c) E) as (HI' & Hi & Hcase). rewrite label_names in Hi, Hcase.
  split; [exact HI'|]. destruct Hcase as [->|(_ & -> & _ & v & Hv & _ & _ & Hx)]; [by rewrite Hn in Hi|].
  exists (length (vecs (snd s))), v. split; [exact Hi|]. split; [|by rewrite Hx]. rewrite Hv, nth_error_snoc. by rewrite decide_True.
Qed.
(** The metric as one finds it in a manager: what is registered under its key
    has buckets in order. *)
Definition latency_key : string := getLabelKey latency ["code"; "uri"].
Definition sound (s : State_) : Prop := Inv s /\ forall i v, maps KHistogram (fst s) !! latency_key = Some i -> nth_error (snd s).(vecs) i = Some v ->
  match v.(extra) with XBuckets l => increasing l = true | _ => True end.
(** The metric is registered, or its full name is text that the registry does
    not have yet. *)
Definition full_name (s : State_) : string := BuildFQName (fst s).(namespace) (fst s).(subsystem) latency.
Definition takes (s : State_) : bool :=
  bool_decide (is_Some (maps KHistogram (fst s) !! latency_key)) ||
  ValidString (full_name s) && forallb (fun v => negb (str_eqb v.(fqName) (full_name s))) (registered (fst s).(registry) (snd s)).
Lemma ready_sound s : ready s -> sound s.
Proof. intros (HI & i & v & Hi & Hv & Hx). split; [exact HI|]. intros i' v' Hi' Hv'. unfold latency_key in Hi'. rewrite Hi in Hi'. injection Hi' as <-. rewrite Hv in Hv'. by injection Hv' as <-. Qed.
Lemma sound_ready s i : sound s -> maps KHistogram (fst s) !! latency_key = Some i -> ready s.
Proof.
  intros [HI Hx] Hi. split; [exact HI|]. destruct (inv_maps _ HI _ _ _ Hi) as (v & _ & Hv & _). exists i, v. split; [exact Hi|]. split; [exact Hv|]. by eapply Hx.
Qed.
Lemma full_name_some s : str_eqb (full_name s) "" = false.
Proof. unfold full_name, BuildFQName. destruct (namespace (fst s)), (subsystem (fst s)); reflexivity. Qed.
(** The first observation registers the metric if the registry takes it. *)
Lemma first_registers b s c : maps KHistogram (fst s) !! latency_key = None ->
  if takes s then exists s', autoRegister KHistogram (XBuckets b) latency (labels_of c) s = (Val (Ok (length (vecs (snd s)))), s')
  else exists e, autoRegister KHistogram (XBuckets b) latency (labels_of c) s = (Val (Err e), s).
Proof.
  intros Hn. unfold takes. rewrite Hn. rewrite bool_decide_false by (by intros [? ?]). cbn [orb]. destruct s as [em c0]. unfold autoRegister. cbn [fst snd] in *.
  rewrite label_names. unfold latency_key in Hn. rewrite Hn. cbv zeta. unfold new_vec_panics. cbn [v_kind]. rewrite bool_decide_false by done. cbn [andb]. unfold Register, valid_desc.
  cbn [fqName labelNames]. change (BuildFQName (namespace em) (subsystem em) latency) with (full_name (em, c0)). rewrite full_name_some. cbn [negb andb].
  destruct (ValidString (full_name (em, c0))); [|by eexists]. change (forallb checkLabelName ["code"; "uri"]) with true. cbn [negb andb].
  destruct (List.find _ _) as [x|] eqn:Ef.
  - apply List.find_some in Ef as [Hin He]. destruct (forallb _ _) eqn:Ea; [|by destruct (_ && _); eexists]. rewrite forallb_forall in Ea. specialize (Ea x Hin). by rewrite He in Ea.
  - destruct (forallb _ _) eqn:Ea; [by eexists|]. apply not_true_iff_false in Ea as []. apply forallb_forall. intros x Hin. by rewrite (List.find_none _ _ Ef x Hin).
Qed.
Lemma buckets_increase : increasing latency_buckets = true.
Proof. vm_compute. reflexivity. Qed.
Definition the_builder (c : Ctx) : HistogramBuilder := Buckets latency_buckets (Histogram_With (labels_of c) (Histogram latency)).
Lemma observe_eq c cost a : observe DefBuckets (the_builder c) c cost a =
  match finish (labels_of c) (UObserve (Seconds cost)) (autoRegister KHistogram (XBuckets latency_buckets) latency (labels_of c) a.(a_metrics)) with
  | (Panic p, m) => (Some p, set_metrics m a)
  | (Val _, m) => (None, set_metrics m a)
  end.
Proof. reflexivity. Qed.
Lemma observe_registered c cost a i s' : Inv a.(a_metrics) -> autoRegister KHistogram (XBuckets latency_buckets) latency (labels_of c) a.(a_metrics) = (Val (Ok i), s') ->
  observe DefBuckets (the_builder c) c cost a = observe DefBuckets (the_builder c) c cost (set_metrics s' a).
Proof.
  intros HI E. destruct (autoRegister_inv _ _ _ _ _ _ _ HI (labels_clean c) E) as (_ & Hi & _). rewrite !observe_eq, E. cbn [set_metrics a_metrics].
  assert (E' : autoRegister KHistogram (XBuckets latency_buckets) latency (labels_of c) s' = (Val (Ok i), s')).
  { destruct s' as [em c0]. unfold autoRegister. cbn [fst] in Hi. by rewrite Hi. }
  by rewrite E'.
Qed.
(** An observation on a sound manager, whatever came before. *)
Lemma observe_sound c cost a : sound a.(a_metrics) -> 0 <= c.(status) -> exists m, sound m /\
  observe DefBuckets (the_builder c) c cost a =
    (if takes a.(a_metrics) && negb (ValidString c.(path)) then Some "label value is not valid UTF-8" else None, set_metrics m a) /\
  forall c2, view m KHistogram latency (labels_of c2) = (view a.(a_metrics) KHistogram latency (labels_of c2) ++
    (if takes a.(a_metrics) && ValidString c.(path) && bool_decide (labels_of c2 = labels_of c) then [UObserve (Seconds cost)] else []))%list.
Proof.
  intros Hs Hst.
  assert (Hr : forall a, ready a.(a_metrics) -> exists m, sound m /\
    observe DefBuckets (the_builder c) c cost a = (if negb (ValidString c.(path)) then Some "label value is not valid UTF-8" else None, set_metrics m a) /\
    forall c2, view m KHistogram latency (labels_of c2) = (view a.(a_metrics) KHistogram latency (labels_of c2) ++
      (if ValidString c.(path) && bool_decide (labels_of c2 = labels_of c) then [UObserve (Seconds cost)] else []))%list).
  { clear a Hs. intros a Hr. pose proof (observe_ready (the_builder c) c cost a eq_refl eq_refl Hr Hst) as Ho. destruct (observe _ _ _ _ _) as [o a'].
    destruct Ho as ((m & ->) & Hm & Ho). exists m. split; [by apply ready_sound|]. destruct (ValidString (path c)).
    - destruct Ho as [-> Hv]. split; [done|]. intros c2. rewrite Hv. cbn [andb]. by destruct (decide _) as [Hd|Hd]; [rewrite bool_decide_true by done|rewrite bool_decide_false by done].
    - destruct Ho as [-> E]. split; [done|]. intros c2. rewrite app_nil_r. exact (f_equal (fun x => view (a_metrics x) KHistogram latency (labels_of c2)) E). }
  destruct (maps KHistogram (fst (a_metrics a)) !! latency_key) as [i|] eqn:Ei.
  - assert (Ht : takes (a_metrics a) = true) by (unfold takes; by rewrite Ei, bool_decide_true). rewrite Ht. cbn [andb]. apply Hr. by eapply sound_ready.
  - pose proof (first_registers latency_buckets _ c Ei) as Hf. destruct (takes (a_metrics a)).
    + destruct Hf as [s' E]. destruct Hs as [HI _]. pose proof (ready_registered _ _ _ _ _ HI Ei E buckets_increase) as Hr'.
      destruct (Hr (set_metrics s' a) Hr') as (m & Hm & Ho & Hv). exists m. split; [exact Hm|]. cbn [andb]. split; [by rewrite (observe_registered c cost a _ _ HI E), Ho|].
      intros c2. rewrite Hv. cbn [set_metrics a_metrics]. by rewrite (autoRegister_view _ _ _ _ _ _ _ KHistogram latency (labels_of c2) HI (labels_clean c) (labels_clean c2) E).
    + destruct Hf as [e E]. exists (a_metrics a). split; [exact Hs|]. cbn [andb]. split; [by rewrite observe_eq, E|]. intros c2. by rewrite app_nil_r.
Qed.
(** What the rest of the chain is given: the request as it was, a logger with
    the number of the request, and the error of a body that cannot be read. *)
Definition seen (c : Ctx) (a : Access) : Access :=
  let a := set_logs (SetContextFields (Some (GinCtx g)) [("reqid", GetString c CtxKeyRequestID)] a.(a_logs)) a in
  match a.(Body) with Some (Err e) => add_error e a | _ => a end.
(** The text of the body in the entry. *)
Definition logged_body (a : Access) : string :=
  match a.(Body) with
  | Some (Ok data) => str_take reqBodyMaxSize (match parse_s data with Some _ => Compact data | None => data end)
  | _ => ""
  end.
Lemma read_body_seen c a : let a1 := set_logs (SetContextFields (Some (GinCtx g)) [("reqid", GetString c CtxKeyRequestID)] a.(a_logs)) a in
  read_body a1 = (logged_body a, seen c a).
Proof. destruct a as [l es m n er [[d|e]|]]; reflexivity. Qed.
Lemma seen_body c a : (seen c a).(Body) = a.(Body) /\ (seen c a).(a_metrics) = a.(a_metrics) /\ (seen c a).(entries) = a.(entries).
Proof. by destruct a as [l es m n er [[d|e]|]]. Qed.
(** C37: A request to a route that is not exempt reaches the rest of the chain with
    its body unread.  When that is done the answer stands, the time that it took
    is added to the metric of the path and the status (which the first request
    registers), and each output of the logger of the context whose level is not
    above that of the entry gets one entry: an error with the status as its
    message from status 500 on, else an information with the code of the answer,
    in both the fields of the logger and then those of the request.  A metric
    that the registry refuses (another has its name) is dropped and the entry is
    written.  A path that is not UTF-8 is the exception: the metric panics behind
    the answer, and neither the observation nor the entry is made; a panic in the
    rest of the chain is passed on without either. *)
Theorem Logger_spec whitelist rq next c a : whitelisted whitelist rq = false ->
  match next c (seen c a) with
  | (Done c1, a1) => sound a1.(a_metrics) -> 0 <= c1.(status) ->
      let cost := a1.(now) - a.(now) in
      let level := if 500 <=? c1.(status) then 2 else 0 in
      let text := if 500 <=? c1.(status) then fmt_d c1.(status) else fmt_d (GetInt c1 "code") in
      let request := ([("method", rq.(Method)); ("uri", rq.(RequestURI)); ("reqbody", logged_body a); ("reqsize", fmt_d rq.(ContentLength));
        ("latency", FormatFloat (Seconds cost) 3); ("clientip", GetRealIP rq.(RemoteAddr) c1);
        ("respsize", fmt_d (match c1.(answer) with Some l => length_of l | None => -1 end)); ("referer", header c1 "Referer"); ("uin", fmt_d (GetInt c1 "uin"))]
        ++ (if str_eqb (header c1 "App-Version") "" then [] else [("appversion", header c1 "App-Version")])
        ++ (if str_eqb (header c1 "App-Type") "" then [] else [("apptype", header c1 "App-Type")]))%list in
      exists m, sound m /\
        Logger DefBuckets length_of g whitelist rq next c a =
          (if takes a1.(a_metrics) && negb (ValidString c1.(path)) then (Panicked "label value is not valid UTF-8" c1, set_metrics m a1)
           else (Done c1, add_entries
             match LoggerFromContext a1.(a_logs) (Some (GinCtx g)) with
             | Some l => map (fun o => mkEntry o.(c_sink) o.(c_encoder) level l.(l_name) (l.(fields) ++ request) text)
                           (List.filter (fun o => o.(c_level) <=? level) l.(cores))
             | None => []
             end (set_metrics m a1))) /\
        forall c2, view m KHistogram latency (labels_of c2) = (view a1.(a_metrics) KHistogram latency (labels_of c2) ++
          (if takes a1.(a_metrics) && ValidString c1.(path) && bool_decide (labels_of c2 = labels_of c1) then [UObserve (Seconds cost)] else []))%list
  | r => Logger DefBuckets length_of g whitelist rq next c a = r
  end.
Proof.
  intros Hw. unfold Logger. rewrite Hw. pose proof (read_body_seen c a) as E. cbv zeta in E |- *. rewrite E.
  assert (En : now (seen c a) = now a) by (by destruct a as [l es m n er [[d|e]|]]). rewrite En.
  destruct (next c (seen c a)) as [[c1|p c1|] a1]; [|done|done]. intros Hs Hst.
  destruct (observe_sound c1 (now a1 - now a) a1 Hs Hst) as (m & Hm & Ho & Hv). exists m. split; [exact Hm|]. split; [|exact Hv].
  fold (the_builder c1). rewrite Ho. destruct (takes (a_metrics a1) && negb (ValidString (path c1))); [done|].
  unfold entry_of, write, log_at, log_args, respsize. cbn [a_logs set_metrics]. destruct (500 <=? status c1), (LoggerFromContext _ _); done.
Qed.
(** An exempt route leaves no trace of its own. *)
Lemma Logger_exempt whitelist rq next c a : whitelisted whitelist rq = true -> exists l, Logger DefBuckets length_of g whitelist rq next c a = next c (set_logs l a).
Proof. intros Hw. unfold Logger. rewrite Hw. by eexists. Qed.
(** The plain handlers of [Http] see no difference. *)
Lemma Logger_plain whitelist rq h c a c1 : h c = Done c1 -> exists a',
  Logger DefBuckets length_of g whitelist rq (fun c a => (h c, a)) c a = (Done c1, a') \/
  exists p, Logger DefBuckets length_of g whitelist rq (fun c a => (h c, a)) c a = (Panicked p c1, a').
Proof.
  intros Hh. unfold Logger. destruct (whitelisted whitelist rq); [rewrite Hh; eexists; by left|]. cbv zeta. destruct (read_body _) as [b a2].
  rewrite Hh. destruct (observe _ _ _ _ _) as [[p|] a3]; eexists; [right; by eexists|by left].
Qed.
End Spec.

(** * On concrete requests *)
Definition demo_metrics : State_ := Init "ygpkg" "core" 0 (Metrics.mkClient [] ∅).
Definition at_ (m : State_) (body : string) : Access := mkAccess (initial quiet_cls) [] m 0 [] (Some (Ok body)).
Definition hello : Request := mkRequest "/v3/hello" "POST" "/v3/hello?x" 12 "10.0.0.1:7".
(** A handler that takes a fifth of a second and more. *)
Definition answers (code : Z) : Rest := fun c a => (Done (JSON code JNull c), mkAccess a.(a_logs) a.(entries) a.(a_metrics) (a.(now) + 250000000) a.(Errors) a.(Body)).
Definition asked (p : string) : Ctx := set_key "reqid" (VStr "r1") (newCtx p {["App-Type" := "web"]} "").
Definition logger_at (p : string) (code : Z) (a : Access) : Out * Access := Logger [] (fun l => 4 * Z.of_nat (length l)) 1 [".Ping"] hello (answers code) (asked p) a.
Definition lines (r : Out * Access) : list (Z * string * list Field) := map (fun e => (e.(e_level), e.(e_msg), e.(e_fields))) (snd r).(entries).
Example one_line : lines (logger_at "/v3/hello" 500 (at_ demo_metrics "[ 1, 2 ]")) =
  [(2, "500", [("reqid", "r1"); ("method", "POST"); ("uri", "/v3/hello?x"); ("reqbody", "[1,2]"); ("reqsize", "12"); ("latency", "0.250");
    ("clientip", "10.0.0.1:7"); ("respsize", "4"); ("referer", ""); ("uin", "0"); ("apptype", "web")])].
Proof. vm_compute. reflexivity. Qed.
(** The metric as the first request registers it. *)
Definition registered_metrics : State_ := snd (autoRegister KHistogram (XBuckets latency_buckets) latency (labels_of (asked "/")) demo_metrics).
Lemma registered_ready : ready registered_metrics.
Proof.
  apply (ready_registered latency_buckets demo_metrics (asked "/") 0); [apply (Inv_Init "ygpkg" "core" 0 (Metrics.mkClient [] ∅))|reflexivity| |vm_compute; reflexivity].
  unfold registered_metrics. generalize latency_buckets as b. intros b. vm_compute. reflexivity.
Qed.
Definition bad_path : string := "/v3/" ++ String (ascii_of_nat 255) "".
Lemma demo_sound : sound demo_metrics.
Proof. split; [apply (Inv_Init "ygpkg" "core" 0 (Metrics.mkClient [] ∅))|]. intros i v Hi. by vm_compute in Hi. Qed.
(** The first request of a process, one with a path that is not UTF-8 when the
    metric is there, and a handler that panics. *)
Lemma Logger_spec_witness :
  (exists a', logger_at "/v3/hello" 500 (at_ demo_metrics "x") = (Done (JSON 500 JNull (asked "/v3/hello")), a') /\
     map (fun e => (e.(e_level), e.(e_msg))) a'.(entries) = [(2, "500")] /\
     view a'.(a_metrics) KHistogram latency (labels_of (JSON 500 JNull (asked "/v3/hello"))) = [UObserve (Seconds 250000000)]) /\
  fst (logger_at bad_path 200 (at_ registered_metrics "x")) = Panicked "label value is not valid UTF-8" (JSON 200 JNull (asked bad_path)) /\
  fst (Logger [] (fun _ => 0) 1 [] hello (fun c a => (Panicked "boom" c, a)) (asked "/") (at_ demo_metrics "x")) = Panicked "boom" (asked "/").
Proof.
  split; [|split].
  - destruct (Logger_spec [] (fun l => 4 * Z.of_nat (length l)) 1 [".Ping"] hello (answers 500) (asked "/v3/hello") (at_ demo_metrics "x") eq_refl demo_sound ltac:(done))
      as (m & _ & E & Hv).
    eexists. split; [exact E|]. split; [vm_compute; reflexivity|]. cbn [add_entries set_metrics a_metrics]. rewrite Hv. vm_compute. reflexivity.
  - destruct (Logger_spec [] (fun l => 4 * Z.of_nat (length l)) 1 [".Ping"] hello (answers 200) (asked bad_path) (at_ registered_metrics "x") eq_refl
      (ready_sound _ registered_ready) ltac:(done)) as (m & _ & E & _).
    unfold logger_at. rewrite E. vm_compute. reflexivity.
  - by rewrite (Logger_spec [] (fun _ => 0) 1 [] hello (fun c a => (Panicked "boom" c, a)) (asked "/") (at_ demo_metrics "x") eq_refl).
Defined.
(** Both middlewares observe the same metric: with both each request counts
    twice. *)
Example twice : view (snd (Logger [] (fun _ => 0) 1 [] hello (Metrics [] [] hello (answers 200)) (asked "/v3/hello") (at_ demo_metrics "x"))).(a_metrics) KHistogram latency
  (labels_of (JSON 200 JNull (asked "/v3/hello"))) = [UObserve (Seconds 250000000); UObserve (Seconds 250000000)].
Proof. vm_compute. reflexivity. Qed.
Example a_stack : stack (fun f => if str_eqb f "/a/b.go" then Ok ("package b" ++ newline ++ "  f()" ++ newline) else Err (ErrNew "no such file")) 1
  [mkFrame "0" "/x.go" 9 None; mkFrame "1f" "/a/b.go" 2 (Some "example.com/a.v2/b.(*T).f"); mkFrame "2f" "/a/b.go" 7 (Some "main.init·1"); mkFrame "3f" "/c.go" 1 None] =
  "/a/b.go:2 (0x1f)" ++ newline ++ String (ascii_of_nat 9) "(*T).f: f()" ++ newline ++
  "/a/b.go:7 (0x2f)" ++ newline ++ String (ascii_of_nat 9) "init.1: ???" ++ newline ++ "/c.go:1 (0x3f)" ++ newline.
Proof. vm_compute. reflexivity. Qed.
