(* ===== verification/StructInfo.v ===== *)
(** [src/apis/runtime/server/struct.go]: the description of the type of a request
    or an answer.  The types of Go are a tree whose leaves are named types, with
    an environment of what the names stand for, so types may be recursive. *)
From S2P Require Import Prelude.
#[local] Open Scope string_scope.
#[local] Open Scope Z_scope.

(** * Types *)
(** A named type by its package and name; any other by its shape.  The kinds
    without parts have the name that [reflect.Kind] prints; the shape [Refused]
    is one of those the parser panics at. *)
Inductive GoType : Type := Named (n : string) | Lit (s : Shape)
with Shape : Type :=
  | Basic (kind : string) | Struct (fields : Fields) | Ptr (t : GoType) | Array (t : GoType) | Slice (t : GoType) | Map (key elem : GoType)
  | Refused (kind : string) (msg : string)
(** The fields with their names and their tags for JSON. *)
with Fields : Type := NoFields | Field (name tag : string) (t : GoType) (rest : Fields).
Definition kind_of (s : Shape) : string :=
  match s with Basic k => k | Struct _ => "struct" | Ptr _ => "ptr" | Array _ => "array" | Slice _ => "slice" | Map _ _ => "map" | Refused k _ => k end.
Fixpoint count (fs : Fields) : Z := match fs with NoFields => 0 | Field _ _ _ rest => 1 + count rest end.

(** * [structParser] *)
Inductive structParser : Type := mkParser {
  id : nat; Depth : Z; IsPtr : bool; IsSlice : bool; Kind : string; FieldName : string; NumField : Z; Name : string; Tag : string;
  Key : option structParser; Val_ : option structParser; FieldsOf : list structParser
}.
Definition set_kind (k : string) (p : structParser) : structParser :=
  mkParser p.(id) p.(Depth) p.(IsPtr) p.(IsSlice) k p.(FieldName) p.(NumField) p.(Name) p.(Tag) p.(Key) p.(Val_) p.(FieldsOf).
Definition set_name (n : string) (p : structParser) : structParser :=
  mkParser p.(id) p.(Depth) p.(IsPtr) p.(IsSlice) p.(Kind) p.(FieldName) p.(NumField) n p.(Tag) p.(Key) p.(Val_) p.(FieldsOf).
Definition set_ptr (p : structParser) : structParser :=
  mkParser p.(id) p.(Depth) true p.(IsSlice) p.(Kind) p.(FieldName) p.(NumField) p.(Name) p.(Tag) p.(Key) p.(Val_) p.(FieldsOf).
Definition set_slice (p : structParser) : structParser :=
  mkParser p.(id) p.(Depth) p.(IsPtr) true p.(Kind) p.(FieldName) p.(NumField) p.(Name) p.(Tag) p.(Key) p.(Val_) p.(FieldsOf).
Definition set_num (n : Z) (p : structParser) : structParser :=
  mkParser p.(id) p.(Depth) p.(IsPtr) p.(IsSlice) p.(Kind) p.(FieldName) n p.(Name) p.(Tag) p.(Key) p.(Val_) p.(FieldsOf).
Definition set_entry (key val : option structParser) (p : structParser) : structParser :=
  mkParser p.(id) p.(Depth) p.(IsPtr) p.(IsSlice) p.(Kind) p.(FieldName) p.(NumField) p.(Name) p.(Tag) key val p.(FieldsOf).
Definition add_field (f : structParser) (p : structParser) : structParser :=
  mkParser p.(id) p.(Depth) p.(IsPtr) p.(IsSlice) p.(Kind) p.(FieldName) p.(NumField) p.(Name) p.(Tag) p.(Key) p.(Val_) (p.(FieldsOf) ++ [f]).
(** [existsStructInfo] is shared and holds pointers: the parser that a name was
    met with first, and the kind that each parser has by now. *)
Record Known : Type := mkKnown { exists_ : gmap string nat; kinds : list string }.
Definition fresh (depth : Z) (name tag : string) (k : Known) : structParser * Known :=
  (mkParser (length k.(kinds)) depth false false "" name 0 "" tag None None [], mkKnown k.(exists_) (k.(kinds) ++ [""])).
Definition note_kind (i : nat) (kind : string) (k : Known) : Known := mkKnown k.(exists_) (<[i := kind]> k.(kinds)).
Definition note_name (n : string) (i : nat) (k : Known) : Known := mkKnown (<[n := i]> k.(exists_)) k.(kinds).
Inductive Parse (A : Type) : Type := Parsed (a : A) (k : Known) | Refusal (msg : string) (k : Known) | OutOfFuel.
Arguments Parsed {A} a k. Arguments Refusal {A} msg k. Arguments OutOfFuel {A}.
Definition pthen {A B} (p : Parse A) (f : A -> Known -> Parse B) : Parse B :=
  match p with Parsed a k => f a k | Refusal m k => Refusal m k | OutOfFuel => OutOfFuel end.

Section Parser.
Context (underlying : string -> Shape).
(** The fields one after the other, each parsed with [one]. *)
Fixpoint newStructFields (one : structParser -> GoType -> Known -> Parse structParser) (fs : Fields) (sp : structParser) (k : Known) : Parse structParser :=
  match fs with
  | NoFields => Parsed sp k
  | Field name tag t rest =>
      let '(nsp, k) := fresh (sp.(Depth) + 1) name tag k in
      pthen (one nsp t k) (fun nsp k => newStructFields one rest (add_field nsp sp) k)
  end.
Definition parseMap (one : structParser -> GoType -> Known -> Parse structParser) (key elem : GoType) (sp : structParser) (k : Known) : Parse structParser :=
  let '(keysp, k) := fresh (sp.(Depth) + 1) "map.key" "" k in
  pthen (one keysp key k) (fun keysp k =>
    let sp := set_entry (Some keysp) sp.(Val_) sp in
    let '(valsp, k) := fresh (sp.(Depth) + 1) "map.value" "" k in
    pthen (one valsp elem k) (fun valsp k => Parsed (set_entry sp.(Key) (Some valsp) sp) k)).
(** Of a kind that cannot be described the type carries the text of the panic. *)
Definition parse_shape (one : structParser -> GoType -> Known -> Parse structParser) (s : Shape) (sp : structParser) (k : Known) : Parse structParser :=
  let sp := set_kind (kind_of s) sp in
  let k := note_kind sp.(id) (kind_of s) k in
  match s with
  | Basic _ => Parsed sp k
  | Struct fs => newStructFields one fs (set_num (count fs) sp) k
  | Ptr t => one (set_ptr sp) t k
  | Array t | Slice t => one (set_slice sp) t k
  | Map key elem => parseMap one key elem sp k
  | Refused _ msg => Refusal msg k
  end.
Fixpoint parse (fuel : nat) (sp : structParser) (rt : GoType) (k : Known) : Parse structParser :=
  match fuel with
  | O => OutOfFuel
  | S fuel' =>
      match rt with
      | Lit s => parse_shape (parse fuel') s sp k
      | Named n =>
          match k.(exists_) !! n with
          | Some old => let kind := nth old k.(kinds) "" in Parsed (set_name (n ++ ".copy") (set_kind kind sp)) (note_kind sp.(id) kind k)
          | None => parse_shape (parse fuel') (underlying n) (set_name n sp) (note_name n sp.(id) k)
          end
      end
  end.
(** The description that is then printed. *)
Definition parseInterface (fuel : nat) (rt : GoType) (k : Known) : Parse structParser :=
  let '(sp, k) := fresh 0 "" "" k in parse fuel sp rt k.
End Parser.

(** * A description is always made *)
(** The depth of a type up to its names. *)
Fixpoint height (t : GoType) : nat := match t with Named _ => 1%nat | Lit s => S (shape_height s) end
with shape_height (s : Shape) : nat :=
  match s with
  | Basic _ | Refused _ _ => O
  | Struct fs => fields_height fs
  | Ptr t | Array t | Slice t => height t
  | Map key elem => (height key `max` height elem)%nat
  end
with fields_height (fs : Fields) : nat := match fs with NoFields => O | Field _ _ t rest => (height t `max` fields_height rest)%nat end.
(** Only the given names, and nothing that is refused when [plain] is asked. *)
Fixpoint inside (plain : bool) (names : list string) (t : GoType) : bool :=
  match t with Named n => bool_decide (n ∈ names) | Lit s => shape_inside plain names s end
with shape_inside (plain : bool) (names : list string) (s : Shape) : bool :=
  match s with
  | Basic _ => true
  | Refused _ _ => negb plain
  | Struct fs => fields_inside plain names fs
  | Ptr t | Array t | Slice t => inside plain names t
  | Map key elem => inside plain names key && inside plain names elem
  end
with fields_inside (plain : bool) (names : list string) (fs : Fields) : bool :=
  match fs with NoFields => true | Field _ _ t rest => inside plain names t && fields_inside plain names rest end.

Section Ends.
Context (underlying : string -> Shape) (names : list string) (plain : bool).
(** The types of a program: finitely many names, that stand for shapes with
    these names. *)
Hypothesis closed : forall n, n ∈ names -> shape_inside plain names (underlying n) = true.
Definition known (k : Known) (n : string) : Prop := is_Some (k.(exists_) !! n).
#[local] Instance known_dec k n : Decision (known k n). Proof. unfold known. solve_decision. Defined.
Definition left_of (l : list string) (k : Known) : nat := sum_list_with (fun n => if decide (known k n) then O else S (shape_height (underlying n))) l.
Definition left (k : Known) : nat := left_of names k.
Definition more (k k' : Known) : Prop := forall n, known k n -> known k' n.
Lemma left_more k k' l : more k k' -> (left_of l k' <= left_of l k)%nat.
Proof.
  intros Hm. unfold left_of. induction l as [|n l IH]; [done|]. cbn. destruct (decide (known k n)) as [Hk|Hk].
  - rewrite decide_True by (by apply Hm). lia.
  - destruct (decide (known k' n)); lia.
Qed.
Lemma left_note l n i k : n ∈ l -> ~ known k n -> (S (shape_height (underlying n)) + left_of l (note_name n i k) <= left_of l k)%nat.
Proof.
  assert (Hm : more k (note_name n i k)).
  { intros m Hk. unfold known, note_name. cbn. destruct (decide (m = n)) as [->|Hn]; [by rewrite lookup_insert_eq|by rewrite lookup_insert_ne]. }
  intros Hin Hn. induction l as [|m l IH]; [by apply elem_of_nil in Hin|]. apply elem_of_cons in Hin as [<-|Hin].
  - unfold left_of. cbn. rewrite decide_True by (unfold known, note_name; cbn; by rewrite lookup_insert_eq). rewrite decide_False by done.
    pose proof (left_more _ _ l Hm). unfold left_of in *. lia.
  - specialize (IH Hin). unfold left_of in *. cbn. destruct (decide (known k m)) as [Hk|Hk]; [rewrite decide_True by (by apply Hm); lia|].
    destruct (decide (known (note_name n i k) m)); lia.
Qed.
Definition ended {A} (k : Known) (p : Parse A) : Prop :=
  match p with Parsed _ k' => more k k' | Refusal _ k' => plain = false /\ more k k' | OutOfFuel => False end.
Lemma ended_weaken {A} k k1 (p : Parse A) : more k k1 -> ended k1 p -> ended k p.
Proof. intros Hm. destruct p; cbn; unfold more in *; naive_solver. Qed.
Lemma ended_then {A B} k (p : Parse A) (f : A -> Known -> Parse B) : ended k p -> (forall a k', more k k' -> ended k' (f a k')) -> ended k (pthen p f).
Proof. intros Hp Hf. destruct p as [a k'|m k'|]; [|exact Hp..]. cbn in *. eapply ended_weaken; [exact Hp|]. by apply Hf. Qed.
Definition Good (one : structParser -> GoType -> Known -> Parse structParser) (b : nat) : Prop :=
  forall sp t k, inside plain names t = true -> (height t + left k <= b)%nat -> ended k (one sp t k).
Lemma fresh_more depth name tag k : exists sp k', fresh depth name tag k = (sp, k') /\ more k k' /\ left k' = left k.
Proof. eexists _, _. split; [reflexivity|]. split; [by intros n|reflexivity]. Qed.
Lemma fields_end one b fs : Good one b -> fields_inside plain names fs = true -> forall sp k, (fields_height fs + left k <= b)%nat ->
  ended k (newStructFields one fs sp k).
Proof.
  intros Hg. induction fs as [|name tag t rest IH]; intros Hin sp k Hb; [by intros n|]. cbn [fields_inside fields_height newStructFields] in *.
  apply andb_true_iff in Hin as [Ht Hr]. destruct (fresh_more (Depth sp + 1) name tag k) as (nsp & k1 & -> & Hm & Hl).
  eapply ended_weaken; [exact Hm|]. apply ended_then; [apply Hg; [done|rewrite Hl; lia]|]. intros f k2 Hm2. apply IH; [done|].
  pose proof (left_more _ _ names Hm2). unfold left in *. lia.
Qed.
Lemma shape_ends one b s : Good one b -> shape_inside plain names s = true -> forall sp k, (shape_height s + left k <= b)%nat ->
  ended k (parse_shape one s sp k).
Proof.
  intros Hg Hin sp k Hb. unfold parse_shape. set (k0 := note_kind _ _ k). assert (Hm : more k k0) by (by intros n). assert (Hl : left k0 = left k) by reflexivity.
  eapply ended_weaken; [exact Hm|]. rewrite <- Hl in Hb. clearbody k0. clear Hm Hl k.
  destruct s as [kd|fs|t|t|t|key elem|kd msg]; cbn [shape_inside shape_height] in *; try (by apply Hg); [by intros n|by apply (fields_end one b)| |by split; [by destruct plain|intros n]].
  apply andb_true_iff in Hin as [H1 H2]. unfold parseMap. destruct (fresh_more (Depth (set_kind (kind_of (Map key elem)) sp) + 1) "map.key" "" k0) as (ksp & k1 & -> & Hm & Hl).
  eapply ended_weaken; [exact Hm|]. apply ended_then; [apply Hg; [done|rewrite Hl; lia]|]. intros ksp' k2 Hm2. cbv zeta.
  destruct (fresh_more (Depth (set_entry (Some ksp') (Val_ (set_kind (kind_of (Map key elem)) sp)) (set_kind (kind_of (Map key elem)) sp)) + 1) "map.value" "" k2) as (vsp & k3 & -> & Hm3 & Hl3).
  eapply ended_weaken; [exact Hm3|]. apply ended_then; [|by intros v k4 _ n]. apply Hg; [done|]. pose proof (left_more _ _ names Hm2). unfold left in *. lia.
Qed.
Lemma parse_good fuel : Good (parse underlying fuel) fuel.
Proof.
  induction fuel as [|fuel IH]; intros sp t k Hin Hb; [destruct t; cbn in Hb; lia|]. cbn [parse]. destruct t as [n|s]; cbn [inside height] in *.
  - destruct (exists_ k !! n) as [old|] eqn:E; [by intros m|]. apply bool_decide_eq_true in Hin.
    assert (Hn : ~ known k n) by (intros [x Hx]; by rewrite E in Hx).
    pose proof (left_note names n (id sp) k Hin Hn) as Hl. eapply ended_weaken; [|apply (shape_ends _ fuel); [exact IH|by apply closed|unfold left in *; lia]].
    intros m Hk. unfold known, note_name. cbn. destruct (decide (m = n)) as [->|Hne]; [by rewrite lookup_insert_eq|by rewrite lookup_insert_ne].
  - apply (shape_ends _ fuel); [exact IH|done|lia].
Qed.
End Ends.
(** C38: describing a type always ends, types that contain themselves included, as a
    name is looked into once: with fuel for the depth of the type and of every
    name that is not known yet.  It ends with a description, and at the panic
    only when the types have a part that is refused. *)
Theorem parse_ends underlying names plain rt k : (forall n, n ∈ names -> shape_inside plain names (underlying n) = true) -> inside plain names rt = true ->
  forall fuel, (height rt + left underlying names k <= fuel)%nat ->
  (exists sp k', parseInterface underlying fuel rt k = Parsed sp k' /\ more k k') \/
  (plain = false /\ exists msg k', parseInterface underlying fuel rt k = Refusal msg k').
Proof.
  intros Hc Hi fuel Hb. unfold parseInterface. destruct (fresh_more underlying names 0 "" "" k) as (sp & k1 & -> & Hm & Hl).
  pose proof (parse_good underlying names plain Hc fuel sp rt k1 Hi) as Hp. rewrite Hl in Hp. specialize (Hp Hb).
  destruct (parse underlying fuel sp rt k1) as [sp' k'|msg k'|]; [left|right|by destruct Hp].
  - exists sp', k'. split; [done|]. intros n Hn. by apply Hp, Hm.
  - split; [by destruct Hp|]. by exists msg, k'.
Qed.

(** * On concrete types *)
(** A list of nodes of a tree with a map of trees, and a function among them. *)
Definition demo_types (n : string) : Shape :=
  if str_eqb n "pkg.Tree" then Struct (Field "Val" "val" (Lit (Basic "int")) (Field "Kids" "kids" (Lit (Slice (Lit (Ptr (Named "pkg.Tree")))))
    (Field "By" "" (Lit (Map (Named "pkg.ID") (Named "pkg.Tree"))) NoFields)))
  else if str_eqb n "pkg.ID" then Basic "string" else Refused "func" "invalid struct".
Definition nothing : Known := mkKnown ∅ [].
Fixpoint names_in (n : nat) (p : structParser) : list (string * string * string) :=
  match n with
  | O => []
  | S n' => ((p.(FieldName), p.(Name), p.(Kind)) :: List.concat (map (names_in n') (p.(FieldsOf) ++ match p.(Key) with Some x => [x] | None => [] end ++ match p.(Val_) with Some x => [x] | None => [] end)))%list
  end.
Example tree : match parseInterface demo_types 20 (Lit (Ptr (Named "pkg.Tree"))) nothing with Parsed p _ => (p.(IsPtr), names_in 9 p) | _ => (false, []) end =
  (true, [("", "pkg.Tree", "struct"); ("Val", "", "int"); ("Kids", "pkg.Tree.copy", "struct"); ("By", "", "map"); ("map.key", "pkg.ID", "string"); ("map.value", "pkg.Tree.copy", "struct")]).
Proof. vm_compute. reflexivity. Qed.
(** After a panic the name counts as known: the second try describes nothing. *)
Example after_a_panic : match parseInterface demo_types 20 (Named "pkg.Call") nothing with
  | Refusal msg k => (msg, match parseInterface demo_types 20 (Named "pkg.Call") k with Parsed p _ => p.(Name) | _ => "" end)
  | _ => ("", "") end = ("invalid struct", "pkg.Call.copy").
Proof. vm_compute. reflexivity. Qed.
Lemma parse_ends_witness : exists sp k', parseInterface demo_types 11 (Lit (Ptr (Named "pkg.Tree"))) nothing = Parsed sp k' /\ more nothing k'.
Proof.
  destruct (parse_ends demo_types ["pkg.Tree"; "pkg.ID"] true (Lit (Ptr (Named "pkg.Tree"))) nothing) with (fuel := 11%nat) as [H|[? _]]; [| |vm_compute; lia|exact H|done].
  - intros n [->|[->|Hn%elem_of_nil]%elem_of_cons]%elem_of_cons; [reflexivity..|done].
  - reflexivity.
Defined.
