(* ===== verification/LocalDir.v ===== *)
(** [src/storage/localdir.go]: the storage in a folder of the file system, over
    the paths and files of [Files].  Any system call may fail; the error
    messages that are only logged are left out. *)
From S2P Require Import Prelude Gorm FileInfo Files.

Record LocalStorage : Type := mkLocal { Dir_ : string; PublicPrefix : string }.
(** A reader: what it gives before it ends or fails. *)
Record IoReader : Type := mkIoReader { data : string; fails_with : option error }.

Section Local.
Context `{Env} (cwd : path).

(** The system calls on the paths as texts. *)
Definition os_Stat (name : string) : M FS bool := gextr (fun fs => (stat (resolve cwd name) fs, fs)).
Definition os_MkdirAll (name : string) : M FS unit := gextr (mkdir_all (resolve cwd name)).
Definition os_Create (name : string) : M FS unit := gextr (create (resolve cwd name)).
Definition os_Open (name : string) : M FS unit := gextr (fun fs => (open (resolve cwd name) fs, fs)).
Definition os_ReadDir (name : string) : M FS (list (string * bool)) := gextr (fun fs => (read_dir (resolve cwd name) fs, fs)).
Definition os_Remove (name : string) : M FS unit := gextr (remove (resolve cwd name)).
(** [io.Copy] from a reader into an open file: the count and the error; a write
    that fails writes nothing. *)
Definition io_Copy (dst : string) (r : IoReader) : M FS (Z * option error) :=
  let! written := gtry (gext (fun fs => (tt, write (resolve cwd dst) r.(data) fs))) in
  gret (match written with Ok _ => (Z.of_nat (String.length r.(data)), r.(fails_with)) | Err e => (0, Some e) end).
(** [io.Copy] from one open file into another: the source is read now. *)
Definition io_CopyFile (dst src : string) : M FS unit :=
  gextr (fun fs => match read (resolve cwd src) fs with
                   | Ok c => (Ok tt, write (resolve cwd dst) c fs)
                   | Err e => (Err e, fs)
                   end).

Definition NewLocalStorage (dir publicPrefix : string) : M FS LocalStorage :=
  os_MkdirAll dir ;;; gret (mkLocal dir publicPrefix).

Section Methods.
Variable ls : LocalStorage.

(** The file information is the caller's: it comes back as it was changed. *)
Definition Save (fi : FileInfo) (r : IoReader) : M FS (Res unit * FileInfo) :=
  let storagePath := Clean fi.(FI.StoragePath) in
  let fi := FI.set_saved storagePath fi.(FI.Size) fi in
  let fpath := Join [ls.(Dir_); storagePath] in
  let dir := Dir fpath in
  let! opened := gtry (
    (let! st := gtry (os_Stat dir) in match st with Ok _ => gret tt | Err _ => os_MkdirAll dir end) ;;;
    os_Create fpath) in
  match opened with
  | Err e => gret (Err e, fi)
  | Ok _ => let! c := io_Copy fpath r in
            gret (match snd c with Some e => Err e | None => Ok tt end, FI.set_saved storagePath (fst c) fi)
  end.
Definition GetPublicURL (storagePath : string) (_ : bool) : string := ls.(PublicPrefix) ++ "/public.src?p=" ++ storagePath.
Definition GetPresignedURL (method storagePath : string) : Res string := Ok "".
(** The answer is the open file. *)
Definition ReadFile (storagePath : string) : M FS string :=
  let fpath := Join [ls.(Dir_); Clean storagePath] in
  os_Stat fpath ;;; os_Open fpath ;;; gret fpath.
Definition DeleteFile (storagePath : string) : M FS unit :=
  let fpath := Join [ls.(Dir_); Clean storagePath] in
  os_Stat fpath ;;; os_Remove fpath.

Definition copyFile (srcPath destPath : string) : M FS unit :=
  os_MkdirAll (Dir destPath) ;;; os_Open srcPath ;;; os_Create destPath ;;; io_CopyFile destPath srcPath.
(** [false]: the fuel did not reach the bottom of the tree. *)
Fixpoint each_entry (l : list (string * bool)) (f : string * bool -> M FS bool) : M FS bool :=
  match l with
  | [] => gret true
  | e :: l' => let! done := f e in if done then each_entry l' f else gret false
  end.
Fixpoint copyDirectory (fuel : nat) (srcPath destPath : string) : M FS bool :=
  match fuel with
  | O => gret false
  | S fuel' =>
      os_MkdirAll destPath ;;;
      let! entries := os_ReadDir srcPath in
      each_entry entries (fun entry =>
        let srcEntryPath := Join [srcPath; fst entry] in
        let destEntryPath := Join [destPath; fst entry] in
        if snd entry : bool then copyDirectory fuel' srcEntryPath destEntryPath
        else copyFile srcEntryPath destEntryPath ;;; gret true)
  end.
Definition CopyDir (fuel : nat) (storagePath dest : string) : M FS bool :=
  let srcPath := Join [ls.(Dir_); Clean storagePath] in
  let! isDir := os_Stat srcPath in
  let destPath := Join [ls.(Dir_); Clean dest] in
  if isDir : bool then copyDirectory fuel srcPath destPath
  else copyFile srcPath destPath ;;; gret true.
Definition UploadDirectory (localDirPath destDir : string) : Res (list string) :=
  Err (ErrNew "UploadDirectory not implemented for LocalStorage").
(** Uploads in parts are not offered. *)
Definition CreateMultipartUpload (storagePath : option string) : Res string := Err (ErrNew "multipart upload not supported for LocalStorage").
Definition GeneratePresignedURL (storagePath uploadID : option string) (partNumber : option Z) : Res string :=
  Err (ErrNew "presigned part URL not supported for LocalStorage").
Definition UploadPart (storagePath uploadID : option string) (partNumber : option Z) (data : option string) : Res string :=
  Err (ErrNew "multipart upload not supported for LocalStorage").
Definition CompleteMultipartUpload (storagePath uploadID : option string) : Res unit :=
  Err (ErrNew "multipart upload not supported for LocalStorage").
Definition AbortMultipartUpload (storagePath uploadID : option string) : Res unit :=
  Err (ErrNew "multipart upload not supported for LocalStorage").
End Methods.

(** ** The calls without failures *)
Hypothesis Hnf : forall n, no_fault_from n.
Lemma run_gextr {A} (f : FS -> Res A * FS) (w : World FS) :
  gextr f w = (fst (f (st w)), mkWorld (S (calls w)) (snd (f (st w)))).
Proof. rewrite gextr_ok by (apply (Hnf 0%nat); lia). by destruct (f (st w)). Qed.
Lemma run_gext {A} (f : FS -> A * FS) (w : World FS) :
  gext f w = (Ok (fst (f (st w))), mkWorld (S (calls w)) (snd (f (st w)))).
Proof. rewrite gext_ok by (apply (Hnf 0%nat); lia). by destruct (f (st w)). Qed.

(** * Saving and reading *)
Implicit Types (p q : path) (fs : FS) (names : string -> bool) (c x d s : string).
Lemma fpath_canon (ls : LocalStorage) (s : string) : rooted ls.(Dir_) = true -> Join [ls.(Dir_); Clean s] = canon (place ls.(Dir_) s).
Proof. intros Hr. by rewrite Join_rooted. Qed.
Lemma res_place (d s : string) : resolve cwd (canon (place d s)) = place d s.
Proof. apply resolve_canon, place_plain. Qed.
Lemma res_parent (d s : string) : resolve cwd (Dir (canon (place d s))) = parent (place d s).
Proof.
  pose proof (place_plain d s) as Hp. rewrite Dir_canon by done. apply resolve_canon. unfold parent.
  destruct (decide (place d s = [])) as [->|Hne]; [done|]. destruct (exists_last Hne) as (q & c & E). rewrite E in *.
  rewrite removelast_last. by apply Forall_app in Hp as [? _].
Qed.

(** What stands in the way of a file at [p]. *)
Definition free_for (p : path) (fs : FS) : Prop := no_file fs (prefixes (parent p)) /\ at_ fs p <> Some Folder.
(** The tree with the file [p]. *)
Definition with_file (p : path) (d : string) (fs : FS) (q : path) : option node :=
  if bool_decide (q = p) then Some (File d) else if bool_decide (q ∈ prefixes (parent p)) then Some Folder else at_ fs q.

Lemma run_ensure (d s : string) (w : World FS) : Tree (st w) -> (forall c, at_ (st w) (parent (place d s)) <> Some (File c)) ->
  exists n, (let! st := gtry (os_Stat (Dir (canon (place d s)))) in
     match st with Ok _ => gret tt | Err _ => os_MkdirAll (Dir (canon (place d s))) end) w =
    (fst (mkdir_all (parent (place d s)) (st w)), mkWorld n (snd (mkdir_all (parent (place d s)) (st w)))).
Proof.
  intros Ht Hnofile. unfold gbind, gtry, os_Stat, os_MkdirAll. rewrite run_gextr. cbn [fst snd]. rewrite res_parent. unfold stat.
  destruct (at_ (st w) (parent (place d s))) as [[c|]|] eqn:Ep; cbn [fst snd]; [by destruct (Hnofile c)| |].
  - exists (S (calls w)). by rewrite mkdir_all_there.
  - exists (S (S (calls w))). by rewrite run_gextr.
Qed.

(** What a whole save of [d] into [p] does. *)
Lemma run_create (name : string) p (w : World FS) : resolve cwd name = p -> os_Create name w = (fst (create p (st w)), mkWorld (S (calls w)) (snd (create p (st w)))).
Proof. intros <-. unfold os_Create. by rewrite run_gextr. Qed.
Lemma create_free p (fs : FS) : at_ fs (parent p) = Some Folder -> at_ fs p <> Some Folder -> create p fs = (Ok tt, <[p := File ""]> fs).
Proof. intros Hp Hf. unfold create. rewrite Hp. by destruct (at_ fs p) as [[x|]|]. Qed.
Lemma write_new p (d : string) fs : p <> [] -> write p d (<[p := File ""]> fs) = <[p := File d]> fs.
Proof. intros Hp. unfold write. rewrite at_insert by done. by rewrite insert_insert_eq. Qed.
Lemma with_file_eq p (d : string) fs (fs' : FS) : p <> [] -> (forall q, at_ fs' q = if bool_decide (q ∈ prefixes (parent p)) then Some Folder else at_ fs q) ->
  forall q, at_ (<[p := File d]> fs') q = with_file p d fs q.
Proof.
  intros Hp Hfs' q. unfold with_file. case_bool_decide as Hq; [subst; by rewrite at_insert|]. by rewrite at_insert_ne by done.
Qed.
Lemma parent_free (fs fs' : FS) p : p <> [] -> (forall q, at_ fs' q = if bool_decide (q ∈ prefixes (parent p)) then Some Folder else at_ fs q) ->
  at_ fs' (parent p) = Some Folder /\ at_ fs' p = at_ fs p.
Proof.
  intros Hp Hfs'. rewrite !Hfs'. split.
  - case_bool_decide as Hin; [done|]. destruct (decide (parent p = [])) as [->|Hne]; [done|].
    destruct Hin. apply prefixes_spec. done.
  - case_bool_decide as Hin; [|done]. exfalso. apply prefixes_spec in Hin as [_ [k Hk]]. destruct (exists_last Hp) as (q & c & ->).
    rewrite parent_snoc in Hk. apply (f_equal length) in Hk. rewrite !length_app in Hk. simpl in Hk. lia.
Qed.

Lemma save_run (ls : LocalStorage) (fi : FileInfo) (d : string) (w : World FS) : rooted ls.(Dir_) = true -> Tree (st w) ->
  let p := place ls.(Dir_) fi.(FI.StoragePath) in
  exists r fi' w', Save ls fi (mkIoReader d None) w = (Ok (r, fi'), w') /\
    fi'.(FI.StoragePath) = Clean fi.(FI.StoragePath) /\
    ((r = Ok tt /\ free_for p (st w) /\ fi'.(FI.Size) = Z.of_nat (String.length d) /\ forall q, at_ (st w') q = with_file p d (st w) q) \/
     (r <> Ok tt /\ ~ free_for p (st w) /\ st w' = st w)).
Proof.
  intros Hroot Ht p. unfold Save. cbv zeta. rewrite (fpath_canon ls) by done. fold p.
  rewrite gbind_eq. unfold gtry at 1.
  assert (Hfile : (exists c, at_ (st w) (parent p) = Some (File c)) \/ forall c, at_ (st w) (parent p) <> Some (File c))
    by (destruct (at_ (st w) (parent p)) as [[c|]|]; [left; by exists c|by right|by right]).
  destruct Hfile as [[c Ep]|Hnofile].
  - (* the folder is a file *)
    assert (E : (let! st := gtry (os_Stat (Dir (canon p))) in match st with Ok _ => gret tt | Err _ => os_MkdirAll (Dir (canon p)) end) w =
      (Ok tt, mkWorld (S (calls w)) (st w))).
    { unfold gbind, gtry, os_Stat. rewrite run_gextr. cbn [fst snd]. unfold p. rewrite res_parent. fold p. unfold stat. by rewrite Ep. }
    rewrite gbind_eq, E. erewrite run_create by (apply res_place). fold p. cbn [st calls]. unfold create. rewrite Ep.
    do 3 eexists. split; [reflexivity|]. split; [done|]. right. split_and!; [done| |done]. intros [Hn _].
    apply (Hn (parent p) c); [|done]. apply prefixes_spec. split; [by intros Hnil; rewrite Hnil in Ep|done].
  - destruct (run_ensure ls.(Dir_) fi.(FI.StoragePath) w Ht Hnofile) as [n E]. fold p in E. rewrite gbind_eq, E. clear E.
    destruct (decide (at_ (st w) p = Some Folder)) as [Hf|Hf].
    { assert (Hpf : at_ (st w) (parent p) = Some Folder).
      { destruct (decide (p = [])) as [->|Hne]; [done|]. apply (t_parent (st w) Ht p Folder). by rewrite <- at_lookup. }
      rewrite mkdir_all_there by done. cbn [fst snd]. erewrite run_create by (apply res_place). fold p. cbn [st calls].
      unfold create. rewrite Hpf, Hf. do 3 eexists. split; [reflexivity|]. split; [done|]. right. split_and!; [done| |done]. by intros [_ ?]. }
    assert (Hne : p <> []) by (intros Hnil; by rewrite Hnil in Hf).
    destruct (mkdir_all_cases (parent p) (st w) Ht) as [(Hn & fs' & -> & Hfs')|(Hn & e & ->)]; cbn [fst snd].
    + erewrite run_create by (apply res_place). fold p. cbn [st calls].
      destruct (parent_free (st w) fs' p Hne Hfs') as [Hpf Hpe]. rewrite create_free by (done || by rewrite Hpe). cbn [fst snd].
      unfold io_Copy, gtry. rewrite !gbind_eq, run_gext. cbn [st calls fst snd data fails_with]. unfold p at 1. rewrite res_place. fold p.
      do 3 eexists. split; [reflexivity|]. split; [done|]. left. split; [done|]. split; [done|]. split; [done|].
      cbn [st]. rewrite write_new by done. by apply with_file_eq.
    + do 3 eexists. split; [reflexivity|]. split; [done|]. right. split_and!; [done| |done]. by intros [? _].
Qed.

(** Whatever the tree, saving either answers an error and changes nothing,
    because a file stands where a folder is needed or a folder where the file
    goes; or it stores the data under its storage path, makes the missing
    folders on the way and leaves the rest alone, so that [ReadFile] of that path
    then opens the data; and all this happens below the folder of the storage
    unless the path climbs out of it. *)
Theorem save_then_read (ls : LocalStorage) (fi : FileInfo) (d : string) (w : World FS) :
  rooted ls.(Dir_) = true -> Tree (st w) ->
  let p := place ls.(Dir_) fi.(FI.StoragePath) in
  exists r fi' w', Save ls fi (mkIoReader d None) w = (Ok (r, fi'), w') /\
    (r = Ok tt <-> free_for p (st w)) /\
    (r <> Ok tt -> st w' = st w) /\
    (r = Ok tt ->
       fi'.(FI.Size) = Z.of_nat (String.length d) /\
       (forall q, at_ (st w') q = with_file p d (st w) q) /\
       exists f w'', ReadFile ls fi'.(FI.StoragePath) w' = (Ok f, w'') /\ read (resolve cwd f) (st w'') = Ok d) /\
    (climbs fi.(FI.StoragePath) = false -> exists rel, p = place ls.(Dir_) "" ++ rel).
Proof.
  intros Hroot Ht p. destruct (save_run ls fi d w Hroot Ht) as (r & fi' & w' & E & Hpath & Hcases). fold p in Hcases.
  exists r, fi', w'. split; [done|]. split; [|split; [|split]].
  - destruct Hcases as [(-> & ? & _)|(? & ? & _)]; naive_solver.
  - destruct Hcases as [(-> & _)|(_ & _ & ?)]; [done|by intros _].
  - destruct Hcases as [(_ & _ & Hs & Hq)|(? & _)]; [|done]. intros _. split; [done|]. split; [done|].
    assert (Hp : at_ (st w') p = Some (File d)) by (rewrite Hq; unfold with_file; by rewrite bool_decide_eq_true_2).
    assert (Hclean : Join [ls.(Dir_); Clean fi'.(FI.StoragePath)] = canon p).
    { rewrite Join_rooted by done. rewrite Hpath. by rewrite Clean_idem. }
    unfold ReadFile. rewrite Hclean. unfold os_Stat, os_Open. rewrite !gbind_eq, !run_gextr. cbn [fst snd].
    unfold p at 1. rewrite res_place. fold p. unfold stat. rewrite Hp. rewrite gbind_eq, run_gextr. cbn [st calls fst snd].
    unfold p at 1. rewrite res_place. fold p. unfold open. rewrite Hp. do 2 eexists. split; [reflexivity|].
    cbn [st]. unfold p at 1. rewrite res_place. fold p. unfold read. by rewrite Hp.
  - intros Hc. unfold p. rewrite place_below by done. exists (clean_elems (rooted fi.(FI.StoragePath)) (elems fi.(FI.StoragePath))).
    rewrite (place_below _ "") by done. cbn. by rewrite app_nil_r.
Qed.

(** * Copying a folder *)
(** The tree in which the entries [names] of the folder [src] have been copied
    into the folder [dst]. *)
Definition below p q : option path := if decide (p `prefix_of` q) then Some (drop (length p) q) else None.
Definition grafted (src dst : path) (names : string -> bool) fs q : option node :=
  if bool_decide (q ∈ prefixes dst) then Some Folder
  else match below dst q with
       | Some (c :: r) => if names c then at_ fs (src ++ c :: r) else at_ fs q
       | _ => at_ fs q
       end.
Lemma below_app p q : below p (p ++ q) = Some q.
Proof. unfold below. rewrite decide_True by by exists q. by rewrite drop_app_length. Qed.
Lemma below_some p q r : below p q = Some r -> q = p ++ r.
Proof. unfold below. destruct (decide (p `prefix_of` q)) as [[k ->]|]; [|done]. rewrite drop_app_length. by intros [= ->]. Qed.
Lemma below_none p q : below p q = None -> ~ p `prefix_of` q.
Proof. unfold below. by destruct (decide (p `prefix_of` q)). Qed.

(** Neither folder lies in the other. *)
Definition apart p q : Prop := ~ p `prefix_of` q /\ ~ q `prefix_of` p.
Lemma apart_app p q k k' : apart p q -> apart (p ++ k) (q ++ k').
Proof.
  intros [H1 H2]. split; intros Hk%prefix_app_l.
  - destruct (prefix_weak_total p q (q ++ k')); [done|by apply prefix_app_r|by apply H1|by apply H2].
  - destruct (prefix_weak_total p q (p ++ k)); [by apply prefix_app_r|done|by apply H1|by apply H2].
Qed.

Section Graft.
Context (src dst : path) (fs : FS).
Hypotheses (Ht : Tree fs) (Ha : apart src dst) (Hs : Forall (fun c => plain c = true) src) (Hd : Forall (fun c => plain c = true) dst)
  (Hsrc : at_ fs src = Some Folder) (Hdst : at_ fs dst = None).
Lemma dst_below q : at_ fs (dst ++ q) = None.
Proof.
  destruct (at_ fs (dst ++ q)) as [n|] eqn:E; [|done]. destruct q as [|c q]; [by rewrite app_nil_r, Hdst in E|].
  by rewrite (tree_above fs dst Ht (c :: q) n E) in Hdst.
Qed.
Lemma dst_ne : dst <> [].
Proof. intros E. by rewrite E in Hdst. Qed.
(** The source is not touched. *)
Lemma grafted_src names q : grafted src dst names fs (src ++ q) = at_ fs (src ++ q).
Proof.
  destruct Ha as [H1 H2]. unfold grafted. rewrite bool_decide_eq_false_2.
  - destruct (below dst (src ++ q)) as [r|] eqn:E; [|done]. apply below_some in E. exfalso.
    destruct (prefix_weak_total src dst (src ++ q)); [by exists q|by exists r|done|done].
  - intros [_ Hp%prefix_app_l]%prefixes_spec. done.
Qed.
Lemma grafted_dst names q : q ∈ prefixes dst -> grafted src dst names fs q = Some Folder.
Proof. intros Hq. unfold grafted. by rewrite bool_decide_eq_true_2. Qed.
Lemma not_above c r : (dst ++ c :: r) ∉ prefixes dst.
Proof. intros [_ Hp%prefix_length]%prefixes_spec. rewrite length_app in Hp. simpl in Hp. lia. Qed.
Lemma grafted_entry names c r : grafted src dst names fs (dst ++ c :: r) = if names c then at_ fs (src ++ c :: r) else None.
Proof.
  unfold grafted. rewrite bool_decide_eq_false_2 by apply not_above. rewrite below_app. destruct (names c); [done|apply dst_below].
Qed.
Lemma grafted_else names q : q ∉ prefixes dst -> (forall c r, q <> dst ++ c :: r) -> grafted src dst names fs q = at_ fs q.
Proof.
  intros H1 H2. unfold grafted. rewrite bool_decide_eq_false_2 by done. destruct (below dst q) as [[|c r]|] eqn:E; [done| |done].
  by apply below_some, H2 in E.
Qed.
(** The three kinds of places. *)
Lemma place_cases q : q ∈ prefixes dst \/ (exists c r, q = dst ++ c :: r) \/ (q ∉ prefixes dst /\ forall c r, q <> dst ++ c :: r).
Proof.
  destruct (decide (q ∈ prefixes dst)) as [|Hn]; [by left|]. destruct (below dst q) as [r|] eqn:E.
  - apply below_some in E as ->. destruct r as [|c r]; [|right; left; by exists c, r].
    left. rewrite app_nil_r. apply prefixes_spec. split; [apply dst_ne|done].
  - right. right. split; [done|]. intros c r ->. apply below_none in E. apply E. by exists (c :: r).
Qed.
Definition also (names : string -> bool) (c : string) : string -> bool := fun x => str_eqb x c || names x.
Lemma also_eq names c : also names c c = true.
Proof. unfold also, str_eqb. by rewrite String.eqb_refl. Qed.
Lemma also_ne names c x : x <> c -> also names c x = names x.
Proof. intros Hx. unfold also, str_eqb. by destruct (String.eqb_spec x c). Qed.

(** A folder of the source is copied by grafting it. *)
Lemma graft_folder names c (fs1 : FS) : names c = false -> at_ fs (src ++ [c]) = Some Folder ->
  (forall q, at_ fs1 q = grafted src dst names fs q) ->
  forall q, grafted (src ++ [c]) (dst ++ [c]) (fun _ => true) fs1 q = grafted src dst (also names c) fs q.
Proof.
  intros Hc Hf Hfs1 q. destruct (place_cases q) as [Hq|[(x & r & ->)|[Hq1 Hq2]]].
  - rewrite grafted_dst by done. unfold grafted. rewrite bool_decide_eq_true_2; [done|].
    rewrite prefixes_snoc. apply elem_of_app. by left.
  - rewrite grafted_entry. destruct (decide (x = c)) as [->|Hx].
    + rewrite also_eq. destruct r as [|y r].
      * unfold grafted. rewrite bool_decide_eq_true_2; [done|]. rewrite prefixes_snoc. apply elem_of_app. right. by left.
      * unfold grafted. rewrite bool_decide_eq_false_2.
        -- rewrite (cons_middle c dst (y :: r)), (app_assoc dst), below_app, Hfs1, <- app_assoc. apply (grafted_src names (c :: y :: r)).
        -- rewrite prefixes_snoc. intros [Hp|Hp]%elem_of_app; [by apply not_above in Hp|].
           apply list_elem_of_singleton in Hp. by apply app_inv_head in Hp.
    + rewrite also_ne by done. unfold grafted at 1. rewrite bool_decide_eq_false_2.
      * assert (Hb : below (dst ++ [c]) (dst ++ x :: r) = None).
        { destruct (below _ _) as [k|] eqn:E; [|done]. apply below_some in E. rewrite <- app_assoc in E. apply app_inv_head in E. by injection E. }
        rewrite Hb, Hfs1. by rewrite grafted_entry.
      * rewrite prefixes_snoc. intros [Hp|Hp]%elem_of_app; [by apply not_above in Hp|].
        apply list_elem_of_singleton, app_inv_head in Hp. by injection Hp.
  - rewrite (grafted_else (also names c)) by done. unfold grafted. rewrite bool_decide_eq_false_2.
    + assert (Hb : below (dst ++ [c]) q = None).
      { destruct (below _ _) as [k|] eqn:E; [|done]. apply below_some in E. rewrite <- app_assoc in E. by apply Hq2 in E. }
      rewrite Hb, Hfs1. by apply grafted_else.
    + rewrite prefixes_snoc. intros [Hp|Hp]%elem_of_app; [done|]. apply list_elem_of_singleton in Hp. by apply Hq2 in Hp.
Qed.
(** A file is copied by one insertion. *)
Lemma graft_file names c x (fs1 : FS) : names c = false -> at_ fs (src ++ [c]) = Some (File x) ->
  (forall q, at_ fs1 q = grafted src dst names fs q) ->
  forall q, at_ (<[dst ++ [c] := File x]> fs1) q = grafted src dst (also names c) fs q.
Proof.
  intros Hc Hf Hfs1 q. assert (Hne : dst ++ [c] <> []) by (by destruct dst).
  destruct (decide (dst ++ [c] = q)) as [<-|Hq]; [rewrite at_insert by done; by rewrite grafted_entry, also_eq|].
  rewrite at_insert_ne, Hfs1 by done. destruct (place_cases q) as [Hp|[(y & r & ->)|[Hp1 Hp2]]].
  - by rewrite !grafted_dst.
  - rewrite !grafted_entry. destruct (decide (y = c)) as [->|Hy]; [|by rewrite also_ne]. rewrite also_eq, Hc.
    destruct r as [|z r]; [done|]. destruct (at_ fs (src ++ c :: z :: r)) as [n|] eqn:E; [|done].
    rewrite cons_middle, app_assoc in E. rewrite (tree_above fs (src ++ [c]) Ht (z :: r) n E) in Hf; done.
  - by rewrite !grafted_else.
Qed.
(** When all entries are there, everything is. *)
Lemma graft_all names : (forall c n, at_ fs (src ++ [c]) = Some n -> names c = true) ->
  forall q, grafted src dst names fs q = grafted src dst (fun _ => true) fs q.
Proof.
  intros Hall q. destruct (place_cases q) as [Hp|[(c & r & ->)|[Hp1 Hp2]]]; [by rewrite !grafted_dst| |by rewrite !grafted_else].
  rewrite !grafted_entry. destruct (names c) eqn:Ec; [done|]. destruct (at_ fs (src ++ c :: r)) as [n|] eqn:E; [|done].
  assert (Hn : exists n', at_ fs (src ++ [c]) = Some n').
  { destruct r as [|d r]; [by exists n|]. exists Folder. rewrite cons_middle, app_assoc in E. by apply (tree_above fs (src ++ [c]) Ht (d :: r) n E). }
  destruct Hn as [n' Hn]. by rewrite (Hall c n' Hn) in Ec.
Qed.
End Graft.

Definition good (p : path) : Prop := Forall (fun c => plain c = true) p.
Lemma good_parent p : good p -> good (parent p).
Proof.
  intros Hp. unfold parent. destruct (decide (p = [])) as [->|Hne]; [done|]. destruct (exists_last Hne) as (q & c & ->).
  rewrite removelast_last. by apply Forall_app in Hp as [? _].
Qed.
Lemma run_copyFile p q x (w : World FS) : good p -> good q -> Tree (st w) -> at_ (st w) p = Some (File x) ->
  at_ (st w) (parent q) = Some Folder -> at_ (st w) q = None ->
  exists n, copyFile (canon p) (canon q) w = (Ok tt, mkWorld n (<[q := File x]> (st w))).
Proof.
  intros Hp Hq Ht Hf Hpar Hnone. assert (Hne : q <> []) by (by intros ->). assert (Hpq : q <> p) by (intros ->; congruence).
  unfold copyFile, os_MkdirAll, os_Open, os_Create, io_CopyFile. rewrite Dir_canon by done. rewrite !resolve_canon by (done || by apply good_parent).
  rewrite gbind_eq, run_gextr, mkdir_all_there by done. cbn [fst snd]. rewrite gbind_eq, run_gextr. cbn [st calls fst snd]. unfold open. rewrite Hf.
  rewrite gbind_eq, run_gextr. cbn [st calls fst snd]. rewrite create_free by (done || by rewrite Hnone). cbn [fst snd].
  rewrite run_gextr. cbn [st calls]. unfold read. rewrite at_insert_ne, Hf by done. cbn [fst snd]. rewrite write_new by done. by eexists.
Qed.
Section Loop.
Context (fuel : nat) (src dst : path) (fs : FS).
Hypotheses (Ht : Tree fs) (Ha : apart src dst) (Hs : good src) (Hd : good dst)
  (Hsrc : at_ fs src = Some Folder) (Hdst : at_ fs dst = None) (Hdeep : forall q n, at_ fs (src ++ q) = Some n -> (length q < S fuel)%nat).
(** The copies of the folders one level down. *)
Hypothesis IH : forall (s d : path) (w : World FS), Tree (st w) -> good s -> good d -> apart s d -> at_ (st w) s = Some Folder ->
  at_ (st w) d = None -> no_file (st w) (prefixes d) -> (forall q n, at_ (st w) (s ++ q) = Some n -> (length q < fuel)%nat) ->
  exists w', copyDirectory fuel (canon s) (canon d) w = (Ok true, w') /\ Tree (st w') /\
    forall q, at_ (st w') q = grafted s d (fun _ => true) (st w) q.
Definition copy_entry (entry : string * bool) : M FS bool :=
  if snd entry : bool then copyDirectory fuel (Join [canon src; fst entry]) (Join [canon dst; fst entry])
  else copyFile (Join [canon src; fst entry]) (Join [canon dst; fst entry]) ;;; gret true.

Lemma copy_entry_run names c (n : node) (w : World FS) : Tree (st w) -> (forall q, at_ (st w) q = grafted src dst names fs q) ->
  names c = false -> at_ fs (src ++ [c]) = Some n ->
  exists w', copy_entry (c, is_folder n) w = (Ok true, w') /\ Tree (st w') /\
    forall q, at_ (st w') q = grafted src dst (also names c) fs q.
Proof.
  intros Htw Hw Hc Hn. assert (Hsc : fs !! (src ++ [c]) = Some n) by (rewrite <- at_lookup; [done|by destruct src]).
  assert (Hp : plain c = true) by (apply (t_names fs Ht) in Hsc as [_ Hsc]; apply Forall_app in Hsc as [_ Hsc]; by apply Forall_cons in Hsc as [? _]).
  assert (Hs' : good (src ++ [c])) by (apply Forall_app; split; [done|by repeat constructor]).
  assert (Hd' : good (dst ++ [c])) by (apply Forall_app; split; [done|by repeat constructor]).
  assert (Hws : forall q, at_ (st w) (src ++ q) = at_ fs (src ++ q)) by (intros q; rewrite Hw; by apply grafted_src).
  assert (Hwd : at_ (st w) dst = Some Folder) by (rewrite Hw; apply grafted_dst, prefixes_spec; split; [by intros E; rewrite E in Hdst|done]).
  assert (Hwdc : at_ (st w) (dst ++ [c]) = None) by (rewrite Hw, grafted_entry, Hc; done).
  unfold copy_entry. cbn [fst snd]. rewrite !Join_canon by done. destruct n as [x|]; cbn [is_folder].
  - destruct (run_copyFile (src ++ [c]) (dst ++ [c]) x w) as [k E]; [done|done|done|by rewrite Hws|by rewrite parent_snoc|done|].
    rewrite gbind_eq, E. eexists. split; [reflexivity|]. cbn [st]. split.
    + apply tree_insert; [done|by destruct dst|done|by rewrite parent_snoc|by rewrite Hwdc].
    + by apply graft_file.
  - destruct (IH (src ++ [c]) (dst ++ [c]) w) as (w' & E & Ht' & Hw'); [done|done|done|by apply apart_app|by rewrite Hws|done| | |].
    + intros q x. rewrite prefixes_snoc. intros [Hq|Hq]%elem_of_app; [rewrite Hw, grafted_dst by done; congruence|].
      apply list_elem_of_singleton in Hq as ->. by rewrite Hwdc.
    + intros q m. rewrite <- app_assoc, Hws. intros Hq%Hdeep. simpl in Hq. lia.
    + exists w'. split; [done|]. split; [done|]. intros q. rewrite Hw'. by apply graft_folder.
Qed.
Lemma each_entry_run l : forall names (w : World FS), Tree (st w) -> (forall q, at_ (st w) q = grafted src dst names fs q) ->
  NoDup (map fst l) -> (forall c b, (c, b) ∈ l -> names c = false /\ exists n, at_ fs (src ++ [c]) = Some n /\ b = is_folder n) ->
  exists w', each_entry l copy_entry w = (Ok true, w') /\ Tree (st w') /\
    forall q, at_ (st w') q = grafted src dst (fun x => existsb (str_eqb x) (map fst l) || names x) fs q.
Proof.
  induction l as [|[c b] l IHl]; intros names w Htw Hw Hnd Hl; [by exists w|].
  apply NoDup_cons in Hnd as [Hc Hnd]. destruct (Hl c b) as [Hnc (n & Hn & ->)]; [by left|].
  destruct (copy_entry_run names c n w Htw Hw Hnc Hn) as (w1 & E & Ht1 & Hw1). cbn [each_entry]. rewrite gbind_eq, E.
  destruct (IHl (also names c) w1 Ht1 Hw1 Hnd) as (w' & E' & Ht' & Hw').
  { intros c' b' Hin. destruct (Hl c' b') as [Hnc' ?]; [by right|]. split; [|done]. rewrite also_ne; [done|].
    intros ->. apply Hc, list_elem_of_fmap. by exists (c, b'). }
  exists w'. split; [done|]. split; [done|]. intros q. rewrite Hw'. unfold grafted. case_bool_decide; [done|].
  destruct (below dst q) as [[|x r]|]; [done| |done]. unfold also. cbn [map fst existsb]. rewrite !orb_assoc.
  by rewrite (orb_comm (existsb _ _) (str_eqb x c)).
Qed.
End Loop.

Lemma child_some p q c : child_of p q = Some c -> q = p ++ [c].
Proof.
  unfold child_of. destruct q as [|d q]; [done|]. case_bool_decide as Hp; [|done].
  destruct (exists_last (l := d :: q)) as (q' & x & E); [done|]. rewrite E in *. rewrite last_snoc. intros [= ->].
  rewrite parent_snoc in Hp. by subst.
Qed.
Lemma entries_nodup p fs : NoDup (map fst (entries p fs)).
Proof.
  unfold entries. pose proof (NoDup_fst_map_to_list fs) as Hn. induction (map_to_list fs) as [|[q n] l IHl]; [constructor|].
  cbn [map fst] in Hn. apply NoDup_cons in Hn as [Hq Hn]. specialize (IHl Hn). cbn [omap list_omap fst snd].
  destruct (child_of p q) as [c|] eqn:Ec; [|exact IHl]. cbn [fmap option_fmap option_map map fst]. constructor; [|exact IHl].
  intros ([x b] & E & Hin)%list_elem_of_fmap. simpl in E. subst x. apply list_elem_of_omap in Hin as ([q' n'] & Hin & Hx). simpl in Hx.
  destruct (child_of p q') as [c'|] eqn:Ec'; [|done]. simpl in Hx. injection Hx as <- _. apply Hq, list_elem_of_fmap. exists (q', n').
  split; [|done]. simpl. apply child_some in Ec as ->. simpl. by apply child_some in Ec' as ->.
Qed.

Lemma copy_dir_run fuel : forall (s d : path) (w : World FS), Tree (st w) -> good s -> good d -> apart s d -> at_ (st w) s = Some Folder ->
  at_ (st w) d = None -> no_file (st w) (prefixes d) -> (forall q n, at_ (st w) (s ++ q) = Some n -> (length q < fuel)%nat) ->
  exists w', copyDirectory fuel (canon s) (canon d) w = (Ok true, w') /\ Tree (st w') /\
    forall q, at_ (st w') q = grafted s d (fun _ => true) (st w) q.
Proof.
  induction fuel as [|fuel IH]; intros s d w Ht Hs Hd Ha Hsrc Hdst Hnofile Hdeep.
  { exfalso. specialize (Hdeep [] Folder). rewrite app_nil_r in Hdeep. specialize (Hdeep Hsrc). lia. }
  cbn [copyDirectory]. unfold os_MkdirAll, os_ReadDir. rewrite !resolve_canon by done.
  destruct (mkdir_all_ok d (st w) Hnofile) as (fs1 & E & Hfs1). pose proof (mkdir_all_tree d (st w) Ht Hd) as Ht1. rewrite E in Ht1. cbn in Ht1.
  rewrite gbind_eq, run_gextr, E. cbn [fst snd]. rewrite gbind_eq, run_gextr. cbn [st calls fst snd].
  assert (Hg : forall q, at_ fs1 q = grafted s d (fun _ => false) (st w) q).
  { intros q. rewrite Hfs1. unfold grafted. case_bool_decide; [done|]. by destruct (below d q) as [[|? ?]|]. }
  assert (Hsq : forall q, at_ fs1 (s ++ q) = at_ (st w) (s ++ q)) by (intros q; rewrite Hg; by apply grafted_src).
  assert (Hs1 : at_ fs1 s = Some Folder) by (specialize (Hsq []); rewrite app_nil_r in Hsq; by rewrite Hsq).
  unfold read_dir. rewrite Hs1. cbn [fst snd].
  change (each_entry (merge_sort name_le (entries s fs1)) (copy_entry fuel s d)) with
    (each_entry (merge_sort name_le (entries s fs1)) (copy_entry fuel s d)).
  set (l := merge_sort name_le (entries s fs1)).
  assert (Hperm : Permutation l (entries s fs1)) by apply merge_sort_Permutation.
  assert (Hent : forall c b, (c, b) ∈ l <-> exists n, at_ (st w) (s ++ [c]) = Some n /\ b = is_folder n).
  { intros c b. rewrite Hperm, entries_spec by (intros q n Hq; by apply (t_names fs1 Ht1 q n)).
    rewrite <- Hsq. by rewrite at_lookup by (by destruct s). }
  destruct (each_entry_run fuel s d (st w) Ht Ha Hs Hd Hsrc Hdst Hdeep IH l (fun _ => false) (mkWorld (S (S (calls w))) fs1)) as (w' & Er & Ht' & Hw').
  - done.
  - done.
  - rewrite Hperm. apply entries_nodup.
  - intros c b Hin%Hent. done.
  - exists w'. split; [exact Er|]. split; [done|]. intros q. rewrite Hw'. apply graft_all; [done|done|].
    intros c n Hn. rewrite orb_false_r. apply existsb_exists. exists c. split; [|apply String.eqb_refl].
    apply list_elem_of_In, list_elem_of_fmap. exists (c, is_folder n). split; [done|]. apply Hent. by exists n.
Qed.

(** Copying a folder to a free place outside of it ends within as many
    levels as the folder has, and leaves at that place exactly what the folder
    holds, with the folders on the way made and everything else as it was. *)
Theorem CopyDir_spec (ls : LocalStorage) (storagePath dest : string) (fuel : nat) (w : World FS) :
  rooted ls.(Dir_) = true -> Tree (st w) ->
  let src := place ls.(Dir_) storagePath in
  let dst := place ls.(Dir_) dest in
  apart src dst -> at_ (st w) src = Some Folder -> at_ (st w) dst = None -> no_file (st w) (prefixes dst) ->
  (forall q n, at_ (st w) (src ++ q) = Some n -> (length q < fuel)%nat) ->
  exists w', CopyDir ls fuel storagePath dest w = (Ok true, w') /\ Tree (st w') /\
    forall q, at_ (st w') q =
      match below dst q with
      | Some r => at_ (st w) (src ++ r)
      | None => if bool_decide (q ∈ prefixes dst) then Some Folder else at_ (st w) q
      end.
Proof.
  intros Hroot Ht src dst Ha Hsrc Hdst Hnofile Hdeep. unfold CopyDir. rewrite !fpath_canon by done. fold src dst.
  unfold os_Stat. rewrite resolve_canon by apply place_plain. rewrite gbind_eq, run_gextr. unfold stat. rewrite Hsrc. cbn [fst snd].
  destruct (copy_dir_run fuel src dst (mkWorld (S (calls w)) (st w))) as (w' & E & Ht' & Hw'); try done; try apply place_plain.
  exists w'. split; [exact E|]. split; [done|]. intros q. rewrite Hw'. cbn [st].
  destruct (place_cases dst (st w) Hdst q) as [Hq|[(c & r & ->)|[Hq1 Hq2]]].
  - rewrite grafted_dst by done. rewrite bool_decide_eq_true_2 by done. destruct (below dst q) as [r|] eqn:Eb; [|done].
    apply below_some in Eb as ->. apply prefixes_spec in Hq as [_ Hq%prefix_length]. rewrite length_app in Hq.
    destruct r; [|simpl in Hq; lia]. by rewrite app_nil_r, Hsrc.
  - rewrite grafted_entry by done. by rewrite below_app.
  - rewrite grafted_else by done. rewrite bool_decide_eq_false_2 by done. destruct (below dst q) as [[|c r]|] eqn:Eb; [| |done].
    + apply below_some in Eb. rewrite app_nil_r in Eb. subst q. destruct Hq1. apply prefixes_spec. split; [by intros En; rewrite En in Hdst|done].
    + by apply below_some, Hq2 in Eb.
Qed.

(** Copying a folder into a new folder inside of it finds what it has just made,
    again and again: only the length of the path ends it. *)
Lemma self_copy_run c fuel : forall p (w : World FS), good p -> plain c = true -> Tree (st w) -> at_ (st w) p = Some Folder ->
  (forall q, q <> [] -> at_ (st w) (p ++ q) = None) ->
  fst (copyDirectory fuel (canon p) (canon (p ++ [c])) w) = Ok false.
Proof.
  induction fuel as [|fuel IH]; intros p w Hp Hc Ht Hf Hempty; [done|]. assert (Hpc : good (p ++ [c])) by (apply Forall_app; split; [done|by repeat constructor]).
  assert (Hnofile : no_file (st w) (prefixes (p ++ [c]))).
  { intros q x. rewrite prefixes_snoc. intros [Hq|Hq]%elem_of_app; [by apply (folder_no_file (st w) p Ht Hf)|].
    apply list_elem_of_singleton in Hq as ->. by rewrite Hempty. }
  cbn [copyDirectory]. unfold os_MkdirAll, os_ReadDir. rewrite !resolve_canon by done.
  destruct (mkdir_all_ok (p ++ [c]) (st w) Hnofile) as (fs1 & E & Hfs1).
  pose proof (mkdir_all_tree (p ++ [c]) (st w) Ht Hpc) as Ht1. rewrite E in Ht1. cbn in Ht1.
  rewrite gbind_eq, run_gextr, E. cbn [fst snd]. rewrite gbind_eq, run_gextr. cbn [st calls fst snd].
  assert (Hin : p ++ [c] ∈ prefixes (p ++ [c])) by (apply prefixes_spec; split; [by destruct p|done]).
  assert (Hlong : forall q, (length p < length q)%nat -> q <> p ++ [c] -> q ∉ prefixes (p ++ [c])).
  { intros q Hl Hq. rewrite prefixes_snoc. intros [Hk|Hk]%elem_of_app; [|by apply list_elem_of_singleton in Hk].
    apply prefixes_spec in Hk as [_ Hk%prefix_length]. lia. }
  assert (Hone : forall x b, (x, b) ∈ entries p fs1 <-> (x, b) = (c, true)).
  { intros x b. rewrite entries_spec by (intros q m Hq; by apply (t_names fs1 Ht1 q m)).
    rewrite <- (at_lookup fs1 (p ++ [x])) by (by destruct p). rewrite Hfs1. destruct (decide (x = c)) as [->|Hx].
    - rewrite bool_decide_eq_true_2 by done. split; [by intros (m & [= <-] & ->)|]. intros [= ->]. by exists Folder.
    - rewrite bool_decide_eq_false_2; [rewrite Hempty by done|].
      + split; [by intros (m & ? & _)|]. intros [= -> _]. done.
      + apply Hlong; [rewrite length_app; simpl; lia|]. intros Hq%app_inv_head. congruence. }
  unfold read_dir. rewrite Hfs1. assert (Hpf : (if bool_decide (p ∈ prefixes (p ++ [c])) then Some Folder else at_ (st w) p) = Some Folder)
    by (by case_bool_decide). rewrite Hpf. cbn [fst snd].
  assert (El : merge_sort name_le (entries p fs1) = [(c, true)]).
  { apply Permutation_length_1_inv. symmetry. etransitivity; [apply merge_sort_Permutation|].
    apply NoDup_Permutation; [apply (NoDup_fmap_1 fst), entries_nodup|apply NoDup_singleton|].
    intros [x b]. rewrite Hone. by rewrite list_elem_of_singleton. }
  rewrite El. cbn [each_entry fst snd]. rewrite !Join_canon by done. rewrite gbind_eq.
  specialize (IH (p ++ [c]) (mkWorld (S (S (calls w))) fs1) Hpc Hc Ht1).
  destruct (copyDirectory fuel _ _ _) as [r w2]. cbn [fst st] in IH. rewrite IH; [done| |].
  - rewrite Hfs1. by rewrite bool_decide_eq_true_2.
  - intros q Hq. rewrite Hfs1, bool_decide_eq_false_2.
    + rewrite <- app_assoc. by apply Hempty.
    + apply Hlong; [rewrite !length_app; simpl; destruct q; [done|simpl; lia]|]. intros Hk. apply (f_equal length) in Hk.
      rewrite !length_app in Hk. simpl in Hk. destruct q; [done|simpl in Hk; lia].
Qed.

(** * Whatever fails, the files stay a tree *)
Hypothesis Hcwd : good cwd.
Lemma resolve_good (name : string) : good (resolve cwd name).
Proof.
  unfold resolve. eapply Forall_impl; [apply clean_normal|intros c [Hc|[? _]]; [exact Hc|done]].
  destruct (rooted name); [apply split_no_sep|]. apply Forall_app. split; [by apply plain_no_slash|apply split_no_sep].
Qed.
Lemma Keeps_gextr {A : Type} (P : FS -> Prop) (f : FS -> Res A * FS) : (forall fs, P fs -> P (snd (f fs))) -> Keeps P (gextr f).
Proof.
  intros Hf w Hw. unfold after, gextr. destruct (env_fault (calls w)); [done|]. specialize (Hf _ Hw). by destruct (f (st w)).
Qed.
Lemma Keeps_try {A : Type} (P : FS -> Prop) (m : M FS A) : Keeps P m -> Keeps P (gtry m).
Proof. intros Hm w Hw. specialize (Hm w Hw). unfold after, gtry in *. by destruct (m w). Qed.
Ltac keeps_tree :=
  repeat match goal with
  | |- Keeps _ (gret _) => apply Keeps_ret
  | |- Keeps _ (gbind _ _) => apply Keeps_bind; [|intros ?]
  | |- Keeps _ (gtry _) => apply Keeps_try
  | |- Keeps _ (match ?x with _ => _ end) => destruct x
  end.
Lemma keeps_look {A : Type} (f : FS -> Res A) : Keeps Tree (gextr (fun fs => (f fs, fs))).
Proof. by apply Keeps_gextr. Qed.
Lemma keeps_mkdir (name : string) : Keeps Tree (os_MkdirAll name).
Proof. apply Keeps_gextr. intros fs Ht. apply mkdir_all_tree; [done|apply resolve_good]. Qed.
Lemma keeps_create (name : string) : Keeps Tree (os_Create name).
Proof. apply Keeps_gextr. intros fs Ht. apply create_tree; [done|apply resolve_good]. Qed.
Lemma keeps_copy dst (r : IoReader) : Keeps Tree (io_Copy dst r).
Proof.
  unfold io_Copy. keeps_tree. intros w Hw. unfold after, gext. destruct (env_fault (calls w)); [done|].
  apply write_tree; [done|apply resolve_good].
Qed.
Lemma keeps_copyFile (src dst : string) : Keeps Tree (copyFile src dst).
Proof.
  unfold copyFile. keeps_tree; [apply keeps_mkdir|apply keeps_look|apply keeps_create|]. apply Keeps_gextr. intros fs Ht.
  destruct (read _ fs); [|done]. apply write_tree; [done|apply resolve_good].
Qed.
Lemma keeps_copyDirectory fuel : forall src dst : string, Keeps Tree (copyDirectory fuel src dst).
Proof.
  induction fuel as [|fuel IH]; intros src dst; cbn [copyDirectory]; [apply Keeps_ret|].
  keeps_tree; [apply keeps_mkdir|apply keeps_look|]. rename a0 into l. induction l as [|e l IHl]; cbn [each_entry]; [apply Keeps_ret|].
  keeps_tree; first [apply IH|apply keeps_copyFile|apply IHl].
Qed.

(** Whatever calls fail and wherever, saving, deleting and copying keep the
    files a tree: proper names, every entry in a folder. *)
Theorem storage_keeps_tree (ls : LocalStorage) (fi : FileInfo) (r : IoReader) (fuel : nat) (path1 path2 : string) :
  Keeps Tree (Save ls fi r) /\ Keeps Tree (DeleteFile ls path1) /\ Keeps Tree (CopyDir ls fuel path1 path2) /\
  Keeps Tree (ReadFile ls path1).
Proof.
  split_and!.
  - unfold Save. keeps_tree; [apply keeps_look|apply keeps_mkdir|apply keeps_create|apply keeps_copy].
  - unfold DeleteFile. keeps_tree; [apply keeps_look|]. apply Keeps_gextr. intros fs. apply remove_tree.
  - unfold CopyDir. keeps_tree; [apply keeps_look|apply keeps_copyDirectory|apply keeps_copyFile].
  - unfold ReadFile. keeps_tree; apply keeps_look.
Qed.
End Local.

(** * The storage at work *)
Definition demoStorage : LocalStorage := mkLocal "/data/files" "https://files".
Definition demoTree : FS :=
  {[ ["data"] := Folder; ["data"; "files"] := Folder; ["data"; "files"; "a"] := Folder;
     ["data"; "files"; "a"; "x.txt"] := File "one"; ["data"; "files"; "a"; "b"] := Folder;
     ["data"; "files"; "a"; "b"; "y.txt"] := File "two" ]}%string.
Definition demoFile (path : string) : FileInfo := FI.set_saved path 0 FI.zero.

(** A tree, as a test. *)
Definition is_tree (fs : FS) : bool :=
  forallb (fun e : path * node => let p := fst e in
    negb (bool_decide (p = [])) && forallb plain p && bool_decide (at_ fs (parent p) = Some Folder)) (map_to_list fs).
Lemma is_tree_ok (fs : FS) : is_tree fs = true -> Tree fs.
Proof.
  unfold is_tree. rewrite forallb_forall. intros H.
  assert (Ha : forall p n, fs !! p = Some n -> p <> [] /\ Forall (fun c => plain c = true) p /\ at_ fs (parent p) = Some Folder).
  { intros p n Hp. apply elem_of_map_to_list, list_elem_of_In, H in Hp. cbn [fst] in Hp.
    apply andb_true_iff in Hp as [[Hne%negb_true_iff Hpl]%andb_true_iff Hpar%bool_decide_eq_true_1].
    split; [by apply bool_decide_eq_false_1 in Hne|]. split; [|done]. apply Forall_forall. intros c Hc. rewrite forallb_forall in Hpl.
    apply Hpl. by apply list_elem_of_In. }
  split; intros p n Hp; by apply Ha in Hp as (? & ? & ?).
Qed.
(** Every path of a finite tree, as a test. *)
Lemma depth_ok (fs : FS) (src : path) (fuel : nat) : src <> [] ->
  forallb (fun e : path * node => bool_decide (src `prefix_of` fst e -> (length (fst e) < length src + fuel)%nat)) (map_to_list fs) = true ->
  forall q n, at_ fs (src ++ q) = Some n -> (length q < fuel)%nat.
Proof.
  intros Hne Hall q n Hq. rewrite at_lookup in Hq by (by destruct src). apply elem_of_map_to_list, list_elem_of_In in Hq.
  rewrite forallb_forall in Hall. apply Hall, bool_decide_eq_true_1 in Hq. cbn [fst] in Hq. rewrite length_app in Hq.
  specialize (Hq ltac:(by apply prefix_app_r)). lia.
Qed.

Definition savedOnce := Save (H := quietEnv) ["home"]%string demoStorage (demoFile "a/../c/z.txt") (mkIoReader "three" None) (mkWorld 0 demoTree).
Lemma save_then_read_witness :
  exists fi' w', savedOnce = (Ok (Ok tt, fi'), w') /\ fi'.(FI.StoragePath) = "c/z.txt"%string /\
    at_ (st w') ["data"; "files"; "c"; "z.txt"]%string = Some (File "three").
Proof.
  destruct (save_then_read (H := quietEnv) ["home"]%string quietEnv_ok demoStorage (demoFile "a/../c/z.txt") "three" (mkWorld 0 demoTree)
              eq_refl ltac:(apply is_tree_ok; vm_compute; reflexivity)) as (r & fi' & w' & E & _).
  change (savedOnce = (Ok (r, fi'), w')) in E.
  assert (Hr : match fst savedOnce with Ok (Ok tt, f) => Some f.(FI.StoragePath) | _ => None end = Some "c/z.txt"%string)
    by (vm_compute; reflexivity).
  assert (Hw : at_ (st (snd savedOnce)) ["data"; "files"; "c"; "z.txt"]%string = Some (File "three")) by (vm_compute; reflexivity).
  rewrite E in Hr, Hw |- *. cbn [fst snd] in Hr, Hw. destruct r as [[]|e]; [|discriminate Hr]. injection Hr as Hp.
  exists fi', w'. split_and!; [reflexivity|exact Hp|exact Hw].
Defined.
Lemma CopyDir_spec_witness :
  exists w', CopyDir (H := quietEnv) ["home"]%string demoStorage 3 "a" "k/copy" (mkWorld 0 demoTree) = (Ok true, w') /\
    at_ (st w') ["data"; "files"; "k"; "copy"; "b"; "y.txt"]%string = Some (File "two").
Proof.
  destruct (CopyDir_spec (H := quietEnv) ["home"]%string quietEnv_ok demoStorage "a" "k/copy" 3 (mkWorld 0 demoTree))
    as (w' & E & _ & Hw').
  - reflexivity.
  - apply is_tree_ok; vm_compute; reflexivity.
  - split; apply (bool_decide_eq_true_1 (~ _)); vm_compute; reflexivity.
  - vm_compute. reflexivity.
  - vm_compute. reflexivity.
  - intros p c Hp. revert p Hp. apply Forall_forall. repeat constructor; vm_compute; discriminate.
  - apply depth_ok; [done|vm_compute; reflexivity].
  - exists w'. split; [exact E|]. rewrite Hw'. vm_compute. reflexivity.
Defined.
Lemma storage_keeps_tree_witness :
  Tree (st (snd (CopyDir (H := faultEnv 5 (ErrVar "no space left on device")) ["home"]%string demoStorage 3 "a" "k/copy" (mkWorld 0 demoTree)))).
Proof.
  apply (storage_keeps_tree (H := faultEnv 5 (ErrVar "no space left on device")) ["home"]%string ltac:(by repeat constructor)
           demoStorage (demoFile "") (mkIoReader "" None) 3 "a" "k/copy").
  apply is_tree_ok; vm_compute; reflexivity.
Defined.

(** A storage path that starts with dots leaves the folder of the storage, for
    writing, reading and deleting. *)
Example path_climbs_out :
  let w := snd (Save (H := quietEnv) [] demoStorage (demoFile "../../etc/passwd") (mkIoReader "root::0:0" None) (mkWorld 0 demoTree)) in
  at_ (st w) ["etc"; "passwd"]%string = Some (File "root::0:0") /\
  fst (ReadFile (H := quietEnv) [] demoStorage "../../etc/passwd" w) = Ok "/etc/passwd"%string /\
  at_ (st (snd (DeleteFile (H := quietEnv) [] demoStorage "../../etc/passwd" w))) ["etc"; "passwd"]%string = None.
Proof. vm_compute. split_and!; reflexivity. Qed.
(** A file that is copied onto itself is emptied. *)
Example copy_onto_itself :
  let w := snd (CopyDir (H := quietEnv) [] demoStorage 1 "a/x.txt" "a/./x.txt" (mkWorld 0 demoTree)) in
  at_ (st w) ["data"; "files"; "a"; "x.txt"]%string = Some (File "").
Proof. vm_compute. reflexivity. Qed.
