(* ===== verification/Lifecycle.v ===== *)
(** [src/lifecycle]: the end of a process (lifecycle.go), the file with its
    number (pid.go) and its name in the cluster (identify.go).

    The calls that another goroutine makes, the signals, the goroutines of
    [exit] and the clock are the labels of a step function: a run is a list of
    labels, in any order in which each is possible. *)
From S2P Require Import Prelude Strings Files NetTools LocalDir.
#[local] Open Scope Z_scope.

(** A signal is its number, a closer a function or another value, by name. *)
Definition Interrupt : Z := 2.
Definition SIGTERM : Z := 15.
Inductive Closer : Type := nilCloser | closerFunc (f : option nat) | ioCloser (id : nat).
Definition newCloserFunc (f : option nat) : Closer := closerFunc f.
Record LifeCycle : Type := mkLifeCycle {
  ctx_done : bool; chExit : bool; exitTimeout : Z; listenSigs : list Z; preExitRun : list Closer
}.
Definition Microsecond : Z := 1000.
Definition Second : Z := 1000000000.

(** * The operations *)
Definition New : LifeCycle := mkLifeCycle false false (Second * 15) [SIGTERM; Interrupt] [].
Definition SetSignals (sigs : list Z) (l : LifeCycle) : LifeCycle := mkLifeCycle l.(ctx_done) l.(chExit) l.(exitTimeout) sigs l.(preExitRun).
Definition AddCloser (clr : Closer) (l : LifeCycle) : LifeCycle :=
  mkLifeCycle l.(ctx_done) l.(chExit) l.(exitTimeout) l.(listenSigs)
    match l.(preExitRun) with [] => [clr] | run => run ++ [clr] end.
Definition AddCloseFunc (f : option nat) (l : LifeCycle) : LifeCycle := AddCloser (newCloserFunc f) l.
Definition SetTimeout (d : Z) (l : LifeCycle) : LifeCycle := mkLifeCycle l.(ctx_done) l.(chExit) d l.(listenSigs) l.(preExitRun).
Definition CancelContext (l : LifeCycle) : LifeCycle :=
  if l.(ctx_done) then l else mkLifeCycle true l.(chExit) l.(exitTimeout) l.(listenSigs) l.(preExitRun).
(** [close] of a channel that is closed panics. *)
Definition close_chan (l : LifeCycle) : option LifeCycle :=
  if l.(chExit) then None else Some (mkLifeCycle l.(ctx_done) true l.(exitTimeout) l.(listenSigs) l.(preExitRun)).
(** The look and the close are two steps for other goroutines. *)
Definition closeCh (l : LifeCycle) : option LifeCycle := if l.(chExit) then Some l else close_chan l.
Definition Exit (l : LifeCycle) : option LifeCycle := closeCh l.
(** The first call makes the value that the next ones get. *)
Definition Std (std : option LifeCycle) : LifeCycle * option LifeCycle :=
  match std with None => (New, Some New) | Some l => (l, std) end.

(** * A process that waits for its end *)
Inductive Call : Type := CSetSignals (sigs : list Z) | CAddCloser (clr : Closer) | CAddCloseFunc (f : option nat) | CSetTimeout (d : Z) | CCancel.
Definition call_of (c : Call) : LifeCycle -> LifeCycle :=
  match c with
  | CSetSignals sigs => SetSignals sigs
  | CAddCloser clr => AddCloser clr
  | CAddCloseFunc f => AddCloseFunc f
  | CSetTimeout d => SetTimeout d
  | CCancel => CancelContext
  end.
(** Where [WaitExit] is: before its call, in the [select], with a signal it
    received, at the start of [exit], after starting the timer, after cancelling,
    after [wg.Add], in the loop that starts the closers, in [wg.Wait] and in the
    last [Sleep]. *)
Inductive Pc : Type :=
  | Before | Selecting | Caught (sig : Z)
  | ExitEntry | Armed | Cancelled | Added | Spawning (rest : list Closer) | Waiting | Sleeping (until : Z).
(** The goroutine of the timer: [time.Tick] is called when it first runs, and
    answers a nil channel for a time that is not positive. *)
Inductive Timer : Type := NoTimer | Started | Ticking (deadline : Z) | Blocked.
Record Process : Type := mkProcess {
  lc : LifeCycle; pc : Pc;
  relayed : option (list Z); sigChan : option Z;
  closing : nat;
  timer : Timer; wg : Z; running : list Closer; closed : list Closer;
  now : Z; status : option Z
}.
Definition set_lc (l : LifeCycle) (p : Process) : Process :=
  mkProcess l p.(pc) p.(relayed) p.(sigChan) p.(closing) p.(timer) p.(wg) p.(running) p.(closed) p.(now) p.(status).
Definition set_pc (c : Pc) (p : Process) : Process :=
  mkProcess p.(lc) c p.(relayed) p.(sigChan) p.(closing) p.(timer) p.(wg) p.(running) p.(closed) p.(now) p.(status).
Definition set_signals (r : option (list Z)) (s : option Z) (p : Process) : Process :=
  mkProcess p.(lc) p.(pc) r s p.(closing) p.(timer) p.(wg) p.(running) p.(closed) p.(now) p.(status).
Definition set_closing (n : nat) (p : Process) : Process :=
  mkProcess p.(lc) p.(pc) p.(relayed) p.(sigChan) n p.(timer) p.(wg) p.(running) p.(closed) p.(now) p.(status).
Definition set_timer (t : Timer) (p : Process) : Process :=
  mkProcess p.(lc) p.(pc) p.(relayed) p.(sigChan) p.(closing) t p.(wg) p.(running) p.(closed) p.(now) p.(status).
Definition set_group (n : Z) (r c : list Closer) (p : Process) : Process :=
  mkProcess p.(lc) p.(pc) p.(relayed) p.(sigChan) p.(closing) p.(timer) n r c p.(now) p.(status).
Definition set_now (t : Z) (p : Process) : Process :=
  mkProcess p.(lc) p.(pc) p.(relayed) p.(sigChan) p.(closing) p.(timer) p.(wg) p.(running) p.(closed) t p.(status).
Definition os_Exit (code : Z) (p : Process) : Process :=
  mkProcess p.(lc) p.(pc) p.(relayed) p.(sigChan) p.(closing) p.(timer) p.(wg) p.(running) p.(closed) p.(now) (Some code).
(** A panic that nobody recovers ends the process with this code. *)
Definition crashed : Z := 2.

Definition WaitExit (p : Process) : Process := set_pc Selecting (set_signals (Some p.(lc).(listenSigs)) p.(sigChan) p).
(** A signal that is asked for goes into the channel of one place, or is lost;
    without names, all are asked for.  The others have the effect that the
    system gives them, which is not described here. *)
Definition deliver (sig : Z) (p : Process) : option Process :=
  match p.(relayed) with
  | None => None
  | Some l => if (match l with [] => true | _ => existsb (Z.eqb sig) l end)
              then Some (match p.(sigChan) with None => set_signals p.(relayed) (Some sig) p | Some _ => p end)
              else None
  end.
Definition caught (sig : Z) (p : Process) : Process :=
  set_pc (if existsb (Z.eqb sig) p.(lc).(listenSigs) then ExitEntry else Selecting) p.
(** [exit], step by step. *)
Definition exit_step (p : Process) : option Process :=
  match p.(pc) with
  | ExitEntry => Some (if p.(lc).(exitTimeout) <? Microsecond then os_Exit 0 p else set_pc Armed (set_timer Started p))
  | Armed => Some (set_pc Cancelled (set_lc (CancelContext p.(lc)) p))
  | Cancelled => Some (set_pc Added (set_group (p.(wg) + Z.of_nat (length p.(lc).(preExitRun))) p.(running) p.(closed) p))
  | Added => Some (set_pc (Spawning p.(lc).(preExitRun)) p)
  | Spawning (v :: rest) => Some (set_pc (Spawning rest) (set_group p.(wg) (p.(running) ++ [v]) p.(closed) p))
  | Spawning [] => Some (set_pc Waiting p)
  | Waiting => if p.(wg) =? 0 then Some (set_pc (Sleeping (p.(now) + Second)) p) else None
  | Sleeping until => if until <=? p.(now) then Some (os_Exit 0 p) else None
  | _ => None
  end.
Definition timer_step (p : Process) : option Process :=
  match p.(timer) with
  | Started => Some (set_timer (if p.(lc).(exitTimeout) <=? 0 then Blocked else Ticking (p.(now) + p.(lc).(exitTimeout))) p)
  | Ticking deadline => if deadline <=? p.(now) then Some (os_Exit 1 p) else None
  | _ => None
  end.
(** The goroutine of a closer ends: its error is not looked at, a function that
    is nil panics, and so does a counter below zero. *)
Definition closer_done (i : nat) (p : Process) : option Process :=
  match p.(running) !! i with
  | None => None
  | Some clr =>
      Some (match clr with
            | closerFunc None => os_Exit crashed p
            | _ => let p' := set_group (p.(wg) - 1) (delete i p.(running)) (p.(closed) ++ [clr]) p in
                   if p'.(wg) <? 0 then os_Exit crashed p' else p'
            end)
  end.

Inductive Label : Type :=
  | LWaitExit | LSignal (sig : Z) | LCall (c : Call) | LExitLook | LExitClose
  | LPickSignal | LPickExit | LCaught | LExit | LTimer | LCloser (i : nat) | LCloserPanics (i : nat) | LPass (d : Z).
Definition do_step (l : Label) (p : Process) : option Process :=
  match p.(status) with
  | Some _ => None
  | None =>
      match l with
      | LWaitExit => match p.(pc) with Before => Some (WaitExit p) | _ => None end
      | LSignal sig => deliver sig p
      | LCall c => Some (set_lc (call_of c p.(lc)) p)
      | LExitLook => Some (if p.(lc).(chExit) then p else set_closing (S p.(closing)) p)
      | LExitClose =>
          match p.(closing) with
          | O => None
          | S n => Some (match close_chan p.(lc) with None => os_Exit crashed p | Some l' => set_closing n (set_lc l' p) end)
          end
      | LPickSignal => match p.(pc), p.(sigChan) with Selecting, Some sig => Some (set_pc (Caught sig) (set_signals p.(relayed) None p)) | _, _ => None end
      | LPickExit => match p.(pc) with Selecting => if p.(lc).(chExit) then Some (set_pc ExitEntry p) else None | _ => None end
      | LCaught => match p.(pc) with Caught sig => Some (caught sig p) | _ => None end
      | LExit => exit_step p
      | LTimer => timer_step p
      | LCloser i => closer_done i p
      | LCloserPanics i => match p.(running) !! i with Some (closerFunc (Some _)) | Some (ioCloser _) => Some (os_Exit crashed p) | _ => None end
      | LPass d => if 0 <=? d then Some (set_now (p.(now) + d) p) else None
      end
  end.
Fixpoint run (ls : list Label) (p : Process) : option Process :=
  match ls with
  | [] => Some p
  | l :: ls' => match do_step l p with None => None | Some p' => run ls' p' end
  end.
Definition start (l : LifeCycle) (t : Z) : Process := mkProcess l Before None None 0 NoTimer 0 [] [] t None.

(** * How a process ends *)
Definition exiting (p : Process) : bool := match p.(pc) with Before | Selecting | Caught _ => false | _ => true end.
(** A run in which the process is not configured any more once it exits. *)
Definition calm (l : Label) (p : Process) : bool :=
  match l with LCall CCancel => true | LCall _ => negb (exiting p) | _ => true end.
Fixpoint calm_run (ls : list Label) (p : Process) : option Process :=
  match ls with
  | [] => Some p
  | l :: ls' => if calm l p then match do_step l p with None => None | Some p' => calm_run ls' p' end else None
  end.

(** ** What holds in every run *)
Definition idle (p : Process) : Prop := p.(timer) = NoTimer /\ p.(wg) = 0 /\ p.(running) = [] /\ p.(closed) = [].
Definition early (p : Process) : Prop := match p.(pc) with Before | Selecting | Caught _ | ExitEntry => idle p | _ => True end.

(** Steps of others: the calls, the signals and the clock. *)
Definition others (l : Label) : bool :=
  match l with LSignal _ | LCall _ | LExitLook | LExitClose | LPass _ => true | _ => false end.
Definition group (p : Process) : Z * list Closer * list Closer := (p.(wg), p.(running), p.(closed)).
Lemma others_step l p p' : do_step l p = Some p' -> others l = true ->
  pc p' = pc p /\ timer p' = timer p /\ group p' = group p /\ now p <= now p' /\
  (status p' = None \/ status p' = Some crashed) /\
  match l with
  | LCall c => lc p' = call_of c (lc p)
  | _ => exitTimeout (lc p') = exitTimeout (lc p) /\ listenSigs (lc p') = listenSigs (lc p) /\
         preExitRun (lc p') = preExitRun (lc p) /\ ctx_done (lc p') = ctx_done (lc p)
  end.
Proof.
  unfold do_step. destruct (status p) eqn:Es; [done|]. intros E Hl. destruct l; try discriminate Hl; unfold deliver, close_chan in E.
  - destruct (relayed p); [|done]. destruct (match l with [] => _ | _ => _ end); [|done]. injection E as <-. destruct (sigChan p); cbn; rewrite ?Es; split_and!; auto; lia.
  - injection E as <-. cbn. rewrite Es. split_and!; auto; lia.
  - injection E as <-. destruct (chExit (lc p)); cbn; rewrite Es; split_and!; auto; lia.
  - destruct (closing p); [done|]. injection E as <-. destruct (chExit (lc p)); cbn; rewrite ?Es; split_and!; auto; lia.
  - destruct (Z.leb_spec 0 d); [|done]. injection E as <-. cbn. rewrite Es. split_and!; auto; lia.
Qed.
Lemma early_step l p p' : do_step l p = Some p' -> early p -> early p'.
Proof.
  intros E Hp. destruct (others l) eqn:Hl.
  { destruct (others_step l p p' E Hl) as (Eq & Et & [= E1 E2 E3] & _). unfold early, idle in *. by rewrite Eq, Et, E1, E2, E3. }
  unfold do_step in E. destruct (status p); [done|]. unfold early in *.
  assert (Hgone : forall i c, running p !! i = Some c -> match pc p with Before | Selecting | Caught _ | ExitEntry => False | _ => True end).
  { intros i c Hi. destruct (pc p); try done; destruct Hp as (_ & _ & Hr & _); by rewrite Hr in Hi. }
  destruct l as [| | | | | | | | | |i|i|]; try discriminate Hl.
  - destruct (pc p); try done. by injection E as <-.
  - destruct (pc p); try done. destruct (sigChan p); [|done]. by injection E as <-.
  - destruct (pc p); try done. destruct (chExit (lc p)); [|done]. by injection E as <-.
  - destruct (pc p); try done. injection E as <-. unfold caught. by destruct (existsb _ _).
  - unfold exit_step in E. destruct (pc p) as [| | | | | | |[|v rest]| |] eqn:Eq; try done.
    + injection E as <-. destruct (_ <? _); [|done]. cbn. by rewrite Eq.
    + injection E as <-. done.
    + injection E as <-. done.
    + injection E as <-. done.
    + injection E as <-. done.
    + injection E as <-. done.
    + destruct (wg p =? 0); [|done]. by injection E as <-.
    + destruct (_ <=? _); [|done]. injection E as <-. cbn. by rewrite Eq.
  - unfold timer_step in E. destruct (pc p) eqn:Eq; try (destruct Hp as (Ht & _); by rewrite Ht in E);
      destruct (timer p); try done; try (destruct (_ <=? _); [|done]); injection E as <-; cbn; by rewrite Eq.
  - unfold closer_done in E. destruct (running p !! i) eqn:Ei; [|done]. specialize (Hgone _ _ Ei).
    injection E as <-. destruct c as [|[]|]; cbn; try destruct (_ <? 0); cbn; by destruct (pc p).
  - destruct (running p !! i) as [c|] eqn:Ei; [|done]. specialize (Hgone _ _ Ei). destruct c as [|[]|]; try done; injection E as <-; cbn; by destruct (pc p).
Qed.

(** ** A calm exit, begun at the time [t1] with the closers [R] and the timeout [T] *)
Section Ending.
Variables (t1 T : Z) (R : list Closer).
Definition group_inv (p : Process) : Prop :=
  match p.(pc) with
  | Armed | Cancelled => group p = (0, [], [])
  | Added => group p = (Z.of_nat (length R), [], [])
  | Spawning rest => p.(wg) = Z.of_nat (length p.(running) + length rest) /\ p.(closed) ++ p.(running) ++ rest ≡ₚ R
  | Waiting => p.(wg) = Z.of_nat (length p.(running)) /\ p.(closed) ++ p.(running) ≡ₚ R
  | Sleeping until => group p = (0, [], p.(closed)) /\ p.(closed) ≡ₚ R /\ t1 + Second <= until
  | _ => True
  end.
Definition timer_inv (p : Process) : Prop :=
  match p.(timer) with Started => True | Ticking deadline => t1 + T <= deadline | _ => False end.
Definition cancelled (p : Process) : Prop := match p.(pc) with Armed => True | _ => p.(lc).(ctx_done) = true end.
(** What has happened when the process has ended. *)
Definition ended (p : Process) (code : Z) : Prop :=
  (code = 0 /\ p.(closed) ≡ₚ R /\ p.(lc).(ctx_done) = true /\ t1 + Second <= p.(now)) \/
  (code = 1 /\ t1 + T <= p.(now)) \/ code = crashed.
Record ending (p : Process) : Prop := mkEnding {
  e_exiting : exiting p = true; e_armed : p.(pc) <> ExitEntry;
  e_closers : p.(lc).(preExitRun) = R; e_timeout : p.(lc).(exitTimeout) = T; e_now : t1 <= p.(now);
  e_timer : timer_inv p; e_group : group_inv p; e_cancelled : cancelled p;
  e_status : match p.(status) with None => True | Some code => ended p code end
}.
Lemma delete_middle (i : nat) (l : list Closer) c : l !! i = Some c -> c :: delete i l ≡ₚ l.
Proof. intros E. symmetry. by apply delete_Permutation. Qed.
Lemma moved_closed (i : nat) (cd rn rest : list Closer) c : rn !! i = Some c ->
  (cd ++ [c]) ++ delete i rn ++ rest ≡ₚ cd ++ rn ++ rest.
Proof. intros E. rewrite <- app_assoc. apply Permutation_app_head. rewrite <- (delete_middle i rn c E) at 2. done. Qed.
Hypothesis HT : Microsecond <= T.
Lemma ending_others l p p' : do_step l p = Some p' -> others l = true -> calm l p = true -> ending p -> ending p'.
Proof.
  intros E Hl Hcalm [He Ha Hc Ht Hn Hti Hg Hx Hs]. destruct (others_step l p p' E Hl) as (Eq & Et & Eg & Hn' & Hst & Hlc).
  assert (Hlc' : preExitRun (lc p') = R /\ exitTimeout (lc p') = T /\ (ctx_done (lc p) = true -> ctx_done (lc p') = true)).
  { destruct l as [| |c| | | | | | | | | |]; try (destruct Hlc as (H1 & H2 & H3 & H4); rewrite H1, H3, H4; done).
    rewrite Hlc. unfold calm in Hcalm. destruct c; try (rewrite He in Hcalm; discriminate Hcalm).
    cbn. unfold CancelContext. destruct (ctx_done (lc p)) eqn:Ed; cbn; by rewrite ?Ed. }
  destruct Hlc' as (H1 & H2 & H3). injection Eg as E1 E2 E3.
  split; unfold exiting, timer_inv, group_inv, group, cancelled in *; rewrite ?Eq, ?Et, ?E1, ?E2, ?E3; try done; [lia| |].
  - destruct (pc p); auto.
  - destruct Hst as [->| ->]; [done|]. by right; right.
Qed.
Lemma ending_pc q p : ending p -> status p = None -> exiting (set_pc q p) = true -> q <> ExitEntry ->
  group_inv (set_pc q p) -> cancelled (set_pc q p) -> ending (set_pc q p).
Proof. intros Hp Es H1 H2 H3 H4. destruct Hp. split; try done. Qed.
Lemma ending_exits code p : ending p -> ended p code -> ending (os_Exit code p).
Proof. intros [] He. split; done. Qed.
Lemma ending_exit p p' : exit_step p = Some p' -> status p = None -> ending p -> ending p'.
Proof.
  unfold exit_step. intros E Es Hp. pose proof (e_group p Hp) as Hg. pose proof (e_cancelled p Hp) as Hx. pose proof (e_armed p Hp) as Ha.
  pose proof (e_closers p Hp) as Hc. unfold group_inv, group, cancelled in Hg, Hx.
  destruct (pc p) eqn:Eq; try done.
  - injection E as <-. injection Hg as Hg1 Hg2 Hg3. destruct Hp. unfold CancelContext.
    destruct (ctx_done (lc p)) eqn:Ed; split; cbn; rewrite ?Es; try done; unfold group_inv, group, cancelled; cbn; by rewrite ?Hg1, ?Hg2, ?Hg3.
  - injection E as <-. injection Hg as Hg1 Hg2 Hg3. destruct Hp. split; cbn; rewrite ?Es; try done. unfold group_inv, group. cbn.
    by rewrite Hg1, Hg2, Hg3, Hc.
  - injection E as <-. injection Hg as Hg1 Hg2 Hg3. apply ending_pc; try done. unfold group_inv. cbn. by rewrite Hg1, Hg2, Hg3, Hc.
  - destruct Hg as [Hg1 Hg2]. destruct rest as [|v rest]; injection E as <-.
    + apply ending_pc; try done. unfold group_inv. cbn. rewrite app_nil_r in Hg2. rewrite Hg1. cbn. split; [lia|done].
    + destruct Hp. split; cbn; rewrite ?Es; try done. unfold group_inv. cbn. rewrite <- app_assoc, Hg1, length_app. cbn. split; [lia|done].
  - destruct (Z.eqb_spec (wg p) 0) as [H0|]; [|done]. injection E as <-. destruct Hg as [Hg1 Hg2].
    destruct (running p) eqn:Er; [|cbn in Hg1; lia]. apply ending_pc; try done. unfold group_inv, group. cbn. rewrite app_nil_r in Hg2.
    rewrite Er, H0. pose proof (e_now p Hp). split_and!; [done|done|lia].
  - destruct (Z.leb_spec until (now p)); [|done]. injection E as <-. apply ending_exits; [done|]. left.
    destruct Hg as (Hg1 & Hg2 & Hg3). split_and!; try done. lia.
Qed.
Lemma ending_timer p p' : timer_step p = Some p' -> status p = None -> ending p -> ending p'.
Proof.
  unfold timer_step. intros E Es Hp. pose proof (e_timer p Hp) as Hti. pose proof (e_now p Hp). unfold timer_inv in Hti.
  destruct (timer p) eqn:Et; try done.
  - rewrite (e_timeout p Hp), (proj2 (Z.leb_gt _ _)) in E by (unfold Microsecond in HT; lia). injection E as <-. destruct Hp.
    split; cbn; rewrite ?Es; try done. unfold timer_inv. cbn. lia.
  - destruct (Z.leb_spec deadline (now p)); [|done]. injection E as <-. apply ending_exits; [done|]. right. left. split; [done|lia].
Qed.
Lemma running_group i clr p : running p !! i = Some clr -> group_inv p ->
  group_inv (set_group (wg p - 1) (delete i (running p)) (closed p ++ [clr]) p) /\ (exiting p = true -> pc p <> ExitEntry -> 0 <= wg p - 1).
Proof.
  intros Ei Hg. assert (Hlen : length (running p) = S (length (delete i (running p)))).
  { pose proof (Permutation_length (delete_middle _ _ _ Ei)) as Hp. cbn in Hp. lia. }
  unfold group_inv, group, exiting in *. cbn. destruct (pc p) eqn:Eq; try done; try (injection Hg as _ Hr _; by rewrite Hr, lookup_nil in Ei).
  - destruct Hg as [Hg1 Hg2]. rewrite Hg1, Hlen. split; [|lia]. split; [lia|]. by rewrite moved_closed.
  - destruct Hg as [Hg1 Hg2]. rewrite Hg1, Hlen. split; [|lia]. split; [lia|].
    rewrite <- (app_nil_r (running p)) in Hg2. rewrite <- Hg2, <- (moved_closed i _ _ [] clr Ei). by rewrite app_nil_r.
  - destruct Hg as ([= _ Hr] & _). by rewrite Hr, lookup_nil in Ei.
Qed.
Lemma ending_closer i p p' : closer_done i p = Some p' -> status p = None -> ending p -> ending p'.
Proof.
  unfold closer_done. intros E Es Hp. destruct (running p !! i) as [clr|] eqn:Ei; [|done].
  assert (Hcr : ending (os_Exit crashed p)) by (apply ending_exits; [done|]; by right; right).
  destruct (running_group i clr p Ei (e_group p Hp)) as [Hg Hpos]. specialize (Hpos (e_exiting p Hp) (e_armed p Hp)).
  cbn zeta in E. cbn [wg set_group] in E. rewrite (proj2 (Z.ltb_ge _ _)) in E by done.
  assert (Hok : ending (set_group (wg p - 1) (delete i (running p)) (closed p ++ [clr]) p)) by (destruct Hp; split; cbn; rewrite ?Es; done).
  destruct clr as [|[f|]|]; injection E as <-; done.
Qed.
Lemma ending_step l p p' : do_step l p = Some p' -> calm l p = true -> ending p -> ending p'.
Proof.
  intros E Hcalm Hp. destruct (others l) eqn:Hl; [by apply (ending_others l p)|]. pose proof (e_exiting p Hp) as He. unfold exiting in He.
  unfold do_step in E. destruct (status p) eqn:Es; [done|]. destruct l as [| | | | | | | | | |i|i|]; try discriminate Hl; try (by destruct (pc p)).
  - by apply (ending_exit p).
  - by apply (ending_timer p).
  - by apply (ending_closer i p).
  - destruct (running p !! i) as [[|[f|]|]|]; try done; injection E as <-; (apply ending_exits; [done|]; by right; right).
Qed.
End Ending.

(** ** What ends a process, and how *)
Lemma calm_is_run ls p p' : calm_run ls p = Some p' -> run ls p = Some p'.
Proof.
  revert p. induction ls as [|l ls IH]; intros p; [done|]. cbn. destruct (calm l p); [|done]. destruct (do_step l p); [|done]. apply IH.
Qed.
Lemma run_app ls ls' p p' : run ls p = Some p' -> run (ls ++ ls') p = run ls' p'.
Proof.
  revert p. induction ls as [|l ls IH]; intros p; cbn; [by intros [= ->]|]. destruct (do_step l p); [apply IH|done].
Qed.
(** The step after the start of [exit]: at once, or armed. *)
Definition waits_like (p p' : Process) : Prop :=
  pc p' = ExitEntry /\ idle p' /\ exitTimeout (lc p') = exitTimeout (lc p) /\ preExitRun (lc p') = preExitRun (lc p) /\ now p <= now p' /\
  (status p' = None \/ status p' = Some crashed).
Lemma begun l p p' : pc p = ExitEntry -> idle p -> do_step l p = Some p' -> calm l p = true ->
  waits_like p p' \/
  if exitTimeout (lc p) <? Microsecond then status p' = Some 0 /\ pc p' = ExitEntry /\ idle p' else ending (now p) (exitTimeout (lc p)) (preExitRun (lc p)) p'.
Proof.
  intros Eq (Et & Eg & Er & Ec) E Hcalm. destruct (others l) eqn:Hl.
  { left. destruct (others_step l p p' E Hl) as (Eq' & Et' & [= E1 E2 E3] & Hn & Hst & Hlc). unfold waits_like, idle. rewrite Eq', Et', E1, E2, E3.
    split_and!; try done; destruct l as [| |c| | | | | | | | | |]; try (by destruct Hlc as (H1 & H2 & H3 & H4));
      rewrite Hlc; unfold calm, exiting in Hcalm; rewrite Eq in Hcalm; destruct c; try discriminate Hcalm; cbn; unfold CancelContext; by destruct (ctx_done (lc p)). }
  unfold do_step in E. destruct (status p) eqn:Es; [done|].
  destruct l as [| | | | | | | | | |i|i|]; try discriminate Hl; rewrite ?Eq in E; try done.
  - unfold exit_step in E. rewrite Eq in E. injection E as <-. right. destruct (Z.ltb_spec (exitTimeout (lc p)) Microsecond); [done|].
    split; cbn; rewrite ?Es; try done. unfold group_inv, group. cbn. by rewrite Eg, Er, Ec.
  - unfold timer_step in E. by rewrite Et in E.
  - unfold closer_done in E. by rewrite Er in E.
  - by rewrite Er in E.
Qed.


Lemma before_exit_step l p p' : do_step l p = Some p' -> idle p -> exiting p = false -> (exiting p' = false \/ pc p' = ExitEntry) /\ status p' <> Some 0.
Proof.
  intros E (Et & _ & Er & _) He. destruct (others l) eqn:Hl.
  { destruct (others_step l p p' E Hl) as (Eq' & _ & _ & _ & Hst & _). unfold exiting in *. rewrite Eq'. split; [by left|]. by destruct Hst as [->| ->]. }
  unfold do_step in E. destruct (status p) eqn:Es; [done|]. unfold exiting in He.
  destruct l as [| | | | | | | | | |i|i|]; try discriminate Hl; unfold exit_step, timer_step, closer_done in E; rewrite ?Et, ?Er, ?lookup_nil in E; try done;
    destruct (pc p) eqn:Eq; try done.
  - injection E as <-. split; [by left|]. cbn. by rewrite Es.
  - destruct (sigChan p); [|done]. injection E as <-. split; [by left|]. cbn. by rewrite Es.
  - destruct (chExit (lc p)); [|done]. injection E as <-. split; [by right|]. cbn. by rewrite Es.
  - injection E as <-. unfold caught. split; [|cbn; by rewrite Es]. unfold exiting. destruct (existsb _ _); [by right|by left].
Qed.
Definition phase (p : Process) : Prop :=
  ((exiting p = false \/ pc p = ExitEntry) /\ idle p) \/ exists t1 T R, Microsecond <= T /\ ending t1 T R p.
Lemma phase_step l p p' : do_step l p = Some p' -> calm l p = true -> phase p -> phase p'.
Proof.
  intros E Hc [[Hq Hi]|(t1 & T & R & HT & Hp)]; [|right; exists t1, T, R; split; [done|]; by apply (ending_step t1 T R HT l p)].
  destruct Hq as [Hq|Hq].
  - left. destruct (before_exit_step l p p' E Hi Hq) as [Hq' _]. split; [done|].
    assert (He : early p) by (unfold early; unfold exiting in Hq; by destruct (pc p)).
    pose proof (early_step l p p' E He) as He'. unfold early, exiting in *. destruct Hq' as [Hq'|Hq']; destruct (pc p'); done.
  - destruct (begun l p p' Hq Hi E Hc) as [(Hq' & Hi' & _)|He]; [left; split; [by right|done]|].
    destruct (Z.ltb_spec (exitTimeout (lc p)) Microsecond) as [|HT]; [|right; by do 3 eexists].
    left. destruct He as (_ & Hq' & Hi'). split; [by right|done].
Qed.
Lemma phase_run ls p p' : calm_run ls p = Some p' -> phase p -> phase p'.
Proof.
  revert p. induction ls as [|l ls IH]; intros p; cbn; [by intros [= ->]|]. destruct (calm l p) eqn:Ec; [|done].
  destruct (do_step l p) as [p1|] eqn:E; [|done]. intros Hr Hp. apply (IH p1 Hr). by apply (phase_step l p).
Qed.
Definition alone (l : Label) : Prop := l = LExit \/ l = LTimer \/ exists d, l = LPass d.
Definition can_end (p : Process) : Prop :=
  exists ls' p' code, run ls' p = Some p' /\ status p' = Some code /\ (code = 0 \/ code = 1) /\ Forall alone ls'.
Lemma can_end_step l p p' : alone l -> do_step l p = Some p' -> can_end p' -> can_end p.
Proof.
  intros Hl E (ls & p1 & code & Hr & Hs & Hc & Hf). exists (l :: ls), p1, code. cbn. rewrite E. split_and!; try done. by constructor.
Qed.
Lemma tick_ends d p : timer p = Ticking d -> status p = None -> can_end p.
Proof.
  intros Et Es. set (k := Z.max 0 (d - now p)).
  apply (can_end_step (LPass k) p (set_now (now p + k) p)); [right; right; by eexists| |].
  { unfold do_step. by rewrite Es, (proj2 (Z.leb_le 0 k)) by lia. }
  exists [LTimer], (os_Exit 1 (set_now (now p + k) p)), 1.
  split; [|split_and!; try done; [by right|]; repeat constructor; by right; left].
  unfold run, do_step, timer_step. cbn [status set_now timer now]. by rewrite Es, Et, (proj2 (Z.leb_le d _)) by lia.
Qed.
Lemma timer_ends t1 T R p : Microsecond <= T -> ending t1 T R p -> status p = None -> can_end p.
Proof.
  intros HT Hp Es. pose proof (e_timer _ _ _ _ Hp) as Ht. unfold timer_inv in Ht. destruct (timer p) eqn:Et; try done.
  - apply (can_end_step LTimer p (set_timer (Ticking (now p + exitTimeout (lc p))) p)); [right; by left| |by eapply tick_ends].
    unfold do_step, timer_step. rewrite Es, Et, (e_timeout _ _ _ _ Hp). by rewrite (proj2 (Z.leb_gt _ _)) by (unfold Microsecond in HT; lia).
  - by eapply tick_ends.
Qed.
(** A process that exits can always end without its closers: its own step or
    the timer and the clock are enough. *)
Theorem exit_cannot_hang ls l t p : calm_run ls (start l t) = Some p -> exiting p = true -> status p = None -> can_end p.
Proof.
  intros Hr He Hs. assert (Hp : phase (start l t)) by (left; split; [by left|done]).
  destruct (phase_run _ _ _ Hr Hp) as [[[Hq|Hq] Hi]|(t1 & T & R & HT & Hen)]; [congruence| |by eapply timer_ends].
  destruct (Z.lt_ge_cases (exitTimeout (lc p)) Microsecond) as [HT|HT].
  - exists [LExit], (os_Exit 0 p), 0. split; [|split_and!; try done; [by left|]; repeat constructor].
    unfold run, do_step, exit_step. by rewrite Hs, Hq, (proj2 (Z.ltb_lt _ _)).
  - assert (E : do_step LExit p = Some (set_pc Armed (set_timer Started p))).
    { unfold do_step, exit_step. by rewrite Hs, Hq, (proj2 (Z.ltb_ge _ _)). }
    apply (can_end_step LExit p _ (or_introl eq_refl) E).
    destruct (begun LExit p _ Hq Hi E eq_refl) as [(Hq' & _)|Hb]; [done|]. rewrite (proj2 (Z.ltb_ge _ _)) in Hb by done.
    by eapply timer_ends.
Qed.

(** Signals that are not listened to do not end a process that nobody asks to
    exit, in any run that leaves the list of signals as it was. *)
Definition unasked (sigs : list Z) (l : Label) : bool :=
  match l with
  | LSignal sig => negb (existsb (Z.eqb sig) sigs)
  | LExitLook | LCall (CSetSignals _) => false
  | _ => true
  end.
Definition undisturbed (sigs : list Z) (p : Process) : Prop :=
  exiting p = false /\ idle p /\ p.(status) = None /\ p.(lc).(listenSigs) = sigs /\ p.(closing) = O /\ p.(lc).(chExit) = false /\
  match p.(sigChan) with Some sig => existsb (Z.eqb sig) sigs = false | None => True end /\
  match p.(pc) with Caught sig => existsb (Z.eqb sig) sigs = false | _ => True end.
Lemma undisturbed_step sigs l p p' : do_step l p = Some p' -> unasked sigs l = true -> undisturbed sigs p -> undisturbed sigs p'.
Proof.
  intros E Hl (He & Hi & Hs & Hsig & Hc & Hx & Hch & Hq). unfold do_step in E. rewrite Hs in E. unfold undisturbed.
  destruct l as [|sig|c| | | | | | | |i|i|d]; try discriminate Hl; unfold exiting, deliver, timer_step, closer_done in *.
  - destruct (pc p) eqn:Eq; try done. injection E as <-. by split_and!.
  - apply negb_true_iff in Hl. destruct (relayed p); [|done]. destruct (match l with [] => _ | _ => _ end); [|done]. injection E as <-.
    destruct (sigChan p) eqn:Ec; cbn; rewrite ?Ec; by split_and!.
  - injection E as <-. destruct c; try discriminate Hl; cbn; unfold CancelContext; try destruct (ctx_done (lc p)); by split_and!.
  - by rewrite Hc in E.
  - destruct (pc p) eqn:Eq; try done. destruct (sigChan p); [|done]. injection E as <-. cbn. by split_and!.
  - rewrite Hx in E. by destruct (pc p).
  - destruct (pc p) eqn:Eq; try done. injection E as <-. unfold caught. rewrite Hsig, Hq. cbn. by split_and!.
  - unfold exit_step in E. by destruct (pc p).
  - destruct Hi as (Ht & _). by rewrite Ht in E.
  - destruct Hi as (_ & _ & Hr & _). by rewrite Hr in E.
  - destruct Hi as (_ & _ & Hr & _). by rewrite Hr in E.
  - destruct (0 <=? d); [|done]. injection E as <-. by split_and!.
Qed.
Theorem signals_ignored ls l t p : chExit l = false -> forallb (unasked (listenSigs l)) ls = true -> run ls (start l t) = Some p ->
  exiting p = false /\ status p = None.
Proof.
  intros Hx Hl Hr. assert (Hp : undisturbed (listenSigs l) p); [|by destruct Hp as (? & _ & ? & _)].
  assert (H0 : undisturbed (listenSigs l) (start l t)) by by split_and!.
  revert H0 Hr. generalize (start l t) as q. induction ls as [|x ls IH]; intros q Hq; cbn; [by intros [= <-]|].
  cbn in Hl. apply andb_true_iff in Hl as [Hx' Hl]. destruct (do_step x q) as [q'|] eqn:E; [|done]. apply (IH Hl). by apply (undisturbed_step _ x q).
Qed.

(** ** Runs *)
Definition with_two : LifeCycle := AddCloser (ioCloser 7) (AddCloseFunc (Some 1%nat) New).
Definition exits_0 : list Label :=
  [LWaitExit; LSignal SIGTERM; LPickSignal; LCaught; LExit; LExit; LExit; LExit; LExit; LExit; LCloser 0; LExit; LCloser 0; LPass 5; LExit; LPass Second; LExit].
Definition outcome (ls : list Label) (l : LifeCycle) : option (option Z * list Closer) :=
  option_map (fun p => (status p, closed p)) (run ls (start l 0)).
Example ends_well : outcome exits_0 with_two = Some (Some 0, [closerFunc (Some 1%nat); ioCloser 7]).
Proof. reflexivity. Qed.
(** The timer ends a process whose closers do not return. *)
Example ends_by_timer : outcome [LExitLook; LWaitExit; LExitClose; LPickExit; LExit; LTimer; LPass (15 * Second); LTimer] with_two = Some (Some 1, []).
Proof. reflexivity. Qed.
(** Two calls of [Exit] at once: both find the channel open. *)
Example exit_twice : outcome [LExitLook; LExitLook; LExitClose; LExitClose] New = Some (Some crashed, []).
Proof. reflexivity. Qed.
(** A closer that comes between the count and the loop is one too many for the
    counter: the process ends before it is closed, or panics. *)
Definition late_closer : list Label :=
  [LExitLook; LExitClose; LWaitExit; LPickExit; LExit; LExit; LExit; LCall (CAddCloser (ioCloser 8)); LExit; LExit; LExit; LExit].
Example late_left : outcome (late_closer ++ [LExit; LCloser 0; LCloser 0; LExit; LPass Second; LExit]) with_two = Some (Some 0, [closerFunc (Some 1%nat); ioCloser 7]).
Proof. reflexivity. Qed.
Example late_panics : outcome (late_closer ++ [LExit; LCloser 0; LCloser 0; LCloser 0]) with_two =
  Some (Some crashed, [closerFunc (Some 1%nat); ioCloser 7; ioCloser 8]).
Proof. reflexivity. Qed.
(** Without names every signal is asked for, and none of them ends the process. *)
Example no_signals : outcome [LWaitExit; LSignal SIGTERM; LPickSignal; LCaught; LSignal Interrupt; LPickSignal; LCaught] (SetSignals [] New) = Some (None, []).
Proof. reflexivity. Qed.
Lemma exit_cannot_hang_witness : exists p, calm_run (firstn 8 exits_0) (start with_two 0) = Some p /\ can_end p.
Proof.
  eexists. split; [vm_compute; reflexivity|]. apply (exit_cannot_hang (firstn 8 exits_0) with_two 0); vm_compute; reflexivity.
Defined.
Lemma signals_ignored_witness : exists p, run [LWaitExit; LPass 3] (start New 0) = Some p /\ status p = None.
Proof.
  eexists. split; [reflexivity|]. apply (signals_ignored [LWaitExit; LPass 3] New 0 _ ltac:(reflexivity) ltac:(reflexivity) ltac:(reflexivity)).
Defined.

(** * The file of the process *)
Section Pid.
(** The folder of the process and the text of an error of [strconv.Atoi]. *)
Context `{Env} (cwd : path) (atoi_error : string -> error).
Definition EEXIST : error := ErrVar "file exists".
(** [os.OpenFile] with [O_CREATE], [O_EXCL] and [O_WRONLY]. *)
Definition os_OpenNew (name : string) : M FS unit :=
  gextr (fun fs => match at_ fs (resolve cwd name) with Some _ => (Err EEXIST, fs) | None => create (resolve cwd name) fs end).
Definition os_ReadFile (name : string) : M FS string := gextr (fun fs => (read (resolve cwd name) fs, fs)).
(** On a system of the Unix family this never fails. *)
Definition os_FindProcess (pid : Z) : Res Z := Ok pid.
(** The outcome of the write is not looked at. *)
Definition GeneratePIDFile (Getpid : Z) (pidfile : string) : M FS unit :=
  os_OpenNew pidfile ;;;
  gtry (gext (fun fs => (tt, write (resolve cwd pidfile) (fmt_d Getpid ++ newline) fs))) ;;; gret tt.
Definition readPidFile (filename : string) : M FS Z :=
  let! bs := os_ReadFile filename in
  match ParseInt (TrimSpace bs) with Some n => gret n | None => graise (atoi_error (TrimSpace bs)) end.
Definition existsPID (pid : Z) : bool := is_ok (os_FindProcess pid).
Definition Open (pidfile : string) : M FS Z :=
  let! pid := gfmt ("open pid file " ++ pidfile ++ " falied, ") (readPidFile pidfile) in
  match os_FindProcess pid with Ok p => gret p | Err e => graise e end.
Definition Exists (pidfile : string) : M FS unit :=
  let! pid := gfmt ("open pid file " ++ pidfile ++ " falied, ") (readPidFile pidfile) in
  if negb (existsPID pid) then graise (ErrNew ("not found process " ++ fmt_d pid)) else gret tt.

Lemma digit_no_space c : is_digit c = true -> space_free c = true.
Proof. destruct c as [[] [] [] [] [] [] [] []]; by vm_compute. Qed.
Lemma last_digit s : s <> ""%string -> exists c, last_byte s = Some c /\ str_mem c s = true.
Proof.
  induction s as [|x s IH]; [done|]. intros _. destruct s as [|y s]; [exists x; cbn; by rewrite Ascii.eqb_refl|].
  destruct IH as (c & Hl & Hm); [done|]. exists c. split; [exact Hl|]. apply orb_true_iff. by right.
Qed.
Lemma trim_number n : 0 <= n -> TrimSpace (fmt_d n ++ newline) = fmt_d n.
Proof.
  intros Hn. destruct (fmt_d_head n Hn) as (c & s & E & Hc). destruct (last_digit (fmt_d n)) as (d & Hl & Hd); [by rewrite E|].
  apply (fmt_d_digits n d Hn) in Hd. rewrite E in *. apply (TrimSpace_line c d); [by apply digit_no_space..|done].
Qed.

(** The file of the process is made once and holds its number: from a free
    place in a folder, it reads back, and a second one is refused. *)
Theorem pid_file (pid : Z) (pidfile : string) (w : World FS) : no_fault_from (calls w) -> 0 <= pid < two63 ->
  let p := resolve cwd pidfile in
  p <> [] -> at_ (st w) (parent p) = Some Folder -> at_ (st w) p = None ->
  exists w', GeneratePIDFile pid pidfile w = (Ok tt, w') /\ st w' = <[p := File (fmt_d pid ++ newline)]> (st w) /\
    fst (Open pidfile w') = Ok pid /\ fst (Exists pidfile w') = Ok tt /\
    forall pid2, fst (GeneratePIDFile pid2 pidfile w') = Err EEXIST /\ st (snd (GeneratePIDFile pid2 pidfile w')) = st w'.
Proof.
  intros Hf Hpid p Hp Hd Hn.
  assert (Hc : create p (st w) = (Ok tt, <[p := File ""]> (st w))) by (apply create_free; [done|by rewrite Hn]).
  set (fs := <[p := File (fmt_d pid ++ newline)]> (st w)).
  assert (E : GeneratePIDFile pid pidfile w = (Ok tt, mkWorld (S (S (calls w))) fs)).
  { unfold GeneratePIDFile, os_OpenNew. rewrite gbind_eq, gextr_ok by by apply no_fault_here. fold p. rewrite Hn, Hc. cbn [fst snd].
    rewrite gbind_eq. unfold gtry. rewrite gext_ok by (apply no_fault_here; eapply no_fault_le; [|exact Hf]; cbn; lia). cbn [fst snd st calls].
    fold p. by rewrite write_new. }
  assert (Hat : at_ fs p = Some (File (fmt_d pid ++ newline))) by (unfold fs; by rewrite at_insert).
  assert (Hr : forall w', no_fault_from (calls w') -> st w' = fs -> readPidFile pidfile w' = (Ok pid, mkWorld (S (calls w')) fs)).
  { intros w' Hf' Hw. unfold readPidFile, os_ReadFile. rewrite gbind_eq, gextr_ok by by apply no_fault_here. fold p. rewrite Hw. unfold read.
    rewrite Hat. cbn [fst snd]. rewrite trim_number, ParseInt_fmt_d by lia. done. }
  assert (Hf2 : no_fault_from (S (S (calls w)))) by (eapply no_fault_le; [|exact Hf]; lia).
  eexists. split; [exact E|]. split; [done|]. split; [|split].
  - unfold Open, gfmt. rewrite gbind_eq, Hr by done. done.
  - unfold Exists, gfmt. rewrite gbind_eq, Hr by done. done.
  - intros pid2. unfold GeneratePIDFile, os_OpenNew. rewrite gbind_eq, gextr_ok by by apply no_fault_here. cbn [st]. fold p. by rewrite Hat.
Qed.
(** A file with any number is that of a process that exists. *)
Lemma Exists_any (pidfile : string) (w w' : World FS) n : readPidFile pidfile w = (Ok n, w') -> fst (Exists pidfile w) = Ok tt.
Proof. intros E. unfold Exists, gfmt. by rewrite gbind_eq, E. Qed.
End Pid.
Definition run_folder : FS := <[["run"] := Folder]> ∅.
Lemma pid_file_witness : exists w', GeneratePIDFile (H := quietEnv) [] 4711 "/run/app.pid" (mkWorld 0 run_folder) = (Ok tt, w') /\
  fst (Open (H := quietEnv) [] (fun _ => ENOENT) "/run/app.pid" w') = Ok 4711.
Proof.
  destruct (pid_file (H := quietEnv) [] (fun _ => ENOENT) 4711 "/run/app.pid" (mkWorld 0 run_folder) (quietEnv_ok 0)) as (w' & E & _ & Eo & _).
  - unfold two63. lia.
  - by intros [=].
  - reflexivity.
  - reflexivity.
  - exists w'. split; [exact E|exact Eo].
Defined.

(** * The name of the process in the cluster *)
Definition OwnerID (Hostname : Res string) (net : Network) (Getpid : Z) : string :=
  let hostname := match Hostname with Ok name => name | Err _ => "unknown"%string end in
  (hostname ++ "-" ++ ip_String (MustLocalPrimearyIP net) ++ "-" ++ fmt_d Getpid)%string.
Example owner : OwnerID (Ok "web-1"%string) two_cards 42 = "web-1-127.0.0.1-42"%string.
Proof. vm_compute. reflexivity. Qed.
