(* ===== verification/FileSys.v ===== *)
(** [src/filesys]: files with a random name, moving a file (filesys.go) and
    unpacking an archive (zip.go), over the paths and files of [Files]. *)
From S2P Require Import Prelude Strings Gorm FileInfo Files LocalDir.
#[local] Open Scope Z_scope.

(** An entry of an archive: its name, whether it is a folder, the error of
    opening it, and what it unpacks to.  Reading the archive and unpacking are
    package [archive/zip]. *)
Record ZipEntry : Type := mkEntry { Name : string; IsDir : bool; open_error : option error; unpacked : IoReader }.

Section FileSys.
(** [intn] is the source of random numbers; [zip_files] reads the directory of
    an archive. *)
Context `{Env} (cwd : path) (intn : nat -> Z -> Z) (zip_files : string -> Res (list ZipEntry)).
Fixpoint number_bytes (i count : nat) : string :=
  match count with O => "" | S count' => String (ascii_of_N (Z.to_N (intn i 10 + 48))) (number_bytes (S i) count') end.
Definition Number (count : nat) : string := number_bytes 0 count.
Definition CreateRandomFile (dir prefix suffix : string) : M FS string :=
  let filepath := Join [dir; (prefix ++ Number 7 ++ suffix)%string] in
  os_Create cwd filepath ;;; gret filepath.
(** The files are open while the data is copied: the source is read, and the
    destination written, at that time. *)
Definition MoveFile (sourcePath destPath : string) : M FS unit :=
  gfmt "Couldn't open source file: " (os_Open cwd sourcePath) ;;;
  gfmt "Couldn't open dest file: " (os_Create cwd destPath) ;;;
  gfmt "Writing to output file failed: " (io_CopyFile cwd destPath sourcePath) ;;;
  gfmt "Failed removing original file: " (os_Remove cwd sourcePath).
Definition unzip_entry (dest : string) (file : ZipEntry) : M FS unit :=
  let destPath := Join [dest; file.(Name)] in
  if file.(IsDir) then os_MkdirAll cwd destPath
  else
    os_MkdirAll cwd (Dir destPath) ;;;
    os_Create cwd destPath ;;;
    match file.(open_error) with
    | Some e => graise e
    | None => let! c := io_Copy cwd destPath file.(unpacked) in
              match snd c with Some e => graise e | None => gret tt end
    end.
Definition Unzip (zipFile dest : string) : M FS unit :=
  let! bytes := gextr (fun fs => (read (resolve cwd zipFile) fs, fs)) in
  match zip_files bytes with
  | Err e => graise e
  | Ok files => gfor files (unzip_entry dest)
  end.

(** * What they do, without failures of the system *)
Hypothesis Hnf : forall n, no_fault_from n.
Hint Resolve Hnf : core.
Lemma sys_run {A} (f : FS -> Res A * FS) (w : World FS) : gextr f w = (fst (f (st w)), mkWorld (S (calls w)) (snd (f (st w)))).
Proof. by apply run_gextr. Qed.

(** ** Moving *)
Lemma remove_file p c fs : at_ fs p = Some (File c) -> remove p fs = (Ok tt, delete p fs).
Proof. unfold remove. by intros ->. Qed.
Lemma at_delete fs p q : p <> [] -> at_ (delete p fs) q = if bool_decide (q = p) then None else at_ fs q.
Proof.
  intros Hp. destruct q as [|c q]; [by case_bool_decide|]. cbn [at_]. case_bool_decide as E; [by rewrite E, lookup_delete_eq|].
  by rewrite lookup_delete_ne by congruence.
Qed.
(** Moving a file to another free place in a folder moves its content and leaves
    the rest alone; moving it to where it is deletes it, without an error. *)
Theorem MoveFile_spec (sourcePath destPath c : string) (w : World FS) :
  let s := resolve cwd sourcePath in let d := resolve cwd destPath in
  at_ (st w) s = Some (File c) -> at_ (st w) (parent d) = Some Folder -> at_ (st w) d <> Some Folder ->
  exists w', MoveFile sourcePath destPath w = (Ok tt, w') /\
    forall q, at_ (st w') q = if bool_decide (q = s) then None else if bool_decide (q = d) then Some (File c) else at_ (st w) q.
Proof.
  intros s d Hs Hp Hd. assert (Hsn : s <> []) by (intros E; by rewrite E in Hs). assert (Hdn : d <> []) by (intros E; by rewrite E in Hd).
  unfold MoveFile, gfmt, os_Open, os_Create, io_CopyFile, os_Remove. fold s d. rewrite gbind_eq, sys_run. unfold open. rewrite Hs. cbn [fst snd].
  rewrite gbind_eq, sys_run. cbn [st calls]. rewrite create_free by done. cbn [fst snd]. rewrite gbind_eq, sys_run. cbn [st calls]. unfold read.
  destruct (decide (d = s)) as [E|Hds].
  - rewrite E, at_insert by done. cbn [fst snd]. rewrite sys_run. cbn [st calls]. rewrite write_new by done.
    erewrite remove_file by by apply at_insert. eexists. split; [reflexivity|]. intros q. cbn [snd st]. rewrite at_delete by done.
    case_bool_decide; [done|]. by rewrite at_insert_ne by congruence.
  - rewrite at_insert_ne by done. rewrite Hs. cbn [fst snd]. rewrite sys_run. cbn [st calls]. rewrite write_new by done.
    erewrite remove_file by by rewrite at_insert_ne. eexists. split; [reflexivity|]. intros q. cbn [snd st]. rewrite at_delete by done.
    case_bool_decide; [done|]. case_bool_decide as Eq; [by rewrite Eq, at_insert|by rewrite at_insert_ne by congruence].
Qed.

(** ** Unpacking *)
(** Where an entry goes. *)
Definition target (dest name : string) : path := clean_elems true (elems dest ++ elems name).
Definition view : Type := path -> option node.
Definition folders_of (dest : string) (e : ZipEntry) : list path :=
  prefixes (if e.(IsDir) then target dest e.(Name) else parent (target dest e.(Name))).
Definition entry_view (dest : string) (e : ZipEntry) (v : view) : view := fun q =>
  if negb e.(IsDir) && bool_decide (q = target dest e.(Name)) then Some (File (data e.(unpacked)))
  else if bool_decide (q ∈ folders_of dest e) then Some Folder else v q.
(** What stands in the way of an entry. *)
Definition is_file (n : option node) : bool := match n with Some (File _) => true | _ => false end.
Definition entry_fits (dest : string) (e : ZipEntry) (v : view) : bool :=
  forallb (fun p => negb (is_file (v p))) (folders_of dest e) &&
  (e.(IsDir) || (bool_decide (v (target dest e.(Name)) <> Some Folder) && bool_decide (target dest e.(Name) <> []) &&
     bool_decide (e.(open_error) = None) && bool_decide (fails_with e.(unpacked) = None))).
Fixpoint archive_fits (dest : string) (l : list ZipEntry) (v : view) : bool :=
  match l with [] => true | e :: l' => entry_fits dest e v && archive_fits dest l' (entry_view dest e v) end.
Definition archive_view (dest : string) (l : list ZipEntry) (v : view) : view := fold_left (fun v e => entry_view dest e v) l v.
Implicit Types (dest name : string) (e : ZipEntry) (l : list ZipEntry) (v : view) (w : World FS).
Lemma target_plain dest name : Forall (fun c => plain c = true) (target dest name).
Proof. apply clean_true_plain. Qed.
Lemma target_path dest name : rooted dest = true -> Join [dest; name] = canon (target dest name).
Proof. apply Join_rooted. Qed.
Lemma resolve_dir p : Forall (fun c => plain c = true) p -> resolve cwd (Dir (canon p)) = parent p.
Proof.
  intros Hp. rewrite Dir_canon by done. apply resolve_canon. unfold parent.
  destruct (decide (p = [])) as [->|Hne]; [done|]. destruct (exists_last Hne) as (q & c & ->). rewrite removelast_last. by apply Forall_app in Hp as [? _].
Qed.
Lemma entry_fits_spec dest e v : entry_fits dest e v = true ->
  (forall p c, p ∈ folders_of dest e -> v p <> Some (File c)) /\
  (e.(IsDir) = false -> v (target dest e.(Name)) <> Some Folder /\ target dest e.(Name) <> [] /\
     e.(open_error) = None /\ fails_with e.(unpacked) = None).
Proof.
  unfold entry_fits. intros [H1 H2]%andb_true_iff. split.
  - intros p c Hp Hc. rewrite forallb_forall in H1. apply list_elem_of_In in Hp. specialize (H1 p Hp). by rewrite Hc in H1.
  - intros Hf. rewrite Hf in H2. cbn [orb] in H2. repeat (apply andb_true_iff in H2 as [H2 ?]). repeat split; by eapply bool_decide_eq_true_1.
Qed.
Lemma unzip_entry_run dest e (v : view) (w : World FS) : rooted dest = true -> (forall q, at_ (st w) q = v q) -> entry_fits dest e v = true ->
  exists w', unzip_entry dest e w = (Ok tt, w') /\ forall q, at_ (st w') q = entry_view dest e v q.
Proof.
  intros Hd Hv Hfits. apply entry_fits_spec in Hfits as [Hfold Hfile]. set (t := target dest (Name e)) in *. unfold unzip_entry, entry_view. rewrite (target_path dest (Name e)) by done. fold t.
  assert (Ht : resolve cwd (canon t) = t) by (apply resolve_canon, target_plain). unfold folders_of in *. fold t in Hfold |- *.
  destruct (IsDir e).
  - destruct (mkdir_all_ok t (st w)) as (fs' & E & Hq); [intros p c Hp Hc; by rewrite Hv in Hc; apply Hfold in Hc|].
    unfold os_MkdirAll. rewrite sys_run, Ht, E. eexists. split; [reflexivity|]. intros q. cbn [st snd negb andb]. by rewrite Hq, Hv.
  - destruct (Hfile eq_refl) as (Hnf' & Hne & Ho & Hfail).
    destruct (mkdir_all_ok (parent t) (st w)) as (fs' & E & Hq); [intros p c Hp Hc; by rewrite Hv in Hc; apply Hfold in Hc|].
    unfold os_MkdirAll, os_Create. rewrite gbind_eq, sys_run, resolve_dir by apply target_plain. rewrite E. cbn [fst snd].
    rewrite gbind_eq, sys_run, Ht. cbn [st calls]. destruct (parent_free (st w) fs' t Hne Hq) as [Hp Hpe].
    rewrite create_free by (done || by rewrite Hpe, Hv). cbn [fst snd]. rewrite Ho. unfold io_Copy, gtry. rewrite !gbind_eq, run_gext by done.
    cbn [fst snd st calls gret]. rewrite Hfail, Ht, write_new by done. eexists. split; [reflexivity|]. intros q. cbn [st negb andb].
    rewrite (with_file_eq t _ (st w)) by done. unfold with_file. by rewrite Hv.
Qed.
Lemma unzip_entries dest l : rooted dest = true -> forall (v : view) (w : World FS), (forall q, at_ (st w) q = v q) -> archive_fits dest l v = true ->
  exists w', gfor l (unzip_entry dest) w = (Ok tt, w') /\ forall q, at_ (st w') q = archive_view dest l v q.
Proof.
  intros Hd. induction l as [|e l IH]; intros v w Hv Hfits; [by exists w|]. apply andb_true_iff in Hfits as [He Hl]. cbn [gfor]. rewrite gbind_eq.
  destruct (unzip_entry_run dest e v w Hd Hv He) as (w1 & -> & Hv1). destruct (IH _ w1 Hv1 Hl) as (w2 & E & Hv2). by exists w2.
Qed.
(** A name without parent folders stays in the destination. *)
Definition no_parents (name : string) : bool := negb (existsb (str_eqb "..") (elems name)).
Lemma steps_down (l : list string) : existsb (str_eqb "..") l = false -> forall stack,
  exists rel, fold_left (clean_step true) l stack = rel ++ stack.
Proof.
  induction l as [|c l IH]; intros Hl stack; [by exists []|]. cbn [existsb] in Hl. apply orb_false_iff in Hl as [Hc Hl]. cbn [fold_left].
  assert (Hs : exists x, clean_step true stack c = x ++ stack).
  { unfold clean_step. destruct (str_eqb c "" || str_eqb c "."); [by exists []|].
    unfold str_eqb in *. rewrite String.eqb_sym in Hc. cbv zeta. rewrite Hc. by exists [c]. }
  destruct Hs as [x ->]. destruct (IH Hl (x ++ stack)) as [r ->]. exists (r ++ x). by rewrite app_assoc.
Qed.
Lemma target_inside dest name : no_parents name = true -> clean_elems true (elems dest) `prefix_of` target dest name.
Proof.
  unfold no_parents. intros Hn%negb_true_iff. unfold target, clean_elems. rewrite fold_left_app.
  destruct (steps_down (elems name) Hn (fold_left (clean_step true) (elems dest) [])) as [r ->]. rewrite rev_app_distr. by exists (rev r).
Qed.
Lemma view_outside dest l (v : view) q : Forall (fun e => no_parents (Name e) = true) l ->
  ~ clean_elems true (elems dest) `prefix_of` q -> ~ q `prefix_of` clean_elems true (elems dest) -> archive_view dest l v q = v q.
Proof.
  intros Hl H1 H2. revert v. induction Hl as [|e l He Hl IH]; intros v; [done|].
  change (archive_view dest (e :: l) v q) with (archive_view dest l (entry_view dest e v) q). rewrite IH.
  pose proof (target_inside dest (Name e) He) as Ht. unfold entry_view.
  assert (Hpre : forall p, p `prefix_of` target dest (Name e) -> q <> p).
  { intros p Hp ->. by destruct (prefix_weak_total _ _ _ Ht Hp). }
  rewrite (bool_decide_eq_false_2 (q = _)) by by apply Hpre. rewrite andb_false_r. rewrite bool_decide_eq_false_2; [done|].
  unfold folders_of. intros Hin%prefixes_spec. destruct Hin as [_ Hp]. destruct (IsDir e); [by apply (Hpre q)|].
  apply (Hpre q); [|done]. etransitivity; [exact Hp|]. unfold parent.
  destruct (decide (target dest (Name e) = [])) as [->|Hne]; [done|]. destruct (exists_last Hne) as (r & c & ->). rewrite removelast_last. by exists [c].
Qed.
(** An archive whose entries fit unpacks to the tree that its entries describe,
    and changes nothing outside the destination when no name has a parent
    folder in it. *)
Theorem Unzip_spec (zipFile dest bytes : string) (files : list ZipEntry) (w : World FS) : rooted dest = true ->
  at_ (st w) (resolve cwd zipFile) = Some (File bytes) -> zip_files bytes = Ok files -> archive_fits dest files (at_ (st w)) = true ->
  exists w', Unzip zipFile dest w = (Ok tt, w') /\ (forall q, at_ (st w') q = archive_view dest files (at_ (st w)) q) /\
    (Forall (fun e => no_parents (Name e) = true) files -> forall q, ~ clean_elems true (elems dest) `prefix_of` q ->
       ~ q `prefix_of` clean_elems true (elems dest) -> at_ (st w') q = at_ (st w) q).
Proof.
  intros Hd Hz Hf Hfits. unfold Unzip. rewrite gbind_eq, sys_run. unfold read. rewrite Hz. cbn [fst snd]. rewrite Hf.
  destruct (unzip_entries dest files Hd (at_ (st w)) (mkWorld (S (calls w)) (st w)) ltac:(done) Hfits) as (w' & E & Hq). exists w'.
  split; [exact E|]. split; [exact Hq|]. intros Hn q H1 H2. rewrite Hq. by apply view_outside.
Qed.
End FileSys.

(** * At work *)
Definition with_zip : FS := <[["srv"] := Folder]> (<[["srv"; "a.zip"] := File "PK"]> (<[["etc"] := Folder]> (<[["etc"; "passwd"] := File "root"]> ∅))).
Definition entry (name data : string) : ZipEntry := mkEntry name false None (mkIoReader data None).
Definition folder (name : string) : ZipEntry := mkEntry name true None (mkIoReader "" None).
Definition demo_archive : list ZipEntry := [folder "doc/"; entry "doc/a.txt" "A"; entry "b.txt" "B"].
Definition zip_of (l : list ZipEntry) (bytes : string) : Res (list ZipEntry) := if str_eqb bytes "PK" then Ok l else Err (ErrVar "zip: not a valid zip file").
Definition unzipped (l : list ZipEntry) := Unzip (H := quietEnv) [] (zip_of l) "/srv/a.zip" "/srv/out" (mkWorld 0 with_zip).
Lemma Unzip_spec_witness : exists w', unzipped demo_archive = (Ok tt, w') /\ at_ (st w') ["srv"; "out"; "doc"; "a.txt"] = Some (File "A") /\
  at_ (st w') ["etc"; "passwd"] = Some (File "root").
Proof.
  destruct (Unzip_spec (H := quietEnv) [] (zip_of demo_archive) quietEnv_ok "/srv/a.zip" "/srv/out" "PK" demo_archive (mkWorld 0 with_zip)) as (w' & E & Hq & Ho).
  - reflexivity.
  - reflexivity.
  - reflexivity.
  - vm_compute. reflexivity.
  - exists w'. split; [exact E|]. rewrite Hq. split; [vm_compute; reflexivity|]. rewrite Ho; [reflexivity| | |].
    + repeat constructor.
    + apply (bool_decide_unpack _). vm_compute. exact I.
    + apply (bool_decide_unpack _). vm_compute. exact I.
Defined.
(** A name that climbs out of the destination is followed. *)
Example slipped : at_ (st (snd (unzipped [entry "../../etc/passwd" "evil"]))) ["etc"; "passwd"] = Some (File "evil").
Proof. vm_compute. reflexivity. Qed.
Definition moved (src dst : string) := MoveFile (H := quietEnv) [] src dst (mkWorld 0 with_zip).
Lemma MoveFile_spec_witness : exists w', moved "/etc/passwd" "/srv/p" = (Ok tt, w') /\ at_ (st w') ["srv"; "p"] = Some (File "root") /\
  at_ (st w') ["etc"; "passwd"] = None.
Proof.
  destruct (MoveFile_spec (H := quietEnv) [] quietEnv_ok "/etc/passwd" "/srv/p" "root" (mkWorld 0 with_zip)) as (w' & E & Hq).
  - reflexivity.
  - reflexivity.
  - vm_compute. discriminate.
  - exists w'. split; [exact E|]. rewrite !Hq. split; vm_compute; reflexivity.
Defined.
(** Moving a file to itself loses it. *)
Example moved_away_from_itself : fst (moved "/etc/passwd" "/etc/./passwd") = Ok tt /\
  at_ (st (snd (moved "/etc/passwd" "/etc/./passwd"))) ["etc"; "passwd"] = None.
Proof. vm_compute. split; reflexivity. Qed.
