(* ===== verification/HttpTools.v ===== *)
(** [src/httptools/mime.go] and [src/random/rand.go]: content types by file
    extension, and random texts. *)
From S2P Require Import Prelude.
#[local] Open Scope string_scope.

Definition extToMimeTypeMap : list (string * string) :=
  [(".html", "text/html"); (".css", "text/css"); (".js", "application/javascript"); (".json", "application/json");
   (".jpg", "image/jpeg"); (".png", "image/png"); (".gif", "image/gif"); (".svg", "image/svg+xml");
   (".ico", "image/x-icon"); (".webp", "image/webp"); (".bmp", "image/bmp"); (".tiff", "image/tiff");
   (".woff", "application/font-woff"); (".woff2", "application/font-woff2"); (".ttf", "application/font-ttf");
   (".otf", "application/font-otf"); (".eot", "application/vnd.ms-fontobject"); (".mp3", "audio/mpeg");
   (".mp4", "video/mp4"); (".m4v", "video/x-m4v"); (".mov", "video/quicktime"); (".webm", "video/webm");
   (".flv", "video/x-flv"); (".swf", "application/x-shockwave-flash"); (".pdf", "application/pdf");
   (".doc", "application/msword");
   (".docx", "application/vnd.openxmlformats-officedocument.wordprocessingml.document");
   (".xls", "application/vnd.ms-excel");
   (".xlsx", "application/vnd.openxmlformats-officedocument.spreadsheetml.sheet");
   (".ppt", "application/vnd.ms-powerpoint");
   (".pptx", "application/vnd.openxmlformats-officedocument.presentationml.presentation"); (".txt", "text/plain");
   (".rtf", "application/rtf"); (".xml", "text/xml"); (".zip", "application/zip");
   (".rar", "application/x-rar-compressed"); (".7z", "application/x-7z-compressed"); (".bz2", "application/x-bzip2");
   (".gz", "application/x-gzip"); (".xz", "application/x-xz"); (".tar", "application/x-tar")].
Definition mimeTypeToExtMap : list (string * string) :=
  [("text/html", ".html"); ("text/css", ".css"); ("application/javascript", ".js"); ("application/json", ".json");
   ("image/jpeg", ".jpg"); ("image/png", ".png"); ("image/gif", ".gif"); ("image/svg+xml", ".svg");
   ("image/x-icon", ".ico"); ("image/webp", ".webp"); ("image/bmp", ".bmp"); ("image/tiff", ".tiff");
   ("image/x-tiff", ".tiff"); ("image/x-ms-bmp", ".bmp"); ("application/font-woff", ".woff");
   ("application/font-woff2", ".woff2"); ("application/font-ttf", ".ttf"); ("application/font-otf", ".otf");
   ("application/vnd.ms-fontobject", ".eot"); ("audio/mpeg", ".mp3"); ("video/mp4", ".mp4"); ("video/x-m4v", ".m4v");
   ("video/quicktime", ".mov"); ("video/webm", ".webm"); ("video/x-flv", ".flv");
   ("application/x-shockwave-flash", ".swf"); ("application/pdf", ".pdf"); ("application/msword", ".doc");
   ("application/vnd.openxmlformats-officedocument.wordprocessingml.document", ".docx");
   ("application/vnd.ms-excel", ".xls");
   ("application/vnd.openxmlformats-officedocument.spreadsheetml.sheet", ".xlsx");
   ("application/vnd.ms-powerpoint", ".ppt");
   ("application/vnd.openxmlformats-officedocument.presentationml.presentation", ".pptx"); ("text/plain", ".txt");
   ("application/rtf", ".rtf"); ("text/xml", ".xml"); ("application/zip", ".zip");
   ("application/x-rar-compressed", ".rar"); ("application/x-7z-compressed", ".7z"); ("application/x-bzip2", ".bz2");
   ("application/x-gzip", ".gz"); ("application/x-xz", ".xz"); ("application/x-tar", ".tar")].
Fixpoint map_get (m : list (string * string)) (k : string) : string :=
  match m with
  | [] => ""
  | (k', v) :: m' => if str_eqb k' k then v else map_get m' k
  end.
Definition TransformExt2ContentType (ext : string) : string := map_get extToMimeTypeMap ext.
Definition TransformContentType2Ext (ct : string) : string := if str_eqb ct "" then "" else map_get mimeTypeToExtMap ct.

(** Every listed extension has a content type that leads back to it. *)
Lemma ext_there_and_back (ext : string) : TransformExt2ContentType ext <> "" -> TransformContentType2Ext (TransformExt2ContentType ext) = ext.
Proof.
  unfold TransformExt2ContentType. intros Hne.
  assert (Hall : Forall (fun e => TransformContentType2Ext (map_get extToMimeTypeMap (fst e)) = fst e) extToMimeTypeMap)
    by (repeat constructor; vm_compute; reflexivity).
  assert (Hin : exists v, In (ext, v) extToMimeTypeMap).
  { revert Hne. clear. induction extToMimeTypeMap as [|[k v] m IH]; cbn [map_get]; [done|]. unfold str_eqb.
    destruct (String.eqb_spec k ext) as [->|]; [intros _; exists v; by left|]. intros H. destruct (IH H) as [x ?]. exists x. by right. }
  destruct Hin as [v Hin%list_elem_of_In]. rewrite Forall_forall in Hall. by apply (Hall (ext, v)).
Qed.

(** * Random texts
    [intn i n] is what the [i]-th draw of [rand.Intn(n)] gives. *)
Section Random.
Context (intn : nat -> Z -> Z).
Definition NUMBER : string := "0123456789".
Definition ALPHABET : string := "ABCDEFGHIJKLMNOPQRSTUVWXYZabcdefghijklmnopqrstuvwxyz".
Definition ALPHANUM : string := "0123456789ABCDEFGHIJKLMNOPQRSTUVWXYZabcdefghijklmnopqrstuvwxyz".
(** The bytes from the [i]-th on; [None]: an index out of range. *)
Fixpoint rand_bytes (i count : nat) (set : string) : option string :=
  match count with
  | O => Some ""
  | S count' =>
      match String.get (Z.to_nat (intn i (Z.of_nat (String.length set)))) set, rand_bytes (S i) count' set with
      | Some c, Some s => Some (String c s)
      | _, _ => None
      end
  end.
Definition RandString (count : nat) (set : string) : option string := rand_bytes 0 count set.
Definition Alphabet (count : nat) : option string := RandString count ALPHABET.
Definition Alphanum (count : nat) : option string := RandString count ALPHANUM.
Definition random_String (length : nat) : option string := Alphanum length.
Definition random_Int (start end_ : Z) : Z := intn 0 (end_ - start + 1) + start.

Hypothesis intn_range : forall i n, 0 < n -> 0 <= intn i n < n.
Lemma get_inside j : forall set, (j < String.length set)%nat -> exists c, String.get j set = Some c.
Proof. induction j as [|j IH]; intros [|c set]; simpl; intros; [lia|by exists c|lia|apply IH; lia]. Qed.
Lemma rand_bytes_spec count set : set <> "" -> forall i,
  exists s, rand_bytes i count set = Some s /\ String.length s = count /\
    forall k c, String.get k s = Some c -> exists j, String.get j set = Some c.
Proof.
  intros Hset. induction count as [|count IH]; intros i; [by exists ""|]. cbn [rand_bytes]. destruct (IH (S i)) as (s & -> & Hl & Hc).
  assert (Hlen : 0 < Z.of_nat (String.length set)) by (destruct set; [done|simpl; lia]).
  pose proof (intn_range i _ Hlen) as Hr. set (j := Z.to_nat _). destruct (get_inside j set) as [c Ej]; [lia|]. rewrite Ej.
  exists (String c s). split_and!; [done|cbn; by rewrite Hl|]. intros [|k] d; cbn [String.get]; [intros [= <-]; by exists j|apply Hc].
Qed.
End Random.
