(* ===== verification/Upload.v ===== *)
(** [src/storage/uploader.go] on [src/storage/tencent_cos.go]: uploading a large
    file in parts to the object storage of Tencent, and the operations on whole
    objects.  The service is a parameter, with what its documentation (and the
    comments of the vendored client) promises as laws; the tables of files and
    of uploads in progress are those of [FileInfo]. *)
From S2P Require Import Prelude Gorm FileInfo HttpTools Files.
#[local] Open Scope string_scope.
#[local] Open Scope Z_scope.

(** * The service *)
Record PartInfo : Type := mkPart { PartNumber : Z; ETag : string }.
(** What a call answers and how it changes the bucket.  [Head] answers whether
    the object is there; [Bucket_Get] gives the keys and the common prefixes. *)
Class Cos (C : Type) : Type := {
  Object_Put : string -> string -> C -> Res string * C;
  Object_Get : string -> C -> Res string;
  Object_Delete : string -> C -> Res unit * C;
  Object_Copy : string -> string -> C -> Res unit * C;
  Object_Head : string -> C -> Res bool;
  Bucket_Get : string -> string -> C -> Res (list string * list string);
  InitiateMultipartUpload : string -> string -> C -> Res string * C;
  Object_UploadPart : string -> string -> Z -> string -> Z -> C -> Res string * C;
  ListParts : string -> string -> C -> Res (list PartInfo);
  Object_Complete : string -> string -> list PartInfo -> C -> Res unit * C;
  Object_Abort : string -> string -> C -> Res unit * C;
}.

(** The parts of an upload by number. *)
Definition num_le (a b : Z * string) : Prop := fst a <= fst b.
#[export] Instance num_le_dec : RelDecision num_le := fun a b => Z_le_dec (fst a) (fst b).
Definition numbered (ps : gmap Z string) : list (Z * string) := merge_sort num_le (map_to_list ps).
Definition contents (l : list (Z * string)) : string := fold_right (fun p s => snd p ++ s) "" l.
(** Each number one more than the one before. *)
Fixpoint consecutive (from : Z) (l : list (Z * string)) : Prop :=
  match l with [] => True | p :: l' => fst p = from /\ consecutive (from + 1) l' end.

(** Multipart uploads as documented: at most 10,000 parts, listed by number a
    thousand at a time, put together when they are numbered from 1 without a
    gap and none but the last is too small; an upload that is complete is gone. *)
Class CosLaws (C : Type) `{Cos C} : Type := {
  objects : C -> gmap string string;
  uploads : C -> gmap (string * string) (gmap Z string);
  etag : string -> string;
  min_part : nat;
  Initiate_ok : forall k meta c, exists id c', InitiateMultipartUpload k meta c = (Ok id, c') /\
    uploads c !! (k, id) = None /\ uploads c' = <[(k, id) := ∅]> (uploads c) /\ objects c' = objects c;
  UploadPart_ok : forall k id ps n data c, uploads c !! (k, id) = Some ps -> 1 <= n <= 10000 ->
    exists c', Object_UploadPart k id n data (Z.of_nat (String.length data)) c = (Ok (etag data), c') /\
      uploads c' = <[(k, id) := <[n := data]> ps]> (uploads c) /\ objects c' = objects c;
  ListParts_ok : forall k id ps c, uploads c !! (k, id) = Some ps ->
    ListParts k id c = Ok (map (fun p => mkPart (fst p) (etag (snd p))) (take 1000 (numbered ps)));
  ListParts_gone : forall k id c, uploads c !! (k, id) = None -> exists e, ListParts k id c = Err e;
  Complete_ok : forall k id ps l c, uploads c !! (k, id) = Some ps -> l `prefix_of` numbered ps -> l <> [] ->
    consecutive 1 l -> Forall (fun p => (min_part <= String.length (snd p))%nat) (removelast l) ->
    exists c', Object_Complete k id (map (fun p => mkPart (fst p) (etag (snd p))) l) c = (Ok tt, c') /\
      objects c' = <[k := contents l]> (objects c) /\ uploads c' = delete (k, id) (uploads c);
}.

(** * The storage *)
Record Sys (C : Type) : Type := mkSys { tabs : FileTabs; cos : C }.
Arguments mkSys {C} tabs cos.
Arguments tabs {C} s.
Arguments cos {C} s.
#[export] Instance sys_files {C} : HasTab (Sys C) FileInfo :=
  { get_tab s := s.(tabs).(files); set_tab t s := mkSys (mkTabs t s.(tabs).(temps)) s.(cos) }.
#[export] Instance sys_temps {C} : HasTab (Sys C) TempFile :=
  { get_tab s := s.(tabs).(temps); set_tab t s := mkSys (mkTabs s.(tabs).(files) t) s.(cos) }.

(** The parts of the configuration that are used. *)
Record TencentCOSConfig : Type := mkCosConfig { Bucket : string; Region : string }.
Record StorageConfig : Type := mkStorageConfig { Purpose : string; Tencent : option TencentCOSConfig }.
Record TencentCos : Type := mkTencentCos { cosCfg : TencentCOSConfig }.

Section Tencent.
Context `{Env} {C : Type} `{Cos C}.
Definition cos_call {A} (f : C -> Res A * C) : M (Sys C) A :=
  gextr (fun s => let (r, c) := f s.(cos) in (r, mkSys s.(tabs) c)).
Definition cos_read {A} (f : C -> Res A) : M (Sys C) A := cos_call (fun c => (f c, c)).

(** [url.Parse] refuses addresses with characters that no host has; [presign]
    is the signing of the client. *)
Context (url_Parse : string -> option error) (presign : string -> string -> Res string).
Definition NewTencentCos (cfg : TencentCOSConfig) : Res TencentCos :=
  match url_Parse ("https://" ++ cfg.(Bucket) ++ ".cos." ++ cfg.(Region) ++ ".myqcloud.com") with
  | Some e => Err e
  | None => Ok (mkTencentCos cfg)
  end.
Section Methods.
Variable tc : TencentCos.
Definition GetPublicURL (storagePath : string) (temp : bool) : string :=
  let host := "https://" ++ tc.(cosCfg).(Bucket) ++ ".cos." ++ tc.(cosCfg).(Region) ++ ".myqcloud.com/" in
  if negb temp then host ++ storagePath
  else match presign "GET" storagePath with Ok u => u | Err _ => "" end.
Definition GetPresignedURL (method storagePath : string) : Res string := presign method storagePath.

(** The double quotes around an entity tag. *)
Definition quote : ascii := "034".
Fixpoint trim_left (s : string) : string :=
  match s with String c s' => if Ascii.eqb c quote then trim_left s' else s | _ => s end.
Fixpoint trim_right (s : string) : string :=
  match s with
  | "" => ""
  | String c s' => match trim_right s' with
                   | "" => if Ascii.eqb c quote then "" else String c ""
                   | t => String c t
                   end
  end.
Definition Trim (s : string) : string := trim_right (trim_left s).
(** [r] is the data of the reader, [None] a nil reader. *)
Definition Save (fi : FileInfo) (r : option string) : M (Sys C) FileInfo :=
  if str_eqb fi.(FI.StoragePath) "" then graise (ErrNew "storage path is empty")
  else match r with
       | None => graise (ErrNew "reader is empty")
       | Some data =>
           let! tag := cos_call (Object_Put fi.(FI.StoragePath) data) in
           gret (FI.set_address (if str_eqb tag "" then fi.(FI.Hash) else "md5:" ++ Trim tag)
                   (GetPublicURL fi.(FI.StoragePath) false) fi)
       end.
Definition ReadFile (storagePath : string) : M (Sys C) string :=
  if str_eqb storagePath "" then graise (ErrNew "storage path is empty") else cos_read (Object_Get storagePath).
Definition DeleteFile (storagePath : string) : M (Sys C) unit :=
  if str_eqb storagePath "" then graise (ErrNew "storage path is empty") else cos_call (Object_Delete storagePath).

(** *** Copying *)
Definition TrimPrefix (p s : string) : string := if has_prefix p s then str_drop (String.length p) s else s.
Definition isDirectory (storagePath : string) : M (Sys C) bool :=
  let! there := cos_read (Object_Head storagePath) in gret (negb there).
Definition copyObject (storagePath dest : string) : M (Sys C) unit :=
  cos_call (Object_Copy dest (TrimPrefix "https://" (GetPublicURL storagePath false))).
(** [false]: the fuel did not reach the bottom. *)
Fixpoint each_prefix (l : list string) (f : string -> M (Sys C) bool) : M (Sys C) bool :=
  match l with
  | [] => gret true
  | p :: l' => let! done := f p in if done : bool then each_prefix l' f else gret false
  end.
Fixpoint copyDirectory (fuel : nat) (storagePath dest : string) : M (Sys C) bool :=
  match fuel with
  | O => gret false
  | S fuel' =>
      let! res := cos_read (Bucket_Get storagePath "/") in
      gfor (fst res) (fun key => copyObject key (Join [dest; TrimPrefix storagePath key])) ;;;
      each_prefix (snd res) (fun prefix => copyDirectory fuel' prefix (Join [dest; TrimPrefix storagePath prefix]))
  end.
Definition CopyDir (fuel : nat) (storagePath dest : string) : M (Sys C) bool :=
  if str_eqb storagePath "" then graise (ErrNew "source storage path is empty")
  else if str_eqb dest "" then graise (ErrNew "destination storage path is empty")
  else let! isDir := isDirectory storagePath in
       if isDir : bool then copyDirectory fuel storagePath dest
       else copyObject storagePath dest ;;; gret true.
Definition UploadDirectory (localDirPath destDir : string) : Res (list string) :=
  Err (ErrNew "UploadDirectory not implemented for TencentCos").

(** *** Parts *)
(** The record that is pointed to comes back with the id of the upload. *)
Definition InitUploadTask (tempFile : TempFile) : M (Sys C) TempFile :=
  let! id := cos_call (InitiateMultipartUpload tempFile.(TF.StoragePath) tempFile.(TF.ChunkHash)) in
  gret (TF.set_upload id tempFile).
(** Parts count from 1 in the service and from 0 here. *)
Definition ListUploadExistsTrunk (tempFile : TempFile) : M (Sys C) (list Z) :=
  let! listRst := cos_read (ListParts tempFile.(TF.StoragePath) tempFile.(TF.ThirdUploadID)) in
  gret (merge_sort Z.le (map (fun part => part.(PartNumber) - 1) listRst)).
Definition UploadTrunk (tempFile : TempFile) (partNumber : Z) (data : string) (size : Z) : M (Sys C) unit :=
  cos_call (Object_UploadPart tempFile.(TF.StoragePath) tempFile.(TF.ThirdUploadID) (partNumber + 1) data size) ;;; gret tt.
Definition CompleteUploadTask (tempFile : TempFile) : M (Sys C) unit :=
  let! listRst := cos_read (ListParts tempFile.(TF.StoragePath) tempFile.(TF.ThirdUploadID)) in
  cos_call (Object_Complete tempFile.(TF.StoragePath) tempFile.(TF.ThirdUploadID) listRst).

(** *** The calls with pointers: [None] is nil *)
Definition CreateMultipartUpload (storagePath : option string) : M (Sys C) string :=
  match storagePath with
  | Some p => if str_eqb p "" then graise (ErrNew "storage path is empty") else cos_call (InitiateMultipartUpload p "")
  | None => graise (ErrNew "storage path is empty")
  end.
(** The parameters are given to the client as a map, and the client takes only
    structs: after its checks of the name and of the bucket it refuses them. *)
Definition GeneratePresignedURL (invalid_bucket : option error) (storagePath uploadID : option string) (partNumber : option Z) : Res string :=
  match storagePath, uploadID, partNumber with
  | Some p, Some _, Some _ =>
      if str_eqb p "" then Err (ErrNew "object key is empty.")
      else Err (default (ErrNew "query: Values() expects struct input. Got map") invalid_bucket)
  | _, _, _ => Err (ErrNew "storagePath, uploadID or partNumber is nil")
  end.
Definition UploadPart (storagePath uploadID : option string) (partNumber : option Z) (data : option string) : M (Sys C) string :=
  match storagePath, uploadID, partNumber with
  | Some p, Some id, Some n =>
      if str_eqb p "" then graise (ErrNew "storage path is empty")
      else match data with
           | None => graise (ErrNew "reader is empty")
           | Some d => let! tag := cos_call (Object_UploadPart p id n d (Z.of_nat (String.length d))) in gret (Trim tag)
           end
  | _, _, _ => graise (ErrNew "storagePath, uploadID or partNumber is nil")
  end.
(** Missing numbers and tags of parts are zero. *)
Definition CompleteMultipartUpload (storagePath uploadID : option string) (parts : option (list (option Z * option string))) : M (Sys C) unit :=
  match storagePath, uploadID, parts with
  | Some p, Some id, Some l =>
      cos_call (Object_Complete p id (map (fun x => mkPart (default 0 (fst x)) (default "" (snd x))) l))
  | _, _, _ => graise (ErrNew "storagePath, uploadID or parts is nil")
  end.
Definition AbortMultipartUpload (storagePath uploadID : option string) : M (Sys C) unit :=
  match storagePath, uploadID with
  | Some p, Some id => cos_call (Object_Abort p id)
  | _, _ => graise (ErrNew "storagePath or uploadID is nil")
  end.
End Methods.

(** * The uploader *)
(** The texts of the standard library: [filepath.Ext], [strings.ToLower] and the
    date [20060102] in the zone [tz], given as the seconds east of UTC. *)
Fixpoint Ext (path : string) : string :=
  match path with
  | "" => ""
  | String c p => let e := Ext p in
                  if negb (str_eqb e "") then e
                  else if Ascii.eqb c "." && negb (existsb (fun x => Ascii.eqb x slash) (list_ascii_of_string p)) then path else ""
  end.
Definition lower (c : ascii) : ascii :=
  let n := Z.of_nat (nat_of_ascii c) in if (65 <=? n) && (n <=? 90) then ascii_of_nat (Z.to_nat (n + 32)) else c.
Context (unicode_lower : string -> string) (tz : Z -> Z) (intn : nat -> nat -> Z -> Z).
Definition ToLower (s : string) : string :=
  let l := list_ascii_of_string s in
  if forallb (fun c => (nat_of_ascii c <? 128)%nat) l then string_of_list_ascii (map lower l) else unicode_lower s.
Fixpoint pad_zero (n : nat) (s : string) : string :=
  match n with O => s | S n' => if (String.length s <? n)%nat then pad_zero n' ("0" ++ s) else s end.
(** Year, month and day of a day since 1970 in the Gregorian calendar, with
    years that start in March. *)
Definition civil (days : Z) : Z * Z * Z :=
  let z := days + 719468 in
  let era := z / 146097 in
  let doe := z mod 146097 in
  let yoe := (doe - doe / 1460 + doe / 36524 - doe / 146096) / 365 in
  let doy := doe - (365 * yoe + yoe / 4 - yoe / 100) in
  let mp := (5 * doy + 2) / 153 in
  let d := doy - (153 * mp + 2) / 5 + 1 in
  let m := if mp <? 10 then mp + 3 else mp - 9 in
  ((if m <=? 2 then yoe + era * 400 + 1 else yoe + era * 400), m, d).
Definition Format8 (now : Z) : string :=
  let s := now / 1000000000 in
  let '(y, m, d) := civil ((s + tz s) / 86400) in
  pad_zero 4 (fmt_d y) ++ pad_zero 2 (fmt_d m) ++ pad_zero 2 (fmt_d d).
(** A draw that is out of range panics; no draw is. *)
Definition random_text (n : nat) : M (Sys C) string :=
  fun w => (match random_String (intn (calls w)) n with Some s => Ok s | None => Err (ErrNew "index out of range") end, w).

Definition GenerateFileStoragePath (purpose : string) (owner : Z) (fileExt : string) : M (Sys C) string :=
  let! now := gnow in
  let! text := random_text 9 in
  gret (purpose ++ "/" ++ Format8 now ++ "/" ++ fmt_d owner ++ "-" ++ text ++ fileExt).
Definition GenerateFileStoragePathWithName (purpose : string) (owner : Z) (fileName : string) : M (Sys C) string :=
  let! now := gnow in
  let! text := random_text 9 in
  gret (purpose ++ "/" ++ Format8 now ++ "/" ++ fmt_d owner ++ "-" ++ text ++ "/" ++ fileName).

Record InitMultipartUploadRequest : Type := mkUploadReq {
  SHA1 : string; req_Size : Z; req_Filename : string; req_CompanyID : Z; req_Uin : Z; EmployeeID : Z; UploadID : string
}.
Record CheckMultipartUploadResponse : Type := mkUploadResp {
  resp_UploadID : string; resp_PartSize : Z; resp_PartCount : Z;
  PartNumbersUploaded : list Z; PartNumbersNeedUpload : list Z; UploadStatus : string
}.
Definition defaultPartSize : Z := 1024 * 1024 * 5.
(** [None]: the division by zero panics. *)
Definition GetPartCount (size partSize : Z) : option Z :=
  if partSize =? 0 then None
  else Some (if Z.rem size partSize =? 0 then Z.quot size partSize else Z.quot size partSize + 1).
Definition contains (arr : list Z) (val : Z) : bool := existsb (Z.eqb val) arr.
Definition getNeedUploadPartNumbers (partCount : Z) (exiPartNumbers : list Z) : list Z :=
  List.filter (fun i => negb (contains exiPartNumbers i)) (map Z.of_nat (seq 0 (Z.to_nat partCount))).

Record Uploader : Type := mkUploader { tempFile : TempFile; updr : TencentCos }.

(** [GetYaml] is [settings.GetYaml] of the configuration. *)
Context (GetYaml : string -> string -> M (Sys C) StorageConfig).
Definition getUploadProvider (group key : string) : M (Sys C) (StorageConfig * TencentCos) :=
  let! cfg := GetYaml group key in
  match cfg.(Tencent) with
  | None => graise (ErrNew "storage config error")
  | Some t => match NewTencentCos t with Err e => graise e | Ok tc => gret (cfg, tc) end
  end.
Definition newUploader (cfg : StorageConfig) (tc : TencentCos) (req : InitMultipartUploadRequest) : M (Sys C) Uploader :=
  let ext := ToLower (Ext req.(req_Filename)) in
  let! now := gnow in
  let! date := gnow in
  let! text := random_text 7 in
  let path := "/" ++ fmt_d req.(req_CompanyID) ++ "/" ++ cfg.(Purpose) ++ "/" ++ Format8 date ++ "-"
                ++ fmt_d req.(req_Uin) ++ "-" ++ text ++ ext in
  let tempFile := TF.mkTemp 0 0 0 None req.(req_CompanyID) req.(req_Uin) 0 cfg.(Purpose) req.(req_Filename) ext
    (TransformExt2ContentType ext) req.(req_Size) req.(SHA1) path "" "" "" "" (now + 7 * 24 * 3600 * 1000000000)
    defaultPartSize (default 0 (GetPartCount req.(req_Size) defaultPartSize)) in
  let! tempFile := InitUploadTask tempFile in
  let! tempFile := SaveTempFile tempFile in
  gret (mkUploader tempFile tc).
Definition GetUploader (group key : string) (req : InitMultipartUploadRequest) : M (Sys C) Uploader :=
  let! p := getUploadProvider group key in
  let (cfg, tc) := p : StorageConfig * TencentCos in
  if negb (str_eqb req.(UploadID) "") then
    let! t := GetTempFileByThirdUploadID req.(req_CompanyID) req.(UploadID) in gret (mkUploader t tc)
  else
    let! r := gtry (GetTempFileByHash req.(SHA1) req.(req_Size)) in
    match r with
    | Ok t => gret (mkUploader t tc)
    | Err e => if bool_decide (e = ErrRecordNotFound) then newUploader cfg tc req else graise e
    end.

Section Uploading.
Variable u : Uploader.
Definition ListTrunks : M (Sys C) CheckMultipartUploadResponse :=
  let t := u.(tempFile) in
  let! exi := ListUploadExistsTrunk t in
  gret (if Z.of_nat (length exi) =? t.(TF.PartCount)
        then mkUploadResp t.(TF.ThirdUploadID) t.(TF.PartSize) t.(TF.PartCount) exi [] FileStatusUploadWaitComp
        else mkUploadResp t.(TF.ThirdUploadID) t.(TF.PartSize) t.(TF.PartCount) exi
               (getNeedUploadPartNumbers t.(TF.PartCount) exi) FileStatusUploading).
Definition UploaderUploadPart (partNumber : Z) (data : string) (size : Z) : M (Sys C) unit :=
  UploadTrunk u.(tempFile) partNumber data size.
Definition CompleteUpload : M (Sys C) FileInfo :=
  let t := u.(tempFile) in
  CompleteUploadTask t ;;;
  let fi := FI.mkFile 0 0 0 None t.(TF.CompanyID) t.(TF.Uin) t.(TF.Purpose) t.(TF.Filename) t.(TF.FileExt) t.(TF.MIMEType)
    t.(TF.Size) "" t.(TF.ChunkHash) t.(TF.StoragePath) (GetPublicURL u.(updr) t.(TF.StoragePath) false) 1 FileStatusNormal FI.notChunked in
  in_transaction (let! fi := gorm_create_one fi in gorm_delete_one t ;;; gret fi).
Definition Cancel : Res unit := Ok tt.
End Uploading.
End Tencent.

(** * What an upload does *)
Section Laws.
Context `{Env} {C : Type} `{CosLaws C}.
Context (url_Parse : string -> option error) (presign : string -> string -> Res string).
Context (unicode_lower : string -> string) (tz : Z -> Z) (intn : nat -> nat -> Z -> Z).
Hypothesis Hnf : forall n, no_fault_from n.
Hypothesis intn_range : forall k i n, 0 < n -> 0 <= intn k i n < n.
Implicit Types (w : World (Sys C)) (ps : gmap Z string) (l : list (Z * string)).
Definition open_upload (t : TempFile) (c : C) : option (gmap Z string) := uploads c !! (t.(TF.StoragePath), t.(TF.ThirdUploadID)).
Lemma run_cos {A} (f : C -> Res A * C) w :
  cos_call f w = (fst (f (cos (st w))), mkWorld (S (calls w)) (mkSys (tabs (st w)) (snd (f (cos (st w)))))).
Proof. unfold cos_call. rewrite gextr_ok by (apply (Hnf 0%nat); lia). by destruct (f _). Qed.
Lemma run_cos_read {A} (f : C -> Res A) w : cos_read f w = (f (cos (st w)), mkWorld (S (calls w)) (st w)).
Proof. unfold cos_read. rewrite run_cos. cbn. by destruct (st w). Qed.

Lemma numbered_In ps x : x ∈ numbered ps <-> ps !! fst x = Some (snd x).
Proof. unfold numbered. rewrite merge_sort_Permutation. destruct x. by rewrite elem_of_map_to_list. Qed.
Lemma numbered_size ps : length (numbered ps) = size ps.
Proof. unfold numbered. by rewrite merge_sort_Permutation, length_map_to_list. Qed.
#[local] Instance num_le_total : Total num_le.
Proof. intros x y. unfold num_le. lia. Qed.
#[local] Instance num_le_trans : Transitive num_le.
Proof. intros x y z. unfold num_le. lia. Qed.

(** The parts 1 to [k] in order. *)
Definition first_parts ps (k : nat) : list (Z * string) := map (fun i => (Z.of_nat i, default "" (ps !! Z.of_nat i))) (seq 1 k).
Lemma first_parts_consecutive ps k : consecutive 1 (first_parts ps k).
Proof.
  unfold first_parts. change 1 with (Z.of_nat 1) at 1. generalize 1%nat. induction k as [|k IH]; intros i; [done|]. cbn [seq map consecutive fst].
  split; [done|]. replace (Z.of_nat i + 1) with (Z.of_nat (S i)) by lia. apply IH.
Qed.
Lemma consecutive_sorted l : forall from, consecutive from l -> Sorted num_le l.
Proof.
  induction l as [|x l IH]; intros from; [constructor|]. cbn. intros [Hx Hl]. constructor; [by apply (IH (from + 1))|].
  destruct l as [|y l]; [constructor|]. destruct Hl as [Hy _]. constructor. unfold num_le. lia.
Qed.
Lemma consecutive_from l : forall from x, consecutive from l -> In x l -> from <= fst x.
Proof. induction l as [|y l IH]; intros from x; [done|]. cbn. intros [Hy Hl] [->|Hx]; [lia|]. specialize (IH _ _ Hl Hx). lia. Qed.
Lemma consecutive_nodup l : forall from, consecutive from l -> NoDup (map fst l).
Proof.
  induction l as [|x l IH]; intros from; [constructor|]. cbn. intros [Hx Hl]. constructor; [|by apply (IH (from + 1))].
  intros (y & Hy & Hin%list_elem_of_In)%list_elem_of_fmap. pose proof (consecutive_from _ _ _ Hl Hin). lia.
Qed.
Lemma numbered_first ps k : (forall i, is_Some (ps !! i) <-> 1 <= i <= Z.of_nat k) -> numbered ps = first_parts ps k.
Proof.
  intros Hk. apply (Sorted_unique_strong num_le).
  - intros x y Hx Hy Hxy Hyx. apply numbered_In in Hx. apply list_elem_of_fmap in Hy as (i & -> & _). unfold num_le in *. cbn [fst snd] in *.
    destruct x as [n d]. cbn [fst snd] in *. assert (Hn : n = Z.of_nat i) by lia. subst n. by rewrite Hx.
  - apply (Sorted_merge_sort num_le).
  - eapply consecutive_sorted, first_parts_consecutive.
  - apply NoDup_Permutation.
    + unfold numbered. rewrite merge_sort_Permutation. apply NoDup_map_to_list.
    + apply (NoDup_fmap_1 fst). eapply consecutive_nodup, first_parts_consecutive.
    + intros [n d]. rewrite numbered_In. unfold first_parts. rewrite list_elem_of_fmap. cbn [fst snd]. setoid_rewrite elem_of_seq. split.
      * intros Hn. assert (Hr : 1 <= n <= Z.of_nat k) by (apply Hk; by eexists). exists (Z.to_nat n). rewrite Z2Nat.id by lia.
        rewrite Hn. split; [done|lia].
      * intros (i & [= -> ->] & Hi). destruct (proj2 (Hk (Z.of_nat i)) ltac:(lia)) as [x Hx]. by rewrite Hx.
Qed.
Lemma take_first ps n k : take n (first_parts ps k) = first_parts ps (min n k).
Proof.
  unfold first_parts. rewrite <- fmap_take. f_equal. revert k. generalize 1%nat. induction n as [|n IH]; intros i [|k]; cbn; [done..|].
  by rewrite IH.
Qed.

(** Of an upload with at most a thousand parts [ListTrunks] names, in order,
    the parts that the service holds; it says that they wait to be put
    together exactly when as many parts are there as the file has, whatever
    their numbers, and otherwise names the parts of the file that are missing. *)
Theorem ListTrunks_spec (u : Uploader) ps w :
  open_upload u.(tempFile) (cos (st w)) = Some ps -> (size ps <= 1000)%nat ->
  exists r w', ListTrunks u w = (Ok r, w') /\ st w' = st w /\
    Sorted Z.le r.(PartNumbersUploaded) /\ NoDup r.(PartNumbersUploaded) /\
    (forall i, i ∈ r.(PartNumbersUploaded) <-> is_Some (ps !! (i + 1))) /\
    (r.(UploadStatus) = FileStatusUploadWaitComp <-> Z.of_nat (size ps) = u.(tempFile).(TF.PartCount)) /\
    (Z.of_nat (size ps) = u.(tempFile).(TF.PartCount) -> r.(PartNumbersNeedUpload) = []) /\
    (Z.of_nat (size ps) <> u.(tempFile).(TF.PartCount) -> forall i,
       i ∈ r.(PartNumbersNeedUpload) <-> 0 <= i < u.(tempFile).(TF.PartCount) /\ ps !! (i + 1) = None).
Proof.
  intros Hps Hsize. unfold ListTrunks, ListUploadExistsTrunk. rewrite !gbind_eq, run_cos_read, (ListParts_ok _ _ ps) by done.
  rewrite take_ge by (by rewrite numbered_size). cbn [fst snd gret]. rewrite map_map. cbn [PartNumber].
  set (exi := merge_sort Z.le _). set (t := tempFile u) in *. do 2 eexists. split; [reflexivity|]. split; [done|].
  assert (Hexi : forall i, i ∈ exi <-> is_Some (ps !! (i + 1))).
  { intros i. unfold exi. rewrite merge_sort_Permutation, list_elem_of_fmap. setoid_rewrite numbered_In. split.
    - intros ([n d] & -> & Hn). cbn [fst snd] in *. rewrite Z.sub_add. by eexists.
    - intros [d Hd]. exists (i + 1, d). cbn [fst snd]. split; [lia|done]. }
  assert (Hlen : length exi = size ps) by (unfold exi; by rewrite merge_sort_Permutation, length_map, numbered_size).
  assert (Hnd : NoDup exi).
  { unfold exi. rewrite merge_sort_Permutation. unfold numbered. rewrite merge_sort_Permutation.
    rewrite <- (map_map fst (fun n => n - 1)). apply NoDup_fmap_2_strong; [intros; lia|apply NoDup_fst_map_to_list]. }
  assert (Hs : Sorted Z.le exi) by apply (Sorted_merge_sort Z.le).
  assert (Hneed : forall i, i ∈ getNeedUploadPartNumbers (TF.PartCount t) exi <-> 0 <= i < TF.PartCount t /\ ps !! (i + 1) = None).
  { intros i. unfold getNeedUploadPartNumbers. rewrite list_elem_of_In, filter_In, in_map_iff. unfold contains. rewrite negb_true_iff.
    rewrite <- not_true_iff_false, existsb_exists. setoid_rewrite in_seq. setoid_rewrite Z.eqb_eq. rewrite eq_None_not_Some, <- Hexi. split.
    - intros [(k & <- & Hk) Hn]. split; [lia|]. intros Hi. apply Hn. exists (Z.of_nat k). split; [by apply list_elem_of_In|done].
    - intros [Hi Hn]. split; [exists (Z.to_nat i); lia|]. intros (x & Hx & <-). apply Hn. by apply list_elem_of_In. }
  rewrite Hlen. destruct (Z.eqb_spec (Z.of_nat (size ps)) (TF.PartCount t)) as [He|He]; cbn; split_and!; try done.
Qed.

(** ** A whole upload *)
Definition add_part ps (p : Z * string) : gmap Z string := <[fst p + 1 := snd p]> ps.
Definition latest (parts : list (Z * string)) : gmap Z string := fold_left add_part parts ∅.
Definition upload_all (u : Uploader) (parts : list (Z * string)) : M (Sys C) unit :=
  gfor parts (fun p => UploaderUploadPart u (fst p) (snd p) (Z.of_nat (String.length (snd p)))).
Lemma run_parts (u : Uploader) parts : forall ps w, open_upload u.(tempFile) (cos (st w)) = Some ps ->
  Forall (fun p : Z * string => 0 <= fst p < 10000) parts ->
  exists w', upload_all u parts w = (Ok tt, w') /\ tabs (st w') = tabs (st w) /\ objects (cos (st w')) = objects (cos (st w)) /\
    open_upload u.(tempFile) (cos (st w')) = Some (fold_left add_part parts ps).
Proof.
  induction parts as [|[i d] parts IH]; intros ps w Hps Hr; [by exists w|]. apply Forall_cons in Hr as [Hi Hr].
  unfold upload_all. cbn [gfor]. unfold UploaderUploadPart at 1, UploadTrunk at 1. rewrite !gbind_eq, run_cos. cbn [fst snd] in *.
  destruct (UploadPart_ok _ _ ps (i + 1) d (cos (st w)) Hps ltac:(lia)) as (c' & -> & Hu & Ho). cbn [fst snd gret].
  destruct (IH (<[i + 1 := d]> ps) (mkWorld (S (calls w)) (mkSys (tabs (st w)) c'))) as (w' & E & Ht & Ho' & Hu'); [|done|].
  - unfold open_upload. cbn [cos st]. rewrite Hu. apply lookup_insert_eq.
  - exists w'. split; [exact E|]. split; [by rewrite Ht|]. split; [by rewrite Ho'|exact Hu'].
Qed.

(** Ids below the next one, one row for each. *)
Definition ids_below {E} `{GormModel E} (t : GTab E) : Prop := 0 < next_id t /\ Forall (fun e => m_id e < next_id t) (rows t).
Lemma create_one {E} `{GormModel E} `{HasTab (Sys C) E} (e : E) w :
  (forall f now id, In f (rows (get_tab (st w))) -> m_collide (m_create now id e) f = (m_id (m_create now id e) =? m_id f)) ->
  (forall now id, m_id (m_create now id e) = id) -> ids_below (get_tab (st w)) ->
  let t := get_tab (st w) in
  exists now w', gorm_create_one e w = (Ok (m_create now (next_id t) e), w') /\
    st w' = set_tab (mkGTab (rows t ++ [m_create now (next_id t) e])%list (next_id t + 1)) (st w).
Proof.
  intros Hcol Hid [Hpos Hbelow] t. unfold gorm_create_one. rewrite gbind_eq. unfold gnow. cbn [fst snd]. set (now := env_clock (calls w)).
  rewrite gextr_ok by (apply (Hnf 0%nat); lia). cbn [st calls]. fold t. cbn [insert_rows].
  assert (Hno : existsb (m_collide (m_create now (next_id t) e)) (rows t) = false).
  { apply not_true_iff_false. rewrite existsb_exists. intros (f & Hf & Hc). rewrite Hcol in Hc by done. rewrite Hid in Hc. apply Z.eqb_eq in Hc.
    rewrite Forall_forall in Hbelow. pose proof (Hbelow f ltac:(by apply list_elem_of_In)) as Hlt. cbn beta in Hlt. fold t in Hlt. lia. }
  rewrite Hno, Hid. rewrite Z.max_r by lia. cbn [fst snd]. do 2 eexists. split; reflexivity.
Qed.
Lemma in_transaction_ok {A} (body : M (Sys C) A) a w w' :
  body (mkWorld (S (calls w)) (st w)) = (Ok a, w') -> exists n, in_transaction body w = (Ok a, mkWorld n (st w')).
Proof.
  intros Hb. unfold in_transaction. rewrite gbind_eq, gext_ok by (apply (Hnf 0%nat); lia). cbn [fst snd]. rewrite gbind_eq, Hb, gext_ok by (apply (Hnf 0%nat); lia).
  by eexists.
Qed.

(** The parts fit: numbered from 1 without a gap, and none that is put together
    is too small but the last. *)
Definition no_gap ps (k : nat) : Prop := forall i, is_Some (ps !! i) <-> 1 <= i <= Z.of_nat k.
Definition big_enough ps (k : nat) : Prop :=
  Forall (fun p => (min_part <= String.length (snd p))%nat) (removelast (first_parts ps (min 1000 k))).
Lemma run_complete_task (u : Uploader) ps k w :
  open_upload u.(tempFile) (cos (st w)) = Some ps -> (0 < k)%nat -> no_gap ps k -> big_enough ps k ->
  exists w', CompleteUploadTask u.(tempFile) w = (Ok tt, w') /\ tabs (st w') = tabs (st w) /\
    objects (cos (st w')) = <[u.(tempFile).(TF.StoragePath) := contents (first_parts ps (min 1000 k))]> (objects (cos (st w))) /\
    open_upload u.(tempFile) (cos (st w')) = None.
Proof.
  intros Hps Hk Hgap Hbig. unfold CompleteUploadTask. rewrite gbind_eq, run_cos_read, (ListParts_ok _ _ ps) by done.
  rewrite (numbered_first ps k) by done. rewrite take_first, run_cos. cbn [st calls].
  destruct (Complete_ok _ _ ps (first_parts ps (min 1000 k)) (cos (st w)) Hps) as (c' & -> & Ho & Hu).
  - rewrite (numbered_first ps k) by done. rewrite <- take_first. apply prefix_take.
  - destruct k; [lia|done].
  - apply first_parts_consecutive.
  - exact Hbig.
  - cbn [fst snd]. eexists. split; [reflexivity|]. cbn [st tabs cos]. split_and!; [done|done|]. unfold open_upload. rewrite Hu. apply lookup_delete_eq.
Qed.

Definition record_of (u : Uploader) : FileInfo :=
  let t := u.(tempFile) in
  FI.mkFile 0 0 0 None t.(TF.CompanyID) t.(TF.Uin) t.(TF.Purpose) t.(TF.Filename) t.(TF.FileExt) t.(TF.MIMEType)
    t.(TF.Size) "" t.(TF.ChunkHash) t.(TF.StoragePath) (GetPublicURL presign u.(updr) t.(TF.StoragePath) false) 1 FileStatusNormal FI.notChunked.
(** The record of the upload is the last row of its table. *)
Definition upload_row (u : Uploader) (old : list TempFile) (t : GTab TempFile) : Prop :=
  rows t = (old ++ [u.(tempFile)])%list /\ u.(tempFile).(TF.DeletedAt) = None /\ 0 < u.(tempFile).(TF.ID) /\
  Forall (fun e => TF.ID e < u.(tempFile).(TF.ID)) old /\ distinct (rows t) = true.
Lemma delete_row (u : Uploader) old (t : GTab TempFile) now : upload_row u old t ->
  exists t', update_rows (by_id (TF.ID u.(tempFile))) (m_set_deleted (Some now)) t = Ok t' /\
    rows t' = (old ++ [TF.set_head u.(tempFile).(TF.ID) u.(tempFile).(TF.CreatedAt) u.(tempFile).(TF.UpdatedAt) (Some now) u.(tempFile)])%list.
Proof.
  intros (Hrows & Hlive & Hpos & Hbelow & Hdist). unfold update_rows. cbn [conds by_id where_ newQuery app].
  set (f := fun e : TempFile => _). assert (Hf : map f (rows t) = (old ++ [m_set_deleted (Some now) u.(tempFile)])%list).
  { rewrite Hrows, map_app. f_equal.
    - rewrite <- (map_id old) at 2. apply map_ext_in. intros e He. unfold f, hits. cbn.
      rewrite Forall_forall in Hbelow. specialize (Hbelow e ltac:(by apply list_elem_of_In)). destruct (Z.eqb_spec (TF.ID e) (TF.ID (tempFile u))); [lia|done].
    - cbn. unfold f, hits, live. cbn. by rewrite Z.eqb_refl, Hlive. }
  rewrite distinct_map, Hdist.
  - eexists. split; [reflexivity|]. cbn [rows]. exact Hf.
  - intros x y. unfold f. by destruct (hits _ x), (hits _ y).
Qed.
Lemma run_complete (u : Uploader) ps k old w :
  open_upload u.(tempFile) (cos (st w)) = Some ps -> (0 < k)%nat -> no_gap ps k -> big_enough ps k ->
  upload_row u old (temps (tabs (st w))) -> ids_below (files (tabs (st w))) ->
  exists now w', let fi := m_create now (next_id (files (tabs (st w)))) (record_of u) in
    CompleteUpload presign u w = (Ok fi, w') /\
    rows (files (tabs (st w'))) = (rows (files (tabs (st w))) ++ [fi])%list /\
    List.filter live (rows (temps (tabs (st w')))) = List.filter live old /\
    objects (cos (st w')) = <[u.(tempFile).(TF.StoragePath) := contents (first_parts ps (min 1000 k))]> (objects (cos (st w))) /\
    open_upload u.(tempFile) (cos (st w')) = None.
Proof.
  intros Hps Hk Hgap Hbig Hrow Hids. unfold CompleteUpload. fold (record_of u).
  destruct (run_complete_task u ps k w) as (w1 & E1 & Ht1 & Ho1 & Hu1); [done..|]. rewrite gbind_eq, E1.
  set (w1' := mkWorld (S (calls w1)) (st w1)).
  destruct (create_one (record_of u) w1') as (now & w2 & E2 & Hs2).
  { intros f now id Hf. reflexivity. } { intros now id. reflexivity. } { unfold w1'. cbn [get_tab sys_files st]. by rewrite Ht1. }
  cbn [get_tab sys_files st w1'] in E2, Hs2. rewrite Ht1 in E2, Hs2. set (fi := m_create now _ _) in *.
  destruct (delete_row u old (temps (tabs (st w2))) (env_clock (calls w2))) as (t' & E3 & Hr3).
  { rewrite Hs2. cbn [set_tab sys_files tabs temps]. by rewrite Ht1. }
  assert (Hb : exists n, (let! fi := gorm_create_one (record_of u) in gorm_delete_one u.(tempFile) ;;; gret fi) w1' = (Ok fi, mkWorld n (set_tab t' (st w2)))).
  { rewrite gbind_eq, E2. rewrite gbind_eq. unfold gorm_delete_one. rewrite gbind_eq. unfold gnow, tab_write. cbn [fst snd].
    rewrite gextr_ok by (apply (Hnf 0%nat); lia). cbn [st calls get_tab sys_temps].
    rewrite (proj2 (Z.eqb_neq (m_id (tempFile u)) 0)) by (destruct Hrow as (_ & _ & Hp & _); cbn; lia). cbn [m_id temp_model] in *. rewrite E3. by eexists. }
  destruct Hb as [n Hb]. destruct (in_transaction_ok _ _ w1 _ Hb) as [n' E4]. rewrite E4. exists now. eexists. split; [reflexivity|].
  cbn [st set_tab sys_temps tabs files temps cos]. rewrite Hs2. cbn [set_tab sys_files tabs files temps cos]. split_and!; [done| | |].
  - rewrite Hr3, List.filter_app. cbn. by rewrite app_nil_r.
  - cbn. exact Ho1.
  - exact Hu1.
Qed.

Lemma distinct_snoc_below (l : list TempFile) x : distinct l = true -> Forall (fun e => TF.ID e < TF.ID x) l -> distinct (l ++ [x])%list = true.
Proof.
  induction l as [|y l IH]; cbn; [done|]. intros [Hy Hd]%andb_true_iff Hl. apply Forall_cons in Hl as [Hyx Hl].
  rewrite IH by done. rewrite existsb_app. apply negb_true_iff in Hy. rewrite Hy. cbn.
  destruct (Z.eqb_spec (TF.ID y) (TF.ID x)); [lia|done].
Qed.
Lemma run_new cfg tc req w : ids_below (temps (tabs (st w))) -> distinct (rows (temps (tabs (st w)))) = true ->
  exists u w1, newUploader unicode_lower tz intn cfg tc req w = (Ok u, w1) /\
    upload_row u (rows (temps (tabs (st w)))) (temps (tabs (st w1))) /\ files (tabs (st w1)) = files (tabs (st w)) /\
    objects (cos (st w1)) = objects (cos (st w)) /\ open_upload u.(tempFile) (cos (st w1)) = Some ∅ /\
    u.(tempFile).(TF.Size) = req.(req_Size) /\ u.(tempFile).(TF.ChunkHash) = req.(SHA1) /\
    Some u.(tempFile).(TF.PartCount) = GetPartCount req.(req_Size) defaultPartSize.
Proof.
  intros Hids Hdist. unfold newUploader. set (ext := ToLower _ _). unfold gnow at 1. rewrite gbind_eq. cbn [fst snd].
  unfold gnow at 1. rewrite gbind_eq. cbn [fst snd calls st]. set (now := env_clock (calls w)). set (date := env_clock _).
  unfold random_text. destruct (rand_bytes_spec (intn (S (S (calls w)))) (intn_range _) 7 ALPHANUM ltac:(done) 0) as (text & Htext & _ & _).
  rewrite gbind_eq. cbn [calls]. unfold random_String, Alphanum, RandString. rewrite Htext.
  set (path := ("/" ++ _)%string). set (t0 := TF.mkTemp _ _ _ _ _ _ _ _ _ _ _ _ _ _ _ _ _ _ _ _ _).
  unfold InitUploadTask. rewrite gbind_eq, gbind_eq, run_cos. cbn [st calls].
  destruct (Initiate_ok (TF.StoragePath t0) (TF.ChunkHash t0) (cos (st w))) as (id & c' & -> & Hnone & Hups & Hobj). cbn [fst snd gret].
  rewrite gbind_eq. unfold SaveTempFile. set (w' := mkWorld _ _).
  destruct (create_one (TF.set_upload id t0) w') as (now' & w1 & E1 & Hs1).
  { intros f n i _. reflexivity. } { intros n i. reflexivity. } { exact Hids. }
  cbn [get_tab sys_temps w' st tabs] in E1, Hs1. rewrite E1. cbn [gret]. do 2 eexists. split; [reflexivity|]. cbn [tempFile].
  rewrite Hs1. cbn [set_tab sys_temps tabs files temps cos rows]. destruct Hids as [Hpos Hbelow]. split_and!; try done.
  - split_and!; try done. apply distinct_snoc_below; [exact Hdist|exact Hbelow].
  - unfold open_upload. cbn. rewrite Hups. apply lookup_insert_eq.
Qed.

(** C20: A file whose parts are all uploaded, in any order and some of them
    again, is put together from the last data of each part, in order of the
    numbers; only the first thousand parts are taken, and nothing asks for all
    parts of the file: [k] is the number of parts that came, not the number
    that the size calls for.  The size that was announced is recorded, the
    record of the upload goes, other objects and other records stay. *)
Theorem upload_session (cfg : StorageConfig) (tc : TencentCos) (req : InitMultipartUploadRequest)
    (parts : list (Z * string)) (k : nat) w :
  ids_below (temps (tabs (st w))) -> distinct (rows (temps (tabs (st w)))) = true -> ids_below (files (tabs (st w))) ->
  Forall (fun p : Z * string => 0 <= fst p < 10000) parts -> (0 < k)%nat -> no_gap (latest parts) k -> big_enough (latest parts) k ->
  exists u w1 w2 fi w3,
    newUploader unicode_lower tz intn cfg tc req w = (Ok u, w1) /\ upload_all u parts w1 = (Ok tt, w2) /\
    CompleteUpload presign u w2 = (Ok fi, w3) /\
    objects (cos (st w3)) = <[fi.(FI.StoragePath) := contents (first_parts (latest parts) (min 1000 k))]> (objects (cos (st w))) /\
    rows (files (tabs (st w3))) = (rows (files (tabs (st w))) ++ [fi])%list /\
    fi.(FI.Size) = req.(req_Size) /\ fi.(FI.ChunkHash) = req.(SHA1) /\ fi.(FI.Status) = FileStatusNormal /\
    List.filter live (rows (temps (tabs (st w3)))) = List.filter live (rows (temps (tabs (st w)))).
Proof.
  intros Ht Hd Hf Hr Hk Hgap Hbig. destruct (run_new cfg tc req w Ht Hd) as (u & w1 & E1 & Hrow & Hf1 & Ho1 & Hp1 & Hsize & Hhash & _).
  destruct (run_parts u parts ∅ w1 Hp1 Hr) as (w2 & E2 & Ht2 & Ho2 & Hp2).
  destruct (run_complete u (latest parts) k (rows (temps (tabs (st w)))) w2) as (now & w3 & E3 & Hf3 & Ht3 & Ho3 & _); try done.
  { by rewrite Ht2. } { by rewrite Ht2, Hf1. }
  exists u, w1, w2. do 2 eexists. split; [exact E1|]. split; [exact E2|]. split; [exact E3|]. split_and!.
  - rewrite Ho3. cbn. by rewrite Ho2, Ho1.
  - rewrite Hf3. by rewrite Ht2, Hf1.
  - exact Hsize.
  - exact Hhash.
  - done.
  - exact Ht3.
Qed.
End Laws.

(** * When the record cannot be written *)
Section Lost.
Context `{Env} {C : Type} `{CosLaws C} (presign : string -> string -> Res string).
Lemma tabs_cos_call {A} (f : C -> Res A * C) w : tabs (st (snd (cos_call f w))) = tabs (st w).
Proof. unfold cos_call, gextr. destruct (env_fault (calls w)); [done|]. cbn. by destruct (f _). Qed.

(** A completion that fails changes no table, and once the service has put
    the object together no later attempt succeeds: the upload is gone, so
    [CompleteUpload] and [ListTrunks] fail for ever, while its record stays
    and every request for the same file is led back to it. *)
Theorem lost_record (u : Uploader) (e : error) (w w' : World (Sys C)) :
  CompleteUpload presign u w = (Err e, w') ->
  tabs (st w') = tabs (st w) /\
  (open_upload u.(tempFile) (cos (st w')) = None -> forall w2, st w2 = st w' ->
     (exists e2 n, CompleteUpload presign u w2 = (Err e2, mkWorld n (st w'))) /\
     (exists e3 n, ListTrunks u w2 = (Err e3, mkWorld n (st w')))).
Proof.
  intros Hc. split.
  - unfold CompleteUpload in Hc. rewrite gbind_eq in Hc. destruct (CompleteUploadTask (tempFile u) w) as [r w1] eqn:E1.
    assert (Ht1 : tabs (st w1) = tabs (st w)).
    { unfold CompleteUploadTask in E1. rewrite gbind_eq in E1. destruct (cos_read _ w) as [r0 w0] eqn:E0.
      pose proof (tabs_cos_call (fun c => (ListParts (TF.StoragePath (tempFile u)) (TF.ThirdUploadID (tempFile u)) c, c)) w) as H0'.
      unfold cos_read in E0. rewrite E0 in H0'. cbn [snd] in H0'. destruct r0 as [l|e0].
      - pose proof (tabs_cos_call (Object_Complete (TF.StoragePath (tempFile u)) (TF.ThirdUploadID (tempFile u)) l) w0) as H1'.
        rewrite E1 in H1'. cbn [snd] in H1'. congruence.
      - injection E1 as _ <-. exact H0'. }
    destruct r as [[]|e1]; [|injection Hc as _ <-; exact Ht1]. rewrite <- Ht1. f_equal.
    match type of Hc with in_transaction ?b ?x = _ => pose proof (transaction_err b x) as Htr end. rewrite Hc in Htr. by apply Htr.
  - intros Hgone w2 Hs. unfold CompleteUpload, ListTrunks, CompleteUploadTask, ListUploadExistsTrunk, cos_read, cos_call, gextr.
    rewrite !gbind_eq. destruct (ListParts_gone _ _ _ Hgone) as [e3 He3]. rewrite Hs.
    destruct (env_fault (calls w2)) as [e0|]; [split; by do 2 eexists|]. rewrite He3. cbn. split; do 2 eexists; f_equal; by destruct (st w').
Qed.
End Lost.

(** * A bucket in memory *)
Module Mem.
Record Bucket : Type := mkBucket { objs : gmap string string; ups : gmap (string * string) (gmap Z string) }.
Definition NoSuchUpload : error := ErrNew "404 NoSuchUpload".
(** Longer than every id in use. *)
Definition new_id (c : Bucket) : string := fold_right (fun e s => snd (fst e) ++ s) "u" (map_to_list c.(ups)).
Definition min_size : nat := 2.
Definition part_of (ps : gmap Z string) (p : PartInfo) : option (Z * string) :=
  match ps !! p.(PartNumber) with
  | Some d => if str_eqb p.(ETag) d then Some (p.(PartNumber), d) else None
  | None => None
  end.
Fixpoint parts_of (ps : gmap Z string) (l : list PartInfo) : option (list (Z * string)) :=
  match l with
  | [] => Some []
  | p :: l' => match part_of ps p, parts_of ps l' with Some x, Some r => Some (x :: r) | _, _ => None end
  end.
Fixpoint consecutive_b (from : Z) (l : list (Z * string)) : bool :=
  match l with [] => true | p :: l' => (fst p =? from) && consecutive_b (from + 1) l' end.
Definition complete (k id : string) (l : list PartInfo) (c : Bucket) : Res unit * Bucket :=
  match c.(ups) !! (k, id) with
  | None => (Err NoSuchUpload, c)
  | Some ps =>
      match parts_of ps l with
      | Some ((_ :: _) as xs) =>
          if negb (consecutive_b 1 xs) then (Err (ErrNew "400 InvalidPart"), c)
          else if forallb (fun p => (min_size <=? String.length (snd p))%nat) (removelast xs)
          then (Ok tt, mkBucket (<[k := contents xs]> c.(objs)) (delete (k, id) c.(ups)))
          else (Err (ErrNew "400 EntityTooSmall"), c)
      | _ => (Err (ErrNew "400 InvalidPart"), c)
      end
  end.
(** What follows [prefix] up to and with the first slash, if there is one. *)
Fixpoint to_slash (s : string) : option string :=
  match s with
  | "" => None
  | String c s' => if Ascii.eqb c slash then Some (String c "") else option_map (String c) (to_slash s')
  end.
Definition str_le (a b : string) : Prop := String.leb a b = true.
#[export] Instance str_le_dec : RelDecision str_le := fun a b => decide (String.leb a b = true).
Definition list_prefix (prefix : string) (c : Bucket) : list string * list string :=
  let keys := merge_sort str_le
    (List.filter (has_prefix prefix) (map fst (map_to_list c.(objs)))) in
  let cut k := to_slash (str_drop (String.length prefix) k) in
  (List.filter (fun k => match cut k with None => true | Some _ => false end) keys,
   remove_dups (omap (fun k => option_map (fun r => prefix ++ r) (cut k)) keys)).
(** The host of a source address ends at its first slash. *)
Definition source_key (url : string) : string :=
  match to_slash url with Some h => str_drop (String.length h) url | None => "" end.
#[global] Instance mem_cos : Cos Bucket := {
  Object_Put k d c := (Ok (String quote (d ++ String quote "")), mkBucket (<[k := d]> c.(objs)) c.(ups));
  Object_Get k c := match c.(objs) !! k with Some d => Ok d | None => Err (ErrNew "404 NoSuchKey") end;
  Object_Delete k c := (Ok tt, mkBucket (delete k c.(objs)) c.(ups));
  Object_Copy dest url c := match c.(objs) !! source_key url with
                            | Some d => (Ok tt, mkBucket (<[dest := d]> c.(objs)) c.(ups))
                            | None => (Err (ErrNew "404 NoSuchKey"), c)
                            end;
  Object_Head k c := Ok (bool_decide (is_Some (c.(objs) !! k)));
  Bucket_Get prefix _ c := Ok (list_prefix prefix c);
  InitiateMultipartUpload k _ c := (Ok (new_id c), mkBucket c.(objs) (<[(k, new_id c) := ∅]> c.(ups)));
  Object_UploadPart k id n d size c :=
    match c.(ups) !! (k, id) with
    | Some ps => if (1 <=? n) && (n <=? 10000) && (size =? Z.of_nat (String.length d))
                 then (Ok d, mkBucket c.(objs) (<[(k, id) := <[n := d]> ps]> c.(ups)))
                 else (Err (ErrNew "400 InvalidArgument"), c)
    | None => (Err NoSuchUpload, c)
    end;
  ListParts k id c := match c.(ups) !! (k, id) with
                      | Some ps => Ok (map (fun p => mkPart (fst p) (snd p)) (take 1000 (numbered ps)))
                      | None => Err NoSuchUpload
                      end;
  Object_Complete := complete;
  Object_Abort k id c := match c.(ups) !! (k, id) with
                         | Some _ => (Ok tt, mkBucket c.(objs) (delete (k, id) c.(ups)))
                         | None => (Err NoSuchUpload, c)
                         end;
}.
Lemma new_id_fresh (c : Bucket) k : c.(ups) !! (k, new_id c) = None.
Proof.
  destruct (ups c !! (k, new_id c)) as [ps|] eqn:E; [|done]. exfalso.
  apply elem_of_map_to_list in E. unfold new_id in E. set (l := map_to_list (ups c)) in *.
  assert (Hlen : forall x (l : list (string * string * gmap Z string)), x ∈ l ->
    (String.length (snd (fst x)) < String.length (fold_right (fun e s => snd (fst e) ++ s) "u" l))%nat).
  { clear. intros x l Hx. induction Hx as [x l|x y l Hx IH]; simpl; rewrite str_length_app; [|lia].
    assert (0 < String.length (fold_right (fun e s => snd (fst e) ++ s) "u" l))%nat; [|lia].
    clear. induction l as [|y l IH]; simpl; [lia|]. rewrite str_length_app. lia. }
  apply Hlen in E. cbn in E. lia.
Qed.
Lemma parts_of_ok (ps : gmap Z string) l : Forall (fun p => ps !! fst p = Some (snd p)) l ->
  parts_of ps (map (fun p => mkPart (fst p) (snd p)) l) = Some l.
Proof.
  induction 1 as [|[n d] l Hp Hl IH]; [done|]. cbn [map parts_of]. rewrite IH. unfold part_of. cbn in *. rewrite Hp.
  unfold str_eqb. by rewrite String.eqb_refl.
Qed.
Lemma consecutive_b_ok l : forall from, consecutive from l -> consecutive_b from l = true.
Proof. induction l as [|p l IH]; intros from; [done|]. cbn. intros [-> Hl]. by rewrite Z.eqb_refl, IH. Qed.
#[global] Program Instance mem_laws : CosLaws Bucket := {
  objects := objs; uploads := ups; etag d := d; min_part := min_size
}.
Next Obligation. intros k meta c. do 2 eexists. split_and!; [reflexivity|apply new_id_fresh|done|done]. Qed.
Next Obligation.
  intros k id ps n d c Hps Hn. cbn. rewrite Hps. rewrite Z.eqb_refl, (proj2 (Z.leb_le 1 n)), (proj2 (Z.leb_le n 10000)) by lia.
  cbn. by eexists.
Qed.
Next Obligation. intros k id ps c Hps. cbn. by rewrite Hps. Qed.
Next Obligation. intros k id c Hps. cbn. rewrite Hps. by eexists. Qed.
Next Obligation.
  intros k id ps l c Hps Hpre Hne Hcons Hsize. cbn. unfold complete. rewrite Hps, parts_of_ok.
  - destruct l as [|x l]; [done|]. rewrite consecutive_b_ok by done. cbn [negb].
    rewrite (proj2 (forallb_forall _ _)); [by eexists|]. intros p Hp%list_elem_of_In. rewrite Forall_forall in Hsize. apply Nat.leb_le. by apply Hsize.
  - apply Forall_forall. intros [n d] Hp. cbn. apply elem_of_map_to_list. destruct Hpre as [r Hr].
    assert (Hin : (n, d) ∈ numbered ps) by (rewrite Hr; apply elem_of_app; by left). unfold numbered in Hin. by rewrite merge_sort_Permutation in Hin.
Qed.
End Mem.

(** * Uploads at work *)
Definition no_gap_b (ps : gmap Z string) (k : nat) : bool :=
  forallb (fun p : Z * string => (1 <=? fst p) && (fst p <=? Z.of_nat k)) (map_to_list ps) &&
  forallb (fun i => bool_decide (is_Some (ps !! Z.of_nat i))) (seq 1 k).
Lemma no_gap_ok (ps : gmap Z string) k : no_gap_b ps k = true -> no_gap ps k.
Proof.
  unfold no_gap_b. rewrite andb_true_iff, !forallb_forall. intros [Hin Hall] i. split.
  - intros [d Hd]. apply elem_of_map_to_list, list_elem_of_In, Hin in Hd. cbn in Hd. lia.
  - intros Hi. specialize (Hall (Z.to_nat i) ltac:(apply in_seq; lia)). apply bool_decide_eq_true_1 in Hall. by rewrite Z2Nat.id in Hall by lia.
Qed.
Definition demoCos : TencentCos := mkTencentCos (mkCosConfig "files-125" "ap-beijing").
Definition demoCfg : StorageConfig := mkStorageConfig "doc" (Some (mkCosConfig "files-125" "ap-beijing")).
Definition demoReq (company : Z) : InitMultipartUploadRequest := mkUploadReq "sha1" (12 * 1024 * 1024) "Report.PDF" company 42 0 "".
Definition emptySys : World (Sys Mem.Bucket) := mkWorld 0 (mkSys (mkTabs (mkGTab [] 1) (mkGTab [] 1)) (Mem.mkBucket ∅ ∅)).
Definition signed (method path : string) : Res string := Ok "https://signed".
Definition draw (call i : nat) (n : Z) : Z := Z.of_nat i mod n.
Lemma draw_range (call i : nat) (n : Z) : 0 < n -> 0 <= draw call i n < n.
Proof. intros Hn. by apply Z.mod_pos_bound. Qed.
Definition shanghai (t : Z) : Z := 8 * 3600.
Definition demoNew (E : Env) : M (Sys Mem.Bucket) Uploader :=
  newUploader (H := E) (fun s => s) shanghai draw demoCfg demoCos (demoReq 7).
(** Two of three parts, the first one twice. *)
Definition demoParts : list (Z * string) := [(1, "bb"); (0, "aaa"); (0, "abc")].
Lemma empty_ids {E} `{GormModel E} : ids_below (mkGTab (E := E) [] 1).
Proof. split; [done|constructor]. Qed.
Lemma upload_session_witness :
  exists u w1 w2 fi w3, demoNew quietEnv emptySys = (Ok u, w1) /\ upload_all (H := quietEnv) u demoParts w1 = (Ok tt, w2) /\
    CompleteUpload (H := quietEnv) signed u w2 = (Ok fi, w3) /\
    Mem.objs (cos (st w3)) = <[fi.(FI.StoragePath) := "abcbb"]> ∅ /\ fi.(FI.Size) = 12 * 1024 * 1024.
Proof.
  destruct (upload_session (H := quietEnv) (C := Mem.Bucket) signed (fun s => s) shanghai draw quietEnv_ok draw_range
              demoCfg demoCos (demoReq 7) demoParts 2 emptySys) as (u & w1 & w2 & fi & w3 & E1 & E2 & E3 & Ho & _ & Hs & _).
  - apply empty_ids.
  - reflexivity.
  - apply empty_ids.
  - repeat constructor; cbn; lia.
  - lia.
  - apply no_gap_ok. vm_compute. reflexivity.
  - repeat constructor; vm_compute; lia.
  - exists u, w1, w2, fi, w3. split_and!; [exact E1|exact E2|exact E3|exact Ho|exact Hs].
Defined.
(** Parts 0, 1 and 7 of three: as many as the file has. *)
Definition strangeParts : list (Z * string) := [(0, "aaa"); (7, "h"); (1, "bb")].
Definition afterUploads (parts : list (Z * string)) : World (Sys Mem.Bucket) :=
  snd ((let! u := demoNew quietEnv in upload_all (H := quietEnv) u parts) emptySys).
Definition demoUploader : Uploader :=
  match fst (demoNew quietEnv emptySys) with Ok u => u | Err _ => mkUploader TF.zero demoCos end.
Lemma ListTrunks_spec_witness :
  exists r w', ListTrunks (H := quietEnv) demoUploader (afterUploads demoParts) = (Ok r, w') /\ In 2 r.(PartNumbersNeedUpload) /\ r.(UploadStatus) <> FileStatusUploadWaitComp.
Proof.
  destruct (ListTrunks_spec (H := quietEnv) quietEnv_ok demoUploader (latest demoParts) (afterUploads demoParts))
    as (r & w' & E & _ & _ & _ & _ & Hst & _ & Hneed).
  - vm_compute. reflexivity.
  - vm_compute. lia.
  - exists r, w'. split; [exact E|]. split.
    + apply list_elem_of_In, Hneed; [vm_compute; discriminate|]. split; [vm_compute; split; [discriminate|reflexivity]|vm_compute; reflexivity].
    + intros Hw. apply Hst in Hw. revert Hw. vm_compute. discriminate.
Defined.
(** It then says that the upload waits to be put together, and the service
    refuses to, because of the gap. *)
Example strange_part_waits :
  let w := afterUploads strangeParts in
  match fst (ListTrunks (H := quietEnv) demoUploader w) with
  | Ok r => (PartNumbersUploaded r, PartNumbersNeedUpload r, UploadStatus r) = ([0; 1; 7], [], FileStatusUploadWaitComp)
  | Err _ => False
  end /\ fst (CompleteUpload (H := quietEnv) signed demoUploader w) = Err (ErrNew "400 InvalidPart").
Proof. vm_compute. split; reflexivity. Qed.
(** The call that stores the record fails: the object is there, the upload is
    gone, and a new request for the file is led to the dead upload. *)
Definition lateFault : Env := faultEnv 12 (ErrVar "connection lost").
Definition lostState : World (Sys Mem.Bucket) := snd (CompleteUpload (H := lateFault) signed demoUploader (afterUploads demoParts)).
Lemma lost_record_witness :
  Mem.objs (cos (st lostState)) !! demoUploader.(tempFile).(TF.StoragePath) = Some "abcbb" /\
  (exists e n, CompleteUpload (H := lateFault) signed demoUploader lostState = (Err e, mkWorld n (st lostState))).
Proof.
  split; [vm_compute; reflexivity|].
  refine (proj1 (proj2 (lost_record (H := lateFault) (C := Mem.Bucket) signed demoUploader (ErrVar "connection lost") (afterUploads demoParts) lostState _) _ lostState eq_refl)).
  - unfold lostState. rewrite (surjective_pairing (CompleteUpload _ _ _)) at 1. f_equal; vm_compute; reflexivity.
  - vm_compute. reflexivity.
Defined.
Example led_to_dead_upload :
  let req := demoReq 7 in
  match GetUploader (H := quietEnv) (fun _ => None) (fun s => s) shanghai draw (fun _ _ => gret demoCfg) "core" "cos-doc" req lostState with
  | (Ok u, w) => tempFile u = tempFile demoUploader /\ fst (ListTrunks (H := quietEnv) u w) = Err Mem.NoSuchUpload
  | _ => False
  end.
Proof. vm_compute. split; reflexivity. Qed.
(** A request of company 8 for a file with the same hash continues the upload
    of company 7, whose record the file becomes. *)
Example other_company_joins :
  match GetUploader (H := quietEnv) (fun _ => None) (fun s => s) shanghai draw (fun _ _ => gret demoCfg) "core" "cos-doc" (demoReq 8) (afterUploads demoParts) with
  | (Ok u, w) => match fst (CompleteUpload (H := quietEnv) signed u w) with Ok fi => FI.CompanyID fi = 7 | Err _ => False end
  | _ => False
  end.
Proof. vm_compute. reflexivity. Qed.
(** Copying the folder [a] without a slash at its end takes the folder [ab] too. *)
Example neighbour_copied :
  let w0 := mkWorld 0 (mkSys (mkTabs (mkGTab [] 1) (mkGTab [] 1)) (Mem.mkBucket {[ "a/x" := "1"; "ab/y" := "2" ]} ∅)) in
  let w := snd (CopyDir (H := quietEnv) signed demoCos 3 "a" "z" w0) in
  Mem.objs (cos (st w)) = {[ "a/x" := "1"; "ab/y" := "2"; "z/x" := "1"; "z/b/y" := "2" ]}.
Proof. vm_compute. reflexivity. Qed.
Example dates : map (fun d => Format8 (fun _ => 0) (d * 86400 * 1000000000)) [0; 59; 789; 11016; 19782] =
  ["19700101"; "19700301"; "19720229"; "20000229"; "20240229"].
Proof. vm_compute. reflexivity. Qed.
