(* ===== verification/ObjectStore.v ===== *)
(** An object storage with the interface of Amazon S3, on which the drivers
    [S3Fs] and [MinFs] of src/storage run: a parameter, with what the
    documentation of the service promises as laws, an instance in memory that
    has them, and the contract that both drivers are proved to keep: a map from
    paths to contents. *)
From S2P Require Import Prelude Strings FileInfo Files.
#[local] Open Scope string_scope.
#[local] Open Scope Z_scope.

(** * The service *)
Definition NoSuchKey : error := ErrVar "NoSuchKey".
(** Bucket first, then key.  [Head] answers whether the object is there; [List_]
    gives a page of keys with a prefix and the token of the next page. *)
Class Store (C : Type) : Type := {
  HeadBucket : string -> C -> Res bool;
  Head : string -> string -> C -> Res bool;
  Get : string -> string -> C -> Res string;
  Put : string -> string -> string -> string -> C -> Res unit * C;
  Remove : string -> string -> C -> Res unit * C;
  Copy : string -> string -> string -> C -> Res unit * C;
  List_ : string -> string -> option string -> C -> Res (list string * option string);
  CreateUpload : string -> string -> C -> Res string * C;
  PutPart : string -> string -> string -> Z -> string -> C -> Res string * C;
  CompleteUpload : string -> string -> string -> list (Z * string) -> C -> Res unit * C;
  AbortUpload : string -> string -> string -> C -> Res unit * C;
}.

(** The keys of bucket [b] that start with [p], in order. *)
Definition key_set (b p : string) (m : gmap (string * string) string) : gset string :=
  set_map (D := gset string) snd (filter (fun x : string * string => fst x = b /\ has_prefix p (snd x) = true) (dom m)).
Definition keys_of (b p : string) (m : gmap (string * string) string) : list string := merge_sort String.le (elements (key_set b p m)).
(** A page of at most [n] of the keys; the token of the next one stands for the
    last key that was given. *)
Definition token (k : string) : string := String "t" k.
Definition page (n : nat) (from : option string) (l : list string) : list string * option string :=
  let rest := match from with Some (String _ t) => List.filter (fun k => negb (String.leb k t)) l | _ => l end in
  (take n rest, if (length rest <=? n)%nat then None else option_map token (last (take n rest))).
(** The source of a copy is sent as [bucket/key] and read with its percent signs
    decoded; texts of letters, digits and [-_.~/] are read as they are. *)
Definition url_safe (c : ascii) : bool :=
  let n := nat_of_ascii c in
  ((48 <=? n) && (n <=? 57) || (65 <=? n) && (n <=? 90) || (97 <=? n) && (n <=? 122))%nat
  || existsb (Ascii.eqb c) ["-"; "_"; "."; "~"; "/"]%char.
Definition all_safe (s : string) : bool := forallb url_safe (list_ascii_of_string s).
Fixpoint cut_slash (s : string) : string * string :=
  match s with
  | "" => ("", "")
  | String c s' => if Ascii.eqb c "/" then ("", s') else let (a, b) := cut_slash s' in (String c a, b)
  end.
(** A part that a completion names: its number and tag. *)
Definition part_there (etag : string -> string) (ps : gmap Z string) (p : Z * string) : bool :=
  match ps !! fst p with Some d => str_eqb (snd p) (etag d) | None => false end.
Fixpoint ascending (l : list Z) : bool :=
  match l with [] => true | n :: l' => match l' with [] => true | m :: _ => (n <? m) && ascending l' end end.
Definition joined (ps : gmap Z string) (l : list (Z * string)) : string :=
  fold_right (fun p s => default "" (ps !! fst p) ++ s) "" l.

Class StoreLaws (C : Type) `{Store C} : Type := {
  objs : C -> gmap (string * string) string;
  ups : C -> gmap (string * string * string) (gmap Z string);
  etag : string -> string;
  page_size : nat;
  unescape : string -> string;
  page_pos : (0 < page_size)%nat;
  unescape_safe : forall s, all_safe s = true -> unescape s = s;
  Head_ok : forall b k c, Head b k c = Ok (bool_decide (is_Some (objs c !! (b, k))));
  Get_ok : forall b k c, Get b k c = match objs c !! (b, k) with Some d => Ok d | None => Err NoSuchKey end;
  Put_ok : forall b k t d c, k <> "" -> exists c', Put b k t d c = (Ok tt, c') /\ objs c' = <[(b, k) := d]> (objs c) /\ ups c' = ups c;
  Remove_ok : forall b k c, k <> "" -> exists c', Remove b k c = (Ok tt, c') /\ objs c' = delete (b, k) (objs c) /\ ups c' = ups c;
  Copy_ok : forall b k src d c, k <> "" -> cut_slash (unescape src) <> (b, k) -> objs c !! cut_slash (unescape src) = Some d ->
    exists c', Copy b k src c = (Ok tt, c') /\ objs c' = <[(b, k) := d]> (objs c) /\ ups c' = ups c;
  List_ok : forall b p from c, List_ b p from c = Ok (page page_size from (keys_of b p (objs c)));
  CreateUpload_ok : forall b k c, k <> "" -> exists id c', CreateUpload b k c = (Ok id, c') /\ id <> "" /\
    ups c !! (b, k, id) = None /\ ups c' = <[(b, k, id) := ∅]> (ups c) /\ objs c' = objs c;
  PutPart_ok : forall b k id n d ps c, ups c !! (b, k, id) = Some ps -> 1 <= n <= 10000 ->
    exists c', PutPart b k id n d c = (Ok (etag d), c') /\ ups c' = <[(b, k, id) := <[n := d]> ps]> (ups c) /\ objs c' = objs c;
  CompleteUpload_ok : forall b k id ps l c, ups c !! (b, k, id) = Some ps -> l <> [] ->
    ascending (map fst l) = true -> forallb (part_there etag ps) l = true ->
    exists c', CompleteUpload b k id l c = (Ok tt, c') /\ objs c' = <[(b, k) := joined ps l]> (objs c) /\ ups c' = delete (b, k, id) (ups c);
  AbortUpload_ok : forall b k id ps c, ups c !! (b, k, id) = Some ps ->
    exists c', AbortUpload b k id c = (Ok tt, c') /\ objs c' = objs c /\ ups c' = delete (b, k, id) (ups c);
}.

(** * Lists of keys *)
Lemma key_set_elem b p m k : k ∈ key_set b p m <-> is_Some (m !! (b, k)) /\ has_prefix p k = true.
Proof.
  unfold key_set. rewrite elem_of_map. split.
  - intros ([b' k'] & -> & Hx). apply elem_of_filter in Hx as [[Hb Hp] Hd]. cbn in *. subst b'. by apply elem_of_dom in Hd.
  - intros [Hk Hp]. exists (b, k). split; [done|]. apply elem_of_filter. by rewrite elem_of_dom.
Qed.
Lemma keys_of_elem b p m k : k ∈ keys_of b p m <-> is_Some (m !! (b, k)) /\ has_prefix p k = true.
Proof. unfold keys_of. by rewrite merge_sort_Permutation, elem_of_elements, key_set_elem. Qed.
Lemma keys_of_nodup b p m : NoDup (keys_of b p m).
Proof. unfold keys_of. rewrite merge_sort_Permutation. apply NoDup_elements. Qed.
Lemma keys_of_sorted b p m : StronglySorted String.le (keys_of b p m).
Proof. apply Sorted_StronglySorted; [apply _|]. apply (Sorted_merge_sort String.le). Qed.
(** The list depends on the presence of the keys with the prefix only. *)
Lemma keys_of_ext b p m m' :
  (forall k, has_prefix p k = true -> (is_Some (m !! (b, k)) <-> is_Some (m' !! (b, k)))) -> keys_of b p m = keys_of b p m'.
Proof.
  intros Hm. unfold keys_of. f_equal. f_equal. apply leibniz_equiv. intros k. rewrite !key_set_elem. naive_solver.
Qed.
Lemma cut_source b k : str_mem "/" b = false -> cut_slash (b ++ "/" ++ k) = (b, k).
Proof.
  induction b as [|c b IH]; [done|]. change ((String c b ++ "/" ++ k)) with (String c (b ++ "/" ++ k)). cbn [str_mem cut_slash].
  intros [Hc Hb]%orb_false_iff. rewrite Hc, (IH Hb). done.
Qed.
Lemma all_safe_app a b : all_safe (a ++ b) = all_safe a && all_safe b.
Proof.
  unfold all_safe. induction a as [|c a IH]; [done|]. change (String c a ++ b) with (String c (a ++ b)). cbn [list_ascii_of_string forallb].
  by rewrite IH, andb_assoc.
Qed.
(** Between the pages nothing is lost and nothing comes twice. *)
Lemma after_last a b t : StronglySorted String.le (a ++ b) -> NoDup (a ++ b) -> last a = Some t ->
  List.filter (fun k => negb (String.leb k t)) (a ++ b)%list = b.
Proof.
  intros Hs Hn Ht. apply last_Some in Ht as [a' ->]. rewrite <- app_assoc in *. cbn [app] in *.
  induction a' as [|x a' IH]; cbn [app List.filter] in *.
  - apply StronglySorted_inv in Hs as [_ Hs]. apply NoDup_cons in Hn as [Ht _].
    assert (String.leb t t = true) as -> by (by destruct (String.leb_total t t)). cbn. induction b as [|y b IHb]; [done|].
    apply Forall_cons in Hs as [Hy Hs]. cbn. rewrite not_elem_of_cons in Ht. destruct Ht as [Hne Ht].
    destruct (String.leb y t) eqn:E; cbn; [|f_equal; by apply IHb].
    destruct Hne. apply String.leb_antisym; [by apply Is_true_true in Hy|done].
  - apply StronglySorted_inv in Hs as [Hs Hx]. apply NoDup_cons in Hn as [_ Hn]. rewrite Forall_forall in Hx.
    specialize (Hx t ltac:(set_solver)). apply Is_true_true in Hx. rewrite Hx. cbn. by apply IH.
Qed.

(** * The state of a driver: the service, and the local disk it uploads from *)
Record Remote (C : Type) : Type := mkRemote { store : C; disk : FS }.
Arguments mkRemote {C} store disk.
Arguments store {C} r.
Arguments disk {C} r.
Section Calls.
Context `{Env} {C : Type} `{Store C}.
Definition call {A} (f : C -> Res A * C) : M (Remote C) A :=
  gextr (fun s => let (r, c) := f s.(store) in (r, mkRemote c s.(disk))).
Definition ask {A} (f : C -> Res A) : M (Remote C) A := call (fun c => (f c, c)).
Definition on_disk {A} (f : FS -> Res A) : M (Remote C) A := gextr (fun s => (f s.(disk), s)).
Lemma run_call {A} (f : C -> Res A * C) w : env_fault (calls w) = None ->
  call f w = (fst (f (store (st w))), mkWorld (S (calls w)) (mkRemote (snd (f (store (st w)))) (disk (st w)))).
Proof. intros Hf. unfold call. rewrite gextr_ok by done. by destruct (f _). Qed.
Lemma run_ask {A} (f : C -> Res A) w : env_fault (calls w) = None -> ask f w = (f (store (st w)), mkWorld (S (calls w)) (st w)).
Proof. intros Hf. unfold ask. rewrite run_call by done. cbn. by destruct (st w). Qed.
Lemma run_disk {A} (f : FS -> Res A) w : env_fault (calls w) = None -> on_disk f w = (f (disk (st w)), mkWorld (S (calls w)) (st w)).
Proof. intros Hf. unfold on_disk. by rewrite gextr_ok. Qed.
(** The contents of a bucket by key. *)
Definition bucket_of `{!StoreLaws C} (b : string) (c : C) (k : string) : option string := objs c !! (b, k).
End Calls.

(** * Going through the pages of a listing

    A folder of the storage is its prefix: both drivers copy it key by key. *)
Section Paging.
Context `{Env} {C : Type} `{StoreLaws C}.
Abbreviation St := (Remote C).
Implicit Types w : World St.
Lemma page_split n from l ks next : (0 < n)%nat -> page n from l = (ks, next) ->
  forall a r, l = (a ++ r)%list -> StronglySorted String.le l -> NoDup l -> from = option_map token (last a) ->
  exists r', r = (ks ++ r')%list /\ next = (if bool_decide (r' = []) then None else option_map token (last (a ++ ks)%list)) /\ (r = [] \/ ks <> []).
Proof.
  intros Hn Hp a r -> Hs Hd ->. unfold page in Hp. replace (match option_map token (last a) with Some (String _ t) => _ | _ => _ end) with r in Hp.
  - injection Hp as <- <-. exists (drop n r). split; [by rewrite take_drop|]. split.
    + destruct (Nat.leb_spec (length r) n) as [Hle|Hgt].
      * by rewrite drop_ge, bool_decide_eq_true_2.
      * rewrite bool_decide_eq_false_2; [|intros E; apply (f_equal length) in E; rewrite length_drop in E; cbn in E; lia].
        f_equal. rewrite last_app. destruct (last (take n r)) eqn:E; [done|]. apply last_None in E. apply (f_equal length) in E.
        rewrite length_take in E. cbn in E. lia.
    + destruct r as [|x r]; [by left|right]. destruct n; [lia|done].
  - destruct (last a) as [t|] eqn:E; cbn [option_map token].
    + symmetry. by apply (after_last a r t).
    + apply last_None in E. by subst a.
Qed.

(** [false]: the fuel was too little. *)
Fixpoint each_page (fuel : nat) (list_page : option string -> M St (list string * option string)) (body : string -> M St unit)
    (from : option string) : M St bool :=
  match fuel with
  | O => gret false
  | S fuel' =>
      let! res := list_page from in
      gfor (fst res) body ;;;
      match snd res with
      | Some (String _ _ as t) => each_page fuel' list_page body (Some t)
      | _ => gret true
      end
  end.

Section Copying.
Variables (b src : string) (dst : string -> string) (skip : string -> bool) (good : string -> Prop) (body : string -> M St unit)
  (list_page : option string -> M St (list string * option string)).
(** One key after the other. *)
Definition copy_key (m : gmap (string * string) string) (k : string) : gmap (string * string) string :=
  if skip k then m else <[(b, dst k) := default "" (m !! (b, k))]> m.
Definition copied (ks : list string) (m : gmap (string * string) string) : gmap (string * string) string := fold_left copy_key ks m.
(** A key whose destination is outside of the source. *)
Definition copyable (k : string) : Prop := good k /\ dst k <> "" /\ has_prefix src (dst k) = false.
Hypothesis list_page_ok : forall from w, no_fault_from (calls w) ->
  list_page from w = (Ok (page page_size from (keys_of b src (objs (store (st w))))), mkWorld (S (calls w)) (st w)).
Hypothesis body_ok : forall k d w, no_fault_from (calls w) -> copyable k -> has_prefix src k = true -> objs (store (st w)) !! (b, k) = Some d ->
  exists w1, body k w = (Ok tt, w1) /\ (calls w <= calls w1)%nat /\
    objs (store (st w1)) = copy_key (objs (store (st w))) k /\ disk (st w1) = disk (st w).
Lemma copy_key_src m k x : copyable k -> has_prefix src x = true -> copy_key m k !! (b, x) = m !! (b, x).
Proof.
  intros (_ & _ & Hp) Hx. unfold copy_key. destruct (skip _); [done|]. rewrite lookup_insert_ne; [done|]. intros [= E]. rewrite E in Hp. congruence.
Qed.
Lemma copied_src ks x : Forall copyable ks -> has_prefix src x = true -> forall m, copied ks m !! (b, x) = m !! (b, x).
Proof. intros Hks Hx. unfold copied. induction Hks as [|k ks Hk Hks IH]; intros m; [done|]. cbn [fold_left]. by rewrite IH, copy_key_src. Qed.
Lemma copied_keys ks m : Forall copyable ks -> keys_of b src (copied ks m) = keys_of b src m.
Proof. intros Hks. apply keys_of_ext. intros k Hk. by rewrite copied_src. Qed.

Lemma copy_page ks : forall w, no_fault_from (calls w) -> Forall copyable ks ->
  Forall (fun k => has_prefix src k = true /\ is_Some (objs (store (st w)) !! (b, k))) ks ->
  exists w', gfor ks body w = (Ok tt, w') /\ (calls w <= calls w')%nat /\
    objs (store (st w')) = copied ks (objs (store (st w))) /\ disk (st w') = disk (st w).
Proof.
  induction ks as [|k ks IH]; intros w Hf Hc Hin; [by exists w|]. apply Forall_cons in Hc as [Hk Hc], Hin as [[Hp [d Hd]] Hin].
  destruct (body_ok k d w Hf Hk Hp Hd) as (w1 & E1 & Hc1 & Ho1 & Hd1). cbn [gfor]. rewrite gbind_eq, E1.
  destruct (IH w1) as (w2 & E2 & Hc2 & Ho2 & Hd2); [by eapply no_fault_le|done| |].
  { eapply Forall_impl; [exact Hin|]. intros x [Hx Hs]. split; [done|]. rewrite Ho1. by rewrite copy_key_src. }
  exists w2. split; [done|]. split; [lia|]. split; [by rewrite Ho2, Ho1|congruence].
Qed.
Lemma copy_pages_run fuel : forall a r w,
  no_fault_from (calls w) -> (length r < fuel)%nat ->
  keys_of b src (objs (store (st w))) = (a ++ r)%list -> Forall copyable (a ++ r) ->
  exists w', each_page fuel list_page body (option_map token (last a)) w = (Ok true, w') /\
    objs (store (st w')) = copied r (objs (store (st w))) /\ disk (st w') = disk (st w).
Proof.
  induction fuel as [|fuel IH]; intros a r w Hf Hlen Hk Hc; [lia|]. cbn [each_page]. rewrite gbind_eq, list_page_ok by done.
  destruct (page page_size _ _) as [ks next] eqn:Hp. cbn [fst snd].
  destruct (page_split _ _ _ _ _ page_pos Hp a r Hk) as (r' & -> & -> & Hne); [apply keys_of_sorted|apply keys_of_nodup|done|].
  rewrite app_assoc in Hk. rewrite gbind_eq.
  destruct (copy_page ks (mkWorld (S (calls w)) (st w))) as (w1 & E1 & Hc1 & Ho1 & Hd1).
  { cbn. eapply no_fault_le; [|exact Hf]. lia. }
  { rewrite !Forall_app in Hc. naive_solver. }
  { apply Forall_forall. intros k Hin. cbn. assert (k ∈ keys_of b src (objs (store (st w)))) as [? ?]%keys_of_elem; [|done].
    rewrite Hk. set_solver. }
  cbn in Hc1, Ho1, Hd1. rewrite E1. destruct (bool_decide_reflect (r' = [])) as [->|Hr'].
  - exists w1. rewrite app_nil_r. done.
  - destruct (last (a ++ ks)%list) as [t|] eqn:Et.
    2: { apply last_None in Et. apply app_eq_nil in Et as [-> ->]. destruct Hne as [[_ ->]%app_eq_nil|]; done. }
    destruct (IH (a ++ ks)%list r' w1) as (w2 & E2 & Ho2 & Hd2); [eapply no_fault_le; [|exact Hf]; lia| | | |].
    + rewrite length_app in Hlen. destruct ks; [destruct Hne as [[_ ->]%app_eq_nil|]; done|]. cbn in Hlen. lia.
    + rewrite Ho1, copied_keys; [done|]. rewrite !Forall_app in Hc. naive_solver.
    + by rewrite <- app_assoc.
    + exists w2. rewrite Et in E2. split; [exact E2|]. rewrite Ho2, Ho1, Hd2, Hd1. split; [|done]. unfold copied. by rewrite fold_left_app.
Qed.
Lemma copied_other ks b' x m : (forall k, k ∈ ks -> skip k = false -> (b', x) <> (b, dst k)) -> copied ks m !! (b', x) = m !! (b', x).
Proof.
  unfold copied. revert m. induction ks as [|k ks IH]; intros m Hx; [done|]. cbn [fold_left]. rewrite IH by set_solver. unfold copy_key.
  destruct (skip k) eqn:E; [done|]. rewrite lookup_insert_ne; [done|]. intros E2. by apply (Hx k); [left|..].
Qed.
Lemma copied_dst ks k m : NoDup ks -> Forall copyable ks -> Forall (fun k => has_prefix src k = true /\ is_Some (m !! (b, k))) ks ->
  (forall k', k' ∈ ks -> dst k' = dst k -> k' = k) -> k ∈ ks -> skip k = false -> copied ks m !! (b, dst k) = m !! (b, k).
Proof.
  intros Hn Hc Hin Hinj Hk Hd. apply list_elem_of_split in Hk as (l1 & l2 & ->).
  apply NoDup_app in Hn as (_ & _ & [H2 _]%NoDup_cons). apply Forall_app in Hc as [Hc1 Hc2]. apply Forall_cons in Hc2 as [Hck Hc2].
  apply Forall_app in Hin as [_ Hin]. apply Forall_cons in Hin as [[Hp [d Hdk]] _].
  unfold copied. rewrite fold_left_app. cbn [fold_left]. fold (copied l1 m). fold (copied l2 (copy_key (copied l1 m) k)).
  rewrite copied_other.
  - unfold copy_key. rewrite Hd. rewrite lookup_insert_eq, copied_src, Hdk by done. done.
  - intros k' Hk' _ [= E]. destruct H2. rewrite <- (Hinj k'); [done|set_solver|done].
Qed.
(** All pages are copied: every key that is not skipped is at its destination,
    and everything else is as it was. *)
Lemma folder_copied fuel w :
  let m := objs (store (st w)) in let l := keys_of b src m in
  no_fault_from (calls w) -> Forall copyable l -> (length l < fuel)%nat -> (forall k k', k ∈ l -> k' ∈ l -> dst k = dst k' -> k = k') ->
  exists w', each_page fuel list_page body None w = (Ok true, w') /\ disk (st w') = disk (st w) /\
    (forall k, k ∈ l -> skip k = false -> objs (store (st w')) !! (b, dst k) = m !! (b, k)) /\
    (forall b' x, (b' <> b \/ forall k, k ∈ l -> skip k = false -> dst k <> x) -> objs (store (st w')) !! (b', x) = m !! (b', x)).
Proof.
  intros m l Hf Hc Hlen Hinj. destruct (copy_pages_run fuel [] l w Hf Hlen eq_refl Hc) as (w' & E & Ho & Hdk).
  exists w'. split; [exact E|]. split; [done|]. rewrite Ho. fold m. split.
  - intros k Hk Hs. apply copied_dst; try done; [apply keys_of_nodup| |].
    + apply Forall_forall. intros x Hx. by apply keys_of_elem in Hx as [? ?].
    + intros k' Hk'. by apply Hinj.
  - intros b' x Hx. apply copied_other. intros k Hk Hne E2. injection E2 as E2 E3. destruct Hx as [Hx|Hx]; [done|by apply (Hx k)].
Qed.
End Copying.
End Paging.

(** * The contract of a driver

    Saving, reading and deleting by path behave as on a map from paths to
    contents; the empty path is refused. *)
Inductive FileOp : Type := OSave (path data : string) | ORead (path : string) | ODelete (path : string).
Record Driver (S : Type) : Type := mkDriver {
  d_save : FileInfo -> option string -> M S FileInfo; d_read : string -> M S string; d_delete : string -> M S unit
}.
Arguments mkDriver {S} d_save d_read d_delete.
Arguments d_save {S} d.
Arguments d_read {S} d.
Arguments d_delete {S} d.
(** The record of a file with its size known. *)
Definition named (path data : string) : FileInfo := FI.set_saved path (Z.of_nat (String.length data)) FI.zero.
Definition run_op {S} (d : Driver S) (o : FileOp) : M S (option string) :=
  match o with
  | OSave p data => let! _ := d.(d_save) (named p data) (Some data) in gret None
  | ORead p => let! data := d.(d_read) p in gret (Some data)
  | ODelete p => d.(d_delete) p ;;; gret None
  end.
Fixpoint run_ops {S} (d : Driver S) (l : list FileOp) : M S (list (Res (option string))) :=
  match l with [] => gret [] | o :: l' => let! r := gtry (run_op d o) in let! rs := run_ops d l' in gret (r :: rs) end.
Definition FileMap : Type := string -> option string.
Definition upd (p : string) (x : option string) (m : FileMap) : FileMap := fun q => if decide (q = p) then x else m q.
(** What is answered ([None]: an error) and the map after it. *)
Definition spec_op (o : FileOp) (m : FileMap) : option (option string) * FileMap :=
  match o with
  | OSave p data => if str_eqb p "" then (None, m) else (Some None, upd p (Some data) m)
  | ORead p => if str_eqb p "" then (None, m) else (option_map Some (m p), m)
  | ODelete p => if str_eqb p "" then (None, m) else (Some None, upd p None m)
  end.
Fixpoint spec_ops (l : list FileOp) (m : FileMap) : list (option (option string)) * FileMap :=
  match l with [] => ([], m) | o :: l' => let '(a, m1) := spec_op o m in let '(rs, m2) := spec_ops l' m1 in (a :: rs, m2) end.
Definition answer {A} (r : Res A) : option A := match r with Ok a => Some a | Err _ => None end.

Definition path_of (o : FileOp) : string := match o with OSave p _ => p | ORead p => p | ODelete p => p end.
(** For operations that the service takes, [ok]. *)
Class KeepsFiles `{Env} {S} (d : Driver S) (ok : FileOp -> Prop) (view : S -> FileMap) : Prop := {
  op_refines : forall o w r w', no_fault_from (calls w) -> ok o -> run_op d o w = (r, w') ->
    (calls w <= calls w')%nat /\ answer r = fst (spec_op o (view (st w))) /\ forall p, view (st w') p = snd (spec_op o (view (st w))) p
}.
Lemma spec_op_ext o m m' : (forall p, m p = m' p) -> fst (spec_op o m) = fst (spec_op o m') /\ forall p, snd (spec_op o m) p = snd (spec_op o m') p.
Proof.
  intros Hm. destruct o as [p data|p|p]; unfold spec_op; destruct (str_eqb p ""); cbn; split; try done; try (by rewrite Hm); intros q;
    unfold upd; by rewrite ?Hm.
Qed.
Lemma spec_ops_ext l : forall m m', (forall p, m p = m' p) -> fst (spec_ops l m) = fst (spec_ops l m') /\ forall p, snd (spec_ops l m) p = snd (spec_ops l m') p.
Proof.
  induction l as [|o l IH]; intros m m' Hm; [done|]. cbn. destruct (spec_op_ext o m m' Hm) as [H1 H2].
  destruct (spec_op o m) as [a m1], (spec_op o m') as [a' m1']. cbn in *. subst a'. destruct (IH m1 m1' H2) as [H3 H4].
  destruct (spec_ops l m1), (spec_ops l m1'). cbn in *. subst. done.
Qed.
(** The contract for one operation gives it for any sequence. *)
Lemma run_ops_refine `{Env} {S} (d : Driver S) ok view `{!KeepsFiles d ok view} l : forall w, no_fault_from (calls w) -> Forall ok l ->
  exists rs w', run_ops d l w = (Ok rs, w') /\ map answer rs = fst (spec_ops l (view (st w))) /\
    forall p, view (st w') p = snd (spec_ops l (view (st w))) p.
Proof.
  induction l as [|o l IH]; intros w Hf Hl; [by exists [], w|]. apply Forall_cons in Hl as [Ho Hl]. cbn [run_ops spec_ops]. rewrite gbind_eq. unfold gtry.
  destruct (run_op d o w) as [r w1] eqn:E. destruct (op_refines o w r w1 Hf Ho E) as (Hc & Ha & Hv).
  destruct (IH w1 (no_fault_le _ _ Hc Hf) Hl) as (rs & w2 & E2 & Ha2 & Hv2).
  rewrite gbind_eq, E2. exists (r :: rs), w2. split; [done|]. destruct (spec_op o (view (st w))) as [a m1]. cbn [fst snd] in *.
  destruct (spec_ops_ext l _ _ Hv) as [H1 H2]. destruct (spec_ops l m1) as [as' m2]. cbn [fst snd map] in *.
  split; [by rewrite Ha, Ha2, H1|]. intros p. by rewrite Hv2, H2.
Qed.

(** * A service in memory that has the laws *)
Module MemStore.
Record Mem : Type := mkMem { m_objs : gmap (string * string) string; m_ups : gmap (string * string * string) (gmap Z string) }.
Definition NoSuchUpload : error := ErrVar "NoSuchUpload".
(** Longer than every id in use. *)
Definition all_ids (l : list (string * string * string * gmap Z string)) : string := fold_right (fun e s => snd (fst e) ++ s) "u" l.
Definition new_id (c : Mem) : string := all_ids (map_to_list c.(m_ups)).
Definition with_part (b k id : string) (f : gmap Z string -> Res unit * Mem) (c : Mem) : Res unit * Mem :=
  match c.(m_ups) !! (b, k, id) with Some ps => f ps | None => (Err NoSuchUpload, c) end.
(** [%2F] and the like. *)
Definition hex_val (c : ascii) : option nat :=
  let n := nat_of_ascii c in
  if ((48 <=? n) && (n <=? 57))%nat then Some (n - 48)%nat
  else if ((65 <=? n) && (n <=? 70))%nat then Some (n - 55)%nat
  else if ((97 <=? n) && (n <=? 102))%nat then Some (n - 87)%nat else None.
Fixpoint decode (s : string) : string :=
  match s with
  | String "%" (String a (String b s') as t) =>
      match hex_val a, hex_val b with Some x, Some y => String (ascii_of_nat (16 * x + y)) (decode s') | _, _ => String "%" (decode t) end
  | String c s' => String c (decode s')
  | "" => ""
  end.
#[global] Instance mem_store : Store Mem := {
  HeadBucket b c := Ok true;
  Head b k c := Ok (bool_decide (is_Some (c.(m_objs) !! (b, k))));
  Get b k c := match c.(m_objs) !! (b, k) with Some d => Ok d | None => Err NoSuchKey end;
  Put b k t d c := (Ok tt, mkMem (<[(b, k) := d]> c.(m_objs)) c.(m_ups));
  Remove b k c := (Ok tt, mkMem (delete (b, k) c.(m_objs)) c.(m_ups));
  Copy b k src c := match c.(m_objs) !! cut_slash (decode src) with
                    | Some d => if bool_decide (cut_slash (decode src) = (b, k)) then (Err (ErrVar "InvalidRequest"), c)
                                else (Ok tt, mkMem (<[(b, k) := d]> c.(m_objs)) c.(m_ups))
                    | None => (Err NoSuchKey, c)
                    end;
  List_ b p from c := Ok (page 2 from (keys_of b p c.(m_objs)));
  CreateUpload b k c := (Ok (new_id c), mkMem c.(m_objs) (<[(b, k, new_id c) := ∅]> c.(m_ups)));
  PutPart b k id n d c :=
    match c.(m_ups) !! (b, k, id) with
    | Some ps => if (1 <=? n) && (n <=? 10000) then (Ok ("etag-" ++ d), mkMem c.(m_objs) (<[(b, k, id) := <[n := d]> ps]> c.(m_ups)))
                 else (Err (ErrVar "InvalidArgument"), c)
    | None => (Err NoSuchUpload, c)
    end;
  CompleteUpload b k id l c :=
    with_part b k id (fun ps =>
      if ascending (map fst l) && forallb (part_there (fun d => "etag-" ++ d) ps) l
      then (Ok tt, mkMem (<[(b, k) := joined ps l]> c.(m_objs)) (delete (b, k, id) c.(m_ups)))
      else (Err (ErrVar "InvalidPart"), c)) c;
  AbortUpload b k id c := with_part b k id (fun _ => (Ok tt, mkMem c.(m_objs) (delete (b, k, id) c.(m_ups)))) c;
}.
Lemma decode_safe s : all_safe s = true -> decode s = s.
Proof.
  unfold all_safe. induction s as [|c s IH]; [done|]. cbn [list_ascii_of_string forallb]. intros [Hc Hs]%andb_true_iff. specialize (IH Hs).
  destruct (Ascii.eqb_spec c "%") as [->|Hne]; [done|]. assert (H : decode (String c s) = String c (decode s)); [|by rewrite H, IH].
  destruct c as [[] [] [] [] [] [] [] []]; done.
Qed.
Lemma all_ids_pos l : (0 < String.length (all_ids l))%nat.
Proof. induction l as [|z l IH]; [cbn; lia|]. unfold all_ids in *. cbn [fold_right]. rewrite str_length_app. lia. Qed.
Lemma new_upload_fresh (c : Mem) b k : c.(m_ups) !! (b, k, new_id c) = None.
Proof.
  destruct (c.(m_ups) !! (b, k, new_id c)) as [ps|] eqn:E; [|done]. exfalso. apply elem_of_map_to_list in E. unfold new_id in E.
  set (l := map_to_list c.(m_ups)) in *. assert (H : forall l' x, x ∈ l' -> (String.length (snd (fst x)) < String.length (all_ids l'))%nat).
  { clear. intros l' x. unfold all_ids. induction l' as [|y l' IH]; [set_solver|]. intros Hx. cbn [fold_right]. rewrite str_length_app.
    pose proof (all_ids_pos l') as Hp. unfold all_ids in Hp. apply elem_of_cons in Hx as [->|Hx]; [lia|]. specialize (IH Hx). lia. }
  specialize (H l _ E). unfold all_ids in H. cbn [fst snd] in H. lia.
Qed.
#[global] Instance mem_laws : StoreLaws Mem.
Proof.
  refine (@Build_StoreLaws Mem mem_store m_objs m_ups (fun d => "etag-" ++ d) 2%nat decode _ _ _ _ _ _ _ _ _ _ _ _).
  - lia.
  - apply decode_safe.
  - done.
  - done.
  - intros b k t d c _. by eexists.
  - intros b k c _. by eexists.
  - intros b k src d c _ Hne Hd. cbn. rewrite Hd, bool_decide_eq_false_2 by done. by eexists.
  - done.
  - intros b k c _. do 2 eexists. split; [done|]. split; [|split; [apply new_upload_fresh|done]].
    intros E. pose proof (all_ids_pos (map_to_list c.(m_ups))) as Hp. fold (new_id c) in Hp. rewrite E in Hp. cbn in Hp. lia.
  - intros b k id n d ps c Hps Hn. cbn. rewrite Hps, (proj2 (Z.leb_le 1 n)), (proj2 (Z.leb_le n 10000)) by lia. by eexists.
  - intros b k id ps l c Hps _ Ha Hp. cbn. unfold with_part. rewrite Hps, Ha, Hp. by eexists.
  - intros b k id ps c Hps. cbn. unfold with_part. rewrite Hps. by eexists.
Defined.
End MemStore.
