(* ===== verification/S3Fs.v ===== *)
(** [src/storage/s3.go] (and its copy [src/storage/v2/s3/storer.go]): the driver
    for storages with the interface of Amazon S3, on [ObjectStore].  A pointer
    is an [option], [None] being nil; a reader is its data. *)
From S2P Require Import Prelude Strings FileInfo Files Upload ObjectStore.
#[local] Open Scope string_scope.
#[local] Open Scope Z_scope.

Record StorageOption : Type := mkOption { OptPurpose : string; PresignedTimeout : Z }.
Record S3StorageConfig : Type := mkS3Config {
  EndPoint : string; AccessKeyID : string; SecretAccessKey : string; S3Region : string; S3Bucket : string; UsePathStyle : bool
}.
Record S3Fs : Type := mkS3Fs { opt : StorageOption; s3fsCfg : S3StorageConfig }.
Definition bucket (s3fs : S3Fs) : string := s3fs.(s3fsCfg).(S3Bucket).

Record CreateMultipartUploadInput : Type := mkCreateIn { c_Bucket : option string; c_StoragePath : option string; c_ContentType : option string }.
Record GeneratePresignedURLInput : Type := mkPresignIn {
  g_Method : option string; g_Bucket : option string; g_StoragePath : option string; g_UploadID : option string; g_PartNumber : option Z;
  g_ContentType : option string; g_ContentLength : option Z; g_ContentMD5 : option string
}.
Record UploadPartInput : Type := mkPartIn {
  p_Bucket : option string; p_StoragePath : option string; p_UploadID : option string; p_PartNumber : option Z; p_Data : option string
}.
(** The parts by number and tag, both pointers. *)
Record CompleteMultipartUploadInput : Type := mkCompleteIn {
  m_Bucket : option string; m_StoragePath : option string; m_UploadID : option string; m_Parts : option (list (option Z * option string))
}.
Record AbortMultipartUploadInput : Type := mkAbortIn { a_Bucket : option string; a_StoragePath : option string; a_UploadID : option string }.

(** What is signed. *)
Inductive Presign : Type :=
  | PresignGetObject (bucket key : string)
  | PresignPutObject (bucket key : string) (contentType : option string)
  | PresignUploadPart (bucket key uploadId : string) (partNumber : Z) (md5 : option string) (length : option Z).
(** [int32(n)]. *)
Definition int32 (n : Z) : Z := (n + 2147483648) mod 4294967296 - 2147483648.

(** [filepath.Rel]: elements that the cleaned paths share are left out. *)
Fixpoint strip_common (a b : list string) : list string * list string :=
  match a, b with
  | x :: a', y :: b' => if str_eqb x y then strip_common a' b' else (a, b)
  | _, _ => (a, b)
  end.
Definition path_elems (s : string) : list string := List.filter (fun c => negb (str_eqb c "" || str_eqb c ".")) (elems (Clean s)).
Definition Rel (basepath targpath : string) : Res string :=
  if negb (Bool.eqb (rooted basepath) (rooted targpath)) then Err (ErrNew ("Rel: can't make " ++ targpath ++ " relative to " ++ basepath))
  else let (b, t) := strip_common (path_elems basepath) (path_elems targpath) in
       if existsb (str_eqb "..") b then Err (ErrNew ("Rel: can't make " ++ targpath ++ " relative to " ++ basepath))
       else match (map (fun _ => "..") b ++ t)%list with [] => Ok "." | l => Ok (join_elems l) end.

Section Driver.
Context `{Env} {C : Type} `{Store C}.
(** The table of [mime.TypeByExtension], the functions of [net/url] (scheme and
    host of an address), the signing of the client, the configuration of the
    client and the working folder of the process. *)
Context (mime : string -> string) (url_Parse : string -> option (string * string)) (url_JoinPath : string -> list string -> option string)
  (presign : Presign -> Z -> Res string) (LoadDefaultConfig : option error) (cwd : path).
Abbreviation St := (Remote C).

Definition NewS3Fs (cfg : S3StorageConfig) (o : StorageOption) : M St S3Fs :=
  if str_eqb cfg.(S3Bucket) "" then graise (ErrNew "configuration bucket error")
  else match LoadDefaultConfig with
       | Some e => graise e
       | None => ask (HeadBucket cfg.(S3Bucket)) ;;; gret (mkS3Fs o cfg)
       end.

Section Methods.
Variable s3fs : S3Fs.
Definition GetPublicURL (storagePath : string) (_ : bool) : string :=
  if str_eqb storagePath "" then ""
  else match url_Parse s3fs.(s3fsCfg).(EndPoint) with
       | None => storagePath
       | Some (scheme, host) =>
           if s3fs.(s3fsCfg).(UsePathStyle)
           then default storagePath (url_JoinPath (scheme ++ "://" ++ host) [bucket s3fs; storagePath])
           else default storagePath (url_JoinPath (scheme ++ "://" ++ bucket s3fs ++ "." ++ host) [storagePath])
       end.
Definition Save (fi : FileInfo) (r : option string) : M St FileInfo :=
  if str_eqb fi.(FI.StoragePath) "" then graise (ErrNew "storage path is empty")
  else match r with
       | None => graise (ErrNew "reader is empty")
       | Some data =>
           call (Put (bucket s3fs) fi.(FI.StoragePath) (mime fi.(FI.FileExt)) data) ;;;
           gret (FI.set_address fi.(FI.Hash) (GetPublicURL fi.(FI.StoragePath) false) fi)
       end.
(** Only the methods are told apart: the rest is the client's. *)
Definition only (method : string) : error := ErrNew ("only GET and PUT are allowed,now: " ++ method).
Definition GetPresignedURL (method storagePath : string) : Res string :=
  if str_eqb method "GET" then presign (PresignGetObject (bucket s3fs) storagePath) s3fs.(opt).(PresignedTimeout)
  else if str_eqb method "PUT" then presign (PresignPutObject (bucket s3fs) storagePath None) s3fs.(opt).(PresignedTimeout)
  else Err (only method).
Definition ReadFile (storagePath : string) : M St string :=
  if str_eqb storagePath "" then graise (ErrNew "storage path is empty") else ask (Get (bucket s3fs) storagePath).
Definition DeleteFile (storagePath : string) : M St unit :=
  if str_eqb storagePath "" then graise (ErrNew "storage path is empty") else call (Remove (bucket s3fs) storagePath).

(** ** Copying *)
Definition isDirectory (storagePath : string) : M St bool := let! there := ask (Head (bucket s3fs) storagePath) in gret (negb there).
Definition copyObject (sourceKey destKey : string) : M St unit :=
  if str_eqb sourceKey destKey then gret tt
  else gwrap ("copy object " ++ sourceKey ++ " to " ++ destKey ++ " error: ")
         (call (Copy (bucket s3fs) destKey (bucket s3fs ++ "/" ++ sourceKey))).
Definition destKey (sourcePrefix destPrefix key : string) : string := Join [destPrefix; trim_prefix sourcePrefix key].
Definition copy_to (sourcePrefix destPrefix key : string) : M St unit :=
  let d := destKey sourcePrefix destPrefix key in
  if str_eqb d destPrefix then gret tt else copyObject key d.
Definition copyDirectory (fuel : nat) (sourcePrefix destPrefix : string) : M St bool :=
  each_page fuel (fun from => gwrap "list objects error: " (ask (List_ (bucket s3fs) sourcePrefix from))) (copy_to sourcePrefix destPrefix) None.
Definition CopyDir (fuel : nat) (storagePath dest : string) : M St bool :=
  if str_eqb storagePath "" then graise (ErrNew "source storage path is empty")
  else if str_eqb dest "" then graise (ErrNew "destination storage path is empty")
  else let! isDir := gwrap "check source path error: " (isDirectory storagePath) in
       if isDir : bool then copyDirectory fuel storagePath dest
       else copyObject storagePath dest ;;; gret true.

(** ** Uploading a folder *)
(** The function that [filepath.WalkDir] calls for each file. *)
Definition upload_one (localDirPath destDir filePath : string) : M St (list string) :=
  match Rel localDirPath filePath with
  | Err e => graise (ErrWrap ("failed to get relative path for " ++ filePath ++ ": ") e)
  | Ok relPath =>
      let storagePath := Join [destDir; relPath] in
      gwrap ("failed to open file " ++ filePath ++ ": ") (on_disk (open (resolve cwd filePath))) ;;;
      gwrap ("failed to upload file " ++ filePath ++ " to " ++ storagePath ++ ": ")
        (let! data := on_disk (read (resolve cwd filePath)) in
         Save (FI.mkFile 0 0 0 None 0 0 "" "" (Ext filePath) "" 0 "" "" storagePath "" 0 "" FI.notChunked) (Some data)) ;;;
      gret [storagePath]
  end.
Fixpoint each (l : list (string * bool)) (f : string * bool -> M St (option (list string))) : M St (option (list string)) :=
  match l with
  | [] => gret (Some [])
  | x :: l' => let! a := f x in
               match a with
               | None => gret None
               | Some us => let! b := each l' f in gret (option_map (app us) b)
               end
  end.
(** [None]: deeper than the fuel. *)
Fixpoint walkDir (fuel : nat) (localDirPath destDir filePath : string) (isDir : bool) : M St (option (list string)) :=
  match fuel with
  | O => gret None
  | S fuel' =>
      if isDir then
        let! es := gwrap ("error accessing path " ++ filePath ++ ": ") (on_disk (read_dir (resolve cwd filePath))) in
        each es (fun e => walkDir fuel' localDirPath destDir (Join [filePath; fst e]) (snd e))
      else let! u := upload_one localDirPath destDir filePath in gret (Some u)
  end.
Definition UploadDirectory (fuel : nat) (localDirPath destDir : string) : M St (option (list string)) :=
  if str_eqb localDirPath "" then graise (ErrNew "local directory path is empty")
  else let! isDir := gwrap ("error accessing path " ++ localDirPath ++ ": ") (on_disk (stat (resolve cwd localDirPath))) in
       walkDir fuel localDirPath destDir localDirPath isDir.

(** ** Multipart uploads *)
Definition getBucketName (b : option string) : string :=
  match b with Some n => if str_eqb n "" then bucket s3fs else n | None => bucket s3fs end.
Definition CreateMultipartUpload (inp : option CreateMultipartUploadInput) : M St string :=
  match inp with
  | Some (mkCreateIn b (Some path) _) =>
      if str_eqb path "" then graise (ErrNew "storage path is empty") else call (CreateUpload (getBucketName b) path)
  | _ => graise (ErrNew "storage path is empty")
  end.
(** A part without its number is a nil pointer. *)
Definition GeneratePresignedURL (inp : option GeneratePresignedURLInput) : Panics (Res string) :=
  match inp with
  | Some (mkPresignIn method b (Some path) uploadID partNumber contentType contentLength contentMD5) =>
      let m := default "" method in
      let t := s3fs.(opt).(PresignedTimeout) in
      if str_eqb m "GET" then Val (presign (PresignGetObject (getBucketName b) path) t)
      else if str_eqb m "PUT" then
        let id := default "" uploadID in
        if str_eqb id "" then Val (presign (PresignPutObject (getBucketName b) path contentType) t)
        else match partNumber with
             | None => Panic "invalid memory address or nil pointer dereference"
             | Some n => Val (presign (PresignUploadPart (getBucketName b) path id (int32 n) contentMD5 contentLength) t)
             end
      else Val (Err (only m))
  | _ => Val (Err (ErrNew "storagePath, uploadID or partNumber is nil"))
  end.
Definition UploadPart (inp : option UploadPartInput) : M St string :=
  match inp with
  | Some (mkPartIn b (Some path) (Some id) (Some n) data) =>
      match data with
      | None => graise (ErrNew "reader is empty")
      | Some d => call (PutPart (getBucketName b) path id (int32 n) d)
      end
  | _ => graise (ErrNew "storagePath, uploadID or partNumber is nil")
  end.
(** The service reads missing numbers and tags as zero. *)
Definition CompleteMultipartUpload (inp : option CompleteMultipartUploadInput) : M St unit :=
  match inp with
  | Some (mkCompleteIn b (Some path) (Some id) (Some parts)) =>
      call (CompleteUpload (getBucketName b) path id (map (fun p => (default 0 (fst p), default "" (snd p))) parts))
  | _ => graise (ErrNew "storagePath, uploadID or parts is nil")
  end.
Definition AbortMultipartUpload (inp : option AbortMultipartUploadInput) : M St unit :=
  match inp with
  | Some (mkAbortIn b (Some path) (Some id)) => call (AbortUpload (getBucketName b) path id)
  | _ => graise (ErrNew "storagePath or uploadID is nil")
  end.
End Methods.
End Driver.

(** * What the driver does *)
Section Laws.
Context `{Env} {C : Type} `{StoreLaws C}.
Context (mime : string -> string) (url_Parse : string -> option (string * string)) (url_JoinPath : string -> list string -> option string).
Variable s3fs : S3Fs.
Abbreviation St := (Remote C).
Implicit Types w : World St.
Definition s3_driver : Driver St :=
  mkDriver (Save mime url_Parse url_JoinPath s3fs) (ReadFile s3fs) (DeleteFile s3fs).
Definition s3_view (s : St) : FileMap := bucket_of (bucket s3fs) (store s).

Lemma s3_keeps : KeepsFiles s3_driver (fun _ => True) s3_view.
Proof.
  split. intros o w r w' Hf _ E. pose proof (no_fault_here _ Hf) as Hn. unfold run_op, s3_driver, s3_view, bucket_of in *. cbn [d_save d_read d_delete] in E.
  destruct o as [p data|p|p]; cbn [spec_op].
  - unfold Save, named in E. cbn [FI.StoragePath FI.set_saved FI.FileExt FI.Hash] in E. destruct (str_eqb p "") eqn:Ep.
    { unfold graise, gbind in E. injection E as <- <-. split; [lia|done]. }
    rewrite gbind_eq in E. rewrite gbind_eq, run_call in E by done.
    destruct (Put_ok (bucket s3fs) p (mime "") data (store (st w))) as (c' & Hp & Ho & _); [by apply String.eqb_neq in Ep|].
    cbn [FI.zero FI.FileExt] in E. rewrite Hp in E. cbn in E. injection E as <- <-. cbn [calls st store]. split; [lia|]. split; [done|].
    intros q. rewrite Ho. cbn. unfold upd. destruct (decide (q = p)) as [->|]; [by rewrite lookup_insert_eq|by rewrite lookup_insert_ne by congruence].
  - unfold ReadFile in E. destruct (str_eqb p "") eqn:Ep.
    { unfold graise, gbind in E. injection E as <- <-. split; [lia|done]. }
    rewrite gbind_eq, run_ask, Get_ok in E by done. destruct (objs (store (st w)) !! (bucket s3fs, p)) as [d|] eqn:Ed; cbn in E; injection E as <- <-;
      cbn [calls st fst snd]; (split; [lia|]); rewrite ?Ed; done.
  - unfold DeleteFile in E. destruct (str_eqb p "") eqn:Ep.
    { unfold graise, gbind in E. injection E as <- <-. split; [lia|done]. }
    rewrite gbind_eq, run_call in E by done.
    destruct (Remove_ok (bucket s3fs) p (store (st w))) as (c' & Hp & Ho & _); [by apply String.eqb_neq in Ep|].
    rewrite Hp in E. cbn in E. injection E as <- <-. cbn [calls st store]. split; [lia|]. split; [done|].
    intros q. rewrite Ho. cbn. unfold upd. destruct (decide (q = p)) as [->|]; [by rewrite lookup_delete_eq|by rewrite lookup_delete_ne by congruence].
Qed.

(** C22: the driver keeps files: any sequence of saving, reading and deleting without
    a failure of the service answers as a map from paths to contents does, the
    empty path being refused, and leaves the bucket holding that map. *)
Theorem S3_refines_file_map l (w : World St) : no_fault_from (calls w) ->
  exists rs w', run_ops s3_driver l w = (Ok rs, w') /\ map answer rs = fst (spec_ops l (s3_view (st w))) /\
    forall p, s3_view (st w') p = snd (spec_ops l (s3_view (st w))) p.
Proof. intros Hf. pose proof s3_keeps. apply (run_ops_refine s3_driver (fun _ => True) s3_view); [done|]. by apply Forall_true. Qed.

End Laws.

Section Objects.
Context `{Env} {C : Type} `{StoreLaws C}.
Variable s3fs : S3Fs.
Abbreviation St := (Remote C).
Implicit Types w : World St.
(** ** Copying a folder *)
(** A key is sent as it is. *)
Definition sent_plain (k : string) : Prop := all_safe k = true.
Abbreviation copyable_s3 src dest := (copyable src (destKey src dest) sent_plain).
Lemma s3_body_ok src dest : all_safe (bucket s3fs) = true -> str_mem "/" (bucket s3fs) = false ->
  forall k d w, no_fault_from (calls w) -> copyable_s3 src dest k -> has_prefix src k = true -> objs (store (st w)) !! (bucket s3fs, k) = Some d ->
  exists w1, copy_to s3fs src dest k w = (Ok tt, w1) /\ (calls w <= calls w1)%nat /\
    objs (store (st w1)) = copy_key (bucket s3fs) (destKey src dest) (fun k => str_eqb (destKey src dest k) dest) (objs (store (st w))) k /\
    disk (st w1) = disk (st w).
Proof.
  intros Hb1 Hb2 k d w Hf (Hs & Hne & Hout) Hp Hd. unfold copy_to, copy_key. destruct (str_eqb (destKey src dest k) dest); [by exists w|].
  unfold copyObject. destruct (str_eqb k (destKey src dest k)) eqn:E; [apply String.eqb_eq in E; congruence|].
  unfold gwrap. rewrite run_call by by apply no_fault_here.
  assert (Hcut : cut_slash (unescape (bucket s3fs ++ "/" ++ k)) = (bucket s3fs, k)).
  { rewrite unescape_safe, cut_source; [done..|]. rewrite !all_safe_app, Hs. by rewrite Hb1. }
  destruct (Copy_ok (bucket s3fs) (destKey src dest k) (bucket s3fs ++ "/" ++ k) d (store (st w)) Hne) as (c' & Hcp & Ho & _).
  { rewrite Hcut. intros [= E2]. congruence. }
  { by rewrite Hcut. }
  rewrite Hcp. eexists. split; [done|]. cbn. split; [lia|]. by rewrite Ho, Hd.
Qed.

(** Copying a folder: when no object has the name of the source and all keys
    that start with it are sent as they are and go to places of their own
    outside of it, then however many pages the listing has every object is at
    its destination with its contents, and every other object is as it was. *)
Theorem CopyDir_all_pages (src dest : string) (fuel : nat) (w : World St) :
  let b := bucket s3fs in let m := objs (store (st w)) in let dst := destKey src dest in
  no_fault_from (calls w) -> src <> "" -> dest <> "" -> all_safe b = true -> str_mem "/" b = false -> m !! (b, src) = None ->
  Forall (copyable_s3 src dest) (keys_of b src m) -> (length (keys_of b src m) < fuel)%nat ->
  (forall k k', k ∈ keys_of b src m -> k' ∈ keys_of b src m -> dst k = dst k' -> k = k') ->
  exists w', CopyDir s3fs fuel src dest w = (Ok true, w') /\ disk (st w') = disk (st w) /\
    (forall k, k ∈ keys_of b src m -> dst k <> dest -> objs (store (st w')) !! (b, dst k) = m !! (b, k)) /\
    (forall b' x, (b' <> b \/ forall k, k ∈ keys_of b src m -> dst k <> dest -> dst k <> x) -> objs (store (st w')) !! (b', x) = m !! (b', x)).
Proof.
  intros b m dst Hf Hs Hd Hb1 Hb2 Hsrc Hc Hlen Hinj. unfold CopyDir, str_eqb.
  rewrite (proj2 (String.eqb_neq _ _) Hs), (proj2 (String.eqb_neq _ _) Hd).
  unfold isDirectory, gwrap. rewrite !gbind_eq, run_ask, Head_ok by by apply no_fault_here. fold b m. rewrite bool_decide_eq_false_2 by (by rewrite Hsrc; intros [? ?]). cbn [negb gret].
  destruct (folder_copied b src dst (fun k => str_eqb (dst k) dest) sent_plain (copy_to s3fs src dest)
    (fun from => gwrap "list objects error: " (ask (List_ b src from)))) with (fuel := fuel) (w := mkWorld (S (calls w)) (st w))
    as (w' & E & Hdk & H1' & H2'); try done.
  - intros from w0 Hf0. unfold gwrap. by rewrite run_ask, List_ok by by apply no_fault_here.
  - by apply s3_body_ok.
  - cbn. eapply no_fault_le; [|exact Hf]. lia.
  - exists w'. split; [exact E|]. split; [done|]. cbn [st] in *. split.
    + intros k Hk Hne. apply H1'; [done|]. by apply String.eqb_neq.
    + intros b' x [Hx|Hx]; apply H2'; [by left|right]. intros k Hk Hne. apply Hx; [done|]. by apply String.eqb_neq.
Qed.

(** ** Uploading in parts *)
Fixpoint upload_parts (path id : string) (l : list (Z * string)) : M St (list (Z * string)) :=
  match l with
  | [] => gret []
  | (n, d) :: l' =>
      let! tag := UploadPart s3fs (Some (mkPartIn None (Some path) (Some id) (Some n) (Some d))) in
      let! tags := upload_parts path id l' in gret ((n, tag) :: tags)
  end.
(** What a client does: the parts in its order, and then the completion with the
    tags in the order of the numbers. *)
Definition upload_in_parts (path : string) (l : list (Z * string)) : M St unit :=
  let! id := CreateMultipartUpload s3fs (Some (mkCreateIn None (Some path) None)) in
  let! tags := upload_parts path id l in
  CompleteMultipartUpload s3fs (Some (mkCompleteIn None (Some path) (Some id)
    (Some (map (fun p => (Some (fst p), Some (snd p))) (merge_sort num_le tags))))).
Definition stored_parts (l : list (Z * string)) (ps : gmap Z string) : gmap Z string := fold_left (fun m p => <[fst p := snd p]> m) l ps.
Lemma int32_id n : 1 <= n <= 10000 -> int32 n = n.
Proof. intros Hn. unfold int32. rewrite Z.mod_small by lia. lia. Qed.
Lemma upload_parts_run path id l : forall ps w, no_fault_from (calls w) -> Forall (fun p => 1 <= fst p <= 10000) l ->
  ups (store (st w)) !! (bucket s3fs, path, id) = Some ps ->
  exists w', upload_parts path id l w = (Ok (map (fun p => (fst p, etag (snd p))) l), w') /\ (calls w <= calls w')%nat /\
    objs (store (st w')) = objs (store (st w)) /\ disk (st w') = disk (st w) /\
    ups (store (st w')) = <[(bucket s3fs, path, id) := stored_parts l ps]> (ups (store (st w))).
Proof.
  induction l as [|[n d] l IH]; intros ps w Hf Hl Hps.
  { exists w. split; [done|]. split; [lia|]. split; [done|]. split; [done|]. by rewrite insert_id. }
  apply Forall_cons in Hl as [Hn Hl]. cbn [upload_parts UploadPart getBucketName]. cbn [fst] in Hn. rewrite int32_id by done.
  rewrite gbind_eq, run_call by by apply no_fault_here.
  destruct (PutPart_ok (bucket s3fs) path id n d ps (store (st w)) Hps Hn) as (c' & E & Hu & Ho). rewrite E. cbn [fst snd]. rewrite gbind_eq.
  destruct (IH (<[n := d]> ps) (mkWorld (S (calls w)) (mkRemote c' (disk (st w))))) as (w1 & E1 & Hc1 & Ho1 & Hd1 & Hu1).
  { cbn. eapply no_fault_le; [|exact Hf]. lia. }
  { done. }
  { cbn. by rewrite Hu, lookup_insert_eq. }
  rewrite E1. exists w1. cbn in *. split; [done|]. split; [lia|]. split; [congruence|]. split; [done|]. by rewrite Hu1, Hu, insert_insert_eq.
Qed.
Lemma stored_parts_other l n : forall ps, n ∉ map fst l -> stored_parts l ps !! n = ps !! n.
Proof.
  unfold stored_parts. induction l as [|[m d] l IH]; intros ps Hn; [done|]. cbn in *. rewrite not_elem_of_cons in Hn. rewrite IH by tauto.
  rewrite lookup_insert_ne by (intros ->; tauto). done.
Qed.
Lemma stored_parts_lookup l n d : forall ps, NoDup (map fst l) -> (n, d) ∈ l -> stored_parts l ps !! n = Some d.
Proof.
  induction l as [|[m x] l IH]; intros ps Hn Hin; [by apply elem_of_nil in Hin|]. cbn in Hn. apply NoDup_cons in Hn as [Hm Hn].
  change (stored_parts ((m, x) :: l) ps) with (stored_parts l (<[m := x]> ps)). apply elem_of_cons in Hin as [[= -> ->]|Hin]; [|by apply IH].
  rewrite stored_parts_other by done. by rewrite lookup_insert_eq.
Qed.
Lemma ascending_sorted (l : list (Z * string)) : Sorted num_le l -> NoDup (map fst l) -> ascending (map fst l) = true.
Proof.
  induction l as [|x l IH]; [done|]. intros Hs Hn. apply Sorted_inv in Hs as [Hs Hx]. cbn in Hn. apply NoDup_cons in Hn as [Hx' Hn].
  cbn [map ascending]. destruct l as [|y l]; [done|]. cbn [map] in *. apply HdRel_inv in Hx. rewrite (IH Hs Hn), andb_true_r. apply Z.ltb_lt.
  unfold num_le in Hx. rewrite not_elem_of_cons in Hx'. lia.
Qed.
Lemma same_number (l : list (Z * string)) x y : NoDup (map fst l) -> x ∈ l -> y ∈ l -> fst x = fst y -> x = y.
Proof.
  intros Hn Hx Hy E. destruct x as [n d], y as [n' d']. cbn in E. subst n'. f_equal.
  assert (Some d = Some d') as [= ->]; [|done]. by rewrite <- (stored_parts_lookup l n d ∅ Hn Hx), <- (stored_parts_lookup l n d' ∅ Hn Hy).
Qed.
Definition tagged (p : Z * string) : Z * string := (fst p, etag (snd p)).
#[local] Instance num_le_total' : Total num_le.
Proof. intros x y. unfold num_le. lia. Qed.
#[local] Instance num_le_trans' : Transitive num_le.
Proof. intros x y z. unfold num_le. lia. Qed.
Lemma sort_tagged l : NoDup (map fst l) -> merge_sort num_le (map tagged l) = map tagged (merge_sort num_le l).
Proof.
  intros Hn. apply (Sorted_unique_strong num_le).
  - intros x y Hx Hy Hxy Hyx. rewrite merge_sort_Permutation in Hx.
    assert (Hy' : y ∈ map tagged l) by (rewrite <- (merge_sort_Permutation num_le l); exact Hy).
    apply list_elem_of_fmap in Hx as (a & -> & Ha), Hy' as (c & -> & Hc). f_equal. apply (same_number l); [done..|]. unfold num_le in *. cbn in *. lia.
  - apply (Sorted_merge_sort num_le).
  - pose proof (Sorted_merge_sort num_le l) as Hs. induction Hs as [|x s Hs IH Hx]; [constructor|]. cbn. constructor; [done|].
    destruct Hx as [|y s Hxy]; constructor. exact Hxy.
  - rewrite merge_sort_Permutation. by rewrite (merge_sort_Permutation num_le l).
Qed.

Lemma joined_tagged l s : NoDup (map fst l) -> (forall x, x ∈ s -> x ∈ l) -> joined (stored_parts l ∅) (map tagged s) = contents s.
Proof.
  intros Hn. induction s as [|[n d] s IH]; intros Hin; [done|]. cbn. rewrite (stored_parts_lookup l n d) by (try done; apply Hin; left). cbn. f_equal.
  apply IH. intros x Hx. apply Hin. by right.
Qed.

(** Uploading in parts: parts with different numbers between 1 and 10000, sent
    in any order and completed with the tags of the service, leave one object
    that joins them in the order of their numbers, and no upload behind. *)
Theorem multipart_upload (path : string) (l : list (Z * string)) (w : World St) :
  no_fault_from (calls w) -> path <> "" -> l <> [] -> NoDup (map fst l) -> Forall (fun p => 1 <= fst p <= 10000) l ->
  exists w', upload_in_parts path l w = (Ok tt, w') /\
    objs (store (st w')) = <[(bucket s3fs, path) := contents (merge_sort num_le l)]> (objs (store (st w))) /\
    ups (store (st w')) = ups (store (st w)).
Proof.
  intros Hf Hp Hne Hn Hr. unfold upload_in_parts. cbn [CreateMultipartUpload getBucketName]. unfold str_eqb. rewrite (proj2 (String.eqb_neq _ _) Hp).
  rewrite gbind_eq, run_call by by apply no_fault_here.
  destruct (CreateUpload_ok (bucket s3fs) path (store (st w)) Hp) as (id & c & E & _ & Hfresh & Hu & Ho). rewrite E. cbn [fst snd]. rewrite gbind_eq.
  destruct (upload_parts_run path id l ∅ (mkWorld (S (calls w)) (mkRemote c (disk (st w))))) as (w1 & E1 & Hc1 & Ho1 & Hd1 & Hu1); [|done|by cbn; rewrite Hu, lookup_insert_eq|].
  { cbn. eapply no_fault_le; [|exact Hf]. lia. }
  rewrite E1. cbn in Hc1, Ho1, Hu1. cbn [CompleteMultipartUpload getBucketName]. rewrite map_map. cbn [fst snd default].
  fold tagged. change (fun p : Z * string => (fst p, etag (snd p))) with tagged. rewrite sort_tagged, map_map by done. cbn [default]. rewrite (map_ext _ tagged) by done.
  set (s := merge_sort num_le l). assert (Hin : forall x, x ∈ s <-> x ∈ l) by (intros x; unfold s; by rewrite merge_sort_Permutation).
  assert (Hns : NoDup (map fst s)) by (unfold s; by rewrite merge_sort_Permutation).
  rewrite run_call by (eapply no_fault_here, no_fault_le; [|exact Hf]; lia).
  destruct (CompleteUpload_ok (bucket s3fs) path id (stored_parts l ∅) (map tagged s) (store (st w1))) as (c2 & E2 & Ho2 & Hu2).
  - by rewrite Hu1, lookup_insert_eq.
  - intros Hnil. apply map_eq_nil in Hnil. destruct l as [|x l]; [done|]. specialize (proj2 (Hin x) ltac:(left)). rewrite Hnil. apply not_elem_of_nil.
  - rewrite map_map. apply ascending_sorted; [apply (Sorted_merge_sort num_le)|done].
  - apply forallb_forall. intros x Hx. apply in_map_iff in Hx as ([n d] & <- & Hx). unfold part_there, tagged. cbn [fst snd].
    rewrite (stored_parts_lookup l n d) by (try done; apply Hin; by apply list_elem_of_In). unfold str_eqb. apply String.eqb_refl.
  - rewrite E2. eexists. split; [reflexivity|]. cbn. split.
    + rewrite Ho2, Ho1, Ho. f_equal. apply joined_tagged; [done|]. intros x. apply Hin.
    + rewrite Hu2, Hu1, Hu. rewrite insert_insert_eq, delete_insert_id; done.
Qed.
End Objects.

(** * On a service in memory *)
Definition m_conf : S3Fs := mkS3Fs (mkOption "doc" 900) (mkS3Config "https://s3.local" "" "" "" "b" true).
Definition mem_of (l : list (string * string)) : MemStore.Mem := MemStore.mkMem (list_to_map (map (fun p => (("b", fst p), snd p)) l)) ∅.
Definition world_of (l : list (string * string)) (fs : FS) : World (Remote MemStore.Mem) := mkWorld 0 (mkRemote (mem_of l) fs).
Definition docs : list (string * string) := [("docs/a", "1"); ("docs/x/b", "2"); ("docs/x/c", "3"); ("docs/y", "4"); ("docs2/z", "5"); ("e", "6")].
Definition keys_after {A} (r : A * World (Remote MemStore.Mem)) : list (string * string) :=
  map (fun x => (snd (fst x), snd x)) (map_to_list (MemStore.m_objs (store (st (snd r))))).
Lemma S3_refines_file_map_witness : exists rs w',
  run_ops (s3_driver (H := quietEnv) (fun _ => "") (fun _ => None) (fun _ _ => None) m_conf) [OSave "a" "1"; ORead "a"; ODelete "a"; ORead "a"; OSave "" "2"] (world_of [] ∅)
    = (Ok rs, w') /\ map answer rs = [Some None; Some (Some "1"); Some None; None; None].
Proof.
  destruct (@S3_refines_file_map quietEnv _ _ _ (fun _ => "") (fun _ => None) (fun _ _ => None) m_conf
    [OSave "a" "1"; ORead "a"; ODelete "a"; ORead "a"; OSave "" "2"] (world_of [] ∅) (quietEnv_ok 0)) as (rs & w' & E & Ha & _).
  exists rs, w'. split; [exact E|]. rewrite Ha. reflexivity.
Defined.
(** Five keys start with [docs], on three pages; one is a neighbour of the
    folder. *)
Lemma CopyDir_all_pages_witness : exists w', CopyDir (H := quietEnv) m_conf 6 "docs" "out" (world_of docs ∅) = (Ok true, w') /\
  objs (store (st w')) !! (bucket m_conf, destKey "docs" "out" "docs/x/c") = Some "3" /\
  objs (store (st w')) !! (bucket m_conf, destKey "docs" "out" "docs2/z") = Some "5" /\
  objs (store (st w')) !! (bucket m_conf, "docs/y") = Some "4".
Proof.
  assert (Hk : keys_of (bucket m_conf) "docs" (objs (store (st (world_of docs ∅)))) = ["docs/a"; "docs/x/b"; "docs/x/c"; "docs/y"; "docs2/z"])
    by (vm_compute; reflexivity).
  destruct (@CopyDir_all_pages quietEnv _ _ MemStore.mem_laws m_conf "docs" "out" 6 (world_of docs ∅) (quietEnv_ok 0)) as (w' & E & _ & Hd & Ho).
  - by intros [=].
  - by intros [=].
  - reflexivity.
  - reflexivity.
  - vm_compute. reflexivity.
  - rewrite Hk. repeat constructor; by intros [=].
  - rewrite Hk. cbn. lia.
  - rewrite Hk. intros k k' Hk1 Hk2. rewrite !list_elem_of_In in *. cbn [In] in Hk1, Hk2.
    destruct Hk1 as [<-|[<-|[<-|[<-|[<-|[]]]]]], Hk2 as [<-|[<-|[<-|[<-|[<-|[]]]]]]; vm_compute; congruence.
  - rewrite Hk in Hd, Ho. exists w'. split; [exact E|]. split; [|split].
    + etransitivity; [apply (Hd "docs/x/c")|vm_compute; reflexivity]; [by do 2 right; left|vm_compute; congruence].
    + etransitivity; [apply (Hd "docs2/z")|vm_compute; reflexivity]; [by do 4 right; left|vm_compute; congruence].
    + etransitivity; [apply (Ho (bucket m_conf) "docs/y")|vm_compute; reflexivity]. right. intros k Hk1 _. rewrite list_elem_of_In in Hk1. cbn [In] in Hk1.
      destruct Hk1 as [<-|[<-|[<-|[<-|[<-|[]]]]]]; vm_compute; congruence.
Defined.
Lemma multipart_upload_witness : exists w', upload_in_parts (H := quietEnv) m_conf "big" [(2, "wor"); (7, "ld"); (1, "hello ")] (world_of [] ∅) = (Ok tt, w') /\
  objs (store (st w')) !! ("b", "big") = Some "hello world".
Proof.
  destruct (@multipart_upload quietEnv _ _ MemStore.mem_laws m_conf "big" [(2, "wor"); (7, "ld"); (1, "hello ")] (world_of [] ∅) (quietEnv_ok 0)) as (w' & E & Ho & _).
  - done.
  - done.
  - apply (bool_decide_unpack _). vm_compute. exact I.
  - repeat constructor; cbn; lia.
  - exists w'. split; [exact E|]. rewrite Ho, lookup_insert_eq. vm_compute. reflexivity.
Defined.
Example where_they_go : map (destKey "docs" "out") ["docs/x/c"; "docs2/z"] = ["out/x/c"; "out/2/z"].
Proof. reflexivity. Qed.
(** A source that is not there is taken for a folder: nothing is copied and no
    error is given; a key with a percent sign is read as another one. *)
Example missing_copied : fst (CopyDir (H := quietEnv) m_conf 6 "nowhere" "out" (world_of docs ∅)) = Ok true.
Proof. vm_compute. reflexivity. Qed.
Example percent_key : fst (CopyDir (H := quietEnv) m_conf 6 "p%41" "q" (world_of [("p%41", "1")] ∅)) =
  Err (ErrWrap "copy object p%41 to q error: " NoSuchKey).
Proof. vm_compute. reflexivity. Qed.
(** A presigned part without its number is a nil pointer. *)
Example part_without_number (sign : Presign -> Z -> Res string) :
  GeneratePresignedURL sign m_conf (Some (mkPresignIn (Some "PUT") None (Some "k") (Some "id") None None None None)) =
  Panic "invalid memory address or nil pointer dereference".
Proof. reflexivity. Qed.
(** A folder of the disk is uploaded under its own names. *)
Definition local_tree : FS := <[["home"; "d"] := Folder]> (<[["home"; "d"; "a.txt"] := File "A"]> (<[["home"; "d"; "s"] := Folder]>
  (<[["home"; "d"; "s"; "b"] := File "B"]> (<[["home"] := Folder]> ∅)))).
Example uploaded :
  let r := UploadDirectory (H := quietEnv) (fun _ => "") (fun _ => None) (fun _ _ => None) ["home"] m_conf 5 "./d" "up/" (world_of [] local_tree) in
  (fst r, keys_after r) = (Ok (Some ["up/a.txt"; "up/s/b"]), [("up/s/b", "B"); ("up/a.txt", "A")]).
Proof. vm_compute. reflexivity. Qed.
