(* ===== verification/MinFs.v ===== *)
(** [src/storage/minoss.go] (and its copy [src/storage/v2/minio/storer.go]): the
    driver for MinIO on [ObjectStore], through the checks that the vendored
    client makes before it calls the service. *)
From S2P Require Import Prelude Strings Json Regexp JsonText FileInfo Files Upload ObjectStore S3Fs.
#[local] Open Scope string_scope.
#[local] Open Scope Z_scope.

Record MinossConfig : Type := mkMinConfig { m_EndPoint : string; m_AccessKeyID : string; m_SecretAccessKey : string; MinBucket : string }.
Record MinFs : Type := mkMinFs { m_opt : StorageOption; mfsCfg : MinossConfig }.
Definition min_bucket (mfs : MinFs) : string := mfs.(mfsCfg).(MinBucket).

(** * The client *)
Definition invalid (s : string) : error := ErrNew s.
Definition CheckValidObjectNamePrefix (name : string) : option error :=
  if (1024 <? String.length name)%nat then Some (invalid "Object name cannot be longer than 1024 characters")
  else if negb (ValidString name) then Some (invalid "Object name with non UTF-8 strings are not supported")
  else None.
Definition CheckValidObjectName (name : string) : option error :=
  if str_eqb (TrimSpace name) "" then Some (invalid "Object name cannot be empty") else CheckValidObjectNamePrefix name.
Definition maxMultipartPutObjectSize : Z := 1024 * 1024 * 1024 * 1024 * 5.
Definition maxPartSize : Z := 1024 * 1024 * 1024 * 5.
Definition EntityTooLarge : error := ErrVar "EntityTooLarge".
Definition EntityTooSmall : error := ErrVar "EntityTooSmall".

Section Driver.
Context `{Env} {C : Type} `{Store C}.
(** [body_of] is what the HTTP client makes of a reader that does not have the
    announced size, [EncodePath] the escaping of the client, [presignGet] its
    signing and [new_client] the check of the endpoint. *)
Context (mime : string -> string) (body_of : string -> Z -> Res string) (EncodePath : string -> string)
  (presignGet : string -> string -> Z -> Res string) (new_client : string -> option error).
Abbreviation St := (Remote C).
Definition checked {A} (e : option error) (m : M St A) : M St A := match e with Some err => graise err | None => m end.
Definition PutObject (bucket name contentType data : string) (size : Z) : M St unit :=
  if maxMultipartPutObjectSize <? size then graise EntityTooLarge
  else checked (CheckValidObjectName name)
         (if size <? 0 then call (Put bucket name contentType data)
          else if size =? 0 then call (Put bucket name contentType "")
          else if size =? Z.of_nat (String.length data) then call (Put bucket name contentType data)
          else match body_of data size with Err e => graise e | Ok d => call (Put bucket name contentType d) end).
(** The object is fetched when it is first read. *)
Definition GetObject (bucket name : string) : M St (M St string) :=
  checked (CheckValidObjectName name) (gret (ask (Get bucket name))).
Definition RemoveObject (bucket name : string) : M St unit := checked (CheckValidObjectName name) (call (Remove bucket name)).
Definition StatObject (bucket name : string) : M St bool := checked (CheckValidObjectName name) (ask (Head bucket name)).
Definition CopyObject (bucket dst src : string) : M St unit :=
  checked (CheckValidObjectName src) (checked (CheckValidObjectName dst) (call (Copy bucket dst (EncodePath (bucket ++ "/" ++ src))))).
(** A page of the channel of [ListObjects]: the next one is asked for when the
    consumer has taken the objects of this one. *)
Definition ListObjects (bucket prefix : string) (from : option string) : M St (list string * option string) :=
  checked (CheckValidObjectNamePrefix prefix) (ask (List_ bucket prefix from)).
Definition PutObjectPart (bucket name id : string) (n : Z) (data : string) (size : Z) : M St string :=
  checked (CheckValidObjectName name)
    (if maxPartSize <? size then graise EntityTooLarge
     else if size <=? -1 then graise EntityTooSmall
     else if n <=? 0 then graise (invalid "Part number cannot be negative or equal to zero.")
     else if str_eqb id "" then graise (invalid "UploadID cannot be empty.")
     else match (if size =? Z.of_nat (String.length data) then Ok data else body_of data size) with
          | Err e => graise e
          | Ok d => call (PutPart bucket name id n d)
          end).

(** * The driver *)
Definition NewMinFs (cfg : MinossConfig) (o : StorageOption) : M St MinFs :=
  if str_eqb cfg.(MinBucket) "" then graise (ErrNew "configuration bucket error")
  else match new_client cfg.(m_EndPoint) with
       | Some e => graise e
       | None => let! isE := ask (HeadBucket cfg.(MinBucket)) in
                 if negb isE then graise (ErrNew "bucket not exists") else gret (mkMinFs o cfg)
       end.
Section Methods.
Variable mfs : MinFs.
Definition Save (fi : FileInfo) (r : option string) : M St FileInfo :=
  if str_eqb fi.(FI.StoragePath) "" then graise (ErrNew "storage path is empty")
  else match r with
       | None => graise (ErrNew "reader is empty")
       | Some data => PutObject (min_bucket mfs) fi.(FI.StoragePath) (mime fi.(FI.FileExt)) data fi.(FI.Size) ;;; gret fi
       end.
Definition GetPublicURL (storagePath : string) (_ : bool) : string := storagePath.
(** The method is not looked at. *)
Definition GetPresignedURL (method storagePath : string) : Res string :=
  match CheckValidObjectName storagePath with
  | Some e => Err e
  | None => presignGet (min_bucket mfs) storagePath mfs.(m_opt).(PresignedTimeout)
  end.
Definition ReadFile (storagePath : string) : M St (M St string) :=
  if str_eqb storagePath "" then graise (ErrNew "storage path is empty") else GetObject (min_bucket mfs) storagePath.
Definition DeleteFile (storagePath : string) : M St unit :=
  if str_eqb storagePath "" then graise (ErrNew "storage path is empty") else RemoveObject (min_bucket mfs) storagePath.
Definition isDirectory (storagePath : string) : M St bool := let! there := StatObject (min_bucket mfs) storagePath in gret (negb there).
Definition copyObject (storagePath dest : string) : M St unit := CopyObject (min_bucket mfs) dest storagePath.
Definition copyDirectory (fuel : nat) (storagePath dest : string) : M St bool :=
  each_page fuel (ListObjects (min_bucket mfs) storagePath) (fun key => copyObject key (Join [dest; trim_prefix storagePath key])) None.
Definition CopyDir (fuel : nat) (storagePath dest : string) : M St bool :=
  if str_eqb storagePath "" then graise (ErrNew "source storage path is empty")
  else if str_eqb dest "" then graise (ErrNew "destination storage path is empty")
  else let! isDir := isDirectory storagePath in
       if isDir : bool then copyDirectory fuel storagePath dest
       else copyObject storagePath dest ;;; gret true.
Definition UploadDirectory (localDirPath destDir : string) : Res (list string) :=
  Err (ErrNew "UploadDirectory not implemented for MinFs").
Definition CreateMultipartUpload (inp : option CreateMultipartUploadInput) : M St string :=
  match inp with
  | Some (mkCreateIn _ (Some path) _) =>
      if str_eqb path "" then graise (ErrNew "storage path is empty")
      else checked (CheckValidObjectName path) (call (CreateUpload (min_bucket mfs) path))
  | _ => graise (ErrNew "storage path is empty")
  end.
Definition GeneratePresignedURL (inp : option GeneratePresignedURLInput) : Res string :=
  Err (ErrNew "presigned part URL not supported for MinIO").
Definition UploadPart (inp : option UploadPartInput) : M St string :=
  match inp with
  | Some (mkPartIn _ (Some path) uploadID partNumber data) =>
      if str_eqb path "" then graise (ErrNew "storage path is empty")
      else match uploadID, partNumber with
           | Some id, Some n => match data with
                                | None => graise (ErrNew "reader is empty")
                                | Some d => PutObjectPart (min_bucket mfs) path id n d (-1)
                                end
           | _, _ => graise (ErrNew "uploadID or partNumber is nil")
           end
  | _ => graise (ErrNew "storage path is empty")
  end.
Definition CompleteMultipartUpload (inp : option CompleteMultipartUploadInput) : M St unit :=
  match inp with
  | Some (mkCompleteIn _ (Some path) (Some id) (Some parts)) =>
      checked (CheckValidObjectName path)
        (call (CompleteUpload (min_bucket mfs) path id (map (fun p => (default 0 (fst p), default "" (snd p))) parts)))
  | _ => graise (ErrNew "storagePath, uploadID or parts is nil")
  end.
Definition AbortMultipartUpload (inp : option AbortMultipartUploadInput) : M St unit :=
  match inp with
  | Some (mkAbortIn _ (Some path) (Some id)) => checked (CheckValidObjectName path) (call (AbortUpload (min_bucket mfs) path id))
  | _ => graise (ErrNew "storagePath or uploadID is nil")
  end.
End Methods.
End Driver.

(** * What the driver does *)
Section Laws.
Context `{Env} {C : Type} `{StoreLaws C}.
Context (mime : string -> string) (body_of : string -> Z -> Res string) (EncodePath : string -> string).
Variable mfs : MinFs.
Abbreviation St := (Remote C).
Implicit Types w : World St.
(** Reading is opening and reading all. *)
Definition min_driver : Driver St :=
  mkDriver (Save mime body_of mfs) (fun p => let! reader := ReadFile mfs p in reader) (DeleteFile mfs).
Definition min_view (s : St) : FileMap := bucket_of (min_bucket mfs) (store s).
(** Names that the client takes, and data below the limit of the service. *)
Definition min_ok (o : FileOp) : Prop :=
  (path_of o = "" \/ CheckValidObjectName (path_of o) = None) /\
  match o with OSave _ data => Z.of_nat (String.length data) <= maxMultipartPutObjectSize | _ => True end.
Lemma put_named bucket p data w : env_fault (calls w) = None -> p <> "" -> CheckValidObjectName p = None ->
  Z.of_nat (String.length data) <= maxMultipartPutObjectSize ->
  PutObject body_of bucket p (mime "") data (Z.of_nat (String.length data)) w = call (Put bucket p (mime "") data) w.
Proof.
  intros Hf Hp Hn Hs. unfold PutObject. rewrite (proj2 (Z.ltb_ge _ _)) by done. unfold checked. rewrite Hn.
  rewrite (proj2 (Z.ltb_ge (Z.of_nat _) 0)) by lia. destruct (Z.eqb_spec (Z.of_nat (String.length data)) 0) as [E|E].
  - by destruct data; [|cbn in E; lia].
  - by rewrite Z.eqb_refl.
Qed.
Lemma min_keeps : KeepsFiles min_driver min_ok min_view.
Proof.
  split. intros o w r w' Hf Hok E. pose proof (no_fault_here _ Hf) as Hn. destruct Hok as [Hok Hsize].
  unfold run_op, min_driver, min_view, bucket_of in *. cbn [d_save d_read d_delete] in E.
  assert (Hval : path_of o <> "" -> CheckValidObjectName (path_of o) = None) by tauto. clear Hok.
  destruct o as [p data|p|p]; cbn [spec_op path_of] in *; unfold Save, ReadFile, DeleteFile, named in E; cbn [FI.StoragePath FI.set_saved FI.FileExt FI.Size FI.zero] in E;
    unfold str_eqb in *; destruct (String.eqb_spec p "") as [->|Hp];
    try (unfold graise, gbind in E; injection E as <- <-; (split; [lia|done])); specialize (Hval Hp).
  - rewrite !gbind_eq, put_named, run_call in E by done.
    destruct (Put_ok (min_bucket mfs) p (mime "") data (store (st w)) Hp) as (c' & E2 & Ho & _). rewrite E2 in E. cbn in E. injection E as <- <-.
    cbn [calls st store]. split; [lia|]. split; [done|]. intros q. rewrite Ho. cbn. unfold upd.
    destruct (decide (q = p)) as [->|]; [by rewrite lookup_insert_eq|by rewrite lookup_insert_ne by congruence].
  - unfold GetObject, checked in E. rewrite Hval, !gbind_eq in E. cbn [gret] in E. rewrite run_ask, Get_ok in E by done.
    destruct (objs (store (st w)) !! (min_bucket mfs, p)) as [d|] eqn:Ed; cbn in E; injection E as <- <-;
      cbn [calls st fst snd]; (split; [lia|]); rewrite ?Ed; done.
  - unfold RemoveObject, checked in E. rewrite Hval, gbind_eq, run_call in E by done.
    destruct (Remove_ok (min_bucket mfs) p (store (st w)) Hp) as (c' & E2 & Ho & _). rewrite E2 in E. cbn in E. injection E as <- <-.
    cbn [calls st store]. split; [lia|]. split; [done|]. intros q. rewrite Ho. cbn. unfold upd.
    destruct (decide (q = p)) as [->|]; [by rewrite lookup_delete_eq|by rewrite lookup_delete_ne by congruence].
Qed.
(** The driver keeps files as that of S3 does, when the size of a file is set
    before it is saved. *)
Theorem Min_refines_file_map l w : no_fault_from (calls w) -> Forall min_ok l ->
  exists rs w', run_ops min_driver l w = (Ok rs, w') /\ map answer rs = fst (spec_ops l (min_view (st w))) /\
    forall p, min_view (st w') p = snd (spec_ops l (min_view (st w))) p.
Proof. intros Hf Hl. pose proof min_keeps. by apply (run_ops_refine min_driver min_ok min_view). Qed.
(** A file whose size is not set is stored empty, whatever its data. *)
Theorem unsized_saved_empty p data fi w : no_fault_from (calls w) -> p <> "" -> CheckValidObjectName p = None ->
  fi.(FI.StoragePath) = p -> fi.(FI.Size) = 0 ->
  exists w', Save mime body_of mfs fi (Some data) w = (Ok fi, w') /\ min_view (st w') p = Some "".
Proof.
  intros Hf Hp Hn E Es. unfold Save, PutObject, checked. rewrite E, Es, Hn. unfold str_eqb. rewrite (proj2 (String.eqb_neq _ _) Hp).
  change (maxMultipartPutObjectSize <? 0) with false. cbn.
  rewrite gbind_eq, run_call by by apply no_fault_here.
  destruct (Put_ok (min_bucket mfs) p (mime fi.(FI.FileExt)) "" (store (st w)) Hp) as (c' & E2 & Ho & _). rewrite E2. eexists. split; [reflexivity|].
  unfold min_view, bucket_of. cbn. by rewrite Ho, lookup_insert_eq.
Qed.
(** No part is ever uploaded: the driver announces the size -1, which the client
    refuses before it calls the service. *)
Theorem UploadPart_refused inp w : exists e, UploadPart body_of mfs inp w = (Err e, w).
Proof.
  destruct inp as [[b [path|] id n data]|]; cbn [UploadPart]; [|by eexists..]. destruct (str_eqb path ""); [by eexists|].
  destruct id as [id|], n as [n|]; [|by eexists..]. destruct data as [d|]; [|by eexists]. unfold PutObjectPart, checked.
  destruct (CheckValidObjectName path); by eexists.
Qed.

(** Keys that the client takes, and takes where they go. *)
Definition min_good (dst : string -> string) (k : string) : Prop := CheckValidObjectName k = None /\ CheckValidObjectName (dst k) = None.
(** Copying a folder: as with S3, however many pages the listing has, and with
    any keys, since the client escapes the source. *)
Theorem Min_CopyDir_all_pages (src dest : string) (fuel : nat) w :
  let b := min_bucket mfs in let m := objs (store (st w)) in let dst := fun k => Join [dest; trim_prefix src k] in
  no_fault_from (calls w) -> (forall s, unescape (EncodePath s) = s) -> src <> "" -> dest <> "" -> str_mem "/" b = false ->
  CheckValidObjectName src = None -> m !! (b, src) = None ->
  Forall (copyable src dst (min_good dst)) (keys_of b src m) -> (length (keys_of b src m) < fuel)%nat ->
  (forall k k', k ∈ keys_of b src m -> k' ∈ keys_of b src m -> dst k = dst k' -> k = k') ->
  exists w', CopyDir EncodePath mfs fuel src dest w = (Ok true, w') /\ disk (st w') = disk (st w) /\
    (forall k, k ∈ keys_of b src m -> objs (store (st w')) !! (b, dst k) = m !! (b, k)) /\
    (forall b' x, (b' <> b \/ forall k, k ∈ keys_of b src m -> dst k <> x) -> objs (store (st w')) !! (b', x) = m !! (b', x)).
Proof.
  intros b m dst Hf Henc Hs Hd Hb Hsrc Hno Hc Hlen Hinj. unfold CopyDir, str_eqb.
  rewrite (proj2 (String.eqb_neq _ _) Hs), (proj2 (String.eqb_neq _ _) Hd).
  unfold isDirectory, StatObject, checked. rewrite Hsrc, !gbind_eq, run_ask, Head_ok by by apply no_fault_here.
  fold b m. rewrite bool_decide_eq_false_2 by (by rewrite Hno; intros [? ?]). cbn [negb gret].
  destruct (folder_copied b src dst (fun _ => false) (min_good dst) (fun key => copyObject EncodePath mfs key (dst key)) (ListObjects b src))
    with (fuel := fuel) (w := mkWorld (S (calls w)) (st w)) as (w' & E & Hdk & H1' & H2'); try done.
  - intros from w0 Hf0. unfold ListObjects, checked. unfold CheckValidObjectName in Hsrc. destruct (str_eqb _ _); [done|]. rewrite Hsrc.
    by rewrite run_ask, List_ok by by apply no_fault_here.
  - intros k d w0 Hf0 ([Hk1 Hk2] & Hne & Hout) Hp Hd0. unfold copyObject, CopyObject, checked. rewrite Hk1, Hk2, run_call by by apply no_fault_here.
    fold b. assert (Hcut : cut_slash (unescape (EncodePath (b ++ "/" ++ k))) = (b, k)) by (by rewrite Henc, cut_source).
    destruct (Copy_ok b (dst k) (EncodePath (b ++ "/" ++ k)) d (store (st w0)) Hne) as (c' & Hcp & Ho & _).
    { rewrite Hcut. intros [= E2]. congruence. }
    { by rewrite Hcut. }
    rewrite Hcp. eexists. split; [done|]. cbn. split; [lia|]. by rewrite Ho, Hd0.
  - cbn. eapply no_fault_le; [|exact Hf]. lia.
  - exists w'. split; [exact E|]. split; [done|]. cbn [st] in *. split; [intros k Hk; by apply H1'|].
    intros b' x [Hx|Hx]; apply H2'; [by left|right]. intros k Hk _. by apply Hx.
Qed.
End Laws.

(** * On a service in memory *)
Definition min_conf : MinFs := mkMinFs (mkOption "doc" 900) (mkMinConfig "min.local" "" "" "b").
(** Escaping just enough. *)
Fixpoint escape_percent (s : string) : string :=
  match s with "" => "" | String c s' => if Ascii.eqb c "%" then "%25" ++ escape_percent s' else String c (escape_percent s') end.
Lemma escape_decode s : MemStore.decode (escape_percent s) = s.
Proof.
  induction s as [|c s IH]; [done|]. cbn [escape_percent]. destruct (Ascii.eqb_spec c "%") as [->|Hne].
  - change (MemStore.decode ("%25" ++ escape_percent s)) with (String "%" (MemStore.decode (escape_percent s))). by rewrite IH.
  - assert (H : MemStore.decode (String c (escape_percent s)) = String c (MemStore.decode (escape_percent s))); [|by rewrite H, IH].
    destruct c as [[] [] [] [] [] [] [] []]; done.
Qed.
Definition no_body : string -> Z -> Res string := fun _ _ => Err (ErrVar "http: ContentLength with other Body length").
Lemma Min_refines_file_map_witness : exists rs w',
  run_ops (min_driver (H := quietEnv) (fun _ => "") no_body min_conf) [OSave "a" "1"; ORead "a"; ODelete "a"; ORead "a"] (world_of [] ∅) = (Ok rs, w') /\
  map answer rs = [Some None; Some (Some "1"); Some None; None].
Proof.
  destruct (@Min_refines_file_map quietEnv _ _ MemStore.mem_laws (fun _ => "") no_body min_conf [OSave "a" "1"; ORead "a"; ODelete "a"; ORead "a"] (world_of [] ∅) (quietEnv_ok 0))
    as (rs & w' & E & Ha & _).
  - repeat (apply Forall_cons; split; [split; [right; vm_compute; reflexivity|first [exact I|cbn; unfold maxMultipartPutObjectSize; lia]]|]).
    by apply Forall_nil.
  - exists rs, w'. split; [exact E|]. rewrite Ha. reflexivity.
Defined.
Lemma unsized_saved_empty_witness : exists fi w', Save (H := quietEnv) (fun _ => "") no_body min_conf (FI.set_saved "a" 0 FI.zero) (Some "data") (world_of [] ∅) = (Ok fi, w') /\
  min_view min_conf (st w') "a" = Some "".
Proof.
  destruct (@unsized_saved_empty quietEnv _ _ MemStore.mem_laws (fun _ => "") no_body min_conf "a" "data" (FI.set_saved "a" 0 FI.zero) (world_of [] ∅) (quietEnv_ok 0)) as (w' & E & Hv);
    [by intros [=]|vm_compute; reflexivity|reflexivity|reflexivity|].
  by exists (FI.set_saved "a" 0 FI.zero), w'.
Defined.
Lemma Min_CopyDir_all_pages_witness : exists w', CopyDir (H := quietEnv) escape_percent min_conf 3 "p%41" "q" (world_of [("p%41/a%", "1"); ("p%41/b", "2")] ∅) = (Ok true, w') /\
  objs (store (st w')) !! (min_bucket min_conf, Join ["q"; trim_prefix "p%41" "p%41/a%"]) = Some "1".
Proof.
  assert (Hk : keys_of (min_bucket min_conf) "p%41" (objs (store (st (world_of [("p%41/a%", "1"); ("p%41/b", "2")] ∅)))) = ["p%41/a%"; "p%41/b"])
    by (vm_compute; reflexivity).
  destruct (@Min_CopyDir_all_pages quietEnv _ _ MemStore.mem_laws escape_percent min_conf "p%41" "q" 3 (world_of [("p%41/a%", "1"); ("p%41/b", "2")] ∅) (quietEnv_ok 0))
    as (w' & E & _ & Hd & _).
  - apply escape_decode.
  - by intros [=].
  - by intros [=].
  - reflexivity.
  - vm_compute. reflexivity.
  - vm_compute. reflexivity.
  - rewrite Hk. repeat constructor; try (vm_compute; reflexivity); by intros [=].
  - rewrite Hk. cbn. lia.
  - rewrite Hk. intros k k' Hk1 Hk2. rewrite !list_elem_of_In in *. cbn [In] in Hk1, Hk2.
    destruct Hk1 as [<-|[<-|[]]], Hk2 as [<-|[<-|[]]]; vm_compute; congruence.
  - rewrite Hk in Hd. exists w'. split; [exact E|]. etransitivity; [apply (Hd "p%41/a%")|vm_compute; reflexivity]. by left.
Defined.
(** The answer to a request for an address to upload to is one to download
    from. *)
Example put_address (sign : string -> string -> Z -> Res string) :
  GetPresignedURL sign min_conf "PUT" "k" = GetPresignedURL sign min_conf "GET" "k".
Proof. reflexivity. Qed.
(** Opening what is not there is no error; reading it is. *)
Example missing_opens : is_ok (fst (ReadFile (H := quietEnv) min_conf "k" (world_of [] ∅))) = true /\
  fst ((let! reader := ReadFile (H := quietEnv) min_conf "k" in reader) (world_of [] ∅)) = Err NoSuchKey.
Proof. split; vm_compute; reflexivity. Qed.
