(* ===== verification/Storage.v ===== *)
(** [src/storage/storage.go] and [src/storage/v2/storager.go]: the storager of a
    purpose, chosen by its setting and kept for good, over the drivers of
    [LocalDir], [Upload], [MinFs] and [S3Fs]. *)
From S2P Require Import Prelude Strings Gorm FileInfo Files LocalDir Upload ObjectStore S3Fs MinFs.
#[local] Open Scope string_scope.
#[local] Open Scope Z_scope.

Record LocalStorageConfig : Type := mkLocalConfig { LocalRoot : string; LocalPublicPrefix : string }.
(** [StorageConfig] of src/config/storage.go, less the two services that no
    driver reads. *)
Record StorageConfig : Type := mkConfig {
  Option_ : StorageOption; Local : option LocalStorageConfig; Tencent : option TencentCOSConfig; Minoss : option MinossConfig; S3 : option S3StorageConfig
}.
(** The drivers behind the interface [Storager]. *)
Inductive Storager : Type :=
  | LocalDriver (ls : LocalStorage)
  | TencentDriver (tc : TencentCos)
  | MinDriver (mfs : MinFs)
  | S3Driver (s3fs : S3Fs).
Definition SettingPrefix : string := "cos-".
Definition SettingGroupCore : string := "core".

(** * The process: the services, the disk, the settings and the storagers *)
Record Host (Y D C : Type) : Type := mkHost {
  setts : Y; fs : FS; upload_tabs : FileTabs; cosv : D; minio : C; s3 : C; storagerMap : gmap string Storager
}.
Arguments mkHost {Y D C} setts fs upload_tabs cosv minio s3 storagerMap.
Arguments setts {Y D C} h.
Arguments fs {Y D C} h.
Arguments upload_tabs {Y D C} h.
Arguments cosv {Y D C} h.
Arguments minio {Y D C} h.
Arguments s3 {Y D C} h.
Arguments storagerMap {Y D C} h.
(** Code that runs on a part of the state. *)
Definition zoom {S T A} (get : S -> T) (set : T -> S -> S) (m : M T A) : M S A :=
  fun w => let (r, w') := m (mkWorld (calls w) (get (st w))) in (r, mkWorld (calls w') (set (st w') (st w))).

Section Storagers.
Context `{Env} {Y D C : Type} `{Cos D} `{Store C}.
Abbreviation St := (Host Y D C).
Definition on_settings {A} : M Y A -> M St A := zoom setts (fun y h => mkHost y h.(fs) h.(upload_tabs) h.(cosv) h.(minio) h.(s3) h.(storagerMap)).
Definition on_fs {A} : M FS A -> M St A := zoom fs (fun f h => mkHost h.(setts) f h.(upload_tabs) h.(cosv) h.(minio) h.(s3) h.(storagerMap)).
Definition on_cos {A} : M (Sys D) A -> M St A :=
  zoom (fun h => mkSys h.(upload_tabs) h.(cosv)) (fun s h => mkHost h.(setts) h.(fs) s.(tabs) s.(cos) h.(minio) h.(s3) h.(storagerMap)).
Definition on_min {A} : M (Remote C) A -> M St A :=
  zoom (fun h => mkRemote h.(minio) h.(fs)) (fun r h => mkHost h.(setts) r.(disk) h.(upload_tabs) h.(cosv) r.(store) h.(s3) h.(storagerMap)).
Definition on_s3 {A} : M (Remote C) A -> M St A :=
  zoom (fun h => mkRemote h.(s3) h.(fs)) (fun r h => mkHost h.(setts) r.(disk) h.(upload_tabs) h.(cosv) h.(minio) r.(store) h.(storagerMap)).

(** [settings.GetYaml], with the panic of a secret that does not decrypt left
    out, and the parameters of the drivers. *)
Context (GetYaml : string -> string -> M Y StorageConfig) (cwd : path)
  (cos_url : string -> option error) (cos_presign : string -> string -> Res string)
  (mime : string -> string) (url_Parse : string -> option (string * string)) (url_JoinPath : string -> list string -> option string)
  (LoadDefaultConfig : option error) (body_of : string -> Z -> Res string) (new_client : string -> option error).

(** ** The methods, by driver *)
Definition answered (fi : FileInfo) (m : M St FileInfo) : M St (Res unit * FileInfo) :=
  let! r := gtry m in gret match r with Ok fi' => (Ok tt, fi') | Err e => (Err e, fi) end.
Definition storager_Save (s : Storager) (fi : FileInfo) (data : string) : M St (Res unit * FileInfo) :=
  match s with
  | LocalDriver ls => on_fs (LocalDir.Save cwd ls fi (mkIoReader data None))
  | TencentDriver tc => answered fi (on_cos (Upload.Save cos_presign tc fi (Some data)))
  | MinDriver mfs => answered fi (on_min (MinFs.Save mime body_of mfs fi (Some data)))
  | S3Driver s3fs => answered fi (on_s3 (S3Fs.Save mime url_Parse url_JoinPath s3fs fi (Some data)))
  end.
(** [ReadFile] and reading to the end. *)
Definition storager_ReadAll (s : Storager) (storagePath : string) : M St string :=
  match s with
  | LocalDriver ls => on_fs (let! f := LocalDir.ReadFile cwd ls storagePath in gextr (fun t => (read (resolve cwd f) t, t)))
  | TencentDriver tc => on_cos (Upload.ReadFile storagePath)
  | MinDriver mfs => on_min (let! reader := MinFs.ReadFile mfs storagePath in reader)
  | S3Driver s3fs => on_s3 (S3Fs.ReadFile s3fs storagePath)
  end.

(** ** [storage.go] *)
Definition NewStorageWithCfg (cfg : StorageConfig) : M St Storager :=
  match cfg.(Local), cfg.(Tencent), cfg.(Minoss), cfg.(S3) with
  | Some c, _, _, _ => let! ls := on_fs (NewLocalStorage cwd c.(LocalRoot) c.(LocalPublicPrefix)) in gret (LocalDriver ls)
  | None, Some c, _, _ => match NewTencentCos cos_url c with Ok tc => gret (TencentDriver tc) | Err e => graise e end
  | None, None, Some c, _ => let! mfs := on_min (NewMinFs new_client c cfg.(Option_)) in gret (MinDriver mfs)
  | None, None, None, Some c => let! s3fs := on_s3 (NewS3Fs LoadDefaultConfig c cfg.(Option_)) in gret (S3Driver s3fs)
  | None, None, None, None => graise (ErrNew "not found useful remote storage config")
  end.
Definition NewStorage (purpose : string) : M St Storager :=
  let! cfg := on_settings (GetYaml SettingGroupCore (SettingPrefix ++ purpose)) in NewStorageWithCfg cfg.
Definition remember (purpose : string) (s : Storager) (h : St) : St :=
  mkHost h.(setts) h.(fs) h.(upload_tabs) h.(cosv) h.(minio) h.(s3) (<[purpose := s]> h.(storagerMap)).
(** The map is [sync.Map]: [Load] and [Store] are atomic and do not fail. *)
Definition load_or (new : string -> M St Storager) (purpose : string) : M St Storager :=
  fun w => match storagerMap (st w) !! purpose with
           | Some s => (Ok s, w)
           | None => (let! s := new purpose in fun w' => (Ok s, mkWorld (calls w') (remember purpose s (st w')))) w
           end.
Definition LoadStorager (purpose : string) : M St Storager := load_or NewStorage purpose.
(** The file information is the caller's and comes back as it was changed. *)
Definition UploadFile (fi : FileInfo) (data : string) : M St (Res unit * FileInfo) :=
  let! r := gtry (LoadStorager fi.(FI.Purpose)) in
  match r with Err e => gret (Err e, fi) | Ok s => storager_Save s fi data end.

(** ** [v2/storager.go]: drivers by name *)
Definition FactoryFunc : Type := StorageConfig -> M St Storager.
Definition Register (name : string) (fn : FactoryFunc) (registry : gmap string FactoryFunc) : gmap string FactoryFunc :=
  <[name := fn]> registry.
(** What the packages of the drivers register when they are imported. *)
Definition config_nil (what : string) : error := ErrNew (what ++ " config is nil").
Definition local_factory : FactoryFunc := fun cfg =>
  match cfg.(Local) with
  | None => graise (config_nil "local")
  | Some c => let! ls := on_fs (NewLocalStorage cwd c.(LocalRoot) c.(LocalPublicPrefix)) in gret (LocalDriver ls)
  end.
Definition tencos_factory : FactoryFunc := fun cfg =>
  match cfg.(Tencent) with
  | None => graise (config_nil "tencent cos")
  | Some c => match NewTencentCos cos_url c with Ok tc => gret (TencentDriver tc) | Err e => graise e end
  end.
Definition minio_factory : FactoryFunc := fun cfg =>
  match cfg.(Minoss) with
  | None => graise (config_nil "minio")
  | Some c => let! mfs := on_min (NewMinFs new_client c cfg.(Option_)) in gret (MinDriver mfs)
  end.
Definition s3_factory : FactoryFunc := fun cfg =>
  match cfg.(S3) with
  | None => graise (config_nil "s3")
  | Some c => let! s3fs := on_s3 (NewS3Fs LoadDefaultConfig c cfg.(Option_)) in gret (S3Driver s3fs)
  end.
(** [range registry] in the order that Go takes. *)
Context (range : list string -> list string).
Definition registeredNames (registry : gmap string FactoryFunc) : list string := range (map fst (map_to_list registry)).
Definition quoted (s : string) : string := String "034" (s ++ String "034" "").
Definition listed (names : list string) : string := "[" ++ String.concat " " names ++ "]".
Definition kind_of (cfg : StorageConfig) : option string :=
  match cfg.(Local), cfg.(Tencent), cfg.(Minoss), cfg.(S3) with
  | Some _, _, _, _ => Some "local"
  | None, Some _, _, _ => Some "tencos"
  | None, None, Some _, _ => Some "minio"
  | None, None, None, Some _ => Some "s3"
  | None, None, None, None => None
  end.
Definition not_registered (kind : string) : error :=
  ErrNew ("storage driver " ++ quoted kind ++ " not registered, please import _ " ++ quoted ("github.com/ygpkg/yg-go/storage/v2/" ++ kind)).
Definition NewStorageWithCfg2 (registry : gmap string FactoryFunc) (cfg : StorageConfig) : M St Storager :=
  match kind_of cfg with
  | None => graise (ErrNew ("no storage config matched, registered drivers: " ++ listed (registeredNames registry)))
  | Some kind => match registry !! kind with None => graise (not_registered kind) | Some factory => factory cfg end
  end.
Definition NewStorage2 (registry : gmap string FactoryFunc) (purpose : string) : M St Storager :=
  let! cfg := on_settings (GetYaml SettingGroupCore (SettingPrefix ++ purpose)) in NewStorageWithCfg2 registry cfg.
Definition LoadStorager2 (registry : gmap string FactoryFunc) (purpose : string) : M St Storager := load_or (NewStorage2 registry) purpose.
Definition imported : gmap string FactoryFunc :=
  Register "s3" s3_factory (Register "minio" minio_factory (Register "tencos" tencos_factory (Register "local" local_factory ∅))).
End Storagers.

(** * What is kept *)
Section Laws.
Context `{Env} {Y D C : Type} `{Cos D} `{StoreLaws C}.
Abbreviation St := (Host Y D C).
Context (GetYaml : string -> string -> M Y StorageConfig) (cwd : path)
  (cos_url : string -> option error) (cos_presign : string -> string -> Res string)
  (mime : string -> string) (url_Parse : string -> option (string * string)) (url_JoinPath : string -> list string -> option string)
  (LoadDefaultConfig : option error) (body_of : string -> Z -> Res string) (new_client : string -> option error).
Abbreviation load := (LoadStorager GetYaml cwd cos_url LoadDefaultConfig new_client).
Abbreviation upload := (UploadFile GetYaml cwd cos_url cos_presign mime url_Parse url_JoinPath LoadDefaultConfig body_of new_client).
Abbreviation save_with := (storager_Save cwd cos_presign mime url_Parse url_JoinPath body_of).
Implicit Types (w : World St) (s : Storager).

Inductive StorageOp : Type := OpLoad (purpose : string) | OpUpload (fi : FileInfo) (data : string).
Definition run_storage_op (o : StorageOp) : M St unit :=
  match o with
  | OpLoad p => gtry (load p) ;;; gret tt
  | OpUpload fi data => gtry (upload fi data) ;;; gret tt
  end.
Definition run_storage_ops (l : list StorageOp) : M St unit := gfor l run_storage_op.
(** Code that leaves the storagers alone. *)
Definition keeps_map {A} (m : M St A) : Prop := forall w, storagerMap (st (snd (m w))) = storagerMap (st w).
Lemma zoom_keeps {T A} (get : St -> T) (set : T -> St -> St) (m : M T A) : (forall t h, storagerMap (set t h) = storagerMap h) -> keeps_map (zoom get set m).
Proof. intros Hs w. unfold zoom. destruct (m _) as [r w']. apply Hs. Qed.
Lemma bind_keeps {A B} (m : M St A) (k : A -> M St B) : keeps_map m -> (forall a, keeps_map (k a)) -> keeps_map (gbind m k).
Proof. intros Hm Hk w. rewrite gbind_eq. specialize (Hm w). destruct (m w) as [[a|e] w']; cbn in *; [|done]. by rewrite Hk. Qed.
Lemma try_keeps {A} (m : M St A) : keeps_map m -> keeps_map (gtry m).
Proof. intros Hm w. unfold gtry. specialize (Hm w). by destruct (m w). Qed.
Lemma new_keeps purpose : keeps_map (NewStorage GetYaml cwd cos_url LoadDefaultConfig new_client purpose).
Proof.
  apply bind_keeps; [by apply zoom_keeps|]. intros cfg. unfold NewStorageWithCfg.
  destruct (Local cfg); [apply bind_keeps; [by apply zoom_keeps|by intros ? ?]|].
  destruct (Tencent cfg); [destruct (NewTencentCos _ _); by intros ?|].
  destruct (Minoss cfg); [apply bind_keeps; [by apply zoom_keeps|by intros ? ?]|].
  destruct (S3 cfg); [apply bind_keeps; [by apply zoom_keeps|by intros ? ?]|by intros ?].
Qed.
Lemma save_keeps s fi data : keeps_map (save_with s fi data).
Proof.
  destruct s; cbn [storager_Save]; [by apply zoom_keeps|apply bind_keeps..]; try (apply try_keeps; by apply zoom_keeps); by intros [] ?.
Qed.
(** A load answers what it has, or remembers what it makes. *)
Lemma load_cases p w r w' : load p w = (r, w') ->
  (exists s, r = Ok s /\ storagerMap (st w) !! p = Some s /\ w' = w) \/
  (storagerMap (st w) !! p = None /\
   ((exists s, r = Ok s /\ storagerMap (st w') = <[p := s]> (storagerMap (st w))) \/ (exists e, r = Err e /\ storagerMap (st w') = storagerMap (st w)))).
Proof.
  unfold LoadStorager, load_or. destruct (storagerMap (st w) !! p) as [s|] eqn:E; [intros [= <- <-]; left; by exists s|].
  rewrite gbind_eq. pose proof (new_keeps p w) as Hn. destruct (NewStorage _ _ _ _ _ p w) as [[s|e] w1]; intros [= <- <-]; right; (split; [done|]).
  - left. exists s. split; [done|]. cbn in *. by rewrite Hn.
  - right. exists e. by split.
Qed.
Lemma load_again p w s : storagerMap (st w) !! p = Some s -> load p w = (Ok s, w).
Proof. intros E. unfold LoadStorager, load_or. by rewrite E. Qed.
Definition kept (p : string) (s : Storager) (w : World St) : Prop := storagerMap (st w) !! p = Some s.
Lemma load_kept p s q w : kept p s w -> kept p s (snd (load q w)).
Proof.
  unfold kept. intros Hp. destruct (load q w) as [r w'] eqn:E. cbn.
  destruct (load_cases q w r w' E) as [(s' & _ & _ & ->)|(Hq & [(s' & _ & ->)|(e & _ & ->)])]; [done| |done].
  rewrite lookup_insert_ne by congruence. done.
Qed.
Lemma op_kept p s o w : kept p s w -> kept p s (snd (run_storage_op o w)).
Proof.
  intros Hp. destruct o as [q|fi data]; unfold run_storage_op; rewrite gbind_eq; unfold gtry.
  - pose proof (load_kept p s q w Hp) as Hk. by destruct (load q w).
  - assert (Hk : kept p s (snd (upload fi data w))); [|by destruct (upload fi data w)].
    unfold UploadFile. rewrite gbind_eq. unfold gtry. pose proof (load_kept p s (FI.Purpose fi) w Hp) as Hk.
    destruct (load (FI.Purpose fi) w) as [[s'|e] w']; [|done]. unfold kept. by rewrite save_keeps.
Qed.
Lemma ops_kept p s l w : kept p s w -> kept p s (snd (run_storage_ops l w)).
Proof.
  revert w. induction l as [|o l IH]; intros w Hp; [done|]. unfold run_storage_ops. cbn [gfor]. rewrite gbind_eq.
  pose proof (op_kept p s o w Hp) as Hk. destruct (run_storage_op o w) as [[[]|e] w']; cbn in *; [|done]. by apply IH.
Qed.
(** A storager is kept for good: once a load of a purpose has succeeded, loads
    of that purpose answer it again, without a call, after any loads and uploads
    and whatever the settings have become; a load that fails remembers nothing,
    so the next one tries again. *)
Theorem LoadStorager_sticky p w r w1 : load p w = (r, w1) ->
  match r with
  | Ok s => forall l, let w2 := snd (run_storage_ops l w1) in load p w2 = (Ok s, w2)
  | Err _ => storagerMap (st w1) = storagerMap (st w)
  end.
Proof.
  intros E. destruct (load_cases p w r w1 E) as [(s & -> & Hs & ->)|(_ & [(s & -> & Hs)|(e & -> & Hs)])]; [| |done];
    intros l; apply load_again; apply (ops_kept p s l); unfold kept; [done|by rewrite Hs, lookup_insert_eq].
Qed.

(** The driver a setting asks for: the first service it names, in the order
    local folder, Tencent, MinIO, S3, with its part of the setting. *)
Inductive asks_for (cfg : StorageConfig) : Storager -> Prop :=
  | asks_local c : Local cfg = Some c -> asks_for cfg (LocalDriver (mkLocal c.(LocalRoot) c.(LocalPublicPrefix)))
  | asks_tencent c : Local cfg = None -> Tencent cfg = Some c -> asks_for cfg (TencentDriver (mkTencentCos c))
  | asks_minio c : Local cfg = None -> Tencent cfg = None -> Minoss cfg = Some c ->
      asks_for cfg (MinDriver (mkMinFs (Option_ cfg) c))
  | asks_s3 c : Local cfg = None -> Tencent cfg = None -> Minoss cfg = None -> S3 cfg = Some c ->
      asks_for cfg (S3Driver (mkS3Fs (Option_ cfg) c)).
Lemma NewStorageWithCfg_asked cfg w r w' :
  NewStorageWithCfg cwd cos_url LoadDefaultConfig new_client cfg w = (r, w') ->
  upload_tabs (st w') = upload_tabs (st w) /\ match r with Ok s => asks_for cfg s | Err _ => True end.
Proof.
  unfold NewStorageWithCfg. destruct (Local cfg) as [c|] eqn:El.
  - rewrite gbind_eq. unfold on_fs, zoom. destruct (NewLocalStorage _ _ _ _) as [[ls|e] w1] eqn:E; intros [= <- <-]; (split; [done|]); [|done].
    unfold NewLocalStorage in E. apply gbind_inv in E as [(? & _ & [=])|([] & w2 & _ & E)]. apply gret_inv in E as [[= ->] _]. by apply asks_local.
  - destruct (Tencent cfg) as [c|] eqn:Et.
    { unfold NewTencentCos. destruct (cos_url _); intros [= <- <-]; (split; [done|]); [done|by apply asks_tencent]. }
    destruct (Minoss cfg) as [c|] eqn:Em.
    { rewrite gbind_eq. unfold on_min, zoom. destruct (NewMinFs _ _ _ _) as [[mfs|e] w1] eqn:E; intros [= <- <-]; (split; [done|]); [|done].
      unfold NewMinFs in E. destruct (str_eqb _ _); [done|]. destruct (new_client _); [done|].
      apply gbind_inv in E as [(? & _ & [=])|(ok & w2 & _ & E)]. destruct (negb ok); [done|]. apply gret_inv in E as [[= ->] _]. by apply asks_minio. }
    destruct (S3 cfg) as [c|] eqn:Es; [|by intros [= <- <-]].
    rewrite gbind_eq. unfold on_s3, zoom. destruct (NewS3Fs _ _ _ _) as [[s3fs|e] w1] eqn:E; intros [= <- <-]; (split; [done|]); [|done].
    unfold NewS3Fs in E. destruct (str_eqb _ _); [done|]. destruct LoadDefaultConfig; [done|].
    apply gbind_inv in E as [(? & _ & [=])|(ok & w2 & _ & E)]. apply gret_inv in E as [[= ->] _]. by apply asks_s3.
Qed.
(** The first load of a purpose makes what its setting asks for. *)
Lemma load_asked p w cfg wy r w' : storagerMap (st w) !! p = None ->
  on_settings (GetYaml SettingGroupCore (SettingPrefix ++ p)) w = (Ok cfg, wy) -> load p w = (r, w') ->
  upload_tabs (st w') = upload_tabs (st w) /\ match r with Ok s => asks_for cfg s | Err _ => True end.
Proof.
  intros Hm Hy. unfold LoadStorager, load_or. rewrite Hm, gbind_eq. unfold NewStorage. rewrite gbind_eq, Hy.
  assert (Ht : upload_tabs (st wy) = upload_tabs (st w)).
  { unfold on_settings, zoom in Hy. destruct (GetYaml _ _ _) as [r0 w0]. by injection Hy as _ <-. }
  destruct (NewStorageWithCfg _ _ _ _ cfg wy) as [r1 w1] eqn:E. apply NewStorageWithCfg_asked in E as [Ht1 Hr].
  destruct r1 as [s|e]; intros [= <- <-]; (split; [by rewrite <- Ht, <- Ht1|done]).
Qed.

(** ** Uploading and reading back *)
Definition takes (s : Storager) (fi : FileInfo) (data : string) (h : St) : Prop :=
  match s with
  | LocalDriver ls => rooted ls.(Dir_) = true /\ Tree (fs h) /\ free_for (place ls.(Dir_) fi.(FI.StoragePath)) (fs h)
  | TencentDriver _ | S3Driver _ => fi.(FI.StoragePath) <> ""
  | MinDriver _ => fi.(FI.StoragePath) <> "" /\ CheckValidObjectName fi.(FI.StoragePath) = None /\
                   fi.(FI.Size) = Z.of_nat (String.length data) /\ Z.of_nat (String.length data) <= maxMultipartPutObjectSize
  end.
(** What the service of [Upload] promises of whole objects. *)
Class CosObjects `{!CosLaws D} : Prop := {
  Object_Put_ok : forall k d c, k <> "" -> exists tag c', Object_Put k d c = (Ok tag, c') /\ Upload.objects c' = <[k := d]> (Upload.objects c);
  Object_Get_ok : forall k d c, Upload.objects c !! k = Some d -> Object_Get k c = Ok d
}.
Context `{!CosLaws D, !CosObjects}.
Hypothesis Hnf : forall n, no_fault_from n.
Lemma zoom_fst {T A} (get : St -> T) (set : T -> St -> St) (m : M T A) w : fst (zoom get set m w) = fst (m (mkWorld (calls w) (get (st w)))).
Proof. unfold zoom. by destruct (m _). Qed.
Lemma zoom_run {T A} (get : St -> T) (set : T -> St -> St) (m : M T A) w r (w' : World T) : m (mkWorld (calls w) (get (st w))) = (r, w') ->
  zoom get set m w = (r, mkWorld (calls w') (set (st w') (st w))).
Proof. intros E. unfold zoom. by rewrite E. Qed.
(** A save that succeeds, and what is then read. *)
Definition reads_back (s : Storager) (fi : FileInfo) (data : string) w : Prop :=
  exists fi' w', save_with s fi data w = (Ok (Ok tt, fi'), w') /\ fst (storager_ReadAll cwd s fi'.(FI.StoragePath) w') = Ok data.
Lemma local_read (ls : LocalStorage) (p data : string) (v : World FS) : rooted ls.(Dir_) = true -> at_ (st v) (place ls.(Dir_) p) = Some (File data) ->
  fst ((let! f := LocalDir.ReadFile cwd ls p in gextr (fun t => (read (resolve cwd f) t, t))) v) = Ok data.
Proof.
  intros Hr Hat. unfold LocalDir.ReadFile. cbv zeta. rewrite (fpath_canon ls p Hr). unfold os_Stat, os_Open.
  rewrite !gbind_eq, run_gextr by done. cbn [fst snd]. rewrite res_place. unfold stat. rewrite Hat.
  rewrite ?res_place, gbind_eq, run_gextr by done. cbn [fst snd st]. unfold open. rewrite Hat. cbn [gret].
  rewrite run_gextr by done. cbn [fst snd st]. rewrite res_place. unfold read. by rewrite Hat.
Qed.
Lemma local_reads_back ls fi data w : takes (LocalDriver ls) fi data (st w) -> reads_back (LocalDriver ls) fi data w.
Proof.
  intros (Hr & Ht & Hfree).
  destruct (save_run cwd Hnf ls fi data (mkWorld (calls w) (fs (st w))) Hr Ht) as (r & fi' & w' & E & Hp & Hc).
  destruct Hc as [(-> & _ & _ & Hq)|(_ & Hn & _)]; [|done].
  do 2 eexists. cbn [storager_Save]. split; [by apply zoom_run|]. cbn [storager_ReadAll]. unfold on_fs. rewrite zoom_fst. cbn [calls st fs].
  assert (Hat : at_ (st w') (place ls.(Dir_) fi.(FI.StoragePath)) = Some (File data)) by (rewrite Hq; unfold with_file; by rewrite bool_decide_eq_true_2).
  rewrite Hp in *. erewrite local_read; [done|done|]. unfold place. by rewrite Clean_idem.
Qed.
Lemma cos_reads_back tc fi data w : takes (TencentDriver tc) fi data (st w) -> reads_back (TencentDriver tc) fi data w.
Proof.
  intros Hp. unfold reads_back. cbn [storager_Save storager_ReadAll]. unfold answered, gtry, on_cos, zoom.
  rewrite gbind_eq. unfold Upload.Save, Upload.ReadFile, str_eqb. rewrite (proj2 (String.eqb_neq _ _) Hp). rewrite gbind_eq. unfold cos_call, cos_read.
  rewrite gextr_ok by apply (Hnf 0), Nat.le_0_l. cbn [st calls cos tabs].
  destruct (Object_Put_ok fi.(FI.StoragePath) data (cosv (st w)) Hp) as (tag & c' & E & Ho). rewrite E. cbn [fst snd].
  do 2 eexists. split; [reflexivity|]. cbn [gret]. destruct fi. cbn in *. rewrite (proj2 (String.eqb_neq _ _) Hp).
  unfold cos_call. rewrite gextr_ok by apply (Hnf 0), Nat.le_0_l. cbn. rewrite (Object_Get_ok _ data); [done|]. by rewrite Ho, lookup_insert_eq.
Qed.
Lemma s3_reads_back s3fs fi data w : takes (S3Driver s3fs) fi data (st w) -> reads_back (S3Driver s3fs) fi data w.
Proof.
  intros Hp. unfold reads_back. cbn [storager_Save storager_ReadAll]. unfold answered, gtry, on_s3, zoom.
  rewrite gbind_eq. unfold S3Fs.Save, S3Fs.ReadFile, str_eqb. rewrite (proj2 (String.eqb_neq _ _) Hp). rewrite gbind_eq.
  rewrite run_call by apply (Hnf 0), Nat.le_0_l. cbn [st calls store disk].
  destruct (Put_ok (bucket s3fs) fi.(FI.StoragePath) (mime fi.(FI.FileExt)) data (s3 (st w)) Hp) as (c' & E & Ho & _). rewrite E. cbn [fst snd].
  do 2 eexists. split; [reflexivity|]. destruct fi. cbn in *. rewrite (proj2 (String.eqb_neq _ _) Hp).
  rewrite run_ask by apply (Hnf 0), Nat.le_0_l. cbn. by rewrite Get_ok, Ho, lookup_insert_eq.
Qed.
Lemma min_reads_back mfs fi data w : takes (MinDriver mfs) fi data (st w) -> reads_back (MinDriver mfs) fi data w.
Proof.
  intros (Hp & Hn & Hs & Hm). unfold reads_back. cbn [storager_Save storager_ReadAll]. unfold answered, gtry, on_min, zoom.
  assert (Hf : forall n, env_fault n = None) by (intros n; apply (Hnf 0), Nat.le_0_l).
  rewrite gbind_eq. unfold MinFs.Save, MinFs.ReadFile, str_eqb. rewrite (proj2 (String.eqb_neq _ _) Hp). rewrite gbind_eq.
  assert (Hput : forall v, PutObject body_of (min_bucket mfs) fi.(FI.StoragePath) (mime fi.(FI.FileExt)) data fi.(FI.Size) v =
    call (Put (min_bucket mfs) fi.(FI.StoragePath) (mime fi.(FI.FileExt)) data) v).
  { intros v. unfold PutObject, checked. rewrite Hn, Hs, (proj2 (Z.ltb_ge _ _)) by lia.
    rewrite (proj2 (Z.ltb_ge (Z.of_nat _) 0)) by lia. destruct (Z.eqb_spec (Z.of_nat (String.length data)) 0) as [E|E].
    - by destruct data; [|cbn in E; lia].
    - by rewrite Z.eqb_refl. }
  rewrite Hput, run_call by done. cbn [st calls store disk].
  destruct (Put_ok (min_bucket mfs) fi.(FI.StoragePath) (mime fi.(FI.FileExt)) data (minio (st w)) Hp) as (c' & E & Ho & _). rewrite E. cbn [fst snd].
  do 2 eexists. split; [reflexivity|]. destruct fi. cbn in *. rewrite (proj2 (String.eqb_neq _ _) Hp).
  rewrite gbind_eq. unfold GetObject, checked. rewrite Hn. cbn [gret]. rewrite run_ask by done. cbn. by rewrite Get_ok, Ho, lookup_insert_eq.
Qed.
(** Whichever driver the setting of the purpose asks for: a file that it can
    take, uploaded by [UploadFile], is read back whole under the path that the
    record then has, through the storager that loading the purpose again gives. *)
Theorem uploaded_reads_back fi data s w w1 :
  load fi.(FI.Purpose) w = (Ok s, w1) -> takes s fi data (st w1) ->
  exists fi' w', upload fi data w = (Ok (Ok tt, fi'), w') /\ load fi.(FI.Purpose) w' = (Ok s, w') /\
    fst (storager_ReadAll cwd s fi'.(FI.StoragePath) w') = Ok data.
Proof.
  intros E Ht. assert (Hr : reads_back s fi data w1).
  { destruct s; [by apply local_reads_back|by apply cos_reads_back|by apply min_reads_back|by apply s3_reads_back]. }
  destruct Hr as (fi' & w' & Es & Er). exists fi', w'. split; [|split; [|done]].
  - unfold UploadFile. rewrite gbind_eq. unfold gtry. by rewrite E.
  - apply load_again. pose proof (save_keeps s fi data w1) as Hk. rewrite Es in Hk. cbn in Hk. rewrite Hk.
    destruct (load_cases _ _ _ _ E) as [(s' & [= <-] & Hs & ->)|(_ & [(s' & [= <-] & Hs)|(e & [=] & _)])]; [done|by rewrite Hs, lookup_insert_eq].
Qed.
End Laws.

(** * The second package against the first *)
Section Versions.
Context `{Env} {Y D C : Type} `{Cos D} `{Store C}.
Abbreviation St := (Host Y D C).
Context (GetYaml : string -> string -> M Y StorageConfig) (cwd : path) (cos_url : string -> option error)
  (LoadDefaultConfig : option error) (new_client : string -> option error) (range : list string -> list string).
Abbreviation new1 := (NewStorageWithCfg cwd cos_url LoadDefaultConfig new_client).
Abbreviation all := (imported cwd cos_url LoadDefaultConfig new_client).
Implicit Types (w : World St) (registry : gmap string (@FactoryFunc Y D C)).
Lemma imported_kind cfg kind (f : @FactoryFunc Y D C) : kind_of cfg = Some kind -> all !! kind = Some f -> f cfg = new1 cfg.
Proof.
  unfold kind_of, imported, Register, new1. destruct (Local cfg) as [c|] eqn:E1; [|destruct (Tencent cfg) as [c|] eqn:E2; [|destruct (Minoss cfg) as [c|] eqn:E3; [|destruct (S3 cfg) as [c|] eqn:E4; [|done]]]];
    intros [= <-]; rewrite ?lookup_insert_eq, ?lookup_insert_ne, ?lookup_insert_eq by done; intros [= <-];
    unfold local_factory, tencos_factory, minio_factory, s3_factory; by rewrite ?E1, ?E2, ?E3, ?E4.
Qed.
Lemma versions_cfg registry cfg w : registry ⊆ all ->
  NewStorageWithCfg2 range registry cfg w = new1 cfg w \/
  (exists kind, kind_of cfg = Some kind /\ registry !! kind = None /\ NewStorageWithCfg2 range registry cfg w = (Err (not_registered kind), w)) \/
  (kind_of cfg = None /\ (exists e, NewStorageWithCfg2 range registry cfg w = (Err e, w)) /\ exists e, new1 cfg w = (Err e, w)).
Proof.
  intros Hsub. unfold NewStorageWithCfg2. destruct (kind_of cfg) as [kind|] eqn:Ek.
  - destruct (registry !! kind) as [f|] eqn:Ef.
    + left. by rewrite (imported_kind cfg kind f Ek) by (by eapply lookup_weaken).
    + right. left. by exists kind.
  - right. right. split; [done|]. split; [by eexists|]. unfold kind_of, new1 in *.
    destruct (Local cfg), (Tencent cfg), (Minoss cfg), (S3 cfg); try done. by eexists.
Qed.
(** With any of the four driver packages imported, the second package loads the
    storager that the first one loads, with the same effects; it fails where
    the driver of the setting is not imported, naming the package to import,
    and, as the first one does, where the setting names none. *)
Theorem storage_v2_same registry purpose w : registry ⊆ all ->
  LoadStorager2 GetYaml range registry purpose w = LoadStorager GetYaml cwd cos_url LoadDefaultConfig new_client purpose w \/
  exists cfg w1, storagerMap (st w) !! purpose = None /\ on_settings (GetYaml SettingGroupCore (SettingPrefix ++ purpose)) w = (Ok cfg, w1) /\
    match kind_of cfg with
    | Some kind => registry !! kind = None /\ LoadStorager2 GetYaml range registry purpose w = (Err (not_registered kind), w1)
    | None => (exists e, LoadStorager2 GetYaml range registry purpose w = (Err e, w1)) /\
              exists e, LoadStorager GetYaml cwd cos_url LoadDefaultConfig new_client purpose w = (Err e, w1)
    end.
Proof.
  intros Hsub. unfold LoadStorager2, LoadStorager, load_or. destruct (storagerMap (st w) !! purpose) as [s|] eqn:Em; [by left|].
  unfold NewStorage2, NewStorage. rewrite !gbind_eq. destruct (on_settings _ w) as [[cfg|e] w1] eqn:Ey; [|by left].
  destruct (versions_cfg registry cfg w1 Hsub) as [E|[(kind & Ek & Er & E)|(Ek & [e1 E1] & e2 & E2)]].
  - left. by rewrite E.
  - right. exists cfg, w1. rewrite Ek, E. done.
  - right. exists cfg, w1. rewrite Ek, E1, E2. split; [done|]. split; [done|]. split; by eexists.
Qed.
End Versions.

(** * A process at work *)
#[export] Instance mem_cos_objects : CosObjects (D := Upload.Mem.Bucket).
Proof. split; [intros k d c _; by do 2 eexists|intros k d c E; cbn in *; by rewrite E]. Qed.
Definition no_setting : error := ErrNew "record not found".
Definition yaml_of : string -> string -> M (gmap string StorageConfig) StorageConfig := fun group key =>
  @gextr quietEnv _ _ (fun m => (match m !! (group ++ "/" ++ key) with Some cfg => Ok cfg | None => Err no_setting end, m)).
Definition plain_option (purpose : string) : StorageOption := mkOption purpose 900.
Definition demo_settings : gmap string StorageConfig :=
  {[ "core/cos-doc" := mkConfig (plain_option "doc") None None None (Some (mkS3Config "https://s3.local" "" "" "" "b" true));
     "core/cos-img" := mkConfig (plain_option "img") (Some (mkLocalConfig "/data/img" "")) None (Some (mkMinConfig "min.local" "" "" "b")) None;
     "core/cos-none" := mkConfig (plain_option "none") None None None None ]}.
Definition demo_host : World (Host (gmap string StorageConfig) Upload.Mem.Bucket MemStore.Mem) :=
  mkWorld 0 (mkHost demo_settings ∅ (mkTabs (mkGTab [] 1) (mkGTab [] 1)) (Upload.Mem.mkBucket ∅ ∅) (MemStore.mkMem ∅ ∅) (MemStore.mkMem ∅ ∅) ∅).
Definition demo_load := LoadStorager (H := quietEnv) (D := Upload.Mem.Bucket) (C := MemStore.Mem) yaml_of [] (fun _ => None) None (fun _ => None).
Definition demo_file (purpose p : string) : FileInfo := FI.mkFile 0 0 0 None 0 0 purpose "" ".txt" "" 0 "" "" p "" 0 "" FI.notChunked.
Definition demo_upload := UploadFile (H := quietEnv) (D := Upload.Mem.Bucket) (C := MemStore.Mem) yaml_of [] (fun _ => None) signed
  (fun _ => "text/plain") (fun _ => Some ("https", "s3.local")) (fun b l => Some (join_elems (b :: l))) None no_body (fun _ => None).
Definition demo_s3 : Storager := S3Driver (mkS3Fs (plain_option "doc") (mkS3Config "https://s3.local" "" "" "" "b" true)).
Lemma demo_loads : fst (demo_load "doc" demo_host) = Ok demo_s3.
Proof. vm_compute. reflexivity. Qed.
Lemma uploaded_reads_back_witness : exists fi' w', demo_upload (demo_file "doc" "a.txt") "text" demo_host = (Ok (Ok tt, fi'), w') /\
  fst (storager_ReadAll (H := quietEnv) [] demo_s3 fi'.(FI.StoragePath) w') = Ok "text".
Proof.
  destruct (uploaded_reads_back (H := quietEnv) (D := Upload.Mem.Bucket) (C := MemStore.Mem) yaml_of [] (fun _ => None) signed
    (fun _ => "text/plain") (fun _ => Some ("https", "s3.local")) (fun b l => Some (join_elems (b :: l))) None no_body (fun _ => None)
    quietEnv_ok (demo_file "doc" "a.txt") "text" demo_s3 demo_host (snd (demo_load "doc" demo_host))) as (fi' & w' & E & _ & Er).
  - rewrite <- demo_loads. apply surjective_pairing.
  - by intros [=].
  - by exists fi', w'.
Defined.
Lemma LoadStorager_sticky_witness :
  let w2 := snd (run_storage_ops (H := quietEnv) (D := Upload.Mem.Bucket) (C := MemStore.Mem) yaml_of [] (fun _ => None) signed
    (fun _ => "text/plain") (fun _ => Some ("https", "s3.local")) (fun b l => Some (join_elems (b :: l))) None no_body (fun _ => None)
    [OpUpload (demo_file "img" "a.txt") "text"; OpLoad "none"] (snd (demo_load "doc" demo_host))) in
  demo_load "doc" w2 = (Ok demo_s3, w2).
Proof.
  apply (LoadStorager_sticky (H := quietEnv) (D := Upload.Mem.Bucket) (C := MemStore.Mem) yaml_of [] (fun _ => None) signed
    (fun _ => "text/plain") (fun _ => Some ("https", "s3.local")) (fun b l => Some (join_elems (b :: l))) None no_body (fun _ => None)
    "doc" demo_host (Ok demo_s3) (snd (demo_load "doc" demo_host))).
  rewrite <- demo_loads. apply surjective_pairing.
Defined.
(** The local folder comes before MinIO. *)
Example local_first : fst (demo_load "img" demo_host) = Ok (LocalDriver (mkLocal "/data/img" "")).
Proof. vm_compute. reflexivity. Qed.
Definition only_local : gmap string FactoryFunc :=
  Register "local" (local_factory (H := quietEnv) (Y := gmap string StorageConfig) (D := Upload.Mem.Bucket) (C := MemStore.Mem) []) ∅.
Definition demo_load2 := LoadStorager2 (D := Upload.Mem.Bucket) (C := MemStore.Mem) yaml_of (fun l => l) only_local.
Lemma storage_v2_same_witness : demo_load2 "img" demo_host = demo_load "img" demo_host /\
  fst (demo_load2 "doc" demo_host) = Err (not_registered "s3").
Proof.
  split; [|vm_compute; reflexivity].
  destruct (storage_v2_same (H := quietEnv) (D := Upload.Mem.Bucket) (C := MemStore.Mem) yaml_of [] (fun _ => None) None (fun _ => None) (fun l => l)
    only_local "img" demo_host) as [E|(cfg & w1 & _ & E & Hk)].
  - unfold only_local, imported, Register. apply map_subseteq_spec. intros i f. destruct (decide (i = "local")) as [->|Hi].
    + by rewrite lookup_insert_eq, !lookup_insert_ne, lookup_insert_eq by done.
    + by rewrite lookup_insert_ne, lookup_empty by done.
  - exact E.
  - exfalso. assert (Ec : Some cfg = demo_settings !! "core/cos-img").
    { unfold on_settings, zoom in E. apply (f_equal fst) in E. cbn [yaml_of] in E. revert E. vm_compute. congruence. }
    assert (Ek : kind_of cfg = Some "local") by (vm_compute in Ec; injection Ec as ->; reflexivity).
    rewrite Ek in Hk. destruct Hk as [Hk _]. unfold only_local, Register in Hk. by rewrite lookup_insert_eq in Hk.
Defined.
