(* ===== verification/StorageV2.v ===== *)
(** [src/storage/v2]: the drivers of the second package, on the same services and
    disk, each in a Module of its own; the records and look-ups of types.go and
    biz.go.  The package is a copy of the first one, so the theorems say that it
    still is: every method is that of the first package, but for the text of two
    errors of the driver of S3.  What a driver keeps is that of [LocalDir],
    [Upload], [MinFs] and [S3Fs]; the registry is in [Storage]. *)
From S2P Require Import Prelude Strings Gorm FileInfo Files LocalDir Upload ObjectStore S3Fs MinFs Storage.
#[local] Open Scope string_scope.
#[local] Open Scope Z_scope.

(** * [types.go], [biz.go] *)
Module V2Types.
(** The records have the fields of those of the first package. *)
Definition FileInfo : Type := FI.FileInfo.
Definition TempFile : Type := TF.TempFile.
Definition CreateMultipartUploadInput : Type := S3Fs.CreateMultipartUploadInput.
Definition GeneratePresignedURLInput : Type := S3Fs.GeneratePresignedURLInput.
Definition UploadPartInput : Type := S3Fs.UploadPartInput.
Definition CompleteMultipartUploadInput : Type := S3Fs.CompleteMultipartUploadInput.
Definition AbortMultipartUploadInput : Type := S3Fs.AbortMultipartUploadInput.
Section Tables.
Context `{Env} {S : Type} `{HasTab S FI.FileInfo}.
Definition GetFileByChunkHash (hashstr : string) (size : Z) : M S FileInfo :=
  let! fi := gorm_first (where_ (fun f => str_eqb f.(FI.ChunkHash) hashstr) (where_ (fun f => f.(FI.Size) =? size) newQuery)) in
  if fi.(FI.ID) =? 0 then graise ErrRecordNotFound else gret fi.
Definition GetFileByHash (hashstr : string) : M S FileInfo :=
  let! fi := gorm_first (where_ (fun f => str_eqb f.(FI.Hash) hashstr) newQuery) in
  if fi.(FI.ID) =? 0 then graise ErrRecordNotFound else gret fi.
Definition GetFileByPublicURL (publicURL : string) : M S FileInfo :=
  let! fi := gorm_first (where_ (fun f => str_eqb f.(FI.PublicURL) publicURL) newQuery) in
  if fi.(FI.ID) =? 0 then graise ErrRecordNotFound else gret fi.
Definition GetFileByID (id : Z) : M S FileInfo :=
  if id =? 0 then graise ErrRecordNotFound else gorm_first (where_ (fun f => f.(FI.ID) =? id) newQuery).
End Tables.
Section Paths.
Context `{Env} {C : Type} (tz : Z -> Z) (intn : nat -> nat -> Z -> Z).
Definition GenerateFileStoragePath (purpose : string) (owner : Z) (fileExt : string) : M (Sys C) string :=
  let! now := gnow in
  let! text := random_text intn 9 in
  gret (purpose ++ "/" ++ Format8 tz now ++ "/" ++ fmt_d owner ++ "-" ++ text ++ fileExt).
Definition GenerateFileStoragePathWithName (purpose : string) (owner : Z) (fileName : string) : M (Sys C) string :=
  let! now := gnow in
  let! text := random_text intn 9 in
  gret (purpose ++ "/" ++ Format8 tz now ++ "/" ++ fmt_d owner ++ "-" ++ text ++ "/" ++ fileName).
End Paths.
Fixpoint contains (arr : list Z) (val : Z) : bool := match arr with [] => false | v :: arr' => if v =? val then true else contains arr' val end.
(** The loop over the numbers from [i] on. *)
Fixpoint need_from (n : nat) (i : Z) (exiPartNumbers : list Z) : list Z :=
  match n with
  | O => []
  | S n' => if negb (contains exiPartNumbers i) then i :: need_from n' (i + 1) exiPartNumbers else need_from n' (i + 1) exiPartNumbers
  end.
Definition getNeedUploadPartNumbers (partCount : Z) (exiPartNumbers : list Z) : list Z := need_from (Z.to_nat partCount) 0 exiPartNumbers.
End V2Types.

(** * [local/storer.go] *)
Module V2Local.
Record LocalStorage : Type := mkLocal { Dir_ : string; PublicPrefix : string }.
Section Local.
Context `{Env} (cwd : path).
Abbreviation os_Stat := (os_Stat cwd).
Abbreviation os_MkdirAll := (os_MkdirAll cwd).
Abbreviation os_Create := (os_Create cwd).
Abbreviation os_Open := (os_Open cwd).
Abbreviation os_ReadDir := (os_ReadDir cwd).
Abbreviation os_Remove := (os_Remove cwd).
Abbreviation io_Copy := (io_Copy cwd).
Abbreviation io_CopyFile := (io_CopyFile cwd).
Definition NewLocalStorage (dir publicPrefix : string) : M FS LocalStorage :=
  os_MkdirAll dir ;;; gret (mkLocal dir publicPrefix).

Section Methods.
Variable ls : LocalStorage.

(** The file information is the caller's: it comes back as it was changed. *)
Definition Save (fi : FileInfo) (r : IoReader) : M FS (Res unit * FileInfo) :=
  let storagePath := Clean fi.(FI.StoragePath) in
  let fi := FI.set_saved storagePath fi.(FI.Size) fi in
  let fpath := Join [ls.(Dir_); storagePath] in
  let dir := Dir fpath in
  let! opened := gtry (
    (let! st := gtry (os_Stat dir) in match st with Ok _ => gret tt | Err _ => os_MkdirAll dir end) ;;;
    os_Create fpath) in
  match opened with
  | Err e => gret (Err e, fi)
  | Ok _ => let! c := io_Copy fpath r in
            gret (match snd c with Some e => Err e | None => Ok tt end, FI.set_saved storagePath (fst c) fi)
  end.
Definition GetPublicURL (storagePath : string) (_ : bool) : string := ls.(PublicPrefix) ++ "/public.src?p=" ++ storagePath.
Definition GetPresignedURL (method storagePath : string) : Res string := Ok "".
(** The answer is the open file. *)
Definition ReadFile (storagePath : string) : M FS string :=
  let fpath := Join [ls.(Dir_); Clean storagePath] in
  os_Stat fpath ;;; os_Open fpath ;;; gret fpath.
Definition DeleteFile (storagePath : string) : M FS unit :=
  let fpath := Join [ls.(Dir_); Clean storagePath] in
  os_Stat fpath ;;; os_Remove fpath.

Definition copyFile (srcPath destPath : string) : M FS unit :=
  os_MkdirAll (Dir destPath) ;;; os_Open srcPath ;;; os_Create destPath ;;; io_CopyFile destPath srcPath.
Fixpoint copyDirectory (fuel : nat) (srcPath destPath : string) : M FS bool :=
  match fuel with
  | O => gret false
  | S fuel' =>
      os_MkdirAll destPath ;;;
      let! entries := os_ReadDir srcPath in
      each_entry entries (fun entry =>
        let srcEntryPath := Join [srcPath; fst entry] in
        let destEntryPath := Join [destPath; fst entry] in
        if snd entry : bool then copyDirectory fuel' srcEntryPath destEntryPath
        else copyFile srcEntryPath destEntryPath ;;; gret true)
  end.
Definition CopyDir (fuel : nat) (storagePath dest : string) : M FS bool :=
  let srcPath := Join [ls.(Dir_); Clean storagePath] in
  let! isDir := os_Stat srcPath in
  let destPath := Join [ls.(Dir_); Clean dest] in
  if isDir : bool then copyDirectory fuel srcPath destPath
  else copyFile srcPath destPath ;;; gret true.
Definition UploadDirectory (localDirPath destDir : string) : Res (list string) :=
  Err (ErrNew "UploadDirectory not implemented for LocalStorage").
(** Uploads in parts are not offered. *)
Definition CreateMultipartUpload (storagePath : option string) : Res string := Err (ErrNew "multipart upload not supported for LocalStorage").
Definition GeneratePresignedURL (storagePath uploadID : option string) (partNumber : option Z) : Res string :=
  Err (ErrNew "presigned part URL not supported for LocalStorage").
Definition UploadPart (storagePath uploadID : option string) (partNumber : option Z) (data : option string) : Res string :=
  Err (ErrNew "multipart upload not supported for LocalStorage").
Definition CompleteMultipartUpload (storagePath uploadID : option string) : Res unit :=
  Err (ErrNew "multipart upload not supported for LocalStorage").
Definition AbortMultipartUpload (storagePath uploadID : option string) : Res unit :=
  Err (ErrNew "multipart upload not supported for LocalStorage").
End Methods.
End Local.
End V2Local.

(** * [tencos/storer.go] *)
Module V2Cos.
Record TencentCos : Type := mkTencentCos { cosCfg : TencentCOSConfig }.
Section Tencent.
Context `{Env} {C : Type} `{Cos C}.
Context (url_Parse : string -> option error) (presign : string -> string -> Res string).
Definition NewTencentCos (cfg : TencentCOSConfig) : Res TencentCos :=
  match url_Parse ("https://" ++ cfg.(Upload.Bucket) ++ ".cos." ++ cfg.(Upload.Region) ++ ".myqcloud.com") with
  | Some e => Err e
  | None => Ok (mkTencentCos cfg)
  end.
Section Methods.
Variable tc : TencentCos.
Definition GetPublicURL (storagePath : string) (temp : bool) : string :=
  let host := "https://" ++ tc.(cosCfg).(Upload.Bucket) ++ ".cos." ++ tc.(cosCfg).(Upload.Region) ++ ".myqcloud.com/" in
  if negb temp then host ++ storagePath
  else match presign "GET" storagePath with Ok u => u | Err _ => "" end.
Definition GetPresignedURL (method storagePath : string) : Res string := presign method storagePath.

(** [r] is the data of the reader, [None] a nil reader. *)
Definition Save (fi : FileInfo) (r : option string) : M (Sys C) FileInfo :=
  if str_eqb fi.(FI.StoragePath) "" then graise (ErrNew "storage path is empty")
  else match r with
       | None => graise (ErrNew "reader is empty")
       | Some data =>
           let! tag := cos_call (Object_Put fi.(FI.StoragePath) data) in
           gret (FI.set_address (if str_eqb tag "" then fi.(FI.Hash) else "md5:" ++ Trim tag)
                   (GetPublicURL fi.(FI.StoragePath) false) fi)
       end.
Definition ReadFile (storagePath : string) : M (Sys C) string :=
  if str_eqb storagePath "" then graise (ErrNew "storage path is empty") else cos_read (Object_Get storagePath).
Definition DeleteFile (storagePath : string) : M (Sys C) unit :=
  if str_eqb storagePath "" then graise (ErrNew "storage path is empty") else cos_call (Object_Delete storagePath).

(** *** Copying *)
Definition isDirectory (storagePath : string) : M (Sys C) bool :=
  let! there := cos_read (Object_Head storagePath) in gret (negb there).
Definition copyObject (storagePath dest : string) : M (Sys C) unit :=
  cos_call (Object_Copy dest (TrimPrefix "https://" (GetPublicURL storagePath false))).
Fixpoint copyDirectory (fuel : nat) (storagePath dest : string) : M (Sys C) bool :=
  match fuel with
  | O => gret false
  | S fuel' =>
      let! res := cos_read (Bucket_Get storagePath "/") in
      gfor (fst res) (fun key => copyObject key (Join [dest; TrimPrefix storagePath key])) ;;;
      each_prefix (snd res) (fun prefix => copyDirectory fuel' prefix (Join [dest; TrimPrefix storagePath prefix]))
  end.
Definition CopyDir (fuel : nat) (storagePath dest : string) : M (Sys C) bool :=
  if str_eqb storagePath "" then graise (ErrNew "source storage path is empty")
  else if str_eqb dest "" then graise (ErrNew "destination storage path is empty")
  else let! isDir := isDirectory storagePath in
       if isDir : bool then copyDirectory fuel storagePath dest
       else copyObject storagePath dest ;;; gret true.
Definition UploadDirectory (localDirPath destDir : string) : Res (list string) :=
  Err (ErrNew "UploadDirectory not implemented for TencentCos").

(** *** Parts *)
(** The record that is pointed to comes back with the id of the upload. *)
Definition InitUploadTask (tempFile : TempFile) : M (Sys C) TempFile :=
  let! id := cos_call (InitiateMultipartUpload tempFile.(TF.StoragePath) tempFile.(TF.ChunkHash)) in
  gret (TF.set_upload id tempFile).
(** Parts count from 1 in the service and from 0 here. *)
Definition ListUploadExistsTrunk (tempFile : TempFile) : M (Sys C) (list Z) :=
  let! listRst := cos_read (ListParts tempFile.(TF.StoragePath) tempFile.(TF.ThirdUploadID)) in
  gret (merge_sort Z.le (map (fun part => part.(PartNumber) - 1) listRst)).
Definition UploadTrunk (tempFile : TempFile) (partNumber : Z) (data : string) (size : Z) : M (Sys C) unit :=
  cos_call (Object_UploadPart tempFile.(TF.StoragePath) tempFile.(TF.ThirdUploadID) (partNumber + 1) data size) ;;; gret tt.
Definition CompleteUploadTask (tempFile : TempFile) : M (Sys C) unit :=
  let! listRst := cos_read (ListParts tempFile.(TF.StoragePath) tempFile.(TF.ThirdUploadID)) in
  cos_call (Object_Complete tempFile.(TF.StoragePath) tempFile.(TF.ThirdUploadID) listRst).

(** *** The calls with pointers: [None] is nil *)
Definition CreateMultipartUpload (storagePath : option string) : M (Sys C) string :=
  match storagePath with
  | Some p => if str_eqb p "" then graise (ErrNew "storage path is empty") else cos_call (InitiateMultipartUpload p "")
  | None => graise (ErrNew "storage path is empty")
  end.
(** The parameters are given to the client as a map, and the client takes only
    structs: after its checks of the name and of the bucket it refuses them. *)
Definition GeneratePresignedURL (invalid_bucket : option error) (storagePath uploadID : option string) (partNumber : option Z) : Res string :=
  match storagePath, uploadID, partNumber with
  | Some p, Some _, Some _ =>
      if str_eqb p "" then Err (ErrNew "object key is empty.")
      else Err (default (ErrNew "query: Values() expects struct input. Got map") invalid_bucket)
  | _, _, _ => Err (ErrNew "storagePath, uploadID or partNumber is nil")
  end.
Definition UploadPart (storagePath uploadID : option string) (partNumber : option Z) (data : option string) : M (Sys C) string :=
  match storagePath, uploadID, partNumber with
  | Some p, Some id, Some n =>
      if str_eqb p "" then graise (ErrNew "storage path is empty")
      else match data with
           | None => graise (ErrNew "reader is empty")
           | Some d => let! tag := cos_call (Object_UploadPart p id n d (Z.of_nat (String.length d))) in gret (Trim tag)
           end
  | _, _, _ => graise (ErrNew "storagePath, uploadID or partNumber is nil")
  end.
(** Missing numbers and tags of parts are zero. *)
Definition CompleteMultipartUpload (storagePath uploadID : option string) (parts : option (list (option Z * option string))) : M (Sys C) unit :=
  match storagePath, uploadID, parts with
  | Some p, Some id, Some l =>
      cos_call (Object_Complete p id (map (fun x => mkPart (default 0 (fst x)) (default "" (snd x))) l))
  | _, _, _ => graise (ErrNew "storagePath, uploadID or parts is nil")
  end.
Definition AbortMultipartUpload (storagePath uploadID : option string) : M (Sys C) unit :=
  match storagePath, uploadID with
  | Some p, Some id => cos_call (Object_Abort p id)
  | _, _ => graise (ErrNew "storagePath or uploadID is nil")
  end.
End Methods.
End Tencent.
End V2Cos.

(** * [minio/storer.go] *)
Module V2Min.
Record MinFs : Type := mkMinFs { m_opt : StorageOption; mfsCfg : MinossConfig }.
Definition min_bucket (mfs : MinFs) : string := mfs.(mfsCfg).(MinBucket).
Section Driver.
Context `{Env} {C : Type} `{Store C}.
Context (mime : string -> string) (body_of : string -> Z -> Res string) (EncodePath : string -> string)
  (presignGet : string -> string -> Z -> Res string) (new_client : string -> option error).
Abbreviation St := (Remote C).
Abbreviation PutObject := (PutObject body_of).
Abbreviation PutObjectPart := (PutObjectPart body_of).
Abbreviation CopyObject := (CopyObject EncodePath).
Definition NewMinFs (cfg : MinossConfig) (o : StorageOption) : M St MinFs :=
  if str_eqb cfg.(MinBucket) "" then graise (ErrNew "configuration bucket error")
  else match new_client cfg.(m_EndPoint) with
       | Some e => graise e
       | None => let! isE := ask (HeadBucket cfg.(MinBucket)) in
                 if negb isE then graise (ErrNew "bucket not exists") else gret (mkMinFs o cfg)
       end.
Section Methods.
Variable mfs : MinFs.
Definition Save (fi : FileInfo) (r : option string) : M St FileInfo :=
  if str_eqb fi.(FI.StoragePath) "" then graise (ErrNew "storage path is empty")
  else match r with
       | None => graise (ErrNew "reader is empty")
       | Some data => PutObject (min_bucket mfs) fi.(FI.StoragePath) (mime fi.(FI.FileExt)) data fi.(FI.Size) ;;; gret fi
       end.
Definition GetPublicURL (storagePath : string) (_ : bool) : string := storagePath.
(** The method is not looked at. *)
Definition GetPresignedURL (method storagePath : string) : Res string :=
  match CheckValidObjectName storagePath with
  | Some e => Err e
  | None => presignGet (min_bucket mfs) storagePath mfs.(m_opt).(PresignedTimeout)
  end.
Definition ReadFile (storagePath : string) : M St (M St string) :=
  if str_eqb storagePath "" then graise (ErrNew "storage path is empty") else GetObject (min_bucket mfs) storagePath.
Definition DeleteFile (storagePath : string) : M St unit :=
  if str_eqb storagePath "" then graise (ErrNew "storage path is empty") else RemoveObject (min_bucket mfs) storagePath.
Definition isDirectory (storagePath : string) : M St bool := let! there := StatObject (min_bucket mfs) storagePath in gret (negb there).
Definition copyObject (storagePath dest : string) : M St unit := CopyObject (min_bucket mfs) dest storagePath.
Definition copyDirectory (fuel : nat) (storagePath dest : string) : M St bool :=
  each_page fuel (ListObjects (min_bucket mfs) storagePath) (fun key => copyObject key (Join [dest; trim_prefix storagePath key])) None.
Definition CopyDir (fuel : nat) (storagePath dest : string) : M St bool :=
  if str_eqb storagePath "" then graise (ErrNew "source storage path is empty")
  else if str_eqb dest "" then graise (ErrNew "destination storage path is empty")
  else let! isDir := isDirectory storagePath in
       if isDir : bool then copyDirectory fuel storagePath dest
       else copyObject storagePath dest ;;; gret true.
Definition UploadDirectory (localDirPath destDir : string) : Res (list string) :=
  Err (ErrNew "UploadDirectory not implemented for MinFs").
Definition CreateMultipartUpload (inp : option CreateMultipartUploadInput) : M St string :=
  match inp with
  | Some (mkCreateIn _ (Some path) _) =>
      if str_eqb path "" then graise (ErrNew "storage path is empty")
      else checked (CheckValidObjectName path) (call (CreateUpload (min_bucket mfs) path))
  | _ => graise (ErrNew "storage path is empty")
  end.
Definition GeneratePresignedURL (inp : option GeneratePresignedURLInput) : Res string :=
  Err (ErrNew "presigned part URL not supported for MinIO").
Definition UploadPart (inp : option UploadPartInput) : M St string :=
  match inp with
  | Some (mkPartIn _ (Some path) uploadID partNumber data) =>
      if str_eqb path "" then graise (ErrNew "storage path is empty")
      else match uploadID, partNumber with
           | Some id, Some n => match data with
                                | None => graise (ErrNew "reader is empty")
                                | Some d => PutObjectPart (min_bucket mfs) path id n d (-1)
                                end
           | _, _ => graise (ErrNew "uploadID or partNumber is nil")
           end
  | _ => graise (ErrNew "storage path is empty")
  end.
Definition CompleteMultipartUpload (inp : option CompleteMultipartUploadInput) : M St unit :=
  match inp with
  | Some (mkCompleteIn _ (Some path) (Some id) (Some parts)) =>
      checked (CheckValidObjectName path)
        (call (CompleteUpload (min_bucket mfs) path id (map (fun p => (default 0 (fst p), default "" (snd p))) parts)))
  | _ => graise (ErrNew "storagePath, uploadID or parts is nil")
  end.
Definition AbortMultipartUpload (inp : option AbortMultipartUploadInput) : M St unit :=
  match inp with
  | Some (mkAbortIn _ (Some path) (Some id)) => checked (CheckValidObjectName path) (call (AbortUpload (min_bucket mfs) path id))
  | _ => graise (ErrNew "storagePath or uploadID is nil")
  end.
End Methods.
End Driver.
End V2Min.

(** * [s3/storer.go] *)
Module V2S3.
Record S3Fs : Type := mkS3Fs { opt : StorageOption; s3fsCfg : S3StorageConfig }.
Definition bucket (s3fs : S3Fs) : string := s3fs.(s3fsCfg).(S3Bucket).
Section Driver.
Context `{Env} {C : Type} `{Store C}.
Context (mime : string -> string) (url_Parse : string -> option (string * string)) (url_JoinPath : string -> list string -> option string)
  (presign : Presign -> Z -> Res string) (LoadDefaultConfig : option error) (cwd : path).
Abbreviation St := (Remote C).
Definition NewS3Fs (cfg : S3StorageConfig) (o : StorageOption) : M St S3Fs :=
  if str_eqb cfg.(S3Bucket) "" then graise (ErrNew "configuration bucket error")
  else match LoadDefaultConfig with
       | Some e => graise e
       | None => ask (HeadBucket cfg.(S3Bucket)) ;;; gret (mkS3Fs o cfg)
       end.

Section Methods.
Variable s3fs : S3Fs.
Definition GetPublicURL (storagePath : string) (_ : bool) : string :=
  if str_eqb storagePath "" then ""
  else match url_Parse s3fs.(s3fsCfg).(EndPoint) with
       | None => storagePath
       | Some (scheme, host) =>
           if s3fs.(s3fsCfg).(UsePathStyle)
           then default storagePath (url_JoinPath (scheme ++ "://" ++ host) [bucket s3fs; storagePath])
           else default storagePath (url_JoinPath (scheme ++ "://" ++ bucket s3fs ++ "." ++ host) [storagePath])
       end.
Definition Save (fi : FileInfo) (r : option string) : M St FileInfo :=
  if str_eqb fi.(FI.StoragePath) "" then graise (ErrNew "storage path is empty")
  else match r with
       | None => graise (ErrNew "reader is empty")
       | Some data =>
           call (Put (bucket s3fs) fi.(FI.StoragePath) (mime fi.(FI.FileExt)) data) ;;;
           gret (FI.set_address fi.(FI.Hash) (GetPublicURL fi.(FI.StoragePath) false) fi)
       end.
(** Only the methods are told apart: the rest is the client's. *)
Definition only (method : string) : error := ErrNew ("only GET and PUT are allowed, now: " ++ method).
Definition GetPresignedURL (method storagePath : string) : Res string :=
  if str_eqb method "GET" then presign (PresignGetObject (bucket s3fs) storagePath) s3fs.(opt).(PresignedTimeout)
  else if str_eqb method "PUT" then presign (PresignPutObject (bucket s3fs) storagePath None) s3fs.(opt).(PresignedTimeout)
  else Err (only method).
Definition ReadFile (storagePath : string) : M St string :=
  if str_eqb storagePath "" then graise (ErrNew "storage path is empty") else ask (Get (bucket s3fs) storagePath).
Definition DeleteFile (storagePath : string) : M St unit :=
  if str_eqb storagePath "" then graise (ErrNew "storage path is empty") else call (Remove (bucket s3fs) storagePath).

(** ** Copying *)
Definition isDirectory (storagePath : string) : M St bool := let! there := ask (Head (bucket s3fs) storagePath) in gret (negb there).
Definition copyObject (sourceKey destKey : string) : M St unit :=
  if str_eqb sourceKey destKey then gret tt
  else gwrap ("copy object " ++ sourceKey ++ " to " ++ destKey ++ " error: ")
         (call (Copy (bucket s3fs) destKey (bucket s3fs ++ "/" ++ sourceKey))).
Definition destKey (sourcePrefix destPrefix key : string) : string := Join [destPrefix; trim_prefix sourcePrefix key].
Definition copy_to (sourcePrefix destPrefix key : string) : M St unit :=
  let d := destKey sourcePrefix destPrefix key in
  if str_eqb d destPrefix then gret tt else copyObject key d.
Definition copyDirectory (fuel : nat) (sourcePrefix destPrefix : string) : M St bool :=
  each_page fuel (fun from => gwrap "list objects error: " (ask (List_ (bucket s3fs) sourcePrefix from))) (copy_to sourcePrefix destPrefix) None.
Definition CopyDir (fuel : nat) (storagePath dest : string) : M St bool :=
  if str_eqb storagePath "" then graise (ErrNew "source storage path is empty")
  else if str_eqb dest "" then graise (ErrNew "destination storage path is empty")
  else let! isDir := gwrap "check source path error: " (isDirectory storagePath) in
       if isDir : bool then copyDirectory fuel storagePath dest
       else copyObject storagePath dest ;;; gret true.

(** ** Uploading a folder *)
(** The function that [filepath.WalkDir] calls for each file. *)
Definition upload_one (localDirPath destDir filePath : string) : M St (list string) :=
  match Rel localDirPath filePath with
  | Err e => graise (ErrWrap ("failed to get relative path for " ++ filePath ++ ": ") e)
  | Ok relPath =>
      let storagePath := Join [destDir; relPath] in
      gwrap ("failed to open file " ++ filePath ++ ": ") (on_disk (open (resolve cwd filePath))) ;;;
      gwrap ("failed to upload file " ++ filePath ++ " to " ++ storagePath ++ ": ")
        (let! data := on_disk (read (resolve cwd filePath)) in
         Save (FI.mkFile 0 0 0 None 0 0 "" "" (Ext filePath) "" 0 "" "" storagePath "" 0 "" FI.notChunked) (Some data)) ;;;
      gret [storagePath]
  end.
(** [None]: deeper than the fuel. *)
Fixpoint walkDir (fuel : nat) (localDirPath destDir filePath : string) (isDir : bool) : M St (option (list string)) :=
  match fuel with
  | O => gret None
  | S fuel' =>
      if isDir then
        let! es := gwrap ("error accessing path " ++ filePath ++ ": ") (on_disk (read_dir (resolve cwd filePath))) in
        each es (fun e => walkDir fuel' localDirPath destDir (Join [filePath; fst e]) (snd e))
      else let! u := upload_one localDirPath destDir filePath in gret (Some u)
  end.
Definition UploadDirectory (fuel : nat) (localDirPath destDir : string) : M St (option (list string)) :=
  if str_eqb localDirPath "" then graise (ErrNew "local directory path is empty")
  else let! isDir := gwrap ("error accessing path " ++ localDirPath ++ ": ") (on_disk (stat (resolve cwd localDirPath))) in
       walkDir fuel localDirPath destDir localDirPath isDir.

(** ** Multipart uploads *)
Definition getBucketName (b : option string) : string :=
  match b with Some n => if str_eqb n "" then bucket s3fs else n | None => bucket s3fs end.
Definition CreateMultipartUpload (inp : option CreateMultipartUploadInput) : M St string :=
  match inp with
  | Some (mkCreateIn b (Some path) _) =>
      if str_eqb path "" then graise (ErrNew "storage path is empty") else call (CreateUpload (getBucketName b) path)
  | _ => graise (ErrNew "storage path is empty")
  end.
(** A part without its number is a nil pointer. *)
Definition GeneratePresignedURL (inp : option GeneratePresignedURLInput) : Panics (Res string) :=
  match inp with
  | Some (mkPresignIn method b (Some path) uploadID partNumber contentType contentLength contentMD5) =>
      let m := default "" method in
      let t := s3fs.(opt).(PresignedTimeout) in
      if str_eqb m "GET" then Val (presign (PresignGetObject (getBucketName b) path) t)
      else if str_eqb m "PUT" then
        let id := default "" uploadID in
        if str_eqb id "" then Val (presign (PresignPutObject (getBucketName b) path contentType) t)
        else match partNumber with
             | None => Panic "invalid memory address or nil pointer dereference"
             | Some n => Val (presign (PresignUploadPart (getBucketName b) path id (int32 n) contentMD5 contentLength) t)
             end
      else Val (Err (only m))
  | _ => Val (Err (ErrNew "storagePath is nil"))
  end.
Definition UploadPart (inp : option UploadPartInput) : M St string :=
  match inp with
  | Some (mkPartIn b (Some path) (Some id) (Some n) data) =>
      match data with
      | None => graise (ErrNew "reader is empty")
      | Some d => call (PutPart (getBucketName b) path id (int32 n) d)
      end
  | _ => graise (ErrNew "storagePath, uploadID or partNumber is nil")
  end.
(** The service reads missing numbers and tags as zero. *)
Definition CompleteMultipartUpload (inp : option CompleteMultipartUploadInput) : M St unit :=
  match inp with
  | Some (mkCompleteIn b (Some path) (Some id) (Some parts)) =>
      call (CompleteUpload (getBucketName b) path id (map (fun p => (default 0 (fst p), default "" (snd p))) parts))
  | _ => graise (ErrNew "storagePath, uploadID or parts is nil")
  end.
Definition AbortMultipartUpload (inp : option AbortMultipartUploadInput) : M St unit :=
  match inp with
  | Some (mkAbortIn b (Some path) (Some id)) => call (AbortUpload (getBucketName b) path id)
  | _ => graise (ErrNew "storagePath or uploadID is nil")
  end.
End Methods.
End Driver.
End V2S3.

(** * The second package against the first *)
Definition local2 (ls : LocalDir.LocalStorage) : V2Local.LocalStorage := V2Local.mkLocal ls.(LocalDir.Dir_) ls.(LocalDir.PublicPrefix).
Definition cos2 (tc : Upload.TencentCos) : V2Cos.TencentCos := V2Cos.mkTencentCos tc.(Upload.cosCfg).
Definition min2 (mfs : MinFs.MinFs) : V2Min.MinFs := V2Min.mkMinFs mfs.(MinFs.m_opt) mfs.(MinFs.mfsCfg).
Definition s32 (s3fs : S3Fs.S3Fs) : V2S3.S3Fs := V2S3.mkS3Fs s3fs.(S3Fs.opt) s3fs.(S3Fs.s3fsCfg).
(** What a constructor of the first package makes, as the second one has it. *)
Definition as2 {S A B} (f : A -> B) (m : M S A) : M S B := let! a := m in gret (f a).

Section Same.
Context `{Env} {D C : Type} `{Cos D} `{Store C}.
Context (cwd : path) (cos_url : string -> option error) (cos_presign : string -> string -> Res string) (invalid_bucket : option error)
  (mime : string -> string) (url_Parse : string -> option (string * string)) (url_JoinPath : string -> list string -> option string)
  (presign : Presign -> Z -> Res string) (LoadDefaultConfig : option error) (body_of : string -> Z -> Res string) (EncodePath : string -> string)
  (presignGet : string -> string -> Z -> Res string) (new_client : string -> option error).
Definition local_same (ls : LocalDir.LocalStorage) : Prop :=
  (forall fi r, V2Local.Save cwd (local2 ls) fi r = LocalDir.Save cwd ls fi r) /\
  (forall p temp, V2Local.GetPublicURL (local2 ls) p temp = LocalDir.GetPublicURL ls p temp) /\
  (forall m p, V2Local.GetPresignedURL m p = LocalDir.GetPresignedURL m p) /\
  (forall p, V2Local.ReadFile cwd (local2 ls) p = LocalDir.ReadFile cwd ls p) /\
  (forall p, V2Local.DeleteFile cwd (local2 ls) p = LocalDir.DeleteFile cwd ls p) /\
  (forall n p q, V2Local.CopyDir cwd (local2 ls) n p q = LocalDir.CopyDir cwd ls n p q) /\
  (forall p q, V2Local.UploadDirectory p q = LocalDir.UploadDirectory p q) /\
  (forall p, V2Local.CreateMultipartUpload p = LocalDir.CreateMultipartUpload p) /\
  (forall p id n, V2Local.GeneratePresignedURL p id n = LocalDir.GeneratePresignedURL p id n) /\
  (forall p id n d, V2Local.UploadPart p id n d = LocalDir.UploadPart p id n d) /\
  (forall p id, V2Local.CompleteMultipartUpload p id = LocalDir.CompleteMultipartUpload p id) /\
  (forall p id, V2Local.AbortMultipartUpload p id = LocalDir.AbortMultipartUpload p id).
Definition cos_same (tc : Upload.TencentCos) : Prop :=
  (forall fi r, V2Cos.Save (C := D) cos_presign (cos2 tc) fi r = Upload.Save cos_presign tc fi r) /\
  (forall p temp, V2Cos.GetPublicURL cos_presign (cos2 tc) p temp = Upload.GetPublicURL cos_presign tc p temp) /\
  (forall m p, V2Cos.GetPresignedURL cos_presign m p = Upload.GetPresignedURL cos_presign m p) /\
  (forall p, V2Cos.ReadFile (C := D) p = Upload.ReadFile p) /\
  (forall p, V2Cos.DeleteFile (C := D) p = Upload.DeleteFile p) /\
  (forall n p q, V2Cos.CopyDir (C := D) cos_presign (cos2 tc) n p q = Upload.CopyDir cos_presign tc n p q) /\
  (forall p q, V2Cos.UploadDirectory p q = Upload.UploadDirectory p q) /\
  (forall t, V2Cos.InitUploadTask (C := D) t = Upload.InitUploadTask t) /\
  (forall t, V2Cos.ListUploadExistsTrunk (C := D) t = Upload.ListUploadExistsTrunk t) /\
  (forall t n d size, V2Cos.UploadTrunk (C := D) t n d size = Upload.UploadTrunk t n d size) /\
  (forall t, V2Cos.CompleteUploadTask (C := D) t = Upload.CompleteUploadTask t) /\
  (forall p, V2Cos.CreateMultipartUpload (C := D) p = Upload.CreateMultipartUpload p) /\
  (forall p id n, V2Cos.GeneratePresignedURL invalid_bucket p id n = Upload.GeneratePresignedURL invalid_bucket p id n) /\
  (forall p id n d, V2Cos.UploadPart (C := D) p id n d = Upload.UploadPart p id n d) /\
  (forall p id l, V2Cos.CompleteMultipartUpload (C := D) p id l = Upload.CompleteMultipartUpload p id l) /\
  (forall p id, V2Cos.AbortMultipartUpload (C := D) p id = Upload.AbortMultipartUpload p id).
Definition min_same (mfs : MinFs.MinFs) : Prop :=
  (forall fi r, V2Min.Save (C := C) mime body_of (min2 mfs) fi r = MinFs.Save mime body_of mfs fi r) /\
  (forall p temp, V2Min.GetPublicURL p temp = MinFs.GetPublicURL p temp) /\
  (forall m p, V2Min.GetPresignedURL presignGet (min2 mfs) m p = MinFs.GetPresignedURL presignGet mfs m p) /\
  (forall p, V2Min.ReadFile (C := C) (min2 mfs) p = MinFs.ReadFile mfs p) /\
  (forall p, V2Min.DeleteFile (C := C) (min2 mfs) p = MinFs.DeleteFile mfs p) /\
  (forall n p q, V2Min.CopyDir (C := C) EncodePath (min2 mfs) n p q = MinFs.CopyDir EncodePath mfs n p q) /\
  (forall p q, V2Min.UploadDirectory p q = MinFs.UploadDirectory p q) /\
  (forall i, V2Min.CreateMultipartUpload (C := C) (min2 mfs) i = MinFs.CreateMultipartUpload mfs i) /\
  (forall i, V2Min.GeneratePresignedURL i = MinFs.GeneratePresignedURL i) /\
  (forall i, V2Min.UploadPart (C := C) body_of (min2 mfs) i = MinFs.UploadPart body_of mfs i) /\
  (forall i, V2Min.CompleteMultipartUpload (C := C) (min2 mfs) i = MinFs.CompleteMultipartUpload mfs i) /\
  (forall i, V2Min.AbortMultipartUpload (C := C) (min2 mfs) i = MinFs.AbortMultipartUpload mfs i).
(** The same answer, or a refusal on both sides. *)
Definition but_text {A} (x y : Res A) : Prop := match x, y with Err _, Err _ => True | _, _ => x = y end.
Definition but_text_p {A} (x y : Panics (Res A)) : Prop := match x, y with Val a, Val b => but_text a b | _, _ => x = y end.
Definition s3_same (s3fs : S3Fs.S3Fs) : Prop :=
  (forall fi r, V2S3.Save (C := C) mime url_Parse url_JoinPath (s32 s3fs) fi r = S3Fs.Save mime url_Parse url_JoinPath s3fs fi r) /\
  (forall p temp, V2S3.GetPublicURL url_Parse url_JoinPath (s32 s3fs) p temp = S3Fs.GetPublicURL url_Parse url_JoinPath s3fs p temp) /\
  (forall m p, but_text (V2S3.GetPresignedURL presign (s32 s3fs) m p) (S3Fs.GetPresignedURL presign s3fs m p)) /\
  (forall p, V2S3.ReadFile (C := C) (s32 s3fs) p = S3Fs.ReadFile s3fs p) /\
  (forall p, V2S3.DeleteFile (C := C) (s32 s3fs) p = S3Fs.DeleteFile s3fs p) /\
  (forall n p q, V2S3.CopyDir (C := C) (s32 s3fs) n p q = S3Fs.CopyDir s3fs n p q) /\
  (forall n p q, V2S3.UploadDirectory (C := C) mime url_Parse url_JoinPath cwd (s32 s3fs) n p q = S3Fs.UploadDirectory mime url_Parse url_JoinPath cwd s3fs n p q) /\
  (forall i, V2S3.CreateMultipartUpload (C := C) (s32 s3fs) i = S3Fs.CreateMultipartUpload s3fs i) /\
  (forall i, but_text_p (V2S3.GeneratePresignedURL presign (s32 s3fs) i) (S3Fs.GeneratePresignedURL presign s3fs i)) /\
  (forall i, V2S3.UploadPart (C := C) (s32 s3fs) i = S3Fs.UploadPart s3fs i) /\
  (forall i, V2S3.CompleteMultipartUpload (C := C) (s32 s3fs) i = S3Fs.CompleteMultipartUpload s3fs i) /\
  (forall i, V2S3.AbortMultipartUpload (C := C) (s32 s3fs) i = S3Fs.AbortMultipartUpload s3fs i).

(** The constructors make what those of the first package make, with the same
    effects and the same errors. *)
Lemma constructors_same :
  (forall d p w, V2Local.NewLocalStorage cwd d p w = as2 local2 (LocalDir.NewLocalStorage cwd d p) w) /\
  (forall cfg, V2Cos.NewTencentCos cos_url cfg = match Upload.NewTencentCos cos_url cfg with Ok tc => Ok (cos2 tc) | Err e => Err e end) /\
  (forall cfg o w, V2Min.NewMinFs (C := C) new_client cfg o w = as2 min2 (MinFs.NewMinFs new_client cfg o) w) /\
  (forall cfg o w, V2S3.NewS3Fs (C := C) LoadDefaultConfig cfg o w = as2 s32 (S3Fs.NewS3Fs LoadDefaultConfig cfg o) w).
Proof.
  split_and!.
  - intros d p w. unfold V2Local.NewLocalStorage, as2, LocalDir.NewLocalStorage. rewrite !gbind_eq. by destruct (os_MkdirAll _ _ w) as [[]].
  - intros cfg. unfold V2Cos.NewTencentCos, Upload.NewTencentCos. by destruct (cos_url _).
  - intros cfg o w. unfold V2Min.NewMinFs, as2, MinFs.NewMinFs. rewrite !gbind_eq. destruct (str_eqb _ _); [done|]. destruct (new_client _); [done|].
    rewrite !gbind_eq. destruct (ask _ w) as [[[|]|e] w1]; by cbn.
  - intros cfg o w. unfold V2S3.NewS3Fs, as2, S3Fs.NewS3Fs. rewrite !gbind_eq. destruct (str_eqb _ _); [done|]. destruct LoadDefaultConfig; [done|].
    rewrite !gbind_eq. by destruct (ask _ w) as [[[]|e] w1].
Qed.
(** C23: the copy has not drifted: every method of the four drivers of the second
    package is that of the first, with the same calls, the same changes and the
    same errors, but for the texts that the driver of S3 has for a method or a
    request that it cannot sign. *)
Theorem v2_drivers_same : (forall ls, local_same ls) /\ (forall tc, cos_same tc) /\ (forall mfs, min_same mfs) /\ (forall s3fs, s3_same s3fs).
Proof.
  split_and!; [intros [d u]|intros [c]|intros [o c]|intros [o c]]; [unfold local_same|unfold cos_same|unfold min_same|unfold s3_same]; split_and!; try reflexivity.
  - intros m p. unfold V2S3.GetPresignedURL, S3Fs.GetPresignedURL. cbn [s32 V2S3.opt S3Fs.opt V2S3.bucket S3Fs.bucket V2S3.s3fsCfg S3Fs.s3fsCfg].
    destruct (str_eqb m "GET"); [|destruct (str_eqb m "PUT"); [|done]]; by destruct (presign _ _).
  - intros [[m b [p|] id n ct cl md]|]; [|done..]. unfold V2S3.GeneratePresignedURL, S3Fs.GeneratePresignedURL.
    change (V2S3.getBucketName (s32 (mkS3Fs o c)) b) with (getBucketName (mkS3Fs o c) b). cbn [s32 V2S3.opt S3Fs.opt]. cbv zeta.
    destruct (str_eqb (default "" m) "GET"); [unfold but_text_p; by destruct (presign _ _)|].
    destruct (str_eqb (default "" m) "PUT"); [|done].
    destruct (str_eqb (default "" id) ""); [unfold but_text_p; by destruct (presign _ _)|].
    destruct n as [n|]; [|done]. unfold but_text_p. by destruct (presign _ _).
Qed.
End Same.

(** ** The look-ups of types.go and the missing numbers of biz.go *)
Lemma contains_same arr v : V2Types.contains arr v = Upload.contains arr v.
Proof. induction arr as [|x arr IH]; [done|]. cbn. rewrite (Z.eqb_sym v x). destruct (x =? v); [done|exact IH]. Qed.
Lemma need_from_same n exi : forall i, V2Types.need_from n i exi = List.filter (fun i => negb (Upload.contains exi i)) (map (fun k => i + Z.of_nat k) (seq 0 n)).
Proof.
  induction n as [|n IH]; intros i; [done|]. cbn [V2Types.need_from seq map List.filter]. rewrite Z.add_0_r, contains_same.
  rewrite IH, <- seq_shift, map_map. assert (E : map (fun k => i + 1 + Z.of_nat k) (seq 0 n) = map (fun k => i + Z.of_nat (S k)) (seq 0 n)).
  { apply map_ext. intros k. lia. }
  rewrite E. by destruct (negb _).
Qed.
Theorem v2_lookups_same `{Env} {S : Type} `{HasTab S FileInfo} :
  (forall h size w, V2Types.GetFileByChunkHash h size w = FileInfo.GetFileByChunkHash h size w) /\
  (forall h w, V2Types.GetFileByHash h w = FileInfo.GetFileByHash h w) /\
  (forall u w, V2Types.GetFileByPublicURL u w = FileInfo.GetFileByPublicURL u w) /\
  (forall id w, V2Types.GetFileByID id w = FileInfo.GetFileByID id w) /\
  (forall n exi, V2Types.getNeedUploadPartNumbers n exi = Upload.getNeedUploadPartNumbers n exi).
Proof.
  split_and!; try reflexivity. intros n exi. unfold V2Types.getNeedUploadPartNumbers, Upload.getNeedUploadPartNumbers. rewrite need_from_same.
  f_equal.
Qed.
