(* ===== verification/UploadApi.v ===== *)
(** [src/apis/upload/uplaod.go]: the handler that stores the image of a user, on
    the contexts of [Http], the storagers of [Storage] and the table of
    [FileInfo]. *)
From S2P Require Import Prelude Strings Json Gorm FileInfo HttpTools Files LocalDir Upload ObjectStore S3Fs MinFs Storage Http.
#[local] Open Scope string_scope.
#[local] Open Scope Z_scope.

(** A file of a form: its name, the size that was announced and its content. *)
Record FormFile : Type := mkFormFile { fh_Filename : string; fh_Size : Z; content : string }.
(** [UploadImageResponse] of biz.go as JSON: of the base only the code, which is
    zero, is written. *)
Definition image_response (file_id : Z) (url : string) : json :=
  JObj [("code", JNum "0"); ("Response", JObj ((if file_id =? 0 then [] else [("file_id", JNum (fmt_d file_id))]) ++ omit_str "url" url)%list)].
Definition set_url (url : string) (fi : FileInfo) : FileInfo := FI.set_address fi.(FI.Hash) url fi.

Section UploadApi.
Context `{Env} {Y D C : Type} `{Cos D} `{StoreLaws C} `{!CosLaws D, !CosObjects}.
Abbreviation St := (Host Y D C).
Context (GetYaml : string -> string -> M Y StorageConfig) (cwd : Files.path)
  (cos_url : string -> option error) (cos_presign : string -> string -> Res string)
  (mime : string -> string) (url_Parse : string -> option (string * string)) (url_JoinPath : string -> list string -> option string)
  (LoadDefaultConfig : option error) (body_of : string -> Z -> Res string) (new_client : string -> option error)
  (unicode_lower : string -> string) (tz : Z -> Z) (intn : nat -> nat -> Z -> Z).
Abbreviation load := (LoadStorager GetYaml cwd cos_url LoadDefaultConfig new_client).
Abbreviation save_with := (storager_Save cwd cos_presign mime url_Parse url_JoinPath body_of).
Abbreviation read_with := (storager_ReadAll cwd).
Implicit Types w : World St.
Definition storager_GetPublicURL (s : Storager) (storagePath : string) (temp : bool) : string :=
  match s with
  | LocalDriver ls => LocalDir.GetPublicURL ls storagePath temp
  | TencentDriver tc => Upload.GetPublicURL cos_presign tc storagePath temp
  | MinDriver _ => MinFs.GetPublicURL storagePath temp
  | S3Driver s3fs => S3Fs.GetPublicURL url_Parse url_JoinPath s3fs storagePath temp
  end.
Definition image (purpose : string) (ls : LoginStatus) (f : FormFile) (ext path : string) : FileInfo :=
  FI.mkFile 0 0 0 None (GetID ls CtxKeyCompanyID) (GetID ls CtxKeyUin) purpose f.(fh_Filename) ext "" f.(fh_Size) "" "" path "" 0 "" FI.notChunked.
Definition new_path (purpose : string) (ls : LoginStatus) (ext : string) : M St string :=
  let! p := on_cos (GenerateFileStoragePath tz intn purpose (GetID ls CtxKeyUin) ext) in gret ("/" ++ p).
Definition failed (c : Ctx) : M St Out := gret (Done (InternalError "服务器错误" c)).
(** The rest of the handler once the storager is loaded. *)
Definition stored (c : Ctx) (s : Storager) (fi : FileInfo) (f : FormFile) : M St Out :=
  let! saved := save_with s fi f.(content) in
  match saved with
  | (Err _, _) => failed c
  | (Ok _, fi) =>
      let fi := set_url (storager_GetPublicURL s fi.(FI.StoragePath) false) fi in
      let! created := gtry (on_cos (gorm_create_one fi)) in
      match created with
      | Err _ => failed c
      | Ok fi => gret (Done (JSON 200 (image_response fi.(FI.ID) fi.(FI.PublicURL)) c))
      end
  end.
(** [form] is what [FormFile] answers. *)
Definition UploadUserImage (c : Ctx) (purpose : string) (form : Res FormFile) : M St Out :=
  match loginStatus c with
  | None => gret (Panicked no_login c)
  | Some ls =>
      match form with
      | Err _ => gret (Done (BadRequest "参数错误" c))
      | Ok f =>
          let ext := ToLower unicode_lower (Ext f.(fh_Filename)) in
          let! path := new_path purpose ls ext in
          let fi := image purpose ls f ext path in
          let! r := gtry (load purpose) in
          match r with
          | Err _ => failed c
          | Ok s => stored c s fi f
          end
      end
  end.

(** * What is answered is there *)
Hypothesis Hnf : forall n, no_fault_from n.
Lemma no_fault n : env_fault n = None.
Proof. apply (Hnf 0), Nat.le_0_l. Qed.
(** Reading asks the store alone. *)
Lemma read_stable s p w w' : fs (st w) = fs (st w') -> cosv (st w) = cosv (st w') -> minio (st w) = minio (st w') -> s3 (st w) = s3 (st w') ->
  fst (read_with s p w) = fst (read_with s p w').
Proof.
  intros Ef Ec Em Es. destruct s as [ls|tc|mfs|s3fs]; cbn [storager_ReadAll]; unfold on_fs, on_cos, on_min, on_s3; rewrite !zoom_fst.
  - unfold LocalDir.ReadFile, os_Stat, os_Open. rewrite !gbind_eq, !run_gextr by exact Hnf. cbn [st calls fst snd]. rewrite Ef.
    destruct (stat _ _); [|done]. rewrite !gbind_eq, !run_gextr by exact Hnf. cbn [st calls fst snd]. destruct (open _ _); [|done]. cbn [gret].
    by rewrite !run_gextr by exact Hnf.
  - unfold Upload.ReadFile. destruct (str_eqb p ""); [done|]. rewrite !run_cos_read by exact Hnf. cbn [st cos fst]. by rewrite Ec.
  - unfold MinFs.ReadFile. destruct (str_eqb p ""); [done|]. rewrite !gbind_eq. unfold GetObject, checked.
    destruct (CheckValidObjectName p); [done|]. cbn [gret]. rewrite !run_ask by apply no_fault. cbn [st store fst]. by rewrite Em.
  - unfold S3Fs.ReadFile. destruct (str_eqb p ""); [done|]. rewrite !run_ask by apply no_fault. cbn [st store fst]. by rewrite Es.
Qed.
(** Saving keeps the number of the record and leaves the tables. *)
Definition calm (m : M St (Res unit * FileInfo)) (fi : FileInfo) : Prop := forall w r w', m w = (r, w') ->
  upload_tabs (st w') = upload_tabs (st w) /\ match r with Ok (_, fi') => FI.ID fi' = FI.ID fi | Err _ => True end.
Lemma answered_calm fi (m : M St FileInfo) : (forall w r w', m w = (r, w') -> upload_tabs (st w') = upload_tabs (st w) /\ match r with Ok fi' => FI.ID fi' = FI.ID fi | Err _ => True end) ->
  calm (answered fi m) fi.
Proof.
  intros Hm w r w'. unfold answered. rewrite gbind_eq. unfold gtry. destruct (m w) as [r0 w0] eqn:E. destruct (Hm _ _ _ E) as [Ht Hi]. intros [= <- <-]. split; [done|]. by destruct r0.
Qed.
Lemma save_calm s fi data : calm (save_with s fi data) fi.
Proof.
  destruct s as [ls|tc|mfs|s3fs]; cbn [storager_Save].
  - intros w r w'. unfold on_fs, zoom. destruct (LocalDir.Save _ _ _ _ _) as [r0 w0] eqn:E. intros [= <- <-]. split; [done|].
    unfold LocalDir.Save in E. cbv zeta in E. rewrite gbind_eq in E. unfold gtry at 1 in E. destruct (gbind _ _ _) as [[u|e] w1]; [|by injection E as <- <-].
    rewrite gbind_eq in E. destruct (io_Copy _ _ _ _) as [[cp|e] w2]; by injection E as <- <-.
  - apply answered_calm. intros w r w'. unfold on_cos, zoom, Upload.Save. destruct (str_eqb _ ""); [by intros [= <- <-]|].
    rewrite gbind_eq, run_cos by exact Hnf. destruct (fst (Object_Put _ _ _)); by intros [= <- <-].
  - apply answered_calm. intros w r w'. unfold on_min, zoom. destruct (MinFs.Save _ _ _ _ _ _) as [r0 w0] eqn:E. intros [= <- <-]. split; [done|].
    unfold MinFs.Save in E. destruct (str_eqb _ ""); [by injection E as <- <-|]. rewrite gbind_eq in E. destruct (PutObject _ _ _ _ _ _ _) as [[u|e] w1]; by injection E as <- <-.
  - apply answered_calm. intros w r w'. unfold on_s3, zoom. destruct (S3Fs.Save _ _ _ _ _ _ _) as [r0 w0] eqn:E. intros [= <- <-]. split; [done|].
    unfold S3Fs.Save in E. destruct (str_eqb _ ""); [by injection E as <- <-|]. rewrite gbind_eq, run_call in E by apply no_fault. destruct (fst (Put _ _ _ _ _)); by injection E as <- <-.
Qed.
Lemma new_path_state purpose ls ext w path w1 : new_path purpose ls ext w = (Ok path, w1) -> st w1 = st w /\ path <> "".
Proof.
  unfold new_path. rewrite gbind_eq. unfold on_cos, zoom. destruct (GenerateFileStoragePath _ _ _ _ _ _) as [r0 w0] eqn:E. intros Hp.
  assert (Hst : st w0 = mkSys (upload_tabs (st w)) (cosv (st w))).
  { unfold GenerateFileStoragePath in E. rewrite gbind_eq in E. unfold gnow in E. rewrite gbind_eq in E. unfold random_text in E.
    destruct (random_String _ _); by injection E as <- <-. }
  destruct r0; [|done]. injection Hp as <- <-. split; [|done]. cbn [st]. rewrite Hst. by destruct (st w).
Qed.
(** A storager that takes the file. *)
Lemma stored_reads_back c s fi0 f w : takes s fi0 f.(content) (st w) -> ids_below (files (upload_tabs (st w))) -> FI.ID fi0 = 0 ->
  exists fi w', stored c s fi0 f w = (Ok (Done (JSON 200 (image_response (FI.ID fi) (FI.PublicURL fi)) c)), w') /\
    rows (files (upload_tabs (st w'))) = (rows (files (upload_tabs (st w))) ++ [fi])%list /\ FI.ID fi = next_id (files (upload_tabs (st w))) /\
    fst (read_with s (FI.StoragePath fi) w') = Ok f.(content).
Proof.
  intros Ht Hids Hz. unfold stored.
  assert (Hr : reads_back cwd cos_presign mime url_Parse url_JoinPath body_of s fi0 (content f) w).
  { destruct s; [eapply local_reads_back|eapply cos_reads_back|eapply min_reads_back|eapply s3_reads_back]; try done; exact _. }
  destruct Hr as (fi1 & w2 & Esave & Eread). rewrite gbind_eq, Esave. destruct (save_calm _ _ _ _ _ _ Esave) as [Htabs Hid].
  set (e := set_url _ fi1). assert (He : FI.ID e = 0) by exact (eq_trans Hid Hz).
  rewrite gbind_eq. unfold gtry, on_cos, zoom.
  destruct (create_one (C := D) Hnf e (mkWorld (calls w2) (mkSys (upload_tabs (st w2)) (cosv (st w2))))) as (now & w3 & Ec & Est).
  - intros g now id _. reflexivity.
  - intros now id. change (nz (FI.ID e) id = id). by rewrite He.
  - cbn [st get_tab sys_files tabs]. by rewrite Htabs.
  - rewrite Ec. cbn [st get_tab sys_files tabs] in Est |- *. eexists _, _. split; [reflexivity|]. rewrite Est. cbn [st upload_tabs set_tab sys_files tabs files rows cos cosv].
    rewrite Htabs. split; [reflexivity|]. split; [change (nz (FI.ID e) (next_id (files (upload_tabs (st w)))) = next_id (files (upload_tabs (st w)))); by rewrite He|]. rewrite <- Eread. apply read_stable; reflexivity.
Qed.
(** C21: the first upload of a purpose in a process, without failures of the services:
    the driver is the one the setting of the purpose asks for.  When it cannot be
    made the answer is 500.  When it takes the file ([takes]: for a local folder
    the place must be free under a rooted directory, MinIO wants a valid name and
    the true size), the answer is the number and the address of a new row, the
    last of its table, whose path reads back through that driver what the user
    sent. *)
Theorem UploadUserImage_reads_back c purpose f ls path cfg r w w1 wy w2 : loginStatus c = Some ls ->
  let ext := ToLower unicode_lower (Ext f.(fh_Filename)) in
  new_path purpose ls ext w = (Ok path, w1) -> storagerMap (st w) !! purpose = None ->
  on_settings (GetYaml SettingGroupCore (SettingPrefix ++ purpose)) w1 = (Ok cfg, wy) -> load purpose w1 = (r, w2) ->
  ids_below (files (upload_tabs (st w))) ->
  match r with
  | Err _ => UploadUserImage c purpose (Ok f) w = (Ok (Done (InternalError "服务器错误" c)), w2)
  | Ok s =>
      asks_for cfg s /\
      (takes s (image purpose ls f ext path) f.(content) (st w2) -> exists fi w',
        UploadUserImage c purpose (Ok f) w = (Ok (Done (JSON 200 (image_response (FI.ID fi) (FI.PublicURL fi)) c)), w') /\
        rows (files (upload_tabs (st w'))) = (rows (files (upload_tabs (st w))) ++ [fi])%list /\ FI.ID fi = next_id (files (upload_tabs (st w))) /\
        fst (read_with s (FI.StoragePath fi) w') = Ok f.(content))
  end.
Proof.
  intros Hl ext Hp Hm Hy Hload Hids. destruct (new_path_state _ _ _ _ _ _ Hp) as [E1 _].
  destruct (load_asked GetYaml cwd cos_url LoadDefaultConfig new_client purpose w1 cfg wy r w2) as [Ht2 Hask]; [by rewrite E1|done|done|].
  assert (Erun : forall k, UploadUserImage c purpose (Ok f) w = k <-> (match r with
    | Err _ => failed c | Ok s => stored c s (image purpose ls f ext path) f end) w2 = k).
  { intros k. unfold UploadUserImage. rewrite Hl. fold ext. rewrite gbind_eq, Hp, gbind_eq. unfold gtry at 1. rewrite Hload. by destruct r. }
  destruct r as [s|e]; [split; [done|]|by apply Erun]. intros Htk.
  destruct (stored_reads_back c s (image purpose ls f ext path) f w2) as (fi & w' & Es & Hrest); [done|by rewrite Ht2, E1|done|].
  exists fi, w'. split; [by apply Erun|]. by rewrite Ht2, E1 in Hrest.
Qed.
End UploadApi.

(** * On a concrete host *)
Definition logged (c : Ctx) : Ctx := set_key CtxKeyLoginStatus (VLogin (SetID CtxKeyUin 7 newLogin)) c.
Definition demo_ctx : Ctx := logged (newCtx "/v3/image" ∅ "").
Definition demo_form : FormFile := mkFormFile "Me.PNG" 4 "data".
Definition demo_image `{Env} := UploadUserImage (D := Upload.Mem.Bucket) (C := MemStore.Mem) yaml_of [] (fun _ => None) signed
  (fun _ => "image/png") (fun _ => Some ("https", "s3.local")) (fun b l => Some (join_elems (b :: l))) None no_body (fun _ => None)
  (fun s => s) (fun _ => 0) (fun _ _ _ => 3).
Definition demo_path := new_path (H := quietEnv) (Y := gmap string StorageConfig) (D := Upload.Mem.Bucket) (C := MemStore.Mem) (fun _ => 0) (fun _ _ _ => 3) "doc"
  (SetID CtxKeyUin 7 newLogin) ".png" demo_host.
Lemma with_snd {A B} (q : A * B) a : fst q = a -> q = (a, snd q).
Proof. by destruct q as [x y]; intros <-. Qed.
Definition demo_cfg : StorageConfig := mkConfig (plain_option "doc") None None None (Some (mkS3Config "https://s3.local" "" "" "" "b" true)).
Lemma UploadUserImage_reads_back_witness : asks_for demo_cfg demo_s3 /\
  exists fi w', demo_image (H := quietEnv) demo_ctx "doc" (Ok demo_form) demo_host = (Ok (Done (JSON 200 (image_response (FI.ID fi) (FI.PublicURL fi)) demo_ctx)), w') /\
    FI.ID fi = 1 /\ fst (storager_ReadAll (H := quietEnv) [] demo_s3 (FI.StoragePath fi) w') = Ok "data".
Proof.
  destruct demo_path as [r w1] eqn:E. assert (Hr : fst demo_path = r) by (by rewrite E). destruct r as [p|e]; [|by vm_compute in Hr].
  destruct (new_path_state _ _ _ _ _ _ _ _ E) as [E1 Hp]. clear Hr.
  destruct w1 as [n h]. cbn [st] in E1. subst h.
  assert (Hn : n = calls (snd demo_path)) by (by rewrite E).
  assert (El : demo_load "doc" (mkWorld n (st demo_host)) = (Ok demo_s3, snd (demo_load "doc" (mkWorld n (st demo_host))))).
  { apply with_snd. rewrite Hn. vm_compute. reflexivity. }
  destruct (UploadUserImage_reads_back (H := quietEnv) (D := Upload.Mem.Bucket) (C := MemStore.Mem) yaml_of [] (fun _ => None) signed
    (fun _ => "image/png") (fun _ => Some ("https", "s3.local")) (fun b l => Some (join_elems (b :: l))) None no_body (fun _ => None)
    (fun s => s) (fun _ => 0) (fun _ _ _ => 3) quietEnv_ok demo_ctx "doc" demo_form (SetID CtxKeyUin 7 newLogin) p demo_cfg (Ok demo_s3) demo_host (mkWorld n (st demo_host))
    (snd (on_settings (yaml_of SettingGroupCore (SettingPrefix ++ "doc")) (mkWorld n (st demo_host)))) (snd (demo_load "doc" (mkWorld n (st demo_host))))) as [Hask Hup].
  - vm_compute. reflexivity.
  - exact E.
  - reflexivity.
  - apply with_snd. rewrite Hn. vm_compute. reflexivity.
  - exact El.
  - split; [done|]. apply Forall_nil. exact I.
  - split; [exact Hask|]. destruct Hup as (fi & w' & Ea & _ & Ei & Er); [exact Hp|]. exists fi, w'. split; [exact Ea|]. split; [exact Ei|exact Er].
Defined.
Definition loaded_host : World (Host (gmap string StorageConfig) Upload.Mem.Bucket MemStore.Mem) := snd (demo_load "doc" demo_host).
(** A row that cannot be made leaves its file behind. *)
#[local] Instance third_fails : Env := { env_clock := fun _ => 0; env_fault := fun n => if (n =? 3)%nat then Some (ErrNew "no database") else None }.
Example orphan : match demo_image demo_ctx "doc" (Ok demo_form) (mkWorld 0 (st loaded_host)) with
  | (Ok (Done c), w) => (status c, map (fun o => snd o) (map_to_list (MemStore.m_objs (s3 (st w)))), length (rows (files (upload_tabs (st w)))))
  | _ => (0, [], O) end = (500, ["data"], O).
Proof. vm_compute. reflexivity. Qed.
