(* ===== verification/FileQuery.v ===== *)
(** [src/storage/fileinfo_query.go]: the query builder on the table of uploaded
    files.  It changes one statement of gorm, also when it runs it; what the
    calls of gorm leave in the statement is modelled as its vendored code does. *)
From S2P Require Import Prelude Gorm FileInfo.
#[local] Open Scope string_scope.
#[local] Open Scope Z_scope.

(** A value for a placeholder; [VNil] is the nil interface. *)
Inductive SqlVal : Type := VNil | VNum (n : Z) | VStr (s : string) | VList (l : list SqlVal).
(** A column of [ORDER BY]: a text, or the primary key. *)
Inductive OrderKey : Type := ByText (s : string) | ById (desc : bool).
(** The database: whether a row meets a condition with a value for its
    placeholder, and how it sorts. *)
Class FileDb : Type := {
  holds : string -> SqlVal -> FileInfo -> bool;
  sort_rows : list OrderKey -> list FileInfo -> list FileInfo;
  offset_alone_ok : bool;
}.
Class FileDbOk `{FileDb} : Prop := {
  holds_company : forall n f, holds "company_id = ?" (VNum n) f = (f.(FI.CompanyID) =? n);
  holds_uin : forall n f, holds "uin = ?" (VNum n) f = (f.(FI.Uin) =? n);
  holds_purpose : forall s f, holds "purpose = ?" (VStr s) f = str_eqb f.(FI.Purpose) s;
  holds_status : forall s f, holds "status = ?" (VStr s) f = str_eqb f.(FI.Status) s;
  holds_hash : forall s f, holds "hash = ?" (VStr s) f = str_eqb f.(FI.Hash) s;
  holds_path : forall s f, holds "path = ?" (VStr s) f = str_eqb f.(FI.StoragePath) s;
  sort_perm : forall k l, Permutation (sort_rows k l) l;
  sort_id : forall k l, StronglySorted (fun a b => a.(FI.ID) <= b.(FI.ID)) (sort_rows (ById false :: k) l);
  sort_id_desc : forall k l, StronglySorted (fun a b => b.(FI.ID) <= a.(FI.ID)) (sort_rows (ById true :: k) l);
}.

(** [affected] is [RowsAffected] of the last query that ran, [failed] the error
    of the statement. *)
Record FileQuery : Type := mkFQ {
  stmt : Query FileInfo; keys : list OrderKey; lim : option Z; off : Z; raise : bool; affected : Z; failed : option error
}.
Definition set_stmt (s : Query FileInfo) (q : FileQuery) : FileQuery := mkFQ s q.(keys) q.(lim) q.(off) q.(raise) q.(affected) q.(failed).
Definition fail_with (e : error) (q : FileQuery) : FileQuery := mkFQ q.(stmt) q.(keys) q.(lim) q.(off) q.(raise) q.(affected) (Some e).
Definition set_affected (n : Z) (q : FileQuery) : FileQuery := mkFQ q.(stmt) q.(keys) q.(lim) q.(off) q.(raise) n q.(failed).
Definition db_Order (k : OrderKey) (q : FileQuery) : FileQuery := mkFQ q.(stmt) (q.(keys) ++ [k]) q.(lim) q.(off) q.(raise) q.(affected) q.(failed).
Definition db_Limit (n : Z) (q : FileQuery) : FileQuery := mkFQ q.(stmt) q.(keys) (Some n) q.(off) q.(raise) q.(affected) q.(failed).
Definition db_Offset (n : Z) (q : FileQuery) : FileQuery := mkFQ q.(stmt) q.(keys) q.(lim) n q.(raise) q.(affected) q.(failed).
Definition db_raise (q : FileQuery) : FileQuery := mkFQ q.(stmt) q.(keys) q.(lim) q.(off) true q.(affected) q.(failed).
Definition NewFileQuery : FileQuery := mkFQ newQuery [] None 0 false 0 None.

Section Builder.
Context `{FileDb}.
Definition db_Where (cond : string) (v : SqlVal) (q : FileQuery) : FileQuery := set_stmt (where_ (holds cond v) q.(stmt)) q.
(** [value != nil && value != EmptyString]. *)
Definition filled (v : SqlVal) : bool := match v with VNil => false | VStr s => negb (str_eqb s "") | _ => true end.
Definition not_nil (v : SqlVal) : bool := match v with VNil => false | _ => true end.
Definition Eq (column : string) (value : SqlVal) (q : FileQuery) : FileQuery := if filled value then db_Where (column ++ " = ?") value q else q.
Definition Ne (column : string) (value : SqlVal) (q : FileQuery) : FileQuery := if filled value then db_Where (column ++ " <> ?") value q else q.
Definition Gt (column : string) (value : SqlVal) (q : FileQuery) : FileQuery := if not_nil value then db_Where (column ++ " > ?") value q else q.
Definition Lt (column : string) (value : SqlVal) (q : FileQuery) : FileQuery := if not_nil value then db_Where (column ++ " < ?") value q else q.
Definition Like (column keyword : string) (q : FileQuery) : FileQuery :=
  if negb (str_eqb keyword "") then db_Where (column ++ " LIKE ?") (VStr ("%" ++ keyword ++ "%")) q else q.
Definition In_ (column : string) (values : SqlVal) (q : FileQuery) : FileQuery := db_Where (column ++ " IN ?") values q.
Definition OrderBy (column : string) (desc : bool) (q : FileQuery) : FileQuery :=
  if negb (str_eqb column "") then db_Order (ByText (if desc then column ++ " desc" else column)) q else q.
Definition LimitOffset (limit offset : Z) (q : FileQuery) : FileQuery :=
  let q := if 0 <? limit then db_Limit limit q else q in
  if 0 <? offset then db_Offset offset q else q.
Definition Company (companyID : Z) (q : FileQuery) : FileQuery := if 0 <? companyID then db_Where "company_id = ?" (VNum companyID) q else q.
Definition Uin (uin : Z) (q : FileQuery) : FileQuery := if 0 <? uin then db_Where "uin = ?" (VNum uin) q else q.
Definition Purpose (purpose : string) (q : FileQuery) : FileQuery := if negb (str_eqb purpose "") then db_Where "purpose = ?" (VStr purpose) q else q.
Definition Status (status : string) (q : FileQuery) : FileQuery := if negb (str_eqb status "") then db_Where "status = ?" (VStr status) q else q.
Definition Hash (hash : string) (q : FileQuery) : FileQuery := if negb (str_eqb hash "") then db_Where "hash = ?" (VStr hash) q else q.
Definition StoragePath (path : string) (q : FileQuery) : FileQuery := if negb (str_eqb path "") then db_Where "path = ?" (VStr path) q else q.
End Builder.

(** * Running the statement *)
Section Runs.
Context `{Env} `{FileDb} {S : Type} `{HasTab S FileInfo}.
Definition syntax_error : error := ErrVar "Error 1064: You have an error in your SQL syntax".
(** [LIMIT] and [OFFSET] on the rows of a result. *)
Definition window {A} (q : FileQuery) (l : list A) : list A :=
  let l := drop (Z.to_nat q.(off)) l in match q.(lim) with Some n => take (Z.to_nat n) l | None => l end.
Definition select {A} (q : FileQuery) (f : list FileInfo -> list A) (t : GTab FileInfo) : Res (list A) :=
  if (0 <? q.(off)) && match q.(lim) with None => negb offset_alone_ok | Some _ => false end then Err syntax_error
  else Ok (window q (f (List.filter (hits q.(stmt)) t.(rows)))).
(** The query callback: it does not run on a statement that has failed. *)
Definition run_query {A} (q : FileQuery) (f : list FileInfo -> list A) : M S (FileQuery * list A) :=
  match q.(failed) with
  | Some _ => gret (q, [])
  | None =>
      let! r := gtry (tab_read (select q f)) in
      gret match r with
           | Err e => (fail_with e q, [])
           | Ok l => let q := set_affected (Z.of_nat (length l)) q in
                     (if q.(raise) && (length l =? 0)%nat then fail_with ErrRecordNotFound q else q, l)
           end
  end.
Definition one_row (q : FileQuery) (k : OrderKey) : M S (FileQuery * (FileInfo * option error)) :=
  let! r := run_query (db_raise (db_Order k (db_Limit 1 q))) (sort_rows (q.(keys) ++ [k])) in
  gret (fst r, (hd FI.zero (snd r), (fst r).(failed))).
(** The statement afterwards comes with the answer. *)
Definition First (q : FileQuery) : M S (FileQuery * (FileInfo * option error)) := one_row q (ById false).
Definition Last (q : FileQuery) : M S (FileQuery * (FileInfo * option error)) := one_row q (ById true).
Definition List_ (q : FileQuery) : M S (FileQuery * (list FileInfo * option error)) :=
  let! r := run_query q (sort_rows q.(keys)) in gret (fst r, (snd r, (fst r).(failed))).
(** The answer is one row with the number, unless the window leaves it out. *)
Definition Count (q : FileQuery) : M S (FileQuery * (Z * option error)) :=
  let! r := run_query q (fun l => [Z.of_nat (length l)]) in
  let n := hd 0 (snd r) in
  gret (fst r, (if (fst r).(affected) =? 1 then n else (fst r).(affected), (fst r).(failed))).
End Runs.

(** * What the builder asks for *)
(** The calls of a chain. *)
Inductive Step : Type :=
  | SEq (column : string) (v : SqlVal) | SNe (column : string) (v : SqlVal) | SGt (column : string) (v : SqlVal) | SLt (column : string) (v : SqlVal)
  | SLike (column keyword : string) | SIn (column : string) (v : SqlVal) | SOrderBy (column : string) (desc : bool) | SLimitOffset (limit offset : Z)
  | SCompany (n : Z) | SUin (n : Z) | SPurpose (s : string) | SStatus (s : string) | SHash (s : string) | SStoragePath (s : string).
Section Meaning.
Context `{FileDb}.
Definition step (s : Step) : FileQuery -> FileQuery :=
  match s with
  | SEq c v => Eq c v | SNe c v => Ne c v | SGt c v => Gt c v | SLt c v => Lt c v | SLike c k => Like c k | SIn c v => In_ c v
  | SOrderBy c d => OrderBy c d | SLimitOffset l o => LimitOffset l o
  | SCompany n => Company n | SUin n => Uin n | SPurpose p => Purpose p | SStatus p => Status p | SHash p => Hash p | SStoragePath p => StoragePath p
  end.
Definition build (l : list Step) : FileQuery := fold_left (fun q s => step s q) l NewFileQuery.
(** The rows a call leaves in: an empty value asks for nothing. *)
Definition any_text (s t : string) : bool := str_eqb s "" || str_eqb t s.
Definition restricts (s : Step) (f : FileInfo) : bool :=
  match s with
  | SEq c v => negb (filled v) || holds (c ++ " = ?") v f
  | SNe c v => negb (filled v) || holds (c ++ " <> ?") v f
  | SGt c v => negb (not_nil v) || holds (c ++ " > ?") v f
  | SLt c v => negb (not_nil v) || holds (c ++ " < ?") v f
  | SLike c k => str_eqb k "" || holds (c ++ " LIKE ?") (VStr ("%" ++ k ++ "%")) f
  | SIn c v => holds (c ++ " IN ?") v f
  | SOrderBy _ _ | SLimitOffset _ _ => true
  | SCompany n => (n <=? 0) || (f.(FI.CompanyID) =? n)
  | SUin n => (n <=? 0) || (f.(FI.Uin) =? n)
  | SPurpose p => any_text p f.(FI.Purpose)
  | SStatus p => any_text p f.(FI.Status)
  | SHash p => any_text p f.(FI.Hash)
  | SStoragePath p => any_text p f.(FI.StoragePath)
  end.
(** The rows that all the calls leave in and that are not deleted. *)
Definition wanted (l : list Step) (f : FileInfo) : bool := forallb (fun s => restricts s f) l && live f.
Definition sorts (s : Step) : list OrderKey :=
  match s with SOrderBy c d => if str_eqb c "" then [] else [ByText (if d then c ++ " desc" else c)] | _ => [] end.

Context `{!FileDbOk}.
Lemma hits_and (p : FileInfo -> bool) s f : hits (where_ p s) f = hits s f && p f.
Proof. unfold hits, where_. cbn. rewrite forallb_app. cbn. rewrite andb_true_r. destruct (forallb _ _), (p f), (unscoped s || live f); done. Qed.
Lemma step_hits s q f : hits (step s q).(stmt) f = hits q.(stmt) f && restricts s f.
Proof.
  assert (Hw : forall b c v, hits (stmt (if negb b then db_Where c v q else q)) f = hits (stmt q) f && (b || holds c v f)).
  { intros [|] c v; cbn [negb orb]; [by rewrite andb_true_r|apply hits_and]. }
  assert (Ht : forall (b : bool) c v, hits (stmt (if b then db_Where c v q else q)) f = hits (stmt q) f && (negb b || holds c v f)).
  { intros [|] c v; cbn [negb orb]; [apply hits_and|by rewrite andb_true_r]. }
  destruct s; cbn [step restricts]; unfold Eq, Ne, Gt, Lt, Like, In_, Company, Uin, Purpose, Status, Hash, StoragePath, any_text; try apply Hw; try apply Ht.
  - apply hits_and.
  - unfold OrderBy. destruct (negb _); by rewrite andb_true_r.
  - unfold LimitOffset. by destruct (0 <? limit), (0 <? offset); rewrite andb_true_r.
  - rewrite Ht, holds_company. by destruct (Z.ltb_spec 0 n), (Z.leb_spec n 0); try lia.
  - rewrite Ht, holds_uin. by destruct (Z.ltb_spec 0 n), (Z.leb_spec n 0); try lia.
  - by rewrite Hw, holds_purpose.
  - by rewrite Hw, holds_status.
  - by rewrite Hw, holds_hash.
  - by rewrite Hw, holds_path.
Qed.
Lemma step_keys s q : (step s q).(keys) = (q.(keys) ++ sorts s)%list.
Proof.
  destruct s; cbn [step sorts]; unfold Eq, Ne, Gt, Lt, Like, In_, Company, Uin, Purpose, Status, Hash, StoragePath, OrderBy, LimitOffset;
    try (by rewrite app_nil_r); repeat case_match; cbn in *; try done; by rewrite ?app_nil_r.
Qed.
Lemma step_failed s q : (step s q).(failed) = q.(failed) /\ (step s q).(raise) = q.(raise).
Proof.
  destruct s; cbn [step]; unfold Eq, Ne, Gt, Lt, Like, In_, Company, Uin, Purpose, Status, Hash, StoragePath, OrderBy, LimitOffset;
    repeat case_match; done.
Qed.
Lemma build_from l : forall q, let r := fold_left (fun q s => step s q) l q in
  (forall f, hits r.(stmt) f = hits q.(stmt) f && forallb (fun s => restricts s f) l) /\ r.(keys) = (q.(keys) ++ flat_map sorts l)%list /\
  r.(failed) = q.(failed) /\ r.(raise) = q.(raise).
Proof.
  induction l as [|s l IH]; intros q; cbn [fold_left flat_map forallb].
  - rewrite app_nil_r. split; [|done]. intros f. by rewrite andb_true_r.
  - destruct (IH (step s q)) as (H1 & H2 & H3 & H4). destruct (step_failed s q) as [F1 F2]. split_and!.
    + intros f. by rewrite H1, step_hits, andb_assoc.
    + by rewrite H2, step_keys, <- app_assoc.
    + by rewrite H3.
    + by rewrite H4.
Qed.
Lemma build_hits l f : hits (build l).(stmt) f = wanted l f.
Proof. unfold build, wanted. destruct (build_from l NewFileQuery) as [-> _]. unfold hits. cbn. apply andb_comm. Qed.
Lemma build_rows l (rs : list FileInfo) : List.filter (hits (build l).(stmt)) rs = List.filter (wanted l) rs.
Proof. apply filter_ext. apply build_hits. Qed.
End Meaning.

(** * What is answered *)
Section Answers.
Context `{Env} `{FileDbOk} {S : Type} `{HasTab S FileInfo}.
Implicit Types (l : list Step) (w : World S) (f g : FileInfo).
Definition table (w : World S) : list FileInfo := (get_tab (st w)).(rows).
Lemma run_query_ok {A} q (f : list FileInfo -> list A) w : no_fault_from (calls w) -> q.(failed) = None ->
  (q.(off) <= 0 \/ q.(lim) <> None) ->
  let r := window q (f (List.filter (hits q.(stmt)) (table w))) in
  let q' := set_affected (Z.of_nat (length r)) q in
  run_query q f w = (Ok (if q.(raise) && (length r =? 0)%nat then fail_with ErrRecordNotFound q' else q', r), mkWorld (Datatypes.S (calls w)) (st w)).
Proof.
  intros Hf Hq Ho r q'. unfold run_query. rewrite Hq. unfold gtry, tab_read. rewrite gbind_eq, gextr_ok by by apply no_fault_here. cbn [fst snd].
  unfold select. replace ((0 <? off q) && _) with false; [reflexivity|].
  destruct Ho as [Ho|Ho]; [by rewrite (proj2 (Z.ltb_ge _ _))|]. by destruct (lim q); [rewrite andb_false_r|].
Qed.
Lemma run_query_failed {A} q (f : list FileInfo -> list A) w e : q.(failed) = Some e -> run_query q f w = (Ok (q, []), w).
Proof. intros Hq. unfold run_query. by rewrite Hq. Qed.
(** [List] answers the rows that every call of the chain leaves in and that are
    not deleted, sorted as the chain asks, in its window; an empty value, a zero
    id or an empty column name asks for nothing.  The statement is then as it
    was, so a second [List] answers by the same conditions. *)
Theorem FileQuery_List l w : no_fault_from (calls w) -> ((build l).(off) <= 0 \/ (build l).(lim) <> None) ->
  exists n, List_ (build l) w =
    (Ok (set_affected n (build l),
         (window (build l) (sort_rows (flat_map sorts l) (List.filter (wanted l) (table w))), None)), mkWorld (Datatypes.S (calls w)) (st w)) /\
  forall f, In f (sort_rows (flat_map sorts l) (List.filter (wanted l) (table w))) <-> In f (table w) /\ wanted l f = true.
Proof.
  intros Hf Ho. destruct (build_from l NewFileQuery) as (_ & Hk & He & Hr). cbn in Hk, He, Hr. fold (build l) in *.
  unfold List_. rewrite gbind_eq, run_query_ok by done. rewrite Hr. cbn [andb fst snd]. rewrite build_rows, Hk. eexists. split.
  - unfold gret, set_affected. cbn [failed]. rewrite He. reflexivity.
  - intros f. rewrite <- filter_In, <- !list_elem_of_In. by rewrite sort_perm.
Qed.

(** The lowest id. *)
Definition lowest (p : FileInfo -> bool) (rs : list FileInfo) f : Prop :=
  In f rs /\ p f = true /\ forall g, In g rs -> p g = true -> f.(FI.ID) <= g.(FI.ID).
Lemma sorted_head k p rs f r : sort_rows (ById false :: k) (List.filter p rs) = f :: r -> lowest p rs f.
Proof.
  intros E. pose proof (sort_id k (List.filter p rs)) as Hs. rewrite E in Hs. apply StronglySorted_inv in Hs as [_ Hs].
  assert (Hin : forall g, In g (f :: r) <-> In g rs /\ p g = true) by (intros g; by rewrite <- E, <- filter_In, <- !list_elem_of_In, sort_perm).
  destruct (proj1 (Hin f) (or_introl eq_refl)) as [Hi Hpf]. split_and!; [done|done|]. intros g Hg Hp.
  destruct (proj2 (Hin g) (conj Hg Hp)) as [<-|Hr]; [lia|]. rewrite Forall_forall in Hs. apply Hs. by apply list_elem_of_In.
Qed.
Lemma sorted_nil k p rs : sort_rows (ById false :: k) (List.filter p rs) = [] -> forall f, In f rs -> p f = false.
Proof.
  intros E f Hf. destruct (p f) eqn:Ep; [|done]. assert (Hin : f ∈ List.filter p rs) by (apply list_elem_of_In; by apply filter_In).
  rewrite <- (sort_perm (ById false :: k)), E in Hin. by apply elem_of_nil in Hin.
Qed.
Lemma lowest_unique p rs f g : distinct rs = true -> lowest p rs f -> lowest p rs g -> f = g.
Proof.
  intros Hd (Hf & Pf & Lf) (Hg & Pg & Lg). pose proof (Lf g Hg Pg). pose proof (Lg f Hf Pf).
  assert (Hc : m_collide f g = true) by (cbn; lia). clear - Hd Hf Hg Hc. induction rs as [|x rs IH]; [done|]. cbn in Hd. apply andb_true_iff in Hd as [Hx Hd].
  apply negb_true_iff, not_true_iff_false in Hx. rewrite existsb_exists in Hx. cbn in Hc, Hx.
  destruct Hf as [->|Hf], Hg as [->|Hg]; [done|exfalso; apply Hx; exists g; by split|exfalso; apply Hx; exists f; split; [done|lia]|by apply IH].
Qed.
(** A chain without an order and a window. *)
Definition plain_chain l : Prop := flat_map sorts l = [] /\ (build l).(off) = 0.
Definition used l : FileQuery := db_raise (db_Order (ById false) (db_Limit 1 (build l))).
Lemma First_run l w : no_fault_from (calls w) -> plain_chain l ->
  let r := take 1 (sort_rows [ById false] (List.filter (wanted l) (table w))) in
  let q := set_affected (Z.of_nat (length r)) (used l) in
  let q' := if (length r =? 0)%nat then fail_with ErrRecordNotFound q else q in
  First (build l) w = (Ok (q', (hd FI.zero r, q'.(failed))), mkWorld (Datatypes.S (calls w)) (st w)).
Proof.
  intros Hf [Hs Ho] r q q'. destruct (build_from l NewFileQuery) as (_ & Hk & He & Hr). cbn in Hk, He, Hr. fold (build l) in *.
  unfold First, one_row. fold (used l). rewrite gbind_eq, run_query_ok by (done || (by right) || exact He). rewrite Hk, Hs. cbn [app raise used db_raise andb].
  change (window (used l)) with (fun l0 : list FileInfo => take 1 (drop (Z.to_nat (build l).(off)) l0)). rewrite Ho. cbn [Z.to_nat drop].
  change (stmt (used l)) with (stmt (build l)). rewrite build_rows. reflexivity.
Qed.
(** [First] answers the row with the lowest id among those that every call of
    the chain leaves in and that are not deleted, or an empty record and that
    there is none. *)
Theorem FileQuery_First l w : no_fault_from (calls w) -> plain_chain l ->
  exists q' f e, First (build l) w = (Ok (q', (f, e)), mkWorld (Datatypes.S (calls w)) (st w)) /\
    match e with
    | None => lowest (wanted l) (table w) f
    | Some e => e = ErrRecordNotFound /\ f = FI.zero /\ forall g, In g (table w) -> wanted l g = false
    end.
Proof.
  intros Hf Hp. rewrite First_run by done. do 3 eexists. split; [reflexivity|].
  destruct (build_from l NewFileQuery) as (_ & _ & He & _). cbn in He. fold (build l) in He.
  destruct (sort_rows [ById false] _) as [|f r] eqn:E; cbn.
  - split; [done|]. split; [done|]. by eapply sorted_nil.
  - rewrite He. by eapply sorted_head.
Qed.

Lemma used_failed l n : (set_affected n (used l)).(failed) = None /\ keys (used l) = (flat_map sorts l ++ [ById false])%list.
Proof. destruct (build_from l NewFileQuery) as (_ & Hk & He & _). cbn in Hk, He. fold (build l) in *. cbn. by rewrite He, Hk. Qed.
(** A query is used up by [First]: what it adds to the statement stays.  After a
    row was found, [List] answers that row alone and [Last] answers it too,
    whatever else the conditions fit; after none was found, every later call
    fails with that error, without asking the database. *)
Theorem FileQuery_reuse l w q' f e w' : no_fault_from (calls w) -> plain_chain l -> distinct (table w) = true ->
  First (build l) w = (Ok (q', (f, e)), w') ->
  match e with
  | None => (exists q2 w2, List_ q' w' = (Ok (q2, ([f], None)), w2)) /\ exists q2 w2, Last q' w' = (Ok (q2, (f, None)), w2)
  | Some e => forall v : World S, List_ q' v = (Ok (q', ([], Some e)), v) /\ Count q' v = (Ok (q', (0, Some e)), v)
  end.
Proof.
  intros Hf Hp Hd. rewrite First_run by done. destruct Hp as [Hs Ho]. destruct (used_failed l 0) as [Hu Hk]. rewrite Hs in Hk. cbn [app] in Hk.
  set (r := take 1 _). destruct (build_from l NewFileQuery) as (_ & _ & He & _). cbn in He. fold (build l) in He.
  destruct (sort_rows [ById false] (List.filter (wanted l) (table w))) as [|x xs] eqn:E; subst r; cbn [take length Nat.eqb hd]; intros [= <- <- <- <-].
  - intros v. unfold List_, Count. rewrite !gbind_eq, !(run_query_failed _ _ _ ErrRecordNotFound) by done. done.
  - cbn [set_affected failed used db_raise db_Order db_Limit]. rewrite He.
    set (w' := mkWorld _ (st w)). assert (Hf' : no_fault_from (calls w')) by (eapply no_fault_le; [|exact Hf]; cbn; lia).
    assert (Hlow : lowest (wanted l) (table w) x) by (by eapply sorted_head).
    assert (Hrun : forall k q2, stmt q2 = stmt (build l) -> off q2 = 0 -> lim q2 = Some 1 ->
      window q2 (sort_rows (ById false :: k) (List.filter (hits (stmt q2)) (table w'))) = [x]).
    { intros k q2 E1 E2 E3. rewrite E1, build_rows. change (table w') with (table w). unfold window. rewrite E2, E3.
      destruct (sort_rows (ById false :: k) _) as [|y ys] eqn:Ey.
      - destruct Hlow as (Hin & Hw & _). by rewrite (sorted_nil k _ _ Ey x Hin) in Hw.
      - change (take (Z.to_nat 1) (drop (Z.to_nat 0) (y :: ys))) with [y]. f_equal. eapply lowest_unique; [exact Hd|by eapply sorted_head|done]. }
    split.
    + unfold List_. rewrite gbind_eq, run_query_ok; [|done|exact He|by right]. cbn [keys set_affected]. rewrite Hk, Hrun by (done || exact Ho).
      do 2 eexists. cbn. rewrite He. reflexivity.
    + unfold Last, one_row. rewrite gbind_eq, run_query_ok; [|done|exact He|by right]. cbn [keys set_affected]. rewrite Hk. cbn [app]. rewrite Hrun by (done || exact Ho).
      do 2 eexists. cbn. rewrite He. reflexivity.
Qed.
(** Behind a first page there is nothing to count: with an offset [Count]
    answers none, however many rows there are. *)
Theorem Count_behind_offset l w : no_fault_from (calls w) -> 0 < (build l).(off) -> (build l).(lim) <> None ->
  exists q', Count (build l) w = (Ok (q', (0, None)), mkWorld (Datatypes.S (calls w)) (st w)).
Proof.
  intros Hf Ho Hl. destruct (build_from l NewFileQuery) as (_ & _ & He & Hr). cbn in He, Hr. fold (build l) in *.
  unfold Count. rewrite gbind_eq, run_query_ok by (done || by right). unfold window. destruct (lim (build l)) as [n|]; [|done].
  destruct (Z.to_nat (off (build l))) as [|k] eqn:Ek; [lia|]. cbn [drop]. rewrite drop_nil, take_nil, Hr. cbn. rewrite He. by eexists.
Qed.
End Answers.

(** * A database in memory *)
Definition id_le (a b : FileInfo) : Prop := a.(FI.ID) <= b.(FI.ID).
#[export] Instance id_le_dec : RelDecision id_le := fun a b => Z_le_dec a.(FI.ID) b.(FI.ID).
Lemma id_le_total : Total id_le.
Proof. intros a b. unfold id_le. lia. Qed.
Lemma id_le_trans : Transitive id_le.
Proof. intros a b c. unfold id_le. lia. Qed.
Module FileMem.
Definition by_key (k : OrderKey) (l : list FileInfo) : list FileInfo :=
  match k with ById false => merge_sort id_le l | ById true => rev (merge_sort id_le l) | ByText _ => l end.
Definition num_of (v : SqlVal) : Z := match v with VNum n => n | _ => 0 end.
Definition str_of (v : SqlVal) : string := match v with VStr s => s | _ => "" end.
#[global] Instance mem_db : FileDb := {
  holds c v f := if str_eqb c "company_id = ?" then f.(FI.CompanyID) =? num_of v else if str_eqb c "uin = ?" then f.(FI.Uin) =? num_of v
    else if str_eqb c "purpose = ?" then str_eqb f.(FI.Purpose) (str_of v) else if str_eqb c "status = ?" then str_eqb f.(FI.Status) (str_of v)
    else if str_eqb c "hash = ?" then str_eqb f.(FI.Hash) (str_of v) else if str_eqb c "path = ?" then str_eqb f.(FI.StoragePath) (str_of v)
    else if str_eqb c "filename LIKE ?" then like (str_of v) f.(FI.Filename) else false;
  sort_rows k l := match k with [] => l | k :: _ => by_key k l end;
  offset_alone_ok := false;
}.
Lemma rev_sorted l : StronglySorted id_le l -> StronglySorted (fun a b => id_le b a) (rev l).
Proof.
  induction 1 as [|x l Hl IH Hx]; [constructor|]. cbn. clear Hl. rewrite Forall_forall in Hx.
  assert (Hr : forall y, y ∈ rev l -> id_le x y) by (intros y Hy; apply Hx; rewrite list_elem_of_In in *; by apply in_rev).
  clear Hx. induction (rev l) as [|y r IHr]; cbn; [by repeat constructor|]. apply StronglySorted_inv in IH as [Hs Hy]. constructor.
  - apply IHr; [done|]. intros z Hz. apply Hr. by right.
  - apply Forall_app. split; [done|]. repeat constructor. apply Hr. by left.
Qed.
Lemma id_sorted l : StronglySorted id_le (merge_sort id_le l).
Proof.
  apply Sorted_StronglySorted; [exact id_le_trans|]. pose proof id_le_total. apply (Sorted_merge_sort id_le).
Qed.
#[global] Instance mem_db_ok : FileDbOk.
Proof.
  split; try (intros; reflexivity).
  - intros [|[s|[|]] k] l; [done|done| |]; cbn; [|apply merge_sort_Permutation].
    etransitivity; [symmetry; apply Permutation_rev|apply merge_sort_Permutation].
  - intros k l. cbn. apply id_sorted.
  - intros k l. cbn. apply rev_sorted, id_sorted.
Qed.
End FileMem.
Definition file_row (id company : Z) (purpose name : string) (deleted : option Z) : FileInfo :=
  FI.mkFile id 0 0 deleted company 0 purpose name "" "" 0 "" "" "" "" 1 "normal" FI.notChunked.
Definition file_tab (l : list FileInfo) : World FileTabs := mkWorld 0 (mkTabs (mkGTab l 100) (mkGTab [] 1)).
Definition some_files : World FileTabs :=
  file_tab [file_row 5 7 "doc" "b" None; file_row 3 7 "doc" "a" None; file_row 2 7 "doc" "gone" (Some 1); file_row 1 8 "doc" "c" None].
Definition chain : list Step := [SCompany 7; SPurpose "doc"; SStatus ""].
Lemma FileQuery_List_witness : exists q, List_ (H := quietEnv) (H0 := FileMem.mem_db) (build chain) some_files =
  (Ok (q, ([file_row 5 7 "doc" "b" None; file_row 3 7 "doc" "a" None], None)), mkWorld 1 (st some_files)).
Proof.
  destruct (FileQuery_List (H := quietEnv) (H0 := FileMem.mem_db) chain some_files) as (n & E & _).
  - apply quietEnv_ok.
  - left. vm_compute. congruence.
  - eexists. etransitivity; [exact E|]. vm_compute. reflexivity.
Defined.
Lemma plain_chain_ok : plain_chain (H0 := FileMem.mem_db) chain.
Proof. split; vm_compute; reflexivity. Qed.
Definition first_run := First (H := quietEnv) (H0 := FileMem.mem_db) (build chain) some_files.
Lemma FileQuery_First_witness : exists q' f w', first_run = (Ok (q', (f, None)), w') /\ f.(FI.ID) <= 3.
Proof.
  destruct (FileQuery_First (H := quietEnv) (H0 := FileMem.mem_db) chain some_files (quietEnv_ok 0) plain_chain_ok) as (q' & f & e & E & Hm).
  destruct e as [e|]; [exfalso|].
  - destruct Hm as (_ & _ & Hn). specialize (Hn (file_row 3 7 "doc" "a" None)). vm_compute in Hn. assert (true = false); [|done]. apply Hn. tauto.
  - exists q', f, (mkWorld 1 (st some_files)). split; [exact E|]. destruct Hm as (_ & _ & Hl). apply (Hl (file_row 3 7 "doc" "a" None)); vm_compute; tauto.
Defined.
Lemma FileQuery_reuse_witness : exists q' f w', first_run = (Ok (q', (f, None)), w') /\
  exists q2 w2, List_ (H := quietEnv) (H0 := FileMem.mem_db) q' w' = (Ok (q2, ([f], None)), w2).
Proof.
  assert (E : exists q' f w', first_run = (Ok (q', (f, None)), w')) by (do 3 eexists; vm_compute; reflexivity).
  destruct E as (q' & f & w' & E). exists q', f, w'. split; [exact E|].
  destruct (FileQuery_reuse (H := quietEnv) (H0 := FileMem.mem_db) chain some_files q' f None w' (quietEnv_ok 0) plain_chain_ok) as [Hl _].
  - vm_compute. reflexivity.
  - exact E.
  - exact Hl.
Defined.
Lemma Count_behind_offset_witness : exists q', Count (H := quietEnv) (H0 := FileMem.mem_db) (build [SLimitOffset 1 1]) some_files =
  (Ok (q', (0, None)), mkWorld 1 (st some_files)).
Proof.
  apply (Count_behind_offset (H := quietEnv) (H0 := FileMem.mem_db) [SLimitOffset 1 1] some_files (quietEnv_ok 0)); [vm_compute; reflexivity|vm_compute; congruence].
Defined.
(** Nothing asked for: the chain of empty values fits every row. *)
Example nothing_asked : fst (List_ (H := quietEnv) (H0 := FileMem.mem_db) (build [SCompany 0; SPurpose ""; SEq "hash" VNil; SLike "filename" ""; SOrderBy "" true]) some_files) =
  Ok (set_affected 3 NewFileQuery, ([file_row 5 7 "doc" "b" None; file_row 3 7 "doc" "a" None; file_row 1 8 "doc" "c" None], None)).
Proof. vm_compute. reflexivity. Qed.
