(* ===== verification/PageQuery.v ===== *)
(** [src/apis/apiobj/query.go]: the page, order and filters of a list request
    and their check, with [fmt.Errorf] on a format without arguments.  A nil
    slice of allowed fields, or an allower without the method, is [None]. *)
From S2P Require Import Prelude Regexp Strings Gorm FileInfo Upload JsonText.
#[local] Open Scope string_scope.
#[local] Open Scope Z_scope.

(** * [fmt.Sprintf] without arguments

    The verbs of the format find no argument: the text says so in their place.
    [i] of the Go code is the rest of the text. *)
Module Fmt.
Definition tooLarge (x : Z) : bool := 1000000 <? x.
(** [parsenum]: the digits in front, and what follows them. *)
Fixpoint digits (num : Z) (isnum : bool) (s : list Z) : bool * list Z :=
  match s with
  | c :: s' => if within 48 57 c then if tooLarge num then (false, []) else digits (num * 10 + (c - 48)) true s' else (isnum, s)
  | [] => (isnum, [])
  end.
Definition parsenum (s : list Z) : bool * list Z := digits 0 false s.
Fixpoint to_bracket (s : list Z) : option (list Z * list Z) :=
  match s with
  | [] => None
  | c :: s' => if c =? 93 then Some ([], s') else option_map (fun p => (c :: fst p, snd p)) (to_bracket s')
  end.
(** [argNumber]: whether an index was read, whether it was good, and the rest;
    no index is good without arguments. *)
Definition argNumber (s : list Z) : bool * bool * list Z :=
  match s with
  | 91 :: t =>
      match (if (length s <? 3)%nat then None else to_bracket t) with
      | None => (false, false, t)
      | Some (num, rest) => let '(ok, tl) := parsenum num in (ok && is_nil tl, false, rest)
      end
  | _ => (false, true, s)
  end.
Fixpoint flags (s : list Z) : list Z :=
  match s with c :: s' => if existsb (Z.eqb c) [35; 48; 43; 45; 32] then flags s' else s | [] => [] end.
Definition text (s : string) : list Z := rune_bytes s.
(** What stands before a verb: what is written for it, whether the index is
    good, and the rest. *)
Definition width (after : bool) (s : list Z) : list Z * bool * bool * list Z :=
  match s with
  | 42 :: t => (text "%!(BADWIDTH)", true, false, t)
  | _ => let '(present, t) := parsenum s in ([], negb (after && present), after, t)
  end.
Definition precision (after : bool) (s : list Z) : list Z * bool * bool * list Z :=
  match s with
  | 46 :: t =>
      let '(after', good, t) := argNumber t in
      let good := good && negb after in
      match t with
      | 42 :: t' => (text "%!(BADPREC)", good, false, t')
      | _ => ([], good, after', snd (parsenum t))
      end
  | _ => ([], true, after, s)
  end.
Fixpoint print0 (fuel : nat) (s : list Z) : list Z :=
  match fuel with
  | O => []
  | S fuel' =>
      match s with
      | [] => []
      | c :: s' =>
          if negb (c =? 37) then c :: print0 fuel' s'
          else
            let '(a1, g1, s1) := argNumber (flags s') in
            let '(w, g2, a2, s2) := width a1 s1 in
            let '(p, g3, a3, s3) := precision a2 s2 in
            let '(g4, s4) := if a3 then (true, s3) else let '(_, g, t) := argNumber s3 in (g, t) in
            match s4 with
            | [] => w ++ p ++ text "%!(NOVERB)"
            | v :: t =>
                let '(verb, n) := DecodeRune v t in
                let rest := drop (n - 1) t in
                (w ++ p ++ (if verb =? 37 then [37]
                            else if g1 && g2 && g3 && g4 then text "%!" ++ EncodeRune verb ++ text "(MISSING)"
                            else text "%!" ++ EncodeRune verb ++ text "(BADINDEX)") ++ print0 fuel' rest)%list
            end
      end
  end.
Definition Sprintf0 (format : string) : string := of_bytes (print0 (S (String.length format)) (rune_bytes format)).
End Fmt.

(** * The request *)
Definition DefaultPageSize : Z := 10.
Definition PageMaxCount : Z := 150.
Record Filter : Type := mkFilter { Field : string; Value : list string; ExactMatch : bool }.
Record PageQuery : Type := mkPageQuery {
  Offset : Z; Limit : Z; ListAll : bool; OrderBy : list string; Filters : list Filter; BeginTime : Z; EndTime : Z;
  IsBackend : bool; CompanyID : Z; EmployeeID : Z; Uin : Z
}.
Definition Fill (p : PageQuery) : PageQuery :=
  let offset := if p.(Offset) <=? 0 then 0 else p.(Offset) in
  let limit := if (p.(Limit) <=? 0) || (PageMaxCount <? p.(Limit)) then DefaultPageSize else p.(Limit) in
  let limit := if p.(ListAll) then PageMaxCount else limit in
  mkPageQuery offset limit p.(ListAll) p.(OrderBy) p.(Filters) p.(BeginTime) p.(EndTime) p.(IsBackend) p.(CompanyID) p.(EmployeeID) p.(Uin).
Definition containsString (arr : list string) (str : string) : bool := existsb (str_eqb str) arr.
(** What the allower allows; [None] checks nothing. *)
Record Allower : Type := mkAllower { AllowOrderFields : option (list string); AllowFilterFields : option (list string) }.

Section Check.
Context (unicode_lower : string -> string).
Definition Errorf (format : string) : error := ErrNew (Fmt.Sprintf0 format).
(** A text of [OrderBy] as it is compared. *)
Definition order_field (ob : string) : string := trim_suffix " asc" (trim_suffix " desc" (ToLower unicode_lower (TrimSpace ob))).
Fixpoint first_error {A} (check : A -> option error) (l : list A) : option error :=
  match l with [] => None | x :: l' => match check x with Some e => Some e | None => first_error check l' end end.
Definition check_order (allow : list string) (ob : string) : option error :=
  let ob := order_field ob in if containsString allow ob then None else Some (Errorf ("不支持的排序字段: %s" ++ ob)).
Definition check_filter (allow : list string) (f : Filter) : option error :=
  if negb (containsString allow f.(Field)) then Some (Errorf ("不支持的过滤字段: %s" ++ f.(Field)))
  else if (length f.(Value) =? 0)%nat then Some (Errorf ("过滤字段值不能为空: %v" ++ f.(Field)))
  else if has_suffix "_at" f.(Field) && negb (length f.(Value) =? 2)%nat then Some (Errorf ("时间过滤字段值必须为两个: %v" ++ f.(Field)))
  else None.
Definition IsValite (p : PageQuery) (allower : option Allower) : option error :=
  if p.(Offset) <? 0 then Some (ErrNew ("offset is invalid, " ++ fmt_d p.(Offset)))
  else if (p.(Limit) <=? 0) || (PageMaxCount <? p.(Limit)) then Some (ErrNew ("limit is invalid, " ++ fmt_d p.(Limit)))
  else
    let orders := match allower with Some a => a.(AllowOrderFields) | None => None end in
    let filters := match allower with Some a => a.(AllowFilterFields) | None => None end in
    match (match orders with Some allow => first_error (check_order allow) p.(OrderBy) | None => None end) with
    | Some e => Some e
    | None => match filters with Some allow => first_error (check_filter allow) p.(Filters) | None => None end
    end.

(** * What the check lets through *)
(** An order is an allowed field, in any case, within white space, with a
    direction or two. *)
Definition ordered_by (fields : list string) (ob : string) : Prop :=
  exists f dir, In f fields /\ ToLower unicode_lower (TrimSpace ob) = f ++ dir /\ In dir [""; " asc"; " desc"; " asc desc"].
Definition filter_ok (fields : list string) (f : Filter) : Prop :=
  In f.(Field) fields /\ f.(Value) <> [] /\ (has_suffix "_at" f.(Field) = true -> length f.(Value) = 2%nat).
Lemma first_error_none {A} (check : A -> option error) l : first_error check l = None <-> forall x, In x l -> check x = None.
Proof.
  induction l as [|x l IH]; cbn; [by split|]. destruct (check x) eqn:E.
  - split; [done|]. intros Hx. rewrite <- E. apply Hx. by left.
  - rewrite IH. split; [intros Hl y [<-|Hy]; by auto|by auto].
Qed.
Lemma containsString_In l s : containsString l s = true <-> In s l.
Proof.
  unfold containsString, str_eqb. rewrite existsb_exists. split; [intros (x & Hx & ->%String.eqb_eq); done|]. intros Hs. exists s. by rewrite String.eqb_refl.
Qed.
Lemma trim_suffix_inv p s : exists d, s = trim_suffix p s ++ d /\ (d = "" \/ d = p).
Proof.
  unfold trim_suffix. destruct (has_suffix p s) eqn:E; [|exists ""; split; [by rewrite str_app_nil_r|by left]].
  exists p. split; [|by right]. apply has_suffix_inv in E. rewrite <- E at 2. by rewrite take_drop_text.
Qed.
Lemma order_dirs s f : trim_suffix " asc" (trim_suffix " desc" s) = f -> exists dir, s = f ++ dir /\ In dir [""; " asc"; " desc"; " asc desc"].
Proof.
  intros <-. destruct (trim_suffix_inv " desc" s) as (d1 & E1 & H1). destruct (trim_suffix_inv " asc" (trim_suffix " desc" s)) as (d2 & E2 & H2).
  exists (d2 ++ d1). split; [by rewrite <- append_assoc, <- E2|]. destruct H1 as [->| ->], H2 as [->| ->]; cbn; tauto.
Qed.
(** [Fill] makes the page of any request valid: from zero or more, of one to
    150 rows, so that the check can only refuse its order and filters. *)
Theorem Fill_valid p : let q := Fill p in
  0 <= q.(Offset) /\ 1 <= q.(Limit) <= PageMaxCount /\ IsValite q None = None /\
  (0 <= p.(Offset) -> q.(Offset) = p.(Offset)) /\
  (p.(ListAll) = false -> 1 <= p.(Limit) <= PageMaxCount -> q.(Limit) = p.(Limit)).
Proof.
  assert (Hp : 0 <= (Fill p).(Offset) /\ 1 <= (Fill p).(Limit) <= PageMaxCount).
  { unfold Fill, PageMaxCount, DefaultPageSize. cbn. destruct (Z.leb_spec p.(Offset) 0), (Z.leb_spec p.(Limit) 0), (Z.ltb_spec 150 p.(Limit)), p.(ListAll); cbn; lia. }
  cbv zeta. destruct Hp as [H1 H2]. split; [done|]. split; [done|]. split; [|split].
  - unfold IsValite. rewrite (proj2 (Z.ltb_ge _ _)) by done. rewrite (proj2 (Z.leb_gt _ _)), (proj2 (Z.ltb_ge _ _)) by lia. done.
  - intros H. unfold Fill. cbn. destruct (Z.leb_spec p.(Offset) 0); lia.
  - intros Hl H. unfold Fill. cbn. rewrite Hl, (proj2 (Z.leb_gt _ _)), (proj2 (Z.ltb_ge _ _)) by lia. done.
Qed.
Lemma check_filter_ok allow f : check_filter allow f = None <-> filter_ok allow f.
Proof.
  unfold check_filter, filter_ok. rewrite <- containsString_In. destruct (containsString allow (Field f)); cbn [negb]; [|split; [done|by intros [? _]]].
  destruct (Value f) as [|v l] eqn:Ev; cbn [length Nat.eqb]; [split; [done|by intros (_ & ? & _)]|].
  destruct (has_suffix "_at" (Field f)); cbn [andb]; [|split; [intros _; split_and!; by intros|done]].
  destruct (Nat.eqb_spec (length l) 1) as [E|E]; cbn [negb]; [split; [intros _; split_and!; try done; lia|done]|].
  split; [done|]. intros (_ & _ & H). specialize (H eq_refl). lia.
Qed.
(** The check accepts exactly the requests whose page is in bounds, whose orders
    are allowed fields after trimming, and whose filters are on allowed fields
    and have a value, two for a time. *)
Theorem IsValite_accepts p a : IsValite p (Some a) = None <->
  0 <= p.(Offset) /\ 1 <= p.(Limit) <= PageMaxCount /\
  (forall fields ob, a.(AllowOrderFields) = Some fields -> In ob p.(OrderBy) -> In (order_field ob) fields) /\
  (forall fields f, a.(AllowFilterFields) = Some fields -> In f p.(Filters) -> filter_ok fields f).
Proof.
  unfold IsValite. destruct (Z.ltb_spec p.(Offset) 0); [split; [done|lia]|]. destruct (Z.leb_spec p.(Limit) 0); [split; [done|lia]|].
  destruct (Z.ltb_spec PageMaxCount p.(Limit)); cbn [orb]; [split; [done|lia]|].
  assert (Ho : forall fields, first_error (check_order fields) p.(OrderBy) = None <-> forall ob, In ob p.(OrderBy) -> In (order_field ob) fields).
  { intros fields. rewrite first_error_none. unfold check_order. setoid_rewrite <- containsString_In.
    split; intros Hx ob Hob; specialize (Hx ob Hob); by destruct (containsString _ _). }
  assert (Hfl : forall fields, first_error (check_filter fields) p.(Filters) = None <-> forall f, In f p.(Filters) -> filter_ok fields f).
  { intros fields. rewrite first_error_none. by setoid_rewrite check_filter_ok. }
  destruct (AllowOrderFields a) as [os|]; [destruct (first_error (check_order os) _) eqn:E1|];
    destruct (AllowFilterFields a) as [fs|]; try destruct (first_error (check_filter fs) _) eqn:E2.
  all: try (split; [done|]; intros (_ & _ & H3 & H4)).
  all: try (exfalso; first [assert (Some e = None) by (rewrite <- E1; by apply Ho; eauto); done|assert (Some e = None) by (rewrite <- E2; by apply Hfl; eauto); done]).
  all: split; [intros _|done]; split_and!; try lia; intros fields x [= <-]; first [by apply Ho|by apply Hfl].
Qed.
(** What [ORDER BY] is then given is, but for case and white space around it, an
    allowed field with a direction or two: no other text gets through. *)
Theorem accepted_orders p a fields ob : IsValite p (Some a) = None -> a.(AllowOrderFields) = Some fields -> In ob p.(OrderBy) -> ordered_by fields ob.
Proof.
  intros E Ha Hob. assert (Hin : In (order_field ob) fields).
  { assert (Hc : first_error (check_order fields) p.(OrderBy) = None) by (unfold IsValite in E; rewrite Ha in E; repeat case_match; congruence).
    rewrite first_error_none in Hc. specialize (Hc ob Hob). unfold check_order in Hc. apply containsString_In. by destruct (containsString _ _). }
  destruct (order_dirs _ _ eq_refl : exists dir, ToLower unicode_lower (TrimSpace ob) = order_field ob ++ dir /\ _) as (dir & E2 & Hd).
  by exists (order_field ob), dir.
Qed.
End Check.

(** * Requests *)
Definition demo_query (orders : list string) (filters : list Filter) : PageQuery := mkPageQuery (-3) 1000 false orders filters 0 0 false 0 0 0.
Definition demo_allow : Allower := mkAllower (Some ["name"; "id"]) (Some ["created_at"; "name"]).
Definition no_upper : string -> string := fun s => s.
Lemma accepted_orders_witness : ordered_by no_upper ["name"; "id"] " NAME Desc".
Proof. apply (accepted_orders no_upper (Fill (demo_query [" NAME Desc"; "id"] [])) demo_allow ["name"; "id"]); [vm_compute; reflexivity|reflexivity|by left]. Defined.
(** A direction before another passes, and so does a filter on one time. *)
Example two_directions : IsValite no_upper (Fill (demo_query ["name asc desc"] [])) (Some demo_allow) = None.
Proof. vm_compute. reflexivity. Qed.
(** The field is put behind the verb, which then has no argument. *)
Example refused_text : IsValite no_upper (Fill (demo_query ["salary"] [])) (Some demo_allow) = Some (ErrNew "不支持的排序字段: %!s(MISSING)salary") /\
  IsValite no_upper (Fill (demo_query [] [mkFilter "created_at" ["1"] true])) (Some demo_allow) = Some (ErrNew "时间过滤字段值必须为两个: %!v(MISSING)created_at") /\
  Fmt.Sprintf0 "100%% %[1]d %*.*f %.2f%" = "100% %!d(BADINDEX) %!(BADWIDTH)%!(BADPREC)%!f(MISSING) %!f(MISSING)%!(NOVERB)".
Proof. split_and!; vm_compute; reflexivity. Qed.
